(* ===== verification/_CoqProject ===== *)
-Q . S2P
Prelude.v
Errors.v
Encoding.v
Sha256.v
Timestamp.v
TimeParse.v
Constants.v
EventRegistry.v
Envelope.v
Posture.v
Crypto.v
Sqlite.v
L2Consensus.v
Suspended.v
L3Notary.v
Regex.v
Json.v
Doctrine.v
JsonEncode.v
JsonDecode.v
JsonTree.v
Replay.v
Receipt.v
Payload.v
Warden.v
Concurrent.v
Chain.v
Commitment.v
Capability.v
Actuator.v
Pipeline.v
AuditChain.v
AuditMigrate.v
ReceiptStore.v
Segment.v
Snapshot.v
StateStore.v
StateRoot.v
Handlers.v
Dispatch.v
Evidence.v
EvidenceGraph.v
EvidenceImport.v
OperationalExport.v
OperationalImport.v
OperationalInventory.v
OperationalTransfer.v
OperationalGraph.v
Procs.v
EnrollmentModel.v
Enrollment.v
EnrollmentRun.v
EnrollmentSafety.v
EnrollmentLive.v
SchemaModel.v
SchemaCompile.v
SchemaValidate.v
SchemaSpec.v
SchemaPanic.v
SchemaDoc.v
SchemaPointer.v
SchemaSample.v
SchemaCompiled.v
SchemaIndex.v
SchemaExact.v
SchemaFailures.v
SchemaDecode.v
SchemaCases.v
