(* ===== verification/Prelude.v ===== *)
(** * Governance pipeline of g8e

    g8e is a gateway that lets agents act on machines only through governed
    transactions.  A transaction travels as a signed envelope; a warden verifies it,
    an actuator executes it, and receipts, a commitment ledger and an audit chain
    record what happened.  This development models those parts of the Go code as
    executable definitions and proves what makes them correct.  File and function
    names below are under src/internal/.

    ** How the parts fit together

    An envelope ([Envelope], governance/envelope.go) carries a payload, metadata and
    the proofs of the layers.  [Warden] (services/governance/l4_warden.go) reserves the
    envelope's nonce in a replay store, recomputes the transaction hash, screens the
    payload (L1), compares the state root, counts consensus votes (L2) and checks the
    human decision (L3).  [Actuator] (l5_actuator.go) takes the verified transaction,
    logs a signed receipt and appends a commitment before it hands a capability to the
    handler, and logs a final receipt after it.  [Dispatch] (services/pubsub/pubsub_commands.go)
    is the program around them: it decodes a delivery, runs the warden and the actuator
    and, as the actuator's handler, the egress functions of [Handlers].  [Pipeline] composes warden and actuator and audits
    the stage records of the result as protocol_chain.go does ([Chain]).  The audit
    store ([AuditChain], services/storage) and the state root ([StateRoot],
    services/gateway) are what the receipts and the envelopes refer to.

    ** Files

    Ground: [Prelude] (strings, lists, options, tactics), [Errors] (sentinels, wrapped
    errors, the result monad), [Encoding], [Sha256], [Json], [JsonEncode], [JsonDecode],
    [JsonTree], [Regex] (the parts of Go's standard library the code uses, as far as it
    uses them; the JSON writer and reader are inverse), [Timestamp] and [TimeParse]
    (timesvc/timestamp.go), [Crypto] (Ed25519 as a class of three operations with the
    laws of a signature scheme), [Sqlite] (services/sqliteutil/db.go: retries, backoff,
    immediate transactions on a pool of connections, and the statement monad [sq] in
    which transactions are written).

    Vocabulary: [Constants] (constants/action_types_gen.go, collections.go),
    [EventRegistry] (constants/events_gen.go, registry_governed.go), [Envelope],
    [Posture] (services/governance/posture.go), [Payload] (payload_decode.go).

    Layers: [Doctrine] (L1, l1_doctrine.go), [L2Consensus] (l2_consensus.go,
    signer_store.go, gateway/consensus_store_service.go), [Suspended] and [L3Notary]
    (storage/suspended_transaction_store.go, l3_notary.go), [Replay] (the interface
    [ReplayStore] with its laws and its two implementations), [Warden], [Concurrent]
    (the same calls interleaved), [Capability], [Receipt], [Commitment]
    (storage/commitment_ledger.go), [Actuator], [Chain], [Pipeline].

    Dispatch: [Handlers] (the handler tables, the payload table of protocol_helpers.go
    and every egress handler of pubsub_commands.go as a list of calls with a result),
    [Dispatch] (the HTTP entry [ProcessEnvelope] and the command channel's
    [handleCommandPayload]).

    Stores: [AuditChain] (storage/audit_chain.go and the recording part of
    audit_store.go), [AuditMigrate] (the backfill of audit_chain.go), [ReceiptStore] (the
    receipts table and the retention of audit_store.go), [Segment]
    (audit_chain_segment.go), [Snapshot] (operational_snapshot.go), [StateStore] (gateway/db/schema.sql with its triggers,
    kv_store_service.go, blob_store_service.go, the statements of
    document_store_service.go), [StateRoot] (gateway/state_root_service.go).

    Compliance evidence (services/compliance/evidence): [Evidence] (primitives.go and the
    node type of graph.go), [EvidenceGraph] (graph.go, graph_report.go), [EvidenceImport]
    (receipt_importer.go, commitment_importer.go), [OperationalExport] and
    [OperationalImport] (the package of files that carries a snapshot to the verifier);
    [OperationalInventory], [OperationalTransfer] and [OperationalGraph] hold the theorems
    that join them: what is written is read, which chains survive the transfer, and what
    the graph makes of an import.

    Platform enrollment: [Procs] (programs over statements of any effects, threads that
    interleave and crash, and the rules by which a property of every statement becomes
    one of every execution), [EnrollmentModel] (models/platform_enrollment.go,
    gateway/platform_enrollment_validation.go and _state.go), [Enrollment]
    (gateway/platform_enrollment_service.go and the governance handlers of
    pubsub/platform_enrollment_handlers.go over the document store), [EnrollmentRun]
    (executable schedules and an example), [EnrollmentSafety] and [EnrollmentLive].

    JSON schemas (jsonschema): [SchemaModel] (errors.go, capabilities.go, jsonpointer.go,
    schema.go, and the equality of validator.go), [SchemaCompile] (compiler.go: a state
    monad over a store of nodes) and [SchemaValidate] (validator.go) are the code.
    [SchemaSpec] gives a schema a meaning without collectors and orders, [SchemaDoc] gives
    one to the document itself, [SchemaPointer] relates pointers to paths, [SchemaCompiled]
    and [SchemaIndex] follow the compiler's state, [SchemaPanic] says when the validator
    panics, [SchemaExact], [SchemaFailures] and [SchemaDecode] hold the theorems, [SchemaSample] and [SchemaCases] concrete schemas.

    ** How code becomes definitions

    A Go function is a function of the same name.  What it reads from outside (clocks,
    random bytes, answers of a database or of another service) is an argument, usually
    a record with one field per reading in the order of the readings; mutable state is
    passed explicitly; an error is a value of [Errors.gerr], which keeps what
    [errors.Is] can see.  A table is a finite map from its key to its row, or the list
    of its rows where the order matters; a statement that fails leaves it as it was.
    A COMMIT that fails leaves the committed state too, but its connection may go back to
    the pool in the transaction, where it makes later ones fail; a context that ends while
    a COMMIT runs, which only the pruning of the audit chain could have, is left out.
    Integers that can overflow are wrapped to their width where they are computed.
    Code that is not in the repository is a parameter: Ed25519, protobuf encoding, the
    vault's cipher, SQLite's GLOB, the passkey and session verifiers; for JSON schemas also
    Go's regular expressions, floats, URLs and mail addresses ([SchemaModel.golib], of which
    nothing is assumed).  What is used of
    them is a named hypothesis or the law of a class, and a toy instance in the
    witnesses shows that it can hold.

    ** What the theorems show

    - Identity ([Envelope]): the transaction hash binds every covered field up to a
      SHA-256 collision, does not depend on map order, and which fields it confuses.
    - Layers: the exact conditions under which L1, L2 and L3 accept; a quorum is a
      quorum of distinct members with valid signatures; the human protocol from
      suspension to verification is complete and sound.
    - Warden: the exact condition of acceptance; a nonce is accepted at most once, in
      sequence ([Warden]) and under every interleaving ([Concurrent]); a rejection
      leaves no reservation; the window in which a replay is possible.
    - Actuator: nothing runs unless a receipt and a commitment are on record; what the
      receipt says of the run; the ledger stays a sealed chain whatever fails.
    - Dispatch: whatever arrives by either entry, a service is called only for an
      envelope accepted in that delivery and only by the handler of its action; a refused
      delivery leaves records, a FAILED receipt and notices of the rejection, and no
      shutdown is signalled; what a published inference result and a shutdown signal imply;
      where the live state root is compared and where not; four handlers that can never
      succeed.
    - Evidence: receipts, commitments and signature lists are bound by what is signed;
      a complete run passes the chain audit, with the exact exceptions.
    - Receipts and migration: every reachable store holds one row per transaction beside
      an intact chain; what a history of stages leaves; when the backfill of an older
      database verifies and when it never will.
    - Compliance: which rows a snapshot holds; exported entries and inventories are read
      back; an exported chain is accepted exactly when the snapshot left no event out and
      the digests of the events taken cover their contents alone;
      an imported node is its file and its status is exact; the graph's report is exact
      and its search for cycles ends; an import with a recorded receipt is refused.
    - Enrollment: under every interleaving of clients, cleanup and envelopes, with
      statements that fail and operations that stop half-way, a request moves only along
      its life cycle, what was issued stays, an approval is the active owner's and a
      stored request is well formed; an approval is not lost to a crash; the lease does
      not exclude a second issuance and the quota not a concurrent creation.  Requests and
      policies are documents of one table: a policy may be persisted among the requests,
      and one example does it; the invariants are about histories in which no envelope
      accepted from another producer writes to the requests' own collection.
    - JSON schemas: a schema that compiles without a failure accepts exactly what its
      document accepts, references included and in every order of the maps; failures are
      bounded, sorted and point into the value; the validator panics only where a number
      divided by a multipleOf overflows; the decoder ends and what it lets through
      is bounded; where the engine departs from its comments or from Draft-07.
    - Stores: retried transactions are atomic whatever the driver answers, a transaction
      left open blocks those after it, retries are bounded; the audit chain is
      intact in every reachable database and tampering with it shows; the cached state
      root is coherent with concurrent writers, binds the state when hashed texts hold no
      line feed and keys no quotation mark, and does not otherwise; entries live until
      their deadline and a scan misses nothing.

    ** Fuel and bounds

    [Regex] and [Json] recurse on a fuel taken from the length of the input, which is
    proved enough where a theorem depends on it.  A retry loop runs as many turns as
    the configuration says.  [Concurrent.alone] needs five steps.
    The decoder of [SchemaModel] has twice the bytes and two calls, which is proved
    enough for every text, refused ones included; [compileNode] and [validate] recurse on the code's own depth limit.
    The search of [EvidenceGraph.dfs] is given one more than the number of nodes, which
    [cycles_detected] shows to be enough.  [EnrollmentRun.acts] follows a given list of
    actions; [Procs.steps] has no bound.  [StateStore.scan_all] is a client's loop; one call per key and one more suffice.

    ** Not modelled

    HTTP, CLI and TUI layers, pub/sub transport, subscription and reconnects, the
    services behind the fire-and-forget handlers, inference providers,
    the evaluation campaigns, the public mirror, key stores, the
    vault's cipher, command execution on the host, and generated protocol code: they
    are I/O, presentation or third-party glue, or wait for a later extension.  Of the
    compliance services: graders, framework profiles, report bundles with their verifier,
    and the importers of other sources.  Within
    the modelled parts: logging; the JSON editing of documents and queries over JSON
    paths; operator staleness; the migration of columns; sessions, file mutations and the
    listing of events in the audit store; pruning by size; the pragmas and health checks
    of a database.  Of platform enrollment: the HTTP controllers and the timer around the
    cleanup; the certificate authority, the users, the operator documents and the
    sessions answer as an environment that may answer anything; the generic document
    handlers are no part of its histories.  Of JSON schemas: the texts
    of errors and the capability inventory, which only tests read.

    ** Extensions that come next

    The document service with its JSON merge, the report bundle verifier, and the
    scrubbing service. *)
From Stdlib Require Import String Ascii List ZArith Lia Bool.
From stdpp Require Import base strings list gmap.

(** ** Strings

    A Go string is a sequence of bytes; here it is a [String.string], whose
    characters are the 256 bytes.  [+:+] is stdpp's append. *)

Declare Scope go_scope.
Delimit Scope go_scope with go.
Open Scope go_scope.

(** stdpp keeps [append] folded; the proofs below compute with it. *)
#[global] Arguments String.append !_ _ / : simpl nomatch.

(** A byte given by its code. *)
Notation "'#' n" := (ascii_of_nat n) (at level 9, n at level 8, only parsing) : go_scope.

(** The database of the development: facts that close the routine goals about
    strings, results and maps. *)
Create HintDb g8e.
Create Rewrite HintDb g8e.

(** [str_nonempty s] is Go's [s != ""]. *)
Definition str_nonempty (s : string) : bool :=
  match s with EmptyString => false | _ => true end.

Lemma str_nonempty_true s : str_nonempty s = true <-> s <> EmptyString.
Proof. by destruct s. Qed.

Lemma str_nonempty_false s : str_nonempty s = false <-> s = EmptyString.
Proof. by destruct s. Qed.

(** A string as its list of bytes and back. *)
Lemma list_ascii_app s t :
  list_ascii_of_string (s +:+ t) = list_ascii_of_string s ++ list_ascii_of_string t.
Proof. induction s as [|c s IH]; simpl; [done | by rewrite IH]. Qed.

Lemma list_ascii_inj s t : list_ascii_of_string s = list_ascii_of_string t -> s = t.
Proof.
  intros H. rewrite <- (string_of_list_ascii_of_string s), H.
  apply string_of_list_ascii_of_string.
Qed.

Lemma string_app_assoc (s t u : string) : (s +:+ t) +:+ u = s +:+ (t +:+ u).
Proof. induction s as [|c s IH]; simpl; [done | by rewrite IH]. Qed.

Lemma string_app_nil_r (s : string) : s +:+ EmptyString = s.
Proof. induction s as [|c s IH]; simpl; [done | by rewrite IH]. Qed.

Lemma string_app_length (s t : string) :
  String.length (s +:+ t) = (String.length s + String.length t)%nat.
Proof. induction s as [|c s IH]; simpl; [done | by rewrite IH]. Qed.

Lemma string_app_inj_l (s t u : string) : s +:+ t = s +:+ u -> t = u.
Proof. induction s as [|c s IH]; simpl; [done | intros [= H]; auto]. Qed.

(** Two strings of the same length followed by anything split the same way. *)
Lemma string_app_split (s t u v : string) :
  String.length s = String.length t -> s +:+ u = t +:+ v -> s = t /\ u = v.
Proof.
  revert t. induction s as [|c s IH]; intros [|d t]; simpl; intros Hl; try done.
  intros [= -> H]. destruct (IH t ltac:(lia) H) as [-> ->]. done.
Qed.

Lemma string_app_inj_r (s t u : string) : t +:+ s = u +:+ s -> t = u.
Proof.
  intros H. assert (Hl : String.length t = String.length u).
  { apply (f_equal String.length) in H. rewrite !string_app_length in H. lia. }
  by destruct (string_app_split _ _ _ _ Hl H).
Qed.

#[export] Hint Rewrite string_app_assoc string_app_nil_r : g8e.

(** [has_char c s]: byte [c] occurs in [s]. *)
Fixpoint has_char (c : ascii) (s : string) : bool :=
  match s with
  | EmptyString => false
  | String d s => Ascii.eqb c d || has_char c s
  end.

Lemma has_char_app c s t : has_char c (s +:+ t) = has_char c s || has_char c t.
Proof. induction s as [|d s IH]; simpl; [done | by rewrite IH, orb_assoc]. Qed.

(** A byte that does not occur in two strings delimits them. *)
Lemma string_delim_inj c s t u v :
  has_char c s = false -> has_char c t = false ->
  s +:+ String c u = t +:+ String c v -> s = t /\ u = v.
Proof.
  revert t. induction s as [|d s IH]; intros [|e t]; simpl; intros Hs Ht H.
  - by injection H as ->.
  - injection H as -> _. by rewrite Ascii.eqb_refl in Ht.
  - injection H as <- _. by rewrite Ascii.eqb_refl in Hs.
  - apply orb_false_iff in Hs as [_ Hs]. apply orb_false_iff in Ht as [_ Ht].
    injection H as -> H. by destruct (IH t Hs Ht H) as [-> ->].
Qed.

(** Go's [strings.Join]. *)
Fixpoint str_join (sep : string) (l : list string) : string :=
  match l with
  | [] => EmptyString
  | [s] => s
  | s :: l => s +:+ sep +:+ str_join sep l
  end.

Lemma str_join_cons sep s l : l <> [] -> str_join sep (s :: l) = s +:+ sep +:+ str_join sep l.
Proof. by destruct l. Qed.

(** A list whose parts hold no separator byte is determined by its join, once
    the number of parts is known. *)
Lemma str_join_inj c l l' :
  List.length l = List.length l' ->
  Forall (fun s => has_char c s = false) l -> Forall (fun s => has_char c s = false) l' ->
  str_join (String c EmptyString) l = str_join (String c EmptyString) l' -> l = l'.
Proof.
  revert l'. induction l as [|s l IH]; intros [|t l'] Hl Hs Ht; try done.
  inversion Hs as [|? ? Hs1 Hs2]; inversion Ht as [|? ? Ht1 Ht2]; subst.
  destruct l as [|s2 l], l' as [|t2 l']; simpl in Hl; try lia.
  { simpl. by intros ->. }
  rewrite !str_join_cons by done. simpl (_ +:+ str_join _ _).
  intros H. destruct (string_delim_inj _ _ _ _ _ Hs1 Ht1 H) as [-> H'].
  f_equal. apply IH; [simpl; lia | done..].
Qed.

(** [strings.Split(s, sep)] for a one-byte separator. *)
Fixpoint split_on (sep : ascii) (s : string) : list string :=
  match s with
  | EmptyString => [EmptyString]
  | String c s =>
      if Ascii.eqb c sep then EmptyString :: split_on sep s
      else match split_on sep s with
           | [] => [String c EmptyString]
           | x :: l => String c x :: l
           end
  end.

(** Go's [strings.HasPrefix] and [strings.Contains] are [String.prefix] and the
    following. *)
Fixpoint contains (sub s : string) : bool :=
  String.prefix sub s ||
  match s with EmptyString => false | String _ s => contains sub s end.

Lemma prefix_iff p s : String.prefix p s = true <-> exists r, s = p +:+ r.
Proof.
  revert s. induction p as [|c p IH]; intros s.
  - split; intros _; [by exists s | by destruct s].
  - destruct s as [|d s]; [split; [done | intros [? [=]]]|].
    simpl. destruct (ascii_dec c d) as [->|Hn].
    + rewrite IH. split; intros [r Hr]; exists r; [by rewrite Hr | by injection Hr].
    + split; [done|]. intros [r [= -> _]]. done.
Qed.

Lemma contains_iff sub s : contains sub s = true <-> exists a b, s = a +:+ sub +:+ b.
Proof.
  induction s as [|c s IH]; unfold contains; fold contains;
    rewrite orb_true_iff, prefix_iff.
  - split.
    + intros [[r Hr]|]; [|done]. by exists EmptyString, r.
    + intros (a & b & H). left. destruct a; [by exists b | done].
  - rewrite IH. split.
    + intros [[r Hr]|(a & b & ->)]; [by exists EmptyString, r | by exists (String c a), b].
    + intros (a & b & H). destruct a as [|d a].
      * left. by exists b.
      * right. injection H as -> ->. by exists a, b.
Qed.

(** ** Lists *)

(** Go's [slices.Contains] on a decidable type. *)
Definition mem {A} `{EqDecision A} (x : A) (l : list A) : bool := bool_decide (x ∈ l).

Lemma mem_true {A} `{EqDecision A} (x : A) l : mem x l = true <-> x ∈ l.
Proof. unfold mem. apply bool_decide_eq_true. Qed.

(** ** Automation *)

(** Splits every boolean conjunction among the hypotheses and turns boolean
    equality tests into equalities. *)
Ltac bools :=
  repeat match goal with
  | H : _ && _ = true |- _ => apply andb_prop in H as [? ?]
  | H : _ || _ = false |- _ => apply orb_false_elim in H as [? ?]
  | H : negb _ = true |- _ => apply negb_true_iff in H
  | H : negb _ = false |- _ => apply negb_false_iff in H
  | H : bool_decide _ = true |- _ => apply bool_decide_eq_true in H
  | H : bool_decide _ = false |- _ => apply bool_decide_eq_false in H
  | H : String.eqb _ _ = true |- _ => apply String.eqb_eq in H
  | H : String.eqb _ _ = false |- _ => apply String.eqb_neq in H
  end.

(** Case analysis on every [match] or [if] of the hypothesis [H] (or of the
    goal), keeping the equations. *)
Ltac case_in H :=
  repeat match type of H with
  | context [match ?x with _ => _ end] => destruct x eqn:?; try discriminate H
  end.

Ltac case_goal :=
  repeat match goal with
  | |- context [match ?x with _ => _ end] => destruct x eqn:?
  end.

(** ** The byte order on strings (Go's [<], SQLite's BINARY collation) *)

Lemma string_compare_spec s t :
  match String.compare s t with
  | Eq => s = t
  | Lt => String.compare t s = Gt
  | Gt => String.compare t s = Lt
  end.
Proof.
  pose proof (String.compare_antisym t s) as H.
  destruct (String.compare s t) eqn:E; simpl in H; try done. by apply String.compare_eq_iff.
Qed.

Lemma ltb_trans s t u : String.ltb s t = true -> String.ltb t u = true -> String.ltb s u = true.
Proof.
  unfold String.ltb. revert t u. induction s as [|c s IH]; intros [|d t] [|e u]; simpl; try done.
  unfold Ascii.compare.
  destruct (N.compare_spec (N_of_ascii c) (N_of_ascii d)) as [E1|L1|G1]; try done;
  destruct (N.compare_spec (N_of_ascii d) (N_of_ascii e)) as [E2|L2|G2]; try done; intros H1 H2.
  - rewrite E1, E2, N.compare_refl. exact (IH _ _ H1 H2).
  - rewrite E1. by apply N.compare_lt_iff in L2 as ->.
  - rewrite <- E2. by apply N.compare_lt_iff in L1 as ->.
  - assert (N_of_ascii c < N_of_ascii e)%N as L by lia. by apply N.compare_lt_iff in L as ->.
Qed.

Lemma ltb_irrefl s : String.ltb s s = false.
Proof.
  unfold String.ltb. pose proof (string_compare_spec s s) as H.
  destruct (String.compare s s) eqn:E; congruence.
Qed.

Lemma ltb_total s t : String.ltb s t = true \/ s = t \/ String.ltb t s = true.
Proof.
  unfold String.ltb. pose proof (string_compare_spec s t).
  destruct (String.compare s t); auto. right; right. by rewrite H.
Qed.

Lemma ltb_not_sym s t : String.ltb s t = true -> String.ltb t s = false.
Proof.
  intros H. destruct (String.ltb t s) eqn:E; [|done].
  by rewrite <- (ltb_irrefl s), (ltb_trans s t s H E).
Qed.
