(* ===== verification/Errors.v ===== *)
(** Errors and results.

    A Go error is identified by what [errors.Is] can see of it: the sentinel
    variables of [src/internal/constants/errors.go], and the chains that
    [fmt.Errorf] builds over them with [%w].  The text that a chain renders to
    is not computed; where the code stores that text, the functions that need it
    take the renderer as an argument. *)
From S2P Require Import Prelude.
From Stdlib Require Import String List Bool.
From stdpp Require Import base strings list.

(** [Sentinel n] is the package variable [constants.n]; [Errorf f ws] is
    [fmt.Errorf f ...] whose [%w] operands are [ws]; [Extern s] is an error of a
    library, of which only the origin [s] is known. *)
Inductive gerr : Type :=
| Sentinel (name : string)
| Errorf (fmt : string) (wrapped : list gerr)
| Extern (origin : string).

(** Go's [errors.Is err constants.target]: the chain holds the sentinel. *)
Fixpoint err_is (target : string) (e : gerr) : bool :=
  match e with
  | Sentinel n => String.eqb n target
  | Errorf _ ws => existsb (err_is target) ws
  | Extern _ => false
  end.

Lemma err_is_sentinel n : err_is n (Sentinel n) = true.
Proof. apply String.eqb_refl. Qed.

Lemma err_is_wrapped f e n : err_is n (Errorf f [e]) = err_is n e.
Proof. simpl. apply orb_false_r. Qed.

(** A Go function that returns [(A, error)]. *)
Inductive result (A : Type) : Type :=
| Ok (a : A)
| Err (e : gerr).
Arguments Ok {A} a.
Arguments Err {A} e.

Definition rbind {A B} (r : result A) (f : A -> result B) : result B :=
  match r with Ok a => f a | Err e => Err e end.

(** [if err != nil { return fmt.Errorf(fmt, err) }]. *)
Definition wrap_err {A} (fmt : string) (r : result A) : result A :=
  match r with Ok a => Ok a | Err e => Err (Errorf fmt [e]) end.

(** [if !cond { return err }]. *)
Definition require (cond : bool) (e : gerr) : result unit :=
  if cond then Ok tt else Err e.

Notation "'let?' x := e 'in' k" := (rbind e (fun x => k))
  (at level 10, x pattern, e at level 100, k at level 200) : go_scope.

Definition is_ok {A} (r : result A) : bool :=
  match r with Ok _ => true | Err _ => false end.

(** [err_of r n]: [r] is an error whose chain holds sentinel [n]. *)
Definition err_of {A} (r : result A) (n : string) : bool :=
  match r with Ok _ => false | Err e => err_is n e end.

Lemma rbind_Ok {A B} (r : result A) (f : A -> result B) b :
  rbind r f = Ok b <-> exists a, r = Ok a /\ f a = Ok b.
Proof. destruct r; simpl; split; naive_solver. Qed.

Lemma rbind_Err {A B} (r : result A) (f : A -> result B) e :
  rbind r f = Err e <-> r = Err e \/ exists a, r = Ok a /\ f a = Err e.
Proof. destruct r; simpl; split; naive_solver. Qed.

Lemma require_Ok c e u : require c e = Ok u <-> c = true.
Proof. destruct c, u; simpl; split; naive_solver. Qed.

Lemma require_Err c e e' : require c e = Err e' <-> c = false /\ e = e'.
Proof. destruct c; simpl; split; naive_solver. Qed.

Lemma wrap_err_Ok {A} f (r : result A) a : wrap_err f r = Ok a <-> r = Ok a.
Proof. destruct r; simpl; split; naive_solver. Qed.

Lemma is_ok_true {A} (r : result A) : is_ok r = true <-> exists a, r = Ok a.
Proof. destruct r; simpl; split; naive_solver. Qed.

Lemma is_ok_rbind {A B} (r : result A) (f : A -> result B) :
  is_ok r = true -> (forall a, is_ok (f a) = true) -> is_ok (rbind r f) = true.
Proof. destruct r; simpl; auto. Qed.

Lemma is_ok_wrap_err {A} f (r : result A) : is_ok (wrap_err f r) = is_ok r.
Proof. by destruct r. Qed.

(** Runs a list of checks in order and stops at the first error: the shape of a
    Go function that is a sequence of early returns. *)
Fixpoint all_ok (cs : list (result unit)) : result unit :=
  match cs with
  | [] => Ok tt
  | c :: cs => let? _ := c in all_ok cs
  end.

Lemma all_ok_Ok cs : all_ok cs = Ok tt <-> Forall (fun c => c = Ok tt) cs.
Proof.
  induction cs as [|c cs IH]; simpl; [split; [constructor | done]|].
  rewrite rbind_Ok, Forall_cons, <- IH. split.
  - intros ([] & ? & ?). done.
  - intros [??]. by exists tt.
Qed.

(** The first check that fails is the one reported. *)
Lemma all_ok_Err cs e :
  all_ok cs = Err e <->
  exists pre post, cs = pre ++ Err e :: post /\ Forall (fun c => c = Ok tt) pre.
Proof.
  induction cs as [|c cs IH]; simpl.
  { split; [done|]. intros (pre & post & H & _). by destruct pre. }
  rewrite rbind_Err. setoid_rewrite IH. split.
  - intros [->|([] & -> & pre & post & -> & Hpre)].
    + by exists [], cs.
    + exists (Ok tt :: pre), post. by split; [|constructor].
  - intros (pre & post & H & Hpre). destruct pre as [|c' pre]; injection H as -> ->.
    + by left.
    + inversion Hpre; subst. right. exists tt. split; [done|]. by exists pre, post.
Qed.

#[export] Hint Rewrite @rbind_Ok @require_Ok @wrap_err_Ok : g8e.

(** Inversion of a sequence of checks that returned [Ok]: every bind becomes an
    equation on its step, every guard a boolean fact. *)
Ltac inv_ok :=
  repeat match goal with
  | H : rbind _ _ = Ok _ |- _ => apply rbind_Ok in H as (? & ? & ?)
  | H : wrap_err _ _ = Ok _ |- _ => apply wrap_err_Ok in H
  | H : require _ _ = Ok _ |- _ => apply require_Ok in H
  | H : Ok _ = Ok _ |- _ => injection H as H; try subst
  | H : Err _ = Ok _ |- _ => discriminate H
  | x : unit |- _ => destruct x
  end.
