(* ===== verification/Encoding.v ===== *)
(** The encodings of Go's standard library that the pipeline uses:
    [encoding/hex], [encoding/base64] (StdEncoding), [encoding/binary]
    (big-endian), and decimal rendering of integers. *)
From S2P Require Import Prelude.
From Stdlib Require Import String Ascii List ZArith Lia Bool.
From stdpp Require Import base strings list.
Open Scope Z_scope.

(** ** Bytes *)

Definition byte_val (c : ascii) : Z := Z.of_N (N_of_ascii c).
Definition byte_of (z : Z) : ascii := ascii_of_N (Z.to_N z).

Lemma byte_val_range c : 0 <= byte_val c < 256.
Proof. unfold byte_val. pose proof (N_ascii_bounded c). lia. Qed.

Lemma byte_of_val c : byte_of (byte_val c) = c.
Proof. unfold byte_of, byte_val. rewrite N2Z.id. apply ascii_N_embedding. Qed.

Lemma byte_val_of z : 0 <= z < 256 -> byte_val (byte_of z) = z.
Proof.
  intros Hz. unfold byte_val, byte_of. rewrite N_ascii_embedding by lia. lia.
Qed.

Lemma byte_val_inj c d : byte_val c = byte_val d -> c = d.
Proof. intros H. by rewrite <- (byte_of_val c), H, byte_of_val. Qed.

Lemma byte_of_inj x y :
  0 <= x < 256 -> 0 <= y < 256 -> byte_of x = byte_of y -> x = y.
Proof. intros Hx Hy H. by rewrite <- (byte_val_of x), H, byte_val_of. Qed.

(** The bytes of a string as numbers, and back. *)
Definition str_bytes (s : string) : list Z := map byte_val (list_ascii_of_string s).
Definition bytes_str (l : list Z) : string := string_of_list_ascii (map byte_of l).

Lemma str_bytes_range s : Forall (fun b => 0 <= b < 256) (str_bytes s).
Proof.
  unfold str_bytes. induction (list_ascii_of_string s); constructor; auto using byte_val_range.
Qed.

Lemma str_bytes_inj s t : str_bytes s = str_bytes t -> s = t.
Proof.
  unfold str_bytes. intros H. apply list_ascii_inj.
  revert H. generalize (list_ascii_of_string t). generalize (list_ascii_of_string s).
  induction l as [|c l IH]; intros [|d m]; simpl; try done.
  intros [= H1 H2]. f_equal; auto using byte_val_inj.
Qed.

Lemma bytes_str_inj l m :
  Forall (fun b => 0 <= b < 256) l -> Forall (fun b => 0 <= b < 256) m ->
  bytes_str l = bytes_str m -> l = m.
Proof.
  unfold bytes_str. intros Hl. revert m.
  induction Hl as [|x l Hx Hl IH]; intros m Hm; inversion Hm as [|y m' Hy Hm']; subst;
    simpl; try done.
  intros [= H1 H2]. f_equal; auto using byte_of_inj.
Qed.

Lemma length_str_bytes s : List.length (str_bytes s) = String.length s.
Proof. unfold str_bytes. induction s as [|c s IH]; simpl; [done | by rewrite IH]. Qed.

Lemma length_bytes_str l : String.length (bytes_str l) = List.length l.
Proof. unfold bytes_str. induction l as [|c s IH]; simpl; [done | by rewrite IH]. Qed.

(** ** Hexadecimal *)

Definition hex_digit (d : Z) : ascii := byte_of (if d <? 10 then 48 + d else 87 + d).

Definition hex_byte (c : ascii) : string :=
  let b := byte_val c in
  String (hex_digit (b / 16)) (String (hex_digit (b mod 16)) EmptyString).

(** [hex.EncodeToString]. *)
Fixpoint hex_encode (s : string) : string :=
  match s with
  | EmptyString => EmptyString
  | String c s => hex_byte c +:+ hex_encode s
  end.

(** The value of a hexadecimal digit of either case. *)
Definition hex_val (c : ascii) : option Z :=
  let b := byte_val c in
  if (48 <=? b) && (b <=? 57) then Some (b - 48)
  else if (97 <=? b) && (b <=? 102) then Some (b - 87)
  else if (65 <=? b) && (b <=? 70) then Some (b - 55)
  else None.

(** [hex.DecodeString]: [None] stands for its error (a bad digit or an odd
    length). *)
Fixpoint hex_decode (s : string) : option string :=
  match s with
  | EmptyString => Some EmptyString
  | String h (String l s) =>
      match hex_val h, hex_val l, hex_decode s with
      | Some a, Some b, Some r => Some (String (byte_of (16 * a + b)) r)
      | _, _, _ => None
      end
  | String _ EmptyString => None
  end.

Lemma hex_digit_val d : 0 <= d < 16 -> hex_val (hex_digit d) = Some d.
Proof.
  intros Hd. unfold hex_val, hex_digit.
  destruct (Z.ltb_spec d 10); rewrite byte_val_of by lia;
    repeat (match goal with |- context [?a <=? ?b] => destruct (Z.leb_spec a b); try lia end);
    simpl; f_equal; lia.
Qed.

Lemma hex_decode_encode s : hex_decode (hex_encode s) = Some s.
Proof.
  induction s as [|c s IH]; [done|]. simpl hex_encode. unfold hex_byte.
  pose proof (byte_val_range c). simpl.
  rewrite !hex_digit_val, IH; [|apply Z.mod_pos_bound; lia|].
  - f_equal. f_equal. rewrite <- Z.div_mod by lia. apply byte_of_val.
  - split; [apply Z.div_pos; lia | apply Z.div_lt_upper_bound; lia].
Qed.

Lemma hex_encode_inj s t : hex_encode s = hex_encode t -> s = t.
Proof.
  intros H. apply (f_equal hex_decode) in H. rewrite !hex_decode_encode in H. congruence.
Qed.

Lemma length_hex_encode s : String.length (hex_encode s) = (2 * String.length s)%nat.
Proof. induction s as [|c s IH]; [done|]. simpl. rewrite IH. lia. Qed.

(** ** Base64 *)

Definition b64_alphabet : string :=
  "ABCDEFGHIJKLMNOPQRSTUVWXYZabcdefghijklmnopqrstuvwxyz0123456789+/"%string.

Definition b64_char (i : Z) : ascii :=
  match String.get (Z.to_nat i) b64_alphabet with Some c => c | None => "A"%char end.

(** [base64.StdEncoding.EncodeToString]. *)
Fixpoint b64_encode_bytes (l : list Z) : list ascii :=
  match l with
  | [] => []
  | [a] => [b64_char (a / 4); b64_char (a mod 4 * 16); "="%char; "="%char]
  | [a; b] =>
      [b64_char (a / 4); b64_char (a mod 4 * 16 + b / 16); b64_char (b mod 16 * 4); "="%char]
  | a :: b :: c :: l =>
      b64_char (a / 4) :: b64_char (a mod 4 * 16 + b / 16)
      :: b64_char (b mod 16 * 4 + c / 64) :: b64_char (c mod 64) :: b64_encode_bytes l
  end.

Definition b64_encode (s : string) : string :=
  string_of_list_ascii (b64_encode_bytes (str_bytes s)).

(** Index of a base64 character: the inverse of the alphabet. *)
Definition b64_index (c : ascii) : option Z :=
  let b := byte_val c in
  if (65 <=? b) && (b <=? 90) then Some (b - 65)
  else if (97 <=? b) && (b <=? 122) then Some (b - 71)
  else if (48 <=? b) && (b <=? 57) then Some (b + 4)
  else if b =? 43 then Some 62
  else if b =? 47 then Some 63
  else None.

Lemma b64_index_char i : 0 <= i < 64 -> b64_index (b64_char i) = Some i.
Proof.
  intros Hi.
  assert (Hall : forallb (fun n => bool_decide (b64_index (b64_char (Z.of_nat n)) = Some (Z.of_nat n)))
                   (seq 0 64) = true) by (vm_compute; reflexivity).
  rewrite forallb_forall in Hall. specialize (Hall (Z.to_nat i)).
  rewrite Z2Nat.id in Hall by lia. eapply bool_decide_eq_true. apply Hall.
  apply in_seq. lia.
Qed.

Lemma b64_char_inj i j : 0 <= i < 64 -> 0 <= j < 64 -> b64_char i = b64_char j -> i = j.
Proof.
  intros Hi Hj H. apply (f_equal b64_index) in H. rewrite !b64_index_char in H by lia. congruence.
Qed.

Lemma b64_char_not_pad i : 0 <= i < 64 -> b64_char i <> "="%char.
Proof. intros Hi H. apply (f_equal b64_index) in H. by rewrite b64_index_char in H. Qed.

Ltac div_range :=
  match goal with
  | |- 0 <= ?a / ?b < ?c => split; [apply Z.div_pos; lia | apply Z.div_lt_upper_bound; lia]
  end.

(** The six-bit groups determine the bytes they were cut from. *)
Lemma sextets_inj1 a a' :
  0 <= a < 256 -> 0 <= a' < 256 ->
  b64_char (a / 4) = b64_char (a' / 4) ->
  b64_char (a mod 4 * 16) = b64_char (a' mod 4 * 16) -> a = a'.
Proof.
  intros Ha Ha' H1 H2. apply b64_char_inj in H1; [|div_range..].
  apply b64_char_inj in H2; Z.to_euclidean_division_equations; lia.
Qed.

Lemma sextets_inj2 a b a' b' :
  0 <= a < 256 -> 0 <= a' < 256 -> 0 <= b < 256 -> 0 <= b' < 256 ->
  b64_char (a / 4) = b64_char (a' / 4) ->
  b64_char (a mod 4 * 16 + b / 16) = b64_char (a' mod 4 * 16 + b' / 16) ->
  a = a' /\ b / 16 = b' / 16.
Proof.
  intros Ha Ha' Hb Hb' H1 H2. apply b64_char_inj in H1; [|div_range..].
  apply b64_char_inj in H2; Z.to_euclidean_division_equations; lia.
Qed.

Lemma sextets_inj3 a b c a' b' c' :
  0 <= a < 256 -> 0 <= a' < 256 -> 0 <= b < 256 -> 0 <= b' < 256 ->
  0 <= c < 256 -> 0 <= c' < 256 ->
  b64_char (a / 4) = b64_char (a' / 4) ->
  b64_char (a mod 4 * 16 + b / 16) = b64_char (a' mod 4 * 16 + b' / 16) ->
  b64_char (b mod 16 * 4 + c / 64) = b64_char (b' mod 16 * 4 + c' / 64) ->
  a = a' /\ b = b' /\ c / 64 = c' / 64.
Proof.
  intros Ha Ha' Hb Hb' Hc Hc' H1 H2 H3.
  destruct (sextets_inj2 a b a' b') as [-> Hq]; try assumption.
  apply b64_char_inj in H3; Z.to_euclidean_division_equations; lia.
Qed.

Ltac not_pad :=
  match goal with
  | H : b64_char ?i = "="%char |- _ =>
      exfalso; apply (b64_char_not_pad i); [Z.to_euclidean_division_equations; lia | exact H]
  | H : "="%char = b64_char ?i |- _ =>
      exfalso; apply (b64_char_not_pad i);
        [Z.to_euclidean_division_equations; lia | symmetry; exact H]
  end.

Lemma b64_encode_bytes_inj n l m :
  (List.length l <= n)%nat ->
  Forall (fun b => 0 <= b < 256) l -> Forall (fun b => 0 <= b < 256) m ->
  b64_encode_bytes l = b64_encode_bytes m -> l = m.
Proof.
  revert l m. induction n as [|n IH]; intros l m Hn Hl Hm.
  { destruct l; [|simpl in Hn; lia].
    destruct m as [|a [|b [|c m]]]; done. }
  destruct l as [|a [|b [|c l]]], m as [|a' [|b' [|c' m]]]; try done;
    repeat match goal with H : Forall _ (_ :: _) |- _ => inversion H; clear H; subst end;
    cbn [b64_encode_bytes]; intros Heq; injection Heq; intros; try not_pad.
  - f_equal. by apply sextets_inj1.
  - destruct (sextets_inj2 a b a' b') as [-> Hq]; try assumption.
    assert (b mod 16 * 4 = b' mod 16 * 4).
    { apply b64_char_inj; [Z.to_euclidean_division_equations; lia..|assumption]. }
    do 2 f_equal. Z.to_euclidean_division_equations; lia.
  - destruct (sextets_inj3 a b c a' b' c') as (-> & -> & Hq); try assumption.
    assert (c mod 64 = c' mod 64).
    { apply b64_char_inj; [Z.to_euclidean_division_equations; lia..|assumption]. }
    f_equal. f_equal. f_equal; [Z.to_euclidean_division_equations; lia|].
    apply IH; try assumption. simpl in Hn. lia.
Qed.

Lemma b64_encode_inj s t : b64_encode s = b64_encode t -> s = t.
Proof.
  unfold b64_encode. intros H. apply str_bytes_inj.
  eapply b64_encode_bytes_inj; [reflexivity | apply str_bytes_range..|].
  apply (f_equal list_ascii_of_string) in H.
  by rewrite !list_ascii_of_string_of_list_ascii in H.
Qed.

(** No base64 text holds the field separator of the envelope's canonical form. *)
Lemma b64_char_not_bar i : Ascii.eqb "|"%char (b64_char i) = false.
Proof.
  unfold b64_char. destruct (String.get _ _) eqn:E; [|done].
  assert (Hall : forallb (fun c => negb (Ascii.eqb "|"%char c)) (list_ascii_of_string b64_alphabet) = true)
    by (vm_compute; reflexivity).
  rewrite forallb_forall in Hall. apply negb_true_iff, Hall.
  clear Hall. revert E. generalize (Z.to_nat i), b64_alphabet.
  intros k s. revert k. induction s as [|d s IH]; intros [|k]; simpl; try done.
  - intros [= ->]. by left.
  - intros H. right. eauto.
Qed.

(** ** Fixed-width positional numerals *)

(** The [n] digits of [z] in base [b], most significant first; [z] is taken
    modulo [b ^ n]. *)
Fixpoint digits (b : Z) (n : nat) (z : Z) : list Z :=
  match n with
  | O => []
  | S n => digits b n (z / b) ++ [z mod b]
  end.

(** The number a digit list stands for. *)
Definition undigits (b : Z) (l : list Z) : Z := fold_left (fun acc d => acc * b + d) l 0.

Lemma undigits_snoc b l d : undigits b (l ++ [d]) = undigits b l * b + d.
Proof. unfold undigits. by rewrite fold_left_app. Qed.

Lemma length_digits b n z : List.length (digits b n z) = n.
Proof. revert z. induction n; intros z; simpl; [done|]. rewrite length_app, IHn. simpl. lia. Qed.

Lemma digits_range b n z : 0 < b -> Forall (fun d => 0 <= d < b) (digits b n z).
Proof.
  intros Hb. revert z. induction n; intros z; simpl; [constructor|].
  apply Forall_app. split; [done|]. constructor; [apply Z.mod_pos_bound; lia | constructor].
Qed.

Lemma undigits_digits b n z :
  0 < b -> 0 <= z < b ^ Z.of_nat n -> undigits b (digits b n z) = z.
Proof.
  intros Hb. revert z. induction n as [|n IH]; intros z Hz.
  { simpl in *. unfold undigits. simpl. lia. }
  simpl digits. rewrite undigits_snoc, IH.
  - rewrite (Z.mul_comm _ b). symmetry. apply Z.div_mod. lia.
  - rewrite Nat2Z.inj_succ, Z.pow_succ_r in Hz by lia.
    split; [apply Z.div_pos; lia | apply Z.div_lt_upper_bound; lia].
Qed.

Lemma digits_inj b n x y :
  0 < b -> 0 <= x < b ^ Z.of_nat n -> 0 <= y < b ^ Z.of_nat n ->
  digits b n x = digits b n y -> x = y.
Proof.
  intros Hb Hx Hy H. apply (f_equal (undigits b)) in H. by rewrite !undigits_digits in H.
Qed.

(** [binary.BigEndian.PutUint32] and [PutUint64]. *)
Definition be32 (z : Z) : string := bytes_str (digits 256 4 z).
Definition be64 (z : Z) : string := bytes_str (digits 256 8 z).

Lemma length_be32 z : String.length (be32 z) = 4%nat.
Proof. unfold be32. by rewrite length_bytes_str, length_digits. Qed.

Lemma length_be64 z : String.length (be64 z) = 8%nat.
Proof. unfold be64. by rewrite length_bytes_str, length_digits. Qed.

Lemma be32_inj x y : 0 <= x < 2 ^ 32 -> 0 <= y < 2 ^ 32 -> be32 x = be32 y -> x = y.
Proof.
  intros Hx Hy H. eapply (digits_inj 256 4); [lia | simpl; lia..|].
  apply bytes_str_inj in H; auto; apply digits_range; lia.
Qed.

Lemma be64_inj x y : 0 <= x < 2 ^ 64 -> 0 <= y < 2 ^ 64 -> be64 x = be64 y -> x = y.
Proof.
  intros Hx Hy H. eapply (digits_inj 256 8); [lia | simpl; lia..|].
  apply bytes_str_inj in H; auto; apply digits_range; lia.
Qed.

(** Zero-padded decimal numerals of fixed width, as [time.Format] writes them. *)
Definition dec (n : nat) (z : Z) : string := bytes_str (map (Z.add 48) (digits 10 n z)).

Lemma length_dec n z : String.length (dec n z) = n.
Proof. unfold dec. by rewrite length_bytes_str, length_map, length_digits. Qed.

(** ** White space *)

(** The UTF-8 encodings of the code points [unicode.IsSpace] holds of: tab to
    carriage return, space, U+0085, U+00A0, U+1680, U+2000 to U+200A, U+2028,
    U+2029, U+202F, U+205F and U+3000. *)
Definition space_runes : list string :=
  map bytes_str
    ([[9]; [10]; [11]; [12]; [13]; [32]; [194; 133]; [194; 160]; [225; 154; 128]] ++
     map (fun b => [226; 128; b]) [128; 129; 130; 131; 132; 133; 134; 135; 136; 137; 138; 168; 169; 175] ++
     [[226; 129; 159]; [227; 128; 128]]).

(** The string after one leading space rune, if there is one. *)
Definition strip_space (runes : list string) (s : string) : option string :=
  match List.find (fun r => String.prefix r s) runes with
  | Some r => Some (String.substring (String.length r) (String.length s - String.length r) s)
  | None => None
  end.

Fixpoint trim_left (runes : list string) (fuel : nat) (s : string) : string :=
  match fuel with
  | O => s
  | S fuel => match strip_space runes s with Some s' => trim_left runes fuel s' | None => s end
  end.

Definition str_rev (s : string) : string := string_of_list_ascii (rev (list_ascii_of_string s)).

(** [strings.TrimSpace]; the right end is trimmed on the reversed text. *)
Definition trim_space (s : string) : string :=
  let n := String.length s in
  str_rev (trim_left (map str_rev space_runes) n (str_rev (trim_left space_runes n s))).

Example trim_space_ex : trim_space (bytes_str [32; 9; 65; 32; 66; 194; 160; 10]) = "A B"%string.
Proof. vm_compute. reflexivity. Qed.
