(* ===== verification/Sha256.v ===== *)
(** SHA-256, as [crypto/sha256.Sum256] computes it (FIPS 180-4), on 32-bit words
    written as numbers in [0, 2^32).

    Theorems that rest on the hash name the two inputs that would collide
    ([collision a b]); nothing assumes that the hash is injective. *)
From S2P Require Import Prelude Encoding.
From Stdlib Require Import String Ascii List ZArith Lia Bool.
From stdpp Require Import base strings list.
Open Scope Z_scope.

Definition w32 (x : Z) : Z := Z.land x 4294967295.
Definition rotr (n x : Z) : Z := Z.lor (Z.shiftr x n) (w32 (Z.shiftl x (32 - n))).

Definition bsig0 x := Z.lxor (rotr 2 x) (Z.lxor (rotr 13 x) (rotr 22 x)).
Definition bsig1 x := Z.lxor (rotr 6 x) (Z.lxor (rotr 11 x) (rotr 25 x)).
Definition ssig0 x := Z.lxor (rotr 7 x) (Z.lxor (rotr 18 x) (Z.shiftr x 3)).
Definition ssig1 x := Z.lxor (rotr 17 x) (Z.lxor (rotr 19 x) (Z.shiftr x 10)).
Definition ch x y z := Z.lxor (Z.land x y) (Z.land (Z.lxor x 4294967295) z).
Definition maj x y z := Z.lxor (Z.land x y) (Z.lxor (Z.land x z) (Z.land y z)).

Definition round_keys : list Z :=
  [1116352408;1899447441;3049323471;3921009573;961987163;1508970993;2453635748;2870763221;
   3624381080;310598401;607225278;1426881987;1925078388;2162078206;2614888103;3248222580;
   3835390401;4022224774;264347078;604807628;770255983;1249150122;1555081692;1996064986;
   2554220882;2821834349;2952996808;3210313671;3336571891;3584528711;113926993;338241895;
   666307205;773529912;1294757372;1396182291;1695183700;1986661051;2177026350;2456956037;
   2730485921;2820302411;3259730800;3345764771;3516065817;3600352804;4094571909;275423344;
   430227734;506948616;659060556;883997877;958139571;1322822218;1537002063;1747873779;
   1955562222;2024104815;2227730452;2361852424;2428436474;2756734187;3204031479;3329325298].

(** Working variables a..h. *)
Definition hstate : Type := Z * Z * Z * Z * Z * Z * Z * Z.

Definition hinit : hstate :=
  (1779033703, 3144134277, 1013904242, 2773480762,
   1359893119, 2600822924, 528734635, 1541459225).

(** The message schedule, newest word first. *)
Fixpoint extend (n : nat) (ws : list Z) : list Z :=
  match n with
  | O => ws
  | S n =>
      let w := w32 (ssig1 (nth 1 ws 0) + nth 6 ws 0 + ssig0 (nth 14 ws 0) + nth 15 ws 0) in
      extend n (w :: ws)
  end.

Definition round (s : hstate) (kw : Z * Z) : hstate :=
  let '(a, b, c, d, e, f, g, h) := s in
  let t1 := h + bsig1 e + ch e f g + kw.1 + kw.2 in
  let t2 := bsig0 a + maj a b c in
  (w32 (t1 + t2), a, b, c, w32 (d + t1), e, f, g).

Definition add_state (s t : hstate) : hstate :=
  let '(a, b, c, d, e, f, g, h) := s in
  let '(a', b', c', d', e', f', g', h') := t in
  (w32 (a + a'), w32 (b + b'), w32 (c + c'), w32 (d + d'),
   w32 (e + e'), w32 (f + f'), w32 (g + g'), w32 (h + h')).

Fixpoint words (l : list Z) : list Z :=
  match l with
  | a :: b :: c :: d :: l => ((a * 256 + b) * 256 + c) * 256 + d :: words l
  | _ => []
  end.

Definition compress (s : hstate) (block : list Z) : hstate :=
  let ws := rev (extend 48 (rev (words block))) in
  add_state s (fold_left round (combine round_keys ws) s).

(** Padding: the bit 1, zeros, and the length in bits on 64 bits. *)
Definition pad (l : list Z) : list Z :=
  let n := Z.of_nat (List.length l) in
  l ++ [128] ++ repeat 0 (Z.to_nat ((55 - n) mod 64)) ++ digits 256 8 (8 * n).

Fixpoint blocks (fuel : nat) (s : hstate) (l : list Z) : hstate :=
  match fuel, l with
  | S fuel, _ :: _ => blocks fuel (compress s (firstn 64 l)) (skipn 64 l)
  | _, _ => s
  end.

(** [sha256.Sum256]: 32 bytes. *)
Definition sha256 (m : string) : string :=
  let l := pad (str_bytes m) in
  let '(a, b, c, d, e, f, g, h) := blocks (List.length l) hinit l in
  be32 a +:+ (be32 b +:+ (be32 c +:+ (be32 d +:+ (be32 e +:+ (be32 f +:+ (be32 g +:+ be32 h)))))).

(** [hex.EncodeToString(sum[:])]. *)
Definition sha256_hex (m : string) : string := hex_encode (sha256 m).

(** The test vectors of FIPS 180-4: empty, one block, two blocks. *)
Example sha256_empty :
  sha256_hex "" = "e3b0c44298fc1c149afbf4c8996fb92427ae41e4649b934ca495991b7852b855"%string.
Proof. vm_compute. reflexivity. Qed.

Example sha256_abc :
  sha256_hex "abc" = "ba7816bf8f01cfea414140de5dae2223b00361a396177a9cb410ff61f20015ad"%string.
Proof. vm_compute. reflexivity. Qed.

Example sha256_two_blocks :
  sha256_hex "abcdbcdecdefdefgefghfghighijhijkijkljklmklmnlmnomnopnopq" =
  "248d6a61d20638b8e5c026930c3e6039a33ce45964ff2167f6ecedd419db06c1"%string.
Proof. vm_compute. reflexivity. Qed.

Lemma length_sha256 m : String.length (sha256 m) = 32%nat.
Proof.
  unfold sha256. destruct (blocks _ _ _) as [[[[[[[a b] c] d] e] f] g] h].
  by rewrite !string_app_length, !length_be32.
Qed.

(** Two different messages with the same digest. *)
Definition collision (a b : string) : Prop := a <> b /\ sha256 a = sha256 b.

Lemma sha256_eq a b : sha256 a = sha256 b -> a = b \/ collision a b.
Proof. intros H. destruct (decide (a = b)); [by left | by right]. Qed.

Lemma sha256_hex_eq a b : sha256_hex a = sha256_hex b -> a = b \/ collision a b.
Proof. intros H. by apply sha256_eq, hex_encode_inj. Qed.

Lemma length_sha256_hex m : String.length (sha256_hex m) = 64%nat.
Proof. unfold sha256_hex. by rewrite length_hex_encode, length_sha256. Qed.

Lemma sha256_hex_nonempty m : sha256_hex m <> EmptyString.
Proof. intros H. pose proof (length_sha256_hex m) as L. by rewrite H in L. Qed.
