(* ===== verification/Timestamp.v ===== *)
(** Wire timestamps ([src/internal/timesvc/timestamp.go]).

    A [time.Time] is its number of nanoseconds since the Unix epoch, in UTC.
    [FormatTimestamp] is computed with the proleptic Gregorian calendar of Go's
    [time] package.  The theorem of this file is the reason the stores may
    compare timestamps as text. *)
From S2P Require Import Prelude Encoding.
From Stdlib Require Import String Ascii List ZArith Lia Bool.
From stdpp Require Import base strings list pretty.
Open Scope Z_scope.

Definition gotime := Z.

(** Go's zero [time.Time], 0001-01-01. *)
Definition zero_time : gotime := -62135596800 * 1000000000.

(** [t.UnixMilli()] and [time.UnixMilli(ms)]. *)
Definition UnixMilli (t : gotime) : Z := t / 1000000.
Definition of_milli (ms : Z) : gotime := ms * 1000000.

Definition us_per_day : Z := 86400 * 1000000.

(** The civil date (year, month, day) of a day number, day 0 being
    1970-01-01.  Years are counted from 1 March inside eras of 400 years:
    [year_of_era] is the year of a day of the era, [year_start] the first day of
    a year, [month_day] the month and day of a day of the year. *)
Definition year_of_era (doe : Z) : Z :=
  (doe - doe / 1460 + doe / 36524 - doe / 146096) / 365.

Definition year_start (yoe : Z) : Z := 365 * yoe + yoe / 4 - yoe / 100.

Definition month_day (doy : Z) : Z * Z :=
  let mp := (5 * doy + 2) / 153 in
  (if mp <? 10 then mp + 3 else mp - 9, doy - (153 * mp + 2) / 5 + 1).

Definition civil (day : Z) : Z * Z * Z :=
  let z := day + 719468 in
  let era := z / 146097 in
  let doe := z mod 146097 in
  let yoe := year_of_era doe in
  let '(m, d) := month_day (doe - year_start yoe) in
  (yoe + era * 400 + (if m <=? 2 then 1 else 0), m, d).

Example civil_epoch : civil 0 = (1970, 1, 1). Proof. reflexivity. Qed.
Example civil_leap : civil 19782 = (2024, 2, 29). Proof. reflexivity. Qed.
Example civil_2026 : civil 20454 = (2026, 1, 1). Proof. reflexivity. Qed.

(** Four digits at least, a sign for years before 0. *)
Definition year_str (y : Z) : string :=
  let pad n := if n <? 10000 then dec 4 n else pretty n in
  if y <? 0 then String "-" (pad (- y)) else pad y.

(** [FormatTimestamp]: "2006-01-02T15:04:05.000000Z07:00" in UTC. *)
Definition FormatTimestamp (t : gotime) : string :=
  let us := t / 1000 in
  let day := us / us_per_day in
  let r := us mod us_per_day in
  let '(y, m, d) := civil day in
  year_str y +:+ String "-" (dec 2 m +:+ String "-" (dec 2 d +:+ String "T" (
  dec 2 (r / 3600000000) +:+ String ":" (dec 2 (r / 60000000 mod 60) +:+ String ":" (
  dec 2 (r / 1000000 mod 60) +:+ String "." (dec 6 (r mod 1000000) +:+ "Z")))))).

Example FormatTimestamp_ex :
  FormatTimestamp (1767322799 * 1000000000 + 123456789) = "2026-01-02T02:59:59.123456Z"%string.
Proof. vm_compute. reflexivity. Qed.

(** ** Comparing texts *)

Lemma compare_refl s : String.compare s s = Eq.
Proof. induction s as [|c s IH]; simpl; [done|]. unfold Ascii.compare. by rewrite N.compare_refl. Qed.

Lemma compare_app s t u v :
  String.length s = String.length t ->
  String.compare (s +:+ u) (t +:+ v) =
  match String.compare s t with Eq => String.compare u v | c => c end.
Proof.
  revert t. induction s as [|c s IH]; intros [|d t]; simpl; intros Hl; try done.
  rewrite IH by lia. by destruct (Ascii.compare c d).
Qed.

Lemma compare_cons c u v : String.compare (String c u) (String c v) = String.compare u v.
Proof. simpl. unfold Ascii.compare. by rewrite N.compare_refl. Qed.

Lemma bytes_str_app l m : bytes_str (l ++ m) = bytes_str l +:+ bytes_str m.
Proof. unfold bytes_str. induction l as [|x l IH]; simpl; [done|]. by rewrite IH. Qed.

Lemma dec_succ n z : dec (S n) z = dec n (z / 10) +:+ bytes_str [48 + z mod 10].
Proof. unfold dec. simpl. by rewrite map_app, bytes_str_app. Qed.

Lemma compare_digit x y :
  0 <= x < 10 -> 0 <= y < 10 ->
  String.compare (bytes_str [48 + x]) (bytes_str [48 + y]) = (x ?= y).
Proof.
  intros Hx Hy. unfold bytes_str. simpl. unfold Ascii.compare, byte_of.
  rewrite !N_ascii_embedding by lia. rewrite Z2N.inj_compare by lia.
  rewrite Z.add_compare_mono_l. by destruct (x ?= y).
Qed.

(** Numerals of the same width compare as the numbers. *)
Lemma compare_dec n x y :
  0 <= x < 10 ^ Z.of_nat n -> 0 <= y < 10 ^ Z.of_nat n ->
  String.compare (dec n x) (dec n y) = (x ?= y).
Proof.
  revert x y. induction n as [|n IH]; intros x y Hx Hy.
  { simpl in *. assert (x = y) as -> by lia. by rewrite Z.compare_refl. }
  rewrite Nat2Z.inj_succ, Z.pow_succ_r in Hx, Hy by lia.
  rewrite !dec_succ, compare_app by (by rewrite !length_dec).
  rewrite IH, compare_digit; try (apply Z.mod_pos_bound; lia); try div_range.
  destruct (Z.compare_spec (x / 10) (y / 10)) as [E|L|G]; symmetry.
  - destruct (Z.compare_spec (x mod 10) (y mod 10)) as [E'|L'|G'];
      [apply Z.compare_eq_iff | apply Z.compare_lt_iff | apply Z.compare_gt_iff];
      Z.to_euclidean_division_equations; lia.
  - apply Z.compare_lt_iff. Z.to_euclidean_division_equations; lia.
  - apply Z.compare_gt_iff. Z.to_euclidean_division_equations; lia.
Qed.

(** ** The calendar is monotone *)

(** A date packed into one number that orders dates. *)
Definition pack (c : Z * Z * Z) : Z := let '(y, m, d) := c in y * 372 + m * 31 + d.

Definition date_ok (c : Z * Z * Z) : bool :=
  let '(_, m, d) := c in (1 <=? m) && (m <=? 12) && (1 <=? d) && (d <=? 31).

(** [year_of_era] does not decrease, and it changes at the year starts only. *)
Lemma year_of_era_mono a b :
  0 <= a <= b -> b < 146097 -> year_of_era a <= year_of_era b.
Proof.
  intros Hab Hb. unfold year_of_era. apply Z.div_le_mono; [lia|].
  Z.to_euclidean_division_equations; lia.
Qed.

Fixpoint range_all (f : Z -> bool) (n : nat) (s : Z) : bool :=
  match n with O => true | S n => f s && range_all f n (s + 1) end.

Lemma range_all_spec f n s x :
  range_all f n s = true -> s <= x < s + Z.of_nat n -> f x = true.
Proof.
  revert s. induction n as [|n IH]; intros s; cbn [range_all]; [lia|].
  intros H Hx. bools. destruct (decide (s = x)) as [->|Hn]; [done|].
  apply (IH (s + 1)); [done | lia].
Qed.

Lemma year_starts_checked y :
  1 <= y <= 399 -> year_of_era (year_start y) = y /\ year_of_era (year_start y - 1) = y - 1.
Proof.
  intros Hy.
  assert (H : range_all (fun y => (year_of_era (year_start y) =? y) &&
             (year_of_era (year_start y - 1) =? y - 1)) 399 1 = true)
    by (vm_compute; reflexivity).
  pose proof (range_all_spec _ _ _ y H ltac:(lia)) as E. simpl in E. bools.
  split; by apply Z.eqb_eq.
Qed.

Lemma year_start_bounds y : 0 <= y <= 399 -> 0 <= year_start y < 146096.
Proof. intros H. unfold year_start. Z.to_euclidean_division_equations; lia. Qed.

(** Every day of the era lies in the year [year_of_era] names. *)
Lemma year_of_era_spec doe :
  0 <= doe < 146097 ->
  0 <= year_of_era doe <= 399 /\ year_start (year_of_era doe) <= doe /\
  (year_of_era doe < 399 -> doe < year_start (year_of_era doe + 1)).
Proof.
  intros Hd.
  assert (Hr : 0 <= year_of_era doe <= 399).
  { pose proof (year_of_era_mono 0 doe). pose proof (year_of_era_mono doe 146096).
    change (year_of_era 0) with 0 in *. change (year_of_era 146096) with 399 in *. lia. }
  set (y := year_of_era doe) in *. repeat split; try lia.
  - destruct (Z.le_gt_cases (year_start y) doe) as [|H]; [done|exfalso].
    assert (y <> 0) by (intros E; rewrite E in H; change (year_start 0) with 0 in H; lia).
    destruct (year_starts_checked y) as [_ E]; [lia|].
    pose proof (year_start_bounds y Hr).
    pose proof (year_of_era_mono doe (year_start y - 1)). subst y. lia.
  - intros Hy. destruct (Z.lt_ge_cases doe (year_start (y + 1))) as [|H]; [done|exfalso].
    destruct (year_starts_checked (y + 1)) as [E _]; [lia|].
    pose proof (year_start_bounds (y + 1)).
    pose proof (year_of_era_mono (year_start (y + 1)) doe). subst y. lia.
Qed.

(** The date of day [doy] of the year that starts in March of year [y], packed. *)
Definition pack_doy (y doy : Z) : Z :=
  let '(m, d) := month_day doy in pack (y + (if m <=? 2 then 1 else 0), m, d).

Lemma pack_doy_year y doy : pack_doy y doy = 372 * y + pack_doy 0 doy.
Proof. unfold pack_doy, pack. destruct (month_day doy). lia. Qed.

Lemma pack_doy_step doy : 0 <= doy < 365 -> pack_doy 0 doy < pack_doy 0 (doy + 1).
Proof.
  intros Hd.
  assert (H : range_all (fun d => pack_doy 0 d <? pack_doy 0 (d + 1)) 365 0 = true)
    by (vm_compute; reflexivity).
  pose proof (range_all_spec _ _ _ doy H ltac:(lia)) as E. by apply Z.ltb_lt in E.
Qed.

Lemma month_day_ok y doy :
  0 <= doy <= 365 ->
  date_ok (y, (month_day doy).1, (month_day doy).2) = true /\ pack_doy 0 doy < 372 + pack_doy 0 0.
Proof.
  intros Hd.
  assert (H : range_all (fun d => date_ok (0, (month_day d).1, (month_day d).2) &&
            (pack_doy 0 d <? 372 + pack_doy 0 0)) 366 0 = true) by (vm_compute; reflexivity).
  pose proof (range_all_spec _ _ _ doy H ltac:(lia)) as E. cbv beta in E. bools.
  split; [done | by apply Z.ltb_lt].
Qed.

Lemma doy_bounds doe :
  0 <= doe < 146097 -> 0 <= doe - year_start (year_of_era doe) <= 365.
Proof.
  intros Hd. destruct (year_of_era_spec doe Hd) as (Hr & Hs & Hn).
  destruct (decide (year_of_era doe = 399)) as [E|E].
  - rewrite E in *. change (year_start 399) with 145731 in *. lia.
  - specialize (Hn ltac:(lia)). unfold year_start in *. Z.to_euclidean_division_equations; lia.
Qed.

Lemma pack_civil day :
  pack (civil day) =
  let z := day + 719468 in
  pack_doy (year_of_era (z mod 146097) + z / 146097 * 400)
    (z mod 146097 - year_start (year_of_era (z mod 146097))).
Proof.
  unfold civil, pack_doy. cbv zeta. by destruct (month_day _).
Qed.

(** The next day is later, inside a year, across years and across eras. *)
Lemma pack_doe_step doe :
  0 <= doe < 146096 ->
  pack_doy (year_of_era doe) (doe - year_start (year_of_era doe)) <
  pack_doy (year_of_era (doe + 1)) (doe + 1 - year_start (year_of_era (doe + 1))).
Proof.
  intros Hd.
  destruct (year_of_era_spec doe) as (Hr & Hs & Hn); [lia|].
  destruct (year_of_era_spec (doe + 1)) as (Hr' & Hs' & Hn'); [lia|].
  pose proof (doy_bounds doe ltac:(lia)) as Hb. pose proof (doy_bounds (doe + 1) ltac:(lia)) as Hb'.
  pose proof (year_of_era_mono doe (doe + 1)) as Hm.
  set (y := year_of_era doe) in *. set (y' := year_of_era (doe + 1)) in *.
  rewrite (pack_doy_year y), (pack_doy_year y').
  destruct (decide (y' = y)) as [->|Hne].
  - pose proof (pack_doy_step (doe - year_start y) ltac:(lia)) as H.
    replace (doe - year_start y + 1) with (doe + 1 - year_start y) in H by lia. lia.
  - assert (year_start y' <= year_start (y + 1)) by (specialize (Hn ltac:(lia)); lia).
    assert (y' = y + 1) as ->.
    { unfold year_start in *. Z.to_euclidean_division_equations; lia. }
    specialize (Hn ltac:(lia)).
    replace (doe + 1 - year_start (y + 1)) with 0 by lia.
    destruct (month_day_ok 0 (doe - year_start y)); lia.
Qed.

Lemma civil_step day :
  date_ok (civil day) = true /\ pack (civil day) < pack (civil (day + 1)).
Proof.
  pose proof (Z.mod_pos_bound (day + 719468) 146097 ltac:(lia)) as Hr.
  split.
  - pose proof (month_day_ok (year_of_era ((day + 719468) mod 146097)) _ (doy_bounds _ Hr)) as [H _].
    unfold civil. cbv zeta. by destruct (month_day _).
  - rewrite !pack_civil. cbv zeta.
    destruct (decide ((day + 719468) mod 146097 = 146096)) as [E|E].
    + replace ((day + 1 + 719468) mod 146097) with 0 by (Z.to_euclidean_division_equations; lia).
      replace ((day + 1 + 719468) / 146097) with ((day + 719468) / 146097 + 1)
        by (Z.to_euclidean_division_equations; lia).
      rewrite E, pack_doy_year, (pack_doy_year (_ + _ * _)).
      change (pack_doy 0 (146096 - year_start (year_of_era 146096))) with 463.
      change (pack_doy 0 (0 - year_start (year_of_era 0))) with 94.
      change (year_of_era 146096) with 399. change (year_of_era 0) with 0. lia.
    + replace ((day + 1 + 719468) mod 146097) with ((day + 719468) mod 146097 + 1)
        by (Z.to_euclidean_division_equations; lia).
      replace ((day + 1 + 719468) / 146097) with ((day + 719468) / 146097)
        by (Z.to_euclidean_division_equations; lia).
      pose proof (pack_doe_step ((day + 719468) mod 146097) ltac:(lia)) as H.
      rewrite pack_doy_year in H. rewrite (pack_doy_year (year_of_era (_ + _))) in H.
      rewrite pack_doy_year, (pack_doy_year (year_of_era (_ + _) + _)). lia.
Qed.

Lemma civil_mono a b : a < b -> pack (civil a) < pack (civil b).
Proof.
  intros H. replace b with (a + 1 + Z.of_nat (Z.to_nat (b - a - 1))) by lia.
  induction (Z.to_nat (b - a - 1)) as [|n IH].
  - rewrite Z.add_0_r. apply civil_step.
  - etransitivity; [exact IH|]. rewrite Nat2Z.inj_succ.
    replace (a + 1 + Z.succ (Z.of_nat n)) with (a + 1 + Z.of_nat n + 1) by lia.
    apply civil_step.
Qed.

(** The calendar date compares as the day number. *)
Lemma compare_civil a b : (pack (civil a) ?= pack (civil b)) = (a ?= b).
Proof.
  destruct (Z.compare_spec a b) as [->|H|H].
  - apply Z.compare_refl.
  - by apply Z.compare_lt_iff, civil_mono.
  - by apply Z.compare_gt_iff, civil_mono.
Qed.

(** ** The order theorem *)

(** Years that [FormatTimestamp] writes with four digits and no sign. *)
Definition year_in_range (t : gotime) : Prop :=
  let '(y, _, _) := civil (t / 1000 / us_per_day) in 0 <= y <= 9999.

(** Lexicographic combination of comparisons. *)
Definition lex (a b : comparison) : comparison := match a with Eq => b | c => c end.

Lemma lex_radix k a b c d :
  0 <= b < k -> 0 <= d < k -> lex (a ?= c) (b ?= d) = (a * k + b ?= c * k + d).
Proof.
  intros Hb Hd. symmetry. unfold lex. destruct (Z.compare_spec a c) as [->|H|H].
  - by rewrite Z.add_compare_mono_l.
  - apply Z.compare_lt_iff. nia.
  - apply Z.compare_gt_iff. nia.
Qed.

Lemma compare_ext a b c d : a - b = c - d -> (a ?= b) = (c ?= d).
Proof. intros H. by rewrite (Z.compare_sub a), (Z.compare_sub c), H. Qed.

Lemma compare_field n x y u v c :
  0 <= x < 10 ^ Z.of_nat n -> 0 <= y < 10 ^ Z.of_nat n ->
  String.compare (dec n x +:+ String c u) (dec n y +:+ String c v) =
  lex (x ?= y) (String.compare u v).
Proof.
  intros Hx Hy. rewrite compare_app by (by rewrite !length_dec).
  rewrite compare_cons, compare_dec by done. by destruct (x ?= y).
Qed.

Lemma year_str_dec y : 0 <= y <= 9999 -> year_str y = dec 4 y.
Proof.
  intros Hy. unfold year_str.
  destruct (Z.ltb_spec y 0), (Z.ltb_spec y 10000); try lia. done.
Qed.

(** The time of day, field by field, compares as the microseconds of the day. *)
Lemma compare_clock r q :
  0 <= r < us_per_day -> 0 <= q < us_per_day ->
  lex (r / 3600000000 ?= q / 3600000000)
    (lex (r / 60000000 mod 60 ?= q / 60000000 mod 60)
       (lex (r / 1000000 mod 60 ?= q / 1000000 mod 60)
          (r mod 1000000 ?= q mod 1000000))) = (r ?= q).
Proof.
  unfold us_per_day. intros Hr Hq.
  rewrite (lex_radix 1000000) by (apply Z.mod_pos_bound; lia).
  rewrite (lex_radix 60000000) by (Z.to_euclidean_division_equations; lia).
  rewrite (lex_radix 3600000000) by (Z.to_euclidean_division_equations; lia).
  f_equal; Z.to_euclidean_division_equations; lia.
Qed.

Lemma date_ok_bounds y m d :
  date_ok (y, m, d) = true -> 1 <= m <= 12 /\ 1 <= d <= 31.
Proof. simpl. intros H. bools. lia. Qed.

(** The date, field by field, compares as the day. *)
Lemma compare_date y m d y' m' d' :
  date_ok (y, m, d) = true -> date_ok (y', m', d') = true ->
  lex (y ?= y') (lex (m ?= m') (d ?= d')) = (pack (y, m, d) ?= pack (y', m', d')).
Proof.
  intros H H'. apply date_ok_bounds in H, H'. simpl.
  rewrite (compare_ext m m' (m - 1) (m' - 1)), (compare_ext d d' (d - 1) (d' - 1)) by lia.
  rewrite (lex_radix 31), (lex_radix 372) by lia. apply compare_ext. lia.
Qed.

Lemma lex_assoc a b c : lex (lex a b) c = lex a (lex b c).
Proof. by destruct a, b. Qed.

Lemma FormatTimestamp_compare t u :
  year_in_range t -> year_in_range u ->
  String.compare (FormatTimestamp t) (FormatTimestamp u) = (t / 1000 ?= u / 1000).
Proof.
  unfold year_in_range, FormatTimestamp.
  set (a := t / 1000). set (b := u / 1000). intros Ha Hb.
  pose proof (Z.mod_pos_bound a us_per_day ltac:(unfold us_per_day; lia)) as Ra.
  pose proof (Z.mod_pos_bound b us_per_day ltac:(unfold us_per_day; lia)) as Rb.
  pose proof (compare_civil (a / us_per_day) (b / us_per_day)) as Hc.
  destruct (civil_step (a / us_per_day)) as [Da _].
  destruct (civil_step (b / us_per_day)) as [Db _].
  pose proof (Z.div_mod a us_per_day ltac:(unfold us_per_day; lia)) as Ea.
  pose proof (Z.div_mod b us_per_day ltac:(unfold us_per_day; lia)) as Eb.
  set (r := a mod us_per_day) in *. set (q := b mod us_per_day) in *.
  destruct (civil (a / us_per_day)) as [[y m] d], (civil (b / us_per_day)) as [[y' m'] d'].
  rewrite <- (compare_date _ _ _ _ _ _ Da Db) in Hc.
  apply date_ok_bounds in Da, Db. rewrite !year_str_dec by done.
  assert (H60 : forall x, 0 <= x mod 60 < 10 ^ Z.of_nat 2) by
    (intros x; change (10 ^ Z.of_nat 2) with 100; Z.to_euclidean_division_equations; lia).
  assert (H24 : forall x, 0 <= x < us_per_day -> 0 <= x / 3600000000 < 10 ^ Z.of_nat 2) by
    (unfold us_per_day; intros x Hx; change (10 ^ Z.of_nat 2) with 100; Z.to_euclidean_division_equations; lia).
  rewrite !compare_field by first [apply H60 | by apply H24 | simpl; lia].
  rewrite compare_app by (by rewrite !length_dec).
  rewrite compare_refl, compare_dec by (apply Z.mod_pos_bound; lia).
  replace (match r mod 1000000 ?= q mod 1000000 with Eq => Eq | c => c end)
    with (r mod 1000000 ?= q mod 1000000) by (by destruct (r mod 1000000 ?= q mod 1000000)).
  rewrite (compare_clock r q) by done.
  rewrite <- !lex_assoc, (lex_assoc (y ?= y')), Hc, (lex_radix us_per_day) by done.
  f_equal; lia.
Qed.

(** The half of it the stores use: texts are ordered as the instants, to the
    microsecond. *)
Lemma FormatTimestamp_lt t u :
  year_in_range t -> year_in_range u ->
  String.ltb (FormatTimestamp t) (FormatTimestamp u) = (t / 1000 <? u / 1000).
Proof.
  intros Ht Hu. unfold String.ltb. rewrite FormatTimestamp_compare by done.
  unfold Z.ltb. by destruct (_ ?= _).
Qed.

(** ** Reading a canonical timestamp back *)

(** Day number of a civil date: the inverse of [civil]. *)
Definition days_of (c : Z * Z * Z) : Z :=
  let '(y, m, d) := c in
  let y' := if m <=? 2 then y - 1 else y in
  let mp := if m <=? 2 then m + 9 else m - 3 in
  y' / 400 * 146097 + year_start (y' mod 400) + ((153 * mp + 2) / 5 + d - 1) - 719468.

#[local] Arguments days_of : simpl never.

Lemma month_day_doy doy :
  0 <= doy <= 365 ->
  let '(m, d) := month_day doy in
  (153 * (if m <=? 2 then m + 9 else m - 3) + 2) / 5 + d - 1 = doy.
Proof.
  intros Hd.
  assert (H : range_all (fun x => let '(m, d) := month_day x in
      (153 * (if m <=? 2 then m + 9 else m - 3) + 2) / 5 + d - 1 =? x) 366 0 = true)
    by (vm_compute; reflexivity).
  pose proof (range_all_spec _ _ _ doy H ltac:(lia)) as E. cbv beta in E.
  destruct (month_day doy) as [m d]. by apply Z.eqb_eq.
Qed.

Lemma days_of_civil day : days_of (civil day) = day.
Proof.
  pose proof (Z.mod_pos_bound (day + 719468) 146097 ltac:(lia)) as Hr.
  pose proof (Z.div_mod (day + 719468) 146097 ltac:(lia)) as Hd.
  destruct (year_of_era_spec _ Hr) as (Hy & _ & _).
  pose proof (month_day_doy _ (doy_bounds _ Hr)) as Hm.
  unfold civil, days_of. cbv zeta.
  set (doe := (day + 719468) mod 146097) in *. set (k := (day + 719468) / 146097) in *.
  destruct (month_day (doe - year_start (year_of_era doe))) as [m d].
  replace (if m <=? 2 then year_of_era doe + k * 400 + (if m <=? 2 then 1 else 0) - 1
           else year_of_era doe + k * 400 + (if m <=? 2 then 1 else 0))
    with (year_of_era doe + k * 400) by (destruct (m <=? 2); lia).
  rewrite Z.div_add, Z_mod_plus_full, Z.div_small, Z.mod_small by lia. lia.
Qed.

(** Reads [n] decimal digits. *)
Fixpoint take_dec (n : nat) (acc : Z) (s : string) : option (Z * string) :=
  match n with
  | O => Some (acc, s)
  | S n =>
      match s with
      | String c s =>
          let b := byte_val c in
          if (48 <=? b) && (b <=? 57) then take_dec n (acc * 10 + (b - 48)) s else None
      | EmptyString => None
      end
  end.

Definition expect (c : ascii) (s : string) : option string :=
  match s with String d s => if Ascii.eqb c d then Some s else None | EmptyString => None end.

(** [ParseTimestamp] on a text of the layout [FormatTimestamp] writes; the
    stores hold no other texts. *)
Definition parse_canonical (s : string) : option gotime :=
  '(y, s) ← take_dec 4 0 s; s ← expect "-" s; '(m, s) ← take_dec 2 0 s; s ← expect "-" s;
  '(d, s) ← take_dec 2 0 s; s ← expect "T" s; '(h, s) ← take_dec 2 0 s; s ← expect ":" s;
  '(mi, s) ← take_dec 2 0 s; s ← expect ":" s; '(se, s) ← take_dec 2 0 s; s ← expect "." s;
  '(us, s) ← take_dec 6 0 s; s ← expect "Z" s;
  if str_nonempty s then None
  else Some ((days_of (y, m, d) * us_per_day + h * 3600000000 + mi * 60000000 + se * 1000000 + us) * 1000).

Lemma expect_same c s : expect c (String c s) = Some s.
Proof. simpl. by rewrite Ascii.eqb_refl. Qed.

Lemma take_dec_app n m acc s :
  take_dec (n + m) acc s = '(a, r) ← take_dec n acc s; take_dec m a r.
Proof.
  revert acc s. induction n as [|n IH]; intros acc s; [done|]. simpl.
  destruct s as [|c s]; [done|]. by destruct (_ && _).
Qed.

Lemma take_dec_dec n acc x r :
  0 <= x < 10 ^ Z.of_nat n ->
  take_dec n acc (dec n x +:+ r) = Some (acc * 10 ^ Z.of_nat n + x, r).
Proof.
  revert acc x r. induction n as [|n IH]; intros acc x r Hx.
  { simpl in *. do 2 f_equal. lia. }
  rewrite Nat2Z.inj_succ, Z.pow_succ_r in * by lia.
  rewrite dec_succ, string_app_assoc. replace (S n) with (n + 1)%nat by lia.
  rewrite take_dec_app, IH by div_range.
  pose proof (Z.mod_pos_bound x 10 ltac:(lia)) as Hm.
  simpl. rewrite byte_val_of by lia.
  destruct (Z.leb_spec 48 (48 + x mod 10)), (Z.leb_spec (48 + x mod 10) 57); try lia.
  simpl. do 2 f_equal. pose proof (Z.div_mod x 10). lia.
Qed.

Lemma parse_format t : year_in_range t -> parse_canonical (FormatTimestamp t) = Some (t / 1000 * 1000).
Proof.
  unfold year_in_range, FormatTimestamp, parse_canonical. set (a := t / 1000). intros Ha.
  pose proof (Z.mod_pos_bound a us_per_day ltac:(unfold us_per_day; lia)) as Ra.
  pose proof (Z.div_mod a us_per_day ltac:(unfold us_per_day; lia)) as Ea.
  pose proof (days_of_civil (a / us_per_day)) as Hd.
  destruct (civil_step (a / us_per_day)) as [Da _].
  set (r := a mod us_per_day) in *. set (q := a / us_per_day) in *.
  destruct (civil q) as [[y m] d]. apply date_ok_bounds in Da. rewrite year_str_dec by done.
  assert (H60 : forall x, 0 <= x mod 60 < 10 ^ Z.of_nat 2) by
    (intros x; change (10 ^ Z.of_nat 2) with 100; Z.to_euclidean_division_equations; lia).
  assert (H24 : 0 <= r / 3600000000 < 10 ^ Z.of_nat 2) by
    (unfold us_per_day in Ra; change (10 ^ Z.of_nat 2) with 100; Z.to_euclidean_division_equations; lia).
  assert (H6 : 0 <= r mod 1000000 < 10 ^ Z.of_nat 6) by
    (change (10 ^ Z.of_nat 6) with 1000000; apply Z.mod_pos_bound; lia).
  repeat (rewrite take_dec_dec by first [done | apply H60 | simpl; lia];
          cbn [mbind option_bind]; rewrite expect_same; cbn [mbind option_bind]).
  rewrite !Z.mul_0_l, !Z.add_0_l, Hd. simpl. f_equal. unfold us_per_day in *. Z.to_euclidean_division_equations; lia.
Qed.
