(* ===== verification/TimeParse.v ===== *)
(** Reading timestamps ([ParseTimestamp] of [src/internal/timesvc/timestamp.go])
    and writing them in the variable layout [time.RFC3339Nano].

    [time.Parse] is written out for that one layout, with what Go accepts beyond
    RFC 3339: an hour of one digit, a comma before the fraction, offsets of up to 24
    hours and 60 minutes.  The theorem of this file compares a text of the variable
    layout with the fixed texts of the tables. *)
From S2P Require Import Prelude Errors Encoding Timestamp.
From Stdlib Require Import String Ascii List ZArith Lia Bool.
From stdpp Require Import base strings list.
Open Scope Z_scope.

(** ** [time.Parse(time.RFC3339Nano, s)] *)

Definition dig (c : ascii) : option Z :=
  let b := byte_val c in if (48 <=? b) && (b <=? 57) then Some (b - 48) else None.

(** [getnum]: two digits, or one when [fixed] is false and no second follows. *)
Definition getnum (fixed : bool) (s : string) : option (Z * string) :=
  match s with
  | EmptyString => None
  | String a s =>
      match dig a with
      | None => None
      | Some x =>
          match s with
          | String b r => match dig b with
                          | Some y => Some (x * 10 + y, r)
                          | None => if fixed then None else Some (x, s)
                          end
          | EmptyString => if fixed then None else Some (x, s)
          end
      end
  end.

Definition in_range (lo hi : Z) (p : Z * string) : option (Z * string) :=
  if (lo <=? p.1) && (p.1 <=? hi) then Some p else None.

(** The digits at the head of a text. *)
Fixpoint span_dig (s : string) : list Z * string :=
  match s with
  | String c r => match dig c with
                  | Some d => let '(ds, t) := span_dig r in (d :: ds, t)
                  | None => ([], s)
                  end
  | EmptyString => ([], s)
  end.

(** Nanoseconds of a fraction: nine digits count. *)
Definition nanos_of (ds : list Z) : Z :=
  let ds := firstn 9 ds in undigits 10 ds * 10 ^ (9 - Z.of_nat (List.length ds)).

(** The optional fraction. *)
Definition get_fraction (s : string) : Z * string :=
  match s with
  | String c r =>
      if Ascii.eqb c "." || Ascii.eqb c "," then
        match span_dig r with
        | ([], _) => (0, s)
        | (ds, t) => (nanos_of ds, t)
        end
      else (0, s)
  | EmptyString => (0, s)
  end.

(** "Z" or an offset, in seconds. *)
Definition get_zone (s : string) : option (Z * string) :=
  match s with
  | String "Z" r => Some (0, r)
  | String sign r =>
      '(hr, r) ← getnum true r; r ← expect ":" r; '(mm, r) ← getnum true r;
      if (24 <? hr) || (60 <? mm) then None
      else if Ascii.eqb sign "+" then Some ((hr * 60 + mm) * 60, r)
      else if Ascii.eqb sign "-" then Some (- ((hr * 60 + mm) * 60), r)
      else None
  | EmptyString => None
  end.

Definition leap_year (y : Z) : bool := (y mod 4 =? 0) && (negb (y mod 100 =? 0) || (y mod 400 =? 0)).

Definition days_in (m y : Z) : Z :=
  if m =? 2 then (if leap_year y then 29 else 28)
  else if (m =? 4) || (m =? 6) || (m =? 9) || (m =? 11) then 30 else 31.

Definition parse_rfc3339 (s : string) : option gotime :=
  '(y, s) ← take_dec 4 0 s; s ← expect "-" s;
  '(m, s) ← getnum true s ≫= in_range 1 12; s ← expect "-" s;
  '(d, s) ← getnum true s; s ← expect "T" s;
  '(h, s) ← getnum false s ≫= in_range 0 23; s ← expect ":" s;
  '(mi, s) ← getnum true s ≫= in_range 0 59; s ← expect ":" s;
  '(se, s) ← getnum true s ≫= in_range 0 59;
  let '(ns, s) := get_fraction s in
  '(off, s) ← get_zone s;
  if str_nonempty s then None
  else if (d <? 1) || (days_in m y <? d) then None
  else Some ((days_of (y, m, d) * 86400 + h * 3600 + mi * 60 + se - off) * 1000000000 + ns).

Definition ParseTimestamp (s : string) : result gotime :=
  if String.eqb s "" then Err (Errorf "timestamp: parse: empty string" [])
  else match parse_rfc3339 s with
       | Some t => Ok t
       | None => Err (Errorf "timestamp: parse: unrecognized format: %q (expected %s)" [])
       end.

Example parse_utc : ParseTimestamp "2026-01-02T02:59:59.123456Z" = Ok (1767322799 * 1000000000 + 123456000).
Proof. vm_compute. reflexivity. Qed.
Example parse_offset : ParseTimestamp "2026-01-02T4:59:59,5+02:00" = Ok (1767322799 * 1000000000 + 500000000).
Proof. vm_compute. reflexivity. Qed.
Example parse_bad_day : is_ok (ParseTimestamp "2026-02-29T00:00:00Z") = false.
Proof. vm_compute. reflexivity. Qed.

(** ** [Format(time.RFC3339Nano)] of an instant in UTC *)

(** The fraction without its trailing zeros. *)
Fixpoint drop_zeros (l : list Z) : list Z :=
  match l with
  | 0 :: r => drop_zeros r
  | _ => l
  end.

Definition fraction_str (ns : Z) : string :=
  if ns =? 0 then EmptyString
  else String "." (bytes_str (map (Z.add 48) (rev (drop_zeros (rev (digits 10 9 ns)))))).

Definition clock_str (day secs : Z) : string :=
  let '(y, m, d) := civil day in
  year_str y +:+ String "-" (dec 2 m +:+ String "-" (dec 2 d +:+ String "T" (
  dec 2 (secs / 3600) +:+ String ":" (dec 2 (secs / 60 mod 60) +:+ String ":" (dec 2 (secs mod 60)))))).

Definition FormatRFC3339Nano (t : gotime) : string :=
  let s := t / 1000000000 in
  clock_str (s / 86400) (s mod 86400) +:+ fraction_str (t mod 1000000000) +:+ "Z".

Example format_nano_whole : FormatRFC3339Nano (1767322799 * 1000000000) = "2026-01-02T02:59:59Z"%string.
Proof. vm_compute. reflexivity. Qed.
Example format_nano_trim : FormatRFC3339Nano (1767322799 * 1000000000 + 120000000) = "2026-01-02T02:59:59.12Z"%string.
Proof. vm_compute. reflexivity. Qed.

(** ** Reading back what [FormatTimestamp] writes *)

Lemma dig_code x : 0 <= x < 10 -> dig (byte_of (48 + x)) = Some x.
Proof.
  intros Hx. unfold dig. rewrite byte_val_of by lia.
  rewrite (proj2 (Z.leb_le 48 (48 + x))), (proj2 (Z.leb_le (48 + x) 57)) by lia. simpl. f_equal. lia.
Qed.

Lemma dec2 x : dec 2 x = String (byte_of (48 + x / 10 mod 10)) (String (byte_of (48 + x mod 10)) EmptyString).
Proof. by rewrite dec_succ, dec_succ. Qed.

Lemma getnum_dec fixed x r : 0 <= x < 100 -> getnum fixed (dec 2 x +:+ r) = Some (x, r).
Proof.
  intros Hx. rewrite dec2. cbn [getnum String.append].
  rewrite !dig_code by (apply Z.mod_pos_bound; lia).
  do 2 f_equal. Z.to_euclidean_division_equations; lia.
Qed.

Lemma in_range_Some lo hi x r : lo <= x <= hi -> in_range lo hi (x, r) = Some (x, r).
Proof. intros Hx. unfold in_range. cbn [fst]. by rewrite (proj2 (Z.leb_le lo x)), (proj2 (Z.leb_le x hi)) by lia. Qed.

Lemma span_dig_codes l c r :
  Forall (fun d => 0 <= d < 10) l -> dig c = None ->
  span_dig (bytes_str (map (Z.add 48) l) +:+ String c r) = (l, String c r).
Proof.
  intros Hl Hc. induction Hl as [|d l Hd _ IH]; [simpl; by rewrite Hc|].
  change (span_dig (String (byte_of (48 + d)) (bytes_str (map (Z.add 48) l) +:+ String c r)) = (d :: l, String c r)).
  cbn [span_dig]. by rewrite dig_code, IH by done.
Qed.

(** The days of the calendar are days of their month. *)
Lemma month_day_days doy :
  0 <= doy <= 365 ->
  let '(m, d) := month_day doy in
  1 <= m <= 12 /\ 1 <= d /\ (m <> 2 -> d <= days_in m 0) /\ (m = 2 -> d <= 28 \/ (d = 29 /\ doy = 365)).
Proof.
  intros Hd.
  assert (H : range_all (fun x => let '(m, d) := month_day x in
      (1 <=? m) && (m <=? 12) && (1 <=? d) &&
      (if m =? 2 then (d <=? 28) || ((d =? 29) && (x =? 365)) else d <=? days_in m 0)) 366 0 = true)
    by (vm_compute; reflexivity).
  pose proof (range_all_spec _ _ _ doy H ltac:(lia)) as E. cbv beta in E.
  destruct (month_day doy) as [m d]. apply andb_true_iff in E as [E Hf]. bools. split; [lia|]. split; [lia|].
  destruct (m =? 2) eqn:Hm; split; intros Hm2; lia.
Qed.

Lemma leap_mod y k : leap_year (y + k * 400) = leap_year y.
Proof.
  unfold leap_year. replace (y + k * 400) with (y + (k * 100) * 4) by lia. rewrite Z_mod_plus_full.
  replace (y + k * 100 * 4) with (y + (k * 4) * 100) by lia. rewrite Z_mod_plus_full.
  replace (y + k * 4 * 100) with (y + k * 400) by lia. by rewrite Z_mod_plus_full.
Qed.

(** The 366th day of a year that starts in March exists before a leap year only. *)
Lemma leap_doy doe :
  0 <= doe < 146097 -> doe - year_start (year_of_era doe) = 365 -> leap_year (year_of_era doe + 1) = true.
Proof.
  intros Hd He. destruct (year_of_era_spec doe Hd) as (Hr & _ & Hn).
  destruct (decide (year_of_era doe = 399)) as [->|Hne]; [done|]. specialize (Hn ltac:(lia)).
  unfold leap_year, year_start in *.
  assert ((year_of_era doe + 1) mod 4 = 0 /\ (year_of_era doe + 1) mod 100 <> 0) as [-> H100]
    by (Z.to_euclidean_division_equations; lia).
  by rewrite (proj2 (Z.eqb_neq _ 0) H100).
Qed.

Lemma civil_valid day : let '(y, m, d) := civil day in 1 <= m <= 12 /\ 1 <= d <= days_in m y.
Proof.
  pose proof (Z.mod_pos_bound (day + 719468) 146097 ltac:(lia)) as Hr.
  unfold civil. cbv zeta. set (doe := (day + 719468) mod 146097) in *. set (k := (day + 719468) / 146097).
  pose proof (month_day_days _ (doy_bounds doe Hr)) as Hm. pose proof (leap_doy doe Hr) as Hl.
  destruct (month_day (doe - year_start (year_of_era doe))) as [m d].
  destruct Hm as (H12 & H1 & Hother & Hfeb). split; [done|]. split; [done|].
  unfold days_in in *. destruct (m =? 2) eqn:H2; [|apply Hother; lia].
  apply Z.eqb_eq in H2 as ->. destruct (Hfeb eq_refl) as [H|[-> H]]; [case_goal; lia|].
  change (if 2 <=? 2 then 1 else 0) with 1.
  replace (year_of_era doe + k * 400 + 1) with (year_of_era doe + 1 + k * 400) by lia.
  by rewrite leap_mod, Hl.
Qed.

Lemma get_fraction_micros x r : 0 <= x < 1000000 -> get_fraction (String "." (dec 6 x +:+ String "Z" r)) = (x * 1000, String "Z" r).
Proof.
  intros Hx. unfold get_fraction. rewrite Ascii.eqb_refl. cbn [orb]. unfold dec.
  rewrite span_dig_codes by (first [apply digits_range; lia | done]).
  destruct (digits 10 6 x) as [|z l] eqn:Hd; [done|]. rewrite <- Hd. unfold nanos_of.
  rewrite firstn_all2 by (rewrite length_digits; lia). by rewrite length_digits, undigits_digits by (simpl; lia).
Qed.

Lemma ParseTimestamp_canonical t : year_in_range t -> ParseTimestamp (FormatTimestamp t) = Ok (t / 1000 * 1000).
Proof.
  intros Hy. unfold ParseTimestamp, parse_rfc3339, year_in_range, FormatTimestamp in *.
  set (a := t / 1000) in *.
  pose proof (Z.mod_pos_bound a us_per_day ltac:(unfold us_per_day; lia)) as Ra.
  pose proof (Z.div_mod a us_per_day ltac:(unfold us_per_day; lia)) as Ea.
  pose proof (days_of_civil (a / us_per_day)) as Hd. pose proof (civil_valid (a / us_per_day)) as Hv.
  set (r := a mod us_per_day) in *. set (q := a / us_per_day) in *.
  destruct (civil q) as [[y m] d]. destruct Hv as [Hm Hdd]. rewrite year_str_dec by done.
  assert (H31 : days_in m y <= 31) by (unfold days_in; repeat case_goal; lia).
  assert (H24 : 0 <= r / 3600000000 <= 23) by (unfold us_per_day in Ra; Z.to_euclidean_division_equations; lia).
  assert (H60 : forall x, 0 <= x mod 60 <= 59) by (intros x; Z.to_euclidean_division_equations; lia).
  rewrite (proj2 (String.eqb_neq _ _)) by (rewrite dec_succ, dec_succ, dec_succ, dec_succ; discriminate).
  rewrite take_dec_dec by (simpl; lia). cbn [mbind option_bind]. rewrite expect_same. cbn [mbind option_bind].
  repeat (rewrite getnum_dec by (first [pose proof (H60 (r / 60000000)); lia | pose proof (H60 (r / 1000000)); lia | lia]);
          cbn [mbind option_bind]; rewrite ?in_range_Some by (first [apply H60 | lia]); cbn [mbind option_bind];
          rewrite ?expect_same; cbn [mbind option_bind]).
  rewrite (get_fraction_micros (r mod 1000000)) by (apply Z.mod_pos_bound; lia).
  cbn [get_zone mbind option_bind str_nonempty]. rewrite Z.mul_0_l, Z.add_0_l.
  rewrite (proj2 (Z.ltb_ge d 1)), (proj2 (Z.ltb_ge (days_in m y) d)) by lia. cbn [orb].
  rewrite Hd. f_equal. unfold us_per_day in *. Z.to_euclidean_division_equations; lia.
Qed.

(** ** The variable layout against the fixed one *)

Lemma FormatTimestamp_clock u :
  FormatTimestamp u = clock_str (u / 1000000000 / 86400) (u / 1000000000 mod 86400) +:+
                      String "." (dec 6 (u / 1000 mod 1000000) +:+ "Z").
Proof.
  unfold FormatTimestamp, clock_str, us_per_day.
  replace (u / 1000000000 / 86400) with (u / 1000 / (86400 * 1000000)) by (Z.to_euclidean_division_equations; lia).
  destruct (civil _) as [[y m] d]. rewrite !string_app_assoc. cbn [String.append]. rewrite !string_app_assoc.
  cbn [String.append]. rewrite !string_app_assoc. cbn [String.append].
  set (a := u / 1000). replace (u / 1000000000) with (a / 1000000) by (subst a; Z.to_euclidean_division_equations; lia).
  set (r := a mod _). set (q := a / 1000000 mod 86400).
  assert (r / 3600000000 = q / 3600) as -> by (subst r q; Z.to_euclidean_division_equations; lia).
  assert (r / 60000000 mod 60 = q / 60 mod 60) as -> by (subst r q; Z.to_euclidean_division_equations; lia).
  assert (r / 1000000 mod 60 = q mod 60) as -> by (subst r q; Z.to_euclidean_division_equations; lia).
  by assert (r mod 1000000 = a mod 1000000) as -> by (subst r; Z.to_euclidean_division_equations; lia).
Qed.

(** The clock part of an instant. *)
Definition whole (s : Z) : string := clock_str (s / 86400) (s mod 86400).

Lemma year_of_second u : year_in_range u <-> year_in_range (u / 1000000000 * 1000000000).
Proof.
  unfold year_in_range.
  by replace (u / 1000000000 * 1000000000 / 1000 / us_per_day) with (u / 1000 / us_per_day)
    by (unfold us_per_day; Z.to_euclidean_division_equations; lia).
Qed.

Lemma whole_length u : year_in_range u -> String.length (whole (u / 1000000000)) = 19%nat.
Proof.
  unfold year_in_range, whole, clock_str.
  replace (u / 1000 / us_per_day) with (u / 1000000000 / 86400)
    by (unfold us_per_day; Z.to_euclidean_division_equations; lia).
  destruct (civil _) as [[y m] d]. intros Hy. rewrite year_str_dec by done.
  by repeat first [rewrite string_app_length | rewrite length_dec | progress cbn [String.length Nat.add]].
Qed.

Lemma compare_whole u v :
  year_in_range u -> year_in_range v ->
  String.compare (whole (u / 1000000000)) (whole (v / 1000000000)) = (u / 1000000000 ?= v / 1000000000).
Proof.
  intros Hu Hv. pose proof (whole_length u Hu) as Lu. pose proof (whole_length v Hv) as Lv.
  apply year_of_second in Hu, Hv.
  pose proof (FormatTimestamp_compare _ _ Hu Hv) as H. rewrite !FormatTimestamp_clock in H.
  rewrite !Z.div_mul in H by lia. set (s := u / 1000000000) in *. set (s' := v / 1000000000) in *.
  fold (whole s) (whole s') in H. rewrite compare_app in H by congruence.
  replace (s * 1000000000 / 1000) with (s * 1000000) in H by (Z.to_euclidean_division_equations; lia).
  replace (s' * 1000000000 / 1000) with (s' * 1000000) in H by (Z.to_euclidean_division_equations; lia).
  rewrite !Z_mod_mult, compare_refl, <- Zmult_compare_compat_r in H by lia.
  by destruct (String.compare (whole s) (whole s')).
Qed.

(** A bound on a whole second sorts after every stored time of that second. *)
Lemma FormatTimestamp_whole u v :
  year_in_range u -> year_in_range v -> v mod 1000000000 = 0 ->
  String.compare (FormatTimestamp u) (FormatRFC3339Nano v) =
  (if u / 1000000000 <=? v / 1000000000 then Lt else Gt).
Proof.
  intros Hu Hv H0. rewrite FormatTimestamp_clock. unfold FormatRFC3339Nano. rewrite H0. cbn [fraction_str Z.eqb String.append].
  fold (whole (u / 1000000000)) (whole (v / 1000000000)).
  rewrite compare_app by (by rewrite !whole_length). rewrite compare_whole by done.
  destruct (Z.compare_spec (u / 1000000000) (v / 1000000000)), (Z.leb_spec (u / 1000000000) (v / 1000000000)); try lia; done.
Qed.
