(* ===== verification/Constants.v ===== *)
(** The action classes and collections that governance decides on
    ([src/internal/constants/action_types_gen.go], [collections.go]). *)
From S2P Require Import Prelude Errors.
From Stdlib Require Import String List Bool.
From stdpp Require Import base strings list gmap.
Open Scope string_scope.

(** ** Action types *)

Definition ActionType := string.

Definition ActionTypeA2aCall : ActionType := "A2A_CALL".
Definition ActionTypeCancel : ActionType := "CANCEL".
Definition ActionTypeDocumentDelete : ActionType := "DOCUMENT_DELETE".
Definition ActionTypeDocumentUpdate : ActionType := "DOCUMENT_UPDATE".
Definition ActionTypeEvalAnswer : ActionType := "EVAL_ANSWER".
Definition ActionTypeExecuteBash : ActionType := "EXECUTE_BASH".
Definition ActionTypeFetchFileDiff : ActionType := "FETCH_FILE_DIFF".
Definition ActionTypeFetchFileHistory : ActionType := "FETCH_FILE_HISTORY".
Definition ActionTypeFetchHistory : ActionType := "FETCH_HISTORY".
Definition ActionTypeFetchLogs : ActionType := "FETCH_LOGS".
Definition ActionTypeFileEdit : ActionType := "FILE_EDIT".
Definition ActionTypeFsGrep : ActionType := "FS_GREP".
Definition ActionTypeFsList : ActionType := "FS_LIST".
Definition ActionTypeFsRead : ActionType := "FS_READ".
Definition ActionTypeHeartbeat : ActionType := "HEARTBEAT".
Definition ActionTypeInference : ActionType := "INFERENCE".
Definition ActionTypeMcpCall : ActionType := "MCP_CALL".
Definition ActionTypeMcpPromptGet : ActionType := "MCP_PROMPT_GET".
Definition ActionTypeMcpPromptList : ActionType := "MCP_PROMPT_LIST".
Definition ActionTypeMcpResourceList : ActionType := "MCP_RESOURCE_LIST".
Definition ActionTypeMcpResourceRead : ActionType := "MCP_RESOURCE_READ".
Definition ActionTypeModelProvenanceObservation : ActionType := "MODEL_PROVENANCE_OBSERVATION".
Definition ActionTypeOllamaModelInventory : ActionType := "OLLAMA_MODEL_INVENTORY".
Definition ActionTypeOllamaModelResidency : ActionType := "OLLAMA_MODEL_RESIDENCY".
Definition ActionTypePlatformEnrollmentCreate : ActionType := "PLATFORM_ENROLLMENT_CREATE".
Definition ActionTypePlatformEnrollmentCreateSession : ActionType := "PLATFORM_ENROLLMENT_CREATE_SESSION".
Definition ActionTypePlatformEnrollmentDecide : ActionType := "PLATFORM_ENROLLMENT_DECIDE".
Definition ActionTypePlatformEnrollmentIssue : ActionType := "PLATFORM_ENROLLMENT_ISSUE".
Definition ActionTypePlatformEnrollmentPersistPolicy : ActionType := "PLATFORM_ENROLLMENT_PERSIST_POLICY".
Definition ActionTypePlatformEnrollmentRevoke : ActionType := "PLATFORM_ENROLLMENT_REVOKE".
Definition ActionTypePortCheck : ActionType := "PORT_CHECK".
Definition ActionTypeProviderBoundaryObservation : ActionType := "PROVIDER_BOUNDARY_OBSERVATION".
Definition ActionTypeRestoreFile : ActionType := "RESTORE_FILE".
Definition ActionTypeShutdown : ActionType := "SHUTDOWN".

Definition AllActionTypes : list ActionType :=
  [ActionTypeA2aCall; ActionTypeCancel; ActionTypeDocumentDelete; ActionTypeDocumentUpdate;
   ActionTypeEvalAnswer; ActionTypeExecuteBash; ActionTypeFetchFileDiff;
   ActionTypeFetchFileHistory; ActionTypeFetchHistory; ActionTypeFetchLogs; ActionTypeFileEdit;
   ActionTypeFsGrep; ActionTypeFsList; ActionTypeFsRead; ActionTypeHeartbeat;
   ActionTypeInference; ActionTypeMcpCall; ActionTypeMcpPromptGet; ActionTypeMcpPromptList;
   ActionTypeMcpResourceList; ActionTypeMcpResourceRead; ActionTypeModelProvenanceObservation;
   ActionTypeOllamaModelInventory; ActionTypeOllamaModelResidency;
   ActionTypePlatformEnrollmentCreate; ActionTypePlatformEnrollmentCreateSession;
   ActionTypePlatformEnrollmentDecide; ActionTypePlatformEnrollmentIssue;
   ActionTypePlatformEnrollmentPersistPolicy; ActionTypePlatformEnrollmentRevoke;
   ActionTypePortCheck; ActionTypeProviderBoundaryObservation; ActionTypeRestoreFile;
   ActionTypeShutdown].

(** [ActionType.IsMutation]. *)
Definition IsMutation (a : ActionType) : bool :=
  mem a
  [ActionTypeA2aCall; ActionTypeCancel; ActionTypeDocumentDelete; ActionTypeDocumentUpdate;
   ActionTypeExecuteBash; ActionTypeFileEdit; ActionTypeInference; ActionTypeMcpCall;
   ActionTypePlatformEnrollmentCreateSession; ActionTypePlatformEnrollmentDecide;
   ActionTypePlatformEnrollmentIssue; ActionTypePlatformEnrollmentPersistPolicy;
   ActionTypePlatformEnrollmentRevoke; ActionTypeRestoreFile; ActionTypeShutdown].

(** [ActionType.IsBootstrapAction]. *)
Definition IsBootstrapAction (a : ActionType) : bool :=
  mem a
  [ActionTypePlatformEnrollmentCreate; ActionTypePlatformEnrollmentCreateSession;
   ActionTypePlatformEnrollmentDecide; ActionTypePlatformEnrollmentIssue;
   ActionTypePlatformEnrollmentPersistPolicy; ActionTypePlatformEnrollmentRevoke].

(** ** Collections *)

Definition CollectionName := string.

Definition CollectionCases : CollectionName := "cases".
Definition CollectionTasks : CollectionName := "tasks".
Definition CollectionInvestigations : CollectionName := "investigations".
Definition CollectionMemories : CollectionName := "memories".
Definition CollectionAgentActivityMetadata : CollectionName := "agent_activity_metadata".
Definition CollectionStakeResolutions : CollectionName := "stake_resolutions".
Definition CollectionReputationState : CollectionName := "reputation_state".
Definition CollectionReputationCommitments : CollectionName := "reputation_commitments".

(** [CollectionName.IsGovernedDocument]. *)
Definition IsGovernedDocument (c : CollectionName) : bool :=
  mem c
  [CollectionCases; CollectionTasks; CollectionInvestigations; CollectionMemories;
   CollectionAgentActivityMetadata; CollectionStakeResolutions; CollectionReputationState;
   CollectionReputationCommitments].
