(* ===== verification/EventRegistry.v ===== *)
(** The event registry ([src/internal/constants/events_gen.go]) and the rules
    that bind a governed event to its action class
    ([src/internal/constants/registry_governed.go]).

    The registry is a Go map from event names to entries: [Registry] is that map,
    built from the entries in the order of the file. *)
From S2P Require Import Prelude Errors Constants.
From Stdlib Require Import String List Bool.
From stdpp Require Import base strings list gmap.
Open Scope string_scope.

Definition EventType := string.

Inductive EventKind := KRequest | KOutcome | KFact | KStream.

#[export] Instance EventKind_eq_dec : EqDecision EventKind.
Proof. solve_decision. Defined.

Record EventRegistryEntry := entry {
  Key : string;
  Kind : EventKind;
  Transport : list string;
  Producers : list string;
  Persistence : string;
  GovernanceAction : ActionType;
  GovernancePayload : string;
  Outcomes : list string;
  Reserved : bool
}.

Definition registry_00 : list (string * EventRegistryEntry) := [
  ("g8e.v1.ai.agent.conflict.detected", entry "AiAgentConflictDetected" KOutcome ["sse"] ["ensemble"] "gateway.sse_store" "" "" [] false);
  ("g8e.v1.ai.agent.conflict.resolved", entry "AiAgentConflictResolved" KOutcome [] ["ensemble"] "gateway.sse_store" "" "" [] true);
  ("g8e.v1.ai.agent.continue.approval.granted", entry "AiAgentContinueApprovalGranted" KOutcome [] ["ensemble"] "gateway.sse_store" "" "" [] false);
  ("g8e.v1.ai.agent.continue.approval.rejected", entry "AiAgentContinueApprovalRejected" KOutcome [] ["ensemble"] "gateway.sse_store" "" "" [] false);
  ("g8e.v1.ai.agent.continue.approval.requested", entry "AiAgentContinueApprovalRequested" KRequest ["sse"] ["ensemble"] "ephemeral" "" "" [] false);
  ("g8e.v1.ai.consensus.session.auditor.failed", entry "AiConsensusSessionAuditorFailed" KOutcome ["sse"] ["ensemble"] "gateway.sse_store" "" "" [] false);
  ("g8e.v1.ai.consensus.session.completed", entry "AiConsensusSessionCompleted" KOutcome ["sse"] ["ensemble"] "gateway.sse_store" "" "" [] false);
  ("g8e.v1.ai.consensus.session.disabled", entry "AiConsensusSessionDisabled" KOutcome ["sse"] ["ensemble"] "gateway.sse_store" "" "" [] false);
  ("g8e.v1.ai.consensus.session.generation.failed", entry "AiConsensusSessionGenerationFailed" KOutcome ["sse"] ["ensemble"] "gateway.sse_store" "" "" [] false);
  ("g8e.v1.ai.consensus.session.marshal.blocked", entry "AiConsensusSessionMarshalBlocked" KOutcome ["sse"] ["ensemble"] "gateway.sse_store" "" "" [] false);
  ("g8e.v1.ai.consensus.session.model.not.configured", entry "AiConsensusSessionModelNotConfigured" KOutcome ["sse"] ["ensemble"] "gateway.sse_store" "" "" [] false);
  ("g8e.v1.ai.consensus.session.provider.unavailable", entry "AiConsensusSessionProviderUnavailable" KOutcome ["sse"] ["ensemble"] "gateway.sse_store" "" "" [] false);
  ("g8e.v1.ai.consensus.session.started", entry "AiConsensusSessionStarted" KOutcome ["sse"] ["ensemble"] "gateway.sse_store" "" "" [] false);
  ("g8e.v1.ai.consensus.session.system.error", entry "AiConsensusSessionSystemError" KOutcome ["sse"] ["ensemble"] "gateway.sse_store" "" "" [] false);
  ("g8e.v1.ai.consensus.voting.audit.completed", entry "AiConsensusVotingAuditCompleted" KOutcome ["sse"] ["ensemble"] "operator.audit_log" "" "" [] false);
  ("g8e.v1.ai.consensus.voting.audit.started", entry "AiConsensusVotingAuditStarted" KOutcome ["sse"] ["ensemble"] "operator.audit_log" "" "" [] false);
  ("g8e.v1.ai.consensus.voting.consensus.failed", entry "AiConsensusVotingConsensusFailed" KOutcome ["sse"] ["ensemble"] "gateway.sse_store" "" "" [] false);
  ("g8e.v1.ai.consensus.voting.consensus.not.reached", entry "AiConsensusVotingConsensusNotReached" KOutcome ["sse"] ["ensemble"] "gateway.sse_store" "" "" [] false);
  ("g8e.v1.ai.consensus.voting.consensus.reached", entry "AiConsensusVotingConsensusReached" KOutcome ["sse"] ["ensemble"] "gateway.sse_store" "" "" [] false);
  ("g8e.v1.ai.consensus.voting.dissent.recorded", entry "AiConsensusVotingDissentRecorded" KFact ["sse"] ["ensemble"] "ephemeral" "" "" [] false);
  ("g8e.v1.ai.consensus.voting.pass.completed", entry "AiConsensusVotingPassCompleted" KOutcome ["sse"] ["ensemble"] "gateway.sse_store" "" "" [] false)].

Definition registry_01 : list (string * EventRegistryEntry) := [
  ("g8e.v1.ai.consensus.voting.round.2.consensus.failed", entry "AiConsensusVotingRound2ConsensusFailed" KOutcome ["sse"] ["ensemble"] "gateway.sse_store" "" "" [] true);
  ("g8e.v1.ai.consensus.voting.round.2.consensus.reached", entry "AiConsensusVotingRound2ConsensusReached" KOutcome ["sse"] ["ensemble"] "gateway.sse_store" "" "" [] true);
  ("g8e.v1.ai.consensus.voting.round.2.started", entry "AiConsensusVotingRound2Started" KOutcome ["sse"] ["ensemble"] "gateway.sse_store" "" "" [] true);
  ("g8e.v1.ai.consensus.voting.round.completed", entry "AiConsensusVotingRoundCompleted" KOutcome ["sse"] ["ensemble"] "gateway.sse_store" "" "" [] false);
  ("g8e.v1.ai.consensus.voting.round.started", entry "AiConsensusVotingRoundStarted" KOutcome ["sse"] ["ensemble"] "gateway.sse_store" "" "" [] false);
  ("g8e.v1.ai.eval.assignment.completed", entry "AiEvalAssignmentCompleted" KOutcome [] ["ensemble"; "gateway"] "gateway.sse_store" "" "" [] false);
  ("g8e.v1.ai.eval.assignment.started", entry "AiEvalAssignmentStarted" KOutcome [] ["ensemble"; "gateway"] "gateway.sse_store" "" "" [] false);
  ("g8e.v1.ai.eval.cycle.completed", entry "AiEvalCycleCompleted" KOutcome [] ["ensemble"; "gateway"] "gateway.sse_store" "" "" [] false);
  ("g8e.v1.ai.eval.cycle.started", entry "AiEvalCycleStarted" KOutcome [] ["ensemble"; "gateway"] "gateway.sse_store" "" "" [] false);
  ("g8e.v1.ai.eval.heartbeat", entry "AiEvalHeartbeat" KFact [] ["ensemble"; "gateway"] "gateway.operator_docs" "" "" [] false);
  ("g8e.v1.ai.eval.metric.available", entry "AiEvalMetricAvailable" KOutcome [] ["ensemble"; "gateway"] "gateway.sse_store" "" "" [] false);
  ("g8e.v1.ai.eval.metric.recorded", entry "AiEvalMetricRecorded" KFact [] ["ensemble"] "ephemeral" "" "" [] true);
  ("g8e.v1.ai.eval.model_role.invoked", entry "AiEvalModelRoleInvoked" KOutcome [] ["ensemble"; "gateway"] "gateway.sse_store" "" "" [] false);
  ("g8e.v1.ai.eval.proof.available", entry "AiEvalProofAvailable" KOutcome [] ["ensemble"; "gateway"] "gateway.sse_store" "" "" [] false);
  ("g8e.v1.ai.eval.publication.completed", entry "AiEvalPublicationCompleted" KOutcome [] ["ensemble"; "gateway"] "gateway.sse_store" "" "" [] false);
  ("g8e.v1.ai.eval.run.completed", entry "AiEvalRunCompleted" KOutcome [] ["ensemble"] "gateway.sse_store" "" "" [] true);
  ("g8e.v1.ai.eval.stop.requested", entry "AiEvalStopRequested" KRequest [] ["ensemble"; "gateway"] "ephemeral" "" "" [] false);
  ("g8e.v1.ai.eval.verifier.completed", entry "AiEvalVerifierCompleted" KOutcome [] ["ensemble"; "gateway"] "gateway.sse_store" "" "" [] false);
  ("g8e.v1.ai.llm.chat.filter.updated", entry "AiLLMChatFilterEvent" KOutcome [] ["cli"; "ensemble"] "gateway.sse_store" "" "" [] false);
  ("g8e.v1.ai.llm.chat.iteration.citations.received", entry "AiLLMChatIterationCitationsReceived" KOutcome ["sse"] ["ensemble"] "gateway.sse_store" "" "" [] false)].

Definition registry_02 : list (string * EventRegistryEntry) := [
  ("g8e.v1.ai.llm.chat.iteration.completed", entry "AiLLMChatIterationCompleted" KOutcome ["sse"] ["ensemble"] "gateway.sse_store" "" "" [] false);
  ("g8e.v1.ai.llm.chat.iteration.failed", entry "AiLLMChatIterationFailed" KOutcome ["sse"] ["ensemble"] "gateway.sse_store" "" "" [] false);
  ("g8e.v1.ai.llm.chat.iteration.retry", entry "AiLLMChatIterationRetry" KOutcome ["sse"] ["ensemble"] "gateway.sse_store" "" "" [] false);
  ("g8e.v1.ai.llm.chat.iteration.started", entry "AiLLMChatIterationStarted" KOutcome ["sse"] ["ensemble"] "gateway.sse_store" "" "" [] false);
  ("g8e.v1.ai.llm.chat.iteration.stopped", entry "AiLLMChatIterationStopped" KOutcome ["sse"] ["ensemble"] "gateway.sse_store" "" "" [] false);
  ("g8e.v1.ai.llm.chat.iteration.stream.completed", entry "AiLLMChatIterationStreamCompleted" KStream ["sse"] ["ensemble"] "ephemeral" "" "" [] true);
  ("g8e.v1.ai.llm.chat.iteration.stream.delta.received", entry "AiLLMChatIterationStreamDeltaReceived" KStream ["sse"] ["ensemble"] "ephemeral" "" "" [] true);
  ("g8e.v1.ai.llm.chat.iteration.stream.failed", entry "AiLLMChatIterationStreamFailed" KStream ["sse"] ["ensemble"] "ephemeral" "" "" [] true);
  ("g8e.v1.ai.llm.chat.iteration.stream.started", entry "AiLLMChatIterationStreamStarted" KStream ["sse"] ["ensemble"] "ephemeral" "" "" [] true);
  ("g8e.v1.ai.llm.chat.iteration.text.chunk.received", entry "AiLLMChatIterationTextChunkReceived" KStream ["sse"] ["ensemble"] "ephemeral" "" "" [] false);
  ("g8e.v1.ai.llm.chat.iteration.text.completed", entry "AiLLMChatIterationTextCompleted" KOutcome ["sse"] ["ensemble"] "gateway.sse_store" "" "" [] false);
  ("g8e.v1.ai.llm.chat.iteration.text.received", entry "AiLLMChatIterationTextReceived" KOutcome [] ["ensemble"] "gateway.sse_store" "" "" [] true);
  ("g8e.v1.ai.llm.chat.iteration.text.truncated", entry "AiLLMChatIterationTextTruncated" KOutcome [] ["ensemble"] "gateway.sse_store" "" "" [] true);
  ("g8e.v1.ai.llm.chat.iteration.thinking.end", entry "AiLLMChatIterationThinkingEnd" KStream ["sse"] ["ensemble"] "ephemeral" "" "" [] true);
  ("g8e.v1.ai.llm.chat.iteration.thinking.started", entry "AiLLMChatIterationThinkingStarted" KStream ["sse"] ["ensemble"] "ephemeral" "" "" [] false);
  ("g8e.v1.ai.llm.chat.iteration.thinking.update", entry "AiLLMChatIterationThinkingUpdate" KStream ["sse"] ["ensemble"] "ephemeral" "" "" [] true);
  ("g8e.v1.ai.llm.chat.message.dead.lettered", entry "AiLLMChatMessageDeadLettered" KOutcome [] ["ensemble"] "gateway.sse_store" "" "" [] true);
  ("g8e.v1.ai.llm.chat.message.processing.failed", entry "AiLLMChatMessageProcessingFailed" KOutcome [] ["ensemble"] "gateway.sse_store" "" "" [] true);
  ("g8e.v1.ai.llm.chat.message.replayed", entry "AiLLMChatMessageReplayed" KOutcome [] ["ensemble"] "gateway.sse_store" "" "" [] true)].

Definition registry_03 : list (string * EventRegistryEntry) := [
  ("g8e.v1.ai.llm.chat.message.sent", entry "AiLLMChatMessageSent" KOutcome [] ["ensemble"] "gateway.sse_store" "" "" [] false);
  ("g8e.v1.ai.llm.chat.submitted", entry "AiLLMChatSubmitted" KOutcome [] ["ensemble"] "gateway.sse_store" "" "" [] true);
  ("g8e.v1.ai.llm.config.failed", entry "AiLLMConfigFailed" KOutcome [] ["ensemble"] "gateway.sse_store" "" "" [] true);
  ("g8e.v1.ai.llm.config.received", entry "AiLLMConfigReceived" KOutcome [] ["ensemble"] "gateway.sse_store" "" "" [] true);
  ("g8e.v1.ai.llm.config.requested", entry "AiLLMConfigRequested" KRequest [] ["ensemble"] "ephemeral" "" "" [] true);
  ("g8e.v1.ai.llm.lifecycle.completed", entry "AiLLMLifecycleCompleted" KOutcome [] ["ensemble"] "gateway.sse_store" "" "" [] false);
  ("g8e.v1.ai.llm.lifecycle.error.occurred", entry "AiLLMLifecycleErrorOccurred" KOutcome [] ["ensemble"] "gateway.sse_store" "" "" [] true);
  ("g8e.v1.ai.llm.lifecycle.failed", entry "AiLLMLifecycleFailed" KOutcome [] ["ensemble"] "gateway.sse_store" "" "" [] true);
  ("g8e.v1.ai.llm.lifecycle.requested", entry "AiLLMLifecycleRequested" KRequest [] ["ensemble"] "ephemeral" "" "" [] true);
  ("g8e.v1.ai.llm.lifecycle.started", entry "AiLLMLifecycleStarted" KOutcome [] ["ensemble"] "gateway.sse_store" "" "" [] false);
  ("g8e.v1.ai.llm.lifecycle.stopped", entry "AiLLMLifecycleStopped" KOutcome [] ["ensemble"] "gateway.sse_store" "" "" [] true);
  ("g8e.v1.ai.llm.tool.g8e.command.constraints.completed", entry "AiLLMToolG8eCommandConstraintsCompleted" KOutcome ["sse"] ["ensemble"] "gateway.sse_store" "" "" [] false);
  ("g8e.v1.ai.llm.tool.g8e.command.constraints.failed", entry "AiLLMToolG8eCommandConstraintsFailed" KOutcome [] ["ensemble"] "gateway.sse_store" "" "" [] true);
  ("g8e.v1.ai.llm.tool.g8e.command.constraints.received", entry "AiLLMToolG8eCommandConstraintsReceived" KOutcome [] ["ensemble"] "gateway.sse_store" "" "" [] true);
  ("g8e.v1.ai.llm.tool.g8e.command.constraints.requested", entry "AiLLMToolG8eCommandConstraintsRequested" KRequest ["sse"] ["ensemble"] "ephemeral" "" "" [] false);
  ("g8e.v1.ai.llm.tool.g8e.investigation.query.completed", entry "AiLLMToolG8eInvestigationQueryCompleted" KOutcome ["sse"] ["ensemble"] "gateway.sse_store" "" "" [] false);
  ("g8e.v1.ai.llm.tool.g8e.investigation.query.failed", entry "AiLLMToolG8eInvestigationQueryFailed" KOutcome [] ["ensemble"] "gateway.sse_store" "" "" [] true);
  ("g8e.v1.ai.llm.tool.g8e.investigation.query.received", entry "AiLLMToolG8eInvestigationQueryReceived" KOutcome [] ["ensemble"] "gateway.sse_store" "" "" [] true);
  ("g8e.v1.ai.llm.tool.g8e.investigation.query.requested", entry "AiLLMToolG8eInvestigationQueryRequested" KRequest ["sse"] ["ensemble"] "ephemeral" "" "" [] false)].

Definition registry_04 : list (string * EventRegistryEntry) := [
  ("g8e.v1.ai.llm.tool.g8e.web.search.completed", entry "AiLLMToolG8eWebSearchCompleted" KOutcome ["sse"] ["ensemble"] "gateway.sse_store" "" "" [] false);
  ("g8e.v1.ai.llm.tool.g8e.web.search.failed", entry "AiLLMToolG8eWebSearchFailed" KOutcome [] ["ensemble"] "gateway.sse_store" "" "" [] false);
  ("g8e.v1.ai.llm.tool.g8e.web.search.received", entry "AiLLMToolG8eWebSearchReceived" KOutcome [] ["ensemble"] "gateway.sse_store" "" "" [] true);
  ("g8e.v1.ai.llm.tool.g8e.web.search.requested", entry "AiLLMToolG8eWebSearchRequested" KRequest ["sse"] ["ensemble"] "ephemeral" "" "" [] false);
  ("g8e.v1.ai.llm.chat.iteration.thinking.stopped", entry "AiLlmChatIterationThinkingStopped" KStream ["sse"] ["ensemble"] "ephemeral" "" "" [] true);
  ("g8e.v1.ai.reputation.state.updated", entry "AiReputationStateUpdated" KOutcome [] ["ensemble"] "gateway.sse_store" "" "" [] true);
  ("g8e.v1.ai.triage.clarification.answered", entry "AiTriageClarificationAnswered" KOutcome [] ["ensemble"] "gateway.sse_store" "" "" [] false);
  ("g8e.v1.ai.triage.clarification.questions", entry "AiTriageClarificationQuestions" KOutcome ["sse"] ["ensemble"] "gateway.sse_store" "" "" [] false);
  ("g8e.v1.ai.triage.clarification.skipped", entry "AiTriageClarificationSkipped" KOutcome [] ["ensemble"] "gateway.sse_store" "" "" [] false);
  ("g8e.v1.ai.triage.clarification.timeout", entry "AiTriageClarificationTimeout" KOutcome [] ["ensemble"] "gateway.sse_store" "" "" [] false);
  ("g8e.v1.app.agent.activity.record.requested", entry "AppAgentActivityRecordRequested" KRequest ["governed"] ["ensemble"] "ephemeral" "DOCUMENT_UPDATE" "g8e.operator.v1.DocumentUpdateRequested" ["AppAgentActivityRecorded"] true);
  ("g8e.v1.app.agent.activity.recorded", entry "AppAgentActivityRecorded" KFact [] ["ensemble"] "ephemeral" "" "" [] false);
  ("g8e.v1.app.agent.status.updated", entry "AppAgentStatusUpdated" KFact [] ["ensemble"; "gateway"] "gateway.sse_store" "" "" [] false);
  ("g8e.v1.app.case.assigned", entry "AppCaseAssigned" KOutcome [] ["ensemble"] "ephemeral" "" "" [] true);
  ("g8e.v1.app.case.cleared", entry "AppCaseCleared" KOutcome [] ["ensemble"] "ephemeral" "" "" [] true);
  ("g8e.v1.app.case.closed", entry "AppCaseClosed" KOutcome [] ["ensemble"] "ephemeral" "" "" [] true);
  ("g8e.v1.app.case.create.requested", entry "AppCaseCreateRequested" KRequest ["governed"] ["ensemble"] "ephemeral" "DOCUMENT_UPDATE" "g8e.operator.v1.DocumentUpdateRequested" ["AppCaseCreated"] true);
  ("g8e.v1.app.case.created", entry "AppCaseCreated" KOutcome ["sse"] ["cli"; "ensemble"; "operator"] "gateway.docstore" "" "" [] false)].

Definition registry_05 : list (string * EventRegistryEntry) := [
  ("g8e.v1.app.case.delete.requested", entry "AppCaseDeleteRequested" KRequest ["governed"] ["ensemble"] "ephemeral" "DOCUMENT_DELETE" "g8e.operator.v1.DocumentDeleteRequested" ["AppCaseDeleted"] true);
  ("g8e.v1.app.case.deleted", entry "AppCaseDeleted" KOutcome [] ["ensemble"; "operator"] "gateway.docstore" "" "" [] false);
  ("g8e.v1.app.case.escalated", entry "AppCaseEscalated" KOutcome [] ["ensemble"] "ephemeral" "" "" [] false);
  ("g8e.v1.app.case.resolved", entry "AppCaseResolved" KOutcome [] ["ensemble"] "ephemeral" "" "" [] true);
  ("g8e.v1.app.case.selected", entry "AppCaseSelected" KOutcome [] ["ensemble"] "ephemeral" "" "" [] true);
  ("g8e.v1.app.case.switched", entry "AppCaseSwitched" KOutcome [] ["ensemble"] "ephemeral" "" "" [] true);
  ("g8e.v1.app.case.update.requested", entry "AppCaseUpdateRequested" KRequest ["governed"] ["ensemble"] "ephemeral" "DOCUMENT_UPDATE" "g8e.operator.v1.DocumentUpdateRequested" ["AppCaseUpdated"] true);
  ("g8e.v1.app.case.updated", entry "AppCaseUpdated" KOutcome ["sse"] ["ensemble"; "operator"] "gateway.docstore" "" "" [] false);
  ("g8e.v1.app.document.delete.requested", entry "AppDocumentDeleteRequested" KRequest ["governed"] ["cli"; "ensemble"; "operator"] "ephemeral" "DOCUMENT_DELETE" "g8e.operator.v1.DocumentDeleteRequested" [] false);
  ("g8e.v1.app.document.update.requested", entry "AppDocumentUpdateRequested" KRequest ["governed"] ["cli"; "ensemble"; "operator"] "ephemeral" "DOCUMENT_UPDATE" "g8e.operator.v1.DocumentUpdateRequested" [] false);
  ("g8e.v1.app.investigation.chat.message.ai", entry "AppInvestigationChatMessageAi" KOutcome [] ["ensemble"] "ephemeral" "" "" [] false);
  ("g8e.v1.app.investigation.chat.message.system", entry "AppInvestigationChatMessageSystem" KOutcome [] ["ensemble"] "ephemeral" "" "" [] true);
  ("g8e.v1.app.investigation.chat.message.user", entry "AppInvestigationChatMessageUser" KOutcome [] ["ensemble"] "ephemeral" "" "" [] false);
  ("g8e.v1.app.investigation.closed", entry "AppInvestigationClosed" KOutcome [] ["ensemble"] "ephemeral" "" "" [] true);
  ("g8e.v1.app.investigation.create.requested", entry "AppInvestigationCreateRequested" KRequest ["governed"] ["ensemble"] "ephemeral" "DOCUMENT_UPDATE" "g8e.operator.v1.DocumentUpdateRequested" ["AppInvestigationCreated"] true);
  ("g8e.v1.app.investigation.created", entry "AppInvestigationCreated" KOutcome [] ["ensemble"; "operator"] "gateway.docstore" "" "" [] false);
  ("g8e.v1.app.investigation.delete.requested", entry "AppInvestigationDeleteRequested" KRequest ["governed"] ["ensemble"] "ephemeral" "DOCUMENT_DELETE" "g8e.operator.v1.DocumentDeleteRequested" ["AppInvestigationDeleted"] true)].

Definition registry_06 : list (string * EventRegistryEntry) := [
  ("g8e.v1.app.investigation.deleted", entry "AppInvestigationDeleted" KOutcome [] ["ensemble"] "gateway.docstore" "" "" [] false);
  ("g8e.v1.app.investigation.escalated", entry "AppInvestigationEscalated" KOutcome [] ["ensemble"] "ephemeral" "" "" [] true);
  ("g8e.v1.app.investigation.list.completed", entry "AppInvestigationListCompleted" KOutcome [] ["ensemble"] "ephemeral" "" "" [] true);
  ("g8e.v1.app.investigation.list.failed", entry "AppInvestigationListFailed" KOutcome [] ["ensemble"] "ephemeral" "" "" [] true);
  ("g8e.v1.app.investigation.list.received", entry "AppInvestigationListReceived" KOutcome [] ["ensemble"] "ephemeral" "" "" [] true);
  ("g8e.v1.app.investigation.list.requested", entry "AppInvestigationListRequested" KRequest [] ["ensemble"] "ephemeral" "" "" [] true);
  ("g8e.v1.app.investigation.loaded", entry "AppInvestigationLoaded" KOutcome [] ["ensemble"] "ephemeral" "" "" [] true);
  ("g8e.v1.app.investigation.requested", entry "AppInvestigationRequested" KRequest [] ["ensemble"] "ephemeral" "" "" [] true);
  ("g8e.v1.app.investigation.started", entry "AppInvestigationStarted" KOutcome [] ["ensemble"] "ephemeral" "" "" [] true);
  ("g8e.v1.app.investigation.status.updated.closed", entry "AppInvestigationStatusUpdatedClosed" KFact [] ["ensemble"] "gateway.sse_store" "" "" [] false);
  ("g8e.v1.app.investigation.status.updated.escalated", entry "AppInvestigationStatusUpdatedEscalated" KFact [] ["ensemble"] "gateway.sse_store" "" "" [] false);
  ("g8e.v1.app.investigation.status.updated.open", entry "AppInvestigationStatusUpdatedOpen" KFact [] ["ensemble"] "gateway.sse_store" "" "" [] false);
  ("g8e.v1.app.investigation.status.updated.resolved", entry "AppInvestigationStatusUpdatedResolved" KFact [] ["ensemble"] "gateway.sse_store" "" "" [] false);
  ("g8e.v1.app.investigation.update.requested", entry "AppInvestigationUpdateRequested" KRequest ["governed"] ["ensemble"] "ephemeral" "DOCUMENT_UPDATE" "g8e.operator.v1.DocumentUpdateRequested" ["AppInvestigationUpdated"] true);
  ("g8e.v1.app.investigation.updated", entry "AppInvestigationUpdated" KOutcome [] ["ensemble"; "operator"] "gateway.docstore" "" "" [] false);
  ("g8e.v1.app.memory.create.requested", entry "AppMemoryCreateRequested" KRequest ["governed"] ["ensemble"] "ephemeral" "DOCUMENT_UPDATE" "g8e.operator.v1.DocumentUpdateRequested" ["AppMemoryCreated"] true);
  ("g8e.v1.app.memory.created", entry "AppMemoryCreated" KOutcome [] ["ensemble"] "gateway.docstore" "" "" [] false);
  ("g8e.v1.app.memory.update.requested", entry "AppMemoryUpdateRequested" KRequest ["governed"] ["ensemble"] "ephemeral" "DOCUMENT_UPDATE" "g8e.operator.v1.DocumentUpdateRequested" ["AppMemoryUpdated"] true)].

Definition registry_07 : list (string * EventRegistryEntry) := [
  ("g8e.v1.app.memory.updated", entry "AppMemoryUpdated" KOutcome [] ["ensemble"] "gateway.docstore" "" "" [] false);
  ("g8e.v1.app.reputation.commitment.create.requested", entry "AppReputationCommitmentCreateRequested" KRequest ["governed"] ["ensemble"] "gateway.docstore" "DOCUMENT_UPDATE" "g8e.operator.v1.DocumentUpdateRequested" ["OperatorReputationCommitmentCreated"] false);
  ("g8e.v1.app.reputation.stake.resolution.create.requested", entry "AppReputationStakeResolutionCreateRequested" KRequest ["governed"] ["ensemble"] "gateway.docstore" "DOCUMENT_UPDATE" "g8e.operator.v1.DocumentUpdateRequested" ["OperatorReputationStakeResolutionCreated"] false);
  ("g8e.v1.app.run.status.updated", entry "AppRunStatusUpdated" KFact [] ["ensemble"; "gateway"] "gateway.sse_store" "" "" [] false);
  ("g8e.v1.app.task.assigned", entry "AppTaskAssigned" KOutcome [] ["ensemble"] "ephemeral" "" "" [] true);
  ("g8e.v1.app.task.completed", entry "AppTaskCompleted" KOutcome [] ["cli"; "ensemble"] "ephemeral" "" "" [] false);
  ("g8e.v1.app.task.created", entry "AppTaskCreated" KOutcome [] ["ensemble"] "gateway.docstore" "" "" [] true);
  ("g8e.v1.app.task.failed", entry "AppTaskFailed" KOutcome [] ["ensemble"] "ephemeral" "" "" [] true);
  ("g8e.v1.app.task.started", entry "AppTaskStarted" KOutcome [] ["ensemble"] "ephemeral" "" "" [] true);
  ("g8e.v1.app.task.updated", entry "AppTaskUpdated" KOutcome [] ["ensemble"] "gateway.docstore" "" "" [] true);
  ("g8e.v1.inference.model.provenance.preflight.updated", entry "ModelProvenancePreflightProgress" KFact ["sse"] ["gateway"] "ephemeral" "" "" [] false);
  ("g8e.v1.operator.a2a.call.requested", entry "OperatorA2aCallRequested" KRequest ["governed"] ["cli"; "ensemble"; "mcp"] "ephemeral" "A2A_CALL" "g8e.operator.v1.A2ACallRequested" [] false);
  ("g8e.v1.operator.audit.ai.record.requested", entry "OperatorAuditAiRecordRequested" KRequest ["pubsub"] ["ensemble"] "operator.audit_log" "" "" ["OperatorAuditAiRecorded"] false);
  ("g8e.v1.operator.audit.ai.recorded", entry "OperatorAuditAiRecorded" KFact ["pubsub"] ["operator"] "operator.audit_log" "" "" [] true);
  ("g8e.v1.operator.audit.command.record.requested", entry "OperatorAuditCommandRecordRequested" KRequest ["pubsub"] ["ensemble"] "operator.audit_log" "" "" ["OperatorAuditCommandRecorded"] false);
  ("g8e.v1.operator.audit.command.recorded", entry "OperatorAuditCommandRecorded" KFact ["pubsub"] ["ensemble"; "operator"] "operator.audit_log" "" "" [] false);
  ("g8e.v1.operator.audit.direct.command.record.requested", entry "OperatorAuditDirectCommandRecordRequested" KRequest ["pubsub"] ["ensemble"] "operator.audit_log" "" "" ["OperatorAuditDirectCommandRecorded"] false);
  ("g8e.v1.operator.audit.direct.command.recorded", entry "OperatorAuditDirectCommandRecorded" KFact ["pubsub"] ["ensemble"; "operator"] "operator.audit_log" "" "" [] false)].

Definition registry_08 : list (string * EventRegistryEntry) := [
  ("g8e.v1.operator.audit.direct.command.result.record.requested", entry "OperatorAuditDirectCommandResultRecordRequested" KRequest ["pubsub"] ["ensemble"] "operator.audit_log" "" "" ["OperatorAuditDirectCommandResultRecorded"] false);
  ("g8e.v1.operator.audit.direct.command.result.recorded", entry "OperatorAuditDirectCommandResultRecorded" KFact ["pubsub"] ["operator"] "operator.audit_log" "" "" [] true);
  ("g8e.v1.operator.audit.mcp.call.record.requested", entry "OperatorAuditMcpCallRecordRequested" KRequest ["pubsub"] ["ensemble"] "operator.audit_log" "" "" ["OperatorAuditMcpCallRecorded"] false);
  ("g8e.v1.operator.audit.mcp.call.recorded", entry "OperatorAuditMcpCallRecorded" KFact ["pubsub"] ["operator"] "operator.audit_log" "" "" [] true);
  ("g8e.v1.operator.audit.user.record.requested", entry "OperatorAuditUserRecordRequested" KRequest ["pubsub"] ["ensemble"] "operator.audit_log" "" "" ["OperatorAuditUserRecorded"] false);
  ("g8e.v1.operator.audit.user.recorded", entry "OperatorAuditUserRecorded" KFact ["pubsub"] ["operator"] "operator.audit_log" "" "" [] true);
  ("g8e.v1.operator.bootstrap.completed", entry "OperatorBootstrapCompleted" KOutcome [] ["operator"] "ephemeral" "" "" [] true);
  ("g8e.v1.operator.bootstrap.config.received", entry "OperatorBootstrapConfigReceived" KOutcome [] ["operator"] "ephemeral" "" "" [] true);
  ("g8e.v1.operator.bootstrap.failed", entry "OperatorBootstrapFailed" KOutcome [] ["operator"] "ephemeral" "" "" [] true);
  ("g8e.v1.operator.bootstrap.received", entry "OperatorBootstrapReceived" KOutcome [] ["operator"] "ephemeral" "" "" [] true);
  ("g8e.v1.operator.bootstrap.requested", entry "OperatorBootstrapRequested" KRequest ["pubsub"] ["gateway"] "ephemeral" "" "" [] true);
  ("g8e.v1.operator.bound", entry "OperatorBound" KOutcome [] ["operator"] "ephemeral" "" "" [] false);
  ("g8e.v1.operator.command.approval.granted", entry "OperatorCommandApprovalGranted" KOutcome ["pubsub"] ["ensemble"; "operator"] "ephemeral" "" "" [] false);
  ("g8e.v1.operator.command.approval.preparing", entry "OperatorCommandApprovalPreparing" KOutcome ["pubsub"] ["ensemble"; "operator"] "ephemeral" "" "" [] false);
  ("g8e.v1.operator.command.approval.rejected", entry "OperatorCommandApprovalRejected" KOutcome ["pubsub"] ["ensemble"; "operator"] "ephemeral" "" "" [] false);
  ("g8e.v1.operator.command.approval.requested", entry "OperatorCommandApprovalRequested" KRequest ["pubsub"; "sse"] ["ensemble"; "gateway"] "ephemeral" "" "" [] false);
  ("g8e.v1.operator.command.cancel.acknowledged", entry "OperatorCommandCancelAcknowledged" KOutcome ["pubsub"] ["operator"] "ephemeral" "" "" [] true);
  ("g8e.v1.operator.command.cancel.failed", entry "OperatorCommandCancelFailed" KOutcome ["pubsub"] ["operator"] "ephemeral" "" "" [] true);
  ("g8e.v1.operator.command.cancel.requested", entry "OperatorCommandCancelRequested" KRequest ["governed"] ["cli"; "ensemble"; "mcp"] "ephemeral" "CANCEL" "g8e.operator.v1.CommandCancelRequested" ["OperatorCommandCancelled"; "OperatorCommandCancelFailed"] false)].

Definition registry_09 : list (string * EventRegistryEntry) := [
  ("g8e.v1.operator.command.cancelled", entry "OperatorCommandCancelled" KOutcome ["pubsub"] ["ensemble"; "operator"] "ephemeral" "" "" [] false);
  ("g8e.v1.operator.command.completed", entry "OperatorCommandCompleted" KOutcome ["pubsub"; "sse"] ["cli"; "ensemble"; "operator"] "ephemeral" "" "" [] false);
  ("g8e.v1.operator.command.execution.started", entry "OperatorCommandExecution" KOutcome [] ["cli"; "ensemble"; "operator"] "ephemeral" "" "" [] false);
  ("g8e.v1.operator.command.failed", entry "OperatorCommandFailed" KOutcome ["pubsub"; "sse"] ["ensemble"; "operator"] "ephemeral" "" "" [] false);
  ("g8e.v1.operator.command.output.received", entry "OperatorCommandOutputReceived" KOutcome ["pubsub"] ["operator"] "ephemeral" "" "" [] false);
  ("g8e.v1.operator.command.requested", entry "OperatorCommandRequested" KRequest ["governed"] ["cli"; "ensemble"; "mcp"] "ephemeral" "EXECUTE_BASH" "g8e.operator.v1.CommandRequested" ["OperatorCommandCompleted"; "OperatorCommandFailed"; "OperatorCommandCancelled"; "OperatorCommandStatusUpdatedQueued"; "OperatorCommandStatusUpdatedRunning"; "OperatorCommandStatusUpdatedCompleted"; "OperatorCommandStatusUpdatedFailed"; "OperatorCommandStatusUpdatedCancelled"] false);
  ("g8e.v1.operator.command.result.completed", entry "OperatorCommandResult" KOutcome [] ["cli"; "ensemble"; "operator"] "ephemeral" "" "" [] false);
  ("g8e.v1.operator.command.started", entry "OperatorCommandStarted" KOutcome ["pubsub"; "sse"] ["ensemble"; "operator"] "ephemeral" "" "" [] false);
  ("g8e.v1.operator.command.status.updated.cancelled", entry "OperatorCommandStatusUpdatedCancelled" KFact ["pubsub"] ["ensemble"; "operator"] "operator.audit_log" "" "" [] false);
  ("g8e.v1.operator.command.status.updated.completed", entry "OperatorCommandStatusUpdatedCompleted" KFact ["pubsub"] ["ensemble"; "operator"] "operator.audit_log" "" "" [] false);
  ("g8e.v1.operator.command.status.updated.failed", entry "OperatorCommandStatusUpdatedFailed" KFact ["pubsub"] ["ensemble"; "operator"] "operator.audit_log" "" "" [] false);
  ("g8e.v1.operator.command.status.updated.queued", entry "OperatorCommandStatusUpdatedQueued" KFact ["pubsub"] ["ensemble"; "operator"] "operator.audit_log" "" "" [] false);
  ("g8e.v1.operator.command.status.updated.running", entry "OperatorCommandStatusUpdatedRunning" KFact ["pubsub"] ["cli"; "ensemble"; "operator"] "operator.audit_log" "" "" [] false);
  ("g8e.v1.operator.context.changed", entry "OperatorContextChanged" KOutcome [] ["operator"] "ephemeral" "" "" [] true);
  ("g8e.v1.operator.device.registered", entry "OperatorDeviceRegistered" KOutcome [] ["operator"] "ephemeral" "" "" [] true);
  ("g8e.v1.operator.eval.answer.requested", entry "OperatorEvalAnswerRequested" KRequest ["governed"] ["cli"; "ensemble"; "mcp"] "ephemeral" "EVAL_ANSWER" "g8e.operator.v1.EvalAnswerRequested" [] false);
  ("g8e.v1.operator.field.read.access.denied", entry "OperatorFieldReadAccessDenied" KOutcome [] ["operator"] "ephemeral" "" "" [] true);
  ("g8e.v1.operator.field.read.access.granted", entry "OperatorFieldReadAccessGranted" KOutcome [] ["operator"] "ephemeral" "" "" [] true);
  ("g8e.v1.operator.field.read.requested", entry "OperatorFieldReadRequested" KRequest ["pubsub"] ["gateway"; "operator"] "ephemeral" "" "" [] false);
  ("g8e.v1.operator.file.diff.fetch.completed", entry "OperatorFileDiffFetchCompleted" KOutcome [] ["ensemble"; "operator"] "ephemeral" "" "" [] false)].

Definition registry_10 : list (string * EventRegistryEntry) := [
  ("g8e.v1.operator.file.diff.fetch.failed", entry "OperatorFileDiffFetchFailed" KOutcome [] ["ensemble"; "operator"] "ephemeral" "" "" [] false);
  ("g8e.v1.operator.file.diff.fetch.received", entry "OperatorFileDiffFetchReceived" KOutcome [] ["operator"] "ephemeral" "" "" [] true);
  ("g8e.v1.operator.file.diff.fetch.requested", entry "OperatorFileDiffFetchRequested" KRequest ["governed"; "pubsub"] ["ensemble"; "gateway"] "ephemeral" "FETCH_FILE_DIFF" "g8e.operator.v1.FetchFileDiffRequested" ["OperatorFileDiffFetchCompleted"; "OperatorFileDiffFetchFailed"] false);
  ("g8e.v1.operator.file.diff.fetch.started", entry "OperatorFileDiffFetchStarted" KOutcome [] ["ensemble"; "operator"] "ephemeral" "" "" [] false);
  ("g8e.v1.operator.file.edit.approval.feedback", entry "OperatorFileEditApprovalFeedback" KOutcome [] ["operator"] "ephemeral" "" "" [] true);
  ("g8e.v1.operator.file.edit.approval.granted", entry "OperatorFileEditApprovalGranted" KOutcome [] ["ensemble"; "operator"] "ephemeral" "" "" [] false);
  ("g8e.v1.operator.file.edit.approval.rejected", entry "OperatorFileEditApprovalRejected" KOutcome [] ["ensemble"; "operator"] "ephemeral" "" "" [] false);
  ("g8e.v1.operator.file.edit.approval.requested", entry "OperatorFileEditApprovalRequested" KRequest ["pubsub"; "sse"] ["cli"; "ensemble"; "gateway"] "ephemeral" "" "" [] false);
  ("g8e.v1.operator.file.edit.completed", entry "OperatorFileEditCompleted" KOutcome [] ["cli"; "ensemble"; "operator"] "ephemeral" "" "" [] false);
  ("g8e.v1.operator.file.edit.failed", entry "OperatorFileEditFailed" KOutcome [] ["ensemble"; "operator"] "ephemeral" "" "" [] false);
  ("g8e.v1.operator.file.edit.requested", entry "OperatorFileEditRequested" KRequest ["governed"] ["cli"; "ensemble"; "mcp"] "ephemeral" "FILE_EDIT" "g8e.operator.v1.FileEditRequested" ["OperatorFileEditCompleted"; "OperatorFileEditFailed"] false);
  ("g8e.v1.operator.file.edit.started", entry "OperatorFileEditStarted" KOutcome [] ["ensemble"; "operator"] "ephemeral" "" "" [] false);
  ("g8e.v1.operator.file.edit.timeout", entry "OperatorFileEditTimeout" KOutcome [] ["operator"] "ephemeral" "" "" [] true);
  ("g8e.v1.operator.file.history.fetch.completed", entry "OperatorFileHistoryFetchCompleted" KOutcome [] ["ensemble"; "operator"] "ephemeral" "" "" [] false);
  ("g8e.v1.operator.file.history.fetch.failed", entry "OperatorFileHistoryFetchFailed" KOutcome [] ["ensemble"; "operator"] "ephemeral" "" "" [] false);
  ("g8e.v1.operator.file.history.fetch.received", entry "OperatorFileHistoryFetchReceived" KOutcome [] ["operator"] "ephemeral" "" "" [] true);
  ("g8e.v1.operator.file.history.fetch.requested", entry "OperatorFileHistoryFetchRequested" KRequest ["governed"; "pubsub"] ["ensemble"; "gateway"] "ephemeral" "FETCH_FILE_HISTORY" "g8e.operator.v1.FetchFileHistoryRequested" ["OperatorFileHistoryFetchCompleted"; "OperatorFileHistoryFetchFailed"] false);
  ("g8e.v1.operator.file.history.fetch.started", entry "OperatorFileHistoryFetchStarted" KOutcome [] ["ensemble"; "operator"] "ephemeral" "" "" [] false);
  ("g8e.v1.operator.file.restore.completed", entry "OperatorFileRestoreCompleted" KOutcome [] ["operator"] "ephemeral" "" "" [] true)].

Definition registry_11 : list (string * EventRegistryEntry) := [
  ("g8e.v1.operator.file.restore.failed", entry "OperatorFileRestoreFailed" KOutcome [] ["operator"] "ephemeral" "" "" [] true);
  ("g8e.v1.operator.file.restore.received", entry "OperatorFileRestoreReceived" KOutcome [] ["operator"] "ephemeral" "" "" [] true);
  ("g8e.v1.operator.file.restore.requested", entry "OperatorFileRestoreRequested" KRequest ["governed"; "pubsub"] ["ensemble"; "gateway"] "ephemeral" "RESTORE_FILE" "g8e.operator.v1.RestoreFileRequested" ["OperatorFileRestoreCompleted"; "OperatorFileRestoreFailed"] false);
  ("g8e.v1.operator.filesystem.grep.completed", entry "OperatorFilesystemGrepCompleted" KOutcome [] ["ensemble"; "operator"] "ephemeral" "" "" [] false);
  ("g8e.v1.operator.filesystem.grep.failed", entry "OperatorFilesystemGrepFailed" KOutcome [] ["ensemble"; "operator"] "ephemeral" "" "" [] false);
  ("g8e.v1.operator.filesystem.grep.received", entry "OperatorFilesystemGrepReceived" KOutcome [] ["operator"] "ephemeral" "" "" [] true);
  ("g8e.v1.operator.filesystem.grep.requested", entry "OperatorFilesystemGrepRequested" KRequest ["governed"; "pubsub"] ["ensemble"; "gateway"] "ephemeral" "FS_GREP" "g8e.operator.v1.FsGrepRequested" ["OperatorFilesystemGrepCompleted"; "OperatorFilesystemGrepFailed"] false);
  ("g8e.v1.operator.filesystem.grep.started", entry "OperatorFilesystemGrepStarted" KOutcome [] ["ensemble"; "operator"] "ephemeral" "" "" [] false);
  ("g8e.v1.operator.filesystem.list.completed", entry "OperatorFilesystemListCompleted" KOutcome [] ["ensemble"; "operator"] "ephemeral" "" "" [] false);
  ("g8e.v1.operator.filesystem.list.failed", entry "OperatorFilesystemListFailed" KOutcome [] ["ensemble"; "operator"] "ephemeral" "" "" [] false);
  ("g8e.v1.operator.filesystem.list.received", entry "OperatorFilesystemListReceived" KOutcome [] ["operator"] "ephemeral" "" "" [] true);
  ("g8e.v1.operator.filesystem.list.requested", entry "OperatorFilesystemListRequested" KRequest ["governed"; "pubsub"] ["ensemble"; "gateway"] "ephemeral" "FS_LIST" "g8e.operator.v1.FsListRequested" ["OperatorFilesystemListCompleted"; "OperatorFilesystemListFailed"] false);
  ("g8e.v1.operator.filesystem.list.started", entry "OperatorFilesystemListStarted" KOutcome [] ["ensemble"; "operator"] "ephemeral" "" "" [] false);
  ("g8e.v1.operator.filesystem.read.completed", entry "OperatorFilesystemReadCompleted" KOutcome [] ["ensemble"; "operator"] "ephemeral" "" "" [] false);
  ("g8e.v1.operator.filesystem.read.failed", entry "OperatorFilesystemReadFailed" KOutcome [] ["ensemble"; "operator"] "ephemeral" "" "" [] false);
  ("g8e.v1.operator.filesystem.read.received", entry "OperatorFilesystemReadReceived" KOutcome [] ["operator"] "ephemeral" "" "" [] true);
  ("g8e.v1.operator.filesystem.read.requested", entry "OperatorFilesystemReadRequested" KRequest ["governed"; "pubsub"] ["ensemble"; "gateway"] "ephemeral" "FS_READ" "g8e.operator.v1.FsReadRequested" ["OperatorFilesystemReadCompleted"; "OperatorFilesystemReadFailed"] false);
  ("g8e.v1.operator.filesystem.read.started", entry "OperatorFilesystemReadStarted" KOutcome [] ["ensemble"; "operator"] "ephemeral" "" "" [] false)].

Definition registry_12 : list (string * EventRegistryEntry) := [
  ("g8e.v1.operator.heartbeat.missed", entry "OperatorHeartbeatMissed" KOutcome ["pubsub"] ["operator"] "gateway.operator_docs" "" "" [] true);
  ("g8e.v1.operator.heartbeat.received", entry "OperatorHeartbeatReceived" KOutcome ["pubsub"] ["operator"] "gateway.operator_docs" "" "" [] true);
  ("g8e.v1.operator.heartbeat.requested", entry "OperatorHeartbeatRequested" KRequest ["governed"] ["cli"; "ensemble"; "mcp"] "gateway.operator_docs" "HEARTBEAT" "g8e.operator.v1.HeartbeatRequested" ["OperatorHeartbeatSent"] false);
  ("g8e.v1.operator.heartbeat.sent", entry "OperatorHeartbeatSent" KOutcome ["pubsub"] ["ensemble"; "operator"] "gateway.operator_docs" "" "" [] false);
  ("g8e.v1.operator.history.fetch.completed", entry "OperatorHistoryFetchCompleted" KOutcome [] ["operator"] "ephemeral" "" "" [] true);
  ("g8e.v1.operator.history.fetch.failed", entry "OperatorHistoryFetchFailed" KOutcome [] ["operator"] "ephemeral" "" "" [] true);
  ("g8e.v1.operator.history.fetch.received", entry "OperatorHistoryFetchReceived" KOutcome [] ["operator"] "ephemeral" "" "" [] true);
  ("g8e.v1.operator.history.fetch.requested", entry "OperatorHistoryFetchRequested" KRequest ["governed"; "pubsub"] ["ensemble"; "gateway"] "ephemeral" "FETCH_HISTORY" "g8e.operator.v1.FetchHistoryRequested" ["OperatorHistoryFetchCompleted"; "OperatorHistoryFetchFailed"] false);
  ("g8e.v1.operator.inference.completed", entry "OperatorInferenceCompleted" KOutcome [] ["operator"] "ephemeral" "" "" [] true);
  ("g8e.v1.operator.inference.failed", entry "OperatorInferenceFailed" KOutcome [] ["operator"] "ephemeral" "" "" [] true);
  ("g8e.v1.operator.inference.progress.updated", entry "OperatorInferenceProgressUpdated" KOutcome [] ["operator"] "ephemeral" "" "" [] true);
  ("g8e.v1.operator.inference.requested", entry "OperatorInferenceRequested" KRequest ["governed"] ["cli"; "ensemble"; "mcp"] "ephemeral" "INFERENCE" "g8e.operator.v1.InferenceRequested" ["OperatorInferenceCompleted"; "OperatorInferenceFailed"; "OperatorInferenceProgressUpdated"] true);
  ("g8e.v1.operator.intent.approval.granted", entry "OperatorIntentApprovalGranted" KOutcome [] ["ensemble"; "operator"] "ephemeral" "" "" [] false);
  ("g8e.v1.operator.intent.approval.rejected", entry "OperatorIntentApprovalRejected" KOutcome [] ["ensemble"; "operator"] "ephemeral" "" "" [] false);
  ("g8e.v1.operator.intent.approval.requested", entry "OperatorIntentApprovalRequested" KRequest ["pubsub"; "sse"] ["ensemble"; "gateway"] "ephemeral" "" "" [] false);
  ("g8e.v1.operator.intent.denied", entry "OperatorIntentDenied" KOutcome [] ["ensemble"; "operator"] "ephemeral" "" "" [] false);
  ("g8e.v1.operator.intent.granted", entry "OperatorIntentGranted" KOutcome [] ["ensemble"; "operator"] "ephemeral" "" "" [] false);
  ("g8e.v1.operator.intent.requested", entry "OperatorIntentRequested" KRequest ["pubsub"] ["ensemble"; "gateway"] "ephemeral" "" "" [] false)].

Definition registry_13 : list (string * EventRegistryEntry) := [
  ("g8e.v1.operator.intent.revoke.requested", entry "OperatorIntentRevokeRequested" KRequest ["pubsub"] ["ensemble"; "gateway"] "ephemeral" "" "" [] false);
  ("g8e.v1.operator.intent.revoked", entry "OperatorIntentRevoked" KOutcome [] ["ensemble"; "operator"] "ephemeral" "" "" [] false);
  ("g8e.v1.operator.logs.fetch.completed", entry "OperatorLogsFetchCompleted" KOutcome [] ["operator"] "ephemeral" "" "" [] true);
  ("g8e.v1.operator.logs.fetch.failed", entry "OperatorLogsFetchFailed" KOutcome [] ["operator"] "ephemeral" "" "" [] true);
  ("g8e.v1.operator.logs.fetch.received", entry "OperatorLogsFetchReceived" KOutcome [] ["operator"] "ephemeral" "" "" [] true);
  ("g8e.v1.operator.logs.fetch.requested", entry "OperatorLogsFetchRequested" KRequest ["governed"; "pubsub"] ["ensemble"; "gateway"] "ephemeral" "FETCH_LOGS" "g8e.operator.v1.FetchLogsRequested" ["OperatorLogsFetchCompleted"; "OperatorLogsFetchFailed"] false);
  ("g8e.v1.operator.mcp.call.requested", entry "OperatorMcpCallRequested" KRequest ["governed"] ["cli"; "ensemble"; "mcp"] "ephemeral" "MCP_CALL" "g8e.operator.v1.McpCallRequested" [] false);
  ("g8e.v1.operator.mcp.prompt.get.requested", entry "OperatorMcpPromptGetRequested" KRequest ["governed"] ["mcp"] "ephemeral" "MCP_PROMPT_GET" "g8e.operator.v1.McpPromptGetRequested" [] false);
  ("g8e.v1.operator.mcp.prompt.list.requested", entry "OperatorMcpPromptListRequested" KRequest ["governed"] ["mcp"] "ephemeral" "MCP_PROMPT_LIST" "g8e.operator.v1.McpPromptListRequested" [] false);
  ("g8e.v1.operator.mcp.resource.list.requested", entry "OperatorMcpResourceListRequested" KRequest ["governed"] ["mcp"] "ephemeral" "MCP_RESOURCE_LIST" "g8e.operator.v1.McpResourceListRequested" [] false);
  ("g8e.v1.operator.mcp.resource.read.requested", entry "OperatorMcpResourceReadRequested" KRequest ["governed"] ["mcp"] "ephemeral" "MCP_RESOURCE_READ" "g8e.operator.v1.McpResourceReadRequested" [] false);
  ("g8e.v1.operator.model.provenance.observation.completed", entry "OperatorModelProvenanceObservationCompleted" KOutcome [] ["operator"] "ephemeral" "" "" [] true);
  ("g8e.v1.operator.model.provenance.observation.requested", entry "OperatorModelProvenanceObservationRequested" KRequest ["governed"] ["cli"; "ensemble"; "mcp"] "ephemeral" "MODEL_PROVENANCE_OBSERVATION" "g8e.eval.v1.ModelProvenanceObservationCommand" ["OperatorModelProvenanceObservationCompleted"] true);
  ("g8e.v1.operator.network.ping.completed", entry "OperatorNetworkPingCompleted" KOutcome [] ["operator"] "ephemeral" "" "" [] true);
  ("g8e.v1.operator.network.ping.failed", entry "OperatorNetworkPingFailed" KOutcome [] ["operator"] "ephemeral" "" "" [] true);
  ("g8e.v1.operator.network.ping.received", entry "OperatorNetworkPingReceived" KOutcome [] ["operator"] "ephemeral" "" "" [] true);
  ("g8e.v1.operator.network.ping.requested", entry "OperatorNetworkPingRequested" KRequest ["pubsub"] ["gateway"] "ephemeral" "" "" [] true)].

Definition registry_14 : list (string * EventRegistryEntry) := [
  ("g8e.v1.operator.network.port.check.completed", entry "OperatorNetworkPortCheckCompleted" KOutcome [] ["ensemble"; "operator"] "ephemeral" "" "" [] false);
  ("g8e.v1.operator.network.port.check.failed", entry "OperatorNetworkPortCheckFailed" KOutcome [] ["ensemble"; "operator"] "ephemeral" "" "" [] false);
  ("g8e.v1.operator.network.port.check.received", entry "OperatorNetworkPortCheckReceived" KOutcome [] ["operator"] "ephemeral" "" "" [] true);
  ("g8e.v1.operator.network.port.check.requested", entry "OperatorNetworkPortCheckRequested" KRequest ["governed"] ["cli"; "ensemble"; "mcp"] "ephemeral" "PORT_CHECK" "g8e.operator.v1.CheckPortRequested" ["OperatorNetworkPortCheckCompleted"; "OperatorNetworkPortCheckFailed"] false);
  ("g8e.v1.operator.network.port.check.started", entry "OperatorNetworkPortCheckStarted" KOutcome [] ["ensemble"; "operator"] "ephemeral" "" "" [] false);
  ("g8e.v1.operator.notary.approval.requested", entry "OperatorNotaryApprovalRequested" KRequest ["pubsub"] ["gateway"] "ephemeral" "" "" [] true);
  ("g8e.v1.operator.notary.transaction.expired", entry "OperatorNotaryTransactionExpired" KOutcome [] ["operator"] "ephemeral" "" "" [] true);
  ("g8e.v1.operator.ollama.model.inventory.completed", entry "OperatorOllamaModelInventoryCompleted" KOutcome [] ["operator"] "ephemeral" "" "" [] true);
  ("g8e.v1.operator.ollama.model.inventory.failed", entry "OperatorOllamaModelInventoryFailed" KOutcome [] ["operator"] "ephemeral" "" "" [] true);
  ("g8e.v1.operator.ollama.model.inventory.requested", entry "OperatorOllamaModelInventoryRequested" KRequest ["governed"] ["cli"; "ensemble"; "mcp"] "ephemeral" "OLLAMA_MODEL_INVENTORY" "g8e.operator.v1.OllamaModelInventoryRequested" ["OperatorOllamaModelInventoryCompleted"; "OperatorOllamaModelInventoryFailed"] true);
  ("g8e.v1.operator.ollama.model.residency.completed", entry "OperatorOllamaModelResidencyCompleted" KOutcome [] ["operator"] "ephemeral" "" "" [] true);
  ("g8e.v1.operator.ollama.model.residency.failed", entry "OperatorOllamaModelResidencyFailed" KOutcome [] ["operator"] "ephemeral" "" "" [] true);
  ("g8e.v1.operator.ollama.model.residency.requested", entry "OperatorOllamaModelResidencyRequested" KRequest ["governed"] ["cli"; "ensemble"; "mcp"] "ephemeral" "OLLAMA_MODEL_RESIDENCY" "g8e.operator.v1.OllamaModelResidencyRequested" ["OperatorOllamaModelResidencyCompleted"; "OperatorOllamaModelResidencyFailed"] true);
  ("g8e.v1.operator.panel.list.updated", entry "OperatorPanelListUpdated" KOutcome [] ["operator"] "ephemeral" "" "" [] false);
  ("g8e.v1.operator.provider.boundary.observation.completed", entry "OperatorProviderBoundaryObservationCompleted" KOutcome [] ["operator"] "ephemeral" "" "" [] true);
  ("g8e.v1.operator.provider.boundary.observation.requested", entry "OperatorProviderBoundaryObservationRequested" KRequest ["governed"] ["cli"; "ensemble"; "mcp"] "ephemeral" "PROVIDER_BOUNDARY_OBSERVATION" "g8e.eval.v1.ProviderBoundaryObservationCommand" ["OperatorProviderBoundaryObservationCompleted"] true);
  ("g8e.v1.operator.receipt.recorded", entry "OperatorReceiptRecorded" KFact [] ["gateway"; "operator"] "operator.audit_log" "" "" [] false);
  ("g8e.v1.operator.reputation.commitment.created", entry "OperatorReputationCommitmentCreated" KOutcome ["sse"] ["ensemble"; "operator"] "ephemeral" "" "" [] false)].

Definition registry_15 : list (string * EventRegistryEntry) := [
  ("g8e.v1.operator.reputation.commitment.failed", entry "OperatorReputationCommitmentFailed" KOutcome ["sse"] ["ensemble"; "operator"] "ephemeral" "" "" [] false);
  ("g8e.v1.operator.reputation.commitment.verified", entry "OperatorReputationCommitmentVerified" KOutcome [] ["operator"] "ephemeral" "" "" [] true);
  ("g8e.v1.operator.reputation.slash.tier1", entry "OperatorReputationSlashTier1" KOutcome ["sse"] ["ensemble"; "operator"] "ephemeral" "" "" [] true);
  ("g8e.v1.operator.reputation.slash.tier2", entry "OperatorReputationSlashTier2" KOutcome ["sse"] ["ensemble"; "operator"] "ephemeral" "" "" [] true);
  ("g8e.v1.operator.reputation.slash.tier3", entry "OperatorReputationSlashTier3" KOutcome ["sse"] ["ensemble"; "operator"] "ephemeral" "" "" [] true);
  ("g8e.v1.operator.reputation.stake.resolution.created", entry "OperatorReputationStakeResolutionCreated" KOutcome [] ["ensemble"; "operator"] "ephemeral" "" "" [] false);
  ("g8e.v1.operator.reputation.state.update.requested", entry "OperatorReputationStateUpdateRequested" KRequest ["governed"] ["cli"; "ensemble"; "mcp"] "ephemeral" "DOCUMENT_UPDATE" "g8e.operator.v1.DocumentUpdateRequested" ["OperatorReputationStateUpdated"] true);
  ("g8e.v1.operator.reputation.state.updated", entry "OperatorReputationStateUpdated" KOutcome ["sse"] ["ensemble"; "operator"] "ephemeral" "" "" [] false);
  ("g8e.v1.operator.shutdown.acknowledged", entry "OperatorShutdownAcknowledged" KOutcome [] ["operator"] "ephemeral" "" "" [] true);
  ("g8e.v1.operator.shutdown.requested", entry "OperatorShutdownRequested" KRequest ["governed"] ["cli"; "ensemble"; "mcp"] "ephemeral" "SHUTDOWN" "g8e.operator.v1.ShutdownRequested" ["OperatorShutdownAcknowledged"] false);
  ("g8e.v1.operator.slot.initialization.failed", entry "OperatorSlotInitializationFailed" KOutcome [] ["operator"] "ephemeral" "" "" [] true);
  ("g8e.v1.operator.status.updated.active", entry "OperatorStatusUpdatedActive" KFact ["sse"] ["ensemble"; "gateway"] "gateway.operator_docs" "" "" [] false);
  ("g8e.v1.operator.status.updated.available", entry "OperatorStatusUpdatedAvailable" KFact [] ["gateway"] "gateway.operator_docs" "" "" [] false);
  ("g8e.v1.operator.status.updated.bound", entry "OperatorStatusUpdatedBound" KFact ["sse"] ["ensemble"; "gateway"] "gateway.operator_docs" "" "" [] false);
  ("g8e.v1.operator.status.updated.offline", entry "OperatorStatusUpdatedOffline" KFact [] ["gateway"] "gateway.operator_docs" "" "" [] false);
  ("g8e.v1.operator.status.updated.stale", entry "OperatorStatusUpdatedStale" KFact [] ["gateway"] "gateway.operator_docs" "" "" [] false);
  ("g8e.v1.operator.status.updated.stopped", entry "OperatorStatusUpdatedStopped" KFact [] ["gateway"] "gateway.operator_docs" "" "" [] false);
  ("g8e.v1.operator.status.updated.terminated", entry "OperatorStatusUpdatedTerminated" KFact [] ["gateway"] "gateway.operator_docs" "" "" [] false);
  ("g8e.v1.operator.status.updated.unavailable", entry "OperatorStatusUpdatedUnavailable" KFact [] ["gateway"] "gateway.operator_docs" "" "" [] false)].

Definition registry_16 : list (string * EventRegistryEntry) := [
  ("g8e.v1.operator.terminal.approval.denied", entry "OperatorTerminalApprovalDenied" KOutcome [] ["operator"] "ephemeral" "" "" [] false);
  ("g8e.v1.operator.terminal.auth.state.changed", entry "OperatorTerminalAuthStateChanged" KOutcome [] ["operator"] "ephemeral" "" "" [] false);
  ("g8e.v1.operator.terminal.thinking.append", entry "OperatorTerminalThinkingAppend" KStream ["sse"] ["ensemble"] "ephemeral" "" "" [] false);
  ("g8e.v1.operator.terminal.thinking.complete", entry "OperatorTerminalThinkingComplete" KStream ["sse"] ["ensemble"] "ephemeral" "" "" [] false);
  ("g8e.v1.operator.unbound", entry "OperatorUnbound" KOutcome [] ["operator"] "ephemeral" "" "" [] false);
  ("g8e.v1.platform.approvals.changed", entry "PlatformApprovalsChanged" KFact ["sse"] ["gateway"] "ephemeral" "" "" [] false);
  ("g8e.v1.platform.audit.chain.checkpointed", entry "PlatformAuditChainCheckpointed" KFact [] ["gateway"] "operator.audit_log" "" "" [] true);
  ("g8e.v1.platform.auth.info.updated", entry "PlatformAuthInfo" KOutcome [] ["cli"; "gateway"] "ephemeral" "" "" [] false);
  ("g8e.v1.platform.auth.login.failed", entry "PlatformAuthLoginFailed" KOutcome [] ["gateway"] "ephemeral" "" "" [] true);
  ("g8e.v1.platform.auth.login.requested", entry "PlatformAuthLoginRequested" KRequest [] ["gateway"] "ephemeral" "" "" [] true);
  ("g8e.v1.platform.auth.login.succeeded", entry "PlatformAuthLoginSucceeded" KOutcome [] ["gateway"] "ephemeral" "" "" [] true);
  ("g8e.v1.platform.auth.logout.failed", entry "PlatformAuthLogoutFailed" KOutcome [] ["gateway"] "ephemeral" "" "" [] true);
  ("g8e.v1.platform.auth.logout.requested", entry "PlatformAuthLogoutRequested" KRequest [] ["gateway"] "ephemeral" "" "" [] true);
  ("g8e.v1.platform.auth.logout.succeeded", entry "PlatformAuthLogoutSucceeded" KOutcome [] ["gateway"] "ephemeral" "" "" [] true);
  ("g8e.v1.platform.auth.session.expired", entry "PlatformAuthSessionExpired" KOutcome [] ["gateway"] "ephemeral" "" "" [] true);
  ("g8e.v1.platform.auth.session.validation.failed", entry "PlatformAuthSessionValidationFailed" KOutcome [] ["gateway"] "ephemeral" "" "" [] true);
  ("g8e.v1.platform.auth.session.validation.requested", entry "PlatformAuthSessionValidationRequested" KRequest [] ["gateway"] "ephemeral" "" "" [] true);
  ("g8e.v1.platform.auth.session.validation.succeeded", entry "PlatformAuthSessionValidationSucceeded" KOutcome [] ["gateway"] "ephemeral" "" "" [] true);
  ("g8e.v1.platform.auth.user.authenticated", entry "PlatformAuthUserAuthenticated" KOutcome [] ["gateway"] "ephemeral" "" "" [] true)].

Definition registry_17 : list (string * EventRegistryEntry) := [
  ("g8e.v1.platform.auth.user.unauthenticated", entry "PlatformAuthUserUnauthenticated" KOutcome [] ["gateway"] "ephemeral" "" "" [] true);
  ("g8e.v1.platform.console.log.connected.confirmed", entry "PlatformConsoleLogConnectedConfirmed" KOutcome [] ["gateway"] "ephemeral" "" "" [] false);
  ("g8e.v1.platform.console.log.entry.received", entry "PlatformConsoleLogEntryReceived" KOutcome [] ["gateway"] "ephemeral" "" "" [] false);
  ("g8e.v1.platform.enrollment.create.requested", entry "PlatformEnrollmentCreateRequested" KRequest ["governed"] ["cli"; "gateway"; "operator"] "gateway.docstore" "PLATFORM_ENROLLMENT_CREATE" "g8e.common.v1.PlatformEnrollmentGovernancePayload" [] false);
  ("g8e.v1.platform.enrollment.create_session.requested", entry "PlatformEnrollmentCreateSessionRequested" KRequest ["governed"] ["cli"; "gateway"; "operator"] "gateway.docstore" "PLATFORM_ENROLLMENT_CREATE_SESSION" "g8e.common.v1.PlatformEnrollmentGovernancePayload" [] false);
  ("g8e.v1.platform.enrollment.decide.requested", entry "PlatformEnrollmentDecideRequested" KRequest ["governed"] ["cli"; "gateway"; "operator"] "gateway.docstore" "PLATFORM_ENROLLMENT_DECIDE" "g8e.common.v1.PlatformEnrollmentGovernancePayload" [] false);
  ("g8e.v1.platform.enrollment.issue.requested", entry "PlatformEnrollmentIssueRequested" KRequest ["governed"] ["cli"; "gateway"; "operator"] "gateway.docstore" "PLATFORM_ENROLLMENT_ISSUE" "g8e.common.v1.PlatformEnrollmentGovernancePayload" [] false);
  ("g8e.v1.platform.enrollment.persist_policy.requested", entry "PlatformEnrollmentPersistPolicyRequested" KRequest ["governed"] ["cli"; "gateway"; "operator"] "gateway.docstore" "PLATFORM_ENROLLMENT_PERSIST_POLICY" "g8e.common.v1.PlatformEnrollmentGovernancePayload" [] false);
  ("g8e.v1.platform.enrollment.revoke.requested", entry "PlatformEnrollmentRevokeRequested" KRequest ["governed"] ["cli"; "gateway"; "operator"] "gateway.docstore" "PLATFORM_ENROLLMENT_REVOKE" "g8e.common.v1.PlatformEnrollmentGovernancePayload" [] false);
  ("g8e.v1.platform.external.service.configured", entry "PlatformExternalServiceConfigured" KOutcome [] ["gateway"] "ephemeral" "" "" [] true);
  ("g8e.v1.platform.notification.sent", entry "PlatformNotification" KOutcome [] ["cli"; "gateway"] "ephemeral" "" "" [] false);
  ("g8e.v1.platform.sse.connection.closed", entry "PlatformSseConnectionClosed" KOutcome ["sse"] ["gateway"] "gateway.sse_store" "" "" [] false);
  ("g8e.v1.platform.sse.connection.error", entry "PlatformSseConnectionError" KOutcome ["sse"] ["gateway"] "gateway.sse_store" "" "" [] false);
  ("g8e.v1.platform.sse.connection.established", entry "PlatformSseConnectionEstablished" KOutcome ["sse"] ["ensemble"; "gateway"] "gateway.sse_store" "" "" [] false);
  ("g8e.v1.platform.sse.connection.failed", entry "PlatformSseConnectionFailed" KOutcome ["sse"] ["gateway"] "gateway.sse_store" "" "" [] false);
  ("g8e.v1.platform.sse.connection.opened", entry "PlatformSseConnectionOpened" KOutcome ["sse"] ["gateway"] "gateway.sse_store" "" "" [] false);
  ("g8e.v1.platform.sse.keepalive.sent", entry "PlatformSseKeepaliveSent" KStream ["sse"] ["ensemble"; "gateway"] "ephemeral" "" "" [] false);
  ("g8e.v1.platform.telemetry.audit.logged", entry "PlatformTelemetryAuditLogged" KOutcome [] ["gateway"] "operator.audit_log" "" "" [] true);
  ("g8e.v1.platform.telemetry.error.logged", entry "PlatformTelemetryErrorLogged" KOutcome [] ["gateway"] "ephemeral" "" "" [] true)].

Definition registry_18 : list (string * EventRegistryEntry) := [
  ("g8e.v1.platform.telemetry.health.reported", entry "PlatformTelemetryHealthReported" KOutcome [] ["gateway"] "ephemeral" "" "" [] true);
  ("g8e.v1.platform.telemetry.performance.recorded", entry "PlatformTelemetryPerformanceRecorded" KFact [] ["gateway"] "ephemeral" "" "" [] true);
  ("g8e.v1.platform.usage.updated", entry "PlatformUsageUpdated" KOutcome [] ["gateway"] "ephemeral" "" "" [] true);
  ("g8e.v1.platform.sentinel.mode.changed", entry "PlatformVaultModeChanged" KOutcome [] ["gateway"] "ephemeral" "" "" [] true);
  ("g8e.v1.public.feed.batch.acknowledged", entry "PublicFeedBatchAcknowledged" KOutcome [] ["gateway"] "gateway.audit_log" "" "" [] true);
  ("g8e.v1.public.feed.batch.exported", entry "PublicFeedBatchExported" KOutcome [] ["gateway"] "gateway.audit_log" "" "" [] true);
  ("g8e.v1.public.feed.key.rotated", entry "PublicFeedKeyRotated" KOutcome [] ["gateway"] "gateway.audit_log" "" "" [] true);
  ("g8e.v1.public.feed.proof.published", entry "PublicFeedProofPublished" KOutcome [] ["gateway"] "gateway.audit_log" "" "" [] true)].

Definition registry_entries : list (EventType * EventRegistryEntry) :=
  registry_00 ++ registry_01 ++ registry_02 ++ registry_03 ++ registry_04 ++ registry_05 ++ registry_06 ++
  registry_07 ++ registry_08 ++ registry_09 ++ registry_10 ++ registry_11 ++ registry_12 ++ registry_13 ++
  registry_14 ++ registry_15 ++ registry_16 ++ registry_17 ++ registry_18.

Definition Registry : gmap EventType EventRegistryEntry := list_to_map registry_entries.

(** The table is never unfolded by unification; [vm_compute] still reads it. *)
#[global] Opaque Registry.

(** [EventRegistry.Lookup]. *)
Definition Lookup (event : EventType) : option EventRegistryEntry := Registry !! event.

Definition eventHasTransport (e : EventRegistryEntry) (transport : string) : bool :=
  mem transport (Transport e).

(** [ValidateGovernedRequest]: the governed action class of a request event. *)
Definition ValidateGovernedRequest (event : EventType) : result ActionType :=
  match Lookup event with
  | None => Err (Sentinel "ErrTxUnknownEventType")
  | Some e =>
      if negb (bool_decide (Kind e = KRequest)) then
        Err (Errorf "%w: %q" [Sentinel "ErrTxEventNotRequest"])
      else if negb (eventHasTransport e "governed") then
        Err (Errorf "%w: %q" [Sentinel "ErrTxEventNotGoverned"])
      else if negb (str_nonempty (GovernanceAction e)) then
        Err (Errorf "%w: %q has no governance action" [Sentinel "ErrTxEventNotGoverned"])
      else Ok (GovernanceAction e)
  end.

(** [ValidateGovernedEnvelopeFields]. *)
Definition ValidateGovernedEnvelopeFields (event : EventType) (action : ActionType) : result unit :=
  let? expected := ValidateGovernedRequest event in
  require (String.eqb action expected)
    (Errorf "%w: event %q expects %q, got %q" [Sentinel "ErrTxEventActionMismatch"]).

(** [ValidateGovernedResultEnvelope]. *)
Definition ValidateGovernedResultEnvelope (requestEvent outcomeEvent : EventType)
    (action : ActionType) : result unit :=
  let? expectedAction := ValidateGovernedRequest requestEvent in
  if negb (String.eqb action expectedAction) then
    Err (Errorf "%w: request %q expects %q, got %q" [Sentinel "ErrTxEventActionMismatch"])
  else match Lookup outcomeEvent with
  | None => Err (Errorf "%w: %q" [Sentinel "ErrTxOutcomeNotRegistered"])
  | Some outcomeEntry =>
      if bool_decide (Kind outcomeEntry = KRequest) then
        Err (Errorf "%w: %q is kind %q" [Sentinel "ErrTxOutcomeNotAllowed"])
      else match Lookup requestEvent with
      | None => Err (Errorf "%w: %q" [Sentinel "ErrTxUnknownEventType"])
      | Some requestEntry =>
          if bool_decide (Outcomes requestEntry = []) then Ok tt
          else if mem (Key outcomeEntry) (Outcomes requestEntry) then Ok tt
          else Err (Errorf "%w: outcome %q not listed for request %q"
                      [Sentinel "ErrTxOutcomeNotAllowed"])
      end
  end.

(** [RequestEventForAction]: the loop body, and the loop over the map in the
    order [entries] that the runtime happens to choose. *)
Definition smaller_request (action : ActionType) (match_ : EventType)
    (ev : EventType * EventRegistryEntry) : EventType :=
  let '(event, e) := ev in
  if negb (bool_decide (Kind e = KRequest)) || negb (String.eqb (GovernanceAction e) action)
  then match_
  else if negb (eventHasTransport e "governed") then match_
  else if negb (str_nonempty match_) || String.ltb event match_ then event else match_.

Definition RequestEventForAction_in (entries : list (EventType * EventRegistryEntry))
    (action : ActionType) : result EventType :=
  let m := fold_left (smaller_request action) entries "" in
  if negb (str_nonempty m) then Err (Errorf "%w: %q" [Sentinel "ErrTxUnknownActionType"])
  else Ok m.

Definition RequestEventForAction (action : ActionType) : result EventType :=
  RequestEventForAction_in (map_to_list Registry) action.

(** ** Properties *)

(** What makes an entry a candidate of [RequestEventForAction]. *)
Definition serves (action : ActionType) (e : EventRegistryEntry) : bool :=
  bool_decide (Kind e = KRequest) && String.eqb (GovernanceAction e) action &&
  eventHasTransport e "governed".

Lemma smaller_request_eq action m event e :
  smaller_request action m (event, e) =
  if serves action e && (negb (str_nonempty m) || String.ltb event m) then event else m.
Proof.
  unfold smaller_request, serves.
  by destruct (bool_decide (Kind e = KRequest)), (String.eqb (GovernanceAction e) action),
    (eventHasTransport e "governed").
Qed.

(** The loop keeps the smallest candidate seen. *)
Lemma smallest_request_spec action entries m0 :
  Forall (fun ev => ev.1 <> "") entries ->
  let m := fold_left (smaller_request action) entries m0 in
  (m = m0 \/ exists e, (m, e) ∈ entries /\ serves action e = true) /\
  (m0 <> "" -> m <> "" /\ String.ltb m0 m = false) /\
  (forall event e, (event, e) ∈ entries -> serves action e = true ->
     m <> "" /\ String.ltb event m = false).
Proof.
  revert m0. induction entries as [|[event e] entries IH]; intros m0 Hne; cbn [fold_left].
  { split; [by left|]. split; [by intros; rewrite ltb_irrefl|]. intros ? ? H. by apply not_elem_of_nil in H. }
  inversion Hne as [|? ? Hev Hne']; subst. simpl in Hev.
  rewrite smaller_request_eq. set (m1 := if serves action e && (negb (str_nonempty m0) || String.ltb event m0)
             then event else m0).
  specialize (IH m1 Hne') as (H1 & H2 & H3). set (m := fold_left _ _ _) in *.
  assert (Hm1 : (m1 = m0 \/ (m1 = event /\ serves action e = true)) /\
                (m0 <> "" -> m1 <> "" /\ String.ltb m0 m1 = false) /\
                (serves action e = true -> m1 <> "" /\ String.ltb event m1 = false)).
  { subst m1. destruct (serves action e) eqn:Es; simpl.
    - destruct (str_nonempty m0) eqn:E0; simpl.
      + apply str_nonempty_true in E0. destruct (String.ltb event m0) eqn:El.
        * split; [auto|]. split; [|by rewrite ltb_irrefl]. intros _. by rewrite ltb_not_sym.
        * rewrite ltb_irrefl, El. auto.
      + apply str_nonempty_false in E0. split; [auto|]. by rewrite ltb_irrefl.
    - rewrite ltb_irrefl. naive_solver. }
  destruct Hm1 as (Ha & Hb & Hc).
  assert (Htr : forall x, m1 <> "" -> String.ltb x m1 = false -> m <> "" /\ String.ltb x m = false).
  { intros x Hn Hx. destruct (H2 Hn) as [Hm Hl]. split; [done|].
    destruct (String.ltb x m) eqn:E; [exfalso|done].
    destruct (ltb_total x m1) as [L|[->|L]]; [congruence..|].
    by rewrite (ltb_trans _ _ _ L E) in Hl. }
  split; [|split].
  - destruct H1 as [->|(e' & Hin & He')]; [|right; exists e'; by rewrite elem_of_cons; auto].
    destruct Ha as [->|[-> Hs]]; [by left|]. right. exists e. rewrite elem_of_cons. auto.
  - intros Hn. destruct (Hb Hn). auto.
  - intros ev e' Hin Hs. apply elem_of_cons in Hin as [[= -> ->]|Hin]; [|eauto].
    destruct (Hc Hs). auto.
Qed.


Lemma Registry_names : Forall (fun ev => ev.1 <> "") (map_to_list Registry).
Proof.
  apply Forall_forall. intros [ev e] He Hev. simpl in Hev. subst ev.
  apply elem_of_map_to_list in He. vm_compute in He. discriminate.
Qed.

Lemma ValidateGovernedRequest_Ok event action :
  ValidateGovernedRequest event = Ok action <->
  exists e, Lookup event = Some e /\ serves action e = true /\ action <> "".
Proof.
  unfold ValidateGovernedRequest, serves. split.
  - intros H. case_in H. injection H as <-. bools. exists e.
    rewrite bool_decide_true, String.eqb_refl by done.
    split; [reflexivity|]. split; [assumption | by apply str_nonempty_true].
  - intros (e & -> & Hs & Hne). bools. subst. rewrite bool_decide_true by done.
    match goal with H : eventHasTransport _ _ = true |- _ => rewrite H end.
    apply str_nonempty_true in Hne. by rewrite Hne.
Qed.

(** whatever order the runtime iterates the registry map in,
    [RequestEventForAction a] answers with the smallest event name that
    [ValidateGovernedRequest] accepts for the action class [a], and fails with
    ErrTxUnknownActionType exactly when no registered event is governed by [a]:
    the two functions are inverse views of one table. *)
Theorem RequestEventForAction_spec action entries :
  action <> "" -> entries ≡ₚ map_to_list Registry ->
  match RequestEventForAction_in entries action with
  | Ok event =>
      ValidateGovernedRequest event = Ok action /\
      (forall event', ValidateGovernedRequest event' = Ok action -> String.ltb event' event = false)
  | Err err =>
      err_is "ErrTxUnknownActionType" err = true /\
      (forall event', ValidateGovernedRequest event' <> Ok action)
  end.
Proof.
  intros Hne Hp.
  assert (Hnames : Forall (fun ev => ev.1 <> "") entries) by (rewrite Hp; apply Registry_names).
  assert (Hin : forall ev e, (ev, e) ∈ entries <-> Lookup ev = Some e)
    by (intros; unfold Lookup; rewrite <- elem_of_map_to_list; by rewrite Hp).
  destruct (smallest_request_spec action entries "" Hnames) as (H1 & _ & H3).
  unfold RequestEventForAction_in. set (m := fold_left _ _ _) in *.
  destruct (str_nonempty m) eqn:Em; simpl.
  - apply str_nonempty_true in Em. destruct H1 as [|(e & He & Hs)]; [done|].
    split; [apply ValidateGovernedRequest_Ok; exists e; by rewrite <- Hin|].
    intros ev' (e' & He' & Hs' & _)%ValidateGovernedRequest_Ok. apply Hin in He'.
    by destruct (H3 _ _ He' Hs').
  - apply str_nonempty_false in Em. split; [done|].
    intros ev' (e' & He' & Hs' & _)%ValidateGovernedRequest_Ok. apply Hin in He'.
    by destruct (H3 _ _ He' Hs').
Qed.

Lemma RequestEventForAction_spec_witness :
  RequestEventForAction_in (map_to_list Registry) ActionTypeExecuteBash =
    Ok "g8e.v1.operator.command.requested" /\
  match RequestEventForAction_in (map_to_list Registry) ActionTypeExecuteBash with
  | Ok event =>
      ValidateGovernedRequest event = Ok ActionTypeExecuteBash /\
      (forall event', ValidateGovernedRequest event' = Ok ActionTypeExecuteBash ->
         String.ltb event' event = false)
  | Err err =>
      err_is "ErrTxUnknownActionType" err = true /\
      (forall event', ValidateGovernedRequest event' <> Ok ActionTypeExecuteBash)
  end.
Proof.
  split; [vm_compute; reflexivity|].
  apply (RequestEventForAction_spec ActionTypeExecuteBash); [done | reflexivity].
Defined.

(** Every declared action class has a governed request event. *)
Example all_actions_requestable :
  forallb (fun a => is_ok (RequestEventForAction a)) AllActionTypes = true.
Proof. vm_compute. reflexivity. Qed.
