(* ===== verification/Envelope.v ===== *)
(** The governance envelope and its transaction hash
    ([src/internal/governance/envelope.go], message definitions in
    [src/protocol/proto/g8e/common/v1/common.proto]).

    A protobuf message is a record; an optional message field is an [option]; a
    [google.protobuf.Timestamp] is the instant [AsTime] gives; a
    [google.protobuf.Struct] is the list of its map's entries in any order (its
    keys are distinct), a nil struct being the empty list. *)
From S2P Require Import Prelude Errors Encoding Sha256 Timestamp.
From Stdlib Require Import String Ascii List ZArith Lia Bool.
From Stdlib Require Import Floats.SpecFloat.
From stdpp Require Import base strings list sorting pretty.
Open Scope string_scope.

(** ** Messages *)

(** [structpb.Value]: [NoKind] is a nil value or a value whose oneof is unset. *)
Inductive Value : Type :=
| NoKind
| NullValue
| NumberValue (f : spec_float)
| StringValue (s : string)
| BoolValue (b : bool)
| StructValue (fields : list (string * Value))
| ListValue (values : list Value).

Definition Struct := list (string * Value).

Record L1Metadata := { Validated : bool; Violations : list string }.

Record L2Vote := { SignerKeyId : string; ConsensusSignature : string; VoteDecision : bool }.

Record L2Metadata := { ConsensusSetId : string; Votes : list L2Vote }.

Record L3Proof := {
  ClientDataJson : string; AuthenticatorData : string; Signature : string;
  CredentialId : string; MtlsCertFingerprint : string; CliSignature : string }.

Record L3Metadata := { L3MetaProof : option L3Proof }.

Record GovernanceMetadata := {
  L1 : option L1Metadata; L2 : option L2Metadata; L3 : option L3Metadata }.

Record GovernanceEnvelope := {
  Id : string;
  SentAt : option gotime;
  ExpiresAt : option gotime;
  SourceComponent : Z;
  OperatorId : string;
  OperatorSessionId : string;
  WebSessionId : string;
  CliSessionId : string;
  RequestorUserId : string;
  ActingAppId : string;
  EnvEventType : string;
  Payload : string;
  IntentData : option Struct;
  EnvActionType : string;
  TargetResource : string;
  StateMerkleRoot : string;
  Nonce : string;
  TransactionHash : string;
  ProtocolVersion : string;
  Governance : option GovernanceMetadata;
  CaseId : string;
  InvestigationId : string;
  TaskId : string;
  SystemFingerprint : string;
  TenantId : string;
  BindingPersona : string;
  Posture : string
}.

Definition GovernanceProtocolVersionV1 := "1.0".
Definition GovernanceProtocolVersionV2 := "2".
Definition txHashV2Prefix := "g8e-tx-v2|".

(** ** [fmt.Sprintf] of numbers and booleans *)

(** Quotient rounded to nearest, ties to even. *)
Definition div_even (n d : Z) : Z :=
  (let q := n / d in
   let r := n mod d in
   match 2 * r ?= d with
   | Lt => q
   | Gt => q + 1
   | Eq => if Z.even q then q else q + 1
   end)%Z.

(** Six decimals of [q] millionths. *)
Definition fixed6 (q : Z) : string :=
  pretty (q / 1000000)%Z +:+ "." +:+ dec 6 (q mod 1000000)%Z.

(** The [%f] verb: the exact value rounded to six decimals. *)
Definition sprintf_f (f : spec_float) : string :=
  match f with
  | S754_nan => "NaN"
  | S754_infinity s => if s then "-Inf" else "+Inf"
  | S754_zero s => (if s then "-" else "") +:+ fixed6 0
  | S754_finite s m e =>
      let num := Z.pos m in
      let q := (if 0 <=? e then num * 2 ^ e * 1000000 else div_even (num * 1000000) (2 ^ (- e)))%Z in
      (if s then "-" else "") +:+ fixed6 q
  end.

(** 1.5, 1234.0625, 2.5e-7 and -0.0000005 (a tie that rounds to even). *)
Example sprintf_f_ex1 : sprintf_f (S754_finite false 3 (-1)) = "1.500000". Proof. reflexivity. Qed.
Example sprintf_f_ex2 : sprintf_f (S754_finite false 19745 (-4)) = "1234.062500".
Proof. vm_compute. reflexivity. Qed.
Example sprintf_f_ex3 : sprintf_f (S754_finite true 1 (-22)) = "-0.000000".
Proof. vm_compute. reflexivity. Qed.

(** The [%t] verb. *)
Definition sprintf_t (b : bool) : string := if b then "true" else "false".

(** ** Canonical form *)

Definition str_le (s t : string) : Prop := String.ltb t s = false.
#[export] Instance str_le_dec s t : Decision (str_le s t).
Proof. unfold str_le. apply _. Defined.

(** [sort.Strings]. *)
Definition sort_strings (l : list string) : list string := merge_sort str_le l.

(** [m[k]] on the entries of a map. *)
Fixpoint assoc {A} (k : string) (l : list (string * A)) : option A :=
  match l with
  | [] => None
  | (k', a) :: l => if String.eqb k k' then Some a else assoc k l
  end.

(** The loop of [canonicalizeStruct] over the sorted keys, [get] being the text
    of the value of a key. *)
Fixpoint pair_texts (get : string -> result string) (ks : list string) : result (list string) :=
  match ks with
  | [] => Ok []
  | k :: ks =>
      let? v := wrap_err "envelope: canonicalize key %q: %w" (get k) in
      let? rest := pair_texts get ks in
      Ok ((k +:+ "=" +:+ v) :: rest)
  end.

Definition get_text (texts : list (string * result string)) (k : string) : result string :=
  match assoc k texts with Some r => r | None => Ok "" end.

(** The body of [canonicalizeStruct] on the map from keys to the texts of their
    values: keys in byte order, [k=v] pairs separated by commas. *)
Definition canonical_pairs (texts : list (string * result string)) : result string :=
  let? parts := pair_texts (get_text texts) (sort_strings (map fst texts)) in
  Ok (str_join "," parts).

Definition result_all (l : list (result string)) : result (list string) :=
  fold_right (fun r acc => let? x := r in let? xs := acc in Ok (x :: xs)) (Ok []) l.

(** [canonicalizeValue].  Its error branch, a oneof of a seventh kind, has no
    constructor here: the generated Go interface has these six. *)
Fixpoint canonicalizeValue (v : Value) : result string :=
  match v with
  | NoKind | NullValue => Ok ""
  | StringValue s => Ok s
  | NumberValue f => Ok (sprintf_f f)
  | BoolValue b => Ok (sprintf_t b)
  | StructValue fields => canonical_pairs (map (fun kv => (kv.1, canonicalizeValue kv.2)) fields)
  | ListValue values =>
      let? parts := result_all (map canonicalizeValue values) in
      Ok ("[" +:+ str_join "," parts +:+ "]")
  end.

Definition canonicalizeStruct (s : Struct) : result string :=
  canonical_pairs (map (fun kv => (kv.1, canonicalizeValue kv.2)) s).

Example canonicalizeStruct_ex :
  canonicalizeStruct [("tool", StringValue "ls"); ("args", ListValue [BoolValue true; NullValue]);
    ("n", NumberValue (S754_finite false 1 1))] = Ok "args=[true,],n=2.000000,tool=ls".
Proof. vm_compute. reflexivity. Qed.

(** [if s != "" { WriteString(s); WriteByte('|') }]. *)
Definition opt_field (s : string) : string := if str_nonempty s then s +:+ "|" else "".

(** [canonicalEnvelopeFieldsV1]. *)
Definition canonicalEnvelopeFieldsV1 (env : GovernanceEnvelope) : result string :=
  let? intent :=
    match IntentData env with
    | None => Ok ""
    | Some st =>
        let? s := wrap_err "envelope: canonicalize intent_data: %w" (canonicalizeStruct st) in
        Ok (s +:+ "|")
    end in
  Ok (opt_field (EnvActionType env) +:+ opt_field (TargetResource env) +:+
      (if str_nonempty (Payload env) then b64_encode (Payload env) +:+ "|" else "") +:+
      opt_field (StateMerkleRoot env) +:+ opt_field (Nonce env) +:+
      match ExpiresAt env with Some t => FormatTimestamp t +:+ "|" | None => "" end +:+
      intent +:+
      opt_field (RequestorUserId env) +:+ opt_field (ActingAppId env) +:+
      opt_field (OperatorId env) +:+ opt_field (OperatorSessionId env) +:+
      opt_field (CaseId env) +:+ opt_field (InvestigationId env) +:+ opt_field (TaskId env) +:+
      opt_field (WebSessionId env) +:+ opt_field (CliSessionId env)).

(** ** Transaction hash *)

Definition envelopeProtocolVersion (env : option GovernanceEnvelope) : string :=
  match env with None => "" | Some e => ProtocolVersion e end.

Definition generateMessageIDV1 (env : GovernanceEnvelope) : result string :=
  let? c := canonicalEnvelopeFieldsV1 env in Ok (sha256_hex c).

(** The text that the version-2 hash is taken of. *)
Definition canonicalV2 (env : GovernanceEnvelope) : result string :=
  let? v1 := canonicalEnvelopeFieldsV1 env in
  Ok (txHashV2Prefix +:+ EnvActionType env +:+ "|" +:+ EnvEventType env +:+ "|" +:+ v1).

Definition generateMessageIDV2 (env : GovernanceEnvelope) : result string :=
  if negb (str_nonempty (EnvEventType env)) then Err (Sentinel "ErrTxEventTypeMissing")
  else let? c := canonicalV2 env in Ok (sha256_hex c).

Definition GenerateMessageID (env : option GovernanceEnvelope) : result string :=
  match env with
  | None => Err (Sentinel "ErrTxInvalidEnvelope")
  | Some e =>
      let v := envelopeProtocolVersion env in
      if String.eqb v GovernanceProtocolVersionV2 then generateMessageIDV2 e
      else if String.eqb v GovernanceProtocolVersionV1 || String.eqb v "" then generateMessageIDV1 e
      else Err (Sentinel "ErrTxProtocolVersionUnsupported")
  end.

Definition VerifyTransactionHash (env : option GovernanceEnvelope) (expectedHash : string)
    : result unit :=
  match env with
  | None => Err (Sentinel "ErrTxInvalidEnvelope")
  | Some _ =>
      let? computed := GenerateMessageID env in
      if String.eqb expectedHash "" then Err (Sentinel "ErrTxTransactionHashMissing")
      else if negb (String.eqb expectedHash computed) then
        Err (Sentinel "ErrTxTransactionHashMismatch")
      else Ok tt
  end.

(** ** Canonicalisation is total and independent of map order *)

(** Induction over values, through the nested lists. *)
Section value_ind.
  Context (P : Value -> Prop).
  Context (HNo : P NoKind) (HNull : P NullValue) (HNum : forall f, P (NumberValue f)).
  Context (HStr : forall s, P (StringValue s)) (HBool : forall b, P (BoolValue b)).
  Context (HStruct : forall fs, Forall (fun kv => P kv.2) fs -> P (StructValue fs)).
  Context (HList : forall vs, Forall P vs -> P (ListValue vs)).

Fixpoint Value_rect_nested (v : Value) : P v :=
    match v with
    | NoKind => HNo
    | NullValue => HNull
    | NumberValue f => HNum f
    | StringValue s => HStr s
    | BoolValue b => HBool b
    | StructValue fs =>
        HStruct fs ((fix go (l : list (string * Value)) : Forall (fun kv => P kv.2) l :=
          match l with
          | [] => @List.Forall_nil _ _
          | kv :: l => @List.Forall_cons _ _ kv l (Value_rect_nested kv.2) (go l)
          end) fs)
    | ListValue vs =>
        HList vs ((fix go (l : list Value) : Forall P l :=
          match l with
          | [] => @List.Forall_nil _ _
          | w :: l => @List.Forall_cons _ _ w l (Value_rect_nested w) (go l)
          end) vs)
    end.
End value_ind.

Lemma pair_texts_ok get ks :
  (forall k, is_ok (get k) = true) -> is_ok (pair_texts get ks) = true.
Proof.
  intros H. induction ks as [|k ks IH]; [done|]. simpl.
  apply is_ok_rbind; [by rewrite is_ok_wrap_err|]. intros v. by apply is_ok_rbind.
Qed.

Lemma canonical_pairs_ok texts :
  Forall (fun kt => is_ok kt.2 = true) texts -> is_ok (canonical_pairs texts) = true.
Proof.
  intros H. unfold canonical_pairs.
  apply is_ok_rbind; [|done]. apply pair_texts_ok. intros k. unfold get_text.
  induction H as [|[k' r] texts Hr _ IH]; [done|]. simpl. by destruct (String.eqb k k').
Qed.

(** The error of an unsupported kind never occurs. *)
Lemma canonicalizeValue_ok v : is_ok (canonicalizeValue v) = true.
Proof.
  induction v as [| | | | |fs IH|vs IH] using Value_rect_nested; try done; simpl.
  - apply canonical_pairs_ok. rewrite Forall_map. exact IH.
  - apply is_ok_rbind; [|done].
    induction IH as [|w vs Hw _ IHl]; [done|]. simpl.
    apply is_ok_rbind; [done|]. intros x. by apply is_ok_rbind.
Qed.

Lemma canonicalizeStruct_ok s : is_ok (canonicalizeStruct s) = true.
Proof. apply (canonicalizeValue_ok (StructValue s)). Qed.

(** [str_le] is a total order, so a sort has one result. *)
#[export] Instance str_le_total : Total str_le.
Proof.
  intros s t. unfold str_le. destruct (ltb_total s t) as [H|[->|H]];
    [left; by apply ltb_not_sym | left; apply ltb_irrefl | right; by apply ltb_not_sym].
Qed.

#[export] Instance str_le_trans : Transitive str_le.
Proof.
  intros s t u. unfold str_le. intros H1 H2. destruct (String.ltb u s) eqn:E; [exfalso|done].
  destruct (ltb_total t u) as [H|[->|H]]; [|congruence..].
  by rewrite (ltb_trans _ _ _ H E) in H1.
Qed.

#[export] Instance str_le_antisymm : AntiSymm (=) str_le.
Proof.
  intros s t. unfold str_le. intros H1 H2. destruct (ltb_total s t) as [H|[H|H]]; congruence.
Qed.

Lemma sort_strings_perm l l' : l ≡ₚ l' -> sort_strings l = sort_strings l'.
Proof.
  intros H. unfold sort_strings.
  apply (StronglySorted_unique str_le); [apply (StronglySorted_merge_sort _).. |].
  by rewrite !merge_sort_Permutation.
Qed.

Lemma assoc_in {A} k a (l : list (string * A)) :
  NoDup (map fst l) -> assoc k l = Some a <-> (k, a) ∈ l.
Proof.
  induction l as [|[k' b] l IH]; simpl; intros Hnd.
  { split; [done | by intros ?%not_elem_of_nil]. }
  inversion Hnd as [|? ? Hk Hl]; subst. rewrite elem_of_cons.
  destruct (String.eqb_spec k k') as [->|Hne].
  - split; [intros [= ->]; by left|]. intros [[= ->]|Hin]; [done|].
    exfalso. apply Hk. change k' with (fst (k', a)). by apply list_elem_of_fmap_2.
  - rewrite IH by done. split; [by right|]. intros [[= -> _]|?]; done.
Qed.

Lemma assoc_perm {A} k (l l' : list (string * A)) :
  NoDup (map fst l) -> l ≡ₚ l' -> assoc k l = assoc k l'.
Proof.
  intros Hnd Hp. assert (Hnd' : NoDup (map fst l')) by (by rewrite <- Hp).
  apply option_eq. intros a. by rewrite !assoc_in, Hp.
Qed.

(** Two values that differ only in the order of their maps' entries. *)
Inductive value_eqv : Value -> Value -> Prop :=
| eqv_refl v : value_eqv v v
| eqv_struct fs gs hs :
    NoDup (map fst fs) -> fs ≡ₚ gs ->
    Forall2 (fun a b => a.1 = b.1 /\ value_eqv a.2 b.2) gs hs ->
    value_eqv (StructValue fs) (StructValue hs)
| eqv_list vs ws : Forall2 value_eqv vs ws -> value_eqv (ListValue vs) (ListValue ws).

Lemma canonical_pairs_perm ts us :
  NoDup (map fst ts) -> ts ≡ₚ us -> canonical_pairs ts = canonical_pairs us.
Proof.
  intros Hnd Hp. unfold canonical_pairs. rewrite (sort_strings_perm _ (map fst us)) by (by rewrite Hp).
  f_equal. induction (sort_strings (map fst us)) as [|k ks IH]; [done|]. simpl.
  unfold get_text at 1 3. by rewrite (assoc_perm k ts us), IH.
Qed.

Lemma canonicalizeValue_eqv v w : value_eqv v w -> canonicalizeValue v = canonicalizeValue w.
Proof.
  revert w. induction v as [| | | | |fs IH|vs IH] using Value_rect_nested; intros w H;
    inversion H as [|? gs hs Hnd Hp H2|? ws H2]; subst; try done; simpl.
  - rewrite (canonical_pairs_perm _ (map (fun kv => (kv.1, canonicalizeValue kv.2)) gs));
      [|by rewrite map_map | by rewrite Hp].
    f_equal. rewrite Hp in IH. clear -IH H2.
    induction H2 as [|[k a] [k' b] gs hs [Hk Hv] _ IHl]; [done|]. simpl in *.
    inversion IH; subst. f_equal; [|by apply IHl]. f_equal. auto.
  - do 2 f_equal. clear H. induction H2 as [|a b vs ws Hv _ IHl]; [done|]. simpl.
    inversion IH; subst. f_equal; auto.
Qed.

(** ** The canonical form as a list of optional fields *)

Definition present (s : string) : option string := if str_nonempty s then Some s else None.

(** The text of the intent. *)
Definition intent_text (env : GovernanceEnvelope) : option string :=
  match IntentData env with
  | None => None
  | Some st => Some (match canonicalizeStruct st with Ok s => s | Err _ => "" end)
  end.

(** The sixteen fields of the canonical form, [None] where one is absent. *)
Definition covered (env : GovernanceEnvelope) : list (option string) :=
  [present (EnvActionType env); present (TargetResource env);
   (if str_nonempty (Payload env) then Some (b64_encode (Payload env)) else None);
   present (StateMerkleRoot env); present (Nonce env);
   FormatTimestamp <$> ExpiresAt env; intent_text env;
   present (RequestorUserId env); present (ActingAppId env); present (OperatorId env);
   present (OperatorSessionId env); present (CaseId env); present (InvestigationId env);
   present (TaskId env); present (WebSessionId env); present (CliSessionId env)].

(** Each present field is followed by the separator; absent ones leave nothing. *)
Definition field_text (o : option string) : string :=
  match o with Some s => s +:+ "|" | None => "" end.

Definition fields_text (l : list (option string)) : string := foldr (fun o r => field_text o +:+ r) "" l.

Lemma opt_field_present s : opt_field s = field_text (present s).
Proof. unfold opt_field, present. by destruct (str_nonempty s). Qed.

Lemma canonical_covered env : canonicalEnvelopeFieldsV1 env = Ok (fields_text (covered env)).
Proof.
  unfold canonicalEnvelopeFieldsV1, covered, intent_text.
  assert (Hi : forall st, exists s, canonicalizeStruct st = Ok s)
    by (intros st; apply is_ok_true, canonicalizeStruct_ok).
  destruct (IntentData env) as [st|]; [destruct (Hi st) as [s Hs]; rewrite Hs|];
    simpl; rewrite !opt_field_present, ?string_app_nil_r;
    destruct (str_nonempty (Payload env)), (ExpiresAt env); reflexivity.
Qed.

(** Fields with no separator inside. *)
Definition bar_free (o : option string) : Prop :=
  match o with Some s => has_char "|" s = false | None => True end.

(** Two field lists that have the same fields present. *)
Definition same_shape (l m : list (option string)) : Prop :=
  map (fun o => bool_decide (is_Some o)) l = map (fun o => bool_decide (is_Some o)) m.

Lemma fields_text_inj l m :
  same_shape l m -> Forall bar_free l -> Forall bar_free m ->
  fields_text l = fields_text m -> l = m.
Proof.
  unfold same_shape. revert m. induction l as [|o l IH]; intros [|p m] Hs Hl Hm; try done.
  inversion Hl; inversion Hm; subst. injection Hs as Ho Hs.
  destruct o as [s|], p as [t|]; try discriminate Ho; simpl; intros H.
  - rewrite !string_app_assoc in H. apply string_delim_inj in H as [-> H]; try done.
    f_equal. by apply IH.
  - f_equal. by apply IH.
Qed.

(** The text whose SHA-256 is the envelope's identifier, for the two versions. *)
Definition preimage (env : GovernanceEnvelope) : string :=
  if String.eqb (ProtocolVersion env) GovernanceProtocolVersionV2
  then txHashV2Prefix +:+ EnvActionType env +:+ "|" +:+ EnvEventType env +:+ "|" +:+
         fields_text (covered env)
  else fields_text (covered env).

Lemma GenerateMessageID_V2 env h :
  ProtocolVersion env = GovernanceProtocolVersionV2 ->
  GenerateMessageID (Some env) = Ok h <->
  EnvEventType env <> "" /\ h = sha256_hex (preimage env).
Proof.
  intros Hv. unfold GenerateMessageID, envelopeProtocolVersion, preimage. rewrite Hv.
  simpl String.eqb. cbv iota. unfold generateMessageIDV2, canonicalV2. rewrite canonical_covered.
  destruct (str_nonempty (EnvEventType env)) eqn:E; cbn [negb rbind].
  - apply str_nonempty_true in E. split; [intros [= <-] | intros [_ ->]]; done.
  - apply str_nonempty_false in E. split; [done | by intros [? _]].
Qed.

(** C6: The hash binds.  If two version-2 envelopes that have the same optional
    fields present, and no '|' in the action type, the event type or any other
    text the hash joins, have the same transaction hash, then they agree on every
    field the hash covers (action type, event type, target, payload bytes, state
    root, nonce, expiry to the microsecond, canonical intent, and the identity and
    case fields), or else the two canonical texts are an explicit SHA-256 collision. *)
Theorem transaction_hash_binds e1 e2 h :
  ProtocolVersion e1 = GovernanceProtocolVersionV2 ->
  ProtocolVersion e2 = GovernanceProtocolVersionV2 ->
  same_shape (covered e1) (covered e2) ->
  Forall bar_free (covered e1) -> Forall bar_free (covered e2) ->
  Forall bar_free [Some (EnvActionType e1); Some (EnvEventType e1)] ->
  Forall bar_free [Some (EnvActionType e2); Some (EnvEventType e2)] ->
  VerifyTransactionHash (Some e1) h = Ok tt -> VerifyTransactionHash (Some e2) h = Ok tt ->
  (EnvActionType e1 = EnvActionType e2 /\ EnvEventType e1 = EnvEventType e2 /\
   Payload e1 = Payload e2 /\ covered e1 = covered e2)
  \/ collision (preimage e1) (preimage e2).
Proof.
  intros V1 V2 Hs Hb1 Hb2 Ha1 Ha2 H1 H2.
  unfold VerifyTransactionHash in H1, H2.
  apply rbind_Ok in H1 as (h1 & G1 & C1), H2 as (h2 & G2 & C2).
  apply GenerateMessageID_V2 in G1 as [_ ->], G2 as [_ ->]; try done.
  destruct (String.eqb h ""); [discriminate|].
  destruct (String.eqb_spec h (sha256_hex (preimage e1))) as [E1|]; [|discriminate].
  destruct (String.eqb_spec h (sha256_hex (preimage e2))) as [E2|]; [|discriminate].
  destruct (sha256_hex_eq (preimage e1) (preimage e2)) as [H|H]; [congruence| |by right]. left.
  unfold preimage in H. rewrite V1, V2 in H. simpl String.eqb in H. cbv iota in H.
  apply string_app_inj_l in H.
  repeat match goal with Hf : Forall bar_free [_; _] |- _ =>
    apply Forall_cons in Hf as [? Hf]; apply Forall_cons in Hf as [? _] end.
  simpl bar_free in *.
  apply string_delim_inj in H as [Ha H]; [|done..].
  apply string_delim_inj in H as [He H]; [|done..].
  apply fields_text_inj in H; [|done..]. repeat split; try done.
  injection H as _ _ Hp. destruct (str_nonempty (Payload e1)) eqn:P1, (str_nonempty (Payload e2)) eqn:P2;
    try discriminate Hp.
  - injection Hp as Hp. by apply b64_encode_inj.
  - apply str_nonempty_false in P1, P2. congruence.
Qed.

(** A version-2 envelope that asks to run a command. *)
Definition sample_env : GovernanceEnvelope := {|
  Id := "tx-1"; SentAt := Some (1767322700 * 1000000000)%Z;
  ExpiresAt := Some (1767322800 * 1000000000)%Z; SourceComponent := 1;
  OperatorId := "op-1"; OperatorSessionId := "sess-1"; WebSessionId := ""; CliSessionId := "cli-1";
  RequestorUserId := "user-1"; ActingAppId := "app-1";
  EnvEventType := "g8e.v1.operator.command.requested"; Payload := "ls -la";
  IntentData := Some [("tool", StringValue "shell"); ("dry", BoolValue false)];
  EnvActionType := "EXECUTE_BASH"; TargetResource := "host-1"; StateMerkleRoot := "root";
  Nonce := "nonce-1"; TransactionHash := ""; ProtocolVersion := "2"; Governance := None;
  CaseId := "case-1"; InvestigationId := ""; TaskId := ""; SystemFingerprint := "";
  TenantId := ""; BindingPersona := ""; Posture := "consensus" |}.

Definition sample_hash : string :=
  match GenerateMessageID (Some sample_env) with Ok h => h | Err _ => "" end.

(** The fields the hash reads. *)
Definition same_covered (e1 e2 : GovernanceEnvelope) : Prop :=
  EnvActionType e1 = EnvActionType e2 /\ EnvEventType e1 = EnvEventType e2 /\
  ProtocolVersion e1 = ProtocolVersion e2 /\
  TargetResource e1 = TargetResource e2 /\ Payload e1 = Payload e2 /\
  StateMerkleRoot e1 = StateMerkleRoot e2 /\ Nonce e1 = Nonce e2 /\ ExpiresAt e1 = ExpiresAt e2 /\
  match IntentData e1, IntentData e2 with
  | None, None => True
  | Some a, Some b => value_eqv (StructValue a) (StructValue b)
  | _, _ => False
  end /\
  RequestorUserId e1 = RequestorUserId e2 /\ ActingAppId e1 = ActingAppId e2 /\
  OperatorId e1 = OperatorId e2 /\ OperatorSessionId e1 = OperatorSessionId e2 /\
  CaseId e1 = CaseId e2 /\ InvestigationId e1 = InvestigationId e2 /\ TaskId e1 = TaskId e2 /\
  WebSessionId e1 = WebSessionId e2 /\ CliSessionId e1 = CliSessionId e2.

(** The hash is a function of the covered fields only: the same identifier
    (or the same error) whatever order the maps inside intent_data are iterated
    in, and whatever the id, the stored hash, the timestamp, the source
    component, the tenant, persona and fingerprint, the governance proofs and
    the posture are.  In particular the posture an operator enforces is not
    bound by the transaction hash. *)
Theorem transaction_hash_scope e1 e2 :
  same_covered e1 e2 -> GenerateMessageID (Some e1) = GenerateMessageID (Some e2).
Proof.
  intros (Ha & He & Hv & Ht & Hp & Hr & Hn & Hx & Hi & H1 & H2 & H3 & H4 & H5 & H6 & H7 & H8 & H9).
  assert (Hc : covered e1 = covered e2).
  { unfold covered. rewrite Ha, Ht, Hp, Hr, Hn, Hx, H1, H2, H3, H4, H5, H6, H7, H8, H9.
    do 6 f_equal. f_equal. unfold intent_text.
    destruct (IntentData e1) as [a|], (IntentData e2) as [b|]; try done.
    apply canonicalizeValue_eqv in Hi. simpl in Hi. unfold canonicalizeStruct. by rewrite Hi. }
  unfold GenerateMessageID, envelopeProtocolVersion, generateMessageIDV1, generateMessageIDV2, canonicalV2.
  by rewrite !canonical_covered, Hc, Hv, Ha, He.
Qed.

(** [sample_env] under another posture, another tenant, and with the entries of
    its intent swapped. *)
Definition sample_env_reposted : GovernanceEnvelope := {|
  Id := "tx-2"; SentAt := None;
  ExpiresAt := ExpiresAt sample_env; SourceComponent := 2;
  OperatorId := "op-1"; OperatorSessionId := "sess-1"; WebSessionId := ""; CliSessionId := "cli-1";
  RequestorUserId := "user-1"; ActingAppId := "app-1";
  EnvEventType := "g8e.v1.operator.command.requested"; Payload := "ls -la";
  IntentData := Some [("dry", BoolValue false); ("tool", StringValue "shell")];
  EnvActionType := "EXECUTE_BASH"; TargetResource := "host-1"; StateMerkleRoot := "root";
  Nonce := "nonce-1"; TransactionHash := "x"; ProtocolVersion := "2"; Governance := None;
  CaseId := "case-1"; InvestigationId := ""; TaskId := ""; SystemFingerprint := "fp";
  TenantId := "tenant-2"; BindingPersona := "p"; Posture := "doctrine" |}.

Lemma transaction_hash_binds_witness :
  sample_env <> sample_env_reposted /\
  ((EnvActionType sample_env = EnvActionType sample_env_reposted /\
    EnvEventType sample_env = EnvEventType sample_env_reposted /\
    Payload sample_env = Payload sample_env_reposted /\ covered sample_env = covered sample_env_reposted)
   \/ collision (preimage sample_env) (preimage sample_env_reposted)).
Proof.
  split; [discriminate|].
  apply (transaction_hash_binds sample_env sample_env_reposted sample_hash); try reflexivity;
    try (repeat constructor); vm_compute; reflexivity.
Defined.

Lemma transaction_hash_scope_witness :
  Posture sample_env <> Posture sample_env_reposted /\
  GenerateMessageID (Some sample_env) = GenerateMessageID (Some sample_env_reposted).
Proof.
  split; [done|]. apply (transaction_hash_scope sample_env sample_env_reposted).
  do 8 (split; [reflexivity|]). split; [|do 8 (split; [reflexivity|]); reflexivity].
  simpl. apply (eqv_struct _ [("dry", BoolValue false); ("tool", StringValue "shell")]).
  - apply (bool_decide_unpack _). vm_compute. exact I.
  - apply Permutation_swap.
  - repeat constructor.
Defined.

(** [VerifyTransactionHash] accepts exactly the recomputed identifier, and
    fails closed: a nil envelope, a hash that cannot be computed, an absent
    hash and a different hash are each refused with their own sentinel, in that
    order of precedence. *)
Theorem VerifyTransactionHash_spec env expected :
  match env with
  | None => VerifyTransactionHash env expected = Err (Sentinel "ErrTxInvalidEnvelope")
  | Some e =>
      match GenerateMessageID env with
      | Err err =>
          VerifyTransactionHash env expected = Err err /\
          (err = Sentinel "ErrTxEventTypeMissing" /\ ProtocolVersion e = "2" /\ EnvEventType e = ""
           \/ err = Sentinel "ErrTxProtocolVersionUnsupported" /\
              ProtocolVersion e <> "2" /\ ProtocolVersion e <> "1.0" /\ ProtocolVersion e <> "")
      | Ok h =>
          String.length h = 64%nat /\
          (VerifyTransactionHash env expected = Ok tt <-> expected = h) /\
          (expected = "" ->
             VerifyTransactionHash env expected = Err (Sentinel "ErrTxTransactionHashMissing")) /\
          (expected <> "" -> expected <> h ->
             VerifyTransactionHash env expected = Err (Sentinel "ErrTxTransactionHashMismatch"))
      end
  end.
Proof.
  destruct env as [e|]; [|done].
  destruct (GenerateMessageID (Some e)) as [h|err] eqn:G.
  - assert (Hl : String.length h = 64%nat).
    { unfold GenerateMessageID, generateMessageIDV1, generateMessageIDV2, canonicalV2 in G.
      rewrite canonical_covered in G. cbn [rbind] in G.
      case_in G; injection G as <-; apply length_sha256_hex. }
    split; [done|]. unfold VerifyTransactionHash. rewrite G. cbn [rbind].
    destruct (String.eqb_spec expected "") as [->|Hne].
    { split; [split; [done | by intros <-]|]. done. }
    destruct (String.eqb_spec expected h) as [->|Hne']; cbn [negb]; naive_solver.
  - split; [unfold VerifyTransactionHash; by rewrite G|].
    unfold GenerateMessageID, generateMessageIDV1, generateMessageIDV2, canonicalV2 in G.
    rewrite canonical_covered in G. cbn [rbind envelopeProtocolVersion] in G.
    destruct (String.eqb_spec (ProtocolVersion e) GovernanceProtocolVersionV2) as [E|E].
    + left. destruct (str_nonempty (EnvEventType e)) eqn:En; [discriminate|].
      injection G as <-. apply str_nonempty_false in En. done.
    + right. destruct (String.eqb_spec (ProtocolVersion e) GovernanceProtocolVersionV1); [done|].
      destruct (String.eqb_spec (ProtocolVersion e) ""); [done|]. by injection G as <-.
Qed.

(** An envelope with its acting application and operator replaced. *)
Definition with_app_operator (app op : string) (e : GovernanceEnvelope) : GovernanceEnvelope := {|
  Id := Id e; SentAt := SentAt e; ExpiresAt := ExpiresAt e; SourceComponent := SourceComponent e;
  OperatorId := op; OperatorSessionId := OperatorSessionId e; WebSessionId := WebSessionId e;
  CliSessionId := CliSessionId e; RequestorUserId := RequestorUserId e; ActingAppId := app;
  EnvEventType := EnvEventType e; Payload := Payload e; IntentData := IntentData e;
  EnvActionType := EnvActionType e; TargetResource := TargetResource e;
  StateMerkleRoot := StateMerkleRoot e; Nonce := Nonce e; TransactionHash := TransactionHash e;
  ProtocolVersion := ProtocolVersion e; Governance := Governance e; CaseId := CaseId e;
  InvestigationId := InvestigationId e; TaskId := TaskId e;
  SystemFingerprint := SystemFingerprint e; TenantId := TenantId e;
  BindingPersona := BindingPersona e; Posture := Posture e |}.

(** Without the shape hypothesis of the binding theorem the hash does not
    tell fields apart: absent fields leave no trace and fields carry no tag, so
    an envelope that names [x] as its operator and one that names [x] as the
    acting application (the other field being absent) have the same hash, and
    each verifies with the hash made for the other. *)
Theorem transaction_hash_field_confusion e x h :
  GenerateMessageID (Some (with_app_operator x "" e)) =
    GenerateMessageID (Some (with_app_operator "" x e)) /\
  VerifyTransactionHash (Some (with_app_operator x "" e)) h =
    VerifyTransactionHash (Some (with_app_operator "" x e)) h.
Proof.
  assert (H : GenerateMessageID (Some (with_app_operator x "" e)) =
              GenerateMessageID (Some (with_app_operator "" x e))).
  { unfold GenerateMessageID, envelopeProtocolVersion, generateMessageIDV1, generateMessageIDV2,
      canonicalV2.
    rewrite !canonical_covered.
    assert (Hc : fields_text (covered (with_app_operator x "" e)) =
                 fields_text (covered (with_app_operator "" x e))).
    { unfold covered. simpl. by destruct x. }
    by rewrite Hc. }
  split; [exact H|]. unfold VerifyTransactionHash. by rewrite H.
Qed.
