(* ===== verification/Posture.v ===== *)
(** Governance postures ([src/internal/services/governance/posture.go]): which of
    the layers L2 (consensus) and L3 (notary) gate execution. *)
From S2P Require Import Prelude Errors Envelope.
From Stdlib Require Import String List Bool.
From stdpp Require Import base strings list.
Open Scope string_scope.

Definition PostureDoctrine := "doctrine".
Definition PostureConsensus := "consensus".
Definition PostureRatify := "ratify".
Definition PostureNotary := "notary".

(** The implementations of the [GovernancePosture] interface. *)
Inductive GovernancePosture := DoctrinePosture | ConsensusPosture | RatifyPosture | NotaryPosture.

#[export] Instance GovernancePosture_eq_dec : EqDecision GovernancePosture.
Proof. solve_decision. Defined.

Definition Name (p : GovernancePosture) : string :=
  match p with
  | DoctrinePosture => PostureDoctrine
  | ConsensusPosture => PostureConsensus
  | RatifyPosture => PostureRatify
  | NotaryPosture => PostureNotary
  end.

Definition RequiresL2Signature (p : GovernancePosture) : bool :=
  match p with DoctrinePosture | RatifyPosture => false | ConsensusPosture | NotaryPosture => true end.

Definition RequiresL3Proof (p : GovernancePosture) : bool :=
  match p with DoctrinePosture | ConsensusPosture => false | RatifyPosture | NotaryPosture => true end.

Definition ParseGovernancePosture (posture : string) : result GovernancePosture :=
  if String.eqb posture PostureDoctrine then Ok DoctrinePosture
  else if String.eqb posture PostureConsensus then Ok ConsensusPosture
  else if String.eqb posture PostureRatify then Ok RatifyPosture
  else if String.eqb posture PostureNotary then Ok NotaryPosture
  else Err (Errorf "%w: %q (must be one of: doctrine, consensus, ratify, notary)"
              [Sentinel "ErrInvalidPosture"]).

Definition NewGovernancePosture (posture : string) : result GovernancePosture :=
  ParseGovernancePosture posture.

(** [postureFromEnvelope] of [l4_warden.go]. *)
Definition postureFromEnvelope (envelope : GovernanceEnvelope) : result GovernancePosture :=
  if String.eqb (Posture envelope) "" then Err (Sentinel "ErrEnvelopePostureMissing")
  else ParseGovernancePosture (Posture envelope).

(** Parsing and naming are inverse: an unknown name is never given a posture. *)
Lemma ParseGovernancePosture_Ok s p : ParseGovernancePosture s = Ok p <-> s = Name p.
Proof.
  unfold ParseGovernancePosture. split.
  - intros H. case_in H; injection H as <-; bools; done.
  - intros ->. by destruct p.
Qed.

Lemma ParseGovernancePosture_Err s e :
  ParseGovernancePosture s = Err e -> err_is "ErrInvalidPosture" e = true.
Proof. unfold ParseGovernancePosture. intros H. case_in H. by injection H as <-. Qed.

Lemma postureFromEnvelope_Ok env p : postureFromEnvelope env = Ok p <-> Posture env = Name p.
Proof.
  unfold postureFromEnvelope. destruct (String.eqb_spec (Posture env) "") as [E|E].
  - rewrite E. split; [done|]. by destruct p.
  - apply ParseGovernancePosture_Ok.
Qed.

(** [stricter p q]: [p] gates on every layer that [q] gates on. *)
Definition stricter (p q : GovernancePosture) : bool :=
  (RequiresL2Signature p || negb (RequiresL2Signature q)) &&
  (RequiresL3Proof p || negb (RequiresL3Proof q)).

Lemma stricter_L2 p q : stricter p q = true -> RequiresL2Signature q = true -> RequiresL2Signature p = true.
Proof. by destruct p, q. Qed.

Lemma stricter_L3 p q : stricter p q = true -> RequiresL3Proof q = true -> RequiresL3Proof p = true.
Proof. by destruct p, q. Qed.
