(* ===== verification/Crypto.v ===== *)
(** The signature primitive the pipeline relies on ([crypto/ed25519]).

    The code uses three operations and two facts about them: a signature made
    with a private key verifies under its public key, and keys and signatures
    have fixed sizes.  They are an interface; nothing is assumed about
    unforgeability.  [toy_ed25519] is a computable instance built on SHA-256 for
    concrete runs of the model. *)
From S2P Require Import Prelude Encoding Sha256.
From Stdlib Require Import String Ascii List ZArith Lia Bool.
From stdpp Require Import base strings list.

Class Ed25519 := {
  (** Public half of a private key. *)
  ed_public : string -> string;
  ed_sign : string -> string -> string;
  ed_verify : string -> string -> string -> bool;
}.

Class Ed25519Laws `(E : Ed25519) := {
  ed_verify_sign : forall k m, ed_verify (ed_public k) m (ed_sign k m) = true;
  ed_public_size : forall k, String.length (ed_public k) = 32%nat;
  ed_sign_size : forall k m, String.length (ed_sign k m) = 64%nat;
}.

(** [ed25519.PublicKeySize], [ed25519.SignatureSize]. *)
Definition PublicKeySize : nat := 32.
Definition SignatureSize : nat := 64.

Definition toy_mac (pub m : string) : string := sha256 (pub +:+ m) +:+ sha256 (m +:+ pub).

Definition toy_ed25519 : Ed25519 := {|
  ed_public k := sha256 k;
  ed_sign k m := toy_mac (sha256 k) m;
  ed_verify pub m s := String.eqb s (toy_mac pub m);
|}.

#[export] Instance toy_ed25519_laws : Ed25519Laws toy_ed25519.
Proof.
  split; intros; simpl.
  - apply String.eqb_refl.
  - apply length_sha256.
  - unfold toy_mac. by rewrite string_app_length, !length_sha256.
Qed.
