(* ===== verification/Sqlite.v ===== *)
(** Access to SQLite with retries ([src/internal/services/sqliteutil/db.go]).

    A statement runs against the committed state [S] and may fail with an error of
    the driver; the transaction functions run a sequence of statements and keep its
    effect or drop it.  What the driver answers comes from the environment: one
    [attempt] per turn of a retry loop, one fault per statement.  As documented by
    SQLite, a statement or a COMMIT that fails leaves the committed state as it was.
    This is for a context that does not end while the COMMIT runs: every caller passes
    the background context, [PruneChainedAuditEvents] alone one of its own, and there the
    driver may answer with the error of the context after the COMMIT took effect.

    An [sql.Conn] is done once a statement on it returned [driver.ErrBadConn]: the
    connection is discarded, which rolls its transaction back, and every later use,
    Close included, returns [sql.ErrConnDone].  Otherwise Close returns nil and puts
    the connection back into the pool as it is, with the transaction that a failed
    COMMIT or ROLLBACK left open. *)
From S2P Require Import Prelude Errors.
From Stdlib Require Import String Ascii List ZArith Lia Bool SpecFloat.
From stdpp Require Import base strings list.
Open Scope string_scope.

(** ** Text search without the strings package *)

(** [s[i:i+n] == substr] for the indices the loop visits. *)
Definition slice_at (s substr : string) (i : nat) : bool :=
  String.eqb (String.substring i (String.length substr) s) substr.

Definition findSubstring (s substr : string) : bool :=
  existsb (slice_at s substr) (seq 0 (S (String.length s - String.length substr))).

Definition contains_text (s substr : string) : bool :=
  (String.length substr <=? String.length s)%nat &&
  (String.eqb s substr || ((String.length substr <? String.length s)%nat && findSubstring s substr)).

(** ** Configuration and backoff *)

Record DBConfig := { CacheSizeMB : Z; BusyTimeoutMs : Z; MaxRetries : Z; RetryBaseDelayMs : Z }.

Definition DefaultDBConfig : DBConfig :=
  {| CacheSizeMB := 64; BusyTimeoutMs := 30000; MaxRetries := 10; RetryBaseDelayMs := 50 |}.

(** int64 wrap-around and the conversions between int64 and float64. *)
Definition wrap64 (z : Z) : Z := ((z + 2 ^ 63) mod 2 ^ 64 - 2 ^ 63)%Z.

Definition float_of_Z (z : Z) : spec_float := binary_normalize 53 1024 z 0 false.

(** Truncation toward zero; out of range it is not used. *)
Definition Z_of_float (f : spec_float) : Z :=
  match f with
  | S754_finite sign m e =>
      let a := if (0 <=? e)%Z then Z.shiftl (Zpos m) e else Z.shiftr (Zpos m) (- e) in
      if sign then (- a)%Z else a
  | _ => 0%Z
  end.

(** [1 << uint(attempt)] on int64: a shift of 64 or more gives 0. *)
Definition shl64 (attempt : nat) : Z := wrap64 (2 ^ Z.of_nat attempt).

(** The nanoseconds [backoff] sleeps; [now] is [time.Now().UnixNano()]. *)
Definition exponentialDelay (c : DBConfig) (attempt : nat) : Z :=
  wrap64 (wrap64 (RetryBaseDelayMs c * 1000000) * shl64 attempt).

Definition jitter (delay now : Z) : Z :=
  Z_of_float (SFmul 53 1024 (SFmul 53 1024 (float_of_Z delay) (SFdiv 53 1024 (float_of_Z 1) (float_of_Z 4)))
                            (SFdiv 53 1024 (float_of_Z (Z.rem now 1000)) (float_of_Z 1000))).

Definition backoff (c : DBConfig) (attempt : nat) (now : Z) : Z :=
  wrap64 (exponentialDelay c attempt + jitter (exponentialDelay c attempt) now).

(** ** Statements *)

(** A sequence of statements inside a transaction: the environment faults the n-th
    of them or not. *)
Definition sq (St A : Type) : Type := (nat -> option gerr) -> nat -> St -> result A * nat * St.

Definition sq_ret {St A} (a : A) : sq St A := fun env n s => (Ok a, n, s).
Definition sq_err {St A} (e : gerr) : sq St A := fun env n s => (Err e, n, s).
Definition sq_bind {St A B} (m : sq St A) (k : A -> sq St B) : sq St B :=
  fun env n s => match m env n s with
                 | (Ok a, n, s) => k a env n s
                 | (Err e, n, s) => (Err e, n, s)
                 end.
(** One statement. *)
Definition stmt {St A} (f : St -> result A * St) : sq St A :=
  fun env n s => match env n with
                 | Some e => (Err e, S n, s)
                 | None => let '(r, s) := f s in (r, S n, s)
                 end.
Definition query {St A} (f : St -> A) : sq St A := stmt (fun s => (Ok (f s), s)).
Definition sq_lift {St A} (r : result A) : sq St A := fun env n s => (r, n, s).
(** [fmt.Errorf(fmt, err)] around what fails. *)
Definition sq_wrap {St A} (w : gerr -> gerr) (m : sq St A) : sq St A :=
  fun env n s => match m env n s with
                 | (Ok a, n, s) => (Ok a, n, s)
                 | (Err e, n, s) => (Err (w e), n, s)
                 end.

(** Statements on a part of the state. *)
Definition zoom {S T A} (get : S -> T) (put : T -> S -> S) (m : sq T A) : sq S A :=
  fun env n s => let '(r, n, t) := m env n (get s) in (r, n, put t s).

Declare Scope sq_scope.
Delimit Scope sq_scope with sq.
Notation "'let$' x := e 'in' k" := (sq_bind e (fun x => k))
  (at level 10, x pattern, e at level 100, k at level 200) : sq_scope.
Notation "e ;$ k" := (sq_bind e (fun _ => k)) (at level 100, right associativity) : sq_scope.

(** ** Retries *)

Section retries.
(** [err.Error()]: the text of an error. *)
Context (err_text : gerr -> string).

Definition isBusyError (err : option gerr) : bool :=
  match err with
  | None => false
  | Some e => contains_text (err_text e) "database is locked" || contains_text (err_text e) "SQLITE_BUSY"
  end.

Definition IsUniqueConstraintError (err : option gerr) : bool :=
  match err with
  | None => false
  | Some e => err_is "ErrAlreadyExists" e || contains_text (err_text e) "UNIQUE constraint failed"
  end.

(** A turn of a loop ends the function or asks for another turn. *)
Inductive turn (A : Type) := Done (a : A) | Again (e : gerr).
Arguments Done {A} a.
Arguments Again {A} e.

(** The loop: [turns] turns from turn [i] on; a turn that asks for another sleeps. *)
Fixpoint retry_from {St A} (c : DBConfig) (now : nat -> Z) (step : nat -> St -> turn A * St)
    (exhausted : option gerr -> A) (turns i : nat) (last : option gerr) (s : St) : A * St * list Z :=
  match turns with
  | O => (exhausted last, s, [])
  | S turns =>
      match step i s with
      | (Done a, s) => (a, s, [])
      | (Again e, s) =>
          let '(a, s, sleeps) := retry_from c now step exhausted turns (S i) (Some e) s in
          (a, s, backoff c i (now i) :: sleeps)
      end
  end.

Definition retry {St A} (c : DBConfig) (now : nat -> Z) (step : nat -> St -> turn A * St)
    (exhausted : option gerr -> A) (s : St) : A * St * list Z :=
  retry_from c now step exhausted (Z.to_nat (MaxRetries c)) 0 None s.

(** [fmt.Errorf("... %w", lastErr)] where [lastErr] may be nil. *)
Definition exhausted_with (text : string) (last : option gerr) : gerr :=
  Errorf text (match last with Some e => [e] | None => [] end).

(** [ExecWithRetry] and [QueryWithRetry]: one statement, [fault i] its failure at
    turn [i]. *)
Definition with_retry {St A} (text : string) (c : DBConfig) (now : nat -> Z) (fault : nat -> option gerr)
    (f : St -> result A * St) (s : St) : result A * St * list Z :=
  retry c now
    (fun i s => match fault i with
                | Some e => (if isBusyError (Some e) then Again e else Done (Err e), s)
                | None => match f s with
                          | (Ok a, s') => (Done (Ok a), s')
                          | (Err e, _) => (if isBusyError (Some e) then Again e else Done (Err e), s)
                          end
                end)
    (fun last => Err (exhausted_with text last)) s.

Definition ExecWithRetry {St A} := @with_retry St A "sqliteutil: exec failed after %d retries: %w".
Definition QueryWithRetry {St A} c now fault (f : St -> A) :=
  with_retry "sqliteutil: query failed after %d retries: %w" c now fault (fun s : St => (Ok (f s), s)).

(** [errors.Join(err, fmt.Errorf(text, e))] for each later error. *)
Definition join (err : gerr) (text : string) (e : option gerr) : gerr :=
  match e with Some e => Errorf "%w
%w" [err; Errorf text [e]] | None => err end.

(** What the driver answers during one turn of a transaction: the faults of its
    statements, whether a COMMIT or ROLLBACK that fails leaves the transaction open, and
    whether the pool hands out the connection that was put back in a transaction. *)
Record attempt := {
  conn_fault : option gerr; begin_fault : option gerr; stmt_fault : nat -> option gerr;
  rollback_fault : option gerr; commit_fault : option gerr; stays_open : bool; same_conn : bool
}.

Definition quiet_attempt : attempt := {|
  conn_fault := None; begin_fault := None; stmt_fault := fun _ => None;
  rollback_fault := None; commit_fault := None; stays_open := false; same_conn := false |}.

(** The committed state, and what a connection of the pool sees that is still in a
    transaction of its own. *)
Record pool (St : Type) := { committed : St; open_view : option St }.
Arguments committed {St} p.
Arguments open_view {St} p.
Arguments Build_pool {St} committed open_view.

Definition bad_conn (e : option gerr) : bool :=
  match e with Some e => err_is "driver.ErrBadConn" e | None => false end.
Definition ErrConnDone : gerr := Sentinel "sql.ErrConnDone".

(** One of the first [n] statements found the connection bad. *)
Definition lost (f : nat -> option gerr) (n : nat) : bool := existsb (fun i => bad_conn (f i)) (seq 0 n).

(** What the statements on an [sql.Conn] return. *)
Definition answers (a : attempt) (n : nat) : option gerr :=
  if lost (stmt_fault a) n then Some ErrConnDone else stmt_fault a n.

(** [sql.Conn.Close]. *)
Definition close_error (done : bool) : option gerr := if done then Some ErrConnDone else None.

(** BEGIN IMMEDIATE with a transaction open elsewhere in the pool: it is nested in it on
    its own connection, and waits for its lock in vain on another one. *)
Definition begin_error {St} (a : attempt) (p : pool St) : option gerr :=
  match open_view p with
  | None => begin_fault a
  | Some _ =>
      if same_conn a then Some (Extern "SQL logic error: cannot start a transaction within a transaction (1)")
      else match begin_fault a with Some e => Some e | None => Some (Extern "database is locked (5) (SQLITE_BUSY)") end
  end.

(** The pool after a COMMIT or ROLLBACK that failed with [e]. *)
Definition put_back {St} (a : attempt) (done : bool) (view : St) (p : pool St) : pool St :=
  if negb done && stays_open a then Build_pool (committed p) (Some view) else p.

(** The error of COMMIT and of closing the connection. *)
Definition commit_error (commit close : option gerr) : option gerr :=
  match commit, close with
  | Some e, c => Some (join e "close transaction connection: %w" c)
  | None, Some c => Some (Errorf "close transaction connection: %w" [c])
  | None, None => None
  end.

Definition again_or (e : gerr) (otherwise : gerr) {A} : turn (result A) :=
  if isBusyError (Some e) then Again e else Done (Err otherwise).

(** One turn of [ExecInImmediateTxWithRetry]. *)
Definition immediate_turn {St A} (a : attempt) (fn : sq St A) (p : pool St) : turn (result A) * pool St :=
  match conn_fault a with
  | Some e => (Done (Err (Errorf "sqliteutil: acquire transaction connection: %w" [e])), p)
  | None =>
  match begin_error a p with
  | Some e =>
      let err := join e "close transaction connection: %w" (close_error (bad_conn (Some e))) in
      (again_or err (Errorf "sqliteutil: begin immediate transaction: %w" [err]), p)
  | None =>
  match fn (answers a) 0%nat (committed p) with
  | (Err e, n, view) =>
      let gone := lost (stmt_fault a) n in
      let rollback := if gone then Some ErrConnDone else rollback_fault a in
      let done := gone || bad_conn rollback in
      let err := join (join e "rollback transaction: %w" rollback)
                      "close transaction connection: %w" (close_error done) in
      (again_or err err, match rollback with Some _ => put_back a done view p | None => p end)
  | (Ok r, n, view) =>
      let gone := lost (stmt_fault a) n in
      let commit := if gone then Some ErrConnDone else commit_fault a in
      let done := gone || bad_conn commit in
      let p' := match commit with Some _ => put_back a done view p | None => Build_pool view None end in
      match commit_error commit (close_error done) with
      | None => (Done (Ok r), p')
      | Some err => (again_or err (Errorf "sqliteutil: commit immediate transaction: %w" [err]), p')
      end
  end end end.

(** [ExecInImmediateTxWithRetry] on a pool; the function of turn [i] may read clocks of
    its own. *)
Definition immediate_on {St A} (c : DBConfig) (now : nat -> Z) (attempts : nat -> attempt)
    (fn : nat -> sq St A) (p : pool St) : result A * pool St * list Z :=
  retry c now (fun i => immediate_turn (attempts i) (fn i))
    (fun last => Err (exhausted_with "sqliteutil: immediate transaction failed after %d retries: %w" last)) p.

(** The same on the committed state alone, where no connection was in a transaction
    before the call.  ([open_transaction_blocks]: where one was, the call fails.) *)
Definition ExecInImmediateTxWithRetry {St A} (c : DBConfig) (now : nat -> Z) (attempts : nat -> attempt)
    (fn : nat -> sq St A) (s : St) : result A * St * list Z :=
  let '(r, p, sleeps) := immediate_on c now attempts fn (Build_pool s None) in (r, committed p, sleeps).
End retries.
Arguments Done {A} a.
Arguments Again {A} e.
Arguments committed {St} p.
Arguments open_view {St} p.
Arguments Build_pool {St} committed open_view.

(** ** Runs of statements that succeed *)

Section runs.
Context {St A B : Type}.
Implicit Types (env : nat -> option gerr) (n : nat) (s : St).

Lemma sq_bind_ok (m : sq St A) (k : A -> sq St B) env n s b n' s' :
  sq_bind m k env n s = (Ok b, n', s') ->
  exists a n1 s1, m env n s = (Ok a, n1, s1) /\ k a env n1 s1 = (Ok b, n', s').
Proof.
  unfold sq_bind. destruct (m env n s) as [[[a|e] n1] s1]; intros H; [|done]. by exists a, n1, s1.
Qed.

Lemma sq_wrap_ok w (m : sq St A) env n s a n' s' :
  sq_wrap w m env n s = (Ok a, n', s') -> m env n s = (Ok a, n', s').
Proof. unfold sq_wrap. by destruct (m env n s) as [[[b|e] n1] s1]. Qed.

Lemma stmt_ok (f : St -> result A * St) env n s a n' s' :
  stmt f env n s = (Ok a, n', s') -> f s = (Ok a, s').
Proof. unfold stmt. destruct (env n); [done|]. destruct (f s) as [r s1]. by intros [= -> _ ->]. Qed.

Lemma query_ok (f : St -> A) env n s a n' s' :
  query f env n s = (Ok a, n', s') -> a = f s /\ s' = s.
Proof. intros H%stmt_ok. by injection H as <- <-. Qed.

Lemma sq_lift_ok (r : result A) env n s a n' s' :
  sq_lift r env n s = (Ok a, n', s') -> r = Ok a /\ s' = s.
Proof. unfold sq_lift. by intros [= -> _ ->]. Qed.

Lemma sq_ret_ok (v : A) env n s a n' s' :
  sq_ret v env n s = (Ok a, n', s') -> a = v /\ s' = s.
Proof. unfold sq_ret. by intros [= -> _ ->]. Qed.
End runs.

Lemma zoom_ok {S T A} (get : S -> T) (put : T -> S -> S) (m : sq T A) env n s a n' s' :
  zoom get put m env n s = (Ok a, n', s') -> exists t, m env n (get s) = (Ok a, n', t) /\ s' = put t s.
Proof. unfold zoom. destruct (m env n (get s)) as [[r n1] t]. intros [= -> -> <-]. by exists t. Qed.

(** Takes a successful run apart, statement by statement. *)
Ltac sq_inv :=
  repeat match goal with
  | H : sq_bind _ _ _ _ _ = (Ok _, _, _) |- _ =>
      let a := fresh "v" in let m := fresh "m" in let st := fresh "st" in let H1 := fresh "Hrun" in
      apply sq_bind_ok in H as (a & m & st & H1 & H)
  | H : sq_wrap _ _ _ _ _ = (Ok _, _, _) |- _ => apply sq_wrap_ok in H
  | H : zoom _ _ _ _ _ _ = (Ok _, _, _) |- _ =>
      let t := fresh "t" in let Hs := fresh "Hs" in apply zoom_ok in H as (t & H & Hs)
  | H : query _ _ _ _ = (Ok _, _, _) |- _ => apply query_ok in H as [? ?]; subst
  | H : stmt _ _ _ _ = (Ok _, _, _) |- _ => apply stmt_ok in H
  | H : sq_lift _ _ _ _ = (Ok _, _, _) |- _ => apply sq_lift_ok in H as [? ?]; subst
  | H : sq_ret _ _ _ _ = (Ok _, _, _) |- _ => apply sq_ret_ok in H as [? ?]; subst
  | H : sq_err _ _ _ _ = (Ok _, _, _) |- _ => discriminate H
  end.

(** ** The text search *)

Lemma substring_at a b t : String.substring (String.length a) (String.length t) (a +:+ t +:+ b) = t.
Proof.
  induction a as [|c a IH]; simpl; [|exact IH].
  induction t as [|c t IH]; simpl; [by destruct b|by rewrite IH].
Qed.

Lemma substring_split s i n :
  (i + n <= String.length s)%nat ->
  exists a b, s = a +:+ String.substring i n s +:+ b /\ String.length a = i.
Proof.
  revert i n. induction s as [|c s IH]; intros i n H; simpl in H.
  - assert (i = 0 /\ n = 0)%nat as [-> ->] by lia. by exists "", "".
  - destruct i as [|i].
    + destruct n as [|n].
      * by exists "", (String c s).
      * destruct (IH 0%nat n ltac:(lia)) as (a & b & Hs & Ha). destruct a; [|done].
        exists "", b. split; [|done]. simpl in *. by rewrite <- Hs.
    + destruct (IH i n ltac:(lia)) as (a & b & Hs & Ha).
      exists (String c a), b. simpl. rewrite <- Hs, Ha. by split.
Qed.

Lemma findSubstring_iff s t :
  (String.length t <= String.length s)%nat ->
  findSubstring s t = true <-> exists a b, s = a +:+ t +:+ b.
Proof.
  intros Hl. unfold findSubstring. rewrite existsb_exists. unfold slice_at. split.
  - intros (i & Hi & He). apply in_seq in Hi. apply String.eqb_eq in He.
    destruct (substring_split s i (String.length t) ltac:(lia)) as (a & b & Hs & _).
    rewrite He in Hs. by exists a, b.
  - intros (a & b & ->). exists (String.length a). split.
    + apply in_seq. rewrite !string_app_length. lia.
    + by rewrite substring_at, String.eqb_refl.
Qed.

(** The hand-written search is the library's: [contains] of this package finds a
    text exactly when [strings.Contains] does, on every pair of texts, the empty and
    the equal ones included. *)
Theorem contains_text_equiv s t : contains_text s t = contains t s.
Proof.
  apply eq_true_iff_eq. rewrite contains_iff. unfold contains_text.
  rewrite andb_true_iff, orb_true_iff, andb_true_iff, Nat.leb_le, Nat.ltb_lt, String.eqb_eq. split.
  - intros (Hl & [-> | [_ H]]).
    + exists "", "". simpl. by rewrite string_app_nil_r.
    + by apply findSubstring_iff in H.
  - intros (a & b & Hs). assert (Hl : (String.length t <= String.length s)%nat).
    { rewrite Hs, !string_app_length. lia. }
    split; [done|]. destruct (decide (String.length t = String.length s)) as [He|He].
    + left. rewrite Hs, !string_app_length in He. destruct a, b; simpl in *; try lia.
      by rewrite Hs, string_app_nil_r.
    + right. split; [lia|]. apply findSubstring_iff; [done|]. by exists a, b.
Qed.

(** ** Bounds on the sleeps *)

Definition jitter_ok (delay : Z) : bool :=
  forallb (fun r => let j := jitter delay (Z.of_nat r) in (0 <=? j)%Z && (4 * j <=? delay)%Z) (seq 0 1000).

Lemma jitter_rem delay now : (0 <= now)%Z -> jitter delay now = jitter delay (Z.rem now 1000).
Proof.
  intros H. unfold jitter. rewrite !Z.rem_mod_nonneg by (try apply Z.mod_pos_bound; lia).
  by rewrite Z.mod_mod.
Qed.

Lemma jitter_bounds delay now :
  jitter_ok delay = true -> (0 <= now)%Z -> (0 <= jitter delay now /\ 4 * jitter delay now <= delay)%Z.
Proof.
  intros Hok Hn. rewrite jitter_rem by done. rewrite Z.rem_mod_nonneg by lia.
  pose proof (Z.mod_pos_bound now 1000 ltac:(lia)) as Hb.
  unfold jitter_ok in Hok. rewrite forallb_forall in Hok.
  specialize (Hok (Z.to_nat (now mod 1000))). rewrite Z2Nat.id in Hok by lia.
  assert (Hin : In (Z.to_nat (now mod 1000)) (seq 0 1000)) by (apply in_seq; lia).
  apply Hok in Hin. apply andb_true_iff in Hin as [H1 H2].
  apply Z.leb_le in H1, H2. lia.
Qed.

Definition default_delay (attempt : nat) : Z := (50000000 * 2 ^ Z.of_nat attempt)%Z.

Lemma default_delays_checked :
  forallb (fun a => (exponentialDelay DefaultDBConfig a =? default_delay a)%Z && jitter_ok (default_delay a)) (seq 0 10) = true.
Proof. vm_compute. reflexivity. Qed.

Lemma backoff_default attempt now :
  (attempt < 10)%nat -> (0 <= now)%Z ->
  (default_delay attempt <= backoff DefaultDBConfig attempt now)%Z /\
  (4 * backoff DefaultDBConfig attempt now <= 5 * default_delay attempt)%Z.
Proof.
  intros Ha Hn. pose proof default_delays_checked as H. rewrite forallb_forall in H.
  specialize (H attempt ltac:(apply in_seq; lia)). apply andb_true_iff in H as [He Hj].
  apply Z.eqb_eq in He. unfold backoff. rewrite He. pose proof (jitter_bounds _ now Hj Hn) as Hb.
  assert (Hd : (0 < default_delay attempt <= 50000000 * 2 ^ 9)%Z).
  { unfold default_delay. split; [lia|]. apply Z.mul_le_mono_nonneg_l; [lia|]. apply Z.pow_le_mono_r; lia. }
  unfold wrap64. rewrite Z.mod_small by lia. lia.
Qed.

Fixpoint sum (l : list Z) : Z := match l with [] => 0 | z :: l => (z + sum l)%Z end.

Lemma retry_sleeps {St A} now step (exhausted : option gerr -> A) turns i last (s : St) :
  (forall i, 0 <= now i)%Z -> (i + turns <= 10)%nat ->
  (4 * sum (retry_from DefaultDBConfig now step exhausted turns i last s).2 <=
   5 * (default_delay (i + turns) - default_delay i))%Z /\
  (List.length (retry_from DefaultDBConfig now step exhausted turns i last s).2 <= turns)%nat.
Proof.
  intros Hn. revert i last s. induction turns as [|turns IH]; intros i last s Hi; simpl.
  - rewrite Nat.add_0_r. lia.
  - assert (Hm : (default_delay i <= default_delay (i + S turns))%Z).
    { unfold default_delay. apply Z.mul_le_mono_nonneg_l; [lia|]. apply Z.pow_le_mono_r; lia. }
    destruct (step i s) as [[a|e] s1]; [simpl; lia|].
    specialize (IH (S i) (Some e) s1 ltac:(lia)).
    destruct (retry_from _ _ _ _ turns (S i) (Some e) s1) as [[a s2] sleeps]. simpl in *.
    destruct (backoff_default i (now i) ltac:(lia) (Hn i)) as [_ Hb].
    replace (S (i + turns)) with (i + S turns)%nat in IH by lia.
    assert (Hd : default_delay (S i) = (2 * default_delay i)%Z).
    { unfold default_delay. rewrite Nat2Z.inj_succ, Z.pow_succ_r by lia. lia. }
    lia.
Qed.

(** Every retry loop ends: under the default configuration it makes at most ten
    turns and sleeps less than sixty-four seconds in all, whatever the clock reads
    and however often the database is busy. *)
Theorem retry_bounded {St A} now step (exhausted : option gerr -> A) (s : St) :
  (forall i, 0 <= now i)%Z ->
  (sum (retry DefaultDBConfig now step exhausted s).2 <= 63937500000)%Z /\
  (List.length (retry DefaultDBConfig now step exhausted s).2 <= 10)%nat.
Proof.
  intros Hn. unfold retry. change (Z.to_nat (MaxRetries DefaultDBConfig)) with 10%nat.
  destruct (retry_sleeps now step exhausted 10 0 None s Hn ltac:(lia)) as [H1 H2].
  split; [|done]. change (default_delay (0 + 10)) with 51200000000%Z in H1.
  change (default_delay 0) with 50000000%Z in H1. lia.
Qed.

(** ** Atomicity *)

Section atomic.
Context (err_text : gerr -> string).
Context {St A : Type}.

(** A loop whose turns leave what [view] sees of the state alone unless they end it. *)
Lemma retry_from_spec {T V B} c now (step : nat -> T -> turn B * T) exhausted (view : T -> V) turns i last s :
  (forall j e s s', step j s = (Again e, s') -> view s' = view s) ->
  let '(a, s', _) := retry_from c now step exhausted turns i last s in
  (exists j s0, (i <= j < i + turns)%nat /\ view s0 = view s /\ step j s0 = (Done a, s')) \/
  (view s' = view s /\ exists last', a = exhausted last').
Proof.
  intros Hstep. revert i last s. induction turns as [|turns IH]; intros i last s; simpl.
  - right. split; [done|]. by exists last.
  - destruct (step i s) as [[a|e] s1] eqn:Hs.
    + left. exists i, s. split_and!; [lia|lia|done|done].
    + apply Hstep in Hs. specialize (IH (S i) (Some e) s1).
      destruct (retry_from c now step exhausted turns (S i) (Some e) s1) as [[a s2] sleeps]. rewrite <- Hs.
      destruct IH as [(j & s0 & Hj & Hd)|H]; [|by right]. left. exists j, s0. split; [lia|done].
Qed.

(** A loop that finds the database busy in its first turns and ends in turn [j]. *)
Lemma retry_from_reaches {T B} c now (step : nat -> T -> turn B * T) exhausted turns i last s j a s' :
  (i <= j < i + turns)%nat -> (forall k, (i <= k < j)%nat -> exists e, step k s = (Again e, s)) ->
  step j s = (Done a, s') ->
  (retry_from c now step exhausted turns i last s).1 = (a, s').
Proof.
  revert i last. induction turns as [|turns IH]; intros i last Hj Hbusy Hd; [lia|]. simpl.
  destruct (decide (i = j)) as [->|Hij]; [by rewrite Hd|].
  destruct (Hbusy i ltac:(lia)) as [e ->].
  specialize (IH (S i) (Some e) ltac:(lia) ltac:(intros k Hk; apply Hbusy; lia) Hd).
  by destruct (retry_from c now step exhausted turns (S i) (Some e) s) as [[? ?] ?].
Qed.

Lemma with_retry_cases text c now fault (f : St -> result A * St) s :
  match (with_retry err_text text c now fault f s).1 with
  | (Ok a, s') => f s = (Ok a, s')
  | (Err _, s') => s' = s
  end.
Proof.
  unfold with_retry, retry. set (step := fun i s => _).
  pose proof (retry_from_spec c now step (fun last => Err (exhausted_with text last)) id (Z.to_nat (MaxRetries c)) 0 None s) as H.
  destruct (retry_from _ _ _ _ _ _ _ _) as [[r s'] sleeps]. cbn [fst].
  assert (Hstep : forall j, match step j s with
    | (Done (Ok a), s1) => f s = (Ok a, s1) | (_, s1) => s1 = s end).
  { intros j. unfold step. repeat (case_match; simplify_eq; try done). }
  unfold id in H. destruct H as [(j & s0 & _ & -> & Hd)|(-> & last & ->)]; [| |done].
  - intros j e s1 s2 Hs. unfold step in Hs. repeat (case_match; simplify_eq; try done).
  - specialize (Hstep j). rewrite Hd in Hstep. by destruct r.
Qed.

(** A turn commits what one run of the function made, or keeps the committed state. *)
Lemma immediate_turn_cases a (fn : sq St A) p :
  match immediate_turn err_text a fn p with
  | (Done (Ok r), p') =>
      open_view p = None /\ open_view p' = None /\ exists n, fn (answers a) 0%nat (committed p) = (Ok r, n, committed p')
  | (_, p') => committed p' = committed p
  end.
Proof.
  unfold immediate_turn, commit_error, again_or, put_back, close_error.
  destruct (conn_fault a); [done|]. destruct (begin_error a p) eqn:Hb; [by destruct (isBusyError _ _)|].
  assert (Hop : open_view p = None).
  { unfold begin_error in Hb. destruct (open_view p); [|done]. by destruct (same_conn a), (begin_fault a). }
  destruct (fn _ _ _) as [[[r|e] n] view] eqn:Hfn.
  2:{ repeat (case_match; simplify_eq; try done). }
  destruct (lost _ n) eqn:Hl, (commit_fault a) as [e|].
  1-3: repeat (case_match; simplify_eq; try done).
  cbn. split_and!; [done|done|]. by exists n.
Qed.

Lemma immediate_on_cases c now attempts (fn : nat -> sq St A) p :
  let '(r, p', _) := immediate_on err_text c now attempts fn p in
  match r with
  | Ok a => open_view p' = None /\
      exists i n, (i < Z.to_nat (MaxRetries c))%nat /\ fn i (answers (attempts i)) 0%nat (committed p) = (Ok a, n, committed p')
  | Err _ => committed p' = committed p
  end.
Proof.
  unfold immediate_on, retry.
  pose proof (retry_from_spec c now (fun i => immediate_turn err_text (attempts i) (fn i))
    (fun last => Err (exhausted_with "sqliteutil: immediate transaction failed after %d retries: %w" last)) committed
    (Z.to_nat (MaxRetries c)) 0 None p) as H.
  destruct (retry_from _ _ _ _ _ _ _ _) as [[r p'] sleeps].
  destruct H as [(j & p0 & Hj & Hp0 & Hd)|(Hp & last & ->)]; [| |done].
  - intros j e p1 p2 Hs. pose proof (immediate_turn_cases (attempts j) (fn j) p1) as Ht. by rewrite Hs in Ht.
  - pose proof (immediate_turn_cases (attempts j) (fn j) p0) as Ht. rewrite Hd, Hp0 in Ht.
    destruct r; [|done]. destruct Ht as (_ & Ho & n & Hn). split; [done|]. exists j, n. split; [lia|done].
Qed.

Lemma immediate_cases c now attempts (fn : nat -> sq St A) s :
  let '(r, s', _) := ExecInImmediateTxWithRetry err_text c now attempts fn s in
  match r with
  | Ok a => exists i n, (i < Z.to_nat (MaxRetries c))%nat /\ fn i (answers (attempts i)) 0%nat s = (Ok a, n, s')
  | Err _ => s' = s
  end.
Proof.
  unfold ExecInImmediateTxWithRetry. pose proof (immediate_on_cases c now attempts fn (Build_pool s None)) as H.
  destruct (immediate_on _ _ _ _ _ _) as [[[a|e] p] sleeps]; cbn in *; [|done]. by destruct H.
Qed.

(** C38: A transaction is atomic under retries, whatever the driver answers: when it
    succeeds, the committed state is what one single run of the function made of the
    state the call found, whatever was retried before, and no connection of the pool is
    in a transaction; when it fails, the committed state is as the call found it, though
    a connection may be left in its transaction.  (The context does not end while the
    COMMIT runs: the callers pass the background context.) *)
Theorem immediate_atomic c now attempts (fn : nat -> sq St A) p :
  let '(r, p', _) := immediate_on err_text c now attempts fn p in
  match r with
  | Ok a => open_view p' = None /\
      exists i n, (i < Z.to_nat (MaxRetries c))%nat /\ fn i (answers (attempts i)) 0%nat (committed p) = (Ok a, n, committed p')
  | Err _ => committed p' = committed p
  end.
Proof. apply immediate_on_cases. Qed.

(** A connection that was put back in a transaction blocks the database: as long as it
    stays, every transaction fails, in every turn and on every connection. *)
Theorem open_transaction_blocks c now attempts (fn : nat -> sq St A) p view :
  open_view p = Some view ->
  let '(r, p', _) := immediate_on err_text c now attempts fn p in (exists e, r = Err e) /\ p' = p.
Proof.
  intros Ho. unfold immediate_on, retry. generalize (Z.to_nat (MaxRetries c)) at 1 as turns. intros turns.
  generalize 0%nat as i, (@None gerr) as last. induction turns as [|turns IH]; intros i last; cbn [retry_from]; [by eauto|].
  assert (Ht : exists r, immediate_turn err_text (attempts i) (fn i) p = (r, p) /\ forall a, r = Done a -> exists e, a = Err e).
  { unfold immediate_turn, begin_error, again_or. rewrite Ho. destruct (conn_fault _); [by eexists; split; [done|]; intros ? [= <-]; eauto|].
    destruct (if same_conn _ then _ else _) as [e|] eqn:He; [|repeat case_match; discriminate].
    destruct (isBusyError _ _); eexists; (split; [done|]); [done|]. intros ? [= <-]. eauto. }
  destruct Ht as (r & -> & Hr). destruct r as [a|e]; [by destruct (Hr a eq_refl) as [e ->]; eauto|].
  specialize (IH (S i) (Some e)). destruct (retry_from _ _ _ _ turns _ _ _) as [[r p'] sleeps]. exact IH.
Qed.

Lemma lost_never n : lost (fun _ => None) n = false.
Proof. unfold lost. induction (seq 0 n); [done|exact IHl]. Qed.

Lemma answers_quiet n : answers quiet_attempt n = None.
Proof. unfold answers. cbn [stmt_fault quiet_attempt]. by rewrite lost_never. Qed.

Lemma immediate_turn_quiet (fn : sq St A) s r n s' :
  fn (answers quiet_attempt) 0%nat s = (Ok r, n, s') ->
  immediate_turn err_text quiet_attempt fn (Build_pool s None) = (Done (Ok r), Build_pool s' None).
Proof.
  intros H. unfold immediate_turn, begin_error. cbn [conn_fault begin_fault open_view committed quiet_attempt].
  rewrite H. cbn [stmt_fault commit_fault]. by rewrite lost_never.
Qed.

Lemma immediate_reaches c now attempts (fn : nat -> sq St A) s j a n s' :
  (j < Z.to_nat (MaxRetries c))%nat ->
  (forall i, (i < j)%nat -> exists e, immediate_turn err_text (attempts i) (fn i) (Build_pool s None) = (Again e, Build_pool s None)) ->
  attempts j = quiet_attempt -> fn j (answers quiet_attempt) 0%nat s = (Ok a, n, s') ->
  (ExecInImmediateTxWithRetry err_text c now attempts fn s).1 = (Ok a, s').
Proof.
  intros Hj Hbusy Hq Hf. unfold ExecInImmediateTxWithRetry.
  pose proof (retry_from_reaches c now (fun i => immediate_turn err_text (attempts i) (fn i))
    (fun last => Err (exhausted_with "sqliteutil: immediate transaction failed after %d retries: %w" last))
    (Z.to_nat (MaxRetries c)) 0 None (Build_pool s None) j (Ok a) (Build_pool s' None)) as H.
  unfold immediate_on, retry. destruct (retry_from _ _ _ _ _ _ _ _) as [[r p] sleeps]. cbn [fst] in *.
  assert (E : (r, p) = (Ok a, Build_pool s' None)).
  { apply H; [lia|intros k [_ Hk]; by apply Hbusy|]. rewrite Hq. by eapply immediate_turn_quiet. }
  by injection E as -> ->.
Qed.

Lemma immediate_first c now attempts (fn : nat -> sq St A) s a n s' :
  (0 < MaxRetries c)%Z -> attempts 0%nat = quiet_attempt -> fn 0%nat (answers quiet_attempt) 0%nat s = (Ok a, n, s') ->
  (ExecInImmediateTxWithRetry err_text c now attempts fn s).1 = (Ok a, s').
Proof. intros Hm Hq Hf. eapply (immediate_reaches _ _ _ _ _ 0%nat); [lia|intros; lia|done..]. Qed.

(** A busy database is waited for: when the write lock is refused with a busy
    error in the first turns and then granted, within the configured number of
    turns, the transaction commits. *)
Theorem immediate_progress c now attempts (fn : nat -> sq St A) s j a n s' :
  (j < Z.to_nat (MaxRetries c))%nat ->
  (forall i, (i < j)%nat -> exists e, conn_fault (attempts i) = None /\ begin_fault (attempts i) = Some e /\
     bad_conn (Some e) = false /\ isBusyError err_text (Some e) = true) ->
  attempts j = quiet_attempt -> fn j (answers quiet_attempt) 0%nat s = (Ok a, n, s') ->
  (ExecInImmediateTxWithRetry err_text c now attempts fn s).1 = (Ok a, s').
Proof.
  intros Hj Hbusy Hq Hfn. eapply immediate_reaches; [exact Hj| |done..].
  intros i Hi. destruct (Hbusy i Hi) as (e & Hc & Hb & Hbad & Hbusy'). exists e.
  unfold immediate_turn, begin_error, again_or. rewrite Hc. cbn [open_view]. rewrite Hb, Hbad. cbn [close_error join]. by rewrite Hbusy'.
Qed.
End atomic.

(** ** Concrete runs *)

Definition ex_text (e : gerr) : string := match e with Sentinel n => n | Extern t => t | Errorf t _ => t end.

Definition ex_busy : attempt := {|
  conn_fault := None; begin_fault := Some (Extern "database is locked (5) (SQLITE_BUSY)");
  stmt_fault := fun _ => None; rollback_fault := None; commit_fault := None; stays_open := false; same_conn := false |}.

(** A counter that is read and written back, one higher. *)
Definition ex_increment (i : nat) : sq nat nat :=
  (let$ n := query (fun n => n) in let$ _ := stmt (fun _ => (Ok tt, S n)) in sq_ret n)%sq.

Definition ex_attempts (i : nat) : attempt := if (i <? 3)%nat then ex_busy else quiet_attempt.

Lemma retry_bounded_witness :
  (sum (retry DefaultDBConfig (fun _ => 999%Z) (fun _ s => (Again (Extern "busy"), s)) (fun _ => tt) 7%nat).2 <= 63937500000)%Z /\
  (List.length (retry DefaultDBConfig (fun _ => 999%Z) (fun _ s => (Again (Extern "busy"), s)) (fun _ => tt) 7%nat).2 <= 10)%nat.
Proof. apply (retry_bounded (fun _ => 999%Z) (fun _ s => (Again (Extern "busy"), s)) (fun _ => tt) 7%nat). intros i. lia. Defined.

(** A COMMIT that finds the database busy is not rolled back: its connection goes back
    into the pool in its transaction, the next turn gets it, fails at BEGIN and is not
    retried. *)
Definition ex_commit_busy (i : nat) : attempt := {|
  conn_fault := None; begin_fault := None; stmt_fault := fun _ => None; rollback_fault := None;
  commit_fault := Some (Extern "database is locked (5) (SQLITE_BUSY)"); stays_open := true; same_conn := true |}.

Example busy_commit_is_not_retried :
  (immediate_on ex_text DefaultDBConfig (fun _ => 0%Z) ex_commit_busy ex_increment (Build_pool 7%nat None)).1 =
    (Err (Errorf "sqliteutil: begin immediate transaction: %w"
            [Extern "SQL logic error: cannot start a transaction within a transaction (1)"]), Build_pool 7%nat (Some 8%nat)).
Proof. vm_compute. reflexivity. Qed.

Lemma open_transaction_blocks_witness :
  let '(r, p', _) := immediate_on ex_text DefaultDBConfig (fun _ => 0%Z) (fun _ => quiet_attempt) ex_increment (Build_pool 7%nat (Some 8%nat)) in
  (exists e, r = Err e) /\ p' = Build_pool 7%nat (Some 8%nat).
Proof.
  apply (open_transaction_blocks ex_text DefaultDBConfig (fun _ => 0%Z) (fun _ => quiet_attempt) ex_increment
           (Build_pool 7%nat (Some 8%nat)) 8%nat).
  reflexivity.
Defined.

Lemma immediate_progress_witness :
  (ExecInImmediateTxWithRetry ex_text DefaultDBConfig (fun _ => 0%Z) ex_attempts ex_increment 7%nat).1 = (Ok 7%nat, 8%nat).
Proof.
  apply (immediate_progress ex_text DefaultDBConfig (fun _ => 0%Z) ex_attempts ex_increment 7%nat 3%nat 7%nat 2%nat 8%nat).
  - vm_compute. lia.
  - intros i Hi. exists (Extern "database is locked (5) (SQLITE_BUSY)"). unfold ex_attempts.
    rewrite (proj2 (Nat.ltb_lt i 3)) by done. split_and!; [reflexivity..|vm_compute; reflexivity].
  - reflexivity.
  - reflexivity.
Defined.
