(* ===== verification/L2Consensus.v ===== *)
(** L2: machine consensus
    ([src/internal/services/governance/l2_consensus.go], [signer_store.go], and
    the policy rules of [src/internal/services/gateway/consensus_store_service.go]).

    The Warden sees two stores through interfaces: one gives the public key of a
    trusted signer, the other the policy of a consensus set.  A store is a
    function, its answers during one verification; a store that is not configured
    (a nil interface) is [None]. *)
From S2P Require Import Prelude Errors Constants Encoding Envelope Posture Crypto.
From Stdlib Require Import String List ZArith Lia Bool.
From stdpp Require Import base strings list gmap.
Open Scope string_scope.

Record L2ConsensusPolicy := {
  MemberKeyIDs : list string;
  Quorum : Z;
  RequireDistinct : bool;
  PolicyEnabled : bool
}.

(** [GetTrustedSigner keyID]: an error, no key ([Ok None]) or a key. *)
Definition SignerStore := string -> result (option string).

(** [GetConsensusPolicy id]: an error, no policy or a policy. *)
Definition L2ConsensusPolicyStore := string -> result (option L2ConsensusPolicy).

Definition NoopConsensusPolicyStore : L2ConsensusPolicyStore := fun _ => Ok None.

(** [FailClosedSignerStore.GetTrustedSigner] and
    [FilesystemSignerStore.GetTrustedSigner]: a nil map and a missing key give no
    key and no error. *)
Definition map_signer_store (signers : option (gmap string string)) : SignerStore :=
  fun keyID =>
    match signers with
    | None => Ok None
    | Some m => match m !! keyID with None => Ok None | Some pubKey => Ok (Some pubKey) end
    end.

(** A directory entry as [NewFilesystemSignerStore] reads it. *)
Record DirEntry := { IsDir : bool; EntryName : string; Content : result string }.

Definition has_suffix (suf s : string) : bool :=
  let n := String.length s in let k := String.length suf in
  (k <=? n)%nat && String.eqb (String.substring (n - k) k s) suf.

Definition trim_suffix (suf s : string) : string :=
  if has_suffix suf s then String.substring 0 (String.length s - String.length suf) s else s.

(** One entry of the loading loop: every failure skips the entry. *)
Definition load_signer (signers : gmap string string) (entry : DirEntry) : gmap string string :=
  if IsDir entry || negb (has_suffix ".pub" (EntryName entry)) then signers
  else match Content entry with
  | Err _ => signers
  | Ok data =>
      match hex_decode (trim_space data) with
      | None => signers
      | Some pubKeyBytes =>
          if negb (Nat.eqb (String.length pubKeyBytes) PublicKeySize) then signers
          else <[trim_suffix ".pub" (EntryName entry) := pubKeyBytes]> signers
      end
  end.

(** [NewFilesystemSignerStore] on the listing of the directory. *)
Definition NewFilesystemSignerStore (relDir : string) (readDir : result (list DirEntry))
    : result SignerStore :=
  if String.eqb relDir "" then
    Err (Errorf "trusted signers: %w" [Sentinel "ErrMissingRequiredField"])
  else
    let? entries := wrap_err "failed to read trusted signers directory %s: %w" readDir in
    Ok (map_signer_store (Some (fold_left load_signer entries ∅))).

Section l2.
Context `{E : Ed25519}.

(** [verifyL2Signature]. *)
Definition verifyL2Signature (pubKey signature messageID : string) (decision : bool) : bool :=
  if String.eqb signature "" || String.eqb signature "UNSIGNED" then false
  else match hex_decode signature with
  | None => false
  | Some sigBytes => ed_verify pubKey (messageID +:+ "|" +:+ sprintf_t decision) sigBytes
  end.

(** Outcome of the vote loop: a duplicate signer under require_distinct, or the
    number of affirmative votes. *)
Inductive tally := DuplicateSigner | Affirmative (n : Z).

(** What the loop does with a vote of a member that has no counted vote yet:
    whether the vote is valid. *)
Definition vote_valid (signerStore : SignerStore) (computedHash : string) (vote : L2Vote) : bool :=
  match signerStore (SignerKeyId vote) with
  | Err _ => false
  | Ok None => false
  | Ok (Some pubKey) =>
      verifyL2Signature pubKey (ConsensusSignature vote) computedHash (VoteDecision vote)
  end.

(** The vote loop, [seen] being the signers already counted. *)
Fixpoint count_votes (policy : L2ConsensusPolicy) (signerStore : SignerStore)
    (computedHash : string) (votes : list L2Vote) (seen : gset string) (affirmative : Z) : tally :=
  match votes with
  | [] => Affirmative affirmative
  | vote :: votes =>
      if negb (mem (SignerKeyId vote) (MemberKeyIDs policy)) then
        count_votes policy signerStore computedHash votes seen affirmative
      else if bool_decide (SignerKeyId vote ∈ seen) then
        if RequireDistinct policy then DuplicateSigner
        else count_votes policy signerStore computedHash votes seen affirmative
      else if negb (vote_valid signerStore computedHash vote) then
        count_votes policy signerStore computedHash votes seen affirmative
      else
        count_votes policy signerStore computedHash votes ({[SignerKeyId vote]} ∪ seen)
          (if VoteDecision vote then affirmative + 1 else affirmative)%Z
  end.

Definition envelope_l2 (env : GovernanceEnvelope) : option L2Metadata :=
  match Governance env with
  | None => None
  | Some g => match L2 g with
              | None => None
              | Some l2 => match Votes l2 with [] => None | _ => Some l2 end
              end
  end.

(** [verifyL2Posture]: [gate e] is the early return that rejects with [e] when
    the posture requires L2 and the action is not exempt, and that otherwise
    records an unverified L2. *)
Definition verifyL2Posture (signerStore : option SignerStore)
    (consensusPolicyStore : option L2ConsensusPolicyStore) (envelope : GovernanceEnvelope)
    (computedHash : string) (posture : GovernancePosture) : result bool :=
  let bootstrapExempt := IsBootstrapAction (EnvActionType envelope) in
  let gate (e : gerr) : result bool :=
    if RequiresL2Signature posture && negb bootstrapExempt then Err e else Ok false in
  match envelope_l2 envelope with
  | None => gate (Sentinel "ErrTxL2SignatureMissing")
  | Some l2 =>
  match signerStore with
  | None => gate (Sentinel "ErrTxL2SignerStoreNotConfigured")
  | Some signers =>
  match consensusPolicyStore with
  | None => gate (Sentinel "ErrTxL2ConsensusNotConfigured")
  | Some policies =>
  match policies (ConsensusSetId l2) with
  | Err err => gate (Errorf "l4 warden: verify L2 posture: %w" [err])
  | Ok None => gate (Sentinel "ErrTxL2ConsensusNotConfigured")
  | Ok (Some policy) =>
      if negb (PolicyEnabled policy) then gate (Sentinel "ErrTxL2ConsensusNotConfigured")
      else match count_votes policy signers computedHash (Votes l2) ∅ 0 with
      | DuplicateSigner => gate (Sentinel "ErrTxL2DuplicateSigner")
      | Affirmative affirmative =>
          if (affirmative <? Quorum policy)%Z then gate (Sentinel "ErrTxL2QuorumNotMet")
          else Ok true
      end
  end end end end.

(** ** Properties *)

(** Key [k] is a member that affirmed [computedHash] with a signature that
    verifies under its trusted key. *)
Definition affirms (policy : L2ConsensusPolicy) (signers : SignerStore) (computedHash : string)
    (votes : list L2Vote) (k : string) : Prop :=
  k ∈ MemberKeyIDs policy /\
  exists vote pubKey sig,
    vote ∈ votes /\ SignerKeyId vote = k /\ VoteDecision vote = true /\
    signers k = Ok (Some pubKey) /\ hex_decode (ConsensusSignature vote) = Some sig /\
    ed_verify pubKey (computedHash +:+ "|true") sig = true.

Lemma vote_valid_spec signers h vote :
  vote_valid signers h vote = true ->
  exists pubKey sig,
    signers (SignerKeyId vote) = Ok (Some pubKey) /\
    hex_decode (ConsensusSignature vote) = Some sig /\
    ed_verify pubKey (h +:+ "|" +:+ sprintf_t (VoteDecision vote)) sig = true.
Proof.
  unfold vote_valid, verifyL2Signature. intros H.
  destruct (signers _) as [[pubKey|]|] eqn:Es; try done.
  destruct (_ || _); [done|]. destruct (hex_decode _) as [sig|] eqn:Eh; [|done].
  by exists pubKey, sig.
Qed.

Lemma affirms_mono policy signers h votes votes' k :
  votes ⊆ votes' -> affirms policy signers h votes k -> affirms policy signers h votes' k.
Proof. intros Hs (Hm & vote & pk & sig & Hv & H). split; [done|]. exists vote, pk, sig. auto. Qed.

(** The loop counts distinct members, each with a valid affirmative vote. *)
Lemma count_votes_sound policy signers h votes seen a n :
  count_votes policy signers h votes seen a = Affirmative n ->
  exists ks, NoDup ks /\ (forall k, k ∈ ks -> k ∉ seen) /\
    n = (a + Z.of_nat (List.length ks))%Z /\ Forall (affirms policy signers h votes) ks.
Proof.
  revert seen a. induction votes as [|vote votes IH]; intros seen a; simpl.
  { intros [= <-]. exists []. split_and!; [constructor | set_solver | simpl; lia | constructor]. }
  assert (Hweak : forall (seen' : gset string) a',
    (exists ks, NoDup ks /\ (forall k, k ∈ ks -> k ∉ seen') /\
       n = (a' + Z.of_nat (List.length ks))%Z /\ Forall (affirms policy signers h votes) ks) ->
    exists ks, NoDup ks /\ (forall k, k ∈ ks -> k ∉ seen') /\
       n = (a' + Z.of_nat (List.length ks))%Z /\ Forall (affirms policy signers h (vote :: votes)) ks).
  { intros seen' a' (ks & H1 & H2 & H3 & H4). exists ks. split_and!; try done.
    eapply Forall_impl; [exact H4|]. intros k. apply affirms_mono. set_solver. }
  destruct (mem _ _) eqn:Em; simpl; [|intros H; apply Hweak, IH, H].
  destruct (bool_decide _) eqn:Es.
  { destruct (RequireDistinct policy); [done|]. intros H. apply Hweak, IH, H. }
  destruct (vote_valid signers h vote) eqn:Ev; simpl; [|intros H; apply Hweak, IH, H].
  apply bool_decide_eq_false in Es. apply mem_true in Em.
  destruct (VoteDecision vote) eqn:Ed; intros H;
    destruct (Hweak _ _ (IH _ _ H)) as (ks & H1 & H2 & H3 & H4).
  - exists (SignerKeyId vote :: ks). split_and!.
    + apply NoDup_cons. split; [|done]. intros Hin. apply H2 in Hin. set_solver.
    + intros k [->|Hin]%elem_of_cons; [done|]. apply H2 in Hin. set_solver.
    + simpl. lia.
    + constructor; [|done]. destruct (vote_valid_spec _ _ _ Ev) as (pk & sig & Hk & Hx & Hy).
      rewrite Ed in Hy. split; [done|]. exists vote, pk, sig. split_and!; try done. set_solver.
  - exists ks. split_and!; try done. intros k Hin. apply H2 in Hin. set_solver.
Qed.

(** A vote the loop would count. *)
Definition counted (policy : L2ConsensusPolicy) (signers : SignerStore) (h : string) (vote : L2Vote) : bool :=
  mem (SignerKeyId vote) (MemberKeyIDs policy) && vote_valid signers h vote && VoteDecision vote.

(** When no signer votes twice, the loop is the count of its affirmative valid
    member votes. *)
Lemma count_votes_exact policy signers h votes seen a :
  NoDup (map SignerKeyId votes) -> (forall v, v ∈ votes -> SignerKeyId v ∉ seen) ->
  count_votes policy signers h votes seen a =
  Affirmative (a + Z.of_nat (List.length (List.filter (counted policy signers h) votes))).
Proof.
  revert seen a. induction votes as [|vote votes IH]; intros seen a Hnd Hs; simpl.
  { f_equal. lia. }
  inversion Hnd as [|? ? Hnew Hnd']; subst. unfold counted at 1.
  assert (Hs' : forall v, v ∈ votes -> SignerKeyId v ∉ seen) by set_solver.
  rewrite bool_decide_false by set_solver.
  destruct (mem _ _) eqn:Em; simpl; [|by rewrite IH].
  destruct (vote_valid signers h vote) eqn:Ev; simpl; [|by rewrite IH].
  rewrite IH; [|done|].
  - f_equal. destruct (VoteDecision vote); simpl List.length; lia.
  - intros v Hv Hin. apply elem_of_union in Hin as [Hin|Hin]; [|by eapply Hs'].
    apply elem_of_singleton in Hin. apply Hnew. rewrite <- Hin. by apply list_elem_of_fmap_2.
Qed.

(** L2 was achieved, whatever the posture. *)
Definition l2_achieved (signerStore : option SignerStore) (policyStore : option L2ConsensusPolicyStore)
    (env : GovernanceEnvelope) (h : string) : Prop :=
  exists l2 signers policies policy n,
    envelope_l2 env = Some l2 /\ signerStore = Some signers /\ policyStore = Some policies /\
    policies (ConsensusSetId l2) = Ok (Some policy) /\ PolicyEnabled policy = true /\
    count_votes policy signers h (Votes l2) ∅ 0 = Affirmative n /\ (Quorum policy <= n)%Z.

Lemma verifyL2Posture_true ss ps env h p :
  verifyL2Posture ss ps env h p = Ok true <-> l2_achieved ss ps env h.
Proof.
  unfold verifyL2Posture, l2_achieved. split.
  - intros H. set (g := RequiresL2Signature p && negb (IsBootstrapAction (EnvActionType env))) in *.
    assert (Hg : forall e, (if g then Err e else Ok false) <> Ok true) by (by destruct g).
    case_in H; try (by apply Hg in H).
    match goal with Hq : negb _ = false |- _ => apply negb_false_iff in Hq end.
    match goal with Hq : (_ <? _)%Z = false |- _ => apply Z.ltb_ge in Hq end.
    do 5 eexists. split_and!; eauto.
  - intros (l2 & signers & policies & policy & n & -> & -> & -> & -> & -> & -> & Hq).
    simpl. by apply Z.ltb_ge in Hq as ->.
Qed.

(** C7: Quorum soundness.  When [verifyL2Posture] reports L2 as verified, the
    envelope names an enabled policy of the configured store and at least
    [Quorum] pairwise distinct members of that policy each signed
    "<transaction hash>|true" with a signature that verifies under the trusted
    key of that member; duplicated, foreign, unsigned and negative votes never
    count. *)
Theorem verifyL2Posture_sound signerStore policyStore envelope computedHash posture :
  verifyL2Posture signerStore policyStore envelope computedHash posture = Ok true ->
  exists l2 signers policies policy ks,
    envelope_l2 envelope = Some l2 /\ signerStore = Some signers /\ policyStore = Some policies /\
    policies (ConsensusSetId l2) = Ok (Some policy) /\ PolicyEnabled policy = true /\
    NoDup ks /\ (Quorum policy <= Z.of_nat (List.length ks))%Z /\
    Forall (affirms policy signers computedHash (Votes l2)) ks.
Proof.
  intros (l2 & signers & policies & policy & n & H1 & H2 & H3 & H4 & H5 & Hc & Hq)%verifyL2Posture_true.
  destruct (count_votes_sound _ _ _ _ _ _ _ Hc) as (ks & Hnd & _ & -> & Hk).
  exists l2, signers, policies, policy, ks. split_and!; try done; lia.
Qed.

(** Exactness on distinct votes.  When no signer appears twice in the vote
    list, L2 is verified if and only if the affirmative votes of members with a
    valid signature reach the quorum: the order of the votes, foreign votes and
    invalid votes have no influence, and the result does not depend on the
    posture. *)
Theorem verifyL2Posture_exact signers policies envelope l2 policy computedHash posture :
  envelope_l2 envelope = Some l2 ->
  policies (ConsensusSetId l2) = Ok (Some policy) -> PolicyEnabled policy = true ->
  NoDup (map SignerKeyId (Votes l2)) ->
  verifyL2Posture (Some signers) (Some policies) envelope computedHash posture = Ok true <->
  (Quorum policy <= Z.of_nat (List.length (List.filter (counted policy signers computedHash) (Votes l2))))%Z.
Proof.
  intros Hl Hp He Hnd. rewrite verifyL2Posture_true. unfold l2_achieved.
  assert (Hc : count_votes policy signers computedHash (Votes l2) ∅ 0 =
    Affirmative (Z.of_nat (List.length (List.filter (counted policy signers computedHash) (Votes l2))))).
  { rewrite count_votes_exact by (done || set_solver). f_equal. }
  split.
  - intros (l2' & s' & p' & pol' & n & Hl' & [= <-] & [= <-] & Hp' & _ & Hc' & Hq).
    rewrite Hl in Hl'. injection Hl' as <-. rewrite Hp in Hp'. injection Hp' as <-.
    rewrite Hc in Hc'. by injection Hc' as <-.
  - intros Hq. do 5 eexists. split_and!; eauto.
Qed.

(** Fail closed, and audit otherwise.  If the posture requires L2 and the
    action is not a bootstrap action, L2 is either verified or the envelope is
    rejected with an L2 error; in every other case L2 never rejects, and the
    verdict is the one any posture would give.  A stricter posture accepts no
    more. *)
Theorem verifyL2Posture_gate signerStore policyStore envelope computedHash posture posture' :
  let r := verifyL2Posture signerStore policyStore envelope computedHash posture in
  let r' := verifyL2Posture signerStore policyStore envelope computedHash posture' in
  (RequiresL2Signature posture = true -> IsBootstrapAction (EnvActionType envelope) = false ->
     r = Ok true \/ exists e, r = Err e) /\
  (RequiresL2Signature posture = false \/ IsBootstrapAction (EnvActionType envelope) = true ->
     exists b, r = Ok b) /\
  (r = Ok true <-> r' = Ok true) /\
  (stricter posture posture' = true -> is_ok r = true -> is_ok r' = true).
Proof.
  cbv zeta. split_and!; [| | by rewrite !verifyL2Posture_true |].
  - intros Hr Hb. unfold verifyL2Posture. rewrite Hr, Hb. simpl. case_goal; eauto.
  - intros Hr. unfold verifyL2Posture.
    assert (Hg : RequiresL2Signature posture && negb (IsBootstrapAction (EnvActionType envelope)) = false)
      by (destruct Hr as [-> | ->]; [done | apply andb_false_r]).
    rewrite Hg. case_goal; eauto.
  - intros Hs. destruct (RequiresL2Signature posture') eqn:R'.
    + pose proof (stricter_L2 _ _ Hs R') as R. unfold verifyL2Posture. rewrite R, R'. done.
    + intros _. unfold verifyL2Posture. rewrite R'. simpl. by case_goal.
Qed.
End l2.

(** ** A concrete consensus set: three members, quorum two *)

#[local] Existing Instance toy_ed25519.

Definition member_keys : gmap string string :=
  {[ "m1" := ed_public "k1"; "m2" := ed_public "k2"; "m3" := ed_public "k3" ]}.

Definition ex_signers : SignerStore := map_signer_store (Some member_keys).

Definition ex_policy : L2ConsensusPolicy := {|
  MemberKeyIDs := ["m1"; "m2"; "m3"]; Quorum := 2; RequireDistinct := true; PolicyEnabled := true |}.

Definition ex_policies : L2ConsensusPolicyStore :=
  fun id => if String.eqb id "set-1" then Ok (Some ex_policy) else Ok None.

Definition ex_vote (id key h : string) (d : bool) : L2Vote := {|
  SignerKeyId := id; ConsensusSignature := hex_encode (ed_sign key (h +:+ "|" +:+ sprintf_t d));
  VoteDecision := d |}.

Definition ex_l2 (h : string) : L2Metadata := {|
  ConsensusSetId := "set-1";
  Votes := [ex_vote "m1" "k1" h true; ex_vote "m2" "k2" h false; ex_vote "m3" "k3" h true] |}.

(** [sample_env] with given proofs. *)
Definition with_governance (g : GovernanceMetadata) (e : GovernanceEnvelope) : GovernanceEnvelope := {|
  Id := Id e; SentAt := SentAt e; ExpiresAt := ExpiresAt e; SourceComponent := SourceComponent e;
  OperatorId := OperatorId e; OperatorSessionId := OperatorSessionId e; WebSessionId := WebSessionId e;
  CliSessionId := CliSessionId e; RequestorUserId := RequestorUserId e; ActingAppId := ActingAppId e;
  EnvEventType := EnvEventType e; Payload := Payload e; IntentData := IntentData e;
  EnvActionType := EnvActionType e; TargetResource := TargetResource e;
  StateMerkleRoot := StateMerkleRoot e; Nonce := Nonce e; TransactionHash := TransactionHash e;
  ProtocolVersion := ProtocolVersion e; Governance := Some g; CaseId := CaseId e;
  InvestigationId := InvestigationId e; TaskId := TaskId e;
  SystemFingerprint := SystemFingerprint e; TenantId := TenantId e;
  BindingPersona := BindingPersona e; Posture := Posture e |}.

Definition voted_env : GovernanceEnvelope :=
  with_governance {| L1 := None; L2 := Some (ex_l2 sample_hash); L3 := None |} sample_env.

Lemma verifyL2Posture_sound_witness :
  verifyL2Posture (Some ex_signers) (Some ex_policies) voted_env sample_hash NotaryPosture = Ok true /\
  exists l2 signers policies policy ks,
    envelope_l2 voted_env = Some l2 /\ Some ex_signers = Some signers /\ Some ex_policies = Some policies /\
    policies (ConsensusSetId l2) = Ok (Some policy) /\ PolicyEnabled policy = true /\
    NoDup ks /\ (Quorum policy <= Z.of_nat (List.length ks))%Z /\
    Forall (affirms policy signers sample_hash (Votes l2)) ks.
Proof.
  split; [vm_compute; reflexivity|].
  apply (verifyL2Posture_sound (Some ex_signers) (Some ex_policies) voted_env sample_hash NotaryPosture).
  vm_compute. reflexivity.
Defined.

Lemma verifyL2Posture_exact_witness :
  verifyL2Posture (Some ex_signers) (Some ex_policies) voted_env sample_hash DoctrinePosture = Ok true <->
  (2 <= Z.of_nat (List.length (List.filter (counted ex_policy ex_signers sample_hash)
     (Votes (ex_l2 sample_hash)))))%Z.
Proof.
  apply (verifyL2Posture_exact ex_signers ex_policies voted_env (ex_l2 sample_hash) ex_policy
           sample_hash DoctrinePosture); [reflexivity..|].
  apply (bool_decide_unpack _). vm_compute. exact I.
Defined.
