(* ===== verification/Suspended.v ===== *)
(** The store of transactions that wait for a human
    ([src/internal/services/storage/suspended_transaction_store.go],
    [src/internal/models/suspended.go]).

    The table is a finite map from the primary key (the transaction hash) to the
    row; timestamp columns hold the text [FormatTimestamp] writes and are compared
    as text, as SQLite does.  Every operation takes the clock readings it makes
    and a fault: [Some e] is a statement that SQLite refused (after its retries)
    with [e], which leaves the table as it was. *)
From S2P Require Import Prelude Errors Timestamp.
From Stdlib Require Import String List ZArith Lia Bool.
From stdpp Require Import base strings list gmap sorting.
Open Scope string_scope.

Record SuspendedTransaction := {
  txHash : string; txEnvelope : string; txCreatedAt : gotime; txExpiresAt : gotime;
  txToolName : string; txToolArguments : string; txUserID : string; txOperatorID : string;
  txSubmitterCLISessionID : string; txApproved : bool; txApprovedAt : option gotime;
  txApprovedBy : string; txApprovalSignature : string; txExpectedCertFingerprint : string;
  txApprovalPublicKey : string; txPasskeyCredentialID : string; txPasskeyClientDataJSON : string;
  txPasskeyAuthenticatorData : string; txPasskeySignature : string
}.

Record ApprovalProof := {
  apApprovedBy : string; apCliSignature : string; apCertFingerprint : string;
  apApprovalPublicKey : string; apCredentialID : string; apClientDataJSON : string;
  apAuthenticatorData : string; apSignature : string
}.

(** A row of suspended_transactions, its key apart. *)
Record suspended_row := {
  envelope : string; created_at : string; expires_at : string;
  tool_name : string; tool_arguments : string; user_id : string; operator_id : string;
  submitter_cli_session_id : string; approved : Z; approved_at : option string;
  approved_by : string; approval_signature : string; expected_cert_fingerprint : string;
  approval_public_key : string; passkey_credential_id : string; passkey_client_data_json : string;
  passkey_authenticator_data : string; passkey_signature : string
}.

Notation suspended_db := (gmap string suspended_row).

(** A text that does not parse gives the zero time. *)
Definition parse_or_zero (s : string) : gotime := default zero_time (parse_canonical s).

Definition not_initialized (action : string) : gerr :=
  Errorf ("suspended_transaction_store: " +:+ action +:+ ": store not initialized") [].

(** The values of the INSERT. *)
Definition row_of (tx : SuspendedTransaction) : suspended_row := {|
  envelope := txEnvelope tx; created_at := FormatTimestamp (txCreatedAt tx);
  expires_at := FormatTimestamp (txExpiresAt tx); tool_name := txToolName tx;
  tool_arguments := txToolArguments tx; user_id := txUserID tx; operator_id := txOperatorID tx;
  submitter_cli_session_id := txSubmitterCLISessionID tx;
  approved := if txApproved tx then 1%Z else 0%Z;
  approved_at := FormatTimestamp <$> txApprovedAt tx; approved_by := txApprovedBy tx;
  approval_signature := txApprovalSignature tx;
  expected_cert_fingerprint := txExpectedCertFingerprint tx;
  approval_public_key := txApprovalPublicKey tx; passkey_credential_id := txPasskeyCredentialID tx;
  passkey_client_data_json := txPasskeyClientDataJSON tx;
  passkey_authenticator_data := txPasskeyAuthenticatorData tx;
  passkey_signature := txPasskeySignature tx |}.

(** ON CONFLICT DO UPDATE: [old] keeps its creation time, tool, user, operator
    and submitter; everything else is replaced. *)
Definition upsert_row (old new : suspended_row) : suspended_row := {|
  envelope := envelope new; created_at := created_at old; expires_at := expires_at new;
  tool_name := tool_name old; tool_arguments := tool_arguments old; user_id := user_id old;
  operator_id := operator_id old; submitter_cli_session_id := submitter_cli_session_id old;
  approved := approved new; approved_at := approved_at new; approved_by := approved_by new;
  approval_signature := approval_signature new;
  expected_cert_fingerprint := expected_cert_fingerprint new;
  approval_public_key := approval_public_key new;
  passkey_credential_id := passkey_credential_id new;
  passkey_client_data_json := passkey_client_data_json new;
  passkey_authenticator_data := passkey_authenticator_data new;
  passkey_signature := passkey_signature new |}.

Definition StoreSuspendedTransaction (fault : option gerr) (tx : SuspendedTransaction)
    (db : suspended_db) : result unit * suspended_db :=
  match fault with
  | Some e => (Err (Errorf "suspended_transaction_store: store transaction: %w" [e]), db)
  | None =>
      let new := row_of tx in
      (Ok tt, <[txHash tx := match db !! txHash tx with
                             | None => new
                             | Some old => upsert_row old new
                             end]> db)
  end.

(** What [Scan] builds from a row. *)
Definition tx_of (hash : string) (r : suspended_row) : SuspendedTransaction := {|
  txHash := hash; txEnvelope := envelope r; txCreatedAt := parse_or_zero (created_at r);
  txExpiresAt := parse_or_zero (expires_at r); txToolName := tool_name r;
  txToolArguments := tool_arguments r; txUserID := user_id r; txOperatorID := operator_id r;
  txSubmitterCLISessionID := submitter_cli_session_id r; txApproved := (approved r =? 1)%Z;
  txApprovedAt := parse_or_zero <$> approved_at r; txApprovedBy := approved_by r;
  txApprovalSignature := approval_signature r;
  txExpectedCertFingerprint := expected_cert_fingerprint r;
  txApprovalPublicKey := approval_public_key r; txPasskeyCredentialID := passkey_credential_id r;
  txPasskeyClientDataJSON := passkey_client_data_json r;
  txPasskeyAuthenticatorData := passkey_authenticator_data r;
  txPasskeySignature := passkey_signature r |}.

(** The SQL condition [expires_at > now] on texts. *)
Definition live (now : gotime) (r : suspended_row) : bool :=
  String.ltb (FormatTimestamp now) (expires_at r).

(** The SQL condition [expires_at < now]. *)
Definition expired (now : gotime) (r : suspended_row) : bool :=
  String.ltb (expires_at r) (FormatTimestamp now).

Definition GetSuspendedTransaction (fault : option gerr) (now : gotime) (hash : string)
    (db : suspended_db) : result (option SuspendedTransaction) :=
  match fault with
  | Some e => Err (Errorf "suspended_transaction_store: get transaction: %w" [e])
  | None =>
      match db !! hash with
      | Some r => if live now r then Ok (Some (tx_of hash r)) else Ok None
      | None => Ok None
      end
  end.

(** ORDER BY created_at DESC; rows with equal keys come in the map's order. *)
Definition newer (a b : string * suspended_row) : Prop :=
  String.ltb (created_at a.2) (created_at b.2) = false.
#[export] Instance newer_dec a b : Decision (newer a b).
Proof. unfold newer. apply _. Defined.

(** ORDER BY expires_at ASC. *)
Definition sooner (a b : string * suspended_row) : Prop :=
  String.ltb (expires_at b.2) (expires_at a.2) = false.
#[export] Instance sooner_dec a b : Decision (sooner a b).
Proof. unfold sooner. apply _. Defined.

Definition ListSuspendedTransactions (fault : option gerr) (now : gotime) (userID : string)
    (db : suspended_db) : result (list SuspendedTransaction) :=
  match fault with
  | Some e => Err (Errorf "suspended_transaction_store: list transactions: %w" [e])
  | None =>
      let rows := List.filter (fun kr => live now kr.2 &&
                    (String.eqb userID "" || String.eqb (user_id kr.2) userID)) (map_to_list db) in
      Ok (map (fun kr => tx_of kr.1 kr.2) (merge_sort newer rows))
  end.

(** The SET list of the approval. *)
Definition approve_row (now : gotime) (proof : ApprovalProof) (r : suspended_row) : suspended_row := {|
  envelope := envelope r; created_at := created_at r; expires_at := expires_at r;
  tool_name := tool_name r; tool_arguments := tool_arguments r; user_id := user_id r;
  operator_id := operator_id r; submitter_cli_session_id := submitter_cli_session_id r;
  approved := 1%Z; approved_at := Some (FormatTimestamp now); approved_by := apApprovedBy proof;
  approval_signature := apCliSignature proof; expected_cert_fingerprint := apCertFingerprint proof;
  approval_public_key := apApprovalPublicKey proof; passkey_credential_id := apCredentialID proof;
  passkey_client_data_json := apClientDataJSON proof;
  passkey_authenticator_data := apAuthenticatorData proof; passkey_signature := apSignature proof |}.

(** [now] is the reading stored, [now'] the later one of the WHERE clause. *)
Definition ApproveSuspendedTransaction (fault : option gerr) (now now' : gotime) (hash : string)
    (proof : ApprovalProof) (db : suspended_db) : result unit * suspended_db :=
  match fault with
  | Some e => (Err (Errorf "suspended_transaction_store: approve transaction: %w" [e]), db)
  | None =>
      let missing := Errorf "suspended_transaction_store: approve transaction: transaction not found or expired" [] in
      match db !! hash with
      | Some r => if live now' r then (Ok tt, <[hash := approve_row now proof r]> db)
                  else (Err missing, db)
      | None => (Err missing, db)
      end
  end.

Definition DeleteSuspendedTransaction (fault : option gerr) (hash : string) (db : suspended_db)
    : result unit * suspended_db :=
  match fault with
  | Some e => (Err (Errorf "suspended_transaction_store: delete transaction: %w" [e]), db)
  | None => (Ok tt, delete hash db)
  end.

(** The rows a DELETE leaves, and how many it removed. *)
Definition delete_where (p : suspended_row -> bool) (db : suspended_db) : Z * suspended_db :=
  let kept := filter (fun kr => p kr.2 = false) db in
  (Z.of_nat (size db) - Z.of_nat (size kept), kept)%Z.

Definition CleanupExpiredSuspendedTransactions (fault : option gerr) (now : gotime) (db : suspended_db)
    : result Z * suspended_db :=
  match fault with
  | Some e => (Err (Errorf "suspended_transaction_store: cleanup expired: %w" [e]), db)
  | None => let '(n, db') := delete_where (expired now) db in (Ok n, db')
  end.

Definition GetExpiredSuspendedTransactions (fault : option gerr) (now : gotime) (db : suspended_db)
    : result (list SuspendedTransaction) :=
  match fault with
  | Some e => Err (Errorf "suspended_transaction_store: get expired transactions: %w" [e])
  | None =>
      let rows := List.filter (fun kr => expired now kr.2) (map_to_list db) in
      Ok (map (fun kr => tx_of kr.1 kr.2) (merge_sort sooner rows))
  end.

(** ORDER BY created_at ASC. *)
Definition older (a b : string * suspended_row) : Prop := newer b a.
#[export] Instance older_dec a b : Decision (older a b).
Proof. unfold older. apply _. Defined.

(** [suspendedTransactionPrune]: the expired rows go; above the size limit, the
    oldest tenth of the rest goes too. *)
Definition suspendedTransactionPrune (fault size_fault : option gerr) (now : gotime)
    (dbSize : result Z) (maxSizeBytes : Z) (db : suspended_db) : result unit * suspended_db :=
  match fault with
  | Some e => (Err e, db)
  | None =>
      let db1 := (delete_where (expired now) db).2 in
      match dbSize, size_fault with
      | Ok n, None =>
          if (maxSizeBytes <? n)%Z then
            let oldest := firstn (size db1 / 10) (map fst (merge_sort older (map_to_list db1))) in
            (Ok tt, foldr delete db1 oldest)
          else (Ok tt, db1)
      | _, _ => (Ok tt, db1)
      end
  end.

(** ** Properties *)

(** Inside the four-digit years the text comparison is the comparison of the
    instants, to the microsecond. *)
Lemma live_row_of now tx :
  year_in_range now -> year_in_range (txExpiresAt tx) ->
  live now (row_of tx) = (now / 1000 <? txExpiresAt tx / 1000)%Z.
Proof. intros Hn He. unfold live. simpl. by apply FormatTimestamp_lt. Qed.

Lemma live_approve_row now t ap r : live now (approve_row t ap r) = live now r.
Proof. done. Qed.

(** A row is never both returned by Get and removed by the cleanup. *)
Lemma live_not_expired now r : live now r = true -> expired now r = false.
Proof. apply ltb_not_sym. Qed.

Lemma delete_where_lookup p db k :
  (delete_where p db).2 !! k = match db !! k with
                               | Some r => if p r then None else Some r
                               | None => None
                               end.
Proof.
  unfold delete_where. cbn [snd]. rewrite map_lookup_filter.
  destruct (db !! k) as [r|]; [simpl|done].
  destruct (p r) eqn:Ep; simplify_option_eq; congruence.
Qed.

(** Cleaning up never touches a transaction that can still be approved or
    used: whatever Get returns before the cleanup, it returns after it at the
    same instant, and no row the cleanup leaves was expired. *)
Theorem cleanup_keeps_live now db n db' :
  CleanupExpiredSuspendedTransactions None now db = (Ok n, db') ->
  (forall hash, GetSuspendedTransaction None now hash db' = GetSuspendedTransaction None now hash db) /\
  (forall hash r, db' !! hash = Some r -> db !! hash = Some r /\ expired now r = false) /\
  GetExpiredSuspendedTransactions None now db' = Ok [].
Proof.
  unfold CleanupExpiredSuspendedTransactions. intros H.
  assert (Hdb : db' = (delete_where (expired now) db).2)
    by (destruct (delete_where _ _); by injection H). subst db'. clear H.
  assert (Hk : forall hash r, (delete_where (expired now) db).2 !! hash = Some r ->
            db !! hash = Some r /\ expired now r = false).
  { intros hash r. rewrite delete_where_lookup.
    destruct (db !! hash) as [r'|]; [|done]. destruct (expired now r') eqn:E; [done|]. by intros [= <-]. }
  split_and!; [|exact Hk|].
  - intros hash. unfold GetSuspendedTransaction. rewrite delete_where_lookup.
    destruct (db !! hash) as [r|]; [|done]. destruct (expired now r) eqn:E; [|done].
    destruct (live now r) eqn:El; [|done]. apply live_not_expired in El. congruence.
  - unfold GetExpiredSuspendedTransactions. do 2 f_equal.
    assert (Hf : List.filter (fun kr : string * suspended_row => expired now kr.2)
              (map_to_list (delete_where (expired now) db).2) = []).
    { apply elem_of_nil_inv. intros [k r] Hin. apply list_elem_of_In, filter_In in Hin as [Hin Hx].
      apply list_elem_of_In, elem_of_map_to_list, Hk in Hin as [_ Hin]. simpl in Hx. congruence. }
    by rewrite Hf.
Qed.

(** A transaction that waits for user "u". *)
Definition sample_tx (hash : string) (expires : gotime) : SuspendedTransaction := {|
  txHash := hash; txEnvelope := "{}"; txCreatedAt := 0%Z; txExpiresAt := expires;
  txToolName := "shell"; txToolArguments := ""; txUserID := "u"; txOperatorID := "op-1";
  txSubmitterCLISessionID := "cli-1"; txApproved := false; txApprovedAt := None;
  txApprovedBy := ""; txApprovalSignature := ""; txExpectedCertFingerprint := "";
  txApprovalPublicKey := ""; txPasskeyCredentialID := ""; txPasskeyClientDataJSON := "";
  txPasskeyAuthenticatorData := ""; txPasskeySignature := "" |}.

Definition sample_db : suspended_db :=
  <["h1" := row_of (sample_tx "h1" 5000%Z)]> (<["h2" := row_of (sample_tx "h2" 20000%Z)]> ∅).

Lemma cleanup_keeps_live_witness :
  let db' := (CleanupExpiredSuspendedTransactions None 9000%Z sample_db).2 in
  (forall hash, GetSuspendedTransaction None 9000%Z hash db' = GetSuspendedTransaction None 9000%Z hash sample_db) /\
  (forall hash r, db' !! hash = Some r -> sample_db !! hash = Some r /\ expired 9000%Z r = false) /\
  GetExpiredSuspendedTransactions None 9000%Z db' = Ok [].
Proof.
  cbv zeta. apply (cleanup_keeps_live 9000%Z sample_db 1%Z). vm_compute. reflexivity.
Defined.
