(* ===== verification/L3Notary.v ===== *)
(** L3: proof of a human decision
    ([src/internal/services/governance/l3_notary.go]).

    [VerifyL3Proof] returns a boolean and an error; its callers use the boolean
    only when the error is nil, so it is a [result bool].  The passkey verifier
    and the CLI session verifier are the interfaces the code declares. *)
From S2P Require Import Prelude Errors Encoding Timestamp Envelope Crypto Suspended.
From Stdlib Require Import String List ZArith Lia Bool.
From stdpp Require Import base strings list gmap.
Open Scope string_scope.

(** [VerifyL3Proof ctx userID transactionHash cliSessionID proof]. *)
Definition L3Notary := string -> string -> string -> option L3Proof -> result bool.

(** [VerifyPasskeyProof] and [VerifyCLISession]. *)
Definition PasskeyVerifier := string -> string -> string -> option L3Proof -> result bool.
Definition CLISessionVerifier := string -> string -> string -> result unit.

(** [passkeyL3Notary.VerifyL3Proof]. *)
Definition passkeyL3Notary (verifier : PasskeyVerifier) : L3Notary := verifier.

(** The check of a CLI session: a denial is "not verified", any other error is
    reported. *)
Definition cli_session_ok (verifier : CLISessionVerifier) (userID cliSessionID fp : string) : result bool :=
  match verifier userID cliSessionID fp with
  | Ok _ => Ok true
  | Err err => if err_is "ErrCLISessionDenied" err then Ok false else Err err
  end.

(** [gatewayNotary.VerifyL3Proof]. *)
Definition gatewayNotary (cliVerifier : option CLISessionVerifier) (passkeyVerifier : L3Notary)
    : L3Notary := fun userID transactionHash cliSessionID proof =>
  match proof with
  | None => Err (Sentinel "ErrGatewayL3ProofRequired")
  | Some p =>
      if String.eqb (CredentialId p) "" then Err (Sentinel "ErrPasskeyProofRequired")
      else match passkeyVerifier userID transactionHash cliSessionID proof with
      | Err err => Err err
      | Ok false => Ok false
      | Ok true =>
          match cliVerifier with
          | Some v => if String.eqb (MtlsCertFingerprint p) "" then Ok true
                      else cli_session_ok v userID cliSessionID (MtlsCertFingerprint p)
          | None => Ok true
          end
      end
  end.

Definition NewGatewayL3Notary (cliVerifier : option CLISessionVerifier) (passkeyVerifier : PasskeyVerifier)
    : L3Notary := gatewayNotary cliVerifier (passkeyL3Notary passkeyVerifier).

(** constants.L3ApprovalWindow: thirty minutes, in nanoseconds. *)
Definition L3ApprovalWindow : Z := (30 * 60 * 1000000000)%Z.

(** A [SuspendedTransactionStore] as the notary uses it. *)
Definition GetSuspended := string -> result (option SuspendedTransaction).

Section notary.
Context `{E : Ed25519}.

(** Decodes a hexadecimal field of a fixed size. *)
Definition decode_sized (size : nat) (sentinel : string) (s : string) : result string :=
  match hex_decode s with
  | None => Err (Errorf "%w: %w" [Sentinel sentinel; Extern "encoding/hex"])
  | Some b => if Nat.eqb (String.length b) size then Ok b else Err (Sentinel sentinel)
  end.

(** The CLI session checks at the head of [verifyOutboundProof]: [Ok false] is
    a denial. *)
Definition outbound_session (cliVerifier : option CLISessionVerifier) (userID cliSessionID : string)
    (proof : L3Proof) : result bool :=
  match cliVerifier with
  | None => Ok true
  | Some v =>
      if String.eqb (MtlsCertFingerprint proof) "" then Err (Sentinel "ErrCLIL3CertFingerprintRequired")
      else if String.eqb (CliSignature proof) "" then Err (Sentinel "ErrCLIL3SignatureRequired")
      else match hex_decode (MtlsCertFingerprint proof) with
      | None => Err (Errorf "%w: %w" [Sentinel "ErrCLIL3InvalidFingerprintFormat"; Extern "encoding/hex"])
      | Some _ => cli_session_ok v userID cliSessionID (MtlsCertFingerprint proof)
      end
  end.

(** The checks on the suspended transaction, in order. *)
Definition outbound_checks (now : gotime) (userID transactionHash : string) (proof : L3Proof)
    (tx : SuspendedTransaction) : result bool :=
  let? _ := require (String.eqb (txUserID tx) userID) (Sentinel "ErrCLIL3SessionUserMismatch") in
  let? _ := require (txApproved tx) (Sentinel "ErrCLIL3TransactionNotApproved") in
  let? _ := require (match txApprovedAt tx with
                     | Some at_ => negb (at_ + L3ApprovalWindow <? now)%Z
                     | None => true
                     end) (Sentinel "ErrCLIL3ApprovalExpired") in
  let? _ := require (negb (String.eqb (CliSignature proof) "")) (Sentinel "ErrCLIL3SignatureRequired") in
  let? sigBytes := decode_sized SignatureSize "ErrCLIL3SignatureEncodingFailed" (CliSignature proof) in
  let? _ := require (String.eqb (txExpectedCertFingerprint tx) "" ||
                     String.eqb (txExpectedCertFingerprint tx) (MtlsCertFingerprint proof))
              (Sentinel "ErrCLIL3FingerprintMismatch") in
  let? _ := require (negb (String.eqb (txApprovalPublicKey tx) "")) (Sentinel "ErrCLIL3PublicKeyMissing") in
  let? pubKeyBytes := decode_sized PublicKeySize "ErrCLIL3PublicKeyInvalid" (txApprovalPublicKey tx) in
  let? _ := require (ed_verify pubKeyBytes transactionHash sigBytes)
              (Sentinel "ErrCLIL3SignatureVerificationFailed") in
  Ok true.

(** [verifyOutboundProof]; [now] is the clock reading of the approval window. *)
Definition verifyOutboundProof (suspendedStore : option GetSuspended)
    (cliVerifier : option CLISessionVerifier) (now : gotime)
    (userID transactionHash cliSessionID : string) (proof : option L3Proof) : result bool :=
  match proof with
  | None => Err (Sentinel "ErrGatewayL3ProofRequired")
  | Some p =>
      if String.eqb userID "" then Err (Sentinel "ErrUserIDRequired")
      else if String.eqb transactionHash "" then Err (Sentinel "ErrCLIL3TransactionHashRequired")
      else
        let? session := outbound_session cliVerifier userID cliSessionID p in
        if negb session then Ok false
        else match suspendedStore with
        | None => Err (Sentinel "ErrCLIL3SuspendedStoreNotConfigured")
        | Some get =>
            match get transactionHash with
            | Err err => Err (Errorf "%w: %w" [Sentinel "ErrCLIL3GetSuspendedTransactionFailed"; err])
            | Ok None => Err (Sentinel "ErrNotFound")
            | Ok (Some tx) => outbound_checks now userID transactionHash p tx
            end
        end
  end.

(** [outboundNotary.VerifyL3Proof]. *)
Definition outboundNotary (suspendedStore : option GetSuspended) (now : gotime) : L3Notary :=
  fun userID transactionHash cliSessionID proof =>
    verifyOutboundProof suspendedStore None now userID transactionHash cliSessionID proof.

Definition NewOutboundL3Notary := outboundNotary.

(** ** Properties *)

Lemma decode_sized_Ok size sen s b :
  decode_sized size sen s = Ok b <-> hex_decode s = Some b /\ String.length b = size.
Proof.
  unfold decode_sized. destruct (hex_decode s) as [b'|]; [|naive_solver].
  destruct (Nat.eqb_spec (String.length b') size); naive_solver.
Qed.

(** What a suspended transaction and a proof must satisfy. *)
Definition outbound_authorised (now : gotime) (userID h : string) (p : L3Proof)
    (tx : SuspendedTransaction) : Prop :=
  txUserID tx = userID /\ txApproved tx = true /\
  (forall at_, txApprovedAt tx = Some at_ -> (now <= at_ + L3ApprovalWindow)%Z) /\
  (txExpectedCertFingerprint tx = "" \/ txExpectedCertFingerprint tx = MtlsCertFingerprint p) /\
  exists pub sig,
    hex_decode (txApprovalPublicKey tx) = Some pub /\ String.length pub = PublicKeySize /\
    hex_decode (CliSignature p) = Some sig /\ String.length sig = SignatureSize /\
    ed_verify pub h sig = true.

Lemma outbound_checks_true now userID h p tx :
  outbound_checks now userID h p tx = Ok true <-> outbound_authorised now userID h p tx.
Proof.
  unfold outbound_checks, outbound_authorised. split.
  - intros H. inv_ok.
    repeat match goal with H : decode_sized _ _ _ = Ok _ |- _ => apply decode_sized_Ok in H as [? ?] end.
    bools. split_and!; try done.
    + intros at_ Hat. rewrite Hat in *. bools.
      match goal with H : (_ <? _)%Z = false |- _ => apply Z.ltb_ge in H; exact H end.
    + match goal with H : _ || _ = true |- _ => apply orb_true_iff in H as [H|H]; bools; auto end.
    + eexists _, _. split_and!; eauto.
  - intros (Hu & Ha & Hw & Hf & pub & sig & Hp & Hpl & Hs & Hsl & Hv).
    assert (Hne : forall s b n, hex_decode s = Some b -> String.length b = S n -> String.eqb s "" = false).
    { intros s b n Hd Hl. destruct s; [|done]. simpl in Hd. injection Hd as <-. discriminate Hl. }
    assert (Hd : forall size sen s b, hex_decode s = Some b -> String.length b = size ->
              decode_sized size sen s = Ok b) by (intros; by apply decode_sized_Ok).
    rewrite Hu, String.eqb_refl, Ha. simpl.
    rewrite (Hne _ _ _ Hs Hsl), (Hne _ _ _ Hp Hpl). simpl.
    rewrite (Hd _ _ _ _ Hs Hsl), (Hd _ _ _ _ Hp Hpl). simpl. rewrite Hv.
    assert (Hwin : match txApprovedAt tx with
                   | Some at_ => negb (at_ + L3ApprovalWindow <? now)%Z | None => true end = true).
    { destruct (txApprovedAt tx) as [at_|]; [|done]. specialize (Hw _ eq_refl).
      destruct (Z.ltb_spec (at_ + L3ApprovalWindow) now); [lia | done]. }
    rewrite Hwin. simpl.
    assert (Hfp : String.eqb (txExpectedCertFingerprint tx) "" ||
                  String.eqb (txExpectedCertFingerprint tx) (MtlsCertFingerprint p) = true)
      by (apply orb_true_iff; rewrite !String.eqb_eq; tauto).
    by rewrite Hfp.
Qed.

(** The outbound notary accepts a proof exactly when: a user and a
    transaction hash are given, the CLI session (when one is checked) is not
    denied, the transaction is in the suspended store for that user, a human
    approved it no more than thirty minutes ago, the certificate is the expected
    one, and the proof carries a signature of this very transaction hash under
    the approver's recorded key. *)
Theorem verifyOutboundProof_spec get cliVerifier now userID h cli p :
  verifyOutboundProof (Some get) cliVerifier now userID h cli (Some p) = Ok true <->
  userID <> "" /\ h <> "" /\ outbound_session cliVerifier userID cli p = Ok true /\
  exists tx, get h = Ok (Some tx) /\ outbound_authorised now userID h p tx.
Proof.
  unfold verifyOutboundProof.
  destruct (String.eqb_spec userID "") as [->|Hu]; [split; [done | by intros [? _]]|].
  destruct (String.eqb_spec h "") as [->|Hh]; [split; [done | by intros (_ & ? & _)]|].
  destruct (outbound_session _ _ _ _) as [[]|]; simpl; [|naive_solver..].
  destruct (get h) as [[tx|]|] eqn:Eg; [|naive_solver..].
  rewrite outbound_checks_true. naive_solver.
Qed.

(** The notary reading the store at instant [t]. *)
Definition store_get (t : gotime) (db : suspended_db) : GetSuspended :=
  fun hash => GetSuspendedTransaction None t hash db.

Lemma get_stored t tx db :
  db !! txHash tx = None -> year_in_range t -> year_in_range (txExpiresAt tx) ->
  (t / 1000 < txExpiresAt tx / 1000)%Z ->
  store_get t (StoreSuspendedTransaction None tx db).2 (txHash tx) =
  Ok (Some (tx_of (txHash tx) (row_of tx))).
Proof.
  intros Hn Ht Hx Hlt. unfold store_get, GetSuspendedTransaction, StoreSuspendedTransaction.
  cbn [snd]. rewrite lookup_insert_eq, Hn, live_row_of by done. by apply Z.ltb_lt in Hlt as ->.
Qed.

Lemma get_approved t t1 t1' ap tx db :
  db !! txHash tx = None -> year_in_range t -> year_in_range t1' -> year_in_range (txExpiresAt tx) ->
  (t / 1000 < txExpiresAt tx / 1000)%Z -> (t1' / 1000 < txExpiresAt tx / 1000)%Z ->
  let db1 := (StoreSuspendedTransaction None tx db).2 in
  let db2 := (ApproveSuspendedTransaction None t1 t1' (txHash tx) ap db1).2 in
  store_get t db2 (txHash tx) = Ok (Some (tx_of (txHash tx) (approve_row t1 ap (row_of tx)))).
Proof.
  intros Hn Ht Ht1 Hx Hlt Hlt1. cbv zeta.
  unfold store_get, GetSuspendedTransaction, ApproveSuspendedTransaction, StoreSuspendedTransaction.
  cbn [snd]. rewrite lookup_insert_eq, Hn, live_row_of by done.
  pose proof Hlt1 as H1. apply Z.ltb_lt in H1 as ->. cbn [snd].
  rewrite lookup_insert_eq, live_approve_row, live_row_of by done. by apply Z.ltb_lt in Hlt as ->.
Qed.

(** C8: The approval protocol, end to end through the store.  A transaction of a hash
    that was not stored before is suspended unapproved, and approved and looked up before
    it expires.  The proof is shown by the same user, signs the hash with the approver's
    key and carries the fingerprint of the approver's certificate.  It is refused as not
    approved before the approval; after it, it is accepted until the thirty-minute window
    from the approval (to the microsecond) ends, and refused as expired from then on.
    User and hash are not empty, and the times have years of four digits. *)
Theorem approval_protocol {L : Ed25519Laws E} key tx db ap t t' t1 t1' p :
  db !! txHash tx = None -> txApproved tx = false -> txUserID tx <> "" -> txHash tx <> "" ->
  year_in_range t -> year_in_range t1 -> year_in_range t1' -> year_in_range (txExpiresAt tx) ->
  (t / 1000 < txExpiresAt tx / 1000)%Z -> (t1' / 1000 < txExpiresAt tx / 1000)%Z ->
  apApprovalPublicKey ap = hex_encode (ed_public key) ->
  CliSignature p = hex_encode (ed_sign key (txHash tx)) ->
  apCertFingerprint ap = MtlsCertFingerprint p ->
  let db1 := (StoreSuspendedTransaction None tx db).2 in
  let db2 := (ApproveSuspendedTransaction None t1 t1' (txHash tx) ap db1).2 in
  let verify db' := outboundNotary (Some (store_get t db')) t' (txUserID tx) (txHash tx) "" (Some p) in
  verify db1 = Err (Sentinel "ErrCLIL3TransactionNotApproved") /\
  ((t' <= t1 / 1000 * 1000 + L3ApprovalWindow)%Z -> verify db2 = Ok true) /\
  ((t1 / 1000 * 1000 + L3ApprovalWindow < t')%Z ->
     verify db2 = Err (Sentinel "ErrCLIL3ApprovalExpired")).
Proof.
  intros Hn Hua Hu Hh Ht Ht1 Ht1' Hx Hlt Hlt1 Hpk Hsig Hfp. cbv zeta.
  pose proof (get_stored t tx db Hn Ht Hx Hlt) as G1.
  pose proof (get_approved t t1 t1' ap tx db Hn Ht Ht1' Hx Hlt Hlt1) as G2. cbv zeta in G2.
  apply String.eqb_neq in Hu as Hu', Hh as Hh'.
  assert (Hat : txApprovedAt (tx_of (txHash tx) (approve_row t1 ap (row_of tx))) = Some (t1 / 1000 * 1000)%Z)
    by (simpl; unfold parse_or_zero; by rewrite parse_format).
  split_and!.
  - unfold outboundNotary, verifyOutboundProof. rewrite Hu', Hh', G1.
    unfold outbound_checks. simpl. by rewrite String.eqb_refl, Hua.
  - intros Hw. apply verifyOutboundProof_spec. split_and!; try done. eexists. split; [exact G2|].
    split_and!; [done..| | |].
    + rewrite Hat. by intros ? [= <-].
    + right. simpl. done.
    + exists (ed_public key), (ed_sign key (txHash tx)).
      simpl txApprovalPublicKey. rewrite Hpk, Hsig, !hex_decode_encode, ed_public_size, ed_sign_size.
      split_and!; try done. apply ed_verify_sign.
  - intros Hw. unfold outboundNotary, verifyOutboundProof. rewrite Hu', Hh', G2. cbn [negb rbind outbound_session].
    unfold outbound_checks. rewrite Hat. simpl. rewrite String.eqb_refl. simpl.
    by apply Z.ltb_lt in Hw as ->.
Qed.
End notary.

(** ** A concrete approval *)

#[local] Existing Instance toy_ed25519.

Definition ex_proof (key hash : string) : L3Proof := {|
  ClientDataJson := ""; AuthenticatorData := ""; Signature := ""; CredentialId := "";
  MtlsCertFingerprint := "fp"; CliSignature := hex_encode (ed_sign key hash) |}.

Definition ex_approval (key : string) : ApprovalProof := {|
  apApprovedBy := "u"; apCliSignature := ""; apCertFingerprint := "fp";
  apApprovalPublicKey := hex_encode (ed_public key); apCredentialID := ""; apClientDataJSON := "";
  apAuthenticatorData := ""; apSignature := "" |}.

Lemma approval_protocol_witness :
  let tx := sample_tx "h9" (3600 * 1000000000)%Z in
  let db1 := (StoreSuspendedTransaction None tx sample_db).2 in
  let db2 := (ApproveSuspendedTransaction None 1000%Z 2000%Z "h9" (ex_approval "k") db1).2 in
  let verify db' := outboundNotary (Some (store_get 5000%Z db')) 6000%Z "u" "h9" "" (Some (ex_proof "k" "h9")) in
  verify db1 = Err (Sentinel "ErrCLIL3TransactionNotApproved") /\
  ((6000 <= 1000 / 1000 * 1000 + L3ApprovalWindow)%Z -> verify db2 = Ok true) /\
  ((1000 / 1000 * 1000 + L3ApprovalWindow < 6000)%Z -> verify db2 = Err (Sentinel "ErrCLIL3ApprovalExpired")).
Proof.
  apply (approval_protocol (L := toy_ed25519_laws) "k" (sample_tx "h9" (3600 * 1000000000)%Z) sample_db
    (ex_approval "k") 5000%Z 6000%Z 1000%Z 2000%Z (ex_proof "k" "h9"));
    first [reflexivity | vm_compute; congruence | vm_compute; split; congruence].
Defined.
