(* ===== verification/Regex.v ===== *)
(** The part of Go's [regexp] (RE2 syntax) that the doctrine's patterns use: a
    parser from the pattern text, a relational meaning, and an executable matcher
    proved equal to it.

    The subject is a list of bytes.  The patterns only mention ASCII, so working
    on bytes finds a match exactly when working on runes does: a byte of a
    multi-byte rune is matched only by negated classes and by ".", which accept
    the whole rune, and the two non-ASCII runes that fold to ASCII letters under
    (?i), U+017F (s) and U+212A (k), are spelled out as byte sequences. *)
From S2P Require Import Prelude Encoding.
From Stdlib Require Import String Ascii List ZArith Lia Bool.
From stdpp Require Import base strings list relations.
Open Scope Z_scope.

(** ** Syntax *)

(** A class is a list of byte ranges, complemented when [neg]. *)
Inductive re : Type :=
| REps
| Class (neg : bool) (ranges : list (Z * Z))
| Cat (r1 r2 : re)
| Alt (r1 r2 : re)
| Star (r : re)
| BeginText
| EndText
| WordBoundary.

Definition in_class (neg : bool) (ranges : list (Z * Z)) (c : ascii) : bool :=
  xorb neg (existsb (fun lh => (lh.1 <=? byte_val c) && (byte_val c <=? lh.2)) ranges).

Definition word_ranges : list (Z * Z) := [(48, 57); (65, 90); (95, 95); (97, 122)].
Definition is_word (c : ascii) : bool := in_class false word_ranges c.

(** ** Meaning: [matches s r i j], the subject [s] from [i] to [j] matches [r] *)

(** The byte before a position and the byte at it are a word byte and another. *)
Definition word_at (s : list ascii) (i : nat) : bool :=
  match s !! i with Some c => is_word c | None => false end.

Definition word_before (s : list ascii) (i : nat) : bool :=
  match i with O => false | S i => word_at s i end.

Inductive matches (s : list ascii) : re -> nat -> nat -> Prop :=
| m_empty i : matches s REps i i
| m_class neg rs i c : s !! i = Some c -> in_class neg rs c = true -> matches s (Class neg rs) i (S i)
| m_cat r1 r2 i j k : matches s r1 i j -> matches s r2 j k -> matches s (Cat r1 r2) i k
| m_alt_l r1 r2 i j : matches s r1 i j -> matches s (Alt r1 r2) i j
| m_alt_r r1 r2 i j : matches s r2 i j -> matches s (Alt r1 r2) i j
| m_star_nil r i : matches s (Star r) i i
| m_star_cons r i j k : matches s r i j -> matches s (Star r) j k -> matches s (Star r) i k
| m_begin : matches s BeginText 0 0
| m_end : matches s EndText (List.length s) (List.length s)
| m_word i : xorb (word_before s i) (word_at s i) = true -> matches s WordBoundary i i.

(** [regexp.MatchString]: some part of the subject matches. *)
Definition occurs (r : re) (s : list ascii) : Prop :=
  exists i j, (i <= List.length s)%nat /\ matches s r i j.

Lemma matches_le s r i j : matches s r i j -> (i <= j)%nat.
Proof. induction 1; lia. Qed.

Lemma matches_bound s r i j :
  matches s r i j -> (i <= List.length s)%nat -> (j <= List.length s)%nat.
Proof.
  induction 1; intros Hi; try lia; auto.
  match goal with H : _ !! _ = Some _ |- _ => apply lookup_lt_Some in H; lia end.
Qed.

(** ** Matcher: from the set of start positions to the set of end positions

    A set of positions 0..n of a subject of n bytes is a list of n+1 booleans. *)

Definition orb_list (a b : list bool) : list bool := zip_with orb a b.
Definition andb_list (a b : list bool) : list bool := zip_with andb a b.

(** Word boundaries of the subject, [prev] being the byte before it. *)
Fixpoint boundaries (prev : bool) (s : list ascii) : list bool :=
  match s with
  | [] => [prev]
  | c :: s => xorb prev (is_word c) :: boundaries (is_word c) s
  end.

Fixpoint iterate (f : list bool -> list bool) (fuel : nat) (x : list bool) : list bool :=
  match fuel with
  | O => x
  | S fuel =>
      let x' := orb_list x (f x) in
      if bool_decide (x' = x) then x else iterate f fuel x'
  end.

Fixpoint step (s : list ascii) (r : re) (x : list bool) : list bool :=
  match r with
  | REps => x
  | Class neg rs => false :: zip_with (fun (b : bool) c => if b then in_class neg rs c else false) x s
  | Cat r1 r2 => step s r2 (step s r1 x)
  | Alt r1 r2 => orb_list (step s r1 x) (step s r2 x)
  | Star r => iterate (step s r) (List.length s) x
  | BeginText => andb_list x (true :: repeat false (List.length s))
  | EndText => andb_list x (repeat false (List.length s) ++ [true])
  | WordBoundary => andb_list x (boundaries false s)
  end.

Definition MatchString (r : re) (s : string) : bool :=
  let l := list_ascii_of_string s in
  existsb (fun b => b) (step l r (repeat true (S (List.length l)))).

(** ** The matcher computes the meaning *)

Definition member (x : list bool) (i : nat) : Prop := x !! i = Some true.

Lemma length_boundaries p s : List.length (boundaries p s) = S (List.length s).
Proof. revert p. induction s as [|c s IH]; intros p; simpl; [done | by rewrite IH]. Qed.

Lemma length_iterate f n k x :
  (forall y, List.length y = k -> List.length (f y) = k) ->
  List.length x = k -> List.length (iterate f n x) = k.
Proof.
  intros Hf. revert x. induction n as [|n IH]; intros x Hx; simpl; [done|].
  destruct (bool_decide _); [done|]. apply IH. unfold orb_list.
  rewrite length_zip_with, Hf by done. lia.
Qed.

Lemma length_step s r x :
  List.length x = S (List.length s) -> List.length (step s r x) = S (List.length s).
Proof.
  revert x. induction r; intros x Hx; simpl; auto; unfold orb_list, andb_list.
  - rewrite length_zip_with. lia.
  - rewrite length_zip_with, IHr1, IHr2 by done. lia.
  - by apply length_iterate.
  - rewrite length_zip_with. simpl. rewrite repeat_length. lia.
  - rewrite length_zip_with, length_app, repeat_length. simpl. lia.
  - rewrite length_zip_with, length_boundaries. lia.
Qed.

Lemma member_lt x i : member x i -> (i < List.length x)%nat.
Proof. apply lookup_lt_Some. Qed.

Lemma member_orb a b i :
  List.length a = List.length b -> member (orb_list a b) i <-> member a i \/ member b i.
Proof.
  intros Hl. unfold member, orb_list. rewrite lookup_zip_with.
  destruct (a !! i) as [p|] eqn:Ea, (b !! i) as [q|] eqn:Eb; simpl.
  - destruct p, q; simpl; naive_solver.
  - apply lookup_lt_Some in Ea. apply lookup_ge_None in Eb. lia.
  - apply lookup_lt_Some in Eb. apply lookup_ge_None in Ea. lia.
  - naive_solver.
Qed.

Lemma member_andb a b i : member (andb_list a b) i <-> member a i /\ member b i.
Proof.
  unfold member, andb_list. rewrite lookup_zip_with.
  destruct (a !! i) as [[]|], (b !! i) as [[]|]; simpl; naive_solver.
Qed.

Lemma member_repeat_true n i : member (repeat true n) i <-> (i < n)%nat.
Proof.
  unfold member. split.
  - intros H%lookup_lt_Some. by rewrite repeat_length in H.
  - revert i. induction n as [|n IH]; intros [|i] H; simpl; try lia; [done|]. apply IH. lia.
Qed.

Lemma not_member_repeat_false n i : ~ member (repeat false n) i.
Proof. unfold member. revert i. induction n as [|n IH]; intros [|i]; simpl; try done; apply IH. Qed.

Lemma member_boundaries p s i :
  member (boundaries p s) i <->
  (i <= List.length s)%nat /\
  xorb (match i with O => p | S k => word_at s k end) (word_at s i) = true.
Proof.
  unfold member. revert p i. induction s as [|c s IH]; intros p i.
  - destruct i as [|i]; simpl; [|split; [done | lia]].
    unfold word_at. simpl. rewrite xorb_false_r. split; [intros [= H]; split; [lia | exact H] | intros [_ H]; by rewrite H].
  - destruct i as [|i]; simpl.
    + unfold word_at. simpl. split; [intros [= H]; split; [lia | exact H] | intros [_ H]; by rewrite H].
    + rewrite IH. destruct i; unfold word_at; simpl; split; intros [H1 H2]; split; auto; lia.
Qed.

(** The set reached by following [R] any number of times. *)
Lemma iterate_sound (R : nat -> nat -> Prop) (f : list bool -> list bool) n x i k :
  (forall y, List.length y = k -> List.length (f y) = k) ->
  (forall y j, List.length y = k -> member (f y) j -> exists i, member y i /\ R i j) ->
  List.length x = k -> member (iterate f n x) i -> exists i0, member x i0 /\ rtc R i0 i.
Proof.
  intros Hlen Hf. revert x. induction n as [|n IH]; intros x Hx Hm; simpl in Hm.
  { exists i. split; [done | apply rtc_refl]. }
  destruct (bool_decide _); [exists i; split; [done | apply rtc_refl]|].
  apply IH in Hm as (i0 & Hi0 & Hr); [|unfold orb_list; rewrite length_zip_with, Hlen by done; lia].
  apply member_orb in Hi0 as [Hi0|Hi0]; [by exists i0| |by rewrite Hlen].
  apply Hf in Hi0 as (i1 & Hi1 & H1); [|done].
  exists i1. split; [done|]. by eapply rtc_l.
Qed.

Lemma iterate_mono f n k x i :
  (forall y, List.length y = k -> List.length (f y) = k) ->
  List.length x = k -> member x i -> member (iterate f n x) i.
Proof.
  intros Hlen. revert x. induction n as [|n IH]; intros x Hx Hm; simpl; [done|].
  destruct (bool_decide _); [done|]. apply IH.
  - unfold orb_list. rewrite length_zip_with, Hlen by done. lia.
  - apply member_orb; [by rewrite Hlen | by left].
Qed.

(** [n] rounds reach everything at distance [n] or less, when steps go forward. *)
Lemma iterate_complete (R : nat -> nat -> Prop) (f : list bool -> list bool) n x i j k :
  (forall y, List.length y = k -> List.length (f y) = k) ->
  (forall y i j, List.length y = k -> member y i -> R i j -> member (f y) j) ->
  (forall i j, R i j -> (i <= j)%nat) ->
  List.length x = k -> member x i -> rtc R i j -> (j - i <= n)%nat -> member (iterate f n x) j.
Proof.
  intros Hlen Hf Hle. revert x i. induction n as [|n IH]; intros x i Hx Hm Hr Hn.
  - assert (i = j) as ->; [|done].
    assert (i <= j)%nat by (clear -Hr Hle; induction Hr; [lia|]; apply Hle in H; lia). lia.
  - simpl. induction Hr as [i|i i1 j H1 Hr IHr].
    { destruct (bool_decide _); [done|]. apply (iterate_mono _ _ k); [done| |].
      - unfold orb_list. rewrite length_zip_with, Hlen by done. lia.
      - apply member_orb; [by rewrite Hlen | by left]. }
    pose proof (Hle _ _ H1) as Hi1. destruct (decide (i1 = i)) as [->|Hne]; [by apply IHr|].
    pose proof (Hf _ _ _ Hx Hm H1) as Hm1.
    destruct (bool_decide _) eqn:Eb.
    + apply bool_decide_eq_true in Eb.
      assert (Hx1 : member x i1) by (rewrite <- Eb; apply member_orb; [by rewrite Hlen | by right]).
      clear -Hx Hf Eb Hx1 Hr Hlen. induction Hr as [|a b c H Hr IH]; [done|]. apply IH.
      rewrite <- Eb. apply member_orb; [by rewrite Hlen|]. right. by eapply Hf.
    + apply (IH _ i1).
      * unfold orb_list. rewrite length_zip_with, Hlen by done. lia.
      * apply member_orb; [by rewrite Hlen | by right].
      * done.
      * lia.
Qed.

Lemma matches_star_rtc s r i j : matches s (Star r) i j <-> rtc (matches s r) i j.
Proof.
  split.
  - intros H. remember (Star r) as q eqn:Eq. induction H; try discriminate Eq; [apply rtc_refl|].
    injection Eq as ->. eapply rtc_l; eauto.
  - induction 1; [apply m_star_nil | eapply m_star_cons; eauto].
Qed.

(** [step s r x] is the image of [x] by [matches s r]. *)
Lemma step_spec s r x j :
  List.length x = S (List.length s) ->
  member (step s r x) j <-> exists i, member x i /\ matches s r i j.
Proof.
  revert x j. induction r as [| | r1 IH1 r2 IH2 | r1 IH1 r2 IH2 | r IH | | |];
    intros x j Hx; cbn [step].
  - split; [intros H; exists j; by split; [|constructor] | intros (i & H & Hm)].
    by inversion Hm; subst.
  - split.
    + unfold member. destruct j as [|j]; simpl; [done|]. rewrite lookup_zip_with.
      destruct (x !! j) as [b|] eqn:Eb; simpl; [|done].
      destruct (s !! j) as [c|] eqn:Ec; simpl; [|done].
      destruct b; [|done]. intros [= Hc]. exists j. split; [done|]. by econstructor.
    + intros (i & Hi & Hm). inversion Hm as [|? ? ? c Hc Hin| | | | | | | |]; subst.
      unfold member in *. simpl. by rewrite lookup_zip_with, Hi, Hc; simpl; rewrite Hin.
  - rewrite IH2 by (by apply length_step). split.
    + intros (m & Hm & H2). apply IH1 in Hm as (i & Hi & H1); [|done].
      exists i. split; [done|]. by econstructor.
    + intros (i & Hi & Hm). inversion Hm as [| |? ? ? m ? H1 H2| | | | | | |]; subst.
      exists m. split; [|done]. apply IH1; [done|]. by exists i.
  - rewrite member_orb by (by rewrite !length_step). rewrite IH1, IH2 by done. split.
    + intros [(i & Hi & H)|(i & Hi & H)]; exists i; split; auto using m_alt_l, m_alt_r.
    + intros (i & Hi & H). inversion H; subst; [left | right]; by exists i.
  - split.
    + intros H. eapply (iterate_sound (matches s r)) in H as (i & Hi & Hr).
      * exists i. split; [done|]. by apply matches_star_rtc.
      * intros y Hy. exact (length_step s r y Hy).
      * intros y j' Hy Hm. by apply IH.
      * done.
    + intros (i & Hi & H). pose proof (matches_bound _ _ _ _ H) as Hb.
      apply matches_star_rtc in H.
      eapply (iterate_complete (matches s r)); eauto.
      * intros y Hy. exact (length_step s r y Hy).
      * intros y i' j' Hy Hm Hr. apply IH; [done|]. by exists i'.
      * intros. by eapply matches_le.
      * apply member_lt in Hi. lia.
  - rewrite member_andb. split.
    + intros [Hm Hj]. destruct j as [|j]; [exists 0%nat; split; [done | constructor]|].
      by apply not_member_repeat_false in Hj.
    + intros (i & Hi & Hm). inversion Hm; subst. done.
  - rewrite member_andb. split.
    + intros [Hm Hj]. unfold member in Hj. rewrite lookup_app in Hj.
      destruct (repeat false (List.length s) !! j) as [b|] eqn:E.
      { injection Hj as ->. by apply not_member_repeat_false in E. }
      apply lookup_ge_None in E. rewrite repeat_length in *.
      assert (j = List.length s) as -> by (apply member_lt in Hm; lia).
      exists (List.length s). split; [done | constructor].
    + intros (i & Hi & Hm). inversion Hm; subst. split; [done|].
      unfold member. rewrite lookup_app_r; rewrite repeat_length; [|lia]. by rewrite Nat.sub_diag.
  - rewrite member_andb, member_boundaries. split.
    + intros (Hm & _ & Hb). exists j. split; [done|]. constructor. by destruct j.
    + intros (i & Hi & Hm). inversion Hm; subst. split; [done|]. apply member_lt in Hi.
      split; [lia|]. by destruct j.
Qed.

(** The matcher decides the meaning: [MatchString r s] holds exactly when
    some part of the subject matches the expression. *)
Theorem MatchString_spec r s : MatchString r s = true <-> occurs r (list_ascii_of_string s).
Proof.
  unfold MatchString, occurs. set (l := list_ascii_of_string s).
  rewrite existsb_exists. split.
  - intros (b & Hb & ->). apply list_elem_of_In, list_elem_of_lookup in Hb as [j Hj].
    apply step_spec in Hj as (i & Hi & Hm); [|by rewrite repeat_length].
    exists i, j. apply member_repeat_true in Hi. split; [lia | done].
  - intros (i & j & Hi & Hm). exists true. split; [|done].
    apply list_elem_of_In, list_elem_of_lookup. exists j.
    apply step_spec; [by rewrite repeat_length|]. exists i. split; [|done].
    apply member_repeat_true. lia.
Qed.

(** ** Parser *)

Definition code (c : ascii) : Z := byte_val c.
Definition is_upper (z : Z) : bool := (65 <=? z) && (z <=? 90).
Definition is_lower (z : Z) : bool := (97 <=? z) && (z <=? 122).

(** One given byte; a sequence of bytes. *)
Definition byte_re (z : Z) : re := Class false [(z, z)].
Fixpoint bytes_re (l : list Z) : re :=
  match l with [] => REps | z :: l => Cat (byte_re z) (bytes_re l) end.

Definition long_s : re := bytes_re [197; 191].
Definition kelvin : re := bytes_re [226; 132; 170].

(** A range with the other case of its letters. *)
Definition clip (lo hi a b d : Z) : list (Z * Z) :=
  if (Z.max lo a <=? Z.min hi b) then [(Z.max lo a + d, Z.min hi b + d)] else [].
Definition fold_range (lh : Z * Z) : list (Z * Z) :=
  lh :: clip lh.1 lh.2 65 90 32 ++ clip lh.1 lh.2 97 122 (-32).

Definition has_byte (rs : list (Z * Z)) (z : Z) : bool :=
  existsb (fun lh => (lh.1 <=? z) && (z <=? lh.2)) rs.

(** A positive class under the flag (?i): both cases, and the two runes outside
    ASCII that fold to s and k. *)
Definition class_re (icase neg : bool) (rs : list (Z * Z)) : re :=
  if icase then
    let rs' := concat (map fold_range rs) in
    let r := Class neg rs' in
    if neg then r
    else
      let r := if has_byte rs' 115 then Alt r long_s else r in
      if has_byte rs' 107 then Alt r kelvin else r
  else Class neg rs.

Definition literal (icase : bool) (z : Z) : re := class_re icase false [(z, z)].

(** [\t \n \f \r] and space; digits. *)
Definition space_ranges : list (Z * Z) := [(9, 10); (12, 13); (32, 32)].
Definition digit_ranges : list (Z * Z) := [(48, 57)].

Definition alnum (z : Z) : bool := has_byte word_ranges z && negb (z =? 95).

(** Perl classes [\s \w \d] and their complements. *)
Definition perl_class (z : Z) : option (bool * list (Z * Z)) :=
  if z =? 115 then Some (false, space_ranges)
  else if z =? 83 then Some (true, space_ranges)
  else if z =? 119 then Some (false, word_ranges)
  else if z =? 87 then Some (true, word_ranges)
  else if z =? 100 then Some (false, digit_ranges)
  else if z =? 68 then Some (true, digit_ranges)
  else None.

(** What a backslash and the byte [z] stand for; an escaped punctuation mark is
    itself, other letters are outside the subset. *)
Definition escape (icase : bool) (z : Z) : option re :=
  if z =? 98 then Some WordBoundary
  else match perl_class z with
  | Some (neg, rs) => Some (class_re icase neg rs)
  | None => if alnum z || (128 <=? z) then None else Some (byte_re z)
  end.

(** The items of a bracket up to the closing one. *)
Fixpoint parse_class (fuel : nat) (s : list ascii) (acc : list (Z * Z))
    : option (list (Z * Z) * list ascii) :=
  match fuel, s with
  | S fuel, c :: s =>
      let z := code c in
      if z =? 93 then Some (acc, s)
      else if (z =? 91) || (128 <=? z) then None
      else if z =? 92 then
        match s with
        | d :: s =>
            match perl_class (code d) with
            | Some (false, rs) => parse_class fuel s (acc ++ rs)
            | Some (true, _) => None
            | None => if alnum (code d) then None else parse_class fuel s (acc ++ [(code d, code d)])
            end
        | [] => None
        end
      else match s with
      | d :: e :: s' =>
          if (code d =? 45) && negb (code e =? 93) then
            if (code e =? 92) || (code e <? z) then None else parse_class fuel s' (acc ++ [(z, code e)])
          else parse_class fuel s (acc ++ [(z, z)])
      | _ => parse_class fuel s (acc ++ [(z, z)])
      end
  | _, _ => None
  end.

Fixpoint power (r : re) (n : nat) : re :=
  match n with O => REps | S n => Cat r (power r n) end.

(** A decimal count. *)
Fixpoint parse_num (s : list ascii) (acc : option Z) : option Z * list ascii :=
  match s with
  | c :: s' =>
      let z := code c in
      if (48 <=? z) && (z <=? 57) then parse_num s' (Some (default 0 acc * 10 + (z - 48))) else (acc, s)
  | [] => (acc, [])
  end.

(** [{n}], [{n,}] or [{n,m}] after the opening brace. *)
Definition parse_counts (r : re) (s : list ascii) : option (re * list ascii) :=
  match parse_num s None with
  | (Some n, c :: s) =>
      if code c =? 125 then Some (power r (Z.to_nat n), s)
      else if code c =? 44 then
        match parse_num s None with
        | (None, d :: s) =>
            if code d =? 125 then Some (Cat (power r (Z.to_nat n)) (Star r), s) else None
        | (Some m, d :: s) =>
            if (code d =? 125) && (n <=? m) then
              Some (Cat (power r (Z.to_nat n)) (power (Alt r REps) (Z.to_nat (m - n))), s)
            else None
        | _ => None
        end
      else None
  | _ => None
  end.

(** The repetition operator after an atom, if there is one; a second operator is
    outside the subset. *)
Definition parse_postfix (r : re) (s : list ascii) : option (re * list ascii) :=
  let again (s : list ascii) :=
    match s with
    | c :: _ => let z := code c in (z =? 42) || (z =? 43) || (z =? 63) || (z =? 123)
    | [] => false
    end in
  let fin (o : option (re * list ascii)) :=
    match o with Some (r, s) => if again s then None else Some (r, s) | None => None end in
  match s with
  | c :: s' =>
      let z := code c in
      if z =? 42 then fin (Some (Star r, s'))
      else if z =? 43 then fin (Some (Cat r (Star r), s'))
      else if z =? 63 then fin (Some (Alt r REps, s'))
      else if z =? 123 then fin (parse_counts r s')
      else Some (r, s)
  | [] => Some (r, s)
  end.

(** Alternation, concatenation and atoms, by descent. *)
Fixpoint parse_alt (fuel : nat) (icase : bool) (s : list ascii) : option (re * list ascii) :=
  match fuel with
  | O => None
  | S fuel =>
      match parse_cat fuel icase s with
      | Some (r, c :: s') =>
          if code c =? 124 then
            match parse_alt fuel icase s' with
            | Some (r', s'') => Some (Alt r r', s'')
            | None => None
            end
          else Some (r, c :: s')
      | o => o
      end
  end
with parse_cat (fuel : nat) (icase : bool) (s : list ascii) : option (re * list ascii) :=
  match fuel with
  | O => None
  | S fuel =>
      match s with
      | [] => Some (REps, [])
      | c :: _ =>
          if (code c =? 124) || (code c =? 41) then Some (REps, s)
          else match parse_atom fuel icase s with
          | Some (r, s') =>
              match parse_postfix r s' with
              | Some (r', s'') =>
                  match parse_cat fuel icase s'' with
                  | Some (r'', s3) => Some (Cat r' r'', s3)
                  | None => None
                  end
              | None => None
              end
          | None => None
          end
      end
  end
with parse_atom (fuel : nat) (icase : bool) (s : list ascii) : option (re * list ascii) :=
  match fuel, s with
  | S fuel, c :: s =>
      let z := code c in
      if z =? 40 then
        match s with
        | d :: s1 =>
            match (if code d =? 63 then match s1 with
                                        | f :: s2 => if code f =? 58 then Some s2 else None
                                        | [] => None
                                        end
                   else Some s) with
            | Some body =>
                match parse_alt fuel icase body with
                | Some (r, e :: s') => if code e =? 41 then Some (r, s') else None
                | _ => None
                end
            | None => None
            end
        | [] => None
        end
      else if z =? 91 then
        match s with
        | d :: s' =>
            let '(neg, s0) := if code d =? 94 then (true, s') else (false, s) in
            match s0 with
            | e :: _ =>
                if code e =? 93 then None
                else match parse_class fuel s0 [] with
                | Some (rs, s1) => Some (class_re icase neg rs, s1)
                | None => None
                end
            | [] => None
            end
        | [] => None
        end
      else if z =? 46 then Some (Class true [(10, 10)], s)
      else if z =? 94 then Some (BeginText, s)
      else if z =? 36 then Some (EndText, s)
      else if z =? 92 then
        match s with
        | d :: s' => match escape icase (code d) with Some r => Some (r, s') | None => None end
        | [] => None
        end
      else if (z =? 42) || (z =? 43) || (z =? 63) || (z =? 123) || (z =? 41) || (128 <=? z) then None
      else Some (literal icase z, s)
  | _, _ => None
  end.

(** [regexp.Compile] on the subset; [None] is a pattern outside it.  The fuel
    exceeds three calls per byte of the pattern. *)
Definition Compile (pattern : string) : option re :=
  let icase := String.prefix "(?i)" pattern in
  let s := list_ascii_of_string (if icase then String.substring 4 (String.length pattern - 4) pattern
                                 else pattern) in
  match parse_alt (4 * List.length s + 4) icase s with
  | Some (r, []) => Some r
  | _ => None
  end.

(** [regexp.MatchString(pattern, s)]. *)
Definition match_pattern (pattern s : string) : option bool :=
  match Compile pattern with Some r => Some (MatchString r s) | None => None end.

Example re_ex1 : match_pattern "(?i)\brm\s+(-[rRf]+\s+)*/(bin|boot|etc)\b" "sudo RM -rf /etc" = Some true.
Proof. vm_compute. reflexivity. Qed.
Example re_ex2 : match_pattern "(?i)\brm\s+(-[rRf]+\s+)*/(bin|boot|etc)\b" "rm -rf /etcetera" = Some false.
Proof. vm_compute. reflexivity. Qed.
Example re_ex3 : match_pattern "(?i)\bchmod\s+[0-7]*4[0-7]{3}\s+" "chmod 4755 /tmp/x" = Some true.
Proof. vm_compute. reflexivity. Qed.
Example re_ex4 : match_pattern "(^|\s)su(\s|$)" "su" = Some true.
Proof. vm_compute. reflexivity. Qed.
(** The long s folds to an s under (?i). *)
Example re_ex5 : match_pattern "(?i)\bufw\s+di" ("ufw " +:+ bytes_str [100; 105]) = Some true.
Proof. vm_compute. reflexivity. Qed.
Example re_ex6 : match_pattern "(?i)secret" (bytes_str [197; 191] +:+ "ecret") = Some true.
Proof. vm_compute. reflexivity. Qed.
