(* ===== verification/Json.v ===== *)
(** JSON texts as [encoding/json] reads them: the syntax check, the decoding of
    strings (escapes, surrogate pairs, invalid UTF-8) and the nesting limit. *)
From S2P Require Import Prelude Errors Encoding.
From Stdlib Require Import String Ascii List ZArith Lia Bool.
From stdpp Require Import base strings list.
Open Scope Z_scope.

(** A parsed text; an object keeps its members in order, repeated keys included,
    and a number keeps its text. *)
Inductive json : Type :=
| JNull
| JBool (b : bool)
| JNumber (text : string)
| JString (s : string)
| JArray (l : list json)
| JObject (members : list (string * json)).

(** ** UTF-8 *)

Definition cont (b : Z) : bool := (128 <=? b) && (b <=? 191).

(** [utf8.DecodeRune]: the rune at the head and its width; an invalid byte is
    U+FFFD of width 1. *)
Definition decode_rune (l : list Z) : Z * nat :=
  let bad := (65533, 1%nat) in
  match l with
  | [] => (65533, 0%nat)
  | a :: r =>
      if a <? 128 then (a, 1%nat)
      else if (194 <=? a) && (a <=? 223) then
        match r with
        | b :: _ => if cont b then ((a - 192) * 64 + (b - 128), 2%nat) else bad
        | _ => bad
        end
      else if (224 <=? a) && (a <=? 239) then
        match r with
        | b :: c :: _ =>
            let lo := if a =? 224 then 160 else 128 in
            let hi := if a =? 237 then 159 else 191 in
            if (lo <=? b) && (b <=? hi) && cont c
            then ((a - 224) * 4096 + (b - 128) * 64 + (c - 128), 3%nat) else bad
        | _ => bad
        end
      else if (240 <=? a) && (a <=? 244) then
        match r with
        | b :: c :: d :: _ =>
            let lo := if a =? 240 then 144 else 128 in
            let hi := if a =? 244 then 143 else 191 in
            if (lo <=? b) && (b <=? hi) && cont c && cont d
            then ((a - 240) * 262144 + (b - 128) * 4096 + (c - 128) * 64 + (d - 128), 4%nat) else bad
        | _ => bad
        end
      else bad
  end.

(** [utf8.AppendRune]; a surrogate or an out-of-range value is U+FFFD. *)
Definition encode_rune (r : Z) : list Z :=
  let r := if ((55296 <=? r) && (r <=? 57343)) || (1114111 <? r) || (r <? 0) then 65533 else r in
  if r <? 128 then [r]
  else if r <? 2048 then [192 + r / 64; 128 + r mod 64]
  else if r <? 65536 then [224 + r / 4096; 128 + r / 64 mod 64; 128 + r mod 64]
  else [240 + r / 262144; 128 + r / 4096 mod 64; 128 + r / 64 mod 64; 128 + r mod 64].

Example rune_ex : decode_rune (encode_rune 8490) = (8490, 3%nat). Proof. reflexivity. Qed.

(** ** Strings *)

Definition hex4 (l : list Z) : option (Z * list Z) :=
  match l with
  | a :: b :: c :: d :: l =>
      match hex_val (byte_of a), hex_val (byte_of b), hex_val (byte_of c), hex_val (byte_of d) with
      | Some a, Some b, Some c, Some d => Some (((a * 16 + b) * 16 + c) * 16 + d, l)
      | _, _, _, _ => None
      end
  | _ => None
  end.

(** The byte a one-letter escape stands for. *)
Definition simple_escape (z : Z) : option Z :=
  if (z =? 34) || (z =? 92) || (z =? 47) then Some z
  else if z =? 98 then Some 8 else if z =? 102 then Some 12 else if z =? 110 then Some 10
  else if z =? 114 then Some 13 else if z =? 116 then Some 9 else None.

(** The text of a string after its opening quote, decoded, and what follows its
    closing quote. *)
Fixpoint parse_chars (fuel : nat) (l acc : list Z) : option (list Z * list Z) :=
  match fuel, l with
  | S fuel, z :: r =>
      if z =? 34 then Some (acc, r)
      else if z <? 32 then None
      else if z =? 92 then
        match r with
        | 117 :: r =>
            match hex4 r with
            | None => None
            | Some (u, r) =>
                if (55296 <=? u) && (u <=? 56319) then
                  match r with
                  | 92 :: 117 :: r' =>
                      match hex4 r' with
                      | None => None
                      | Some (v, r'') =>
                          if (56320 <=? v) && (v <=? 57343)
                          then parse_chars fuel r''
                                 (acc ++ encode_rune (65536 + (u - 55296) * 1024 + (v - 56320)))
                          else parse_chars fuel r (acc ++ encode_rune 65533)
                      end
                  | _ => parse_chars fuel r (acc ++ encode_rune 65533)
                  end
                else parse_chars fuel r (acc ++ encode_rune u)
            end
        | e :: r => match simple_escape e with
                    | Some b => parse_chars fuel r (acc ++ [b])
                    | None => None
                    end
        | [] => None
        end
      else
        let '(c, w) := decode_rune l in
        parse_chars fuel (skipn w l) (acc ++ encode_rune c)
  | _, _ => None
  end.

(** ** Numbers and white space *)

Fixpoint skip_ws (l : list Z) : list Z :=
  match l with
  | z :: r => if (z =? 32) || (z =? 9) || (z =? 10) || (z =? 13) then skip_ws r else l
  | [] => []
  end.

Definition is_digit (z : Z) : bool := (48 <=? z) && (z <=? 57).

(** The longest run of digits and the rest. *)
Fixpoint span_digits (l : list Z) : list Z * list Z :=
  match l with
  | z :: r => if is_digit z then let '(d, rest) := span_digits r in (z :: d, rest) else ([], l)
  | [] => ([], [])
  end.

(** A non-empty run of digits. *)
Definition digits1 (l : list Z) : option (list Z * list Z) :=
  match span_digits l with ([], _) => None | p => Some p end.

Definition parse_int (l : list Z) : option (list Z * list Z) :=
  match l with
  | 48 :: r => Some ([48], r)
  | _ => digits1 l
  end.

Definition parse_frac (l : list Z) : option (list Z * list Z) :=
  match l with
  | 46 :: r => match digits1 r with Some (d, r) => Some (46 :: d, r) | None => None end
  | _ => Some ([], l)
  end.

Definition parse_exp (l : list Z) : option (list Z * list Z) :=
  match l with
  | e :: r =>
      if (e =? 101) || (e =? 69) then
        let '(sg, r) := match r with
                        | s :: r' => if (s =? 43) || (s =? 45) then ([s], r') else ([], r)
                        | [] => ([], r)
                        end in
        match digits1 r with Some (d, r) => Some (e :: sg ++ d, r) | None => None end
      else Some ([], l)
  | [] => Some ([], l)
  end.

Definition parse_number (l : list Z) : option (list Z * list Z) :=
  let '(sg, l) := match l with 45 :: r => ([45], r) | _ => ([], l) end in
  match parse_int l with
  | Some (i, l) =>
      match parse_frac l with
      | Some (f, l) => match parse_exp l with Some (e, l) => Some (sg ++ i ++ f ++ e, l) | None => None end
      | None => None
      end
  | None => None
  end.

(** ** Values *)

(** A literal word. *)
Fixpoint take_word (w l : list Z) : option (list Z) :=
  match w, l with
  | [], _ => Some l
  | a :: w, b :: l => if a =? b then take_word w l else None
  | _, [] => None
  end.

Definition word_true : list Z := [116; 114; 117; 101].
Definition word_false : list Z := [102; 97; 108; 115; 101].
Definition word_null : list Z := [110; 117; 108; 108].

(** [maxNestingDepth] of the scanner. *)
Definition max_nesting : Z := 10000.

(** One value; the elements of an array after "["; the members of an object
    after "{".  [depth] counts the open brackets. *)
Fixpoint parse_value (fuel : nat) (depth : Z) (l : list Z) : option (json * list Z) :=
  match fuel with
  | O => None
  | S fuel =>
      match skip_ws l with
      | [] => None
      | z :: r =>
          if z =? 34 then
            match parse_chars (S (List.length r)) r [] with
            | Some (s, r) => Some (JString (bytes_str s), r)
            | None => None
            end
          else if z =? 91 then
            if max_nesting <=? depth then None
            else match skip_ws r with
            | 93 :: r => Some (JArray [], r)
            | _ => match parse_elements fuel (depth + 1) r with
                   | Some (vs, r) => Some (JArray vs, r)
                   | None => None
                   end
            end
          else if z =? 123 then
            if max_nesting <=? depth then None
            else match skip_ws r with
            | 125 :: r => Some (JObject [], r)
            | _ => match parse_members fuel (depth + 1) r with
                   | Some (ms, r) => Some (JObject ms, r)
                   | None => None
                   end
            end
          else if z =? 116 then option_map (pair (JBool true)) (take_word word_true (z :: r))
          else if z =? 102 then option_map (pair (JBool false)) (take_word word_false (z :: r))
          else if z =? 110 then option_map (pair JNull) (take_word word_null (z :: r))
          else match parse_number (z :: r) with
          | Some (n, r) => Some (JNumber (bytes_str n), r)
          | None => None
          end
      end
  end
with parse_elements (fuel : nat) (depth : Z) (l : list Z) : option (list json * list Z) :=
  match fuel with
  | O => None
  | S fuel =>
      match parse_value fuel depth l with
      | None => None
      | Some (v, r) =>
          match skip_ws r with
          | 93 :: r => Some ([v], r)
          | 44 :: r => match parse_elements fuel depth r with
                       | Some (vs, r) => Some (v :: vs, r)
                       | None => None
                       end
          | _ => None
          end
      end
  end
with parse_members (fuel : nat) (depth : Z) (l : list Z) : option (list (string * json) * list Z) :=
  match fuel with
  | O => None
  | S fuel =>
      match skip_ws l with
      | 34 :: r =>
          match parse_chars (S (List.length r)) r [] with
          | None => None
          | Some (k, r) =>
              match skip_ws r with
              | 58 :: r =>
                  match parse_value fuel depth r with
                  | None => None
                  | Some (v, r) =>
                      match skip_ws r with
                      | 125 :: r => Some ([(bytes_str k, v)], r)
                      | 44 :: r => match parse_members fuel depth r with
                                   | Some (ms, r) => Some ((bytes_str k, v) :: ms, r)
                                   | None => None
                                   end
                      | _ => None
                      end
                  end
              | _ => None
              end
          end
      | _ => None
      end
  end.

(** A whole text: one value between white space.  The fuel exceeds two calls per
    byte. *)
Definition parse_json (text : string) : option json :=
  let l := str_bytes text in
  match parse_value (2 * List.length l + 2) 0 l with
  | Some (v, r) => match skip_ws r with [] => Some v | _ => None end
  | None => None
  end.
