(* ===== verification/JsonEncode.v ===== *)
(** How [encoding/json] writes strings, integers and struct members, and what it
    reads back: the text determines the value. *)
From S2P Require Import Prelude Encoding Json.
From Stdlib Require Import String Ascii List ZArith Lia Bool.
From stdpp Require Import base strings list pretty.
Open Scope Z_scope.

(** Digits of a \u escape, in lower case. *)
Definition hex_code (d : Z) : Z := if d <? 10 then 48 + d else 87 + d.
Definition u_escape (a b c d : Z) : list Z := [92; 117; hex_code a; hex_code b; hex_code c; hex_code d].

(** One ASCII byte, with the HTML characters escaped. *)
Definition encode_ascii (b : Z) : list Z :=
  if (b =? 34) || (b =? 92) then [92; b]
  else if b =? 8 then [92; 98] else if b =? 12 then [92; 102] else if b =? 10 then [92; 110]
  else if b =? 13 then [92; 114] else if b =? 9 then [92; 116]
  else if (b <? 32) || (b =? 60) || (b =? 62) || (b =? 38) then u_escape 0 0 (b / 16) (b mod 16)
  else [b].

(** The text of the rune at the head of [l], and the bytes it takes. *)
Definition encode_one (l : list Z) : list Z * nat :=
  match l with
  | [] => ([], 0%nat)
  | b :: _ =>
      if b <? 128 then (encode_ascii b, 1%nat)
      else
        let '(c, w) := decode_rune l in
        if (c =? 65533) && (w =? 1)%nat then (u_escape 15 15 15 13, w)
        else if (c =? 8232) || (c =? 8233) then (u_escape 2 0 2 (c mod 16), w)
        else (firstn w l, w)
  end.

Fixpoint encode_chars (fuel : nat) (l : list Z) : list Z :=
  match fuel, l with
  | S fuel, _ :: _ => let '(e, w) := encode_one l in e ++ encode_chars fuel (skipn w l)
  | _, _ => []
  end.

(** What a reader makes of the bytes: every rune encoded anew, so that an invalid
    byte becomes U+FFFD. *)
Fixpoint coerce (fuel : nat) (l : list Z) : list Z :=
  match fuel, l with
  | S fuel, _ :: _ => let '(c, w) := decode_rune l in encode_rune c ++ coerce fuel (skipn w l)
  | _, _ => []
  end.

(** The text is UTF-8, as every string field of a protobuf message is. *)
Definition valid_utf8 (s : string) : Prop := coerce (String.length s) (str_bytes s) = str_bytes s.
#[export] Instance valid_utf8_dec s : Decision (valid_utf8 s).
Proof. unfold valid_utf8. apply _. Defined.

(** ** Reading back one rune *)

Lemma encode_ascii_read b fuel r acc :
  0 <= b < 128 ->
  parse_chars (S fuel) (encode_ascii b ++ r) acc = parse_chars fuel r (acc ++ [b]).
Proof.
  intros Hb.
  assert (Hin : In b (map Z.of_nat (seq 0 128))).
  { apply in_map_iff. exists (Z.to_nat b). split; [lia|]. apply in_seq. lia. }
  clear Hb. revert b Hin. apply List.Forall_forall.
  repeat (constructor; [reflexivity|]). constructor.
Qed.

Lemma decode_rune_width l : (snd (decode_rune l) <= List.length l)%nat.
Proof.
  destruct l as [|a r]; simpl; [lia|].
  repeat (case_goal; simpl in *); lia.
Qed.

(** Arithmetic over quotients and remainders by constants. *)
Ltac div_lia := Z.to_euclidean_division_equations; lia.

Ltac rune_lia := unfold encode_rune; repeat (case_goal; try (exfalso; lia)); repeat f_equal; div_lia.

Lemma encode_rune2 a b :
  194 <= a <= 223 -> 128 <= b <= 191 -> encode_rune ((a - 192) * 64 + (b - 128)) = [a; b].
Proof. intros. rune_lia. Qed.

Lemma encode_rune3 a b c :
  224 <= a <= 239 -> (if a =? 224 then 160 else 128) <= b <= (if a =? 237 then 159 else 191) ->
  128 <= c <= 191 -> encode_rune ((a - 224) * 4096 + (b - 128) * 64 + (c - 128)) = [a; b; c].
Proof. intros Ha Hb Hc. destruct (a =? 224) eqn:?, (a =? 237) eqn:?; rune_lia. Qed.

Lemma encode_rune4 a b c d :
  240 <= a <= 244 -> (if a =? 240 then 144 else 128) <= b <= (if a =? 244 then 143 else 191) ->
  128 <= c <= 191 -> 128 <= d <= 191 ->
  encode_rune ((a - 240) * 262144 + (b - 128) * 4096 + (c - 128) * 64 + (d - 128)) = [a; b; c; d].
Proof. intros Ha Hb Hc Hd. destruct (a =? 240) eqn:?, (a =? 244) eqn:?; rune_lia. Qed.

(** A rune that is not ASCII is either invalid, or a sequence that decodes the
    same in front of any text and encodes to itself. *)
Lemma decode_rune_high a r :
  128 <= a ->
  decode_rune (a :: r) = (65533, 1%nat) \/
  exists c w, decode_rune (a :: r) = (c, w) /\ (1 < w <= List.length (a :: r))%nat /\ 128 <= c /\
    encode_rune c = firstn w (a :: r) /\
    forall t, decode_rune (firstn w (a :: r) ++ t) = (c, w).
Proof.
  intros Ha. cbn [decode_rune].
  rewrite (proj2 (Z.ltb_ge a 128)) by lia.
  destruct ((194 <=? a) && (a <=? 223)) eqn:H2.
  { destruct r as [|b r]; [by left|]. destruct (cont b) eqn:Hb; [|by left].
    right. unfold cont in Hb. eexists _, _. split_and!; [reflexivity | simpl; lia | simpl; lia | lia | |].
    - rewrite encode_rune2 by lia. reflexivity.
    - intros t. cbn [firstn app decode_rune]. rewrite (proj2 (Z.ltb_ge a 128)) by lia.
      unfold cont. by rewrite H2, Hb. }
  destruct ((224 <=? a) && (a <=? 239)) eqn:H3.
  { destruct r as [|b [|c r]]; [by left|by left|].
    destruct ((_ <=? b) && (b <=? _) && cont c) eqn:Hb; [|by left].
    right. eexists _, _. split_and!; [reflexivity | simpl; lia | simpl; lia | | |].
    - unfold cont in Hb. destruct (a =? 224) eqn:?; lia.
    - unfold cont in Hb. rewrite encode_rune3 by lia. reflexivity.
    - intros t. cbn [firstn app decode_rune]. rewrite (proj2 (Z.ltb_ge a 128)) by lia.
      cbv zeta. by rewrite H2, H3, Hb. }
  destruct ((240 <=? a) && (a <=? 244)) eqn:H4; [|by left].
  destruct r as [|b [|c [|d r]]]; [by left|by left|by left|].
  destruct ((_ <=? b) && (b <=? _) && cont c && cont d) eqn:Hb; [|by left].
  right. eexists _, _. split_and!; [reflexivity | simpl; lia | simpl; lia | | |].
  - unfold cont in Hb. destruct (a =? 240) eqn:?; lia.
  - unfold cont in Hb. rewrite encode_rune4 by lia. reflexivity.
  - intros t. cbn [firstn app decode_rune]. rewrite (proj2 (Z.ltb_ge a 128)) by lia.
    cbv zeta. by rewrite H2, H3, H4, Hb.
Qed.

(** ** Reading back a string *)

Lemma encode_one_read b l e w c w' fuel r acc :
  0 <= b -> encode_one (b :: l) = (e, w) -> decode_rune (b :: l) = (c, w') ->
  w = w' /\ (1 <= w)%nat /\
  parse_chars (S fuel) (e ++ r) acc = parse_chars fuel r (acc ++ encode_rune c).
Proof.
  intros Hb He Hd. unfold encode_one in He. destruct (b <? 128) eqn:Hlt.
  - injection He as <- <-. simpl in Hd. rewrite Hlt in Hd. injection Hd as <- <-.
    split_and!; [done|lia|]. rewrite encode_ascii_read by lia. f_equal. f_equal. rune_lia.
  - destruct (decode_rune_high b l ltac:(lia)) as [Hi|(c0 & w0 & Hc & Hw & Hc0 & Henc & Hdec)].
    + rewrite Hi in He, Hd. injection He as <- <-. injection Hd as <- <-. done.
    + rewrite Hc in He, Hd. injection Hd as <- <-.
      rewrite (proj2 (Nat.eqb_neq w0 1)), andb_false_r in He by lia.
      destruct ((c0 =? 8232) || (c0 =? 8233)) eqn:H2.
      { injection He as <- <-. split_and!; [done|lia|].
        apply orb_true_iff in H2 as [H2|H2]; apply Z.eqb_eq in H2 as ->; reflexivity. }
      injection He as <- <-. split_and!; [done|lia|].
      destruct w0 as [|w0]; [lia|].
      change (firstn (S w0) (b :: l)) with (b :: firstn w0 l) in *. cbn [app parse_chars].
      rewrite (proj2 (Z.eqb_neq b 34)), (proj2 (Z.ltb_ge b 32)), (proj2 (Z.eqb_neq b 92)) by lia.
      specialize (Hdec r). cbn [app] in Hdec. rewrite Hdec. f_equal.
      cbn [skipn]. rewrite skipn_app, length_firstn.
      rewrite skipn_all2 by (rewrite length_firstn; simpl in Hw; lia).
      simpl in Hw. replace (w0 - _)%nat with O by lia. done.
Qed.

Lemma encode_chars_read n l fuel rest acc :
  (List.length l <= n)%nat -> (n < fuel)%nat -> Forall (fun b => 0 <= b) l ->
  parse_chars fuel (encode_chars n l ++ 34 :: rest) acc = Some (acc ++ coerce n l, rest).
Proof.
  revert l fuel acc. induction n as [|n IH]; intros l fuel acc Hl Hf Hp.
  - destruct l; [|simpl in Hl; lia]. destruct fuel as [|fuel]; [lia|]. simpl. by rewrite app_nil_r.
  - destruct l as [|b l].
    { destruct fuel as [|fuel]; [lia|]. simpl. by rewrite app_nil_r. }
    destruct fuel as [|fuel]; [lia|]. inversion Hp as [|? ? Hb Hp']; subst.
    destruct (encode_one (b :: l)) as [e w] eqn:He, (decode_rune (b :: l)) as [c w'] eqn:Hd.
    cbn [encode_chars coerce]. rewrite He, Hd, <- app_assoc.
    destruct (encode_one_read b l e w c w' fuel (encode_chars n (skipn w (b :: l)) ++ 34 :: rest) acc
                Hb He Hd) as (<- & Hw & ->).
    rewrite IH; [by rewrite <- app_assoc | | lia |].
    + rewrite length_skipn. simpl in *. lia.
    + by apply Forall_drop.
Qed.

(** A quoted string. *)
Definition json_string (s : string) : string :=
  String "034" (bytes_str (encode_chars (String.length s) (str_bytes s)) +:+ String "034" EmptyString).

(** ** Integers *)

Lemma pretty_N_go_has_char c x s :
  (forall n, pretty_N_char n <> c) -> has_char c s = false -> has_char c (pretty_N_go x s) = false.
Proof.
  intros Hc. revert s. induction (N.lt_wf_0 x) as [x _ IH]; intros s Hs.
  destruct (decide (x = 0)%N) as [->|Hx]; [by rewrite pretty_N_go_0|].
  rewrite pretty_N_go_step by lia. apply IH; [apply N.div_lt; lia|].
  simpl. rewrite Hs, orb_false_r. apply Ascii.eqb_neq. intros ->. by apply (Hc (x mod 10)%N).
Qed.

(** Only digits and a minus sign occur in an integer's text. *)
Lemma pretty_Z_has_char c (z : Z) :
  (forall n, pretty_N_char n <> c) -> c <> "-"%char -> has_char c (pretty z) = false.
Proof.
  intros Hc Hm.
  assert (HN : forall n : N, has_char c (pretty n) = false).
  { intros n. unfold pretty, pretty_N. case_decide.
    - simpl. rewrite orb_false_r. apply Ascii.eqb_neq. intros ->. by apply (Hc 0%N).
    - by apply pretty_N_go_has_char. }
  destruct z as [|p|p]; [apply (HN 0%N) | apply (HN (Npos p)) |].
  change (has_char c (String "-" (pretty (Npos p))) = false). simpl. rewrite HN, orb_false_r.
  by apply Ascii.eqb_neq.
Qed.

(** ** The text of a string determines it *)

Lemma encode_ascii_range b : 0 <= b < 128 -> Forall (fun z => 0 <= z < 256) (encode_ascii b).
Proof.
  intros Hb. unfold encode_ascii, u_escape, hex_code.
  repeat case_goal; repeat constructor; div_lia.
Qed.

Lemma encode_chars_range n l :
  Forall (fun z => 0 <= z < 256) l -> Forall (fun z => 0 <= z < 256) (encode_chars n l).
Proof.
  revert l. induction n as [|n IH]; intros l Hl; [constructor|]. destruct l as [|b l]; [constructor|].
  cbn [encode_chars]. destruct (encode_one (b :: l)) as [e w] eqn:He.
  apply Forall_app. split; [|by apply IH, Forall_drop]. inversion Hl; subst.
  unfold encode_one in He. destruct (b <? 128) eqn:Hlt.
  { injection He as <- _. apply encode_ascii_range. lia. }
  destruct (decode_rune (b :: l)) as [c w']. destruct (_ && _).
  { injection He as <- _. vm_compute. repeat constructor; discriminate. }
  destruct (_ || _).
  { injection He as <- _. unfold u_escape, hex_code.
    repeat (constructor; [case_goal; div_lia|]). constructor. }
  injection He as <- _. by apply Forall_take.
Qed.

Lemma str_bytes_bytes_str l : Forall (fun z => 0 <= z < 256) l -> str_bytes (bytes_str l) = l.
Proof.
  induction 1 as [|b l Hb _ IH]; [done|].
  change (byte_val (byte_of b) :: str_bytes (bytes_str l) = b :: l).
  by rewrite byte_val_of, IH.
Qed.

Lemma str_bytes_app s t : str_bytes (s +:+ t) = str_bytes s ++ str_bytes t.
Proof. unfold str_bytes. by rewrite list_ascii_app, map_app. Qed.

Lemma json_string_bytes s r :
  str_bytes (json_string s +:+ r) =
  34 :: encode_chars (String.length s) (str_bytes s) ++ 34 :: str_bytes r.
Proof.
  unfold json_string. change (String "034" ?x +:+ r) with (String "034" (x +:+ r)).
  change (str_bytes (String "034" ?x)) with (34 :: str_bytes x).
  rewrite !str_bytes_app, str_bytes_bytes_str, <- app_assoc by (apply encode_chars_range, str_bytes_range).
  done.
Qed.

Lemma json_string_inj s t r r' :
  valid_utf8 s -> valid_utf8 t -> json_string s +:+ r = json_string t +:+ r' -> s = t /\ r = r'.
Proof.
  intros Hs Ht H. apply (f_equal str_bytes) in H. rewrite !json_string_bytes in H. injection H as H.
  set (n := Nat.max (String.length s) (String.length t)).
  assert (Hread : forall u x, (String.length u <= n)%nat ->
    parse_chars (S n) (encode_chars (String.length u) (str_bytes u) ++ 34 :: x) [] =
    Some (coerce (String.length u) (str_bytes u), x)).
  { intros u x Hu. apply encode_chars_read; [by rewrite length_str_bytes|lia|].
    eapply Forall_impl; [apply str_bytes_range|]. simpl. lia. }
  pose proof (Hread s (str_bytes r) ltac:(lia)) as H1. rewrite H, Hread in H1 by lia.
  injection H1 as H1 H2. rewrite Hs, Ht in H1.
  split; symmetry; by apply str_bytes_inj.
Qed.

(** ** Objects *)

Inductive jval := JS (s : string) | JI (z : Z).

Definition jval_text (v : jval) : string :=
  match v with JS s => json_string s | JI z => pretty z end.

Definition jval_ok (v : jval) : Prop := match v with JS s => valid_utf8 s | JI _ => True end.

Definition member_text (kv : string * jval) : string := json_string kv.1 +:+ ":" +:+ jval_text kv.2.

(** The members after the opening brace. *)
Fixpoint members_text (ms : list (string * jval)) : string :=
  match ms with
  | [] => "}"
  | [kv] => member_text kv +:+ "}"
  | kv :: ms => member_text kv +:+ "," +:+ members_text ms
  end.

Definition json_object (ms : list (string * jval)) : string := "{" +:+ members_text ms.

(** ** An object determines its members *)

Definition stop (c : ascii) : Prop := c = ","%char \/ c = "}"%char.

Lemma pretty_N_char_other n c : is_digit (byte_val c) = false -> pretty_N_char n <> c.
Proof. intros H <-. revert H. unfold pretty_N_char. by repeat case_match. Qed.

Lemma pretty_Z_stop c (z : Z) : stop c -> has_char c (pretty z) = false.
Proof.
  intros Hc. apply pretty_Z_has_char; [|by destruct Hc; subst].
  intros n. by destruct Hc; subst; apply pretty_N_char_other.
Qed.

Lemma pretty_Z_quote (z : Z) : has_char "034" (pretty z) = false.
Proof. apply pretty_Z_has_char; [|done]. intros n. by apply pretty_N_char_other. Qed.

Lemma stop_inj s t c d u v :
  (forall c, stop c -> has_char c s = false) -> (forall c, stop c -> has_char c t = false) ->
  stop c -> stop d -> s +:+ String c u = t +:+ String d v -> s = t /\ String c u = String d v.
Proof.
  intros Hs Ht Hc Hd. revert t Ht. induction s as [|a s IH]; intros [|b t] Ht H; simpl in H.
  - done.
  - injection H as -> _. specialize (Ht _ Hc). simpl in Ht. by rewrite Ascii.eqb_refl in Ht.
  - injection H as <- _. specialize (Hs _ Hd). simpl in Hs. by rewrite Ascii.eqb_refl in Hs.
  - injection H as <- H. destruct (IH) with (t := t) as [-> ?]; [| |done|done].
    + intros e He. specialize (Hs e He). simpl in Hs. by apply orb_false_iff in Hs as [_ ?].
    + intros e He. specialize (Ht e He). simpl in Ht. by apply orb_false_iff in Ht as [_ ?].
Qed.

Lemma json_string_not_number s (z : Z) c u v :
  stop c -> json_string s +:+ u <> pretty z +:+ String c v.
Proof.
  intros Hc H. unfold json_string in H. pose proof (pretty_Z_quote z) as Hq.
  destruct (pretty z) as [|a p]; simpl in H; injection H as Ha _; simpl in Hq.
  - destruct Hc; congruence.
  - by subst a.
Qed.

Lemma jval_text_inj v v' c c' r r' :
  jval_ok v -> jval_ok v' -> stop c -> stop c' ->
  jval_text v +:+ String c r = jval_text v' +:+ String c' r' -> v = v' /\ String c r = String c' r'.
Proof.
  intros Hv Hv' Hc Hc'. destruct v as [s|z], v' as [s'|z']; cbn [jval_text]; intros H.
  - by destruct (json_string_inj _ _ _ _ Hv Hv' H) as [-> ?].
  - by destruct (json_string_not_number s z' c' _ r' Hc' H).
  - symmetry in H. by destruct (json_string_not_number s' z c _ r Hc H).
  - destruct (stop_inj (pretty z) (pretty z') c c' r r') as [Hz ?]; auto using pretty_Z_stop.
    by apply (inj pretty) in Hz as ->.
Qed.

Definition member_ok (kv : string * jval) : Prop := valid_utf8 kv.1 /\ jval_ok kv.2.

Lemma member_text_inj kv kv' c c' r r' :
  member_ok kv -> member_ok kv' -> stop c -> stop c' ->
  member_text kv +:+ String c r = member_text kv' +:+ String c' r' ->
  kv = kv' /\ String c r = String c' r'.
Proof.
  destruct kv as [k v], kv' as [k' v']. intros [Hk Hv] [Hk' Hv'] Hc Hc'. unfold member_text.
  cbn [fst snd]. rewrite !string_app_assoc. intros H.
  apply json_string_inj in H as [-> H]; [|done..]. injection H as H.
  by apply jval_text_inj in H as [-> ?].
Qed.

Lemma json_string_not_close s r : json_string s +:+ r <> "}".
Proof. done. Qed.

Lemma members_text_inj ms ms' :
  Forall member_ok ms -> Forall member_ok ms' -> members_text ms = members_text ms' -> ms = ms'.
Proof.
  intros H. revert ms'. induction H as [|kv ms Hkv Hms IH]; intros ms' Hms' Ht.
  - destruct Hms' as [|kv' ms' _ _]; [done|]. by destruct ms'.
  - destruct Hms' as [|kv' ms' Hkv' Hms']; [by destruct ms|].
    assert (Hs1 : stop ",") by by left. assert (Hs2 : stop "}") by by right.
    destruct ms as [|kv2 ms], ms' as [|kv2' ms']; cbn [members_text] in Ht;
      apply member_text_inj in Ht as [-> Ht]; try done.
    injection Ht as Ht. f_equal. by apply IH.
Qed.

(** The text of an object determines its members. *)
Lemma json_object_inj ms ms' :
  Forall member_ok ms -> Forall member_ok ms' -> json_object ms = json_object ms' -> ms = ms'.
Proof. intros H H' Ht. injection Ht as Ht. by apply members_text_inj. Qed.
