(* ===== verification/JsonDecode.v ===== *)
(** Reading a JSON object into a Go struct, as [encoding/json] does, and the round
    trip with the writer of [JsonEncode].

    A member belongs to the field whose name it equals up to letter case; the last
    one that is not null counts; a member of another type is an error; members that
    name no field are skipped. *)
From S2P Require Import Prelude Errors Encoding Json JsonEncode.
From Stdlib Require Import String Ascii List ZArith Lia Bool.
From stdpp Require Import base strings list pretty.
Open Scope Z_scope.

(** [foldName], as far as it can meet an ASCII name: lower case letters are raised,
    the long s folds to S and the Kelvin sign to K. *)
Fixpoint fold_bytes (l : list Z) : list Z :=
  match l with
  | 197 :: 191 :: r => 83 :: fold_bytes r
  | 226 :: 132 :: 170 :: r => 75 :: fold_bytes r
  | b :: r => (if (97 <=? b) && (b <=? 122) then b - 32 else b) :: fold_bytes r
  | [] => []
  end.

Definition fold_name (s : string) : string := bytes_str (fold_bytes (str_bytes s)).

Definition field_key (name key : string) : bool := String.eqb (fold_name key) (fold_name name).

(** [strconv.ParseInt(s, 10, 64)] on the digits, least and greatest int64. *)
Definition ParseInt64 (s : string) : option Z :=
  let '(neg, l) := match str_bytes s with
                   | b :: r => if b =? 45 then (true, r) else if b =? 43 then (false, r) else (false, b :: r)
                   | [] => (false, [])
                   end in
  match digits1 l with
  | Some (ds, []) =>
      let n := undigits 10 (map (fun b => b - 48) ds) in
      let z := if neg then - n else n in
      if (- 2 ^ 63 <=? z) && (z <? 2 ^ 63) then Some z else None
  | _ => None
  end.

(** A value for a field: [None] on a type mismatch, [Some None] for null. *)
Definition rd_string (v : json) : option (option string) :=
  match v with JString s => Some (Some s) | JNull => Some None | _ => None end.
Definition rd_int64 (v : json) : option (option Z) :=
  match v with
  | JNumber t => match ParseInt64 t with Some z => Some (Some z) | None => None end
  | JNull => Some None
  | _ => None
  end.

Fixpoint read_field {A} (rd : json -> option (option A)) (name : string) (ms : list (string * json)) (cur : A) : option A :=
  match ms with
  | [] => Some cur
  | (k, v) :: ms =>
      if field_key name k then
        match rd v with
        | Some (Some a) => read_field rd name ms a
        | Some None => read_field rd name ms cur
        | None => None
        end
      else read_field rd name ms cur
  end.

Definition read_string (name : string) (ms : list (string * json)) : option string := read_field rd_string name ms "".
Definition read_int64 (name : string) (ms : list (string * json)) : option Z := read_field rd_int64 name ms 0.

(** The members a text holds for a struct; null leaves the struct as it is. *)
Definition struct_members (text : string) : option (list (string * json)) :=
  match parse_json text with
  | Some (JObject ms) => Some ms
  | Some JNull => Some []
  | _ => None
  end.

Example read_case : read_string "seq" [("SEQ", JString "a"); ("ſeq", JString "b"); ("x", JNull); ("seq", JNull)] = Some "b"%string.
Proof. vm_compute. reflexivity. Qed.
Example read_int_ex : read_int64 "seq" [("seq", JNumber "12")] = Some 12 /\ read_int64 "seq" [("seq", JNumber "1.0")] = None /\
  read_int64 "seq" [("seq", JNumber "9223372036854775808")] = None.
Proof. vm_compute. auto. Qed.

(** ** The text of an integer *)

Definition codes (ds : list Z) : list Z := map (Z.add 48) ds.

Lemma pretty_N_char_code d : (d < 10)%N -> byte_val (pretty_N_char d) = 48 + Z.of_N d.
Proof.
  intros Hd. assert (d = 0 \/ d = 1 \/ d = 2 \/ d = 3 \/ d = 4 \/ d = 5 \/ d = 6 \/ d = 7 \/ d = 8 \/ d = 9)%N by lia.
  naive_solver.
Qed.

(** The digits of a positive number, the first of them not zero. *)
Lemma pretty_N_go_digits x s :
  (0 < x)%N -> exists d ds, str_bytes (pretty_N_go x s) = codes (d :: ds) ++ str_bytes s /\ 1 <= d < 10 /\
    Forall (fun d => 0 <= d < 10) ds /\ undigits 10 (d :: ds) = Z.of_N x.
Proof.
  revert s. induction (N.lt_wf_0 x) as [x _ IH]; intros s Hx.
  rewrite pretty_N_go_step by done.
  assert (Hm : (x mod 10 < 10)%N) by (apply N.mod_lt; lia).
  assert (Hdm : x = (10 * (x / 10) + x mod 10)%N) by (apply N.div_mod; lia).
  assert (Hcons : forall t, str_bytes (String (pretty_N_char (x mod 10)) t) = (48 + Z.of_N (x mod 10)) :: str_bytes t).
  { intros t. unfold str_bytes. cbn [list_ascii_of_string map]. by rewrite pretty_N_char_code. }
  destruct (decide (x / 10 = 0)%N) as [He|He].
  - rewrite He in Hdm. rewrite He, pretty_N_go_0, Hcons. set (m := (x mod 10)%N) in *. clearbody m. exists (Z.of_N m), []. split_and!; [done|lia|lia|constructor|].
    unfold undigits. cbn [fold_left]. lia.
  - destruct (IH (x / 10)%N ltac:(apply N.div_lt; lia) (String (pretty_N_char (x mod 10)) s)) as (d & ds & -> & Hd & Hds & Hv); [lia|].
    rewrite Hcons. set (m := (x mod 10)%N) in *. set (q := (x / 10)%N) in *. clearbody m q.
    exists d, (ds ++ [Z.of_N m]). change (d :: ds ++ [Z.of_N m]) with ((d :: ds) ++ [Z.of_N m]). split_and!; try lia.
    + unfold codes. by rewrite map_app, <- app_assoc.
    + apply Forall_app. split; [done|]. constructor; [lia|constructor].
    + rewrite undigits_snoc, Hv. lia.
Qed.

(** The text of an integer: a sign, and digits without leading zeros. *)
Lemma pretty_Z_digits (z : Z) : exists d ds,
  str_bytes (pretty z) = (if z <? 0 then [45] else []) ++ codes (d :: ds) /\ 0 <= d < 10 /\ (d = 0 -> ds = []) /\
  Forall (fun d => 0 <= d < 10) ds /\ undigits 10 (d :: ds) = Z.abs z.
Proof.
  assert (Hpos : forall p, exists d ds, str_bytes (pretty (Npos p)) = codes (d :: ds) /\ 0 <= d < 10 /\ (d = 0 -> ds = []) /\
    Forall (fun d => 0 <= d < 10) ds /\ undigits 10 (d :: ds) = Z.pos p).
  { intros p. destruct (pretty_N_go_digits (Npos p) EmptyString) as (d & ds & Ht & Hd & Hds & Hv); [lia|].
    exists d, ds. unfold pretty, pretty_N. rewrite decide_False by done. rewrite Ht, app_nil_r. split_and!; try done; lia. }
  destruct z as [|p|p].
  - exists 0, []. split_and!; try done; constructor.
  - destruct (Hpos p) as (d & ds & Ht & H). exists d, ds. by split.
  - destruct (Hpos p) as (d & ds & Ht & H). exists d, ds. split; [|done].
    change (pretty (Zneg p)) with (String "-" (pretty (Npos p))). unfold str_bytes in *. simpl. by rewrite Ht.
Qed.

Lemma is_digit_code d : 0 <= d < 10 -> is_digit (48 + d) = true.
Proof. intros Hd. unfold is_digit. apply andb_true_iff. split; apply Z.leb_le; lia. Qed.

Lemma span_digits_codes ds l :
  Forall (fun d => 0 <= d < 10) ds -> (match l with b :: _ => is_digit b = false | [] => True end) ->
  span_digits (codes ds ++ l) = (codes ds, l).
Proof.
  intros Hds Hl. induction Hds as [|d ds Hd _ IH].
  - destruct l as [|b l]; [done|]. simpl. by rewrite Hl.
  - unfold codes in *. cbn [map app span_digits]. by rewrite is_digit_code, IH.
Qed.

Lemma digits1_codes d ds l :
  0 <= d < 10 -> Forall (fun d => 0 <= d < 10) ds -> (match l with b :: _ => is_digit b = false | [] => True end) ->
  digits1 (codes (d :: ds) ++ l) = Some (codes (d :: ds), l).
Proof. intros Hd Hds Hl. unfold digits1. by rewrite span_digits_codes by (done || by constructor). Qed.

Lemma ParseInt64_pretty (z : Z) : - 2 ^ 63 <= z < 2 ^ 63 -> ParseInt64 (pretty z) = Some z.
Proof.
  intros Hz. destruct (pretty_Z_digits z) as (d & ds & Ht & Hd & _ & Hds & Hv).
  assert (Hback : map (fun b => b - 48) (codes (d :: ds)) = d :: ds).
  { unfold codes. rewrite map_map. rewrite <- (map_id (d :: ds)) at 2. apply map_ext. intros x. lia. }
  unfold ParseInt64. rewrite Ht. pose proof (digits1_codes d ds [] Hd Hds I) as H1. rewrite app_nil_r in H1.
  assert (Hrange : (- 2 ^ 63 <=? z) && (z <? 2 ^ 63) = true) by (apply andb_true_iff; split; [apply Z.leb_le|apply Z.ltb_lt]; lia).
  destruct (z <? 0) eqn:Hneg; cbn [app].
  - cbn [Z.eqb Pos.eqb]. rewrite H1, Hback, Hv. replace (- Z.abs z) with z by lia. by rewrite Hrange.
  - change (codes (d :: ds)) with ((48 + d) :: codes ds) in *. cbv beta iota.
    rewrite (proj2 (Z.eqb_neq (48 + d) 45)), (proj2 (Z.eqb_neq (48 + d) 43)) by lia.
    rewrite H1, Hback, Hv, Z.abs_eq by lia. by rewrite Hrange.
Qed.

(** ** Reading back what the writer writes *)

(** The parsed form of a value. *)
Definition to_json (v : jval) : json := match v with JS s => JString s | JI z => JNumber (pretty z) end.
Definition to_member (kv : string * jval) : string * json := (kv.1, to_json kv.2).

Lemma parse_string_text s r fuel :
  valid_utf8 s -> (String.length s < fuel)%nat ->
  parse_chars fuel (encode_chars (String.length s) (str_bytes s) ++ 34 :: r) [] = Some (str_bytes s, r).
Proof.
  intros Hs Hf. rewrite encode_chars_read; [by rewrite Hs|by rewrite length_str_bytes|done|].
  eapply Forall_impl; [apply str_bytes_range|]. simpl. lia.
Qed.

Lemma decode_rune_width4 l : ((decode_rune l).2 <= 4)%nat.
Proof.
  destruct l as [|a r]; simpl; [lia|].
  repeat (case_goal; simpl in *); lia.
Qed.

Lemma encode_one_width b l : 0 <= b -> (1 <= (encode_one (b :: l)).2 <= List.length (encode_one (b :: l)).1)%nat.
Proof.
  intros Hb. destruct (encode_one (b :: l)) as [e w] eqn:He, (decode_rune (b :: l)) as [c w'] eqn:Hd.
  destruct (encode_one_read b l e w c w' 0 [] [] Hb He Hd) as (<- & H1 & _). cbn [fst snd]. split; [done|].
  pose proof (decode_rune_width (b :: l)) as Hw. rewrite Hd in Hw. simpl snd in Hw.
  unfold encode_one in He. rewrite Hd in He. destruct (b <? 128) eqn:Hlt.
  { injection He as <- <-. unfold encode_ascii, u_escape. repeat case_goal; simpl; lia. }
  unfold u_escape in He. destruct (_ && _) eqn:H2; [injection He as <-; apply andb_true_iff in H2 as [_ H2]; apply Nat.eqb_eq in H2; simpl; lia|].
  destruct (_ || _); injection He as <-; [|rewrite length_firstn; lia].
  unfold u_escape. pose proof (decode_rune_width4 (b :: l)) as H4. rewrite Hd in H4. simpl in *. lia.
Qed.

Lemma encode_chars_length n l : (List.length l <= n)%nat -> Forall (fun b => 0 <= b) l ->
  (List.length l <= List.length (encode_chars n l))%nat.
Proof.
  revert l. induction n as [|n IH]; intros l Hl Hp; [lia|]. destruct l as [|b l]; [simpl; lia|].
  inversion Hp as [|? ? Hb _]; subst. pose proof (encode_one_width b l Hb) as Hw. cbn [encode_chars].
  destruct (encode_one (b :: l)) as [e w]. cbn [fst snd] in Hw. rewrite length_app.
  pose proof (IH (skipn w (b :: l))) as H. rewrite length_skipn in H. cbn [List.length] in *.
  specialize (H ltac:(lia) ltac:(by apply Forall_drop)). lia.
Qed.

Lemma bytes_str_bytes s : bytes_str (str_bytes s) = s.
Proof. apply str_bytes_inj, str_bytes_bytes_str, str_bytes_range. Qed.

(** A string under the fuel of the parser. *)
Lemma parse_string_whole s r :
  valid_utf8 s ->
  parse_chars (S (List.length (encode_chars (String.length s) (str_bytes s) ++ 34 :: r)))
    (encode_chars (String.length s) (str_bytes s) ++ 34 :: r) [] = Some (str_bytes s, r).
Proof.
  intros Hs. apply parse_string_text; [done|]. rewrite length_app.
  assert (Hp : Forall (fun b => 0 <= b) (str_bytes s)) by (eapply Forall_impl; [apply str_bytes_range|]; simpl; lia).
  pose proof (encode_chars_length (String.length s) (str_bytes s)) as H.
  rewrite length_str_bytes in H. specialize (H (le_n _) Hp). simpl. lia.
Qed.

(** One string, one value, the members, the object. *)
Lemma parse_json_string s r fuel depth :
  valid_utf8 s -> parse_value (S fuel) depth (str_bytes (json_string s +:+ r)) = Some (JString s, str_bytes r).
Proof.
  intros Hs. rewrite json_string_bytes. cbn [parse_value skip_ws Z.eqb Pos.eqb orb].
  by rewrite parse_string_whole, bytes_str_bytes.
Qed.

(** A byte that ends a number. *)
Definition ends_number (l : list Z) : Prop := exists b r, l = b :: r /\ (b = 44 \/ b = 125 \/ b = 93).

Lemma parse_number_text (z : Z) l : ends_number l -> parse_number (str_bytes (pretty z) ++ l) = Some (str_bytes (pretty z), l).
Proof.
  intros (b & r & -> & Hb). destruct (pretty_Z_digits z) as (d & ds & -> & Hd & H0 & Hds & _).
  assert (Hint : parse_int (codes (d :: ds) ++ b :: r) = Some (codes (d :: ds), b :: r)).
  { unfold parse_int. destruct (decide (d = 0)) as [->|Hne]; [by rewrite (H0 eq_refl)|].
    rewrite digits1_codes; [|done..|by destruct Hb as [-> | [-> | ->]]].
    change (codes (d :: ds) ++ b :: r) with ((48 + d) :: (codes ds ++ b :: r)).
    assert (Hd' : 49 <= 48 + d < 58) by lia. destruct (48 + d) as [|p|p]; [done| |done].
    by repeat (destruct p as [p|p|]; try done; try lia). }
  assert (Hfrac : parse_frac (b :: r) = Some ([], b :: r)) by by destruct Hb as [-> | [-> | ->]].
  assert (Hexp : parse_exp (b :: r) = Some ([], b :: r)) by by destruct Hb as [-> | [-> | ->]].
  unfold parse_number. destruct (z <? 0).
  - cbn [app]. by rewrite Hint, Hfrac, Hexp, !app_nil_r.
  - cbn [app]. set (l := codes (d :: ds) ++ b :: r) in *.
    assert (Hm : (match l with 45 :: r0 => ([45], r0) | _ => ([], l) end) = ([], l)).
    { subst l. change (codes (d :: ds) ++ b :: r) with ((48 + d) :: (codes ds ++ b :: r)).
      assert (Hd' : 48 <= 48 + d < 58) by lia. destruct (48 + d) as [|p|p]; [done| |done].
      by repeat (destruct p as [p|p|]; try done; try lia). }
    by rewrite Hm, Hint, Hfrac, Hexp, !app_nil_r.
Qed.

Lemma parse_value_number b r fuel depth :
  b = 45 \/ 48 <= b < 58 ->
  parse_value (S fuel) depth (b :: r) =
  match parse_number (b :: r) with Some (n, r) => Some (JNumber (bytes_str n), r) | None => None end.
Proof.
  intros Hb. cbn [parse_value skip_ws].
  rewrite (proj2 (Z.eqb_neq b 32)), (proj2 (Z.eqb_neq b 9)), (proj2 (Z.eqb_neq b 10)), (proj2 (Z.eqb_neq b 13)) by lia.
  cbn [orb].
  by rewrite (proj2 (Z.eqb_neq b 34)), (proj2 (Z.eqb_neq b 91)), (proj2 (Z.eqb_neq b 123)), (proj2 (Z.eqb_neq b 116)),
    (proj2 (Z.eqb_neq b 102)), (proj2 (Z.eqb_neq b 110)) by lia.
Qed.

Lemma stop_ends c r : stop c -> ends_number (str_bytes (String c r)).
Proof. intros Hc. exists (byte_val c), (str_bytes r). split; [done|]. destruct Hc as [-> | ->]; auto. Qed.

Lemma parse_value_text v c r fuel depth :
  jval_ok v -> stop c ->
  parse_value (S fuel) depth (str_bytes (jval_text v +:+ String c r)) = Some (to_json v, str_bytes (String c r)).
Proof.
  intros Hv Hc. destruct v as [s|z]; cbn [jval_text to_json]; [by apply parse_json_string|].
  pose proof (parse_number_text z _ (stop_ends c r Hc)) as H. rewrite str_bytes_app.
  destruct (pretty_Z_digits z) as (d & ds & Ht & Hd & _).
  destruct (str_bytes (pretty z)) as [|b l] eqn:Hl; [by destruct (z <? 0)|]. cbn [app] in *.
  rewrite parse_value_number, H, <- Hl, bytes_str_bytes; [done|].
  destruct (z <? 0); injection Ht as -> _; [by left|right; lia].
Qed.

Lemma parse_members_text ms fuel depth :
  Forall member_ok ms -> ms <> [] -> (List.length ms < fuel)%nat ->
  parse_members fuel depth (str_bytes (members_text ms)) = Some (map to_member ms, []).
Proof.
  intros Hms. revert fuel. induction Hms as [|[k v] ms [Hk Hv] Hms IH]; intros fuel Hne Hf; [done|].
  destruct fuel as [|fuel]; [lia|]. destruct fuel as [|fuel]; [simpl in Hf; lia|].
  assert (Hstart : forall c rest, stop c -> parse_members (S (S fuel)) depth (str_bytes (member_text (k, v) +:+ String c rest)) =
    match c with
    | "}"%char => Some ([to_member (k, v)], str_bytes rest)
    | _ => match parse_members (S fuel) depth (str_bytes rest) with
           | Some (ms, r) => Some (to_member (k, v) :: ms, r)
           | None => None
           end
    end).
  { intros c rest Hc. unfold member_text. cbn [fst snd]. rewrite !string_app_assoc, json_string_bytes.
    cbn [parse_members skip_ws Z.eqb Pos.eqb orb]. rewrite parse_string_whole by done.
    change (str_bytes (":" +:+ ?x)) with (58 :: str_bytes x). cbn [skip_ws Z.eqb Pos.eqb orb].
    rewrite parse_value_text by done. unfold to_member. cbn [fst snd]. rewrite bytes_str_bytes. by destruct Hc as [-> | ->]. }
  destruct ms as [|kv ms]; cbn [members_text].
  - by rewrite Hstart by by right.
  - change ("," +:+ ?x) with (String "," x). rewrite Hstart by by left. by rewrite IH by (done || (simpl in *; lia)).
Qed.

Lemma members_text_length ms : (List.length ms <= String.length (members_text ms))%nat.
Proof.
  assert (Hm : forall kv, (1 <= String.length (member_text kv))%nat).
  { intros kv. unfold member_text, json_string. simpl. lia. }
  induction ms as [|kv ms IH]; [simpl; lia|]. specialize (Hm kv).
  destruct ms as [|kv' ms]; cbn [members_text] in *; rewrite ?string_app_length; simpl in *; lia.
Qed.

Lemma members_text_head kv ms : exists r, str_bytes (members_text (kv :: ms)) = 34 :: r.
Proof.
  destruct ms as [|kv' ms]; cbn [members_text]; unfold member_text; rewrite !string_app_assoc, json_string_bytes; eauto.
Qed.

(** What the writer writes is read back. *)
Lemma parse_json_object ms :
  Forall member_ok ms -> parse_json (json_object ms) = Some (JObject (map to_member ms)).
Proof.
  intros Hms. unfold parse_json, json_object. change (str_bytes ("{" +:+ ?x)) with (123 :: str_bytes x).
  destruct (decide (ms = [])) as [->|Hne]; [done|].
  pose proof (members_text_length ms) as Hlen. rewrite <- length_str_bytes in Hlen.
  set (fuel := (2 * _ + 2)%nat). assert (Hf : exists f, fuel = S f /\ (List.length ms < f)%nat).
  { exists (pred fuel). subst fuel. cbn [List.length]. lia. }
  destruct Hf as (f & -> & Hf). cbn [parse_value skip_ws Z.eqb Pos.eqb orb]. change (max_nesting <=? 0) with false. cbv iota.
  pose proof (parse_members_text ms f (0 + 1) Hms Hne Hf) as H. destruct ms as [|kv ms]; [done|].
  destruct (members_text_head kv ms) as (r & Hr). rewrite Hr in *. cbn [skip_ws Z.eqb Pos.eqb orb]. by rewrite H.
Qed.

(** ** Reading the fields of a struct *)

Lemma read_field_other {A} (rd : json -> option (option A)) name ms cur :
  Forall (fun kv => field_key name kv.1 = false) ms -> read_field rd name ms cur = Some cur.
Proof. induction 1 as [|[k v] ms Hk _ IH]; [done|]. simpl in *. by rewrite Hk. Qed.

Lemma read_field_app {A} (rd : json -> option (option A)) name l r cur :
  read_field rd name (l ++ r) cur = match read_field rd name l cur with Some a => read_field rd name r a | None => None end.
Proof.
  revert cur. induction l as [|[k v] l IH]; intros cur; [done|]. simpl.
  destruct (field_key name k); [|apply IH]. destruct (rd v) as [[a|]|]; [apply IH..|done].
Qed.
