(* ===== verification/JsonTree.v ===== *)
(** Nested JSON values, as [encoding/json] writes and reads them: objects, lists, strings,
    integers and booleans, without white space; the reader gives the value back. *)
From S2P Require Import Prelude Encoding Json JsonEncode JsonDecode.
From Stdlib Require Import String Ascii List ZArith Lia Bool.
From stdpp Require Import base strings list pretty.
Open Scope Z_scope.

Inductive jtree : Type :=
| TS (s : string)
| TI (z : Z)
| TB (b : bool)
| TA (l : list jtree)
| TO (ms : list (string * jtree)).

(** What follows the opening bracket of a list and of an object. *)
Section texts.
Context (text : jtree -> string).
Fixpoint list_text (l : list jtree) : string :=
  match l with
  | [] => "]"
  | t :: l => text t +:+ match l with [] => "]" | _ => "," +:+ list_text l end
  end.
Fixpoint object_text (ms : list (string * jtree)) : string :=
  match ms with
  | [] => "}"
  | (k, t) :: ms => json_string k +:+ ":" +:+ text t +:+ match ms with [] => "}" | _ => "," +:+ object_text ms end
  end.
End texts.

Fixpoint tree_text (t : jtree) : string :=
  match t with
  | TS s => json_string s
  | TI z => pretty z
  | TB b => if b then "true" else "false"
  | TA l => "[" +:+ list_text tree_text l
  | TO ms => "{" +:+ object_text tree_text ms
  end.

(** The value the text stands for. *)
Fixpoint tree_json (t : jtree) : json :=
  match t with
  | TS s => JString s
  | TI z => JNumber (pretty z)
  | TB b => JBool b
  | TA l => JArray (map tree_json l)
  | TO ms => JObject (map (fun kv => (kv.1, tree_json kv.2)) ms)
  end.

(** The strings are UTF-8. *)
Fixpoint tree_ok (t : jtree) : Prop :=
  match t with
  | TS s => valid_utf8 s
  | TI _ | TB _ => True
  | TA l => (fix all (l : list jtree) : Prop := match l with [] => True | t :: l => tree_ok t /\ all l end) l
  | TO ms => (fix all (ms : list (string * jtree)) : Prop :=
                match ms with [] => True | (k, t) :: ms => valid_utf8 k /\ tree_ok t /\ all ms end) ms
  end.

(** Brackets inside one another. *)
Fixpoint depth (t : jtree) : Z :=
  match t with
  | TS _ | TI _ | TB _ => 0
  | TA l => 1 + fold_right (fun t n => Z.max (depth t) n) 0 l
  | TO ms => 1 + fold_right (fun kv n => Z.max (depth kv.2) n) 0 ms
  end.

(** Calls the parser makes. *)
Fixpoint calls (t : jtree) : nat :=
  match t with
  | TS _ | TI _ | TB _ => 1
  | TA l => 1 + fold_right (fun t n => (1 + calls t + n)%nat) O l
  | TO ms => 1 + fold_right (fun kv n => (1 + calls kv.2 + n)%nat) O ms
  end.

Lemma jtree_ind' (P : jtree -> Prop) :
  (forall s, P (TS s)) -> (forall z, P (TI z)) -> (forall b, P (TB b)) ->
  (forall l, Forall P l -> P (TA l)) -> (forall ms, Forall (fun kv => P kv.2) ms -> P (TO ms)) -> forall t, P t.
Proof.
  intros HS HI HB HA HO. fix IH 1. intros [s|z|b|l|ms]; [apply HS|apply HI|apply HB| |].
  - apply HA. induction l as [|t l IHl]; constructor; [apply IH|exact IHl].
  - apply HO. induction ms as [|[k t] ms IHms]; constructor; [apply IH|exact IHms].
Qed.

Lemma tree_ok_list l : tree_ok (TA l) <-> Forall tree_ok l.
Proof. induction l as [|t l IH]; [by split|]. rewrite Forall_cons, <- IH. done. Qed.

Lemma tree_ok_object ms : tree_ok (TO ms) <-> Forall (fun kv => valid_utf8 kv.1 /\ tree_ok kv.2) ms.
Proof. induction ms as [|[k t] ms IH]; [by split|]. rewrite Forall_cons, <- IH. cbn. tauto. Qed.

(** ** Reading back *)

(** A byte after a value. *)
Definition after (c : ascii) : Prop := c = ","%char \/ c = "}"%char \/ c = "]"%char.

Lemma after_ends c r : after c -> ends_number (str_bytes (String c r)).
Proof. intros Hc. exists (byte_val c), (str_bytes r). split; [done|]. destruct Hc as [-> | [-> | ->]]; auto. Qed.

Lemma parse_value_int (z : Z) c r fuel d :
  after c -> parse_value (S fuel) d (str_bytes (pretty z +:+ String c r)) = Some (JNumber (pretty z), str_bytes (String c r)).
Proof.
  intros Hc. pose proof (parse_number_text z _ (after_ends c r Hc)) as H. rewrite str_bytes_app.
  destruct (pretty_Z_digits z) as (x & ds & Ht & Hd & _).
  destruct (str_bytes (pretty z)) as [|b l] eqn:Hl; [by destruct (z <? 0)|]. cbn [app] in *.
  rewrite parse_value_number, H, <- Hl, bytes_str_bytes; [done|].
  destruct (z <? 0); injection Ht as -> _; [by left|right; lia].
Qed.

Definition reads (t : jtree) : Prop := forall c r fuel d,
  after c -> (calls t <= fuel)%nat -> d + depth t <= max_nesting ->
  parse_value fuel d (str_bytes (tree_text t +:+ String c r)) = Some (tree_json t, str_bytes (String c r)).

(** A value starts with a byte that is no white space and no closing bracket. *)
Lemma tree_text_head t : exists c r, tree_text t = String c r /\ ~ In (byte_val c) [32; 9; 10; 13; 93; 125].
Proof.
  destruct t as [s|z|[]|l|ms]; cbn [tree_text].
  - unfold json_string. eexists _, _. split; [reflexivity|]. intros H. vm_compute in H. intuition discriminate.
  - destruct (pretty_Z_digits z) as (x & ds & Ht & Hd & _). destruct (pretty z) as [|c r].
    + by destruct (z <? 0).
    + exists c, r. split; [done|]. change (str_bytes (String c r)) with (byte_val c :: str_bytes r) in Ht.
      destruct (z <? 0); injection Ht as -> _; cbn; lia.
  - eexists _, _. split; [reflexivity|]. intros H. vm_compute in H. intuition discriminate.
  - eexists _, _. split; [reflexivity|]. intros H. vm_compute in H. intuition discriminate.
  - eexists _, _. split; [reflexivity|]. intros H. vm_compute in H. intuition discriminate.
  - eexists _, _. split; [reflexivity|]. intros H. vm_compute in H. intuition discriminate.
Qed.

Lemma skip_ws_head b l : ~ In b [32; 9; 10; 13; 93; 125] -> skip_ws (b :: l) = b :: l.
Proof.
  intros H. cbn [skip_ws]. cbn in H.
  by rewrite (proj2 (Z.eqb_neq b 32)), (proj2 (Z.eqb_neq b 9)), (proj2 (Z.eqb_neq b 10)), (proj2 (Z.eqb_neq b 13)) by lia.
Qed.

Lemma parse_elements_text l fuel d r :
  Forall reads l -> l <> [] -> (fold_right (fun t n => (1 + calls t + n)%nat) O l <= fuel)%nat ->
  Forall (fun t => d + depth t <= max_nesting) l ->
  parse_elements fuel d (str_bytes (list_text tree_text l +:+ r)) = Some (map tree_json l, str_bytes r).
Proof.
  intros Hl Hne Hf Hd. revert fuel Hne Hf. induction l as [|t l IH]; intros fuel Hne Hf; [done|].
  inversion Hl as [|? ? Ht Hl']; subst. inversion Hd as [|? ? Hdt Hd']; subst. cbn [fold_right] in Hf.
  destruct fuel as [|fuel]; [lia|]. cbn [list_text]. destruct l as [|t' l].
  - rewrite string_app_assoc. change ("]" +:+ r) with (String "]" r). cbn [parse_elements].
    rewrite Ht by (try (by right; right); cbn in Hf; lia). done.
  - rewrite !string_app_assoc. change ("," +:+ ?x) with (String "," x). cbn [parse_elements].
    rewrite Ht by (try (by left); lia). change (str_bytes (String "," ?x)) with (44 :: str_bytes x).
    cbn [skip_ws Z.eqb Pos.eqb orb]. rewrite IH by (done || lia). done.
Qed.

Lemma parse_members_tree ms fuel d r :
  Forall (fun kv => reads kv.2) ms -> Forall (fun kv => valid_utf8 kv.1) ms -> ms <> [] ->
  (fold_right (fun kv n => (1 + calls kv.2 + n)%nat) O ms <= fuel)%nat ->
  Forall (fun kv => d + depth kv.2 <= max_nesting) ms ->
  parse_members fuel d (str_bytes (object_text tree_text ms +:+ r)) =
    Some (map (fun kv => (kv.1, tree_json kv.2)) ms, str_bytes r).
Proof.
  intros Hl Hk Hne Hf Hd. revert fuel Hne Hf. induction ms as [|[k t] ms IH]; intros fuel Hne Hf; [done|].
  inversion Hl as [|? ? Ht Hl']; subst. inversion Hd as [|? ? Hdt Hd']; subst. inversion Hk as [|? ? Hkk Hk']; subst.
  cbn [fold_right fst snd] in *. destruct fuel as [|fuel]; [lia|]. cbn [object_text].
  rewrite !string_app_assoc, json_string_bytes. cbn [parse_members skip_ws Z.eqb Pos.eqb orb].
  rewrite parse_string_whole, bytes_str_bytes by done.
  change (str_bytes (":" +:+ ?x)) with (58 :: str_bytes x). cbn [skip_ws Z.eqb Pos.eqb orb].
  destruct ms as [|kv ms].
  - change ("}" +:+ r) with (String "}" r). rewrite Ht by (try (by right; left); cbn in Hf; lia). done.
  - rewrite !string_app_assoc. change ("," +:+ ?x) with (String "," x). rewrite Ht by (try (by left); lia).
    change (str_bytes (String "," ?x)) with (44 :: str_bytes x).
    cbn [skip_ws Z.eqb Pos.eqb orb]. rewrite IH by (done || lia). done.
Qed.

Lemma fold_max_le {A} (f : A -> Z) l n : fold_right (fun t m => Z.max (f t) m) 0 l <= n -> Forall (fun t => f t <= n) l.
Proof. induction l as [|t l IH]; cbn; intros H; constructor; [lia|apply IH; lia]. Qed.

(** An object ends itself. *)
Lemma object_reads ms r fuel d :
  Forall (fun kv => valid_utf8 kv.1 /\ reads kv.2) ms -> (calls (TO ms) <= fuel)%nat -> d + depth (TO ms) <= max_nesting ->
  parse_value fuel d (str_bytes (tree_text (TO ms) +:+ r)) = Some (tree_json (TO ms), str_bytes r).
Proof.
  intros Hok Hf Hd. cbn [tree_text tree_json calls depth] in *.
  destruct fuel as [|fuel]; [lia|]. rewrite string_app_assoc. change ("{" +:+ ?x) with (String "{" x).
  change (str_bytes (String "{" ?x)) with (123 :: str_bytes x). cbn [parse_value skip_ws Z.eqb Pos.eqb orb].
  assert (Hz : 0 <= fold_right (fun kv m => Z.max (depth kv.2) m) 0 ms) by (clear; induction ms; cbn; lia).
  rewrite (proj2 (Z.leb_gt max_nesting d)) by lia. destruct ms as [|[k t] ms]; [done|].
  rewrite (parse_members_tree ((k, t) :: ms) fuel (d + 1) r);
    [|eapply Forall_impl; [exact Hok|]; by intros ? [_ ?]|eapply Forall_impl; [exact Hok|]; by intros ? [? _]|done|lia|].
  2: { eapply Forall_impl; [apply (fold_max_le (fun kv : string * jtree => depth kv.2)); reflexivity|]. cbn beta. intros x Hx. lia. }
  cbn [object_text]. rewrite !string_app_assoc, json_string_bytes. reflexivity.
Qed.

Lemma tree_reads t : tree_ok t -> reads t.
Proof.
  induction t as [s|z|b|l IH|ms IH] using jtree_ind'; intros Hok c r fuel d Hc Hf Hd; cbn [tree_text tree_json calls depth] in *.
  - destruct fuel as [|fuel]; [lia|]. by apply parse_json_string.
  - destruct fuel as [|fuel]; [lia|]. by apply parse_value_int.
  - destruct fuel as [|fuel]; [lia|]. by destruct b.
  - destruct fuel as [|fuel]; [lia|]. rewrite string_app_assoc. change ("[" +:+ ?x) with (String "[" x).
    change (str_bytes (String "[" ?x)) with (91 :: str_bytes x). cbn [parse_value skip_ws Z.eqb Pos.eqb orb].
    assert (Hz : 0 <= fold_right (fun t m => Z.max (depth t) m) 0 l) by (clear; induction l; cbn; lia).
    rewrite (proj2 (Z.leb_gt max_nesting d)) by lia. destruct l as [|t l]; [done|].
    assert (Hhead : exists b x, str_bytes (list_text tree_text (t :: l) +:+ String c r) = b :: x /\ ~ In b [32; 9; 10; 13; 93; 125]).
    { destruct (tree_text_head t) as (b & x & Hb & Hn). exists (byte_val b). cbn [list_text]. rewrite Hb. eexists. by split. }
    rewrite (parse_elements_text (t :: l) fuel (d + 1) (String c r)); [|apply tree_ok_list in Hok; rewrite Forall_forall in *; auto|done|lia|].
    2: { eapply Forall_impl; [apply (fold_max_le depth); reflexivity|]. cbn beta. intros x Hx. lia. }
    destruct Hhead as (b & x & -> & Hn). rewrite skip_ws_head by done.
    assert (Hb : b <> 93) by (cbn in Hn; lia). clear -Hb. destruct b as [|p|p]; try done. do 8 (try destruct p as [p|p|]; try done).
  - apply (object_reads ms); [|exact Hf|exact Hd]. rewrite Forall_forall in *. apply tree_ok_object in Hok. rewrite Forall_forall in Hok.
    intros kv Hkv. split; [by apply Hok|]. apply IH; [done|by apply Hok].
Qed.

Lemma calls_length t : (calls t <= 2 * String.length (tree_text t))%nat.
Proof.
  induction t as [s|z|b|l IH|ms IH] using jtree_ind'; cbn [calls tree_text].
  - unfold json_string. cbn. lia.
  - destruct (pretty_Z_digits z) as (x & ds & Ht & _). apply (f_equal (@List.length Z)) in Ht.
    rewrite length_str_bytes, length_app in Ht. cbn in Ht. lia.
  - destruct b; cbn; lia.
  - rewrite string_app_length. cbn [String.length]. assert (Hl : (fold_right (fun t n => (1 + calls t + n)%nat) O l <= 2 * String.length (list_text tree_text l))%nat); [|lia].
    induction IH as [|t l Ht _ IHl]; cbn [fold_right list_text]; [cbn; lia|]. rewrite string_app_length.
    destruct l; [cbn; lia|]. rewrite string_app_length. cbn [String.length]. lia.
  - rewrite string_app_length. cbn [String.length]. assert (Hl : (fold_right (fun kv n => (1 + calls kv.2 + n)%nat) O ms <= 2 * String.length (object_text tree_text ms))%nat); [|lia].
    induction IH as [|[k t] ms Ht _ IHl]; cbn [fold_right object_text]; [cbn; lia|]. cbn [snd] in *. rewrite !string_app_length. cbn [String.length].
    destruct ms; [cbn; lia|]. rewrite string_app_length. cbn [String.length]. lia.
Qed.

(** What the writer writes as an object is read back. *)
Lemma parse_json_tree ms :
  tree_ok (TO ms) -> depth (TO ms) <= max_nesting -> parse_json (tree_text (TO ms)) = Some (tree_json (TO ms)).
Proof.
  intros Hok Hd. unfold parse_json. pose proof (calls_length (TO ms)) as Hl. rewrite <- length_str_bytes in Hl.
  assert (H : Forall (fun kv => valid_utf8 kv.1 /\ reads kv.2) ms).
  { apply tree_ok_object in Hok. eapply Forall_impl; [exact Hok|]. intros kv [? ?]. split; [done|by apply tree_reads]. }
  pose proof (object_reads ms "" (2 * List.length (str_bytes (tree_text (TO ms))) + 2) 0 H ltac:(lia) ltac:(lia)) as Hr.
  rewrite string_app_nil_r in Hr. by rewrite Hr.
Qed.

Example tree_ex : parse_json (tree_text (TO [("a", TA [TI (-3); TB true; TO []]); ("b", TS "<x>")])) =
  Some (JObject [("a", JArray [JNumber "-3"; JBool true; JObject []]); ("b", JString "<x>")]).
Proof. vm_compute. reflexivity. Qed.
