(* ===== verification/Replay.v ===== *)
(** The stores of used nonces
    ([src/internal/services/governance/replay_store.go],
    [src/internal/services/storage/replay_store.go],
    [src/internal/services/gateway/replay_store_service.go]).

    [ReplayStore] is the interface the warden uses and [ReplayStoreLaws] what it
    relies on; the SQLite store of an Operator and the table of the Gateway are
    its two instances.  A table is a finite map from the nonce to its row, its
    timestamp columns hold the text [FormatTimestamp] writes and are compared as
    text.  An environment says what the clock reads and which statements SQLite
    refuses during one call. *)
From S2P Require Import Prelude Errors Timestamp Suspended.
From Stdlib Require Import String List ZArith Lia Bool.
From stdpp Require Import base strings list gmap sorting.
Open Scope string_scope.

(** An error of the database driver: the Go value and its text. *)
Record sql_error := { sql_err : gerr; sql_text : string }.

(** One call: the clock readings in the order they are made, and the faults of
    the statements it runs. *)
Record sql_env := {
  clock1 : gotime; clock2 : gotime;
  fault1 : option sql_error; fault2 : option sql_error
}.

Inductive nonce_status := Reserved | Used.
#[export] Instance nonce_status_eq_dec : EqDecision nonce_status.
Proof. solve_decision. Defined.

(** What the driver reports when the key is taken. *)
Definition unique_violation : sql_error := {|
  sql_err := Extern "sqlite"; sql_text := "UNIQUE constraint failed: nonce_usage.nonce" |}.

(** ** The interface *)

Class ReplayStore (S E : Type) := {
  ReserveNonce : E -> string -> gotime -> S -> result bool * S;
  FinalizeNonce : E -> string -> S -> result unit * S;
  ReleaseNonce : E -> string -> S -> result unit * S
}.

(** [recorded s n]: the expiry text under which [n] is on record.  [drops e x]:
    a reservation made under [e] first forgets the rows whose expiry text is [x]. *)
Class ReplayStoreLaws (S E : Type) `{ReplayStore S E} := {
  recorded : S -> string -> option string;
  drops : E -> string -> bool;
  reserve_grants e n t s s' :
    ReserveNonce e n t s = (Ok false, s') -> recorded s' n = Some (FormatTimestamp t);
  reserve_refuses e n t s x :
    recorded s n = Some x -> drops e x = false -> (ReserveNonce e n t s).1 <> Ok false;
  reserve_keeps e n t s m x :
    recorded s m = Some x -> drops e x = false -> recorded (ReserveNonce e n t s).2 m = Some x;
  release_other e n s m : m <> n -> recorded (ReleaseNonce e n s).2 m = recorded s m;
  finalize_keeps e n s m : recorded (FinalizeNonce e n s).2 m = recorded s m
}.

(** ** The Operator's store *)

Module SQLReplayStore.

Record nonce_row := {
  reserved_at : string; used_at : option string; expires_at : string; status : nonce_status
}.

Notation nonce_usage := (gmap string nonce_row).

Definition delete_rows (p : string -> nonce_row -> bool) (db : nonce_usage) : nonce_usage :=
  filter (fun kr => p kr.1 kr.2 = false) db.

(** [cleanupExpiredNonces]. *)
Definition cleanupExpiredNonces (fault : option sql_error) (now : gotime) (db : nonce_usage)
    : result unit * nonce_usage :=
  match fault with
  | Some e => (Err (Errorf "failed to delete expired nonces: %w" [sql_err e]), db)
  | None => (Ok tt, delete_rows (fun _ r => String.ltb (expires_at r) (FormatTimestamp now)) db)
  end.

(** The INSERT: the driver's error, or the new table. *)
Definition insert_nonce (fault : option sql_error) (nonce : string) (row : nonce_row)
    (db : nonce_usage) : sql_error + nonce_usage :=
  match fault with
  | Some e => inl e
  | None => match db !! nonce with
            | Some _ => inl unique_violation
            | None => inr (<[nonce := row]> db)
            end
  end.

Definition reserve (env : sql_env) (nonce : string) (expiresAt : gotime) (db : nonce_usage)
    : result bool * nonce_usage :=
  match cleanupExpiredNonces (fault1 env) (clock1 env) db with
  | (Err err, db) => (Err (Errorf "nonce cleanup failed: %w" [err]), db)
  | (Ok _, db) =>
      let row := {| reserved_at := FormatTimestamp (clock2 env); used_at := None;
                    expires_at := FormatTimestamp expiresAt; status := Reserved |} in
      match insert_nonce (fault2 env) nonce row db with
      | inr db => (Ok false, db)
      | inl err =>
          if contains "UNIQUE constraint failed" (sql_text err) || contains "constraint failed" (sql_text err)
          then (Ok true, db)
          else (Err (Errorf "failed to reserve nonce: %w" [sql_err err]), db)
      end
  end.

Definition finalize (env : sql_env) (nonce : string) (db : nonce_usage) : result unit * nonce_usage :=
  match fault1 env with
  | Some e => (Err (Errorf "failed to finalize nonce: %w" [sql_err e]), db)
  | None =>
      match db !! nonce with
      | Some r =>
          if decide (status r = Reserved) then
            (Ok tt, <[nonce := {| reserved_at := reserved_at r;
                                  used_at := Some (FormatTimestamp (clock1 env));
                                  expires_at := expires_at r; status := Used |}]> db)
          else (Err (Errorf "nonce not found or not in reserved state: %s" []), db)
      | None => (Err (Errorf "nonce not found or not in reserved state: %s" []), db)
      end
  end.

Definition release (env : sql_env) (nonce : string) (db : nonce_usage) : result unit * nonce_usage :=
  match fault1 env with
  | Some e => (Err (Errorf "failed to release nonce: %w" [sql_err e]), db)
  | None => (Ok tt, delete_rows (fun k r => bool_decide (k = nonce /\ status r = Reserved)) db)
  end.

Definition CleanupStaleReserved (fault : option sql_error) (now maxReservedDuration : Z)
    (db : nonce_usage) : result unit * nonce_usage :=
  match fault with
  | Some e => (Err (Errorf "failed to delete stale reserved nonces: %w" [sql_err e]), db)
  | None =>
      let cutoffStr := FormatTimestamp (now - maxReservedDuration)%Z in
      (Ok tt, delete_rows (fun _ r => bool_decide (status r = Reserved)
                                      && String.ltb (reserved_at r) cutoffStr) db)
  end.

(** [AddDate(0, 0, -n)] in UTC is [n] days of 86400 seconds earlier. *)
Definition day_ns : Z := (86400 * 1000000000)%Z.

Definition Prune (fault : option sql_error) (now : gotime) (retentionDays : Z) (db : nonce_usage)
    : result unit * nonce_usage :=
  match fault with
  | Some e => (Err (Errorf "failed to prune nonce_usage: %w" [sql_err e]), db)
  | None =>
      let cutoffStr := FormatTimestamp (now - retentionDays * day_ns)%Z in
      (Ok tt, delete_rows (fun _ r => match used_at r with
                                      | Some u => String.ltb u cutoffStr
                                      | None => false
                                      end) db)
  end.

Record NonceRow := {
  Nonce : string; Status : nonce_status; ReservedAt : gotime; UsedAt : option gotime; ExpiresAt : gotime
}.

(** ORDER BY reserved_at ASC. *)
Definition earlier (a b : string * nonce_row) : Prop :=
  String.ltb (reserved_at b.2) (reserved_at a.2) = false.
#[export] Instance earlier_dec a b : Decision (earlier a b).
Proof. unfold earlier. apply _. Defined.

Definition to_NonceRow (kr : string * nonce_row) : NonceRow := {|
  Nonce := kr.1; Status := status kr.2; ReservedAt := parse_or_zero (reserved_at kr.2);
  UsedAt := parse_or_zero <$> used_at kr.2; ExpiresAt := parse_or_zero (expires_at kr.2) |}.

(** SQLite reads a negative offset as zero. *)
Definition ListNonces (fault : option sql_error) (limit offset : Z) (db : nonce_usage)
    : result (list NonceRow) :=
  match fault with
  | Some e => Err (Errorf "replay store: list nonces: %w" [sql_err e])
  | None =>
      let limit := if (limit <=? 0)%Z then 100%Z else limit in
      Ok (map to_NonceRow (take (Z.to_nat limit)
            (drop (Z.to_nat offset) (merge_sort earlier (map_to_list db)))))
  end.

#[global] Instance store : ReplayStore nonce_usage sql_env := {|
  ReserveNonce := reserve; FinalizeNonce := finalize; ReleaseNonce := release |}.

End SQLReplayStore.

(** ** The Gateway's table *)

Module ReplayStoreService.

Record nonce_row := { expires_at : string; status : nonce_status }.

Notation nonces := (gmap string nonce_row).

(** One call: [fault1] is a failed SELECT, [fault2] a failed INSERT; between the
    two statements another writer may insert the same nonce, and [raced] is the
    row it leaves. *)
Record gateway_env := { sql : sql_env; raced : option nonce_row }.

(** [sqliteutil.IsUniqueConstraintError]. *)
Definition IsUniqueConstraintError (e : sql_error) : bool :=
  err_is "ErrAlreadyExists" (sql_err e) || contains "UNIQUE constraint failed" (sql_text e).

Definition insert_nonce (fault : option sql_error) (nonce : string) (row : nonce_row)
    (db : nonces) : sql_error + nonces :=
  match fault with
  | Some e => inl e
  | None => match db !! nonce with
            | Some _ => inl unique_violation
            | None => inr (<[nonce := row]> db)
            end
  end.

Definition reserve (env : gateway_env) (nonce : string) (expiresAt : gotime) (db : nonces)
    : result bool * nonces :=
  match fault1 (sql env) with
  | Some e => (Err (sql_err e), db)
  | None =>
      match db !! nonce with
      | Some _ => (Ok true, db)
      | None =>
          let db := match raced env with Some row => <[nonce := row]> db | None => db end in
          let row := {| expires_at := FormatTimestamp expiresAt; status := Reserved |} in
          match insert_nonce (fault2 (sql env)) nonce row db with
          | inr db => (Ok false, db)
          | inl err => if IsUniqueConstraintError err then (Ok true, db) else (Err (sql_err err), db)
          end
      end
  end.

Definition finalize (env : gateway_env) (nonce : string) (db : nonces) : result unit * nonces :=
  match fault1 (sql env) with
  | Some e => (Err (Errorf "finalize nonce: %w" [sql_err e]), db)
  | None =>
      (Ok tt, match db !! nonce with
              | Some r => if decide (status r = Reserved)
                          then <[nonce := {| expires_at := expires_at r; status := Used |}]> db else db
              | None => db
              end)
  end.

Definition release (env : gateway_env) (nonce : string) (db : nonces) : result unit * nonces :=
  match fault1 (sql env) with
  | Some e => (Err (Errorf "release nonce: %w" [sql_err e]), db)
  | None => (Ok tt, filter (fun kr => bool_decide (kr.1 = nonce /\ status kr.2 = Reserved) = false) db)
  end.

Definition CleanupExpiredNonces (fault : option sql_error) (now : gotime) (db : nonces)
    : result unit * nonces :=
  match fault with
  | Some e => (Err (Errorf "cleanup expired nonces: %w" [sql_err e]), db)
  | None => (Ok tt, filter (fun kr => String.ltb (expires_at kr.2) (FormatTimestamp now) = false) db)
  end.

#[global] Instance store : ReplayStore nonces gateway_env := {|
  ReserveNonce := reserve; FinalizeNonce := finalize; ReleaseNonce := release |}.

End ReplayStoreService.

(** ** Both stores keep the promise *)

Lemma lookup_delete_rows p (db : gmap string SQLReplayStore.nonce_row) k :
  SQLReplayStore.delete_rows p db !! k =
  match db !! k with Some r => if p k r then None else Some r | None => None end.
Proof.
  unfold SQLReplayStore.delete_rows. destruct (db !! k) as [r|] eqn:Hk.
  - destruct (p k r) eqn:Hp.
    + apply map_lookup_filter_None_2. right. intros r' Hr' ?. simpl in *. congruence.
    + by apply map_lookup_filter_Some_2.
  - apply map_lookup_filter_None_2. by left.
Qed.

(** A nonce whose expiry text is not before the clock survives the clean-up. *)
Lemma cleanup_lookup fault now db k r :
  db !! k = Some r -> String.ltb (SQLReplayStore.expires_at r) (FormatTimestamp now) = false ->
  (SQLReplayStore.cleanupExpiredNonces fault now db).2 !! k = Some r.
Proof.
  intros Hk Hx. unfold SQLReplayStore.cleanupExpiredNonces. destruct fault; [done|]. simpl.
  by rewrite lookup_delete_rows, Hk, Hx.
Qed.

#[export] Instance sql_laws :
  ReplayStoreLaws (gmap string SQLReplayStore.nonce_row) sql_env.
Proof.
  refine {| recorded := fun db n => SQLReplayStore.expires_at <$> db !! n;
            drops := fun e x => String.ltb x (FormatTimestamp (clock1 e)) |}; simpl.
  - intros e n t db db' H. unfold SQLReplayStore.reserve in H.
    destruct (SQLReplayStore.cleanupExpiredNonces _ _ _) as [[[]|] db1]; [|done].
    unfold SQLReplayStore.insert_nonce in H.
    destruct (fault2 e); [by destruct (contains _ _ || _)|].
    destruct (db1 !! n); [by vm_compute in H|]. injection H as <-. by rewrite lookup_insert_eq.
  - intros e n t db x Hr Hd H. unfold SQLReplayStore.reserve in H.
    destruct (db !! n) as [r|] eqn:Hn; [|done]. injection Hr as <-.
    pose proof (cleanup_lookup (fault1 e) (clock1 e) db n r Hn Hd) as Hc.
    destruct (SQLReplayStore.cleanupExpiredNonces _ _ _) as [[[]|] db1]; simpl in *; [|done].
    unfold SQLReplayStore.insert_nonce in H. rewrite Hc in H.
    destruct (fault2 e); [by destruct (contains _ _ || _) | by vm_compute in H].
  - intros e n t db m x Hr Hd. destruct (db !! m) as [r|] eqn:Hn; [|done]. injection Hr as <-.
    pose proof (cleanup_lookup (fault1 e) (clock1 e) db m r Hn Hd) as Hc.
    unfold SQLReplayStore.reserve.
    destruct (SQLReplayStore.cleanupExpiredNonces _ _ _) as [[[]|] db1]; simpl in *; [|by rewrite Hc].
    unfold SQLReplayStore.insert_nonce. destruct (fault2 e).
    { case_goal; simpl; by rewrite Hc. }
    destruct (db1 !! n) eqn:Hn1; simpl; [by rewrite Hc|].
    rewrite lookup_insert_ne by congruence. by rewrite Hc.
  - intros e n db m Hne. unfold SQLReplayStore.release. destruct (fault1 e); simpl; [done|].
    rewrite lookup_delete_rows. destruct (db !! m); simpl; [|done].
    by rewrite bool_decide_eq_false_2 by naive_solver.
  - intros e n db m. unfold SQLReplayStore.finalize. destruct (fault1 e); simpl; [done|].
    destruct (db !! n) as [r|] eqn:Hn; simpl; [|done]. case_decide; simpl; [|done].
    destruct (decide (m = n)) as [->|]; [rewrite lookup_insert_eq, Hn; done|].
    by rewrite lookup_insert_ne.
Defined.

Lemma gateway_release_lookup n (db : gmap string ReplayStoreService.nonce_row) m :
  m <> n ->
  filter (fun kr => bool_decide (kr.1 = n /\ ReplayStoreService.status kr.2 = Reserved) = false) db !! m = db !! m.
Proof.
  intros Hne. destruct (db !! m) as [r|] eqn:Hm.
  - apply map_lookup_filter_Some_2; [done|]. by apply bool_decide_eq_false_2; naive_solver.
  - apply map_lookup_filter_None_2. by left.
Qed.

(** The Gateway's reservation never forgets a row. *)
#[export] Instance gateway_laws :
  ReplayStoreLaws (gmap string ReplayStoreService.nonce_row) ReplayStoreService.gateway_env.
Proof.
  refine {| recorded := fun db n => ReplayStoreService.expires_at <$> db !! n;
            drops := fun _ _ => false |}; simpl.
  - intros e n t db db' H. unfold ReplayStoreService.reserve, ReplayStoreService.insert_nonce in H.
    destruct (fault1 _); [done|]. destruct (db !! n); [done|].
    destruct (fault2 _); [by destruct (ReplayStoreService.IsUniqueConstraintError _)|].
    destruct (_ !! n); [by vm_compute in H|]. injection H as <-. by rewrite lookup_insert_eq.
  - intros e n t db x Hr _ H. unfold ReplayStoreService.reserve in H.
    destruct (fault1 _); [done|]. by destruct (db !! n).
  - intros e n t db m x Hr _. unfold ReplayStoreService.reserve, ReplayStoreService.insert_nonce.
    destruct (fault1 _); [done|]. destruct (db !! n) eqn:Hn; [done|].
    assert (Hne : m <> n) by (intros ->; by rewrite Hn in Hr).
    set (db1 := match ReplayStoreService.raced e with Some _ => _ | None => db end).
    assert (Hdb1 : db1 !! m = db !! m).
    { unfold db1. destruct (ReplayStoreService.raced e); [by rewrite lookup_insert_ne|done]. }
    destruct (fault2 _); [by destruct (ReplayStoreService.IsUniqueConstraintError _); simpl; rewrite Hdb1|].
    destruct (db1 !! n); simpl; [by rewrite Hdb1|]. rewrite lookup_insert_ne by done. by rewrite Hdb1.
  - intros e n db m Hne. unfold ReplayStoreService.release. destruct (fault1 _); simpl; [done|].
    by rewrite gateway_release_lookup.
  - intros e n db m. unfold ReplayStoreService.finalize. destruct (fault1 _); simpl; [done|].
    destruct (db !! n) as [r|] eqn:Hn; simpl; [|done]. case_decide; simpl; [|done].
    destruct (decide (m = n)) as [->|]; [rewrite lookup_insert_eq, Hn; done|].
    by rewrite lookup_insert_ne.
Defined.

(** ** Sequences of operations *)

(** The operations callers make on a store, in the order SQLite runs them. *)
Inductive replay_op (E : Type) :=
| OpReserve (e : E) (nonce : string) (expiresAt : gotime)
| OpFinalize (e : E) (nonce : string)
| OpRelease (e : E) (nonce : string).
Arguments OpReserve {E} e nonce expiresAt.
Arguments OpFinalize {E} e nonce.
Arguments OpRelease {E} e nonce.

Section traces.
Context {S E : Type} `{L : ReplayStoreLaws S E}.

Definition apply_op (op : replay_op E) (s : S) : S :=
  match op with
  | OpReserve e n t => (ReserveNonce e n t s).2
  | OpFinalize e n => (FinalizeNonce e n s).2
  | OpRelease e n => (ReleaseNonce e n s).2
  end.

Definition apply_ops (ops : list (replay_op E)) (s : S) : S := fold_left (fun s op => apply_op op s) ops s.

(** The operation leaves a reservation of [n] with expiry text [x] alone: it
    does not release it, and its clean-up does not reach it. *)
Definition harmless (n x : string) (op : replay_op E) : Prop :=
  match op with
  | OpReserve e _ _ => drops e x = false
  | OpFinalize _ _ => True
  | OpRelease _ m => m <> n
  end.

Lemma harmless_keeps n x op s :
  harmless n x op -> recorded s n = Some x -> recorded (apply_op op s) n = Some x.
Proof.
  destruct op as [e m t|e m|e m]; simpl; intros Hh Hr.
  - by apply reserve_keeps.
  - by rewrite finalize_keeps.
  - by rewrite release_other by done.
Qed.

Lemma harmless_run n x ops s :
  Forall (harmless n x) ops -> recorded s n = Some x -> recorded (apply_ops ops s) n = Some x.
Proof.
  revert s. induction ops as [|op ops IH]; intros s Hops Hr; [done|]. simpl.
  inversion Hops; subst. apply IH; [done|]. by apply harmless_keeps.
Qed.

(** A nonce is granted once: after a granted reservation, whatever other
    nonces are reserved, finalised or released in between and in whatever order,
    no second reservation of the nonce is granted, as long as the nonce itself is
    not released and no clean-up runs with a clock past its expiry. *)
Theorem nonce_granted_once e e' n t t' s s' ops :
  ReserveNonce e n t s = (Ok false, s') ->
  Forall (harmless n (FormatTimestamp t)) ops ->
  drops e' (FormatTimestamp t) = false ->
  (ReserveNonce e' n t' (apply_ops ops s')).1 <> Ok false.
Proof.
  intros Hg Hops Hd. apply reserve_grants in Hg.
  by apply (reserve_refuses e' n t' _ (FormatTimestamp t)); [apply harmless_run|].
Qed.
End traces.

(** ** The Operator's store, exactly *)

Definition outlives (now : gotime) (r : SQLReplayStore.nonce_row) : Prop :=
  String.ltb (SQLReplayStore.expires_at r) (FormatTimestamp now) = false.
#[export] Instance outlives_dec now r : Decision (outlives now r).
Proof. unfold outlives. apply _. Defined.

(** Without a fault, the Operator's [ReserveNonce] answers, and it answers
    "replay" exactly when a row of the nonce is on record whose expiry is not
    before the clock.  Afterwards the table holds the rows that outlive the clock,
    unchanged, with the new reservation when it was granted, and nothing else. *)
Lemma sql_reserve_spec e n t db :
  fault1 e = None -> fault2 e = None ->
  let '(res, db') := ReserveNonce e n t db in
  (res = Ok true <-> exists r, db !! n = Some r /\ outlives (clock1 e) r) /\
  (res <> Ok true -> res = Ok false) /\
  (forall m r, db' !! m = Some r <->
     (db !! m = Some r /\ outlives (clock1 e) r) \/
     (m = n /\ res = Ok false /\
      r = {| SQLReplayStore.reserved_at := FormatTimestamp (clock2 e);
             SQLReplayStore.used_at := None;
             SQLReplayStore.expires_at := FormatTimestamp t;
             SQLReplayStore.status := Reserved |})).
Proof.
  intros H1 H2. simpl. unfold SQLReplayStore.reserve, SQLReplayStore.cleanupExpiredNonces.
  rewrite H1, H2. cbv iota beta. unfold SQLReplayStore.insert_nonce, outlives.
  pose proof (lookup_delete_rows
    (fun _ r => String.ltb (SQLReplayStore.expires_at r) (FormatTimestamp (clock1 e))) db) as Hd.
  set (db1 := SQLReplayStore.delete_rows _ db) in *.
  assert (Hrow : forall m r, db1 !! m = Some r <->
    db !! m = Some r /\ String.ltb (SQLReplayStore.expires_at r) (FormatTimestamp (clock1 e)) = false).
  { intros m r. rewrite Hd. destruct (db !! m) as [r'|]; [|by split; [|intros [? _]]].
    destruct (String.ltb (SQLReplayStore.expires_at r') _) eqn:Hx.
    - split; [done|]. intros [[= <-] Hx']. congruence.
    - split; [by intros [= <-]|]. by intros [? _]. }
  destruct (db1 !! n) as [r|] eqn:Hn.
  - apply Hrow in Hn as Hn'. split_and!; [by split; [exists r|] | by intros [] |].
    intros m r'. rewrite Hrow. split; [by left|]. by intros [?|(_ & ? & _)].
  - split_and!; [|done|].
    + split; [done|]. intros (r & Hr). apply Hrow in Hr. congruence.
    + intros m r. destruct (decide (m = n)) as [->|Hne].
      * rewrite lookup_insert_eq. split; [by intros [= <-]; right|].
        intros [Hr|(_ & _ & ->)]; [|done]. apply Hrow in Hr. congruence.
      * rewrite lookup_insert_ne by done. rewrite Hrow.
        split; [by left|]. by intros [?|(? & _)].
Qed.

(** A row that does not outlive the clock does not stand in the way. *)
Lemma sql_reserve_expired e n t (db : gmap string SQLReplayStore.nonce_row) :
  fault1 e = None -> fault2 e = None ->
  (forall r, db !! n = Some r -> ~ outlives (clock1 e) r) -> (ReserveNonce e n t db).1 = Ok false.
Proof.
  intros H1 H2 Hr. pose proof (sql_reserve_spec e n t db H1 H2) as H.
  destruct (ReserveNonce e n t db) as [res db']. destruct H as (Hrep & Hans & _). apply Hans.
  intros Hres. apply Hrep in Hres as (r & Hn & Ho). by apply (Hr r).
Qed.

(** Releasing what was just reserved leaves the rows the clean-up left. *)
Lemma sql_release_reserved e e' n t db db' m r :
  fault1 e = None -> fault2 e = None -> fault1 e' = None ->
  ReserveNonce e n t db = (Ok false, db') ->
  (ReleaseNonce e' n db').2 !! m = Some r <-> db !! m = Some r /\ outlives (clock1 e) r.
Proof.
  intros H1 H2 H3 Hres. pose proof (sql_reserve_spec e n t db H1 H2) as H.
  rewrite Hres in H. destruct H as (Hrep & _ & Hrow).
  simpl. unfold SQLReplayStore.release. rewrite H3. cbn [snd]. rewrite lookup_delete_rows.
  destruct (db' !! m) as [r'|] eqn:Hm.
  - apply Hrow in Hm as Hm'. destruct Hm' as [[Hdb Ho]|(-> & _ & ->)].
    + rewrite bool_decide_eq_false_2; [naive_solver|]. intros [-> _].
      discriminate (proj2 Hrep (ex_intro _ r' (conj Hdb Ho))).
    + rewrite bool_decide_eq_true_2 by done. split; [done|]. intros [Hdb Ho].
      discriminate (proj2 Hrep (ex_intro _ r (conj Hdb Ho))).
  - split; [done|]. intros [Hdb Ho]. assert (db' !! m = Some r); [|congruence].
    apply Hrow. by left.
Qed.

(** ** Witnesses *)

Definition quiet_env (now : gotime) : sql_env := {|
  clock1 := now; clock2 := now; fault1 := None; fault2 := None |}.

(** A reservation, then other traffic, then the same nonce again. *)
Definition t0 : gotime := 1700000000000000000%Z.
Definition in_a_minute : gotime := (t0 + 60000000000)%Z.
Definition other_traffic : list (replay_op sql_env) :=
  [OpReserve (quiet_env (t0 + 1)%Z) "n2" (t0 + 5)%Z; OpRelease (quiet_env t0) "n2";
   OpFinalize (quiet_env t0) "n1"].
Definition first_reservation : gmap string SQLReplayStore.nonce_row :=
  (ReserveNonce (quiet_env t0) "n1" in_a_minute (∅ : gmap string SQLReplayStore.nonce_row)).2.

Lemma nonce_granted_once_witness :
  (ReserveNonce (quiet_env in_a_minute) "n1" in_a_minute
    (apply_ops other_traffic first_reservation)).1 <> Ok false.
Proof.
  apply (nonce_granted_once (quiet_env t0) (quiet_env in_a_minute) "n1" in_a_minute in_a_minute
           ∅ first_reservation other_traffic).
  - vm_compute. reflexivity.
  - constructor; [vm_compute; reflexivity|]. constructor; [discriminate|].
    constructor; [exact I | constructor].
  - vm_compute. reflexivity.
Defined.
