(* ===== verification/Receipt.v ===== *)
(** Evidence of a governed transaction: stage records, receipts and attestations
    (messages of [src/protocol/proto/g8e/operator/v1/operator.proto]), and the
    bytes their signatures cover ([src/internal/services/governance/l5_actuator.go]).

    The protobuf marshaller of a stage record is a parameter of the hash over the
    stages. *)
From S2P Require Import Prelude Errors Encoding Sha256 Timestamp Constants Json JsonEncode Envelope Posture Crypto.
From Stdlib Require Import String Ascii List ZArith Lia Bool.
From stdpp Require Import base strings list sorting.
Open Scope string_scope.

(** ** Messages *)

Inductive StageKind :=
| KIND_UNSPECIFIED | L1_DOCTRINE | PROTOCOL_L2 | L3_NOTARY | L4_VERIFICATION
| RECEIPT_PERSISTENCE | COMMITMENT_APPEND | L5_EXECUTION
| KIND_OTHER (z : Z).
#[export] Instance StageKind_eq_dec : EqDecision StageKind.
Proof. solve_decision. Defined.

(** The enum's [String] method; an unknown number prints as itself. *)
Definition kind_string (k : StageKind) : string :=
  match k with
  | KIND_UNSPECIFIED => "DETERMINISTIC_STAGE_KIND_UNSPECIFIED"
  | L1_DOCTRINE => "DETERMINISTIC_STAGE_KIND_L1_DOCTRINE"
  | PROTOCOL_L2 => "DETERMINISTIC_STAGE_KIND_PROTOCOL_L2"
  | L3_NOTARY => "DETERMINISTIC_STAGE_KIND_L3_NOTARY"
  | L4_VERIFICATION => "DETERMINISTIC_STAGE_KIND_L4_VERIFICATION"
  | RECEIPT_PERSISTENCE => "DETERMINISTIC_STAGE_KIND_RECEIPT_PERSISTENCE"
  | COMMITMENT_APPEND => "DETERMINISTIC_STAGE_KIND_COMMITMENT_APPEND"
  | L5_EXECUTION => "DETERMINISTIC_STAGE_KIND_L5_EXECUTION"
  | KIND_OTHER z => pretty.pretty z
  end.

Inductive StageOutcome :=
| OUTCOME_UNSPECIFIED | VERIFIED | NOT_REQUIRED | COMPLETED | FAILED | OUTCOME_OTHER (z : Z).
#[export] Instance StageOutcome_eq_dec : EqDecision StageOutcome.
Proof. solve_decision. Defined.

Inductive ExecutionStatus :=
| STATUS_UNSPECIFIED | STATUS_EXECUTING | STATUS_COMPLETED | STATUS_FAILED | STATUS_CANCELLED
| STATUS_TIMEOUT | STATUS_OTHER (z : Z).
#[export] Instance ExecutionStatus_eq_dec : EqDecision ExecutionStatus.
Proof. solve_decision. Defined.

(** [L2Status] and [L3Status] have the same values. *)
Inductive LayerStatus :=
| LAYER_UNSPECIFIED | LAYER_NOT_REQUIRED | LAYER_REQUIRED_VALID | LAYER_REQUIRED_FAILED | LAYER_OTHER (z : Z).
#[export] Instance LayerStatus_eq_dec : EqDecision LayerStatus.
Proof. solve_decision. Defined.

Inductive ReceiptFailureCode :=
| CODE_UNSPECIFIED | GOVERNANCE_REJECTED | MODEL_OVERRIDE_DENIED | ROLE_INVALID | MODEL_REF_INVALID
| BACKEND_UNAVAILABLE | BACKEND_TIMEOUT | GENERATE_FAILED | EXECUTION_FAILED | MODEL_NOT_FOUND
| PROVIDER_RESPONSE_INVALID | GENERATION_OPTIONS_INVALID | CAPABILITY_UNSUPPORTED
| PROVIDER_ATTEMPT_REQUIRED | IDENTITY_MISMATCH | MODEL_DIGEST_MISMATCH | EVIDENCE_HASH_INVALID
| MODEL_REGISTRY_INVALID | CAMPAIGN_BINDING_INVALID | TOOLS_UNSUPPORTED | CONTEXT_OVERFLOW
| CODE_OTHER (z : Z).
#[export] Instance ReceiptFailureCode_eq_dec : EqDecision ReceiptFailureCode.
Proof. solve_decision. Defined.

(** Wire numbers.  [X_OTHER z] stands for a number no constructor has. *)
Definition status_num (s : ExecutionStatus) : Z :=
  match s with
  | STATUS_UNSPECIFIED => 0 | STATUS_EXECUTING => 1 | STATUS_COMPLETED => 2 | STATUS_FAILED => 3
  | STATUS_CANCELLED => 4 | STATUS_TIMEOUT => 5 | STATUS_OTHER z => z
  end%Z.

Definition layer_num (s : LayerStatus) : Z :=
  match s with
  | LAYER_UNSPECIFIED => 0 | LAYER_NOT_REQUIRED => 1 | LAYER_REQUIRED_VALID => 2
  | LAYER_REQUIRED_FAILED => 3 | LAYER_OTHER z => z
  end%Z.

Definition code_num (c : ReceiptFailureCode) : Z :=
  match c with
  | CODE_UNSPECIFIED => 0 | GOVERNANCE_REJECTED => 1 | MODEL_OVERRIDE_DENIED => 2 | ROLE_INVALID => 3
  | MODEL_REF_INVALID => 4 | BACKEND_UNAVAILABLE => 5 | BACKEND_TIMEOUT => 6 | GENERATE_FAILED => 7
  | EXECUTION_FAILED => 8 | MODEL_NOT_FOUND => 9 | PROVIDER_RESPONSE_INVALID => 10
  | GENERATION_OPTIONS_INVALID => 11 | CAPABILITY_UNSUPPORTED => 12 | PROVIDER_ATTEMPT_REQUIRED => 13
  | IDENTITY_MISMATCH => 14 | MODEL_DIGEST_MISMATCH => 15 | EVIDENCE_HASH_INVALID => 16
  | MODEL_REGISTRY_INVALID => 17 | CAMPAIGN_BINDING_INVALID => 18 | TOOLS_UNSUPPORTED => 19
  | CONTEXT_OVERFLOW => 20 | CODE_OTHER z => z
  end%Z.

Record StageEvidence := {
  stStageId : string; stKind : StageKind; stMonotonicStartNs : Z; stMonotonicEndNs : Z;
  stClockDomain : string; stTimingSource : string; stOutcome : StageOutcome;
  stTransactionId : string; stTransactionHash : string; stActionType : string;
  stOperatorId : string; stOperatorSessionId : string; stRequestorUserId : string;
  stActingAppId : string; stCaseId : string; stInvestigationId : string; stTaskId : string;
  stStateRootBefore : string; stStateRootAfter : string; stSignerKeyId : string;
  stReceiptSignatureDigest : string; stCommitmentHash : string; stPriorCommitmentHash : string;
  stL2SignatureDigest : string; stL3SignatureDigest : string; stAuditRecordId : string;
  stParentStageId : string; stDoctrineBundleHash : string; stDoctrineBundleVersion : string
}.

Record ReceiptPersistenceAttestation := {
  paTransactionId : string; paReceiptSignatureDigest : string; paPersistedAtUnixMs : Z;
  paAuditRecordId : string; paSignerKeyId : string; paSignature : string
}.

Record ActionReceipt := {
  rcTransactionId : string; rcTransactionHash : string; rcStatus : ExecutionStatus;
  rcResultSummary : string; rcStateRootBefore : string; rcStateRootAfter : string;
  rcExecutedAtUnixMs : Z; rcSignerKeyId : string; rcSignature : string;
  rcL2Status : LayerStatus; rcL3Status : LayerStatus;
  rcStages : list StageEvidence; rcAttestation : option ReceiptPersistenceAttestation;
  rcFailureCode : ReceiptFailureCode; rcEventType : string; rcActionType : string
}.

Record CommitmentAttestation := {
  caTransactionId : string; caTransactionHash : string; caPriorCommitmentHash : string;
  caStateRootAtCommit : string; caL2SignatureDigest : string; caWardenIntentSignatureDigest : string;
  caHumanSignatureDigest : string; caActionType : string; caTargetResource : string;
  caCommittedAtUnixMs : Z; caAuditorKeyId : string; caSignature : string; caHash : string
}.

(** ** Assignments to single fields *)

Definition st_edit (s : StageEvidence) (parent after : string) : StageEvidence := {|
  stStageId := stStageId s; stKind := stKind s; stMonotonicStartNs := stMonotonicStartNs s;
  stMonotonicEndNs := stMonotonicEndNs s; stClockDomain := stClockDomain s;
  stTimingSource := stTimingSource s; stOutcome := stOutcome s; stTransactionId := stTransactionId s;
  stTransactionHash := stTransactionHash s; stActionType := stActionType s;
  stOperatorId := stOperatorId s; stOperatorSessionId := stOperatorSessionId s;
  stRequestorUserId := stRequestorUserId s; stActingAppId := stActingAppId s; stCaseId := stCaseId s;
  stInvestigationId := stInvestigationId s; stTaskId := stTaskId s;
  stStateRootBefore := stStateRootBefore s; stStateRootAfter := after;
  stSignerKeyId := stSignerKeyId s; stReceiptSignatureDigest := stReceiptSignatureDigest s;
  stCommitmentHash := stCommitmentHash s; stPriorCommitmentHash := stPriorCommitmentHash s;
  stL2SignatureDigest := stL2SignatureDigest s; stL3SignatureDigest := stL3SignatureDigest s;
  stAuditRecordId := stAuditRecordId s; stParentStageId := parent;
  stDoctrineBundleHash := stDoctrineBundleHash s; stDoctrineBundleVersion := stDoctrineBundleVersion s |}.

(** [stage.ParentStageId = p]. *)
Definition set_parent (p : string) (s : StageEvidence) : StageEvidence := st_edit s p (stStateRootAfter s).
(** [stage.StateRootAfter = r]. *)
Definition set_root_after (r : string) (s : StageEvidence) : StageEvidence := st_edit s (stParentStageId s) r.

(** The fields a stage record gets after it is created. *)
Record StageDetails := {
  dStateRootBefore : string; dSignerKeyId : string; dReceiptSignatureDigest : string;
  dCommitmentHash : string; dPriorCommitmentHash : string; dL2SignatureDigest : string;
  dL3SignatureDigest : string; dAuditRecordId : string; dDoctrineBundleHash : string;
  dDoctrineBundleVersion : string
}.

Definition no_details (root : string) : StageDetails := {|
  dStateRootBefore := root; dSignerKeyId := ""; dReceiptSignatureDigest := ""; dCommitmentHash := "";
  dPriorCommitmentHash := ""; dL2SignatureDigest := ""; dL3SignatureDigest := "";
  dAuditRecordId := ""; dDoctrineBundleHash := ""; dDoctrineBundleVersion := "" |}.

Definition layer_details (root l2 l3 : string) : StageDetails := {|
  dStateRootBefore := root; dSignerKeyId := ""; dReceiptSignatureDigest := ""; dCommitmentHash := "";
  dPriorCommitmentHash := ""; dL2SignatureDigest := l2; dL3SignatureDigest := l3;
  dAuditRecordId := ""; dDoctrineBundleHash := ""; dDoctrineBundleVersion := "" |}.

Definition doctrine_details (root hash version : string) : StageDetails := {|
  dStateRootBefore := root; dSignerKeyId := ""; dReceiptSignatureDigest := ""; dCommitmentHash := "";
  dPriorCommitmentHash := ""; dL2SignatureDigest := ""; dL3SignatureDigest := "";
  dAuditRecordId := ""; dDoctrineBundleHash := hash; dDoctrineBundleVersion := version |}.

Definition deterministicStageID (envelope : GovernanceEnvelope) (kind : StageKind) : string :=
  Id envelope +:+ ":" +:+ kind_string kind.

(** [newDeterministicStageEvidence], with the readings of the monotonic clock at
    its start and its end and the fields assigned afterwards; without such an
    assignment StateRootBefore is the envelope's root. *)
Definition newDeterministicStageEvidence (envelope : GovernanceEnvelope) (kind : StageKind)
    (start stop : Z) (outcome : StageOutcome) (d : StageDetails) : StageEvidence := {|
  stStageId := deterministicStageID envelope kind; stKind := kind;
  stMonotonicStartNs := start; stMonotonicEndNs := stop;
  stClockDomain := "g8e-operator-process"; stTimingSource := "go_monotonic"; stOutcome := outcome;
  stTransactionId := Id envelope; stTransactionHash := TransactionHash envelope;
  stActionType := EnvActionType envelope; stOperatorId := OperatorId envelope;
  stOperatorSessionId := OperatorSessionId envelope; stRequestorUserId := RequestorUserId envelope;
  stActingAppId := ActingAppId envelope; stCaseId := CaseId envelope;
  stInvestigationId := InvestigationId envelope; stTaskId := TaskId envelope;
  stStateRootBefore := dStateRootBefore d; stStateRootAfter := ""; stSignerKeyId := dSignerKeyId d;
  stReceiptSignatureDigest := dReceiptSignatureDigest d; stCommitmentHash := dCommitmentHash d;
  stPriorCommitmentHash := dPriorCommitmentHash d; stL2SignatureDigest := dL2SignatureDigest d;
  stL3SignatureDigest := dL3SignatureDigest d; stAuditRecordId := dAuditRecordId d;
  stParentStageId := ""; stDoctrineBundleHash := dDoctrineBundleHash d;
  stDoctrineBundleVersion := dDoctrineBundleVersion d |}.

(** ** Digests and canonical bytes *)

(** A length-prefixed string; the length is a uint32. *)
Definition writeCanonicalString (value : string) : string :=
  be32 (Z.of_nat (String.length value) mod 2 ^ 32) +:+ value.

Definition SignatureDigest (signatures : list string) : string :=
  match List.filter str_nonempty signatures with
  | [] => ""
  | values =>
      let values := sort_strings values in
      sha256_hex (be32 (Z.of_nat (List.length values) mod 2 ^ 32)
                  +:+ str_join "" (map writeCanonicalString values))
  end.

Definition l2SignatureDigest (env : GovernanceEnvelope) : string :=
  match Governance env with
  | Some {| L2 := Some l2 |} => SignatureDigest (map ConsensusSignature (Votes l2))
  | _ => ""
  end.

Definition humanSignatureDigest (env : GovernanceEnvelope) : string :=
  match Governance env with
  | Some {| L3 := Some {| L3MetaProof := Some proof |} |} => SignatureDigest [Signature proof; CliSignature proof]
  | _ => ""
  end.

Definition CanonicalizeCommitmentAttestation (a : CommitmentAttestation) : string :=
  str_join "" (map writeCanonicalString
    [caTransactionId a; caTransactionHash a; caPriorCommitmentHash a; caStateRootAtCommit a;
     caL2SignatureDigest a; caWardenIntentSignatureDigest a; caHumanSignatureDigest a;
     caActionType a; caTargetResource a])
  +:+ be64 (caCommittedAtUnixMs a mod 2 ^ 64) +:+ writeCanonicalString (caAuditorKeyId a).

Definition CanonicalizeReceiptPersistenceAttestation (a : ReceiptPersistenceAttestation) : string :=
  writeCanonicalString (paTransactionId a) +:+ writeCanonicalString (paReceiptSignatureDigest a)
  +:+ be64 (paPersistedAtUnixMs a mod 2 ^ 64)
  +:+ writeCanonicalString (paAuditRecordId a) +:+ writeCanonicalString (paSignerKeyId a).

(** A member with [omitempty]. *)
Definition omit_str (k v : string) : list (string * jval) :=
  if str_nonempty v then [(k, JS v)] else [].
Definition omit_int (k : string) (v : Z) : list (string * jval) :=
  if (v =? 0)%Z then [] else [(k, JI v)].

(** The members of [canonicalReceipt], in order. *)
Definition canonicalReceipt (r : ActionReceipt) (stageHash : string) : list (string * jval) :=
  [("transaction_id", JS (rcTransactionId r)); ("transaction_hash", JS (rcTransactionHash r))] ++
  omit_str "event_type" (rcEventType r) ++ omit_str "action_type" (rcActionType r) ++
  [("status", JI (status_num (rcStatus r))); ("result_summary", JS (rcResultSummary r));
   ("state_root_before", JS (rcStateRootBefore r)); ("state_root_after", JS (rcStateRootAfter r));
   ("executed_at_unix_ms", JI (rcExecutedAtUnixMs r)); ("signer_key_id", JS (rcSignerKeyId r));
   ("l2_status", JI (layer_num (rcL2Status r))); ("l3_status", JI (layer_num (rcL3Status r)))] ++
  omit_str "deterministic_stage_evidence_hash" stageHash ++
  omit_int "failure_code" (code_num (rcFailureCode r)).

(** Private keys are byte strings; an unset one is empty. *)
Definition key_set (k : string) : bool := str_nonempty k.

Definition SignerPublicKey (keyID : string) : result string :=
  match hex_decode keyID with
  | Some decoded => if (String.length decoded =? PublicKeySize)%nat then Ok decoded
                    else Err (Sentinel "ErrTrustedSignerKeyNotFound")
  | None => Err (Sentinel "ErrTrustedSignerKeyNotFound")
  end.

(** The action type the stages declare, all of them alike; [acc] is the one seen
    so far. *)
Fixpoint stages_action_type (acc : string) (stages : list StageEvidence) : result string :=
  match stages with
  | [] => if String.eqb acc ""
          then Err (Errorf "%w: deterministic stages do not declare an action type" [Sentinel "ErrEvidenceArtifactMalformed"])
          else Ok acc
  | s :: stages =>
      if String.eqb (stActionType s) "" then stages_action_type acc stages
      else if str_nonempty acc && negb (String.eqb acc (stActionType s))
      then Err (Errorf "%w: deterministic stages contain conflicting action types" [Sentinel "ErrEvidenceArtifactMalformed"])
      else stages_action_type (stActionType s) stages
  end.

Definition DeterministicStageActionType (receipt : ActionReceipt) : result string :=
  stages_action_type "" (rcStages receipt).

(** ** Signing and verification *)

Section receipts.
Context `{E : Ed25519}.
(** [proto.MarshalOptions{Deterministic: true}.Marshal] on a stage record. *)
Context (marshal_stage : StageEvidence -> result string).

Fixpoint marshal_stages (stages : list StageEvidence) : result (list string) :=
  match stages with
  | [] => Ok []
  | s :: stages => let? e := marshal_stage s in let? es := marshal_stages stages in Ok (e :: es)
  end.

(** A stage encoding with its uint64 length. *)
Definition framed (e : string) : string := be64 (Z.of_nat (String.length e) mod 2 ^ 64) +:+ e.

Definition deterministicStageEvidenceHash (stages : list StageEvidence) : result string :=
  match stages with
  | [] => Ok ""
  | _ => let? es := marshal_stages stages in Ok (sha256_hex (str_join "" (map framed es)))
  end.

Definition CanonicalizeActionReceipt (r : ActionReceipt) : result string :=
  match deterministicStageEvidenceHash (rcStages r) with
  | Err err => Err (Errorf "%w: deterministic stage evidence: %w" [Sentinel "ErrL5ActuatorCanonicalizeReceipt"; err])
  | Ok h => Ok (json_object (canonicalReceipt r h))
  end.

Definition signReceipt (signingKey : string) (r : ActionReceipt) : result string :=
  if negb (key_set signingKey) then Err (Sentinel "ErrL5ActuatorSigningKeyMissing")
  else match CanonicalizeActionReceipt r with
       | Err err => Err (Errorf "%w: %w" [Sentinel "ErrL5ActuatorCanonicalizeReceipt"; err])
       | Ok payload => Ok (hex_encode (ed_sign signingKey payload))
       end.

Definition VerifyActionReceiptSignature (receipt : option ActionReceipt) (publicKey : string) : result unit :=
  match receipt with
  | None => Err (Sentinel "ErrActionReceiptMissing")
  | Some r =>
      let invalid ws := Errorf "%w: %w" (Sentinel "ErrActionReceiptSignatureInvalid" :: ws) in
      if negb (str_nonempty (rcSignature r)) || negb (String.length publicKey =? PublicKeySize)%nat
      then Err (Sentinel "ErrActionReceiptSignatureInvalid")
      else match hex_decode (rcSignature r) with
      | None => Err (invalid [Extern "encoding/hex"])
      | Some signature =>
          match CanonicalizeActionReceipt r with
          | Err err => Err (invalid [err])
          | Ok payload => require (ed_verify publicKey payload signature) (Sentinel "ErrActionReceiptSignatureInvalid")
          end
      end
  end.

Definition signReceiptPersistenceAttestation (signingKey keyID : string) (now_ms : Z)
    (r : ActionReceipt) : ReceiptPersistenceAttestation :=
  let digest := SignatureDigest [rcSignature r] in
  let unsigned := {| paTransactionId := rcTransactionId r; paReceiptSignatureDigest := digest;
    paPersistedAtUnixMs := now_ms; paAuditRecordId := rcTransactionId r; paSignerKeyId := keyID;
    paSignature := "" |} in
  {| paTransactionId := rcTransactionId r; paReceiptSignatureDigest := digest;
     paPersistedAtUnixMs := now_ms; paAuditRecordId := rcTransactionId r; paSignerKeyId := keyID;
     paSignature := hex_encode (ed_sign signingKey (CanonicalizeReceiptPersistenceAttestation unsigned)) |}.

Definition VerifyReceiptPersistenceAttestation (receipt : option ActionReceipt) (publicKey : string) : result unit :=
  let missing := Sentinel "ErrReceiptPersistenceAttestationMissing" in
  let invalid := Sentinel "ErrReceiptPersistenceAttestationInvalid" in
  match receipt with
  | None => Err missing
  | Some r =>
  match rcAttestation r with
  | None => Err missing
  | Some a =>
      if negb (str_nonempty (rcTransactionId r))
         || negb (String.eqb (paTransactionId a) (rcTransactionId r))
         || negb (String.eqb (paAuditRecordId a) (rcTransactionId r))
         || negb (str_nonempty (rcSignerKeyId r))
         || negb (String.eqb (paSignerKeyId a) (rcSignerKeyId r))
         || (paPersistedAtUnixMs a <=? 0)%Z
      then Err invalid
      else if negb (str_nonempty (rcSignature r))
              || negb (String.eqb (paReceiptSignatureDigest a) (SignatureDigest [rcSignature r]))
      then Err (Sentinel "ErrReceiptPersistenceSignatureMismatch")
      else match hex_decode (paSignature a) with
      | None => Err (Errorf "%w: %w" [invalid; Extern "encoding/hex"])
      | Some signature =>
          require ((String.length publicKey =? PublicKeySize)%nat &&
                   ed_verify publicKey (CanonicalizeReceiptPersistenceAttestation a) signature) invalid
      end
  end end.

(** ** What the signed bytes determine *)

Lemma writeCanonicalString_inj v v' r r' :
  (Z.of_nat (String.length v) < 2 ^ 32)%Z -> (Z.of_nat (String.length v') < 2 ^ 32)%Z ->
  writeCanonicalString v +:+ r = writeCanonicalString v' +:+ r' -> v = v' /\ r = r'.
Proof.
  intros Hv Hv' H. unfold writeCanonicalString in H. rewrite !string_app_assoc in H.
  apply string_app_split in H as [Hl H]; [|by rewrite !length_be32].
  apply be32_inj in Hl; [|apply Z.mod_pos_bound; lia..].
  rewrite !Z.mod_small in Hl by lia. apply string_app_split in H; [done|lia].
Qed.

Definition int64 (z : Z) : Prop := (- 2 ^ 63 <= z < 2 ^ 63)%Z.

Lemma be64_int64 x y r r' :
  int64 x -> int64 y -> be64 (x mod 2 ^ 64) +:+ r = be64 (y mod 2 ^ 64) +:+ r' -> x = y /\ r = r'.
Proof.
  unfold int64. intros Hx Hy H. apply string_app_split in H as [H ->]; [|by rewrite !length_be64].
  apply be64_inj in H; [|apply Z.mod_pos_bound; lia..]. split; [|done].
  assert (Hdiv : ((x - y) mod 2 ^ 64 = 0)%Z) by (by rewrite Zminus_mod, H, Z.sub_diag).
  apply Z.mod_divide in Hdiv as [k Hk]; [|lia]. lia.
Qed.

Definition short (s : string) : Prop := (Z.of_nat (String.length s) < 2 ^ 32)%Z.

Lemma canonical_list_inj l l' r r' :
  List.length l = List.length l' -> Forall short l -> Forall short l' ->
  str_join "" (map writeCanonicalString l) +:+ r = str_join "" (map writeCanonicalString l') +:+ r' ->
  l = l' /\ r = r'.
Proof.
  revert l'. induction l as [|v l IH]; intros [|v' l'] Hl Hs Hs' H; try done.
  inversion Hs as [|? ? Hv Hs1]; inversion Hs' as [|? ? Hv' Hs1']; subst.
  assert (Hcons : forall w k t, str_join "" (map writeCanonicalString (w :: k)) +:+ t =
    writeCanonicalString w +:+ (str_join "" (map writeCanonicalString k) +:+ t)).
  { intros w [|w2 k] t; [done|]. cbn [map str_join]. by rewrite !string_app_assoc. }
  rewrite !Hcons in H. apply writeCanonicalString_inj in H as [-> H]; [|done..].
  apply IH in H as [-> ->]; auto.
Qed.
End receipts.

(** ** Helpers on the canonical texts *)

Lemma coerce_ascii n l :
  (List.length l <= n)%nat -> Forall (fun b => 0 <= b < 128)%Z l -> coerce n l = l.
Proof.
  revert l. induction n as [|n IH]; intros [|b l] Hn Hl; simpl in Hn; try done; try lia.
  inversion Hl as [|? ? Hb Hl']; subst. cbn [coerce decode_rune].
  rewrite (proj2 (Z.ltb_lt b 128)) by lia. change (drop 1 (b :: l)) with l. rewrite IH by (done || lia).
  replace (encode_rune b) with [b] by (rune_lia). done.
Qed.

Lemma valid_utf8_hex s : valid_utf8 (hex_encode s).
Proof.
  apply coerce_ascii; [by rewrite length_str_bytes|].
  assert (Hd : forall d, (0 <= d < 16)%Z -> (0 <= byte_val (hex_digit d) < 128)%Z).
  { intros d Hd. unfold hex_digit. case_match; rewrite byte_val_of; lia. }
  induction s as [|c s IH]; [constructor|].
  pose proof (byte_val_range c).
  change (str_bytes (hex_encode (String c s))) with (str_bytes (hex_byte c +:+ hex_encode s)).
  rewrite str_bytes_app. apply Forall_app. split; [|done].
  repeat constructor; apply Hd; Z.to_euclidean_division_equations; lia.
Qed.

Lemma framed_join_inj l l' :
  Forall (fun e => Z.of_nat (String.length e) < 2 ^ 64)%Z l ->
  Forall (fun e => Z.of_nat (String.length e) < 2 ^ 64)%Z l' ->
  str_join "" (map framed l) = str_join "" (map framed l') -> l = l'.
Proof.
  assert (Hcons : forall e l, str_join "" (map framed (e :: l)) =
    be64 (Z.of_nat (String.length e) mod 2 ^ 64) +:+ (e +:+ str_join "" (map framed l))).
  { intros e [|e2 k]; cbn [map str_join]; unfold framed at 1; rewrite ?string_app_assoc;
      [by rewrite string_app_nil_r | done]. }
  intros Hl. revert l'. induction Hl as [|e l He Hl IH]; intros [|e' l'] Hl' H; try done.
  - rewrite Hcons in H. apply (f_equal String.length) in H.
    rewrite string_app_length, length_be64 in H. done.
  - rewrite Hcons in H. apply (f_equal String.length) in H.
    rewrite string_app_length, length_be64 in H. done.
  - inversion Hl' as [|? ? He' Hl1']; subst. rewrite !Hcons in H.
    apply string_app_split in H as [Hn H]; [|by rewrite !length_be64].
    apply be64_inj in Hn; [|apply Z.mod_pos_bound; lia..]. rewrite !Z.mod_small in Hn by lia.
    apply string_app_split in H as [-> H]; [|lia]. by rewrite (IH l' Hl1' H).
Qed.

(** ** The receipt *)

Definition signed_fields (r : ActionReceipt) :=
  (rcTransactionId r, rcTransactionHash r, rcEventType r, rcActionType r, status_num (rcStatus r),
   rcResultSummary r, (rcStateRootBefore r, rcStateRootAfter r, rcExecutedAtUnixMs r, rcSignerKeyId r,
   layer_num (rcL2Status r), layer_num (rcL3Status r), code_num (rcFailureCode r))).

(** Every string field is UTF-8, as protobuf requires. *)
Definition receipt_utf8 (r : ActionReceipt) : Prop :=
  Forall valid_utf8 [rcTransactionId r; rcTransactionHash r; rcEventType r; rcActionType r;
    rcResultSummary r; rcStateRootBefore r; rcStateRootAfter r; rcSignerKeyId r].
#[export] Instance receipt_utf8_dec r : Decision (receipt_utf8 r).
Proof. unfold receipt_utf8. apply _. Defined.

Lemma canonicalReceipt_ok r h : receipt_utf8 r -> valid_utf8 h -> Forall member_ok (canonicalReceipt r h).
Proof.
  unfold receipt_utf8. rewrite !Forall_cons. intros (?&?&?&?&?&?&?&?&_) Hh.
  unfold canonicalReceipt, omit_str, omit_int. repeat (apply Forall_app; split);
    repeat case_match; repeat (apply Forall_cons; split); try apply Forall_nil; try done;
    (split; [by vm_compute|]; done).
Qed.

Definition opt_member (v : string) : option jval := if str_nonempty v then Some (JS v) else None.
Definition opt_int (v : Z) : option jval := if (v =? 0)%Z then None else Some (JI v).

(** Looking the members up gives the fields back. *)
Lemma canonicalReceipt_fields r h :
  map (fun k => Envelope.assoc k (canonicalReceipt r h))
    ["transaction_id"; "transaction_hash"; "event_type"; "action_type"; "status"; "result_summary";
     "state_root_before"; "state_root_after"; "executed_at_unix_ms"; "signer_key_id"; "l2_status";
     "l3_status"; "deterministic_stage_evidence_hash"; "failure_code"] =
  [Some (JS (rcTransactionId r)); Some (JS (rcTransactionHash r)); opt_member (rcEventType r);
   opt_member (rcActionType r); Some (JI (status_num (rcStatus r))); Some (JS (rcResultSummary r));
   Some (JS (rcStateRootBefore r)); Some (JS (rcStateRootAfter r)); Some (JI (rcExecutedAtUnixMs r));
   Some (JS (rcSignerKeyId r)); Some (JI (layer_num (rcL2Status r))); Some (JI (layer_num (rcL3Status r)));
   opt_member h; opt_int (code_num (rcFailureCode r))].
Proof.
  unfold canonicalReceipt, omit_str, omit_int, opt_member, opt_int.
  destruct (str_nonempty (rcEventType r)), (str_nonempty (rcActionType r)), (str_nonempty h),
    (code_num (rcFailureCode r) =? 0)%Z; reflexivity.
Qed.

Lemma opt_member_inj v v' : opt_member v = opt_member v' -> v = v'.
Proof. unfold opt_member. destruct v, v'; simpl; congruence. Qed.

Lemma opt_int_inj v v' : opt_int v = opt_int v' -> v = v'.
Proof.
  unfold opt_int. destruct (v =? 0)%Z eqn:?, (v' =? 0)%Z eqn:?; intros [=]; try done. lia.
Qed.

Lemma canonicalReceipt_inj r r' h h' :
  canonicalReceipt r h = canonicalReceipt r' h' -> signed_fields r = signed_fields r' /\ h = h'.
Proof.
  intros H. pose proof (canonicalReceipt_fields r h) as Hf.
  rewrite H, canonicalReceipt_fields in Hf. clear H.
  injection Hf as ? ? Hev Hac ? ? ? ? ? ? ? ? Hh Hc.
  apply opt_member_inj in Hev, Hac, Hh. apply opt_int_inj in Hc. unfold signed_fields. by split; congruence.
Qed.

Section binding.
Context (marshal_stage : StageEvidence -> result string).

(** The bytes hashed for the stages; a stage record is shorter than 2^64 bytes. *)
Definition stage_material (stages : list StageEvidence) : string :=
  match marshal_stages marshal_stage stages with
  | Ok es => str_join "" (map framed es)
  | Err _ => ""
  end.

Definition stages_short (stages : list StageEvidence) : Prop :=
  match marshal_stages marshal_stage stages with
  | Ok es => Forall (fun e => Z.of_nat (String.length e) < 2 ^ 64)%Z es
  | Err _ => True
  end.

Lemma stage_hash_inj l l' h :
  deterministicStageEvidenceHash marshal_stage l = Ok h ->
  deterministicStageEvidenceHash marshal_stage l' = Ok h ->
  stages_short l -> stages_short l' ->
  marshal_stages marshal_stage l = marshal_stages marshal_stage l' \/
  collision (stage_material l) (stage_material l').
Proof.
  unfold deterministicStageEvidenceHash, stages_short, stage_material. intros H H' Hs Hs'.
  destruct l as [|s l], l' as [|s' l']; [by left | | |].
  - destruct (marshal_stages marshal_stage (s' :: l')); simpl in H'; [|done]. injection H as <-. injection H' as H'.
    by apply sha256_hex_nonempty in H'.
  - destruct (marshal_stages marshal_stage (s :: l)); simpl in H; [|done]. injection H' as <-. injection H as H.
    by apply sha256_hex_nonempty in H.
  - destruct (marshal_stages marshal_stage (s :: l)) as [es|], (marshal_stages marshal_stage (s' :: l')) as [es'|];
      simpl in H, H'; try done.
    injection H as H. injection H' as H'. rewrite <- H in H'.
    apply sha256_hex_eq in H' as [H'|H']; [|by right; destruct H'; split; congruence].
    left. f_equal. symmetry. by apply framed_join_inj.
Qed.

Lemma stage_hash_utf8 l h : deterministicStageEvidenceHash marshal_stage l = Ok h -> valid_utf8 h.
Proof.
  destruct l as [|s l]; simpl; [by intros [= <-]|]. intros H. inv_ok. apply valid_utf8_hex.
Qed.

(** C36: A receipt's signature binds its content: two receipts whose texts are valid
    UTF-8, and whose encoded stage records are shorter than 2^64 bytes, with the same
    signed bytes agree on every signed field (identifiers, hashes, status, summary, state
    roots, time, signer, layer statuses, failure code), present or omitted, and on
    the encoding of every stage record, unless their stage records exhibit a
    SHA-256 collision.  The signature and the persistence attestation are outside
    the signed bytes. *)
Theorem receipt_signature_binds r r' p :
  CanonicalizeActionReceipt marshal_stage r = Ok p ->
  CanonicalizeActionReceipt marshal_stage r' = Ok p ->
  receipt_utf8 r -> receipt_utf8 r' -> stages_short (rcStages r) -> stages_short (rcStages r') ->
  signed_fields r = signed_fields r' /\
  (marshal_stages marshal_stage (rcStages r) = marshal_stages marshal_stage (rcStages r') \/
   collision (stage_material (rcStages r)) (stage_material (rcStages r'))).
Proof.
  unfold CanonicalizeActionReceipt. intros H H' Hu Hu' Hs Hs'.
  destruct (deterministicStageEvidenceHash marshal_stage (rcStages r)) as [h|] eqn:Hh; [|done].
  destruct (deterministicStageEvidenceHash marshal_stage (rcStages r')) as [h'|] eqn:Hh'; [|done].
  injection H as H. injection H' as H'. rewrite <- H' in H.
  apply json_object_inj in H; [|apply canonicalReceipt_ok; eauto using stage_hash_utf8..].
  apply canonicalReceipt_inj in H as [Hf ->]. split; [done|]. by apply (stage_hash_inj _ _ h').
Qed.
End binding.

(** ** Attestations *)

Definition commitment_fields (a : CommitmentAttestation) : list string :=
  [caTransactionId a; caTransactionHash a; caPriorCommitmentHash a; caStateRootAtCommit a;
   caL2SignatureDigest a; caWardenIntentSignatureDigest a; caHumanSignatureDigest a;
   caActionType a; caTargetResource a].

(** The canonical bytes of a commitment attestation determine its eleven content
    fields, whatever bytes the strings hold. *)
Lemma commitment_attestation_binds a a' :
  Forall short (caAuditorKeyId a :: commitment_fields a) ->
  Forall short (caAuditorKeyId a' :: commitment_fields a') ->
  int64 (caCommittedAtUnixMs a) -> int64 (caCommittedAtUnixMs a') ->
  CanonicalizeCommitmentAttestation a = CanonicalizeCommitmentAttestation a' ->
  commitment_fields a = commitment_fields a' /\ caCommittedAtUnixMs a = caCommittedAtUnixMs a' /\
  caAuditorKeyId a = caAuditorKeyId a'.
Proof.
  rewrite !Forall_cons. intros [Hk Hs] [Hk' Hs'] Ht Ht' H.
  unfold CanonicalizeCommitmentAttestation in H.
  apply (canonical_list_inj (commitment_fields a) (commitment_fields a')) in H as [Hf H]; [|done..].
  apply be64_int64 in H as [Htime H]; [|done..].
  rewrite <- (string_app_nil_r (writeCanonicalString (caAuditorKeyId a))) in H.
  rewrite <- (string_app_nil_r (writeCanonicalString (caAuditorKeyId a'))) in H.
  by apply writeCanonicalString_inj in H as [? _].
Qed.

(** What the digest covers, in its order. *)
Definition sorted_signatures (l : list string) : list string := sort_strings (List.filter str_nonempty l).

Lemma sorted_signatures_perm l : sorted_signatures l ≡ₚ List.filter str_nonempty l.
Proof. apply merge_sort_Permutation. Qed.

Lemma sorted_signatures_ok l :
  Forall short l -> (Z.of_nat (List.length l) < 2 ^ 32)%Z ->
  Forall short (sorted_signatures l) /\ (Z.of_nat (List.length (sorted_signatures l)) < 2 ^ 32)%Z.
Proof.
  intros Hs Hl. rewrite sorted_signatures_perm. split.
  - apply List.Forall_forall. intros x Hx. apply filter_In in Hx as [Hx _].
    by eapply List.Forall_forall in Hs.
  - pose proof (List.filter_length_le str_nonempty l). lia.
Qed.

(** The bytes the digest hashes. *)
Definition digest_material (vs : list string) : string :=
  be32 (Z.of_nat (List.length vs) mod 2 ^ 32) +:+ str_join "" (map writeCanonicalString vs).

Lemma SignatureDigest_sorted l :
  SignatureDigest l =
  match sorted_signatures l with [] => "" | vs => sha256_hex (digest_material vs) end.
Proof.
  unfold SignatureDigest. pose proof (sorted_signatures_perm l) as Hp. unfold sorted_signatures in *.
  destruct (List.filter str_nonempty l) as [|v vs].
  - by apply Permutation_nil_r in Hp as ->.
  - destruct (sort_strings (v :: vs)); [|done]. by apply Permutation_nil_l in Hp.
Qed.

Lemma digest_material_inj vs vs' :
  Forall short vs -> Forall short vs' ->
  (Z.of_nat (List.length vs) < 2 ^ 32)%Z -> (Z.of_nat (List.length vs') < 2 ^ 32)%Z ->
  digest_material vs = digest_material vs' -> vs = vs'.
Proof.
  intros Hs Hs' Hn Hn' H. apply string_app_split in H as [Hc H]; [|by rewrite !length_be32].
  apply be32_inj in Hc; [|apply Z.mod_pos_bound; lia..]. rewrite !Z.mod_small in Hc by lia.
  apply (canonical_list_inj vs vs' "" ""); [lia|done|done|]. by rewrite !string_app_nil_r.
Qed.

(** [SignatureDigest] identifies the multiset of the non-empty signatures: the
    order and the empty strings do not matter, and two lists with the same digest
    hold the same non-empty signatures, unless they exhibit a collision. *)
Theorem SignatureDigest_spec l l' :
  Forall short l -> Forall short l' ->
  (Z.of_nat (List.length l) < 2 ^ 32)%Z -> (Z.of_nat (List.length l') < 2 ^ 32)%Z ->
  (List.filter str_nonempty l ≡ₚ List.filter str_nonempty l' -> SignatureDigest l = SignatureDigest l') /\
  (SignatureDigest l = SignatureDigest l' ->
   List.filter str_nonempty l ≡ₚ List.filter str_nonempty l' \/
   collision (digest_material (sorted_signatures l)) (digest_material (sorted_signatures l'))).
Proof.
  intros Hs Hs' Hl Hl'. rewrite !SignatureDigest_sorted. split.
  { intros Hp. unfold sorted_signatures. by rewrite (sort_strings_perm _ _ Hp). }
  intros H. destruct (sorted_signatures_ok l Hs Hl) as [Hsh Hn], (sorted_signatures_ok l' Hs' Hl') as [Hsh' Hn'].
  cut (sorted_signatures l = sorted_signatures l' \/
       collision (digest_material (sorted_signatures l)) (digest_material (sorted_signatures l'))).
  { intros [Heq|]; [left|by right]. by rewrite <- sorted_signatures_perm, Heq, sorted_signatures_perm. }
  destruct (sorted_signatures l) as [|v vs], (sorted_signatures l') as [|v' vs'].
  - by left.
  - by apply eq_sym, sha256_hex_nonempty in H.
  - by apply sha256_hex_nonempty in H.
  - apply sha256_hex_eq in H as [H|H]; [left|by right]. by apply digest_material_inj.
Qed.

(** ** What the code signs, it accepts *)

Lemma signReceipt_verifies `{E : Ed25519} `{L : !Ed25519Laws E} marshal key r sig :
  signReceipt marshal key r = Ok sig ->
  forall r', rcSignature r' = sig ->
    CanonicalizeActionReceipt marshal r' = CanonicalizeActionReceipt marshal r ->
    VerifyActionReceiptSignature marshal (Some r') (ed_public key) = Ok tt.
Proof.
  unfold signReceipt, VerifyActionReceiptSignature. destruct (negb (key_set key)); [done|].
  destruct (CanonicalizeActionReceipt marshal r) as [p|]; [|done]. intros [= <-] r' -> ->.
  rewrite ed_public_size, hex_decode_encode, ed_verify_sign.
  pose proof (ed_sign_size key p) as Hl. by destruct (ed_sign key p) as [|c s].
Qed.

Lemma attestation_verifies `{E : Ed25519} `{L : !Ed25519Laws E} key keyID now r r' :
  rcAttestation r' = Some (signReceiptPersistenceAttestation key keyID now r) ->
  rcTransactionId r' = rcTransactionId r -> rcSignature r' = rcSignature r -> rcSignerKeyId r' = keyID ->
  str_nonempty (rcTransactionId r) = true -> str_nonempty keyID = true ->
  str_nonempty (rcSignature r) = true -> (0 < now)%Z ->
  VerifyReceiptPersistenceAttestation (Some r') (ed_public key) = Ok tt.
Proof.
  intros Ha Hid Hsig Hkey Hn1 Hn2 Hn3 Hnow. unfold VerifyReceiptPersistenceAttestation.
  rewrite Ha, Hid, Hsig, Hkey. cbn [signReceiptPersistenceAttestation paTransactionId paAuditRecordId
    paSignerKeyId paPersistedAtUnixMs paReceiptSignatureDigest paSignature].
  rewrite Hn1, Hn2, Hn3, !String.eqb_refl, (proj2 (Z.leb_gt now 0)) by lia. cbn [negb orb].
  rewrite hex_decode_encode, ed_public_size. unfold CanonicalizeReceiptPersistenceAttestation.
  cbn. by rewrite ed_verify_sign.
Qed.

(** ** Witnesses *)

Definition sample_receipt (signature : string) : ActionReceipt := {|
  rcTransactionId := "t1"; rcTransactionHash := "h1"; rcStatus := STATUS_COMPLETED;
  rcResultSummary := "exit <0>"; rcStateRootBefore := "r0"; rcStateRootAfter := "r1";
  rcExecutedAtUnixMs := 1700000000000; rcSignerKeyId := "k"; rcSignature := signature;
  rcL2Status := LAYER_NOT_REQUIRED; rcL3Status := LAYER_REQUIRED_VALID;
  rcStages := [newDeterministicStageEvidence sample_env L1_DOCTRINE 1 2 VERIFIED (no_details "r0")];
  rcAttestation := None; rcFailureCode := CODE_UNSPECIFIED; rcEventType := ""; rcActionType := "FS_READ" |}.

(** A marshaller for concrete runs: the identifier and the outcome. *)
Definition toy_marshal (s : StageEvidence) : result string :=
  Ok (stStageId s +:+ (if decide (stOutcome s = VERIFIED) then "+" else "-")).

Definition sample_payload : string :=
  match CanonicalizeActionReceipt toy_marshal (sample_receipt "") with Ok p => p | Err _ => "" end.

Lemma receipt_signature_binds_witness :
  signed_fields (sample_receipt "s1") = signed_fields (sample_receipt "s2") /\
  (marshal_stages toy_marshal (rcStages (sample_receipt "s1")) =
   marshal_stages toy_marshal (rcStages (sample_receipt "s2")) \/
   collision (stage_material toy_marshal (rcStages (sample_receipt "s1")))
     (stage_material toy_marshal (rcStages (sample_receipt "s2")))).
Proof.
  apply (receipt_signature_binds toy_marshal (sample_receipt "s1") (sample_receipt "s2") sample_payload).
  - vm_compute. reflexivity.
  - vm_compute. reflexivity.
  - apply (bool_decide_eq_true_1 (receipt_utf8 (sample_receipt "s1"))). vm_compute. reflexivity.
  - apply (bool_decide_eq_true_1 (receipt_utf8 (sample_receipt "s2"))). vm_compute. reflexivity.
  - constructor; [vm_compute; reflexivity | constructor].
  - constructor; [vm_compute; reflexivity | constructor].
Defined.

Lemma SignatureDigest_spec_witness :
  SignatureDigest ["b"; ""; "a"] = SignatureDigest ["a"; "b"].
Proof.
  apply (SignatureDigest_spec ["b"; ""; "a"] ["a"; "b"]).
  - repeat (apply List.Forall_cons; [vm_compute; reflexivity|]). apply List.Forall_nil.
  - repeat (apply List.Forall_cons; [vm_compute; reflexivity|]). apply List.Forall_nil.
  - vm_compute. reflexivity.
  - vm_compute. reflexivity.
  - apply perm_swap.
Defined.
