(* ===== verification/Payload.v ===== *)
(** Typed payloads ([src/internal/services/governance/payload_decode.go]): the
    message type of each action class, and the collection rule of the warden.

    The protobuf decoder is a parameter: it takes the name of the message type
    and the bytes. *)
From S2P Require Import Prelude Errors Constants Envelope Doctrine.
From Stdlib Require Import String List Bool.
From stdpp Require Import base strings list.
Open Scope string_scope.

(** The switch of [DecodePayloadForAction]. *)
Definition payload_type (actionType : ActionType) : option string :=
  let act a := String.eqb actionType a in
  if act ActionTypeExecuteBash then Some "CommandRequested"
  else if act ActionTypeFileEdit then Some "FileEditRequested"
  else if act ActionTypeRestoreFile then Some "RestoreFileRequested"
  else if act ActionTypeShutdown then Some "ShutdownRequested"
  else if act ActionTypeFsList then Some "FsListRequested"
  else if act ActionTypeFsRead then Some "FsReadRequested"
  else if act ActionTypeFsGrep then Some "FsGrepRequested"
  else if act ActionTypePortCheck then Some "CheckPortRequested"
  else if act ActionTypeOllamaModelInventory then Some "OllamaModelInventoryRequested"
  else if act ActionTypeOllamaModelResidency then Some "OllamaModelResidencyRequested"
  else if act ActionTypeFetchLogs then Some "FetchLogsRequested"
  else if act ActionTypeFetchHistory then Some "FetchHistoryRequested"
  else if act ActionTypeFetchFileHistory then Some "FetchFileHistoryRequested"
  else if act ActionTypeEvalAnswer then Some "EvalAnswerRequested"
  else if act ActionTypeMcpCall then Some "McpCallRequested"
  else if act ActionTypeA2aCall then Some "A2ACallRequested"
  else if act ActionTypeMcpResourceRead then Some "McpResourceReadRequested"
  else if act ActionTypeMcpPromptGet then Some "McpPromptGetRequested"
  else if act ActionTypeFetchFileDiff then Some "FetchFileDiffRequested"
  else if act ActionTypeMcpResourceList then Some "McpResourceListRequested"
  else if act ActionTypeMcpPromptList then Some "McpPromptListRequested"
  else if act ActionTypeHeartbeat then Some "HeartbeatRequested"
  else if act ActionTypeCancel then Some "CommandCancelRequested"
  else if act ActionTypeDocumentUpdate then Some "DocumentUpdateRequested"
  else if act ActionTypeDocumentDelete then Some "DocumentDeleteRequested"
  else if act ActionTypeInference then Some "InferenceRequested"
  else if act ActionTypeProviderBoundaryObservation then Some "ProviderBoundaryObservationCommand"
  else if act ActionTypeModelProvenanceObservation then Some "ModelProvenanceObservationCommand"
  else if act ActionTypePlatformEnrollmentCreate || act ActionTypePlatformEnrollmentDecide
       || act ActionTypePlatformEnrollmentIssue || act ActionTypePlatformEnrollmentPersistPolicy
       || act ActionTypePlatformEnrollmentCreateSession || act ActionTypePlatformEnrollmentRevoke
  then Some "PlatformEnrollmentGovernancePayload"
  else None.

(** Every declared action class has a decoder. *)
Lemma payload_type_total a : mem a AllActionTypes = true -> payload_type a <> None.
Proof.
  intros H. apply mem_true, list_elem_of_In in H. revert a H. apply List.Forall_forall.
  repeat (constructor; [vm_compute; discriminate|]). constructor.
Qed.

Section decode.
(** [proto.Unmarshal] into a message of the named type. *)
Context (unmarshal : string -> string -> result Message).

Definition DecodePayloadForAction (actionType : ActionType) (payload : string) : result Message :=
  match payload_type actionType with
  | None => Err (Errorf "%w: %q" [Sentinel "ErrTxPayloadDecoderMissing"])
  | Some t => unmarshal t payload
  end.
End decode.

(** The collection a document message targets. *)
Definition document_collection (payload : Message) : option CollectionName :=
  match payload with
  | DocumentUpdateRequested c _ | DocumentDeleteRequested c _ => Some c
  | _ => None
  end.

Definition verifyDocumentCollection (payload : Message) : result unit :=
  match document_collection payload with
  | None => Ok tt
  | Some c => require (IsGovernedDocument c) (Errorf "%w: %q" [Sentinel "ErrTxDocumentCollectionNotGoverned"])
  end.

Lemma verifyDocumentCollection_Ok payload :
  verifyDocumentCollection payload = Ok tt <->
  forall c, document_collection payload = Some c -> IsGovernedDocument c = true.
Proof.
  unfold verifyDocumentCollection. destruct (document_collection payload) as [c|].
  - rewrite require_Ok. naive_solver.
  - naive_solver.
Qed.
