(* ===== verification/Warden.v ===== *)
(** L4: the warden ([src/internal/services/governance/l4_warden.go]).

    [VerifyEnvelope] is a transformer of the warden's state: the set of nonces in
    flight and the replay store, which is known through its interface.  A call
    reads clocks, the store's environments and the dependencies' answers from its
    environment [call]. *)
From S2P Require Import Prelude Errors Timestamp Constants EventRegistry Envelope Posture Crypto.
From S2P Require Import L2Consensus L3Notary Doctrine Payload Replay Receipt.
From Stdlib Require Import String List ZArith Lia Bool.
From stdpp Require Import base strings list gmap.
Open Scope string_scope.

Record VerifiedTransaction := {
  vtEnvelope : GovernanceEnvelope; vtActionType : ActionType; vtPayload : string;
  vtDecodedPayload : option Message; vtStateRoot : string; vtNonce : string;
  vtExpiresAt : gotime; vtL2Valid : bool; vtL3Valid : bool;
  vtPosture : option GovernancePosture; vtStages : list StageEvidence
}.

(** The warden's dependencies; a nil interface is [None]. *)
Record L4Warden := {
  executionTarget : option (string -> bool);
  replayStoreSet : bool;
  stateRootProvider : option (result string);
  signerStore : option SignerStore;
  consensusPolicyStore : option L2ConsensusPolicyStore;
  l3Notary : option L3Notary;
  doctrine : option L1Doctrine;
  knownActionTypes : list ActionType
}.

(** One call: the warden's clock, the readings of the monotonic clock in their
    order, the store's environments, the root placed in the context. *)
Record call (E : Type) := {
  wall : gotime; mono : nat -> Z; reserve_env : E; release_env : E; context_root : string
}.
Arguments wall {E} c.
Arguments mono {E} c n.
Arguments reserve_env {E} c.
Arguments release_env {E} c.
Arguments context_root {E} c.

Record warden_state (S : Type) := { inFlight : gset string; replay : S }.
Arguments inFlight {S} w.
Arguments replay {S} w.
Arguments Build_warden_state {S} inFlight replay.

(** [trackInFlight], [releaseInFlight]. *)
Definition trackInFlight {S} (nonce : string) (st : warden_state S) : result unit * warden_state S :=
  if String.eqb nonce "" then (Ok tt, st)
  else if decide (nonce ∈ inFlight st) then (Err (Sentinel "ErrTxInFlight"), st)
  else (Ok tt, {| inFlight := {[nonce]} ∪ inFlight st; replay := replay st |}).

Definition releaseInFlight {S} (nonce : string) (st : warden_state S) : warden_state S :=
  {| inFlight := inFlight st ∖ {[nonce]}; replay := replay st |}.

Section warden.
Context `{Ed : Ed25519}.
Context (unmarshal : string -> string -> result Message).
Context {S E : Type} `{RS : ReplayStore S E}.

(** ** The checks *)

(** The target of the envelope is one this runtime executes for; a document
    action without an Operator is exempt. *)
Definition target_ok (tv : L4Warden) (envelope : GovernanceEnvelope) : bool :=
  let actionType := EnvActionType envelope in
  let unboundDocument := String.eqb (OperatorId envelope) "" &&
    (String.eqb actionType ActionTypeDocumentUpdate || String.eqb actionType ActionTypeDocumentDelete) in
  match executionTarget tv with
  | None => false
  | Some executesFor =>
      unboundDocument || (str_nonempty (OperatorId envelope) && executesFor (OperatorId envelope))
  end.

(** A governed request event must carry its action class; other events are not
    constrained here. *)
Definition event_check (envelope : GovernanceEnvelope) : result unit :=
  match ValidateGovernedRequest (EnvEventType envelope) with
  | Ok _ => ValidateGovernedEnvelopeFields (EnvEventType envelope) (EnvActionType envelope)
  | Err _ => Ok tt
  end.

Definition decode_payload (envelope : GovernanceEnvelope) : result Message :=
  match DecodePayloadForAction unmarshal (EnvActionType envelope) (Payload envelope) with
  | Ok m => Ok m
  | Err err => if err_is "ErrTxPayloadDecoderMissing" err then Err err
               else Err (Sentinel "ErrTxPayloadDecodeFailed")
  end.

(** The last part of [verifyStateless]: the three identifiers agree. *)
Definition check_hash (envelope : GovernanceEnvelope) : result string :=
  let? computedHash := wrap_err "l4 warden: compute transaction hash: %w" (GenerateMessageID (Some envelope)) in
  let? _ := require (str_nonempty (TransactionHash envelope)) (Sentinel "ErrTxTransactionHashMissing") in
  let? _ := require (String.eqb (TransactionHash envelope) computedHash) (Sentinel "ErrTxTransactionHashMismatch") in
  let? _ := require (String.eqb (Id envelope) computedHash) (Sentinel "ErrTxTransactionIDMismatch") in
  Ok computedHash.

Definition verifyStateless (tv : L4Warden) (envelope : GovernanceEnvelope) : result (Message * string) :=
  let actionType := EnvActionType envelope in
  let? _ := require (String.eqb (ProtocolVersion envelope) GovernanceProtocolVersionV2)
                    (Sentinel "ErrTxProtocolVersionUnsupported") in
  match doctrine tv with
  | None => Err (Sentinel "ErrTxDoctrineMissing")
  | Some d =>
      let? _ := require (str_nonempty (Id envelope)) (Sentinel "ErrTxTransactionIDMissing") in
      let? _ := event_check envelope in
      let? _ := require (mem actionType (knownActionTypes tv)) (Sentinel "ErrTxUnknownActionType") in
      let? _ := require (str_nonempty (Payload envelope) || String.eqb actionType ActionTypeHeartbeat)
                        (Sentinel "ErrTxPayloadMissing") in
      let? decodedPayload := decode_payload envelope in
      let? _ := verifyDocumentCollection decodedPayload in
      let? _ := require (target_ok tv envelope) (Errorf "%w: %q" [Sentinel "ErrTxTargetOperatorMismatch"]) in
      let? _ := require (match ValidatePayload d decodedPayload with [] => true | _ => false end)
                        (Errorf "%w: %s" [Sentinel "ErrTxL1ValidationFailed"]) in
      let? computedHash := check_hash envelope in
      Ok (decodedPayload, computedHash)
  end.

(** The root placed in the context wins over the provider. *)
Definition current_root (provider : result string) (context_root : string) : result string :=
  if str_nonempty context_root then Ok context_root
  else wrap_err "l4 warden: get current state root: %w" provider.

Definition verifyStateful (tv : L4Warden) (context_root : string) (envelope : GovernanceEnvelope) : result unit :=
  let? _ := require (str_nonempty (StateMerkleRoot envelope)) (Sentinel "ErrTxStateRootRequired") in
  match stateRootProvider tv with
  | None => Err (Sentinel "ErrTxStateRootMissing")
  | Some provider =>
      let? currentRoot := current_root provider context_root in
      let? _ := require (str_nonempty currentRoot) (Sentinel "ErrTxStateRootMissing") in
      require (String.eqb currentRoot (StateMerkleRoot envelope)) (Sentinel "ErrTxStateRootMismatch")
  end.

Definition envelope_l3 (env : GovernanceEnvelope) : option L3Proof :=
  match Governance env with
  | Some {| L3 := Some {| L3MetaProof := Some proof |} |} => Some proof
  | _ => None
  end.

Definition verifyL3Posture (tv : L4Warden) (envelope : GovernanceEnvelope) (posture : GovernancePosture)
    : result bool :=
  let needed := IsMutation (EnvActionType envelope) && RequiresL3Proof posture in
  match envelope_l3 envelope with
  | None => if needed then Err (Sentinel "ErrTxL3ProofMissing") else Ok false
  | Some proof =>
  match l3Notary tv with
  | None => if needed then Err (Sentinel "ErrTxL3NotaryNotConfigured") else Ok false
  | Some notary =>
      let ok := match notary (RequestorUserId envelope) (TransactionHash envelope)
                        (CliSessionId envelope) (Some proof) with
                | Ok b => b
                | Err _ => false
                end in
      if negb ok && needed then Err (Sentinel "ErrTxL3ProofInvalid") else Ok ok
  end end.

(** ** Stages *)

Definition l1_stage (tv : L4Warden) (c : call E) (envelope : GovernanceEnvelope) (o : StageOutcome) : StageEvidence :=
  newDeterministicStageEvidence envelope L1_DOCTRINE (mono c 1) (mono c 2) o
    (match doctrine tv with
     | Some d => doctrine_details (StateMerkleRoot envelope) (DoctrineBundleHash d) (DoctrineBundleVersion d)
     | None => no_details (StateMerkleRoot envelope)
     end).

Definition l2_stage (c : call E) (envelope : GovernanceEnvelope) (o : StageOutcome) : StageEvidence :=
  newDeterministicStageEvidence envelope PROTOCOL_L2 (mono c 3) (mono c 4) o
    (layer_details (StateMerkleRoot envelope) (l2SignatureDigest envelope) "").

Definition l3_stage (c : call E) (envelope : GovernanceEnvelope) (o : StageOutcome) : StageEvidence :=
  newDeterministicStageEvidence envelope L3_NOTARY (mono c 5) (mono c 6) o
    (layer_details (StateMerkleRoot envelope) "" (humanSignatureDigest envelope)).

Definition l4_stage (c : call E) (last : nat) (envelope : GovernanceEnvelope) (o : StageOutcome) : StageEvidence :=
  newDeterministicStageEvidence envelope L4_VERIFICATION (mono c 0) (mono c last) o
    (layer_details (StateMerkleRoot envelope) (l2SignatureDigest envelope) (humanSignatureDigest envelope)).

(** The stages become children of the L4 stage, which closes the list. *)
Definition close_stages (stages : list StageEvidence) (l4 : StageEvidence) : list StageEvidence :=
  map (set_parent (stStageId l4)) stages ++ [l4].

Definition layer_outcome (valid : bool) : StageOutcome := if valid then VERIFIED else NOT_REQUIRED.

(** What [verifyPosture] returns. *)
Record posture_report := {
  prL2Valid : bool; prL3Valid : bool; prStages : list StageEvidence; prErr : option gerr
}.

Definition verifyPosture (tv : L4Warden) (c : call E) (envelope : GovernanceEnvelope)
    (computedHash : string) (posture : GovernancePosture) : posture_report :=
  match verifyL2Posture (signerStore tv) (consensusPolicyStore tv) envelope computedHash posture with
  | Err err => {| prL2Valid := false; prL3Valid := false; prStages := [l2_stage c envelope FAILED]; prErr := Some err |}
  | Ok l2Valid =>
      let l2Stage := l2_stage c envelope (layer_outcome l2Valid) in
      match verifyL3Posture tv envelope posture with
      | Err err => {| prL2Valid := l2Valid; prL3Valid := false;
                      prStages := [l2Stage; l3_stage c envelope FAILED]; prErr := Some err |}
      | Ok l3Valid => {| prL2Valid := l2Valid; prL3Valid := l3Valid;
                         prStages := [l2Stage; l3_stage c envelope (layer_outcome l3Valid)]; prErr := None |}
      end
  end.

(** ** The whole verification *)

(** Steps 0 and 1: the nonce is in flight while it is being reserved. *)
Definition admit_nonce (tv : L4Warden) (c : call E) (envelope : GovernanceEnvelope)
    (st : warden_state S) : (result gotime) * warden_state S :=
  let nonce := Nonce envelope in
  match trackInFlight nonce st with
  | (Err err, st) => (Err err, st)
  | (Ok _, st) =>
      let refuse (name : string) := (Err (Sentinel name), releaseInFlight nonce st) in
      if negb (replayStoreSet tv) then refuse "ErrTxReplayStoreMissing"
      else match ExpiresAt envelope with
      | None => refuse "ErrTxExpiresAtMissing"
      | Some expiresAt =>
          if (expiresAt <? wall c)%Z then refuse "ErrTxTransactionExpired"
          else if String.eqb nonce "" then refuse "ErrTxNonceMissing"
          else
            let '(answer, store) := ReserveNonce (reserve_env c) nonce expiresAt (replay st) in
            let st := releaseInFlight nonce {| inFlight := inFlight st; replay := store |} in
            match answer with
            | Err err => (Err (Errorf "l4 warden: reserve nonce: %w" [err]), st)
            | Ok true => (Err (Sentinel "ErrTxTransactionReplay"), st)
            | Ok false => (Ok expiresAt, st)
            end
      end
  end.

Definition releaseNonceReservation (c : call E) (nonce : string) (st : warden_state S) : warden_state S :=
  {| inFlight := inFlight st; replay := (ReleaseNonce (release_env c) nonce (replay st)).2 |}.

(** A transaction as [reject] returns it. *)
Definition rejected (c : call E) (envelope : GovernanceEnvelope) (last : nat)
    (posture : option GovernancePosture) (l2Valid l3Valid : bool) (stages : list StageEvidence)
    : VerifiedTransaction := {|
  vtEnvelope := envelope; vtActionType := EnvActionType envelope; vtPayload := "";
  vtDecodedPayload := None; vtStateRoot := ""; vtNonce := ""; vtExpiresAt := zero_time;
  vtL2Valid := l2Valid; vtL3Valid := l3Valid; vtPosture := posture;
  vtStages := close_stages stages (l4_stage c last envelope FAILED) |}.

(** Steps 2 to 5, after the reservation: a verdict, and no change of state. *)
Definition verify_reserved (tv : L4Warden) (c : call E) (envelope : GovernanceEnvelope) (expiresAt : gotime)
    : VerifiedTransaction * option gerr :=
  match verifyStateless tv envelope with
  | Err err => (rejected c envelope 3 None false false [l1_stage tv c envelope FAILED], Some err)
  | Ok (decodedPayload, computedHash) =>
  let l1Stage := l1_stage tv c envelope VERIFIED in
  match verifyStateful tv (context_root c) envelope with
  | Err err => (rejected c envelope 3 None false false [l1Stage], Some err)
  | Ok _ =>
  match postureFromEnvelope envelope with
  | Err err => (rejected c envelope 3 None false false [l1Stage], Some err)
  | Ok posture =>
      let report := verifyPosture tv c envelope computedHash posture in
      let stages := l1Stage :: prStages report in
      match prErr report with
      | Some err => (rejected c envelope (3 + 2 * List.length (prStages report)) (Some posture)
                       (prL2Valid report) (prL3Valid report) stages, Some err)
      | None => ({| vtEnvelope := envelope; vtActionType := EnvActionType envelope;
                    vtPayload := Payload envelope; vtDecodedPayload := Some decodedPayload;
                    vtStateRoot := StateMerkleRoot envelope; vtNonce := Nonce envelope;
                    vtExpiresAt := expiresAt; vtL2Valid := prL2Valid report;
                    vtL3Valid := prL3Valid report; vtPosture := Some posture;
                    vtStages := close_stages stages (l4_stage c 7 envelope VERIFIED) |}, None)
      end
  end end end.

(** [VerifyEnvelope]: the transaction, the error (nil is [None]) and the state. *)
Definition VerifyEnvelope (tv : L4Warden) (c : call E) (envelope : option GovernanceEnvelope)
    (st : warden_state S) : option VerifiedTransaction * option gerr * warden_state S :=
  match envelope with
  | None => (None, Some (Sentinel "ErrTxInvalidEnvelope"), st)
  | Some envelope =>
      match admit_nonce tv c envelope st with
      | (Err err, st) => (Some (rejected c envelope 1 None false false []), Some err, st)
      | (Ok expiresAt, st) =>
          match verify_reserved tv c envelope expiresAt with
          | (vt, None) => (Some vt, None, st)
          | (vt, Some err) => (Some vt, Some err, releaseNonceReservation c (Nonce envelope) st)
          end
      end
  end.

(** The error of a call. *)
Definition verdict (r : option VerifiedTransaction * option gerr * warden_state S) : option gerr := r.1.2.

(** ** What acceptance means *)

Definition event_ok (envelope : GovernanceEnvelope) : Prop :=
  forall a, ValidateGovernedRequest (EnvEventType envelope) = Ok a -> EnvActionType envelope = a.

Lemma event_check_Ok envelope : event_check envelope = Ok tt <-> event_ok envelope.
Proof.
  unfold event_check, event_ok, ValidateGovernedEnvelopeFields.
  destruct (ValidateGovernedRequest (EnvEventType envelope)) as [a|e]; simpl.
  - split.
    + intros H a' [= <-]. by apply require_Ok, String.eqb_eq in H.
    + intros H. by rewrite (H a eq_refl), String.eqb_refl.
  - naive_solver.
Qed.

(** The conditions of the stateless stage, with the decoded payload. *)
Record stateless_ok (tv : L4Warden) (envelope : GovernanceEnvelope) (m : Message) : Prop := {
  ok_version : ProtocolVersion envelope = GovernanceProtocolVersionV2;
  ok_event : event_ok envelope;
  ok_action : EnvActionType envelope ∈ knownActionTypes tv;
  ok_payload : Payload envelope <> "" \/ EnvActionType envelope = ActionTypeHeartbeat;
  ok_decoded : DecodePayloadForAction unmarshal (EnvActionType envelope) (Payload envelope) = Ok m;
  ok_collection : forall c, document_collection m = Some c -> IsGovernedDocument c = true;
  ok_target : target_ok tv envelope = true;
  ok_doctrine : exists d, doctrine tv = Some d /\ ValidatePayload d m = [];
  ok_id : Id envelope = TransactionHash envelope /\ Id envelope <> "";
  ok_hash : GenerateMessageID (Some envelope) = Ok (TransactionHash envelope)
}.

Lemma decode_payload_Ok envelope m :
  decode_payload envelope = Ok m <->
  DecodePayloadForAction unmarshal (EnvActionType envelope) (Payload envelope) = Ok m.
Proof.
  unfold decode_payload. destruct (DecodePayloadForAction _ _ _) as [m'|err]; [done|].
  by destruct (err_is _ err).
Qed.

Lemma check_hash_Ok envelope h :
  check_hash envelope = Ok h <->
  GenerateMessageID (Some envelope) = Ok h /\ TransactionHash envelope = h /\ Id envelope = h /\
  TransactionHash envelope <> "".
Proof.
  unfold check_hash. rewrite !rbind_Ok. setoid_rewrite wrap_err_Ok. split.
  - intros (h' & Hg & H). inv_ok. bools. subst. rewrite str_nonempty_true in *.
    split_and!; congruence.
  - intros (Hg & <- & Hid & Hne). apply str_nonempty_true in Hne.
    exists (TransactionHash envelope). by rewrite Hne, String.eqb_refl, Hid, String.eqb_refl.
Qed.

(** The sequence of checks, as conditions. *)
Lemma verifyStateless_Ok tv envelope m h :
  verifyStateless tv envelope = Ok (m, h) <-> stateless_ok tv envelope m /\ h = TransactionHash envelope.
Proof.
  unfold verifyStateless. destruct (doctrine tv) as [d|] eqn:Hd.
  2:{ split; [intros H; inv_ok; done|]. intros [[] _]. naive_solver. }
  split.
  - intros H. inv_ok.
    repeat match goal with
    | Hx : (_, _) = (_, _) |- _ => injection Hx as -> ->
    | Hx : event_check _ = _ |- _ => apply event_check_Ok in Hx
    | Hx : decode_payload _ = _ |- _ => apply decode_payload_Ok in Hx
    | Hx : verifyDocumentCollection _ = _ |- _ => rewrite verifyDocumentCollection_Ok in Hx
    | Hx : check_hash _ = _ |- _ => apply check_hash_Ok in Hx as (? & <- & ? & ?)
    | Hx : mem _ _ = true |- _ => apply mem_true in Hx
    end.
    bools. split; [|done]. split; try done.
    + match goal with Hx : _ || _ = true |- _ => apply orb_prop in Hx as [Hx|Hx] end.
      * left. by apply str_nonempty_true.
      * right. by apply String.eqb_eq.
    + exists d. split; [done|]. by destruct (ValidatePayload d m).
    + split; congruence.
  - intros [[Hv Hev Hact Hp Hdec Hcol Htgt (d' & Hd' & Hviol) [Hid Hidne] Hh] ->].
    rewrite Hd in Hd'. injection Hd' as <-.
    assert (Hids : str_nonempty (Id envelope) = true) by by apply str_nonempty_true.
    apply event_check_Ok in Hev. apply mem_true in Hact. apply decode_payload_Ok in Hdec.
    apply verifyDocumentCollection_Ok in Hcol.
    assert (Hpay : str_nonempty (Payload envelope) || String.eqb (EnvActionType envelope) ActionTypeHeartbeat = true).
    { apply orb_true_iff. destruct Hp as [Hp|Hp]; [left; by apply str_nonempty_true | right; by apply String.eqb_eq]. }
    assert (Hc : check_hash envelope = Ok (TransactionHash envelope)) by (apply check_hash_Ok; split_and!; congruence).
    rewrite Hv, Hids, Hev, Hact, Hpay, Hdec. cbn. by rewrite Hcol, Htgt, Hviol, Hc.
Qed.

Lemma verifyStateful_Ok tv root envelope :
  verifyStateful tv root envelope = Ok tt <->
  StateMerkleRoot envelope <> "" /\
  exists provider, stateRootProvider tv = Some provider /\
    current_root provider root = Ok (StateMerkleRoot envelope).
Proof.
  unfold verifyStateful. rewrite rbind_Ok. setoid_rewrite require_Ok. split.
  - intros ([] & Hne & H). destruct (stateRootProvider tv) as [provider|]; [|done].
    inv_ok. bools. subst. split; [by apply str_nonempty_true|]. by exists provider.
  - intros (Hne & provider & -> & H). apply str_nonempty_true in Hne.
    exists tt. rewrite Hne, H. cbn. by rewrite Hne, String.eqb_refl.
Qed.

(** The notary vouches for the proof the envelope carries. *)
Definition l3_verified (tv : L4Warden) (envelope : GovernanceEnvelope) : bool :=
  match envelope_l3 envelope, l3Notary tv with
  | Some proof, Some notary =>
      match notary (RequestorUserId envelope) (TransactionHash envelope) (CliSessionId envelope) (Some proof) with
      | Ok b => b
      | Err _ => false
      end
  | _, _ => false
  end.

Lemma verifyL3Posture_Ok tv envelope posture b :
  verifyL3Posture tv envelope posture = Ok b <->
  b = l3_verified tv envelope /\
  (IsMutation (EnvActionType envelope) = true -> RequiresL3Proof posture = true -> b = true).
Proof.
  unfold verifyL3Posture, l3_verified. set (needed := IsMutation _ && _).
  assert (Hn : needed = true <-> IsMutation (EnvActionType envelope) = true /\ RequiresL3Proof posture = true)
    by apply andb_true_iff.
  destruct (envelope_l3 envelope) as [proof|], (l3Notary tv) as [notary|];
    try (set (ok := match notary _ _ _ _ with Ok _ => _ | Err _ => _ end); destruct ok);
    destruct needed; naive_solver.
Qed.

(** L2 is achieved, or the posture or the action does not ask for it. *)
Definition l2_satisfied (envelope : GovernanceEnvelope) (posture : GovernancePosture) (l2Valid : bool) : Prop :=
  RequiresL2Signature posture = true -> IsBootstrapAction (EnvActionType envelope) = false -> l2Valid = true.

Lemma verifyL2Posture_Ok_satisfied ss ps envelope h posture b :
  verifyL2Posture ss ps envelope h posture = Ok b -> l2_satisfied envelope posture b.
Proof.
  unfold verifyL2Posture, l2_satisfied. intros H H1 H2. rewrite H1, H2 in H. cbn [negb andb] in H.
  repeat (case_match; try done; try by injection H).
Qed.

(** Steps 2 to 5 succeed exactly under these conditions; the transaction then
    carries the verified results. *)
Record reserved_ok (tv : L4Warden) (root : string) (envelope : GovernanceEnvelope)
    (m : Message) (posture : GovernancePosture) (l2Valid : bool) : Prop := {
  rk_stateless : stateless_ok tv envelope m;
  rk_root : StateMerkleRoot envelope <> "" /\
    exists provider, stateRootProvider tv = Some provider /\
      current_root provider root = Ok (StateMerkleRoot envelope);
  rk_posture : Posture envelope = Name posture;
  rk_l2 : verifyL2Posture (signerStore tv) (consensusPolicyStore tv) envelope (TransactionHash envelope) posture = Ok l2Valid;
  rk_l3 : IsMutation (EnvActionType envelope) = true -> RequiresL3Proof posture = true ->
    l3_verified tv envelope = true
}.

Definition accepted_tx (tv : L4Warden) (c : call E) (envelope : GovernanceEnvelope) (expiresAt : gotime)
    (m : Message) (posture : GovernancePosture) (l2Valid : bool) : VerifiedTransaction := {|
  vtEnvelope := envelope; vtActionType := EnvActionType envelope; vtPayload := Payload envelope;
  vtDecodedPayload := Some m; vtStateRoot := StateMerkleRoot envelope; vtNonce := Nonce envelope;
  vtExpiresAt := expiresAt; vtL2Valid := l2Valid; vtL3Valid := l3_verified tv envelope;
  vtPosture := Some posture;
  vtStages := close_stages
    [l1_stage tv c envelope VERIFIED; l2_stage c envelope (layer_outcome l2Valid);
     l3_stage c envelope (layer_outcome (l3_verified tv envelope))] (l4_stage c 7 envelope VERIFIED) |}.

Lemma verify_reserved_Ok tv c envelope expiresAt vt :
  verify_reserved tv c envelope expiresAt = (vt, None) <->
  exists m posture l2Valid,
    reserved_ok tv (context_root c) envelope m posture l2Valid /\
    vt = accepted_tx tv c envelope expiresAt m posture l2Valid.
Proof.
  unfold verify_reserved. split.
  - intros H. destruct (verifyStateless tv envelope) as [[m h]|] eqn:Hs; [|done].
    apply verifyStateless_Ok in Hs as [Hs ->].
    destruct (verifyStateful tv (context_root c) envelope) as [[]|] eqn:Hr; [|done].
    apply verifyStateful_Ok in Hr.
    destruct (postureFromEnvelope envelope) as [posture|] eqn:Hp; [|done].
    apply postureFromEnvelope_Ok in Hp. unfold verifyPosture in H.
    destruct (verifyL2Posture _ _ _ _ _) as [l2Valid|] eqn:Hl2; [|done].
    destruct (verifyL3Posture tv envelope posture) as [l3Valid|] eqn:Hl3; [|done].
    apply verifyL3Posture_Ok in Hl3 as [-> Hl3]. injection H as <-.
    exists m, posture, l2Valid. by split.
  - intros (m & posture & l2Valid & [Hs Hr Hp Hl2 Hl3] & ->).
    rewrite (proj2 (verifyStateless_Ok tv envelope m _) (conj Hs eq_refl)).
    rewrite (proj2 (verifyStateful_Ok tv _ envelope) Hr), (proj2 (postureFromEnvelope_Ok envelope posture) Hp).
    unfold verifyPosture. rewrite Hl2.
    rewrite (proj2 (verifyL3Posture_Ok tv envelope posture _) (conj eq_refl Hl3)). done.
Qed.

(** The nonce is free, the envelope not expired, and the store grants it. *)
Definition nonce_admitted (tv : L4Warden) (c : call E) (envelope : GovernanceEnvelope)
    (st : warden_state S) (expiresAt : gotime) (s' : S) : Prop :=
  Nonce envelope <> "" /\ Nonce envelope ∉ inFlight st /\ replayStoreSet tv = true /\
  ExpiresAt envelope = Some expiresAt /\ (wall c <= expiresAt)%Z /\
  ReserveNonce (reserve_env c) (Nonce envelope) expiresAt (replay st) = (Ok false, s').

Lemma trackInFlight_release nonce (st : warden_state S) st' :
  trackInFlight nonce st = (Ok tt, st') ->
  releaseInFlight nonce st' = releaseInFlight nonce st /\ replay st' = replay st.
Proof.
  unfold trackInFlight, releaseInFlight. intros H. case_in H; injection H as <-; [done|]. simpl.
  split; [f_equal; set_solver|done].
Qed.

Lemma admit_nonce_Ok tv c envelope st expiresAt st' :
  admit_nonce tv c envelope st = (Ok expiresAt, st') <->
  exists s', nonce_admitted tv c envelope st expiresAt s' /\
             st' = Build_warden_state (inFlight st) s'.
Proof.
  unfold admit_nonce, nonce_admitted, trackInFlight.
  destruct (String.eqb (Nonce envelope) "") eqn:Hn.
  { apply String.eqb_eq in Hn. split; [|naive_solver].
    intros H. repeat case_match; simplify_eq. }
  apply String.eqb_neq in Hn. destruct (decide (Nonce envelope ∈ inFlight st)) as [Hin|Hin]; [naive_solver|].
  destruct (replayStoreSet tv); [|naive_solver]. cbn [negb].
  destruct (ExpiresAt envelope) as [t|]; [|naive_solver].
  destruct (t <? wall c)%Z eqn:Ht.
  { split; [done|]. intros (s' & (_ & _ & _ & [= ->] & ? & _) & _). lia. }
  cbn [inFlight replay].
  destruct (ReserveNonce (reserve_env c) (Nonce envelope) t (replay st)) as [[[|]|err] s'] eqn:Hr.
  - split; [done|]. intros (s2 & (_ & _ & _ & [= <-] & _ & H) & _). congruence.
  - unfold releaseInFlight. cbn [inFlight replay].
    replace (({[Nonce envelope]} ∪ inFlight st) ∖ {[Nonce envelope]}) with (inFlight st) by set_solver.
    split.
    + intros [= <- <-]. exists s'. split_and!; try done. lia.
    + intros (s2 & (_ & _ & _ & [= <-] & _ & H) & ->). congruence.
  - split; [done|]. intros (s2 & (_ & _ & _ & [= <-] & _ & H) & _). congruence.
Qed.

(** An accepting run, exactly. *)
Lemma VerifyEnvelope_Ok tv c envelope st vt st' :
  VerifyEnvelope tv c (Some envelope) st = (vt, None, st') <->
  exists expiresAt s' m posture l2Valid,
    nonce_admitted tv c envelope st expiresAt s' /\
    reserved_ok tv (context_root c) envelope m posture l2Valid /\
    vt = Some (accepted_tx tv c envelope expiresAt m posture l2Valid) /\
    st' = Build_warden_state (inFlight st) s'.
Proof.
  unfold VerifyEnvelope. split.
  - intros H. destruct (admit_nonce tv c envelope st) as [[expiresAt|] st1] eqn:Ha; [|done].
    apply admit_nonce_Ok in Ha as (s' & Ha & ->).
    destruct (verify_reserved tv c envelope expiresAt) as [vt' [err|]] eqn:Hv; [done|].
    injection H as <- <-.
    apply verify_reserved_Ok in Hv as (m & posture & l2Valid & ? & ->).
    by exists expiresAt, s', m, posture, l2Valid.
  - intros (expiresAt & s' & m & posture & l2Valid & Ha & Hr & -> & ->).
    rewrite (proj2 (admit_nonce_Ok tv c envelope st expiresAt _) (ex_intro _ s' (conj Ha eq_refl))).
    rewrite (proj2 (verify_reserved_Ok tv c envelope expiresAt (accepted_tx tv c envelope expiresAt m posture l2Valid)));
      [done|]. by exists m, posture, l2Valid.
Qed.

Lemma accepts_iff tv c envelope st :
  verdict (VerifyEnvelope tv c (Some envelope) st) = None <->
  exists expiresAt s' m posture l2Valid,
    nonce_admitted tv c envelope st expiresAt s' /\
    reserved_ok tv (context_root c) envelope m posture l2Valid.
Proof.
  unfold verdict. split.
  - destruct (VerifyEnvelope tv c (Some envelope) st) as [[vt err] st'] eqn:H. simpl. intros ->.
    apply VerifyEnvelope_Ok in H as (expiresAt & s' & m & posture & l2Valid & ? & ? & _).
    by exists expiresAt, s', m, posture, l2Valid.
  - intros (expiresAt & s' & m & posture & l2Valid & Ha & Hr).
    by rewrite (proj2 (VerifyEnvelope_Ok tv c envelope st _ _)
      (ex_intro _ expiresAt (ex_intro _ s' (ex_intro _ m (ex_intro _ posture (ex_intro _ l2Valid
        (conj Ha (conj Hr (conj eq_refl eq_refl))))))))).
Qed.

(** C1: The warden accepts an envelope exactly when its nonce is present, not in
    flight and granted by the replay store, it has not expired, it passes every
    stateless check (version, event and action agreement, known action, payload,
    typed decoding, governed collection, target, L1 doctrine, and the identifier
    and hash being the recomputed one), its state root is the current one, its
    posture is one of the four, L2 is achieved where the posture and the action
    require it, and the notary vouches for its proof where they require that. *)
Theorem VerifyEnvelope_accepts tv c envelope st :
  verdict (VerifyEnvelope tv c (Some envelope) st) = None <->
  exists expiresAt s' m posture l2Valid,
    nonce_admitted tv c envelope st expiresAt s' /\
    stateless_ok tv envelope m /\
    StateMerkleRoot envelope <> "" /\
    (exists provider, stateRootProvider tv = Some provider /\
       current_root provider (context_root c) = Ok (StateMerkleRoot envelope)) /\
    Posture envelope = Name posture /\
    verifyL2Posture (signerStore tv) (consensusPolicyStore tv) envelope (TransactionHash envelope) posture = Ok l2Valid /\
    l2_satisfied envelope posture l2Valid /\
    (IsMutation (EnvActionType envelope) = true -> RequiresL3Proof posture = true ->
     l3_verified tv envelope = true).
Proof.
  rewrite accepts_iff. split.
  - intros (expiresAt & s' & m & posture & l2Valid & Ha & [? [? ?] ? ? ?]).
    exists expiresAt, s', m, posture, l2Valid. eauto 10 using verifyL2Posture_Ok_satisfied.
  - intros (expiresAt & s' & m & posture & l2Valid & Ha & Hs & Hr1 & Hr2 & Hp & Hl2 & _ & Hl3).
    exists expiresAt, s', m, posture, l2Valid. split; [done|]. by constructor.
Qed.

(** ** Effects of a call *)

(** The three shapes of a call: refused before the store, answered by the store
    without a grant, or granted and then kept or released. *)
Lemma VerifyEnvelope_state tv c envelope st :
  let st' := (VerifyEnvelope tv c (Some envelope) st).2 in
  let granted := ReserveNonce (reserve_env c) (Nonce envelope) (default 0%Z (ExpiresAt envelope)) (replay st) in
  replay st' = replay st \/
  (granted.1 <> Ok false /\ replay st' = granted.2) \/
  (granted.1 = Ok false /\
   replay st' = match verdict (VerifyEnvelope tv c (Some envelope) st) with
                | None => granted.2
                | Some _ => (ReleaseNonce (release_env c) (Nonce envelope) granted.2).2
                end).
Proof.
  cbv zeta. unfold verdict, VerifyEnvelope, admit_nonce.
  destruct (trackInFlight (Nonce envelope) st) as [[[]|err] st1] eqn:Ht.
  2:{ left. unfold trackInFlight in Ht. case_in Ht; by injection Ht as <- <-. }
  apply trackInFlight_release in Ht as [_ Ht].
  destruct (negb (replayStoreSet tv)); [left; exact Ht|].
  destruct (ExpiresAt envelope) as [t|]; [|left; exact Ht].
  destruct (t <? wall c)%Z; [left; exact Ht|].
  destruct (String.eqb (Nonce envelope) ""); [left; exact Ht|]. change (default 0%Z (Some t)) with t. rewrite Ht.
  destruct (ReserveNonce (reserve_env c) (Nonce envelope) t (replay st)) as [[[|]|err] s'] eqn:Hr;
    [by right; left; split | | by right; left; split].
  right. right. split; [done|]. by destruct (verify_reserved tv c envelope t) as [vt [err|]].
Qed.

Context {L : ReplayStoreLaws S E}.

(** A recorded nonce stays on record through any call whose clean-up does not
    reach it, accepted or rejected, whatever nonce it is about. *)
Lemma VerifyEnvelope_keeps tv c envelope st n x :
  recorded (replay st) n = Some x -> drops (reserve_env c) x = false ->
  recorded (replay (VerifyEnvelope tv c envelope st).2) n = Some x.
Proof.
  intros Hr Hd. destruct envelope as [envelope|]; [|done].
  destruct (VerifyEnvelope_state tv c envelope st) as [->|[[_ ->]|[Hg ->]]]; [done| |].
  - by apply reserve_keeps.
  - destruct (verdict _); [|by apply reserve_keeps].
    rewrite release_other; [by apply reserve_keeps|]. intros ->.
    by eapply reserve_refuses in Hg.
Qed.

(** A sequence of calls. *)
Definition run (calls : list (L4Warden * call E * option GovernanceEnvelope)) (st : warden_state S)
    : warden_state S :=
  fold_left (fun st k => (VerifyEnvelope k.1.1 k.1.2 k.2 st).2) calls st.

Lemma run_keeps calls st n x :
  recorded (replay st) n = Some x ->
  Forall (fun k : L4Warden * call E * option GovernanceEnvelope => drops (reserve_env k.1.2) x = false) calls ->
  recorded (replay (run calls st)) n = Some x.
Proof.
  intros Hr Hc. revert st Hr. induction Hc as [|k calls Hk _ IH]; intros st Hr; [done|].
  apply IH. by apply VerifyEnvelope_keeps.
Qed.

Lemma accepted_recorded tv c envelope st :
  verdict (VerifyEnvelope tv c (Some envelope) st) = None ->
  exists expiresAt, ExpiresAt envelope = Some expiresAt /\
    recorded (replay (VerifyEnvelope tv c (Some envelope) st).2) (Nonce envelope) = Some (FormatTimestamp expiresAt).
Proof.
  unfold verdict. destruct (VerifyEnvelope tv c (Some envelope) st) as [[vt err] st'] eqn:H. simpl. intros ->.
  apply VerifyEnvelope_Ok in H as (t & s' & _ & _ & _ & (_ & _ & _ & Ht & _ & Hr) & _ & _ & ->).
  exists t. split; [done|]. by eapply reserve_grants.
Qed.

(** C4: At most once: after an envelope was accepted, no envelope with the same
    nonce is accepted again, whatever calls (accepted, rejected, of any
    configuration) come in between, as long as no reservation's clean-up runs with
    a clock past the first envelope's expiry. *)
Theorem nonce_accepted_once tv c envelope st expiresAt calls tv' c' envelope' :
  verdict (VerifyEnvelope tv c (Some envelope) st) = None ->
  ExpiresAt envelope = Some expiresAt ->
  Nonce envelope' = Nonce envelope ->
  Forall (fun k : L4Warden * call E * option GovernanceEnvelope =>
            drops (reserve_env k.1.2) (FormatTimestamp expiresAt) = false) calls ->
  drops (reserve_env c') (FormatTimestamp expiresAt) = false ->
  verdict (VerifyEnvelope tv' c' (Some envelope')
             (run calls (VerifyEnvelope tv c (Some envelope) st).2)) <> None.
Proof.
  intros Hacc He Hn Hc Hd Hacc'. apply accepted_recorded in Hacc as (t & Ht & Hrec).
  rewrite He in Ht. injection Ht as <-. rewrite <- Hn in Hrec.
  apply accepts_iff in Hacc' as (t' & s' & _ & _ & _ & (_ & _ & _ & _ & _ & Hr) & _).
  pose proof (run_keeps calls _ _ _ Hrec Hc) as Hrec2.
  eapply reserve_refuses in Hrec2; [|exact Hd]. by rewrite Hr in Hrec2.
Qed.
End warden.

(** ** The Operator's store *)

Section sql.
Context `{Ed : Ed25519} (unmarshal : string -> string -> result Message).

Notation state := (warden_state (gmap string SQLReplayStore.nonce_row)).

(** No statement of the call fails. *)
Definition fault_free (c : call sql_env) : Prop :=
  fault1 (reserve_env c) = None /\ fault2 (reserve_env c) = None /\ fault1 (release_env c) = None.

(** C24: A rejection leaves no reservation behind: after a rejected call without a
    database fault, the table holds only rows it held before, unchanged, and every
    row that outlives the store's clock; the nonce can be used for a retry. *)
Theorem rejection_releases tv c envelope (st : state) err :
  verdict (VerifyEnvelope unmarshal tv c (Some envelope) st) = Some err -> fault_free c ->
  let db' := replay (VerifyEnvelope unmarshal tv c (Some envelope) st).2 in
  forall m r,
    (db' !! m = Some r -> replay st !! m = Some r) /\
    (replay st !! m = Some r -> outlives (clock1 (reserve_env c)) r -> db' !! m = Some r).
Proof.
  intros Hv (H1 & H2 & H3) db' m r. unfold db'.
  pose proof (VerifyEnvelope_state unmarshal tv c envelope st) as Hs. cbv zeta in Hs.
  set (t := default 0%Z (ExpiresAt envelope)) in *.
  pose proof (sql_reserve_spec (reserve_env c) (Nonce envelope) t (replay st) H1 H2) as Hspec.
  destruct (ReserveNonce (reserve_env c) (Nonce envelope) t (replay st)) as [res db1] eqn:Hr.
  destruct Hs as [->|[[Hg ->]|[Hg ->]]]; [done| |].
  - cbn [fst snd] in *. destruct Hspec as (_ & Hans & Hrow). split.
    + intros [[Hx _]|(_ & Hx & _)]%Hrow; [exact Hx|]. destruct (Hg Hx).
    + intros ? ?. apply Hrow. by left.
  - rewrite Hv. cbn [fst snd] in *. subst res.
    pose proof (sql_release_reserved _ (release_env c) _ _ _ _ m r H1 H2 H3 Hr) as Hrel.
    split; [by intros [? _]%Hrel|]. intros ? ?. by apply Hrel.
Qed.

(** The two clocks: the warden compares the expiry with its own clock, then the
    store cleans up with a later reading of its own.  When that reading is past the
    expiry and the warden's is not, an accepted envelope is accepted again. *)
Theorem replay_past_expiry tv c c' envelope (st : state) expiresAt :
  verdict (VerifyEnvelope unmarshal tv c (Some envelope) st) = None ->
  ExpiresAt envelope = Some expiresAt ->
  (wall c' <= expiresAt)%Z -> context_root c' = context_root c -> fault_free c' ->
  String.ltb (FormatTimestamp expiresAt) (FormatTimestamp (clock1 (reserve_env c'))) = true ->
  verdict (VerifyEnvelope unmarshal tv c' (Some envelope)
             (VerifyEnvelope unmarshal tv c (Some envelope) st).2) = None.
Proof.
  unfold verdict at 1. destruct (VerifyEnvelope unmarshal tv c (Some envelope) st) as [[vt err] st1] eqn:Hv.
  intros Hacc He Hw Hroot (H1 & H2 & _) Hlt. cbn [fst snd] in *. subst err.
  apply VerifyEnvelope_Ok in Hv as (t & s' & m & p & l2 & (Hn & Hin & Hset & Ht & _ & Hr) & Hok & _ & ->).
  rewrite He in Ht. injection Ht as <-.
  apply (reserve_grants (E := sql_env)) in Hr.
  change (SQLReplayStore.expires_at <$> s' !! Nonce envelope = Some (FormatTimestamp expiresAt)) in Hr.
  apply accepts_iff. exists expiresAt.
  assert (Hg : (ReserveNonce (reserve_env c') (Nonce envelope) expiresAt s').1 = Ok false).
  { apply sql_reserve_expired; [done|done|]. intros r Hrow Ho. rewrite Hrow in Hr.
    change (Some (SQLReplayStore.expires_at r) = Some (FormatTimestamp expiresAt)) in Hr. apply (inj Some) in Hr as Hx.
    unfold outlives in Ho. rewrite Hx in Ho. rewrite Hlt in Ho. discriminate Ho. }
  destruct (ReserveNonce (reserve_env c') (Nonce envelope) expiresAt s') as [res s2] eqn:Hr2.
  cbn [fst] in Hg. subst res. exists s2, m, p, l2. split; [|by rewrite Hroot].
  by split_and!.
Qed.
End sql.

(** ** A concrete verification *)

#[local] Existing Instance toy_ed25519.

Definition with_hash (h : string) (e : GovernanceEnvelope) : GovernanceEnvelope := {|
  Id := h; SentAt := SentAt e; ExpiresAt := ExpiresAt e; SourceComponent := SourceComponent e;
  OperatorId := OperatorId e; OperatorSessionId := OperatorSessionId e; WebSessionId := WebSessionId e;
  CliSessionId := CliSessionId e; RequestorUserId := RequestorUserId e; ActingAppId := ActingAppId e;
  EnvEventType := EnvEventType e; Payload := Payload e; IntentData := IntentData e;
  EnvActionType := EnvActionType e; TargetResource := TargetResource e;
  StateMerkleRoot := StateMerkleRoot e; Nonce := Nonce e; TransactionHash := h;
  ProtocolVersion := ProtocolVersion e; Governance := Governance e; CaseId := CaseId e;
  InvestigationId := InvestigationId e; TaskId := TaskId e;
  SystemFingerprint := SystemFingerprint e; TenantId := TenantId e;
  BindingPersona := BindingPersona e; Posture := Posture e |}.

Definition ex_env : GovernanceEnvelope := with_hash sample_hash voted_env.

Definition ex_unmarshal (type payload : string) : result Message :=
  if String.eqb type "CommandRequested" then Ok (CommandRequested payload) else Ok (OtherMessage type).

(** A small doctrine: one detector that blocks "curl". *)
Definition ex_doctrine : L1Doctrine := {|
  inputThreatDetectors := [builtin "curl" "\bcurl\b" ThreatCategoryExfiltration ThreatSeverityHigh
                             "0.9" "T1048" "Exfiltration" "BLOCK"];
  doctrineBundleHash := "bundle"; doctrineBundleVersion := "v1" |}.

Definition ex_warden : L4Warden := {|
  executionTarget := Some (String.eqb "op-1"); replayStoreSet := true;
  stateRootProvider := Some (Ok "root"); signerStore := Some ex_signers;
  consensusPolicyStore := Some ex_policies; l3Notary := None; doctrine := Some ex_doctrine;
  knownActionTypes := AllActionTypes |}.

Definition ex_expiry : gotime := (1767322800 * 1000000000)%Z.

(** A call whose clocks read [before] the check and [store] in the store. *)
Definition ex_call (before store : gotime) : call sql_env := {|
  wall := before; mono := Z.of_nat; reserve_env := quiet_env store; release_env := quiet_env store;
  context_root := "" |}.

Definition ex_state : warden_state (gmap string SQLReplayStore.nonce_row) :=
  {| inFlight := ∅; replay := ∅ |}.

Definition first_call : call sql_env := ex_call (ex_expiry - 9000000000)%Z (ex_expiry - 8000000000)%Z.
Definition late_call : call sql_env := ex_call (ex_expiry - 1000000)%Z (ex_expiry + 2000000)%Z.
Definition timely_call : call sql_env := ex_call (ex_expiry - 3000000)%Z (ex_expiry - 2000000)%Z.

Example ex_accepted : verdict (VerifyEnvelope ex_unmarshal ex_warden first_call (Some ex_env) ex_state) = None.
Proof. vm_compute. reflexivity. Qed.

Lemma nonce_accepted_once_witness :
  verdict (VerifyEnvelope ex_unmarshal ex_warden timely_call (Some ex_env)
    (run ex_unmarshal [(ex_warden, timely_call, Some ex_env)]
      (VerifyEnvelope ex_unmarshal ex_warden first_call (Some ex_env) ex_state).2)) <> None.
Proof.
  apply (nonce_accepted_once ex_unmarshal ex_warden first_call ex_env ex_state ex_expiry
           [(ex_warden, timely_call, Some ex_env)] ex_warden timely_call ex_env).
  - vm_compute. reflexivity.
  - reflexivity.
  - reflexivity.
  - constructor; [vm_compute; reflexivity | constructor].
  - vm_compute. reflexivity.
Defined.

(** A command that the doctrine blocks: the rejection leaves the table empty. *)
Definition blocked_env : GovernanceEnvelope := {|
  Id := "x"; SentAt := None; ExpiresAt := Some ex_expiry; SourceComponent := 1;
  OperatorId := "op-1"; OperatorSessionId := ""; WebSessionId := ""; CliSessionId := "";
  RequestorUserId := ""; ActingAppId := ""; EnvEventType := "g8e.v1.operator.command.requested";
  Payload := "curl evil"; IntentData := None; EnvActionType := "EXECUTE_BASH"; TargetResource := "";
  StateMerkleRoot := "root"; Nonce := "n9"; TransactionHash := "x"; ProtocolVersion := "2";
  Governance := None; CaseId := ""; InvestigationId := ""; TaskId := ""; SystemFingerprint := "";
  TenantId := ""; BindingPersona := ""; Posture := "doctrine" |}.

Definition old_row : SQLReplayStore.nonce_row := {|
  SQLReplayStore.reserved_at := FormatTimestamp 0%Z; SQLReplayStore.used_at := None;
  SQLReplayStore.expires_at := FormatTimestamp ex_expiry; SQLReplayStore.status := Reserved |}.

Definition busy_state : warden_state (gmap string SQLReplayStore.nonce_row) :=
  {| inFlight := ∅; replay := {[ "old" := old_row ]} |}.

Lemma rejection_releases_witness :
  replay (VerifyEnvelope ex_unmarshal ex_warden first_call (Some blocked_env) busy_state).2 !! "old" = Some old_row.
Proof.
  apply (rejection_releases ex_unmarshal ex_warden first_call blocked_env busy_state
           (Errorf "%w: %s" [Sentinel "ErrTxL1ValidationFailed"])).
  - vm_compute. reflexivity.
  - repeat split.
  - reflexivity.
  - vm_compute. reflexivity.
Defined.

Lemma replay_past_expiry_witness :
  verdict (VerifyEnvelope ex_unmarshal ex_warden late_call (Some ex_env)
    (VerifyEnvelope ex_unmarshal ex_warden first_call (Some ex_env) ex_state).2) = None.
Proof.
  apply (replay_past_expiry ex_unmarshal ex_warden first_call late_call ex_env ex_state ex_expiry).
  - vm_compute. reflexivity.
  - reflexivity.
  - vm_compute. discriminate.
  - reflexivity.
  - repeat split.
  - vm_compute. reflexivity.
Defined.
