(* ===== verification/Concurrent.v ===== *)
(** Calls of the warden that run at the same time
    ([VerifyEnvelope] of [src/internal/services/governance/l4_warden.go] under
    [sync.Map] and a replay store shared by all calls).

    A call is a sequence of phases; a step takes one access to shared state together
    with the local work before it.  A schedule says which call moves next.  Run alone,
    a call does what [Warden.VerifyEnvelope] does. *)
From S2P Require Import Prelude Errors Timestamp Constants Envelope Posture Crypto L2Consensus L3Notary.
From S2P Require Import Doctrine Payload Replay Receipt Warden.
From Stdlib Require Import String List ZArith Lia Bool.
From stdpp Require Import base strings list gmap relations.
Open Scope string_scope.

Section concurrent.
Context `{Ed : Ed25519}.
Context (unmarshal : string -> string -> result Message).
Context {S E : Type} `{RS : ReplayStore S E}.

(** One call of [VerifyEnvelope]: its warden's dependencies, its environment and its
    envelope, which is set. *)
Record job := { jWarden : L4Warden; jCall : call E; jEnvelope : GovernanceEnvelope }.

Inductive phase :=
  | Waiting
  | Tracked
  | Refusing (err : gerr)
  | Granted (expiresAt : gotime)
  | Checking (expiresAt : gotime)
  | Releasing (vt : VerifiedTransaction) (err : gerr)
  | Finished (vt : VerifiedTransaction) (err : option gerr).

(** What is checked between the in-flight mark and the reservation. *)
Definition admission (j : job) : result gotime :=
  if negb (replayStoreSet (jWarden j)) then Err (Sentinel "ErrTxReplayStoreMissing")
  else match ExpiresAt (jEnvelope j) with
  | None => Err (Sentinel "ErrTxExpiresAtMissing")
  | Some expiresAt =>
      if (expiresAt <? wall (jCall j))%Z then Err (Sentinel "ErrTxTransactionExpired")
      else if String.eqb (Nonce (jEnvelope j)) "" then Err (Sentinel "ErrTxNonceMissing")
      else Ok expiresAt
  end.

Definition refused (j : job) : VerifiedTransaction := rejected (jCall j) (jEnvelope j) 1 None false false [].

(** The next step of a call; a finished call has none. *)
Definition step_phase (j : job) (ph : phase) (st : warden_state S) : option (phase * warden_state S) :=
  let nonce := Nonce (jEnvelope j) in
  match ph with
  | Waiting =>
      match trackInFlight nonce st with
      | (Ok _, st) => Some (Tracked, st)
      | (Err err, st) => Some (Finished (refused j) (Some err), st)
      end
  | Tracked =>
      match admission j with
      | Err err => Some (Refusing err, st)
      | Ok expiresAt =>
          let '(answer, store) := ReserveNonce (reserve_env (jCall j)) nonce expiresAt (replay st) in
          Some (match answer with
                | Err err => Refusing (Errorf "l4 warden: reserve nonce: %w" [err])
                | Ok true => Refusing (Sentinel "ErrTxTransactionReplay")
                | Ok false => Granted expiresAt
                end, {| inFlight := inFlight st; replay := store |})
      end
  | Refusing err => Some (Finished (refused j) (Some err), releaseInFlight nonce st)
  | Granted expiresAt => Some (Checking expiresAt, releaseInFlight nonce st)
  | Checking expiresAt =>
      match verify_reserved unmarshal (jWarden j) (jCall j) (jEnvelope j) expiresAt with
      | (vt, None) => Some (Finished vt None, st)
      | (vt, Some err) => Some (Releasing vt err, st)
      end
  | Releasing vt err => Some (Finished vt (Some err), releaseNonceReservation (jCall j) nonce st)
  | Finished _ _ => None
  end.

(** Calls with their phases, and the shared state. *)
Record system := { calls : list (job * phase); shared : warden_state S }.

Definition started (jobs : list job) (st : warden_state S) : system :=
  {| calls := map (fun j => (j, Waiting)) jobs; shared := st |}.

(** The call of index [i] moves. *)
Definition move (i : nat) (s : system) : option system :=
  match calls s !! i with
  | None => None
  | Some (j, ph) =>
      match step_phase j ph (shared s) with
      | None => None
      | Some (ph, st) => Some {| calls := <[i := (j, ph)]> (calls s); shared := st |}
      end
  end.

Fixpoint schedule (order : list nat) (s : system) : option system :=
  match order with
  | [] => Some s
  | i :: order => match move i s with Some s => schedule order s | None => None end
  end.

Definition accepted_at (s : system) (i : nat) : bool :=
  match calls s !! i with Some (_, Finished _ None) => true | _ => false end.

(** ** A call alone *)

Fixpoint alone (fuel : nat) (j : job) (ph : phase) (st : warden_state S) : option VerifiedTransaction * option gerr * warden_state S :=
  match ph, fuel with
  | Finished vt err, _ => (Some vt, err, st)
  | _, O => (None, None, st)
  | _, Datatypes.S fuel =>
      match step_phase j ph st with Some (ph, st) => alone fuel j ph st | None => (None, None, st) end
  end.

(** A call that nobody disturbs is [VerifyEnvelope]: within five steps it ends with the
    transaction, the error and the state of the sequential function. *)
Theorem alone_is_VerifyEnvelope j st :
  alone 5 j Waiting st = VerifyEnvelope unmarshal (jWarden j) (jCall j) (Some (jEnvelope j)) st.
Proof.
  destruct j as [tv c envelope]. unfold VerifyEnvelope, admit_nonce. cbn [jWarden jCall jEnvelope].
  cbn [alone step_phase jEnvelope]. destruct (trackInFlight (Nonce envelope) st) as [[[]|err] st1]; [|done].
  cbn [alone step_phase jEnvelope jCall]. unfold admission. cbn [jWarden jCall jEnvelope].
  destruct (negb (replayStoreSet tv)); [done|].
  destruct (ExpiresAt envelope) as [t|]; [|done].
  destruct (t <? wall c)%Z; [done|]. destruct (String.eqb (Nonce envelope) ""); [done|].
  destruct (ReserveNonce (reserve_env c) (Nonce envelope) t (replay st1)) as [[[|]|err] s']; [done| |done].
  cbn [alone step_phase jEnvelope jCall jWarden].
  by destruct (verify_reserved unmarshal tv c envelope t) as [vt [err|]].
Qed.

(** ** At most one acceptance *)

(** The phases of a call that holds the reservation of its nonce. *)
Definition holds (ph : phase) : bool :=
  match ph with Granted _ | Checking _ | Releasing _ _ | Finished _ None => true | _ => false end.

(** The phases of a call whose nonce is in flight. *)
Definition flying (ph : phase) : bool :=
  match ph with Tracked | Refusing _ | Granted _ => true | _ => false end.

Context {L : ReplayStoreLaws S E}.

Definition at_ (s : system) (i : nat) (j : job) (ph : phase) : Prop := calls s !! i = Some (j, ph).

(** No clean-up of any of the calls reaches the expiry of a call with nonce [n]. *)
Definition timely (jobs : list job) (n : string) : Prop :=
  forall j j' t, j ∈ jobs -> j' ∈ jobs -> Nonce (jEnvelope j) = n -> ExpiresAt (jEnvelope j) = Some t ->
    drops (reserve_env (jCall j')) (FormatTimestamp t) = false.

Record inv (jobs : list job) (n : string) (s : system) : Prop := {
  inv_jobs i j ph : at_ s i j ph -> j ∈ jobs;
  inv_one i i' j ph j' ph' : at_ s i j ph -> at_ s i' j' ph' -> Nonce (jEnvelope j) = n -> Nonce (jEnvelope j') = n ->
    holds ph = true -> holds ph' = true -> i = i';
  inv_recorded i j ph : at_ s i j ph -> Nonce (jEnvelope j) = n -> holds ph = true ->
    exists t, ExpiresAt (jEnvelope j) = Some t /\ recorded (replay (shared s)) n = Some (FormatTimestamp t)
}.

Lemma move_Some i s s' :
  move i s = Some s' -> exists j ph ph', at_ s i j ph /\ step_phase j ph (shared s) = Some (ph', shared s') /\
    calls s' = <[i := (j, ph')]> (calls s).
Proof.
  unfold move, at_. destruct (calls s !! i) as [[j ph]|]; [|done].
  destruct (step_phase j ph (shared s)) as [[ph' st]|] eqn:Hs; [|done]. intros [= <-]. by exists j, ph, ph'.
Qed.

(** Where a call is after another moved: the mover at its new phase, the others where
    they were. *)
Lemma at_moved s s' i j ph ph' k jk phk :
  at_ s i j ph -> calls s' = <[i := (j, ph')]> (calls s) -> at_ s' k jk phk ->
  (k = i /\ jk = j /\ phk = ph') \/ (k <> i /\ at_ s k jk phk).
Proof.
  unfold at_. intros Hi Hc Hk. rewrite Hc in Hk. destruct (decide (k = i)) as [->|Hne].
  - rewrite list_lookup_insert_eq in Hk by (by eapply lookup_lt_Some). injection Hk as <- <-. by left.
  - rewrite list_lookup_insert_ne in Hk by done. by right.
Qed.

(** What a step does to the store: nothing, a reservation or a release. *)
Lemma step_store j ph st ph' st' :
  step_phase j ph st = Some (ph', st') ->
  (replay st' = replay st /\ holds ph' = holds ph) \/
  (exists t, ph = Tracked /\ ExpiresAt (jEnvelope j) = Some t /\
     replay st' = (ReserveNonce (reserve_env (jCall j)) (Nonce (jEnvelope j)) t (replay st)).2 /\
     (holds ph' = true -> (ReserveNonce (reserve_env (jCall j)) (Nonce (jEnvelope j)) t (replay st)).1 = Ok false)) \/
  (holds ph = true /\ holds ph' = false /\
     replay st' = (ReleaseNonce (release_env (jCall j)) (Nonce (jEnvelope j)) (replay st)).2).
Proof.
  destruct ph; cbn [step_phase].
  - unfold trackInFlight. intros H. left. destruct (String.eqb _ ""); [by injection H as <- <-|].
    destruct (decide _); by injection H as <- <-.
  - unfold admission. destruct (negb _); [intros [= <- <-]; by left|].
    destruct (ExpiresAt (jEnvelope j)) as [t|]; [|intros [= <- <-]; by left].
    destruct (t <? wall (jCall j))%Z; [intros [= <- <-]; by left|].
    destruct (String.eqb _ ""); [intros [= <- <-]; by left|].
    intros H. right; left. exists t. destruct (ReserveNonce _ _ _ _) as [[[|]|err] s2] eqn:Hr; injection H as <- <-; by split_and!.
  - intros [= <- <-]. by left.
  - intros [= <- <-]. by left.
  - destruct (verify_reserved _ _ _ _ _) as [vt [err|]]; intros [= <- <-]; by left.
  - intros [= <- <-]. by right; right.
  - done.
Qed.

Lemma move_inv jobs n i s s' : timely jobs n -> inv jobs n s -> move i s = Some s' -> inv jobs n s'.
Proof.
  intros Ht [Hj H1 Hr] Hm. apply move_Some in Hm as (j & ph & ph' & Hi & Hs & Hc).
  assert (Hjobs : forall k jk phk, at_ s' k jk phk -> jk ∈ jobs).
  { intros k jk phk Hk. destruct (at_moved _ _ _ _ _ _ _ _ _ Hi Hc Hk) as [(_ & -> & _)|[_ ?]]; by eapply Hj. }
  destruct (step_store _ _ _ _ _ Hs) as [[He Hh]|[(t & -> & Hx & He & Hg)|(Hh & Hh' & He)]].
  - split; [exact Hjobs| |].
    + intros k k' jk phk jk' phk' Hk Hk' Nk Nk' Bk Bk'.
      destruct (at_moved _ _ _ _ _ _ _ _ _ Hi Hc Hk) as [(-> & -> & ->)|[_ ?]], (at_moved _ _ _ _ _ _ _ _ _ Hi Hc Hk') as [(-> & -> & ->)|[_ ?]];
        rewrite ?Hh in *; by eapply H1.
    + intros k jk phk Hk Nk Bk. rewrite He.
      destruct (at_moved _ _ _ _ _ _ _ _ _ Hi Hc Hk) as [(-> & -> & ->)|[_ ?]]; rewrite ?Hh in *; by eapply Hr.
  - set (e := reserve_env (jCall j)) in *. set (m := Nonce (jEnvelope j)) in *.
    assert (Hkeep : forall k jk phk, at_ s k jk phk -> Nonce (jEnvelope jk) = n -> holds phk = true ->
      exists t', ExpiresAt (jEnvelope jk) = Some t' /\ recorded (replay (shared s)) n = Some (FormatTimestamp t') /\ drops e (FormatTimestamp t') = false).
    { intros k jk phk Hk Nk Bk. destruct (Hr k jk phk Hk Nk Bk) as (t' & Hx' & Hrec). exists t'. split_and!; [done|done|].
      by eapply Ht; [eapply Hj|eapply Hj| |]. }
    assert (Hfresh : holds ph' = true -> m = n -> forall k jk phk, at_ s k jk phk -> Nonce (jEnvelope jk) = n -> holds phk = true -> False).
    { intros Bi Hmn k jk phk Hk Nk Bk. destruct (Hkeep k jk phk Hk Nk Bk) as (t' & _ & Hrec & Hd).
      rewrite <- Hmn in Hrec. eapply reserve_refuses in Hrec; [|exact Hd]. by rewrite (Hg Bi) in Hrec. }
    split; [exact Hjobs| |].
    + intros k k' jk phk jk' phk' Hk Hk' Nk Nk' Bk Bk'.
      destruct (at_moved _ _ _ _ _ _ _ _ _ Hi Hc Hk) as [(-> & -> & ->)|[_ Sk]], (at_moved _ _ _ _ _ _ _ _ _ Hi Hc Hk') as [(-> & -> & ->)|[_ Sk']];
        [done| | |by eapply H1].
      * exfalso. by eapply (Hfresh Bk Nk).
      * exfalso. by eapply (Hfresh Bk' Nk').
    + intros k jk phk Hk Nk Bk. rewrite He. destruct (at_moved _ _ _ _ _ _ _ _ _ Hi Hc Hk) as [(-> & -> & ->)|[_ Sk]].
      * exists t. split; [done|]. specialize (Hg Bk). fold m in Nk. rewrite <- Nk.
        destruct (ReserveNonce e m t (replay (shared s))) as [a s2] eqn:Hrs. cbn [fst snd] in *. subst a. by eapply reserve_grants.
      * destruct (Hkeep _ _ _ Sk Nk Bk) as (t' & Hx' & Hrec & Hd). exists t'. split; [done|]. by apply reserve_keeps.
  - split; [exact Hjobs| |].
    + intros k k' jk phk jk' phk' Hk Hk' Nk Nk' Bk Bk'.
      destruct (at_moved _ _ _ _ _ _ _ _ _ Hi Hc Hk) as [(-> & -> & ->)|[_ ?]], (at_moved _ _ _ _ _ _ _ _ _ Hi Hc Hk') as [(-> & -> & ->)|[_ ?]];
        rewrite ?Hh' in *; try done; by eapply H1.
    + intros k jk phk Hk Nk Bk. destruct (at_moved _ _ _ _ _ _ _ _ _ Hi Hc Hk) as [(-> & -> & ->)|[Hne Sk]]; [by rewrite Hh' in Bk|].
      destruct (Hr _ _ _ Sk Nk Bk) as (t & Hx & Hrec). exists t. split; [done|]. rewrite He, release_other; [done|].
      intros Hn. apply Hne. eapply H1; [exact Sk|exact Hi|done| |done|done]. by rewrite <- Hn.
Qed.

Lemma started_inv jobs n st : inv jobs n (started jobs st).
Proof.
  assert (Hw : forall i j ph, at_ (started jobs st) i j ph -> j ∈ jobs /\ ph = Waiting).
  { intros i j ph H. unfold at_, started in H. cbn [calls] in H. rewrite list_lookup_fmap in H.
    destruct (jobs !! i) as [j'|] eqn:Hj; [|done]. injection H as <- <-. split; [by eapply list_elem_of_lookup_2|done]. }
  split.
  - intros i j ph H. by apply Hw in H as [? _].
  - intros i i' j ph j' ph' H _ _ _ Hh _. apply Hw in H as [_ ->]. done.
  - intros i j ph H _ Hh. apply Hw in H as [_ ->]. done.
Qed.

Lemma schedule_inv jobs n order s s' :
  timely jobs n -> inv jobs n s -> schedule order s = Some s' -> inv jobs n s'.
Proof.
  intros Ht. revert s. induction order as [|i order IH]; cbn; intros s Hs H; [by injection H as <-|].
  destruct (move i s) as [s1|] eqn:Hm; [|done]. apply (IH s1); [by eapply move_inv|done].
Qed.

(** C5: Whatever the schedule, among any number of calls running at the same time at most
    one envelope with a given nonce is accepted, as long as no reservation's clean-up runs
    with a clock past the expiry of an envelope with that nonce. *)
Theorem concurrent_once jobs st order s n i i' j j' vt vt' :
  timely jobs n -> schedule order (started jobs st) = Some s ->
  calls s !! i = Some (j, Finished vt None) -> calls s !! i' = Some (j', Finished vt' None) ->
  Nonce (jEnvelope j) = n -> Nonce (jEnvelope j') = n -> i = i'.
Proof.
  intros Ht Hs Hi Hi' Hn Hn'. pose proof (schedule_inv _ _ _ _ _ Ht (started_inv jobs n st) Hs) as [_ H1 _].
  by eapply (H1 i i').
Qed.
End concurrent.

(** ** Concrete schedules *)

#[local] Existing Instance toy_ed25519.

Definition ex_job (c : call sql_env) (e : GovernanceEnvelope) : job :=
  {| jWarden := ex_warden; jCall := c; jEnvelope := e |}.

Definition ex_jobs : list (job (E := sql_env)) := [ex_job first_call ex_env; ex_job timely_call ex_env].

(** The second call is turned away while the first reserves, a third run of the same
    envelope finds the nonce used. *)
Definition ex_order : list nat := [0; 1; 0; 0; 0]%nat.

Notation ex_final := (schedule ex_unmarshal ex_order (started ex_jobs ex_state)).

Example ex_contended :
  match ex_final with
  | Some s => map (fun x => match x.2 with Finished _ err => Some err | _ => None end) (calls s) =
                [Some None; Some (Some (Sentinel "ErrTxInFlight"))] /\ inFlight (shared s) = ∅
  | None => False
  end.
Proof. vm_compute. done. Qed.

(** The nonce of an accepted envelope in an envelope that expires earlier and that the
    doctrine blocks. *)
Definition short_env : GovernanceEnvelope := {|
  Id := "x"; SentAt := None; ExpiresAt := Some (ex_expiry - 9000000000)%Z; SourceComponent := 1;
  OperatorId := "op-1"; OperatorSessionId := ""; WebSessionId := ""; CliSessionId := "";
  RequestorUserId := ""; ActingAppId := ""; EnvEventType := "g8e.v1.operator.command.requested";
  Payload := "curl evil"; IntentData := None; EnvActionType := "EXECUTE_BASH"; TargetResource := "";
  StateMerkleRoot := "root"; Nonce := Nonce ex_env; TransactionHash := "x"; ProtocolVersion := "2";
  Governance := None; CaseId := ""; InvestigationId := ""; TaskId := ""; SystemFingerprint := "";
  TenantId := ""; BindingPersona := ""; Posture := "doctrine" |}.

(** A reservation that has expired while its call was still checking is cleaned up and
    granted to another call; the first call then rejects its envelope and releases the
    other's reservation by name, and the accepted envelope is accepted again. *)
Example lost_reservation :
  let jobs := [ex_job (ex_call (ex_expiry - 9500000000) (ex_expiry - 9500000000))%Z short_env;
               ex_job timely_call ex_env; ex_job timely_call ex_env] in
  match schedule ex_unmarshal [0; 0; 0; 0; 1; 1; 1; 1; 0; 2; 2; 2; 2]%nat (started jobs ex_state) with
  | Some s => map (accepted_at s) [0; 1; 2]%nat = [false; true; true]
  | None => False
  end.
Proof. vm_compute. done. Qed.

(** The nonce of the envelope an index has accepted. *)
Definition accepted_nonce (s : system (S := gmap string SQLReplayStore.nonce_row) (E := sql_env)) (i : nat) : option string :=
  match calls s !! i with Some (j, Finished _ None) => Some (Nonce (jEnvelope j)) | _ => None end.

Lemma ex_timely : timely ex_jobs (Nonce ex_env).
Proof.
  assert (H : Forall (fun j => Forall (fun j' => drops (reserve_env (jCall j')) (FormatTimestamp ex_expiry) = false) ex_jobs) ex_jobs).
  { unfold ex_jobs. repeat first [apply Forall_nil_2 | apply Forall_cons_2]; vm_compute; reflexivity. }
  intros j j' t Hj Hj' _ Ht. rewrite Forall_forall in H. specialize (H j Hj). rewrite Forall_forall in H.
  specialize (H j' Hj'). assert (Hx : Some t = Some ex_expiry).
  { rewrite <- Ht. unfold ex_jobs in Hj. apply elem_of_cons in Hj as [->|Hj]; [exact eq_refl|].
    apply elem_of_cons in Hj as [->|Hj]; [exact eq_refl|]. destruct (not_elem_of_nil _ Hj). }
  injection Hx as ->. exact H.
Qed.

Lemma concurrent_once_witness :
  match ex_final with
  | Some s => forall i, accepted_nonce s i = Some (Nonce ex_env) -> i = 0%nat
  | None => False
  end.
Proof.
  assert (H0 : match ex_final with Some s => accepted_nonce s 0 | None => None end = Some (Nonce ex_env)).
  { vm_compute. reflexivity. }
  destruct ex_final as [s|] eqn:Hs; [|discriminate H0]. intros i Hi. unfold accepted_nonce in *.
  destruct (calls s !! i) as [[j [| | | | | |vt [err|]]]|] eqn:Hci; try discriminate Hi.
  destruct (calls s !! 0%nat) as [[j0 [| | | | | |vt0 [err|]]]|] eqn:Hc0; try discriminate H0.
  injection Hi as Hi. injection H0 as H0.
  exact (concurrent_once ex_unmarshal ex_jobs ex_state ex_order s (Nonce ex_env) i 0 j j0 vt vt0 ex_timely Hs Hci Hc0 Hi H0).
Defined.
