(* ===== verification/Chain.v ===== *)
(** The audit of a receipt's stage records
    ([src/internal/services/governance/protocol_chain.go]).

    [ValidateDeterministicProtocolChain] is what a verifier runs on a receipt it
    received.  Its failures are named by the texts the code returns. *)
From S2P Require Import Prelude Errors Sha256 Envelope Receipt.
From Stdlib Require Import String List ZArith Lia Bool.
From stdpp Require Import base strings list.
Open Scope string_scope.

Definition deterministicStageOrder : list StageKind :=
  [L1_DOCTRINE; PROTOCOL_L2; L3_NOTARY; L4_VERIFICATION; RECEIPT_PERSISTENCE; COMMITMENT_APPEND; L5_EXECUTION].

(** [deterministicL2StatusOutcome] and [deterministicL3StatusOutcome]: a status
    the map does not hold gives the zero outcome. *)
Definition deterministicStatusOutcome (s : LayerStatus) : StageOutcome :=
  match s with
  | LAYER_NOT_REQUIRED => NOT_REQUIRED
  | LAYER_REQUIRED_VALID => VERIFIED
  | LAYER_REQUIRED_FAILED => FAILED
  | _ => OUTCOME_UNSPECIFIED
  end.

Definition invalid_graph (text : string) : gerr :=
  Errorf ("%w: " +:+ text) [Sentinel "ErrInvalidEvidenceGraph"].

(** The position of a kind in the order. *)
Fixpoint index_of (k : StageKind) (l : list StageKind) : option nat :=
  match l with
  | [] => None
  | k' :: l => if decide (k' = k) then Some O else option_map S (index_of k l)
  end.

Definition deterministicStageKindIndex (k : StageKind) : Z :=
  match index_of k deterministicStageOrder with Some i => Z.of_nat i | None => (-1)%Z end.

(** The loop over the stages, with the identifiers and kinds seen so far. *)
Fixpoint check_stages (receipt : ActionReceipt) (seenIDs : list string) (seenKinds : list StageKind)
    (stages : list StageEvidence) : result unit :=
  match stages with
  | [] => Ok tt
  | s :: stages =>
      let? _ := require (str_nonempty (stStageId s)) (invalid_graph "deterministic stage has an empty stage_id") in
      let? _ := require (negb (mem (stStageId s) seenIDs)) (invalid_graph "duplicate deterministic stage_id %s") in
      let? _ := require (String.eqb (stTransactionId s) (rcTransactionId receipt)
                         && String.eqb (stTransactionHash s) (rcTransactionHash receipt))
                        (invalid_graph "deterministic stage %s transaction does not match receipt") in
      let? _ := require (0 <=? deterministicStageKindIndex (stKind s))%Z
                        (invalid_graph "deterministic stage %s has unknown kind %s") in
      let? _ := require (negb (mem (stKind s) seenKinds)) (invalid_graph "duplicate deterministic stage kind %s") in
      check_stages receipt (stStageId s :: seenIDs) (stKind s :: seenKinds) stages
  end.

(** Consecutive stages come in the order of their kinds. *)
Fixpoint in_order (stages : list StageEvidence) : bool :=
  match stages with
  | s :: (t :: _) as rest =>
      (deterministicStageKindIndex (stKind s) <? deterministicStageKindIndex (stKind t))%Z && in_order rest
  | _ => true
  end.

Definition NormalizeDeterministicStages (receipt : option ActionReceipt) : result (list StageEvidence) :=
  match receipt with
  | None => Err (invalid_graph "receipt is nil")
  | Some r =>
      match rcStages r with
      | [] => Err (invalid_graph "deterministic stage evidence is missing")
      | stages =>
          match DeterministicStageActionType r with
          | Err _ => Err (invalid_graph "%v")
          | Ok _ =>
              let? _ := check_stages r [] [] stages in
              let? _ := require (in_order stages) (invalid_graph "deterministic stage order is invalid") in
              Ok stages
          end
      end
  end.

(** [stagesByKind[k]]; the kinds are distinct when it is built. *)
Definition stage_of (stages : list StageEvidence) (k : StageKind) : option StageEvidence :=
  List.find (fun s => bool_decide (stKind s = k)) stages.

(** The getters of a nil message return zero values. *)
Definition outcome_of (s : option StageEvidence) : StageOutcome :=
  match s with Some s => stOutcome s | None => OUTCOME_UNSPECIFIED end.
Definition parent_of (s : option StageEvidence) : string :=
  match s with Some s => stParentStageId s | None => "" end.
Definition id_of (s : option StageEvidence) : string :=
  match s with Some s => stStageId s | None => "" end.

(** ** The checks; each returns the failure text, empty for none *)

Definition identity_values (s : StageEvidence) : list string :=
  [stOperatorId s; stOperatorSessionId s; stRequestorUserId s; stActingAppId s; stCaseId s;
   stInvestigationId s; stTaskId s].

(** The non-empty values of one identity field agree. *)
Definition all_same (values : list string) : bool :=
  match List.filter str_nonempty values with
  | [] => true
  | first :: rest => forallb (String.eqb first) rest
  end.

Definition validateDeterministicIdentityConsistency (stages : list StageEvidence) : string :=
  if forallb (fun i => all_same (map (fun s => nth i (identity_values s) "") stages)) (seq 0 7)
  then "" else "deterministic stage identity fields are inconsistent".

Definition validateDeterministicPostureStageOutcomes (stages : list StageEvidence) (receipt : ActionReceipt) : string :=
  let matches k status :=
    match stage_of stages k with
    | None => true
    | Some s => bool_decide (stOutcome s = deterministicStatusOutcome status)
    end in
  if negb (matches PROTOCOL_L2 (rcL2Status receipt)) then "L2 stage outcome does not match the signed receipt status"
  else if negb (matches L3_NOTARY (rcL3Status receipt)) then "L3 stage outcome does not match the signed receipt status"
  else "".

(** The outcome of the execution stage for a receipt's status. *)
Definition expected_execution (s : ExecutionStatus) : option StageOutcome :=
  match s with STATUS_COMPLETED => Some COMPLETED | STATUS_FAILED => Some FAILED | _ => None end.

Definition expected_parents (l4ID l5ID : string) : list (StageKind * string) :=
  [(L1_DOCTRINE, l4ID); (PROTOCOL_L2, l4ID); (L3_NOTARY, l4ID); (L4_VERIFICATION, l5ID);
   (RECEIPT_PERSISTENCE, l5ID); (COMMITMENT_APPEND, l5ID); (L5_EXECUTION, "")].

Definition validateVerifiedDeterministicChain (receipt : ActionReceipt) (stages : list StageEvidence) : string :=
  let get := stage_of stages in
  let has k o := bool_decide (outcome_of (get k) = o) in
  if negb (forallb (fun k => match get k with Some _ => true | None => false end) deterministicStageOrder)
  then "verified protocol chain is missing required stages"
  else if negb (has L1_DOCTRINE VERIFIED) then "L1 doctrine stage is not verified"
  else if negb (has RECEIPT_PERSISTENCE COMPLETED) then "receipt-persistence stage is not completed"
  else if negb (has COMMITMENT_APPEND COMPLETED) then "commitment-append stage is not completed"
  else match expected_execution (rcStatus receipt), get L5_EXECUTION with
  | Some o, Some l5 =>
      if negb (bool_decide (stOutcome l5 = o))
      then "L5 execution outcome does not match the signed receipt status"
      else if negb (String.eqb (stStateRootBefore l5) (rcStateRootBefore receipt)
                    && String.eqb (stStateRootAfter l5) (rcStateRootAfter receipt))
      then "L5 execution state roots do not match the signed receipt"
      else if forallb (fun kp => String.eqb (parent_of (get kp.1)) kp.2)
                (expected_parents (id_of (get L4_VERIFICATION)) (stStageId l5))
      then "" else "deterministic stage parent relationship is invalid"
  | _, _ => "L5 execution outcome does not match the signed receipt status"
  end.

Definition allowedPrefixes : list (list StageKind) :=
  [[]; [L1_DOCTRINE]; [L1_DOCTRINE; PROTOCOL_L2]; [L1_DOCTRINE; PROTOCOL_L2; L3_NOTARY]].

Definition deterministicPrefixAllowed (prefix : list StageKind) (allowed : list (list StageKind)) : bool :=
  existsb (fun candidate => bool_decide (prefix = candidate)) allowed.

Definition is_failed (s : StageEvidence) : bool := bool_decide (stOutcome s = FAILED).

Definition expected_outcome (receipt : ActionReceipt) (k : StageKind) : StageOutcome :=
  match k with
  | L1_DOCTRINE => VERIFIED
  | PROTOCOL_L2 => deterministicStatusOutcome (rcL2Status receipt)
  | L3_NOTARY => deterministicStatusOutcome (rcL3Status receipt)
  | _ => OUTCOME_UNSPECIFIED
  end.

Definition validateRejectedDeterministicChain (receipt : ActionReceipt) (stages : list StageEvidence) : string :=
  if negb (bool_decide (rcStatus receipt = STATUS_FAILED))
  then "rejected protocol chain does not have a failed receipt status"
  else match last stages with
  | None => ""
  | Some l4 =>
      let prerequisites := removelast stages in
      if negb (bool_decide (stKind l4 = L4_VERIFICATION))
         || negb (deterministicPrefixAllowed (map stKind prerequisites) allowedPrefixes)
      then "rejected protocol chain contains invalid stages"
      else
        let failed := List.length (List.filter is_failed prerequisites) in
        let last_failed := match last prerequisites with Some s => is_failed s | None => false end in
        if (1 <? failed)%nat || ((failed =? 1)%nat && negb last_failed)
        then "rejected protocol chain has ambiguous prerequisite outcomes"
        else
          let completed := if (0 <? failed)%nat then removelast prerequisites else prerequisites in
          if negb (forallb (fun s => bool_decide (stOutcome s = expected_outcome receipt (stKind s))) completed)
          then "rejected protocol chain has invalid prerequisite outcomes"
          else if negb (forallb (fun s => String.eqb (stParentStageId s) (stStageId l4)) prerequisites)
                  || negb (String.eqb (stParentStageId l4) "")
          then "deterministic stage parent relationship is invalid"
          else ""
  end.

Record DeterministicProtocolChain := {
  Stages : list StageEvidence; L4 : StageEvidence; ContentReference : string
}.

Section chain.
(** [compliancev1.MarshalCanonical] on a stage record. *)
Context (marshal_canonical : StageEvidence -> result string).

Fixpoint CanonicalDeterministicStages (stages : list StageEvidence) : result string :=
  match stages with
  | [] => Ok ""
  | s :: stages =>
      let? encoded := wrap_err "%w: canonicalize deterministic stage evidence: %w" (marshal_canonical s) in
      let? rest := CanonicalDeterministicStages stages in
      Ok (encoded +:+ rest)
  end.

Definition DeterministicStagesContentAddress (stages : list StageEvidence) : result string :=
  let? canonical := CanonicalDeterministicStages stages in
  Ok ("deterministic-stages" +:+ ":sha256:" +:+ sha256_hex canonical).

(** A check that returned a failure text. *)
Definition no_failure (text : string) : result unit := require (String.eqb text "") (invalid_graph text).

Definition validate_by_outcome (r : ActionReceipt) (stages : list StageEvidence) (l4 : StageEvidence) : string :=
  match stOutcome l4 with
  | VERIFIED => validateVerifiedDeterministicChain r stages
  | FAILED => validateRejectedDeterministicChain r stages
  | _ => "L4 verification stage has an invalid outcome"
  end.

Definition ValidateDeterministicProtocolChain (receipt : option ActionReceipt) : result DeterministicProtocolChain :=
  let? stages := NormalizeDeterministicStages receipt in
  match receipt with
  | None => Err (invalid_graph "receipt is nil")
  | Some r =>
      match stage_of stages L4_VERIFICATION with
      | None => Err (invalid_graph "L4 verification stage is missing")
      | Some l4 =>
          let? _ := no_failure (validateDeterministicIdentityConsistency stages) in
          let? _ := no_failure (validateDeterministicPostureStageOutcomes stages r) in
          let? _ := no_failure (validate_by_outcome r stages l4) in
          let? contentReference := DeterministicStagesContentAddress stages in
          Ok {| Stages := stages; L4 := l4; ContentReference := contentReference |}
      end
  end.

(** ** Facts for concrete chains *)

Lemma no_failure_Ok text : no_failure text = Ok tt <-> text = "".
Proof. unfold no_failure. by rewrite require_Ok, String.eqb_eq. Qed.

Lemma content_address_ok stages :
  (forall s, is_ok (marshal_canonical s) = true) -> is_ok (DeterministicStagesContentAddress stages) = true.
Proof.
  intros Hm. unfold DeterministicStagesContentAddress. apply is_ok_rbind; [|done].
  induction stages as [|s stages IH]; [done|]. simpl.
  apply is_ok_rbind; [by rewrite is_ok_wrap_err|]. intros a. by apply is_ok_rbind.
Qed.

(** Acceptance is the conjunction of the checks. *)
Lemma chain_accepts r :
  (forall s, is_ok (marshal_canonical s) = true) ->
  is_ok (ValidateDeterministicProtocolChain (Some r)) = true <->
  exists l4,
    NormalizeDeterministicStages (Some r) = Ok (rcStages r) /\
    stage_of (rcStages r) L4_VERIFICATION = Some l4 /\
    validateDeterministicIdentityConsistency (rcStages r) = "" /\
    validateDeterministicPostureStageOutcomes (rcStages r) r = "" /\
    validate_by_outcome r (rcStages r) l4 = "".
Proof.
  intros Hm. unfold ValidateDeterministicProtocolChain.
  assert (Hn : forall l, NormalizeDeterministicStages (Some r) = Ok l -> l = rcStages r).
  { intros l H. simpl in H. destruct (rcStages r) as [|s ss]; [done|].
    destruct (DeterministicStageActionType r); [|done]. by inv_ok. }
  destruct (NormalizeDeterministicStages (Some r)) as [l|err]; cbn [rbind].
  2:{ split; [done|]. by intros (? & ? & _). }
  rewrite (Hn l eq_refl). destruct (stage_of (rcStages r) L4_VERIFICATION) as [l4|].
  2:{ split; [done|]. by intros (? & _ & ? & _). }
  pose proof (content_address_ok (rcStages r) Hm) as Hc. apply is_ok_true in Hc as [ref Href]. split.
  - intros H. apply is_ok_true in H as [chain H]. inv_ok.
    repeat match goal with Hx : no_failure _ = _ |- _ => apply no_failure_Ok in Hx end.
    by exists l4.
  - intros (l4' & _ & [= <-] & H1 & H2 & H3). apply no_failure_Ok in H1, H2, H3.
    by rewrite H1, H2, H3, Href.
Qed.
End chain.
