(* ===== verification/Commitment.v ===== *)
(** The commitment ledger ([src/internal/services/storage/commitment_ledger.go]).

    The table is the list of its rows, the newest first (the rows' ids grow).  An
    append runs inside SQLite's write lock: the head it reads is the head it
    extends.  The attestation's JSON form is read and written by protojson, which
    is a parameter. *)
From S2P Require Import Prelude Errors Encoding Sha256 Sqlite Receipt.
From Stdlib Require Import String List ZArith Lia Bool.
From stdpp Require Import base strings list.
Open Scope string_scope.

(** A row: the columns copied from the parsed attestation, the prior hash and hash
    given by the caller, the canonical text. *)
Record CommitmentRow := {
  crAttestation : CommitmentAttestation; crPrior : string; crHash : string; crJSON : string
}.

Notation ledger := (list CommitmentRow).

(** SELECT hash ... ORDER BY id DESC LIMIT 1; no row leaves the text empty. *)
Definition head_hash (l : ledger) : string :=
  match l with [] => "" | r :: _ => crHash r end.

(** UNIQUE(hash). *)
Definition hash_taken (h : string) (l : ledger) : bool := existsb (fun r => String.eqb (crHash r) h) l.

(** The INSERT of a row. *)
Definition insert_commitment (r : CommitmentRow) (l : ledger) : result unit * ledger :=
  if hash_taken (crHash r) l
  then (Err (Extern "UNIQUE constraint failed: commitment_ledger.hash"), l)
  else (Ok tt, r :: l).

Section ledger.
(** [protojson] reading and [compliancev1.MarshalCanonical]; the texts of errors. *)
Context (unmarshal : string -> result CommitmentAttestation).
Context (marshal : CommitmentAttestation -> result string).
Context (err_text : gerr -> string).

Local Open Scope sq_scope.

(** [appendCommitmentJSON]: two statements of a transaction. *)
Definition appendCommitmentJSON (attestationJSON priorHash hash : string) : sq ledger unit :=
  if negb (str_nonempty attestationJSON) then sq_err (Errorf "attestation JSON is empty" [])
  else
    let$ attestation := sq_lift (wrap_err "failed to unmarshal attestation JSON: %w" (unmarshal attestationJSON)) in
    let$ canonical := sq_lift (wrap_err "failed to canonicalize attestation JSON: %w" (marshal attestation)) in
    let$ head := sq_wrap (fun e => Errorf "failed to query current prior hash: %w" [e]) (query (hd_error (A := CommitmentRow))) in
    if match head with Some r => negb (String.eqb (crHash r) priorHash) | None => false end
    then sq_err (Errorf "prior_commitment_hash mismatch: expected %s, got %s" [])
    else sq_wrap (fun e => Errorf "failed to insert commitment: %w" [e])
           (stmt (insert_commitment {| crAttestation := attestation; crPrior := priorHash; crHash := hash;
                                       crJSON := canonical |})).

(** The transaction of [AppendCommitment]; besides the text and the hash the builder
    leaves a value in a variable it captures, the last turn's is what remains. *)
Definition append_built {X} (build : string -> result (string * string * X)) : sq ledger X :=
  let$ priorHash := sq_wrap (fun e => Errorf "commitment ledger: select head: %w" [e]) (query head_hash) in
  let$ built := sq_lift (wrap_err "commitment ledger: build: %w" (build priorHash)) in
  let$ _ := appendCommitmentJSON built.1.1 priorHash built.1.2 in
  sq_ret built.2.

(** [AppendCommitment]: the builder runs once per turn of the retry loop. *)
Definition AppendCommitment {X} (c : DBConfig) (now : nat -> Z) (attempts : nat -> attempt)
    (build : nat -> string -> result (string * string * X)) (l : ledger) : result X * ledger :=
  (ExecInImmediateTxWithRetry err_text c now attempts (fun i => append_built (build i)) l).1.

Definition AppendCommitmentJSON (c : DBConfig) (now : nat -> Z) (attempts : nat -> attempt)
    (attestationJSON priorHash hash : string) (l : ledger) : result unit * ledger :=
  (ExecInImmediateTxWithRetry err_text c now attempts
     (fun _ => appendCommitmentJSON attestationJSON priorHash hash) l).1.

(** [ListCommitments]: the oldest first. *)
Definition ListCommitments (fault : option gerr) (l : ledger) : result (list CommitmentRow) :=
  match fault with
  | Some e => Err (Errorf "commitment ledger: list: %w" [e])
  | None => Ok (rev l)
  end.

(** ** The chain *)

(** Every row extends the row before it; the first row's prior hash is free. *)
Fixpoint linked (l : ledger) : Prop :=
  match l with
  | r :: ((r' :: _) as rest) => crPrior r = crHash r' /\ linked rest
  | _ => True
  end.

(** A row holds an attestation that names its prior hash and whose hash it is. *)
Definition sealed (r : CommitmentRow) : Prop :=
  caPriorCommitmentHash (crAttestation r) = crPrior r /\
  caHash (crAttestation r) = crHash r /\
  crHash r = sha256_hex (CanonicalizeCommitmentAttestation (crAttestation r)).

(** The ledgers the actuators of a node write. *)
Fixpoint chained (l : ledger) : Prop :=
  match l with
  | [] => True
  | r :: rest => sealed r /\ crPrior r = head_hash rest /\ chained rest
  end.

(** The content an attestation signs. *)
Definition content (r : CommitmentRow) : list string * Z * string :=
  (commitment_fields (crAttestation r), caCommittedAtUnixMs (crAttestation r), caAuditorKeyId (crAttestation r)).

(** The strings are shorter than 4 GiB and the time is an int64. *)
Definition row_bounded (r : CommitmentRow) : Prop :=
  Forall short (caAuditorKeyId (crAttestation r) :: commitment_fields (crAttestation r)) /\
  int64 (caCommittedAtUnixMs (crAttestation r)).

(** What the transaction's statements do when they succeed. *)
Lemma appendCommitmentJSON_Ok json prior hash env n l n' l' :
  appendCommitmentJSON json prior hash env n l = (Ok tt, n', l') ->
  exists r, l' = r :: l /\ unmarshal json = Ok (crAttestation r) /\ marshal (crAttestation r) = Ok (crJSON r) /\
    crPrior r = prior /\ crHash r = hash /\ (l <> [] -> prior = head_hash l) /\ hash_taken hash l = false.
Proof.
  unfold appendCommitmentJSON, sq_bind, sq_lift, sq_wrap, query, stmt, insert_commitment. intros H.
  destruct (negb (str_nonempty json)); [done|].
  destruct (unmarshal json) as [a|]; [|done]. cbn in H. destruct (marshal a) as [t|] eqn:Hm; [|done]. cbn in H.
  destruct (env n); [done|]. cbn in H.
  destruct (match hd_error l with Some r => negb (String.eqb (crHash r) prior) | None => false end) eqn:Hp; [done|].
  destruct (env (S n)); [done|]. destruct (hash_taken hash l) eqn:Ht; [done|]. injection H as <- <-.
  eexists. split_and!; try done. intros Hne. destruct l as [|r l]; [done|]. cbn in Hp. by bools.
Qed.

Lemma append_built_Ok {X} (build : string -> result (string * string * X)) env n l x n' l' :
  append_built build env n l = (Ok x, n', l') ->
  exists json hash n1, build (head_hash l) = Ok (json, hash, x) /\
    appendCommitmentJSON json (head_hash l) hash env n1 l = (Ok tt, n', l').
Proof.
  unfold append_built, sq_bind at 1 2 3, sq_wrap at 1, query at 1, stmt at 1, sq_lift at 1.
  destruct (env n); [done|]. cbn. destruct (build (head_hash l)) as [[[json hash] y]|]; [|done]. cbn.
  destruct (appendCommitmentJSON json (head_hash l) hash env (S n) l) as [[[[]|] n1] l1] eqn:H; [|done].
  intros [= -> <- <-]. by exists json, hash, (S n).
Qed.

Lemma linked_cons r l : linked l -> (l <> [] -> crPrior r = head_hash l) -> linked (r :: l).
Proof. destruct l as [|r' l]; [done|]. intros Hl Hp. split; [by apply Hp|done]. Qed.

Lemma hash_taken_false h l r : hash_taken h l = false -> r ∈ l -> crHash r <> h.
Proof.
  intros Ht Hr <-. apply not_true_iff_false in Ht. apply Ht.
  apply existsb_exists. exists r. split; [by apply list_elem_of_In|]. apply String.eqb_refl.
Qed.

(** What [AppendCommitment] does: it fails and keeps the ledger, or adds the row
    that the builder of one turn asked for. *)
Lemma AppendCommitment_adds {X} c now attempts (build : nat -> string -> result (string * string * X)) l :
  match AppendCommitment c now attempts build l with
  | (Err _, l') => l' = l
  | (Ok x, l') => exists i r json hash, (i < Z.to_nat (MaxRetries c))%nat /\ build i (head_hash l) = Ok (json, hash, x) /\
      unmarshal json = Ok (crAttestation r) /\ crPrior r = head_hash l /\ crHash r = hash /\ l' = r :: l /\
      forall r', r' ∈ l -> crHash r' <> hash
  end.
Proof.
  unfold AppendCommitment.
  pose proof (immediate_cases err_text c now attempts (fun i => append_built (build i)) l) as H.
  destruct (ExecInImmediateTxWithRetry _ _ _ _ _ _) as [[[x|err] l'] sleeps]; [|done]. cbn.
  destruct H as (i & n & Hi & H). apply append_built_Ok in H as (json & hash & n1 & Hb & H).
  apply appendCommitmentJSON_Ok in H as (r & -> & Hu & _ & Hp & Hh & _ & Ht).
  exists i, r, json, hash. split_and!; try done. intros r' Hr'. by eapply hash_taken_false.
Qed.

Lemma AppendCommitment_cases {X} c now attempts (build : nat -> string -> result (string * string * X)) l :
  match AppendCommitment c now attempts build l with
  | (Err _, l') => l' = l
  | (Ok x, l') => exists i r json hash, (i < Z.to_nat (MaxRetries c))%nat /\ build i (head_hash l) = Ok (json, hash, x) /\
      unmarshal json = Ok (crAttestation r) /\ crPrior r = head_hash l /\ crHash r = hash /\ l' = r :: l
  end.
Proof.
  pose proof (AppendCommitment_adds c now attempts build l) as H. destruct (AppendCommitment _ _ _ _ _) as [[x|e] l']; [|done].
  destruct H as (i & r & json & hash & H1 & H2 & H3 & H4 & H5 & H6 & _). by exists i, r, json, hash.
Qed.

(** C39: The ledger stays a chain.  An append, retried however often and whatever the
    driver answers, either fails and leaves the ledger as it was, or adds one row on top
    whose hash no row had.  A prebuilt row has the hashes it was given, and on a ledger
    that is not empty its prior hash is the head's (on an empty one the prior hash is not
    checked); a row built under the lock always has the head's hash as its prior hash. *)
Theorem append_extends {X} c now attempts json prior hash (build : nat -> string -> result (string * string * X)) l :
  linked l ->
  (let '(res, l') := AppendCommitmentJSON c now attempts json prior hash l in
   match res with
   | Err _ => l' = l
   | Ok _ => linked l' /\ exists r, l' = r :: l /\ crHash r = hash /\ crPrior r = prior /\
       (l <> [] -> prior = head_hash l) /\ (forall r', r' ∈ l -> crHash r' <> hash)
   end) /\
  match AppendCommitment c now attempts build l with
  | (Err _, l') => l' = l
  | (Ok x, l') => linked l' /\ exists i r json' hash', build i (head_hash l) = Ok (json', hash', x) /\ l' = r :: l /\
      crHash r = hash' /\ crPrior r = head_hash l /\ (forall r', r' ∈ l -> crHash r' <> hash')
  end.
Proof.
  intros Hl. split.
  - unfold AppendCommitmentJSON.
    pose proof (immediate_cases err_text c now attempts (fun _ => appendCommitmentJSON json prior hash) l) as H.
    destruct (ExecInImmediateTxWithRetry _ _ _ _ _ _) as [[[[]|err] l'] sleeps]; [|done]. cbn.
    destruct H as (i & n & _ & H). apply appendCommitmentJSON_Ok in H as (r & -> & _ & _ & Hp & Hh & Hpr & Ht).
    split; [apply linked_cons; [done|by rewrite Hp]|]. exists r. split_and!; try done.
    intros r' Hr'. by eapply hash_taken_false.
  - pose proof (AppendCommitment_adds c now attempts build l) as H. destruct (AppendCommitment _ _ _ _ _) as [[x|e] l']; [|done].
    destruct H as (i & r & json' & hash' & _ & Hb & _ & Hp & Hh & -> & Ht).
    split; [by apply linked_cons|]. by exists i, r, json', hash'.
Qed.

(** A first turn without faults appends what its builder returns. *)
Lemma AppendCommitment_first {X} c now attempts (build : nat -> string -> result (string * string * X)) l json hash x a t :
  (0 < MaxRetries c)%Z -> attempts 0%nat = quiet_attempt ->
  build 0%nat (head_hash l) = Ok (json, hash, x) -> json <> "" -> unmarshal json = Ok a -> marshal a = Ok t ->
  hash_taken hash l = false ->
  AppendCommitment c now attempts build l =
    (Ok x, {| crAttestation := a; crPrior := head_hash l; crHash := hash; crJSON := t |} :: l).
Proof.
  intros Hm Hq Hb Hne Hu Hma Ht. unfold AppendCommitment.
  apply (immediate_first _ _ _ _ _ _ _ 3%nat); [done|done|].
  unfold append_built, appendCommitmentJSON, sq_bind, sq_wrap, sq_lift, query, stmt, insert_commitment.
  apply str_nonempty_true in Hne. cbn. rewrite Hb. cbn. rewrite Hne, Hu. cbn. rewrite Hma. cbn.
  destruct l as [|r l]; cbn [hd_error head_hash]; [|rewrite String.eqb_refl]; cbn [negb]; by rewrite Ht.
Qed.
End ledger.

(** The head commits to the whole history: two chained ledgers with the same
    head hash hold the same attestations in the same order, however long they are,
    unless two of their attestations exhibit a SHA-256 collision. *)
Theorem ledger_head_binds l l' :
  chained l -> chained l' -> Forall row_bounded l -> Forall row_bounded l' ->
  head_hash l = head_hash l' ->
  map content l = map content l' \/
  exists r r', r ∈ l /\ r' ∈ l' /\
    collision (CanonicalizeCommitmentAttestation (crAttestation r))
              (CanonicalizeCommitmentAttestation (crAttestation r')).
Proof.
  intros Hl Hl' Hb. revert l' Hl'. induction Hb as [|r l Hr _ IH]; intros [|r' l'] Hl' Hb' Hh.
  - by left.
  - destruct Hl' as ((_ & _ & Hs) & _). simpl in Hh. rewrite Hs in Hh. by apply eq_sym, sha256_hex_nonempty in Hh.
  - destruct Hl as ((_ & _ & Hs) & _). simpl in Hh. rewrite Hs in Hh. by apply sha256_hex_nonempty in Hh.
  - destruct Hl as ((Hp1 & _ & Hs) & Hp & Hl), Hl' as ((Hp1' & _ & Hs') & Hp' & Hl').
    inversion Hb' as [|? ? Hr' Hb'']; subst. simpl in Hh. rewrite Hs, Hs' in Hh.
    apply sha256_hex_eq in Hh as [Hc|Hc].
    2:{ right. exists r, r'. rewrite !elem_of_cons. auto. }
    destruct Hr as [Hsh Ht], Hr' as [Hsh' Ht'].
    apply commitment_attestation_binds in Hc as (Hf & Htime & Hk); [|done..].
    assert (Hprior : head_hash l = head_hash l').
    { rewrite <- Hp, <- Hp', <- Hp1, <- Hp1'. by injection Hf. }
    destruct (IH Hl l' Hl' Hb'' Hprior) as [Heq|(x & x' & Hx & Hx' & Hcol)].
    + left. simpl. unfold content at 1 3. by rewrite Hf, Htime, Hk, Heq.
    + right. exists x, x'. rewrite !elem_of_cons. auto.
Qed.

(** ** Concrete ledgers *)

Definition ex_attestation (prior signature hash : string) : CommitmentAttestation := {|
  caTransactionId := "t1"; caTransactionHash := "h1"; caPriorCommitmentHash := prior; caStateRootAtCommit := "r0";
  caL2SignatureDigest := ""; caWardenIntentSignatureDigest := "w"; caHumanSignatureDigest := "";
  caActionType := "FS_READ"; caTargetResource := ""; caCommittedAtUnixMs := -5; caAuditorKeyId := "a";
  caSignature := signature; caHash := hash |}.

Definition ex_row (prior signature : string) : CommitmentRow :=
  let h := sha256_hex (CanonicalizeCommitmentAttestation (ex_attestation prior signature "")) in
  {| crAttestation := ex_attestation prior signature h; crPrior := prior; crHash := h; crJSON := "{}" |}.

Definition ex_ledger (signature : string) : ledger :=
  let r := ex_row "" signature in [ex_row (crHash r) signature; r].

Definition ex_read (_ : string) : result CommitmentAttestation :=
  Ok (crAttestation (ex_row (crHash (ex_row "" "s")) "s")).

Definition ex_build (_ : nat) (prior : string) : result (string * string * unit) := Ok ("{ }", "h2", tt).

Lemma append_extends_witness :
  (let '(res, l') := AppendCommitmentJSON ex_read (fun _ => Ok "{}") ex_text DefaultDBConfig (fun _ => 0%Z)
    (fun _ => quiet_attempt) "{ }" (crHash (ex_row "" "s")) "h2" [ex_row "" "s"] in
   match res with
   | Err _ => l' = [ex_row "" "s"]
   | Ok _ => linked l' /\ exists r, l' = r :: [ex_row "" "s"] /\ crHash r = "h2" /\ crPrior r = crHash (ex_row "" "s") /\
       ([ex_row "" "s"] <> [] -> crHash (ex_row "" "s") = head_hash [ex_row "" "s"]) /\
       (forall r', r' ∈ [ex_row "" "s"] -> crHash r' <> "h2")
   end) /\
  match AppendCommitment ex_read (fun _ => Ok "{}") ex_text DefaultDBConfig (fun _ => 0%Z) (fun _ => quiet_attempt)
          ex_build [ex_row "" "s"] with
  | (Err _, l') => l' = [ex_row "" "s"]
  | (Ok x, l') => linked l' /\ exists i r json' hash', ex_build i (head_hash [ex_row "" "s"]) = Ok (json', hash', x) /\
      l' = r :: [ex_row "" "s"] /\ crHash r = hash' /\ crPrior r = head_hash [ex_row "" "s"] /\
      (forall r', r' ∈ [ex_row "" "s"] -> crHash r' <> hash')
  end.
Proof.
  apply (append_extends ex_read (fun _ => Ok "{}") ex_text DefaultDBConfig (fun _ => 0%Z) (fun _ => quiet_attempt)
           "{ }" (crHash (ex_row "" "s")) "h2" ex_build [ex_row "" "s"]).
  exact I.
Defined.

Lemma ex_row_bounded prior signature : short prior -> row_bounded (ex_row prior signature).
Proof.
  intros Hp. split; [|by vm_compute].
  repeat (apply Forall_cons; split; [done || by vm_compute|]). apply Forall_nil. done.
Qed.

Lemma chained_cons r l : sealed r -> crPrior r = head_hash l -> chained l -> chained (r :: l).
Proof. by split. Qed.

(** A concrete ledger is chained, by evaluation. *)
Ltac eval_chained :=
  repeat (apply chained_cons;
    [unfold sealed; split; [vm_compute; reflexivity | split; vm_compute; reflexivity]
    | vm_compute; reflexivity |]); exact I.

Lemma ledger_head_binds_witness :
  map content (ex_ledger "x") = map content (ex_ledger "y") \/
  exists r r', r ∈ ex_ledger "x" /\ r' ∈ ex_ledger "y" /\
    collision (CanonicalizeCommitmentAttestation (crAttestation r))
              (CanonicalizeCommitmentAttestation (crAttestation r')).
Proof.
  apply (ledger_head_binds (ex_ledger "x") (ex_ledger "y")).
  - eval_chained.
  - eval_chained.
  - constructor; [apply ex_row_bounded; vm_compute; reflexivity|].
    constructor; [apply ex_row_bounded; vm_compute; reflexivity | constructor].
  - constructor; [apply ex_row_bounded; vm_compute; reflexivity|].
    constructor; [apply ex_row_bounded; vm_compute; reflexivity | constructor].
  - vm_compute. reflexivity.
Defined.
