(* ===== verification/Capability.v ===== *)
(** Just-in-time capabilities ([src/internal/services/governance/capability.go]).

    A capability is a mutable object; its only field that changes is [dissolved].
    The random bytes of the token are an argument. *)
From S2P Require Import Prelude Errors Encoding Timestamp Constants Envelope Posture Crypto Doctrine Warden.
From Stdlib Require Import String List ZArith Lia Bool.
From stdpp Require Import base strings list.
Open Scope string_scope.

Record Capability := {
  cpTransactionHash : string; cpActionType : ActionType; cpTargetResource : string;
  cpOperatorID : string; cpOperatorSession : string; cpExpiresAt : gotime;
  cpToken : string; cpKeyID : string; dissolved : bool
}.

Definition IsDissolved (c : Capability) : bool := dissolved c.
Definition IsExpired (c : Capability) (now : gotime) : bool := (cpExpiresAt c <? now)%Z.
Definition IsValid (c : Capability) (now : gotime) : bool := negb (IsDissolved c) && negb (IsExpired c now).

Definition Dissolve (c : Capability) : Capability := {|
  cpTransactionHash := cpTransactionHash c; cpActionType := cpActionType c;
  cpTargetResource := cpTargetResource c; cpOperatorID := cpOperatorID c;
  cpOperatorSession := cpOperatorSession c; cpExpiresAt := cpExpiresAt c;
  cpToken := cpToken c; cpKeyID := cpKeyID c; dissolved := true |}.

(** [Capability.Verify]; a nil capability is [None]. *)
Definition Verify (c : option Capability) (actionType : ActionType) (txHash : string) (now : gotime) : result unit :=
  match c with
  | None => Err (Errorf "capability: nil capability" [])
  | Some c =>
      let? _ := require (negb (IsDissolved c)) (Errorf "capability: dissolved" []) in
      let? _ := require (negb (IsExpired c now)) (Errorf "capability: expired" []) in
      let? _ := require (String.eqb (cpActionType c) actionType)
                  (Errorf "capability: action type mismatch (have %s, want %s)" []) in
      require (String.eqb (cpTransactionHash c) txHash) (Errorf "capability: transaction hash mismatch" [])
  end.

Section capability.
Context `{Ed : Ed25519}.

(** [MintCapability] for a transaction whose envelope is set; [random] is what
    [rand.Read] gives. *)
Definition MintCapability (random : result string) (vt : VerifiedTransaction) (signingKey keyID : string)
    : result Capability :=
  match random with
  | Err _ => Err (Errorf "%w: %v" [Sentinel "ErrL5ActuatorCapabilityMint"])
  | Ok tokenBytes =>
      let token := hex_encode tokenBytes in
      let sig := ed_sign signingKey (token +:+ TransactionHash (vtEnvelope vt)) in
      Ok {| cpTransactionHash := TransactionHash (vtEnvelope vt); cpActionType := vtActionType vt;
            cpTargetResource := TargetResource (vtEnvelope vt); cpOperatorID := OperatorId (vtEnvelope vt);
            cpOperatorSession := OperatorSessionId (vtEnvelope vt); cpExpiresAt := vtExpiresAt vt;
            cpToken := token +:+ ":" +:+ hex_encode sig; cpKeyID := keyID; dissolved := false |}
  end.

Lemma Verify_Ok c a h now :
  Verify (Some c) a h now = Ok tt <->
  dissolved c = false /\ (now <= cpExpiresAt c)%Z /\ cpActionType c = a /\ cpTransactionHash c = h.
Proof.
  unfold Verify, IsDissolved, IsExpired. split.
  - intros H. inv_ok. bools. split_and!; try done. lia.
  - intros (Hd & Hx & <- & <-). rewrite Hd, !String.eqb_refl.
    by rewrite (proj2 (Z.ltb_ge (cpExpiresAt c) now)).
Qed.

(** C40: A minted capability authorises exactly the transaction it was minted for,
    until the envelope expires, and nothing once it is dissolved. *)
Theorem capability_scope random vt key keyID cap actionType txHash now :
  MintCapability random vt key keyID = Ok cap ->
  (Verify (Some cap) actionType txHash now = Ok tt <->
   actionType = vtActionType vt /\ txHash = TransactionHash (vtEnvelope vt) /\ (now <= vtExpiresAt vt)%Z) /\
  is_ok (Verify (Some (Dissolve cap)) actionType txHash now) = false.
Proof.
  unfold MintCapability. destruct random as [b|]; [|done]. intros [= <-]. split.
  - rewrite Verify_Ok. simpl. naive_solver.
  - done.
Qed.
End capability.

(** ** A concrete capability *)

#[local] Existing Instance toy_ed25519.

Definition ex_vt : VerifiedTransaction :=
  accepted_tx ex_warden first_call ex_env ex_expiry (CommandRequested "ls -la") ConsensusPosture true.

Definition ex_capability : Capability := {|
  cpTransactionHash := TransactionHash ex_env; cpActionType := EnvActionType ex_env;
  cpTargetResource := TargetResource ex_env; cpOperatorID := OperatorId ex_env;
  cpOperatorSession := OperatorSessionId ex_env; cpExpiresAt := ex_expiry;
  cpToken := hex_encode "rnd" +:+ ":" +:+
             hex_encode (ed_sign "key" (hex_encode "rnd" +:+ TransactionHash ex_env));
  cpKeyID := "k"; dissolved := false |}.

Lemma capability_scope_witness :
  (Verify (Some ex_capability) "EXECUTE_BASH" "other" 0%Z = Ok tt <->
   "EXECUTE_BASH" = vtActionType ex_vt /\ "other" = TransactionHash (vtEnvelope ex_vt) /\ (0 <= vtExpiresAt ex_vt)%Z) /\
  is_ok (Verify (Some (Dissolve ex_capability)) "EXECUTE_BASH" "other" 0%Z) = false.
Proof.
  apply (capability_scope (Ok "rnd") ex_vt "key" "k" ex_capability "EXECUTE_BASH" "other" 0%Z).
  exact eq_refl.
Defined.
