(* ===== verification/Actuator.v ===== *)
(** L5: the actuator ([src/internal/services/governance/l5_actuator.go]).

    [Execute] and [RecordRejectedTransaction] run in a state and error monad over
    what the actuator leaves behind: the sequence of its effects and the commitment
    ledger.  A run takes from its environment the clocks, the answers of the audit
    stores, of the state root provider and of the random source, the handler, the
    rehydration of scrubbed payloads and the publisher. *)
From S2P Require Import Prelude Errors Encoding Sha256 Sqlite Timestamp Constants Envelope Posture Crypto Doctrine Receipt Warden Capability Commitment.
From Stdlib Require Import String List ZArith Lia Bool.
From stdpp Require Import base strings list.
Open Scope string_scope.

(** [models.ActionReceiptRecord]. *)
Record ActionReceiptRecord := {
  arTransactionID : string; arTransactionHash : string; arInvestigationID : string; arOperatorID : string;
  arOperatorSessionID : string; arRequestorUserID : string; arActingAppID : string; arEventType : string;
  arActionType : ActionType; arTargetResource : string; arStatus : ExecutionStatus; arResultSummary : string;
  arStateRootBefore : string; arStateRootAfter : string; arExecutedAtUnixMs : Z; arSignerKeyID : string;
  arSignature : string; arL2Valid : bool; arL3Valid : bool; arTimestamp : gotime;
  arActionReceipt : option ActionReceipt
}.

Definition BuildReceiptRecord (now : gotime) (env : GovernanceEnvelope) (r : ActionReceipt) : ActionReceiptRecord := {|
  arTransactionID := rcTransactionId r; arTransactionHash := rcTransactionHash r;
  arInvestigationID := InvestigationId env; arOperatorID := OperatorId env;
  arOperatorSessionID := OperatorSessionId env; arRequestorUserID := RequestorUserId env;
  arActingAppID := ActingAppId env;
  arEventType := if String.eqb (EnvEventType env) "" && str_nonempty (rcEventType r) then rcEventType r
                 else EnvEventType env;
  arActionType := EnvActionType env; arTargetResource := TargetResource env; arStatus := rcStatus r;
  arResultSummary := rcResultSummary r; arStateRootBefore := rcStateRootBefore r;
  arStateRootAfter := rcStateRootAfter r; arExecutedAtUnixMs := rcExecutedAtUnixMs r;
  arSignerKeyID := rcSignerKeyId r; arSignature := rcSignature r;
  arL2Valid := bool_decide (rcL2Status r = LAYER_REQUIRED_VALID);
  arL3Valid := bool_decide (rcL3Status r = LAYER_REQUIRED_VALID);
  arTimestamp := now; arActionReceipt := Some r |}.

(** ** What the actuator does to the world *)

Inductive effect :=
| EDoc (key : string) (r : ActionReceiptRecord)
| EAudit (r : ActionReceiptRecord)
| EHandle (eventType : string) (payload : option string) (cap : Capability)
| EDissolve (cap : Capability)
| EPublish (r : ActionReceipt).

Record world := { effects : list effect; commitments : ledger }.

(** State and errors. *)
Definition act (A : Type) : Type := world -> result A * world.
Definition ret {A} (a : A) : act A := fun w => (Ok a, w).
Definition lift {A} (r : result A) : act A := fun w => (r, w).
Definition abind {A B} (m : act A) (k : A -> act B) : act B :=
  fun w => match m w with (Ok a, w) => k a w | (Err e, w) => (Err e, w) end.
Definition emit (e : effect) : act unit :=
  fun w => (Ok tt, {| effects := effects w ++ [e]; commitments := commitments w |}).
(** The error of a computation, wrapped with a sentinel. *)
Definition wrapping {A} (sentinel : string) (m : act A) : act A :=
  fun w => match m w with
           | (Ok a, w) => (Ok a, w)
           | (Err e, w) => (Err (Errorf "%w: %w" [Sentinel sentinel; e]), w)
           end.

Notation "'let!' x := e 'in' k" := (abind e (fun x => k))
  (at level 10, x pattern, e at level 100, k at level 200) : go_scope.

(** The configuration; the audit store, when set, may lack its ledger. *)
Record L5Actuator := {
  auditStore : option bool; consoleSet : bool; rootProviderSet : bool; handlerSet : bool;
  publisherSet : bool; SigningKey : string; KeyID : string; AuditorSigningKey : string; AuditorKeyID : string
}.

(** One run.  [clock n] is the n-th reading of the wall clock that ends in a
    receipt or an attestation, [log_clock n] the reading of the n-th record and
    [commit_clock i] that of turn [i] of the ledger's retry loop. *)
Record run_env := {
  mono_ns : nat -> Z; clock : nat -> gotime; log_clock : nat -> gotime;
  root_before : result string; root_after : result string;
  doc_answer : nat -> result unit; audit_answer : nat -> result unit;
  ledger_db : DBConfig; ledger_now : nat -> Z; ledger_attempts : nat -> attempt; commit_clock : nat -> gotime;
  random : result string;
  rehydrate : option (string -> result string);
  handler : string -> option string -> Capability -> string * option gerr;
  publish_answer : result unit;
  error_text : gerr -> string
}.


(** [ed25519.PrivateKeySize]. *)
Definition PrivateKeySize : nat := 64.

Section actuator.
Context `{Ed : Ed25519}.
Context (marshal_stage : StageEvidence -> result string).
Context (marshal_commitment : CommitmentAttestation -> result string)
        (unmarshal_commitment : string -> result CommitmentAttestation).

(** ** Receipts *)

Definition layer_status (required valid : bool) : LayerStatus :=
  if required then (if valid then LAYER_REQUIRED_VALID else LAYER_REQUIRED_FAILED) else LAYER_NOT_REQUIRED.

(** The provider's root; a failure leaves the text empty. *)
Definition root_text (set : bool) (answer : result string) : string :=
  if set then match answer with Ok r => r | Err _ => "" end else "".

Definition posture_requires (p : option GovernancePosture) (f : GovernancePosture -> bool) : bool :=
  match p with Some p => f p | None => false end.

Definition buildInitialReceipt (w : L5Actuator) (e : run_env) (vt : VerifiedTransaction) : ActionReceipt := {|
  rcTransactionId := Id (vtEnvelope vt); rcTransactionHash := TransactionHash (vtEnvelope vt);
  rcStatus := STATUS_EXECUTING; rcResultSummary := "executing";
  rcStateRootBefore := root_text (rootProviderSet w) (root_before e); rcStateRootAfter := "";
  rcExecutedAtUnixMs := UnixMilli (clock e 0); rcSignerKeyId := KeyID w; rcSignature := "";
  rcL2Status := layer_status (posture_requires (vtPosture vt) RequiresL2Signature) (vtL2Valid vt);
  rcL3Status := layer_status (posture_requires (vtPosture vt) RequiresL3Proof) (vtL3Valid vt);
  rcStages := vtStages vt; rcAttestation := None; rcFailureCode := CODE_UNSPECIFIED;
  rcEventType := EnvEventType (vtEnvelope vt); rcActionType := EnvActionType (vtEnvelope vt) |}.

(** Assignments to the receipt's fields. *)
Definition rc_edit (r : ActionReceipt) (status : ExecutionStatus) (summary after : string) (at_ms : Z)
    (code : ReceiptFailureCode) : ActionReceipt := {|
  rcTransactionId := rcTransactionId r; rcTransactionHash := rcTransactionHash r;
  rcStatus := status; rcResultSummary := summary; rcStateRootBefore := rcStateRootBefore r;
  rcStateRootAfter := after; rcExecutedAtUnixMs := at_ms; rcSignerKeyId := rcSignerKeyId r;
  rcSignature := rcSignature r; rcL2Status := rcL2Status r; rcL3Status := rcL3Status r;
  rcStages := rcStages r; rcAttestation := rcAttestation r; rcFailureCode := code;
  rcEventType := rcEventType r; rcActionType := rcActionType r |}.

Definition rc_evidence (r : ActionReceipt) (signature : string) (stages : list StageEvidence)
    (attestation : option ReceiptPersistenceAttestation) : ActionReceipt := {|
  rcTransactionId := rcTransactionId r; rcTransactionHash := rcTransactionHash r;
  rcStatus := rcStatus r; rcResultSummary := rcResultSummary r; rcStateRootBefore := rcStateRootBefore r;
  rcStateRootAfter := rcStateRootAfter r; rcExecutedAtUnixMs := rcExecutedAtUnixMs r;
  rcSignerKeyId := rcSignerKeyId r; rcSignature := signature; rcL2Status := rcL2Status r;
  rcL3Status := rcL3Status r; rcStages := stages; rcAttestation := attestation;
  rcFailureCode := rcFailureCode r; rcEventType := rcEventType r; rcActionType := rcActionType r |}.

Definition set_signature (s : string) (r : ActionReceipt) := rc_evidence r s (rcStages r) (rcAttestation r).
Definition set_stages (l : list StageEvidence) (r : ActionReceipt) := rc_evidence r (rcSignature r) l (rcAttestation r).
Definition set_attestation (a : ReceiptPersistenceAttestation) (r : ActionReceipt) :=
  rc_evidence r (rcSignature r) (rcStages r) (Some a).

(** ** Logging *)

(** [logReceiptDocument]; [n] is the number of the call. *)
Definition logReceiptDocument (w : L5Actuator) (e : run_env) (n : nat) (env : GovernanceEnvelope)
    (r : ActionReceipt) : act unit :=
  if negb (consoleSet w) then ret tt
  else match doc_answer e n with
       | Err err => lift (Err (Errorf "%w: %w" [Sentinel "ErrL5ActuatorDocStore"; err]))
       | Ok _ => emit (EDoc (rcTransactionId r) (BuildReceiptRecord (log_clock e (2 * n)) env r))
       end.

(** [LogReceipt]: a failed document write does not stop the audit write. *)
Definition LogReceipt (w : L5Actuator) (e : run_env) (n : nat) (env : GovernanceEnvelope)
    (r : ActionReceipt) : act unit := fun s =>
  let '(docErr, s) := logReceiptDocument w e n env r s in
  match auditStore w with
  | None => (docErr, s)
  | Some _ =>
      match audit_answer e n with
      | Err err =>
          (Err match docErr with
               | Err _ => Errorf "%w: %v, doc store error: %v" [Sentinel "ErrL5ActuatorAuditStore"]
               | Ok _ => Errorf "%w: %w" [Sentinel "ErrL5ActuatorAuditStore"; err]
               end, s)
      | Ok _ =>
          let '(_, s) := emit (EAudit (BuildReceiptRecord (log_clock e (2 * n + 1)) env r)) s in
          (docErr, s)
      end
  end.

(** ** Before the execution *)

Definition signAndLogReceipt (w : L5Actuator) (e : run_env) (vt : VerifiedTransaction)
    (receipt : ActionReceipt) : act ActionReceipt :=
  let! sig := wrapping "ErrL5ActuatorSignReceipt" (lift (signReceipt marshal_stage (SigningKey w) receipt)) in
  let receipt := set_signature sig receipt in
  let! _ := wrapping "ErrL5ActuatorLogReceipt" (LogReceipt w e 0 (vtEnvelope vt) receipt) in
  ret receipt.

(** The attestation of turn [i] over a prior hash, before and after it is sealed. *)
Definition commitment_of (w : L5Actuator) (e : run_env) (vt : VerifiedTransaction) (receipt : ActionReceipt)
    (i : nat) (priorHash signature hash : string) : CommitmentAttestation := {|
  caTransactionId := Id (vtEnvelope vt); caTransactionHash := TransactionHash (vtEnvelope vt);
  caPriorCommitmentHash := priorHash; caStateRootAtCommit := rcStateRootBefore receipt;
  caL2SignatureDigest := l2SignatureDigest (vtEnvelope vt);
  caWardenIntentSignatureDigest := SignatureDigest [rcSignature receipt];
  caHumanSignatureDigest := humanSignatureDigest (vtEnvelope vt);
  caActionType := vtActionType vt; caTargetResource := TargetResource (vtEnvelope vt);
  caCommittedAtUnixMs := UnixMilli (commit_clock e i); caAuditorKeyId := AuditorKeyID w;
  caSignature := signature; caHash := hash |}.

Definition seal_commitment (w : L5Actuator) (e : run_env) (vt : VerifiedTransaction) (receipt : ActionReceipt)
    (i : nat) (priorHash : string) : CommitmentAttestation :=
  let canonical := CanonicalizeCommitmentAttestation (commitment_of w e vt receipt i priorHash "" "") in
  commitment_of w e vt receipt i priorHash (hex_encode (ed_sign (AuditorSigningKey w) canonical)) (sha256_hex canonical).

Definition build_commitment (w : L5Actuator) (e : run_env) (vt : VerifiedTransaction) (receipt : ActionReceipt)
    (i : nat) (priorHash : string) : result (string * string * CommitmentAttestation) :=
  let attestation := seal_commitment w e vt receipt i priorHash in
  let? payload := wrap_err "commitment attestation: marshal: %w" (marshal_commitment attestation) in
  Ok (payload, caHash attestation, attestation).

Definition persistCommitment (w : L5Actuator) (e : run_env) (vt : VerifiedTransaction) (receipt : ActionReceipt)
    : act CommitmentAttestation := fun s =>
  if negb (String.length (AuditorSigningKey w) =? PrivateKeySize)%nat
  then (Err (Sentinel "ErrL5ActuatorAuditorKeyMissing"), s)
  else if negb (String.eqb (AuditorKeyID w) (hex_encode (ed_public (AuditorSigningKey w))))
  then (Err (Sentinel "ErrValidationFailed"), s)
  else
    let '(persisted, l) := AppendCommitment unmarshal_commitment marshal_commitment (error_text e) (ledger_db e)
            (ledger_now e) (ledger_attempts e) (build_commitment w e vt receipt) (commitments s) in
    (persisted, {| effects := effects s; commitments := l |}).

(** [rehydratePayload]: the payload the handler gets; no message is [None]. *)
Definition rehydratePayload (e : run_env) (cmdMsg : option string) : result (option string) :=
  match rehydrate e, cmdMsg with
  | Some rehydrate, Some p =>
      if String.eqb p "" then Ok (Some p)
      else match rehydrate p with
           | Ok p' => Ok (Some p')
           | Err err => Err (Errorf "%w: %w" [Sentinel "ErrL5ActuatorRehydrate"; err])
           end
  | _, _ => Ok cmdMsg
  end.

Definition persistence_stage (e : run_env) (env : GovernanceEnvelope) (receipt : ActionReceipt) : StageEvidence :=
  newDeterministicStageEvidence env RECEIPT_PERSISTENCE (mono_ns e 0) (mono_ns e 1) COMPLETED
    {| dStateRootBefore := StateMerkleRoot env; dSignerKeyId := rcSignerKeyId receipt;
       dReceiptSignatureDigest := SignatureDigest [rcSignature receipt]; dCommitmentHash := "";
       dPriorCommitmentHash := ""; dL2SignatureDigest := ""; dL3SignatureDigest := "";
       dAuditRecordId := rcTransactionId receipt; dDoctrineBundleHash := ""; dDoctrineBundleVersion := "" |}.

Definition commitment_stage (e : run_env) (env : GovernanceEnvelope) (a : CommitmentAttestation) : StageEvidence :=
  newDeterministicStageEvidence env COMMITMENT_APPEND (mono_ns e 2) (mono_ns e 3) COMPLETED
    {| dStateRootBefore := StateMerkleRoot env; dSignerKeyId := caAuditorKeyId a;
       dReceiptSignatureDigest := ""; dCommitmentHash := caHash a;
       dPriorCommitmentHash := caPriorCommitmentHash a; dL2SignatureDigest := caL2SignatureDigest a;
       dL3SignatureDigest := caHumanSignatureDigest a;
       dAuditRecordId := ""; dDoctrineBundleHash := ""; dDoctrineBundleVersion := "" |}.

Definition add_stage (s : StageEvidence) (r : ActionReceipt) : ActionReceipt := set_stages (rcStages r ++ [s]) r.

(** ** After the execution *)

(** The tests of [classifyReceiptFailure], in their order. *)
Definition failure_table : list (string * ReceiptFailureCode) :=
  [("ErrInferenceModelOverrideDenied", MODEL_OVERRIDE_DENIED); ("ErrInferenceRoleInvalid", ROLE_INVALID);
   ("ErrInferenceModelRefInvalid", MODEL_REF_INVALID); ("ErrInferenceBackendUnavailable", BACKEND_UNAVAILABLE);
   ("ErrInferenceBackendNotRegistered", BACKEND_UNAVAILABLE); ("ErrInferenceBackendTimeout", BACKEND_TIMEOUT);
   ("ErrInferenceGenerateFailed", GENERATE_FAILED); ("ErrInferenceModelNotFound", MODEL_NOT_FOUND);
   ("ErrInferenceProviderResponseInvalid", PROVIDER_RESPONSE_INVALID);
   ("ErrInferenceGenerationOptionsInvalid", GENERATION_OPTIONS_INVALID);
   ("ErrInferenceCapabilityUnsupported", CAPABILITY_UNSUPPORTED);
   ("ErrInferenceToolsUnsupported", TOOLS_UNSUPPORTED); ("ErrInferenceContextOverflow", CONTEXT_OVERFLOW);
   ("ErrInferenceProviderAttemptRequired", PROVIDER_ATTEMPT_REQUIRED);
   ("ErrInferenceIdentityMismatch", IDENTITY_MISMATCH); ("ErrInferenceModelDigestMismatch", MODEL_DIGEST_MISMATCH);
   ("ErrInferenceEvidenceHashInvalid", EVIDENCE_HASH_INVALID);
   ("ErrInferenceModelRegistryInvalid", MODEL_REGISTRY_INVALID);
   ("ErrInferenceCampaignBindingInvalid", CAMPAIGN_BINDING_INVALID)].

Definition classifyReceiptFailure (execErr : option gerr) : ReceiptFailureCode :=
  match execErr with
  | None => CODE_UNSPECIFIED
  | Some err =>
      match List.find (fun nc => err_is nc.1 err) failure_table with
      | Some nc => nc.2
      | None => EXECUTION_FAILED
      end
  end.

Definition finalizeReceipt (w : L5Actuator) (e : run_env) (receipt : ActionReceipt) (summary : string)
    (execErr : option gerr) : ActionReceipt :=
  let summary := match execErr with
                 | Some err => "failed: " +:+ error_text e err
                 | None => if String.eqb summary "" then "completed" else summary
                 end in
  rc_edit receipt (match execErr with Some _ => STATUS_FAILED | None => STATUS_COMPLETED end) summary
    (root_text (rootProviderSet w) (root_after e)) (UnixMilli (clock e 2)) (classifyReceiptFailure execErr).

(** [signAndLogFinalReceipt]: the receipt as it stands when the function returns,
    and the error. *)
Definition signAndLogFinalReceipt (w : L5Actuator) (e : run_env) (vt : VerifiedTransaction)
    (receipt : ActionReceipt) (s : world) : (ActionReceipt * option gerr) * world :=
  match signReceipt marshal_stage (SigningKey w) receipt with
  | Err err => ((receipt, Some (Errorf "%w: %w" [Sentinel "ErrL5ActuatorSignReceipt"; err])), s)
  | Ok finalSig =>
      let receipt := set_signature finalSig receipt in
      match wrapping "ErrL5ActuatorLogReceipt" (LogReceipt w e 1 (vtEnvelope vt) receipt) s with
      | (Err err, s) => ((receipt, Some err), s)
      | (Ok _, s) =>
          let attestation := signReceiptPersistenceAttestation (SigningKey w) (KeyID w) (UnixMilli (clock e 3)) receipt in
          let receipt := set_attestation attestation receipt in
          match wrapping "ErrL5ActuatorLogReceipt" (LogReceipt w e 2 (vtEnvelope vt) receipt) s with
          | (Err err, s) => ((receipt, Some err), s)
          | (Ok _, s) => ((receipt, None), s)
          end
      end
  end.

(** The L4 and persistence stages become children of the execution stage. *)
Definition adopt (parent : string) (s : StageEvidence) : StageEvidence :=
  match stKind s with
  | L4_VERIFICATION | RECEIPT_PERSISTENCE | COMMITMENT_APPEND => set_parent parent s
  | _ => s
  end.

Definition execution_stage (e : run_env) (env : GovernanceEnvelope) (receipt : ActionReceipt)
    (execErr : option gerr) : StageEvidence :=
  newDeterministicStageEvidence env L5_EXECUTION (mono_ns e 4) (mono_ns e 5)
    (match execErr with Some _ => FAILED | None => COMPLETED end) (no_details (rcStateRootBefore receipt)).

(** ** The run *)

(** The configuration checks at the entry of [Execute]. *)
Definition preflight (w : L5Actuator) (vt : VerifiedTransaction) : result unit :=
  let? _ := require (handlerSet w) (Sentinel "ErrL5ActuatorExecutionHandlerNotSet") in
  let? _ := require (key_set (SigningKey w)) (Sentinel "ErrL5ActuatorSigningKeyMissing") in
  let? _ := match auditStore w with
            | None => Ok tt
            | Some ledgerSet =>
                let? _ := require (key_set (AuditorSigningKey w)) (Sentinel "ErrL5ActuatorAuditorKeyMissing") in
                let? _ := require (str_nonempty (AuditorKeyID w)) (Sentinel "ErrL5ActuatorAuditorKeyIDMissing") in
                require ledgerSet (Sentinel "ErrL5ActuatorCommitmentLedger")
            end in
  require (str_nonempty (EnvEventType (vtEnvelope vt))) (Sentinel "ErrTxUnknownEventType").

(** Everything before the handler runs: the receipt with its stages, the payload
    and the capability. *)
Definition prepare (w : L5Actuator) (e : run_env) (vt : VerifiedTransaction) (cmdMsg : option string)
    : act (ActionReceipt * option string * Capability) :=
  let! _ := lift (preflight w vt) in
  let! receipt := signAndLogReceipt w e vt (buildInitialReceipt w e vt) in
  let receipt := add_stage (persistence_stage e (vtEnvelope vt) receipt) receipt in
  let! receipt :=
    match auditStore w with
    | None => ret receipt
    | Some _ =>
        let! attestation := wrapping "ErrL5ActuatorCommitmentPersist" (persistCommitment w e vt receipt) in
        ret (add_stage (commitment_stage e (vtEnvelope vt) attestation) receipt)
    end in
  let! payload := lift (rehydratePayload e cmdMsg) in
  let! cap := wrapping "ErrL5ActuatorCapabilityMint" (lift (MintCapability (random e) vt (SigningKey w) (KeyID w))) in
  ret (receipt, payload, cap).

(** The receipt after the handler, before its final signature. *)
Definition conclude (w : L5Actuator) (e : run_env) (vt : VerifiedTransaction) (receipt : ActionReceipt)
    (summary : string) (execErr : option gerr) : ActionReceipt :=
  let stage := execution_stage e (vtEnvelope vt) receipt execErr in
  let final := finalizeReceipt w e receipt summary execErr in
  set_stages (map (adopt (stStageId stage)) (rcStages receipt) ++ [set_root_after (rcStateRootAfter final) stage]) final.

(** [Execute]: the receipt (nil is [None]), the error, the world. *)
Definition Execute (w : L5Actuator) (e : run_env) (vt : VerifiedTransaction) (cmdMsg : option string)
    (s : world) : (option ActionReceipt * option gerr) * world :=
  match prepare w e vt cmdMsg s with
  | (Err err, s) => ((None, Some err), s)
  | (Ok (receipt, payload, cap), s) =>
      let eventType := EnvEventType (vtEnvelope vt) in
      let '(summary, execErr) := handler e eventType payload cap in
      let '(_, s) := emit (EHandle eventType payload cap) s in
      let '(_, s) := emit (EDissolve (Dissolve cap)) s in
      match signAndLogFinalReceipt w e vt (conclude w e vt receipt summary execErr) s with
      | ((receipt, Some err), s) => ((Some receipt, Some err), s)
      | ((receipt, None), s) =>
          let '(_, s) := if publisherSet w then
                           match publish_answer e with
                           | Ok _ => emit (EPublish receipt) s
                           | Err _ => (Ok tt, s)
                           end
                         else (Ok tt, s) in
          ((Some receipt, execErr), s)
      end
  end.

(** [RecordRejectedTransaction] for a transaction and a rejection that are set. *)
Definition rejection_receipt (w : L5Actuator) (e : run_env) (vt : VerifiedTransaction) (rejection : gerr) : ActionReceipt :=
  let r := buildInitialReceipt w e vt in
  rc_edit r STATUS_FAILED ("rejected: " +:+ error_text e rejection) (rcStateRootAfter r)
    (UnixMilli (clock e 2)) GOVERNANCE_REJECTED.

Definition RecordRejectedTransaction (w : L5Actuator) (e : run_env) (vt : VerifiedTransaction)
    (rejection : gerr) (s : world) : (option ActionReceipt * option gerr) * world :=
  if negb (key_set (SigningKey w)) then ((None, Some (Sentinel "ErrL5ActuatorSigningKeyMissing")), s)
  else match signAndLogFinalReceipt w e vt (rejection_receipt w e vt rejection) s with
  | ((_, Some err), s) => ((None, Some err), s)
  | ((receipt, None), s) =>
      let '(_, s) := if publisherSet w then
                       match publish_answer e with
                       | Ok _ => emit (EPublish receipt) s
                       | Err _ => (Ok tt, s)
                       end
                     else (Ok tt, s) in
      ((Some receipt, None), s)
  end.

(** ** Facts about the steps *)

Open Scope list_scope.

Definition is_handle (x : effect) : bool := match x with EHandle _ _ _ => true | _ => false end.
Definition quiet (l : list effect) : Prop := Forall (fun x => is_handle x = false) l.

(** What a successful [LogReceipt] adds. *)
Definition log_entries (w : L5Actuator) (e : run_env) (n : nat) (env : GovernanceEnvelope) (r : ActionReceipt)
    : list effect :=
  (if consoleSet w then [EDoc (rcTransactionId r) (BuildReceiptRecord (log_clock e (2 * n)) env r)] else []) ++
  (match auditStore w with
   | Some _ => [EAudit (BuildReceiptRecord (log_clock e (2 * n + 1)) env r)]
   | None => []
   end).

(** The records of the stores, and a list of them. *)
Definition is_record (x : effect) : bool := match x with EDoc _ _ | EAudit _ => true | _ => false end.
Definition recorded (l : list effect) : Prop := Forall (fun x => is_record x = true) l.

Lemma recorded_quiet l : recorded l -> quiet l.
Proof. intros H. apply (Forall_impl _ _ _ H). by intros []. Qed.

(** The world grew by records, the ledger is as it was. *)
Definition grew (s s' : world) : Prop :=
  commitments s' = commitments s /\ exists l, effects s' = effects s ++ l /\ recorded l.

Lemma grew_refl s : grew s s.
Proof. split; [done|]. exists []. split; [by rewrite app_nil_r|constructor]. Qed.

Lemma grew_trans s1 s2 s3 : grew s1 s2 -> grew s2 s3 -> grew s1 s3.
Proof.
  intros [Hc (l & He & Hl)] [Hc' (l' & He' & Hl')]. split; [congruence|].
  exists (l ++ l'). split; [by rewrite He', He, <- List.app_assoc|]. by apply Forall_app.
Qed.

Lemma grew_emit x s s' : grew s s' -> is_record x = true ->
  grew s {| effects := effects s' ++ [x]; commitments := commitments s' |}.
Proof.
  intros [Hc (l & He & Hl)] Hx. split; [done|]. exists (l ++ [x]). split.
  - by rewrite List.app_assoc, <- He.
  - apply Forall_app. split; [done|]. by constructor.
Qed.

Ltac peel_effect :=
  match goal with
  | |- grew _ {| effects := ?l ++ [?x]; commitments := ?c |} =>
      apply (grew_emit x _ {| effects := l; commitments := c |}); [|done]
  end.

(** The publication of a receipt, if any. *)
Definition published (pub : list effect) (receipt : option ActionReceipt) : Prop :=
  pub = [] \/ exists r, receipt = Some r /\ pub = [EPublish r].

Lemma published_quiet pub receipt : published pub receipt -> quiet pub.
Proof. intros [->|(r & _ & ->)]; repeat constructor. Qed.

Lemma grew_published w e r s s1 :
  grew s s1 ->
  let s2 := (if publisherSet w then
               match publish_answer e with Ok _ => emit (EPublish r) s1 | Err _ => (Ok tt, s1) end
             else (Ok tt, s1)).2 in
  commitments s2 = commitments s /\
  exists recs pub, effects s2 = effects s ++ recs ++ pub /\ recorded recs /\ published pub (Some r).
Proof.
  intros [Hc (l & He & Hl)]. assert (Hn : commitments s1 = commitments s /\
    exists recs pub, effects s1 = effects s ++ recs ++ pub /\ recorded recs /\ published pub (Some r)).
  { split; [done|]. exists l, []. rewrite app_nil_r. split_and!; [done|done|by left]. }
  destruct (publisherSet w); [destruct (publish_answer e)|]; cbn; try exact Hn.
  split; [done|]. exists l, [EPublish r]. rewrite He, <- List.app_assoc. split_and!; [done|done|right; by eexists].
Qed.

Lemma LogReceipt_cases w e n env r s :
  let '(res, s') := LogReceipt w e n env r s in
  grew s s' /\
  (res = Ok tt -> effects s' = effects s ++ log_entries w e n env r /\ commitments s' = commitments s).
Proof.
  unfold LogReceipt, logReceiptDocument, log_entries, ret, lift, emit.
  destruct s as [l c]. destruct (consoleSet w); [destruct (doc_answer e n) as [[]|err]|];
    (destruct (auditStore w); [destruct (audit_answer e n)|]); cbn;
    (split; [repeat peel_effect; apply grew_refl|]);
    intros H; try discriminate H; rewrite <- ?List.app_assoc, ?app_nil_r; done.
Qed.

Lemma signAndLogReceipt_cases w e vt r s :
  let '(res, s') := signAndLogReceipt w e vt r s in
  grew s s' /\
  (forall r', res = Ok r' ->
     exists sig, signReceipt marshal_stage (SigningKey w) r = Ok sig /\ r' = set_signature sig r /\
       effects s' = effects s ++ log_entries w e 0 (vtEnvelope vt) r' /\ commitments s' = commitments s).
Proof.
  unfold signAndLogReceipt, abind, wrapping, lift, ret.
  destruct (signReceipt marshal_stage (SigningKey w) r) as [sig|err].
  2:{ split; [apply grew_refl | done]. }
  pose proof (LogReceipt_cases w e 0 (vtEnvelope vt) (set_signature sig r) s) as H.
  destruct (LogReceipt w e 0 (vtEnvelope vt) (set_signature sig r) s) as [[[]|err] s1];
    destruct H as [Hg Hok]; (split; [done|]); intros r' [= <-].
  exists sig. by destruct (Hok eq_refl).
Qed.

(** The row a commitment leaves in the ledger. *)
Definition commits (a : CommitmentAttestation) (row : CommitmentRow) (l : ledger) : Prop :=
  crAttestation row = a /\ sealed row /\ crPrior row = head_hash l.

Lemma build_commitment_Ok w e vt r i prior json hash a :
  build_commitment w e vt r i prior = Ok (json, hash, a) ->
  a = seal_commitment w e vt r i prior /\ marshal_commitment a = Ok json /\ hash = caHash a.
Proof.
  unfold build_commitment. destruct (marshal_commitment _) as [t|] eqn:Hm; [|done]. by intros [= <- <- <-].
Qed.

Lemma persistCommitment_cases w e vt r s :
  (forall a t, marshal_commitment a = Ok t -> unmarshal_commitment t = Ok a) ->
  let '(res, s') := persistCommitment w e vt r s in
  effects s' = effects s /\
  (forall err, res = Err err -> commitments s' = commitments s) /\
  (forall a, res = Ok a -> exists i row, a = seal_commitment w e vt r i (head_hash (commitments s)) /\
     commitments s' = row :: commitments s /\ commits a row (commitments s)).
Proof.
  intros Hrt. unfold persistCommitment.
  destruct (negb (String.length (AuditorSigningKey w) =? PrivateKeySize)%nat); [done|].
  destruct (negb (String.eqb (AuditorKeyID w) _)); [done|].
  pose proof (AppendCommitment_cases unmarshal_commitment marshal_commitment (error_text e) (ledger_db e)
    (ledger_now e) (ledger_attempts e) (build_commitment w e vt r) (commitments s)) as H.
  destruct (AppendCommitment _ _ _ _ _ _ _ _) as [[a|err] l]; cbn.
  2:{ split_and!; [done|by intros ? [= <-]|done]. }
  split_and!; [done|done|]. intros a' [= <-].
  destruct H as (i & row & json & hash & _ & Hb & Hu & Hp & Hh & ->).
  apply build_commitment_Ok in Hb as (Ha & Hm & ->). exists i, row. split_and!; [done|done|].
  rewrite (Hrt _ _ Hm) in Hu. injection Hu as Hu. unfold commits, sealed.
  rewrite <- Hu, Hp, Hh, Ha. done.
Qed.

(** The receipt that is signed before the handler runs. *)
Definition initial_receipt (w : L5Actuator) (e : run_env) (vt : VerifiedTransaction) (sig : string) : ActionReceipt :=
  set_signature sig (buildInitialReceipt w e vt).

(** The commitment of that receipt on top of a ledger, made in turn [i]. *)
Definition commitment_for (w : L5Actuator) (e : run_env) (vt : VerifiedTransaction) (sig : string) (i : nat)
    (l : ledger) : CommitmentAttestation := seal_commitment w e vt (initial_receipt w e vt sig) i (head_hash l).

(** The receipt the handler's outcome is added to. *)
Definition prepared_receipt (w : L5Actuator) (e : run_env) (vt : VerifiedTransaction) (sig : string) (i : nat)
    (l : ledger) : ActionReceipt :=
  let r := initial_receipt w e vt sig in
  let r := add_stage (persistence_stage e (vtEnvelope vt) r) r in
  match auditStore w with
  | None => r
  | Some _ => add_stage (commitment_stage e (vtEnvelope vt) (commitment_for w e vt sig i l)) r
  end.

(** The evidence of a signed receipt between two worlds: its records in every
    configured store and its commitment on top of the ledger. *)
Definition evidence (w : L5Actuator) (e : run_env) (vt : VerifiedTransaction) (sig : string) (i : nat) (s s' : world) : Prop :=
  effects s' = effects s ++ log_entries w e 0 (vtEnvelope vt) (initial_receipt w e vt sig) /\
  match auditStore w with
  | None => commitments s' = commitments s
  | Some _ => exists row, commitments s' = row :: commitments s /\
                commits (commitment_for w e vt sig i (commitments s)) row (commitments s)
  end.

Lemma lift_Ok {A} (r : result A) s a s' : lift r s = (Ok a, s') -> r = Ok a /\ s' = s.
Proof. by intros [= -> ->]. Qed.

Lemma wrapping_Ok {A} n (m : act A) s a s' : wrapping n m s = (Ok a, s') -> m s = (Ok a, s').
Proof. unfold wrapping. destruct (m s) as [[a'|err] s1]; congruence. Qed.

Lemma abind_Ok {A B} (m : act A) (k : A -> act B) s b s' :
  abind m k s = (Ok b, s') -> exists a s1, m s = (Ok a, s1) /\ k a s1 = (Ok b, s').
Proof. unfold abind. destruct (m s) as [[a|err] s1]; [by exists a, s1 | done]. Qed.

Lemma prepare_Ok w e vt msg s r payload cap s' :
  (forall a t, marshal_commitment a = Ok t -> unmarshal_commitment t = Ok a) ->
  prepare w e vt msg s = (Ok (r, payload, cap), s') ->
  exists sig i, signReceipt marshal_stage (SigningKey w) (buildInitialReceipt w e vt) = Ok sig /\
    evidence w e vt sig i s s' /\ r = prepared_receipt w e vt sig i (commitments s) /\
    preflight w vt = Ok tt /\ rehydratePayload e msg = Ok payload /\
    MintCapability (random e) vt (SigningKey w) (KeyID w) = Ok cap.
Proof.
  intros Hrt H. unfold prepare in H.
  apply abind_Ok in H as ([] & s0 & Hp & H). apply lift_Ok in Hp as [Hp ->].
  apply abind_Ok in H as (r0 & s1 & Hs & H).
  pose proof (signAndLogReceipt_cases w e vt (buildInitialReceipt w e vt) s) as Hc. rewrite Hs in Hc.
  destruct Hc as [_ Hc]. destruct (Hc _ eq_refl) as (sig & Hsig & -> & He & Hl). clear Hc Hs.
  apply abind_Ok in H as (r1 & s2 & Hs & H).
  apply abind_Ok in H as (p & s3 & Hr & H). apply lift_Ok in Hr as [Hr ->].
  apply abind_Ok in H as (c & s4 & Hc & H). apply wrapping_Ok, lift_Ok in Hc as [Hc ->].
  injection H as <- <- <- <-. exists sig. unfold evidence, prepared_receipt, initial_receipt.
  destruct (auditStore w) as [b|].
  - apply abind_Ok in Hs as (a & s5 & Ha & Hs). apply wrapping_Ok in Ha. injection Hs as <- <-.
    match type of Ha with persistCommitment _ _ _ ?r _ = _ =>
      pose proof (persistCommitment_cases w e vt r s1 Hrt) as Hcase end.
    rewrite Ha in Hcase. destruct Hcase as (Heff & _ & Hok). destruct (Hok _ eq_refl) as (i & row & -> & Hrow & Hcm).
    exists i. rewrite Heff, Hrow, Hl in *. split_and!; try done. by exists row.
  - injection Hs as <- <-. exists 0%nat. by split_and!.
Qed.

(** Whatever [prepare] returns, the handler has not run. *)
Lemma prepare_recorded w e vt msg s :
  exists l, effects (prepare w e vt msg s).2 = effects s ++ l /\ recorded l.
Proof.
  assert (Hrefl : exists l, effects s = effects s ++ l /\ recorded l).
  { exists []. split; [by rewrite app_nil_r | constructor]. }
  unfold prepare, lift, abind at 1. destruct (preflight w vt) as [[]|]; [|done].
  unfold abind at 1. pose proof (signAndLogReceipt_cases w e vt (buildInitialReceipt w e vt) s) as Hc.
  destruct (signAndLogReceipt _ _ _ _ _) as [[r0|] s1]; destruct Hc as [[_ Hg] _]; [|done].
  unfold abind at 1. destruct (auditStore w) as [b|].
  - assert (Hpc : forall r, effects (persistCommitment w e vt r s1).2 = effects s1).
    { intros r. unfold persistCommitment. repeat case_match; done. }
    unfold abind at 1, wrapping. specialize (Hpc (add_stage (persistence_stage e (vtEnvelope vt) r0) r0)).
    destruct (persistCommitment _ _ _ _ _) as [[a|] s2]; cbn in *; rewrite <- Hpc in Hg; [|done].
    unfold abind. destruct (rehydratePayload e msg); [|done]. by destruct (MintCapability _ _ _ _).
  - cbn. unfold abind, wrapping. destruct (rehydratePayload e msg); [|done]. by destruct (MintCapability _ _ _ _).
Qed.

Lemma LogReceipt_up w e n env r s :
  (consoleSet w = true -> doc_answer e n = Ok tt) -> (auditStore w <> None -> audit_answer e n = Ok tt) ->
  LogReceipt w e n env r s =
    (Ok tt, {| effects := effects s ++ log_entries w e n env r; commitments := commitments s |}).
Proof.
  intros Hd Ha. destruct s as [l c]. unfold LogReceipt, logReceiptDocument, log_entries, ret, emit.
  destruct (consoleSet w); [rewrite Hd by done|]; (destruct (auditStore w); [rewrite Ha by done|]); cbn;
    by rewrite <- ?List.app_assoc, ?app_nil_r.
Qed.

Lemma signAndLogFinalReceipt_grew w e vt r s : grew s (signAndLogFinalReceipt w e vt r s).2.
Proof.
  unfold signAndLogFinalReceipt, wrapping. destruct (signReceipt _ _ _) as [sig|]; [|apply grew_refl].
  pose proof (LogReceipt_cases w e 1 (vtEnvelope vt) (set_signature sig r) s) as H.
  destruct (LogReceipt _ _ _ _ _ _) as [[[]|] s1]; destruct H as [Hg _]; [|done].
  match goal with |- context [LogReceipt w e 2 ?env ?rc s1] =>
    pose proof (LogReceipt_cases w e 2 env rc s1) as H; destruct (LogReceipt w e 2 env rc s1) as [[[]|] s2] end;
    destruct H as [Hg2 _]; by eapply grew_trans.
Qed.

(** The final receipt as the actuator returns it. *)
Definition sealed_receipt (w : L5Actuator) (e : run_env) (r : ActionReceipt) (sig : string) : ActionReceipt :=
  let signed := set_signature sig r in
  set_attestation (signReceiptPersistenceAttestation (SigningKey w) (KeyID w) (UnixMilli (clock e 3)) signed) signed.

Lemma signAndLogFinalReceipt_up w e vt r sig s :
  signReceipt marshal_stage (SigningKey w) r = Ok sig ->
  (consoleSet w = true -> forall n, doc_answer e n = Ok tt) ->
  (auditStore w <> None -> forall n, audit_answer e n = Ok tt) ->
  signAndLogFinalReceipt w e vt r s =
    ((sealed_receipt w e r sig, None),
     {| effects := effects s ++ log_entries w e 1 (vtEnvelope vt) (set_signature sig r) ++
                     log_entries w e 2 (vtEnvelope vt) (sealed_receipt w e r sig);
        commitments := commitments s |}).
Proof.
  intros Hs Hd Ha. unfold signAndLogFinalReceipt, wrapping. rewrite Hs, !LogReceipt_up by auto.
  cbn. by rewrite List.app_assoc.
Qed.

(** C3: The actuator fails closed.  Every run of [Execute] either ends in an error
    without a receipt, the handler never having run; or the handler ran exactly
    once, after a receipt in state EXECUTING was signed, recorded in every
    configured store and, with an audit store, committed on top of the ledger; it
    ran with the event's type, the rehydrated payload and a capability minted for
    this transaction, which is dissolved immediately after. *)
Theorem execute_fail_closed `{L : !Ed25519Laws Ed} w e vt msg s out s' :
  (forall a t, marshal_commitment a = Ok t -> unmarshal_commitment t = Ok a) ->
  Execute w e vt msg s = (out, s') ->
  (exists l err, effects s' = effects s ++ l /\ quiet l /\ out = (None, Some err)) \/
  exists sig i s1 payload cap tail,
    VerifyActionReceiptSignature marshal_stage (Some (initial_receipt w e vt sig)) (ed_public (SigningKey w)) = Ok tt /\
    rcStatus (initial_receipt w e vt sig) = STATUS_EXECUTING /\
    evidence w e vt sig i s s1 /\ rehydratePayload e msg = Ok payload /\
    MintCapability (random e) vt (SigningKey w) (KeyID w) = Ok cap /\
    effects s' = effects s1 ++
      EHandle (EnvEventType (vtEnvelope vt)) payload cap :: EDissolve (Dissolve cap) :: tail /\
    quiet tail /\ commitments s' = commitments s1.
Proof.
  intros Hrt. unfold Execute. pose proof (prepare_recorded w e vt msg s) as Hq.
  destruct (prepare w e vt msg s) as [[[[r payload] cap]|err] s1] eqn:Hp.
  2:{ intros [= <- <-]. left. destruct Hq as (l & Hl & Hq%recorded_quiet). by exists l, err. }
  clear Hq. apply prepare_Ok in Hp as (sig & i & Hsig & Hev & _ & _ & Hr & Hc); [|done..].
  destruct (handler e _ payload cap) as [summary execErr]. cbn [emit].
  set (s2 := {| effects := _; commitments := _ |}).
  pose proof (signAndLogFinalReceipt_grew w e vt (conclude w e vt r summary execErr) s2) as Hg.
  destruct (signAndLogFinalReceipt _ _ _ _ s2) as [[rf err] s3]. cbn in Hg. intros H. right.
  exists sig, i, s1, payload, cap.
  assert (Hg' : commitments s' = commitments s2 /\ exists l, effects s' = effects s2 ++ l /\ quiet l).
  { destruct err as [err|].
    - injection H as _ <-. destruct Hg as [Hl (l & He & Hql%recorded_quiet)]. eauto.
    - destruct (grew_published w e rf s2 s3 Hg) as (Hl & recs & pub & He & Hr1%recorded_quiet & Hp%published_quiet).
      destruct (if publisherSet w then _ else _) as [u s4]. injection H as _ <-. cbn [snd] in *. split; [done|].
      exists (recs ++ pub). split; [done|by apply Forall_app]. }
  destruct Hg' as [Hl (l & He & Hql)]. exists l. split_and!; try done.
  - eapply signReceipt_verifies; [exact Hsig|done|done].
  - rewrite He. unfold s2. cbn. by rewrite <- !List.app_assoc.
Qed.

(** The shape of any run, whatever the stores and the ledger do: no handler and no
    receipt; or one handler call, and a receipt of its outcome that is sealed unless
    finalizing it failed. *)
Definition reports (r final : ActionReceipt) : Prop :=
  rcStatus r = rcStatus final /\ rcResultSummary r = rcResultSummary final /\ rcTransactionId r = rcTransactionId final.

Inductive run_shape (w : L5Actuator) (e : run_env) (vt : VerifiedTransaction) (msg : option string) :
    list effect -> option ActionReceipt * option gerr -> Prop :=
| shape_stopped l err : recorded l -> run_shape w e vt msg l (None, Some err)
| shape_ran pre payload cap recs pub r0 summary execErr out :
    recorded pre -> recorded recs -> published pub out.1 ->
    rehydratePayload e msg = Ok payload -> MintCapability (random e) vt (SigningKey w) (KeyID w) = Ok cap ->
    handler e (EnvEventType (vtEnvelope vt)) payload cap = (summary, execErr) ->
    (let final := conclude w e vt r0 summary execErr in
     (exists sig, signReceipt marshal_stage (SigningKey w) final = Ok sig /\
        out = (Some (sealed_receipt w e final sig), execErr)) \/
     (exists r err, out = (Some r, Some err) /\ reports r final)) ->
    run_shape w e vt msg (pre ++ EHandle (EnvEventType (vtEnvelope vt)) payload cap :: EDissolve (Dissolve cap) :: recs ++ pub) out.

Lemma prepare_payload w e vt msg s r payload cap s' :
  prepare w e vt msg s = (Ok (r, payload, cap), s') ->
  rehydratePayload e msg = Ok payload /\ MintCapability (random e) vt (SigningKey w) (KeyID w) = Ok cap.
Proof.
  intros H. unfold prepare in H.
  apply abind_Ok in H as ([] & s0 & _ & H). apply abind_Ok in H as (r0 & s1 & _ & H).
  apply abind_Ok in H as (r1 & s2 & _ & H).
  apply abind_Ok in H as (p & s3 & Hr & H). apply lift_Ok in Hr as [Hr ->].
  apply abind_Ok in H as (c & s4 & Hc & H). apply wrapping_Ok, lift_Ok in Hc as [Hc ->].
  by injection H as <- <- <- <-.
Qed.

Lemma signAndLogFinalReceipt_shape w e vt r s :
  let '(out, _) := signAndLogFinalReceipt w e vt r s in
  (exists sig, signReceipt marshal_stage (SigningKey w) r = Ok sig /\ out = (sealed_receipt w e r sig, None)) \/
  (exists r' err, out = (r', Some err) /\ reports r' r).
Proof.
  unfold signAndLogFinalReceipt, wrapping, reports. destruct (signReceipt marshal_stage (SigningKey w) r) as [sig|err].
  2:{ right. by do 2 eexists. }
  destruct (LogReceipt w e 1 _ _ _) as [[u|err] s1]; [|right; by do 2 eexists].
  destruct (LogReceipt w e 2 _ _ _) as [[u'|err] s2]; [|right; by do 2 eexists].
  left. by exists sig.
Qed.

Lemma Execute_shape w e vt msg s :
  exists l, effects (Execute w e vt msg s).2 = effects s ++ l /\ run_shape w e vt msg l (Execute w e vt msg s).1.
Proof.
  unfold Execute. pose proof (prepare_recorded w e vt msg s) as (pre & Hpre & Hq).
  destruct (prepare w e vt msg s) as [[[[r0 payload] cap]|err] s1] eqn:Hp; cbn [snd] in Hpre.
  2:{ exists pre. split; [done|]. by constructor. }
  apply prepare_payload in Hp as [Hr Hc].
  destruct (handler e _ payload cap) as [summary execErr] eqn:Hh. cbn [emit].
  set (s2 := {| effects := _; commitments := _ |}). set (final := conclude w e vt r0 summary execErr).
  pose proof (signAndLogFinalReceipt_grew w e vt final s2) as Hg.
  pose proof (signAndLogFinalReceipt_shape w e vt final s2) as Hf.
  destruct (signAndLogFinalReceipt w e vt final s2) as [out s3]. cbn in Hg.
  assert (Hout : forall s' out recs pub, effects s' = effects s2 ++ recs ++ pub -> recorded recs -> published pub out.1 ->
    (exists sig, signReceipt marshal_stage (SigningKey w) final = Ok sig /\
       out = (Some (sealed_receipt w e final sig), execErr)) \/
    (exists r err, out = (Some r, Some err) /\ reports r final) ->
    exists l, effects s' = effects s ++ l /\ run_shape w e vt msg l out).
  { intros s' out' recs pub He Hrecs Hpub Ho. eexists. split; [|by apply (shape_ran w e vt msg pre payload cap recs pub r0 summary execErr)].
    rewrite He. unfold s2. cbn. by rewrite Hpre, <- !List.app_assoc. }
  destruct Hf as [(sig & Hsig & ->)|(r' & err & -> & Hrep)].
  - destruct (grew_published w e (sealed_receipt w e final sig) s2 s3 Hg) as (_ & recs & pub & He & Hrecs & Hpub).
    destruct (if publisherSet w then _ else _) as [u s4]. apply (Hout s4 _ recs pub); [done..|]. left. by exists sig.
  - destruct Hg as [_ (l & He & Hl)]. apply (Hout s3 _ l []); [by rewrite app_nil_r|done|by left|]. right. by exists r', err.
Qed.

(** ** The ledger *)

Lemma prepare_ledger w e vt msg s :
  (forall a t, marshal_commitment a = Ok t -> unmarshal_commitment t = Ok a) ->
  exists l, commitments (prepare w e vt msg s).2 = l /\
    (l = commitments s \/ exists a row, l = row :: commitments s /\ commits a row (commitments s)).
Proof.
  intros Hrt. unfold prepare, lift, abind at 1.
  assert (Hsame : exists l, commitments s = l /\
    (l = commitments s \/ exists a row, l = row :: commitments s /\ commits a row (commitments s)))
    by (eexists; split; [reflexivity | by left]).
  destruct (preflight w vt) as [[]|]; [|done].
  unfold abind at 1. pose proof (signAndLogReceipt_cases w e vt (buildInitialReceipt w e vt) s) as Hc.
  destruct (signAndLogReceipt _ _ _ _ _) as [[r0|] s1]; destruct Hc as [[Hs _] _]; cbn [snd]; rewrite <- Hs in *; [|done].
  unfold abind at 1. destruct (auditStore w) as [b|].
  - pose proof (persistCommitment_cases w e vt (add_stage (persistence_stage e (vtEnvelope vt) r0) r0) s1 Hrt) as H.
    unfold abind at 1, wrapping. destruct (persistCommitment _ _ _ _ _) as [[a|err] s2]; destruct H as (_ & He & Hok).
    + destruct (Hok a eq_refl) as (i & row & _ & Hrow & Hcm). exists (commitments s2). split; [|right; by exists a, row].
      cbn. unfold abind. destruct (rehydratePayload e msg); [|done]. by destruct (MintCapability _ _ _ _).
    + cbn. by rewrite (He err).
  - cbn. unfold abind, wrapping. destruct (rehydratePayload e msg); [|done]. by destruct (MintCapability _ _ _ _).
Qed.

Lemma Execute_ledger w e vt msg s :
  commitments (Execute w e vt msg s).2 = commitments (prepare w e vt msg s).2.
Proof.
  unfold Execute. destruct (prepare w e vt msg s) as [[[[r payload] cap]|err] s1]; [|done].
  destruct (handler e _ payload cap) as [summary execErr]. cbn [emit].
  set (s2 := {| effects := _; commitments := _ |}).
  pose proof (signAndLogFinalReceipt_grew w e vt (conclude w e vt r summary execErr) s2) as [Hg _].
  destruct (signAndLogFinalReceipt _ _ _ _ s2) as [[rf [err|]] s3]; cbn in *; [done|].
  destruct (publisherSet w); [destruct (publish_answer e)|]; done.
Qed.

(** Whatever fails during it, an execution keeps the commitment ledger a sealed
    chain, and adds at most one commitment to it; a rejection leaves it alone. *)
Theorem execute_ledger_chained w e vt msg s :
  (forall a t, marshal_commitment a = Ok t -> unmarshal_commitment t = Ok a) ->
  chained (commitments s) ->
  chained (commitments (Execute w e vt msg s).2) /\
  (exists new, commitments (Execute w e vt msg s).2 = new ++ commitments s /\ (List.length new <= 1)%nat) /\
  forall rejection, commitments (RecordRejectedTransaction w e vt rejection s).2 = commitments s.
Proof.
  intros Hrt Hch. rewrite Execute_ledger.
  destruct (prepare_ledger w e vt msg s Hrt) as (l & -> & Hl). split; [|split].
  - destruct Hl as [->|(a & row & -> & _ & Hs & Hp)]; [done|by split].
  - destruct Hl as [->|(a & row & -> & _)]; [exists []; split; [done|simpl; lia]|].
    exists [row]. by split.
  - intros rejection. unfold RecordRejectedTransaction. destruct (negb _); [done|].
    pose proof (signAndLogFinalReceipt_grew w e vt (rejection_receipt w e vt rejection) s) as [Hg _].
    destruct (signAndLogFinalReceipt _ _ _ _ s) as [[rf [err|]] s3]; cbn in *; [done|].
    destruct (publisherSet w); [destruct (publish_answer e)|]; done.
Qed.

(** ** Runs in which nothing the actuator depends on fails *)

(** The stores answer, the stage records and the commitment have encodings, the
    payload can be rehydrated, the random source works, the auditor's key is a
    private key under its own identifier and the commitment is a new one. *)
Record healthy (w : L5Actuator) (e : run_env) (vt : VerifiedTransaction) (msg : option string) (l : ledger) : Prop := {
  up_preflight : preflight w vt = Ok tt;
  up_docs : consoleSet w = true -> forall n, doc_answer e n = Ok tt;
  up_audit : auditStore w <> None -> forall n, audit_answer e n = Ok tt;
  up_stages : forall s, is_ok (marshal_stage s) = true;
  up_payload : is_ok (rehydratePayload e msg) = true;
  up_random : is_ok (random e) = true;
  up_auditor : auditStore w <> None ->
    String.length (AuditorSigningKey w) = PrivateKeySize /\
    AuditorKeyID w = hex_encode (ed_public (AuditorSigningKey w));
  up_ledger : auditStore w <> None -> (0 < MaxRetries (ledger_db e))%Z /\ ledger_attempts e 0%nat = quiet_attempt /\
    forall sig, signReceipt marshal_stage (SigningKey w) (buildInitialReceipt w e vt) = Ok sig ->
      exists t, marshal_commitment (commitment_for w e vt sig 0%nat l) = Ok t /\ t <> "" /\
      unmarshal_commitment t = Ok (commitment_for w e vt sig 0%nat l) /\
      hash_taken (caHash (commitment_for w e vt sig 0%nat l)) l = false
}.

Lemma marshal_stages_ok l : (forall s, is_ok (marshal_stage s) = true) -> is_ok (marshal_stages marshal_stage l) = true.
Proof.
  intros Hm. induction l as [|s l IH]; [done|]. simpl. apply is_ok_rbind; [done|]. intros a. by apply is_ok_rbind.
Qed.

Lemma signReceipt_ok key r :
  (forall s, is_ok (marshal_stage s) = true) -> key_set key = true ->
  exists sig, signReceipt marshal_stage key r = Ok sig.
Proof.
  intros Hm Hk. unfold signReceipt, CanonicalizeActionReceipt, deterministicStageEvidenceHash. rewrite Hk. cbn [negb].
  pose proof (marshal_stages_ok (rcStages r) Hm) as Hok. apply is_ok_true in Hok as [es ->].
  cbn [rbind]. destruct (rcStages r); by eexists.
Qed.

Lemma preflight_key w vt : preflight w vt = Ok tt -> key_set (SigningKey w) = true.
Proof. unfold preflight. intros H. by inv_ok. Qed.

Lemma persistCommitment_up w e vt sig s r :
  r = add_stage (persistence_stage e (vtEnvelope vt) (initial_receipt w e vt sig)) (initial_receipt w e vt sig) ->
  String.length (AuditorSigningKey w) = PrivateKeySize ->
  AuditorKeyID w = hex_encode (ed_public (AuditorSigningKey w)) ->
  (0 < MaxRetries (ledger_db e))%Z -> ledger_attempts e 0%nat = quiet_attempt ->
  (exists t, marshal_commitment (commitment_for w e vt sig 0%nat (commitments s)) = Ok t /\ t <> "" /\
     unmarshal_commitment t = Ok (commitment_for w e vt sig 0%nat (commitments s)) /\
     hash_taken (caHash (commitment_for w e vt sig 0%nat (commitments s))) (commitments s) = false) ->
  exists s', persistCommitment w e vt r s = (Ok (commitment_for w e vt sig 0%nat (commitments s)), s').
Proof.
  intros -> Hl Hk Hmax Hq (t & Hm & Ht & Hu & Hnew). unfold persistCommitment.
  rewrite Hl, Nat.eqb_refl. cbn [negb]. rewrite <- Hk, String.eqb_refl. cbn [negb].
  erewrite (AppendCommitment_first unmarshal_commitment marshal_commitment); try done; [by eexists|].
  unfold build_commitment.
  change (seal_commitment w e vt _ 0%nat (head_hash (commitments s))) with (commitment_for w e vt sig 0%nat (commitments s)).
  by rewrite Hm.
Qed.

Lemma prepare_up w e vt msg s :
  healthy w e vt msg (commitments s) ->
  exists sig payload cap s',
    prepare w e vt msg s = (Ok (prepared_receipt w e vt sig 0%nat (commitments s), payload, cap), s').
Proof.
  intros [Hp Hd Ha Hm Hpay Hr Haud Hled].
  destruct (signReceipt_ok (SigningKey w) (buildInitialReceipt w e vt) Hm (preflight_key _ _ Hp)) as [sig Hsig].
  apply is_ok_true in Hpay as [payload Hpay].
  assert (Hc : exists cap, MintCapability (random e) vt (SigningKey w) (KeyID w) = Ok cap).
  { unfold MintCapability. apply is_ok_true in Hr as [b ->]. by eexists. }
  destruct Hc as [cap Hc]. exists sig, payload, cap.
  unfold prepare, signAndLogReceipt, abind, lift, wrapping, ret. rewrite Hp, Hsig, LogReceipt_up by auto.
  unfold prepared_receipt. destruct (auditStore w) as [b|].
  - destruct (Haud ltac:(done)) as [Hlen Hkey]. destruct (Hled ltac:(done)) as (Hmax & Hq & Hled').
    match goal with |- context [persistCommitment w e vt ?r ?s1] =>
      destruct (persistCommitment_up w e vt sig s1 r eq_refl Hlen Hkey Hmax Hq (Hled' sig Hsig)) as [s' ->] end.
    rewrite Hpay, Hc. by eexists.
  - rewrite Hpay, Hc. by eexists.
Qed.

Lemma Execute_up w e vt msg s :
  healthy w e vt msg (commitments s) ->
  exists sig final_sig payload cap s',
    let '(summary, execErr) := handler e (EnvEventType (vtEnvelope vt)) payload cap in
    let final := conclude w e vt (prepared_receipt w e vt sig 0%nat (commitments s)) summary execErr in
    let r := sealed_receipt w e final final_sig in
    signReceipt marshal_stage (SigningKey w) final = Ok final_sig /\
    Execute w e vt msg s = ((Some r, execErr), s') /\
    (forall x, x ∈ log_entries w e 2 (vtEnvelope vt) r -> x ∈ effects s').
Proof.
  intros H. destruct (prepare_up w e vt msg s H) as (sig & payload & cap & s1 & Hp).
  destruct H as [Hpre Hd Ha Hm _ _ _ _].
  destruct (handler e (EnvEventType (vtEnvelope vt)) payload cap) as [summary execErr] eqn:Hh.
  destruct (signReceipt_ok (SigningKey w)
    (conclude w e vt (prepared_receipt w e vt sig 0%nat (commitments s)) summary execErr) Hm (preflight_key _ _ Hpre))
    as [final_sig Hsig].
  exists sig, final_sig, payload, cap. unfold Execute. rewrite Hp, Hh. cbn [emit].
  rewrite (signAndLogFinalReceipt_up w e vt _ final_sig) by auto.
  destruct (publisherSet w); [destruct (publish_answer e)|]; eexists; (split; [done|split; [reflexivity|]]);
    intros x Hx; cbn; rewrite !elem_of_app; tauto.
Qed.

Lemma sealed_verifies `{L : !Ed25519Laws Ed} w e r sig :
  signReceipt marshal_stage (SigningKey w) r = Ok sig ->
  VerifyActionReceiptSignature marshal_stage (Some (sealed_receipt w e r sig)) (ed_public (SigningKey w)) = Ok tt.
Proof. intros H. by eapply signReceipt_verifies. Qed.

Lemma sealed_attested `{L : !Ed25519Laws Ed} w e r sig :
  signReceipt marshal_stage (SigningKey w) r = Ok sig -> rcSignerKeyId r = KeyID w ->
  rcTransactionId r <> "" -> KeyID w <> "" -> (0 < UnixMilli (clock e 3))%Z ->
  VerifyReceiptPersistenceAttestation (Some (sealed_receipt w e r sig)) (ed_public (SigningKey w)) = Ok tt.
Proof.
  intros Hs Hk Hid Hkey Ht.
  eapply (attestation_verifies (SigningKey w) (KeyID w) (UnixMilli (clock e 3)) (set_signature sig r));
    try done; try by apply str_nonempty_true.
  apply str_nonempty_true. unfold signReceipt in Hs. destruct (negb _); [done|].
  destruct (CanonicalizeActionReceipt _ r) as [p|]; [|done]. injection Hs as <-. simpl. intros He.
  pose proof (ed_sign_size (SigningKey w) p) as Hsz. by destruct (ed_sign (SigningKey w) p).
Qed.

(** C25: When nothing it depends on fails, [Execute] returns the handler's own error
    together with a receipt that names the transaction, reports the handler's
    outcome, carries a signature and a persistence attestation that verify under
    the actuator's public key, and is recorded as it is in the document store. *)
Theorem execute_receipt `{L : !Ed25519Laws Ed} w e vt msg s :
  healthy w e vt msg (commitments s) ->
  Id (vtEnvelope vt) <> "" -> KeyID w <> "" -> (0 < UnixMilli (clock e 3))%Z ->
  exists r payload cap s',
    let execErr := (handler e (EnvEventType (vtEnvelope vt)) payload cap).2 in
    Execute w e vt msg s = ((Some r, execErr), s') /\
    VerifyActionReceiptSignature marshal_stage (Some r) (ed_public (SigningKey w)) = Ok tt /\
    VerifyReceiptPersistenceAttestation (Some r) (ed_public (SigningKey w)) = Ok tt /\
    rcTransactionId r = Id (vtEnvelope vt) /\ rcTransactionHash r = TransactionHash (vtEnvelope vt) /\
    rcStatus r = (match execErr with Some _ => STATUS_FAILED | None => STATUS_COMPLETED end) /\
    rcFailureCode r = classifyReceiptFailure execErr /\
    (consoleSet w = true ->
     EDoc (Id (vtEnvelope vt)) (BuildReceiptRecord (log_clock e 4) (vtEnvelope vt) r) ∈ effects s').
Proof.
  intros H Hid Hkey Ht. destruct (Execute_up w e vt msg s H) as (sig & fsig & payload & cap & s' & Hup).
  destruct (handler e (EnvEventType (vtEnvelope vt)) payload cap) as [summary execErr] eqn:Hh.
  destruct Hup as (Hsig & Hex & Hlog).
  set (final := conclude w e vt (prepared_receipt w e vt sig 0%nat (commitments s)) summary execErr) in *.
  assert (Hfid : rcTransactionId final = Id (vtEnvelope vt) /\ rcSignerKeyId final = KeyID w /\ rcTransactionHash final = TransactionHash (vtEnvelope vt)).
  { unfold final, conclude, prepared_receipt. by destruct (auditStore w). }
  destruct Hfid as (Hfid & Hfk & Hfh).
  exists (sealed_receipt w e final fsig), payload, cap, s'. rewrite Hh. cbn [snd]. split_and!; try done.
  - by apply sealed_verifies.
  - apply sealed_attested; [done..|by rewrite Hfid|done|done].
  - intros Hc. apply Hlog. unfold log_entries. rewrite Hc.
    change (rcTransactionId (sealed_receipt w e final fsig)) with (rcTransactionId final). rewrite Hfid.
    apply elem_of_app. left. by apply list_elem_of_singleton.
Qed.
End actuator.

(** ** A concrete run *)

Open Scope list_scope.

#[local] Existing Instance toy_ed25519.

Definition ex_tx : VerifiedTransaction :=
  accepted_tx ex_warden first_call ex_env ex_expiry (CommandRequested "ls -la") ConsensusPosture true.

Definition ex_auditor : string := hex_encode (sha256 "auditor").

Definition ex_actuator : L5Actuator := {|
  auditStore := Some true; consoleSet := true; rootProviderSet := true; handlerSet := true;
  publisherSet := true; SigningKey := "warden"; KeyID := hex_encode (sha256 "warden");
  AuditorSigningKey := ex_auditor; AuditorKeyID := hex_encode (sha256 ex_auditor) |}.

Definition ex_now (n : nat) : gotime := ((1767322000 + Z.of_nat n) * 1000000000)%Z.

Definition ex_run_env : run_env := {|
  mono_ns := fun n => Z.of_nat (100 + n); clock := ex_now; log_clock := ex_now;
  root_before := Ok "root"; root_after := Ok "root2"; doc_answer := fun _ => Ok tt;
  audit_answer := fun _ => Ok tt; ledger_db := DefaultDBConfig; ledger_now := fun _ => 0%Z; ledger_attempts := fun _ => quiet_attempt;
  commit_clock := ex_now; random := Ok "0123456789abcdef";
  rehydrate := Some (fun p => Ok ("[" +:+ p +:+ "]"));
  handler := fun _ payload cap =>
    match payload with
    | Some p => ("ran " +:+ p, None)
    | None => ("", Some (Sentinel "ErrInferenceBackendTimeout"))
    end;
  publish_answer := Ok tt; error_text := fun _ => "error" |}.

Definition ex_world : world := {| effects := []; commitments := [] |}.

#[local] Instance CommitmentAttestation_eq_dec : EqDecision CommitmentAttestation.
Proof. solve_decision. Defined.

Definition ex_sig : string :=
  match signReceipt toy_marshal (SigningKey ex_actuator) (buildInitialReceipt ex_actuator ex_run_env ex_tx) with
  | Ok sig => sig
  | Err _ => ""
  end.

Definition ex_commitment : CommitmentAttestation := commitment_for ex_actuator ex_run_env ex_tx ex_sig 0%nat [].

(** A codec for the one attestation of the run. *)
Definition ex_marshal (a : CommitmentAttestation) : result string :=
  if decide (a = ex_commitment) then Ok "{}" else Err (Extern "protojson").
Definition ex_unmarshal_commitment (t : string) : result CommitmentAttestation :=
  if String.eqb t "{}" then Ok ex_commitment else Err (Extern "protojson").

Lemma ex_codec a t : ex_marshal a = Ok t -> ex_unmarshal_commitment t = Ok a.
Proof. unfold ex_marshal. destruct (decide (a = ex_commitment)) as [->|]; [|done]. by intros [= <-]. Qed.

Lemma ex_marshal_self : ex_marshal ex_commitment = Ok "{}".
Proof. unfold ex_marshal. by rewrite decide_True. Qed.

Notation ex_execution :=
  (Execute toy_marshal ex_marshal ex_unmarshal_commitment ex_actuator ex_run_env ex_tx (Some "ls") ex_world).

Example ex_executed :
  ex_execution.1.2 = None /\ List.length (List.filter is_handle (effects ex_execution.2)) = 1%nat /\
  List.length (effects ex_execution.2) = 9%nat /\ List.length (commitments ex_execution.2) = 1%nat.
Proof. vm_compute. repeat split. Qed.

Lemma execute_fail_closed_witness :
  (exists l err, effects ex_execution.2 = effects ex_world ++ l /\ quiet l /\ ex_execution.1 = (None, Some err)) \/
  exists sig i s1 payload cap tail,
    VerifyActionReceiptSignature toy_marshal (Some (initial_receipt ex_actuator ex_run_env ex_tx sig))
      (ed_public (SigningKey ex_actuator)) = Ok tt /\
    rcStatus (initial_receipt ex_actuator ex_run_env ex_tx sig) = STATUS_EXECUTING /\
    evidence ex_actuator ex_run_env ex_tx sig i ex_world s1 /\
    rehydratePayload ex_run_env (Some "ls") = Ok payload /\
    MintCapability (random ex_run_env) ex_tx (SigningKey ex_actuator) (KeyID ex_actuator) = Ok cap /\
    effects ex_execution.2 = effects s1 ++
      EHandle (EnvEventType (vtEnvelope ex_tx)) payload cap :: EDissolve (Dissolve cap) :: tail /\
    quiet tail /\ commitments ex_execution.2 = commitments s1.
Proof.
  apply (execute_fail_closed toy_marshal ex_marshal ex_unmarshal_commitment ex_actuator ex_run_env ex_tx
           (Some "ls") ex_world ex_execution.1 ex_execution.2).
  - exact ex_codec.
  - apply surjective_pairing.
Defined.

Lemma ex_healthy :
  healthy toy_marshal ex_marshal ex_unmarshal_commitment ex_actuator ex_run_env ex_tx (Some "ls") [].
Proof.
  split.
  - vm_compute. reflexivity.
  - intros _ n. exact eq_refl.
  - intros _ n. exact eq_refl.
  - intros x. exact eq_refl.
  - exact eq_refl.
  - exact eq_refl.
  - intros _. split; vm_compute; reflexivity.
  - intros _. split; [exact eq_refl|]. split; [exact eq_refl|]. intros sig Hsig. exists "{}".
    replace sig with ex_sig by (unfold ex_sig; by rewrite Hsig).
    split_and!; [apply ex_marshal_self | discriminate | exact eq_refl | exact eq_refl].
Qed.

Lemma execute_receipt_witness :
  exists r payload cap s',
    let execErr := (handler ex_run_env (EnvEventType (vtEnvelope ex_tx)) payload cap).2 in
    Execute toy_marshal ex_marshal ex_unmarshal_commitment ex_actuator ex_run_env ex_tx (Some "ls") ex_world
      = ((Some r, execErr), s') /\
    VerifyActionReceiptSignature toy_marshal (Some r) (ed_public (SigningKey ex_actuator)) = Ok tt /\
    VerifyReceiptPersistenceAttestation (Some r) (ed_public (SigningKey ex_actuator)) = Ok tt /\
    rcTransactionId r = Id (vtEnvelope ex_tx) /\ rcTransactionHash r = TransactionHash (vtEnvelope ex_tx) /\
    rcStatus r = (match execErr with Some _ => STATUS_FAILED | None => STATUS_COMPLETED end) /\
    rcFailureCode r = classifyReceiptFailure execErr /\
    (consoleSet ex_actuator = true ->
     EDoc (Id (vtEnvelope ex_tx)) (BuildReceiptRecord (log_clock ex_run_env 4) (vtEnvelope ex_tx) r) ∈ effects s').
Proof.
  apply (execute_receipt toy_marshal ex_marshal ex_unmarshal_commitment ex_actuator ex_run_env ex_tx (Some "ls") ex_world).
  - exact ex_healthy.
  - vm_compute. discriminate.
  - vm_compute. discriminate.
  - vm_compute. reflexivity.
Defined.

Lemma execute_ledger_chained_witness :
  chained (commitments ex_execution.2) /\
  (exists new, commitments ex_execution.2 = new ++ commitments ex_world /\ (List.length new <= 1)%nat) /\
  forall rejection, commitments (RecordRejectedTransaction toy_marshal ex_actuator ex_run_env ex_tx rejection ex_world).2
    = commitments ex_world.
Proof.
  apply (execute_ledger_chained toy_marshal ex_marshal ex_unmarshal_commitment ex_actuator ex_run_env ex_tx
           (Some "ls") ex_world).
  - exact ex_codec.
  - exact I.
Defined.
