(* ===== verification/Pipeline.v ===== *)
(** The pipeline from end to end: the warden's stages, the actuator's stages and the
    audit of the receipt that carries them.

    The theorems compose [Warden.VerifyEnvelope], [Actuator.Execute] (or
    [RecordRejectedTransaction]) and [Chain.ValidateDeterministicProtocolChain] as
    the dispatcher and a verifier of receipts do. *)
From S2P Require Import Prelude Errors Encoding Sha256 Timestamp Constants Envelope Posture Crypto.
From S2P Require Import L2Consensus Doctrine Replay Receipt Payload Warden Capability Commitment Chain Actuator.
From Stdlib Require Import String List ZArith Lia Bool.
From stdpp Require Import base strings list gmap.
Open Scope string_scope.
Open Scope list_scope.

(** ** Stage records of one envelope *)

(** What every stage record of an envelope has, whatever its kind. *)
Record stage_for (env : GovernanceEnvelope) (s : StageEvidence) : Prop := {
  sf_id : stStageId s = deterministicStageID env (stKind s);
  sf_tx : stTransactionId s = Id env /\ stTransactionHash s = TransactionHash env;
  sf_action : stActionType s = EnvActionType env;
  sf_identity : identity_values s = [OperatorId env; OperatorSessionId env; RequestorUserId env;
    ActingAppId env; CaseId env; InvestigationId env; TaskId env];
  sf_kind : (0 <= deterministicStageKindIndex (stKind s))%Z
}.

Lemma new_stage_for env k a b o d :
  (0 <= deterministicStageKindIndex k)%Z -> stage_for env (newDeterministicStageEvidence env k a b o d).
Proof. intros H. by split. Qed.

Lemma set_parent_for env p s : stage_for env s -> stage_for env (set_parent p s).
Proof. intros [H1 H2 H3 H4 H5]. by split. Qed.

Lemma set_root_for env r s : stage_for env s -> stage_for env (set_root_after r s).
Proof. intros [H1 H2 H3 H4 H5]. by split. Qed.

Lemma adopt_for env p s : stage_for env s -> stage_for env (adopt p s).
Proof. intros H. unfold adopt. destruct (stKind s); first [done | by apply set_parent_for]. Qed.

Lemma close_stages_for env l l4 :
  Forall (stage_for env) l -> stage_for env l4 -> Forall (stage_for env) (close_stages l l4).
Proof.
  intros Hl H4. apply Forall_app. split; [|by constructor].
  apply Forall_map. eapply Forall_impl; [exact Hl|]. intros s Hs. by apply set_parent_for.
Qed.

(** Ids are texts, and the kinds of the order have different names. *)
Lemma stage_id_set env k : str_nonempty (deterministicStageID env k) = true.
Proof.
  apply str_nonempty_true. unfold deterministicStageID. intros H. apply (f_equal String.length) in H.
  rewrite !string_app_length in H. simpl in H. lia.
Qed.

Lemma stage_id_inj env k k' :
  (0 <= deterministicStageKindIndex k)%Z -> (0 <= deterministicStageKindIndex k')%Z ->
  deterministicStageID env k = deterministicStageID env k' -> k = k'.
Proof.
  intros Hk Hk' H. unfold deterministicStageID in H.
  apply string_app_split in H as [_ H]; [|done].
  apply string_app_split in H as [_ H]; [|done].
  destruct k, k'; try done; by vm_compute in Hk || by vm_compute in Hk'.
Qed.

Lemma check_stages_for env r seen stages :
  rcTransactionId r = Id env -> rcTransactionHash r = TransactionHash env ->
  Forall (stage_for env) stages -> Forall (fun k => 0 <= deterministicStageKindIndex k)%Z seen ->
  NoDup (map stKind stages ++ seen) ->
  check_stages r (map (deterministicStageID env) seen) seen stages = Ok tt.
Proof.
  intros Hi Hh Hs. revert seen. induction Hs as [|s stages [Hid [Htx Hth] _ _ Hk] _ IH]; intros seen Hseen Hnd; [done|].
  simpl in Hnd. apply NoDup_cons in Hnd as [Hin Hnd].
  assert (Hks : stKind s ∉ seen) by (intros H; apply Hin, elem_of_app; by right).
  assert (Hids : mem (stStageId s) (map (deterministicStageID env) seen) = false).
  { apply bool_decide_eq_false. rewrite Hid. intros (k & He & Hk')%list_elem_of_fmap.
    rewrite Forall_forall in Hseen. by rewrite (stage_id_inj _ _ _ Hk (Hseen k Hk') He) in Hks. }
  simpl. rewrite Hids, (proj2 (Z.leb_le _ _) Hk). rewrite Hid at 1. rewrite stage_id_set. cbn [require rbind negb].
  rewrite Htx, Hth, Hi, Hh, !String.eqb_refl. cbn [require rbind andb].
  replace (mem (stKind s) seen) with false by (symmetry; by apply bool_decide_eq_false).
  cbn [require rbind negb]. rewrite Hid. apply (IH (stKind s :: seen)); [by constructor|].
  rewrite <- Permutation_middle. by apply NoDup_cons.
Qed.

Lemma all_same_const v l : Forall (eq v) l -> all_same l = true.
Proof.
  intros H. unfold all_same. induction H as [|x l <- Hl IH]; [done|]. simpl.
  destruct (str_nonempty v); [|done]. clear IH. induction Hl as [|x l <- _ IH]; [done|]. simpl.
  destruct (str_nonempty v); simpl; [by rewrite String.eqb_refl|done].
Qed.

Lemma identity_for env stages :
  Forall (stage_for env) stages -> validateDeterministicIdentityConsistency stages = "".
Proof.
  intros H. unfold validateDeterministicIdentityConsistency.
  assert (Hall : forall i, all_same (map (fun s => nth i (identity_values s) "") stages) = true).
  { intros i. apply (all_same_const (nth i [OperatorId env; OperatorSessionId env; RequestorUserId env;
      ActingAppId env; CaseId env; InvestigationId env; TaskId env] "")).
    apply Forall_map. eapply Forall_impl; [exact H|]. intros s Hs. by rewrite (sf_identity _ _ Hs). }
  by rewrite (proj2 (forallb_forall _ _) (fun i _ => Hall i)).
Qed.

Lemma action_type_for env acc stages :
  EnvActionType env <> "" -> Forall (stage_for env) stages ->
  (acc = "" /\ stages <> [] \/ acc = EnvActionType env) ->
  stages_action_type acc stages = Ok (EnvActionType env).
Proof.
  intros Hne H. revert acc. induction H as [|s stages Hs _ IH]; intros acc Hacc; simpl.
  - destruct Hacc as [[_ ?]| ->]; [done|]. by rewrite (proj2 (String.eqb_neq _ _) Hne).
  - rewrite (sf_action _ _ Hs), (proj2 (String.eqb_neq _ _) Hne), IH by by right.
    destruct Hacc as [[-> _]| ->]; [done|]. by rewrite String.eqb_refl, andb_false_r.
Qed.

(** Stage records of one envelope, of distinct kinds in order, are normal. *)
Lemma normalize_for env r :
  rcTransactionId r = Id env -> rcTransactionHash r = TransactionHash env -> EnvActionType env <> "" ->
  Forall (stage_for env) (rcStages r) -> rcStages r <> [] ->
  NoDup (map stKind (rcStages r)) -> in_order (rcStages r) = true ->
  NormalizeDeterministicStages (Some r) = Ok (rcStages r).
Proof.
  intros Hi Hh Ha Hs Hne Hnd Ho. unfold NormalizeDeterministicStages, DeterministicStageActionType.
  rewrite (action_type_for env) by auto. destruct (rcStages r) as [|s l] eqn:Hr; [done|].
  assert (Hc : check_stages r [] [] (s :: l) = Ok tt).
  { apply (check_stages_for env r []); try done. by rewrite app_nil_r. }
  rewrite Hc, Ho. done.
Qed.

(** The seven stages of a complete chain. *)
Record complete_chain (r : ActionReceipt) (stages : list StageEvidence) : Prop := {
  cc_kinds : map stKind stages = deterministicStageOrder;
  cc_l1 : outcome_of (stage_of stages L1_DOCTRINE) = VERIFIED;
  cc_l4 : outcome_of (stage_of stages L4_VERIFICATION) = VERIFIED;
  cc_persisted : outcome_of (stage_of stages RECEIPT_PERSISTENCE) = COMPLETED;
  cc_committed : outcome_of (stage_of stages COMMITMENT_APPEND) = COMPLETED;
  cc_executed : expected_execution (rcStatus r) = Some (outcome_of (stage_of stages L5_EXECUTION));
  cc_roots : forall s, stage_of stages L5_EXECUTION = Some s ->
    stStateRootBefore s = rcStateRootBefore r /\ stStateRootAfter s = rcStateRootAfter r;
  cc_parents : Forall (fun kp => parent_of (stage_of stages kp.1) = kp.2)
    (expected_parents (id_of (stage_of stages L4_VERIFICATION)) (id_of (stage_of stages L5_EXECUTION)))
}.

Lemma stage_of_kind stages k : k ∈ map stKind stages -> exists s, stage_of stages k = Some s.
Proof.
  intros (s & -> & Hs)%list_elem_of_fmap. unfold stage_of.
  destruct (List.find _ stages) as [s'|] eqn:Hf; [by eexists|].
  apply list_elem_of_In in Hs. apply (find_none _ _ Hf) in Hs. by rewrite bool_decide_eq_false in Hs.
Qed.

Lemma complete_chain_verified r stages :
  complete_chain r stages -> validateVerifiedDeterministicChain r stages = "".
Proof.
  intros [Hk H1 H4 Hp Hc He Hr Hpar]. unfold validateVerifiedDeterministicChain.
  assert (Hall : forallb (fun k => match stage_of stages k with Some _ => true | None => false end)
                   deterministicStageOrder = true).
  { apply forallb_forall. intros k Hin. apply list_elem_of_In in Hin. rewrite <- Hk in Hin.
    by destruct (stage_of_kind _ _ Hin) as [s ->]. }
  rewrite Hall, H1, Hp, Hc, !bool_decide_true by done. cbn [negb].
  destruct (stage_of_kind stages L5_EXECUTION) as [l5 H5].
  { rewrite Hk. unfold deterministicStageOrder. set_solver. }
  rewrite H5 in He, Hpar. rewrite He, H5. cbn [outcome_of id_of] in *.
  destruct (Hr l5 H5) as [-> ->]. rewrite bool_decide_true, !String.eqb_refl by done. cbn [negb andb].
  replace (forallb _ _) with true; [done|]. symmetry. apply forallb_forall.
  intros kp Hin. rewrite Forall_forall in Hpar. apply String.eqb_eq, Hpar. by apply list_elem_of_In.
Qed.

Lemma incomplete_chain r stages :
  COMMITMENT_APPEND ∉ map stKind stages -> validateVerifiedDeterministicChain r stages <> "".
Proof.
  intros Hno. unfold validateVerifiedDeterministicChain.
  replace (forallb _ deterministicStageOrder) with false; [done|]. symmetry.
  apply not_true_iff_false. rewrite forallb_forall. intros H.
  specialize (H COMMITMENT_APPEND ltac:(simpl; tauto)).
  destruct (stage_of stages COMMITMENT_APPEND) as [s|] eqn:Hs; [|done].
  unfold stage_of in Hs. apply find_some in Hs as [Hin Hk]. apply bool_decide_eq_true in Hk.
  apply Hno. rewrite <- Hk. apply list_elem_of_fmap. exists s. split; [done|]. by apply list_elem_of_In.
Qed.

(** ** Executed transactions *)

Section executed.
Context `{Ed : Ed25519}.
Context (unmarshal : string -> string -> result Message).
Context {S E : Type} `{RS : ReplayStore S E}.
Context (marshal_stage marshal_canonical : StageEvidence -> result string).
Context (marshal_commitment : CommitmentAttestation -> result string)
        (unmarshal_commitment : string -> result CommitmentAttestation).

(** The stages of an accepted transaction after its execution. *)
Definition executed_stages (w : L5Actuator) (e : run_env) (vt : VerifiedTransaction) (r : ActionReceipt)
    (after : string) (execErr : option gerr) : list StageEvidence :=
  let stage := execution_stage e (vtEnvelope vt) r execErr in
  map (adopt (stStageId stage)) (rcStages r) ++ [set_root_after after stage].

Lemma accepted_stages_for tv (c : call E) env t m p l2 :
  Forall (stage_for env) (vtStages (accepted_tx tv c env t m p l2)).
Proof.
  apply close_stages_for; [repeat constructor|]; by apply new_stage_for.
Qed.

Lemma prepared_stages_for w e vt sig i l :
  Forall (stage_for (vtEnvelope vt)) (vtStages vt) ->
  Forall (stage_for (vtEnvelope vt)) (rcStages (prepared_receipt w e vt sig i l)).
Proof.
  intros H. unfold prepared_receipt.
  assert (H1 : Forall (stage_for (vtEnvelope vt))
    (vtStages vt ++ [persistence_stage e (vtEnvelope vt) (initial_receipt w e vt sig)])).
  { apply Forall_app. split; [done|]. constructor; [by apply new_stage_for|done]. }
  destruct (auditStore w); [|done]. apply Forall_app. split; [exact H1|].
  constructor; [by apply new_stage_for|done].
Qed.

Lemma executed_stages_for w e vt r after execErr :
  Forall (stage_for (vtEnvelope vt)) (rcStages r) ->
  Forall (stage_for (vtEnvelope vt)) (executed_stages w e vt r after execErr).
Proof.
  intros H. apply Forall_app. split.
  - apply Forall_map. eapply Forall_impl; [exact H|]. intros s. apply adopt_for.
  - constructor; [|done]. by apply set_root_for, new_stage_for.
Qed.

(** The layer's outcome agrees with the receipt's status exactly when the posture
    asks for what was achieved. *)
Lemma layer_agrees required valid :
  layer_outcome valid = deterministicStatusOutcome (layer_status required valid) <-> valid = required.
Proof. by destruct required, valid. Qed.

(** The chain of an execution with an audit store is complete. *)
Lemma executed_complete w e tv (c : call E) env t m p l2 sig i l after execErr r b :
  auditStore w = Some b ->
  rcStatus r = (match execErr with Some _ => STATUS_FAILED | None => STATUS_COMPLETED end) ->
  rcStateRootBefore r = root_text (rootProviderSet w) (root_before e) -> rcStateRootAfter r = after ->
  let vt := accepted_tx tv c env t m p l2 in
  complete_chain r (executed_stages w e vt (prepared_receipt w e vt sig i l) after execErr).
Proof.
  intros Ha Hs Hb Hr vt. unfold executed_stages, prepared_receipt. rewrite Ha. split; try reflexivity.
  - rewrite Hs. by destruct execErr.
  - intros s [= <-]. by rewrite Hb, Hr.
  - repeat constructor.
Qed.

(** Acceptance of a chain that passes the layer checks. *)
Lemma audit_verified env r l4 :
  (forall s, is_ok (marshal_canonical s) = true) ->
  rcTransactionId r = Id env -> rcTransactionHash r = TransactionHash env -> EnvActionType env <> "" ->
  Forall (stage_for env) (rcStages r) -> NoDup (map stKind (rcStages r)) -> in_order (rcStages r) = true ->
  stage_of (rcStages r) L4_VERIFICATION = Some l4 ->
  is_ok (ValidateDeterministicProtocolChain marshal_canonical (Some r)) = true <->
  validateDeterministicPostureStageOutcomes (rcStages r) r = "" /\ validate_by_outcome r (rcStages r) l4 = "".
Proof.
  intros Hm Hi Hh Ha Hs Hnd Ho H4. rewrite chain_accepts by done. split.
  - intros (l4' & _ & H4' & _ & Hp & Hv). rewrite H4 in H4'. by injection H4' as <-.
  - intros [Hp Hv]. exists l4. split_and!; try done.
    + apply (normalize_for env); try done. by intros Hn; rewrite Hn in H4.
    + by apply (identity_for env).
Qed.

Lemma posture_outcomes_iff stages r s2 s3 :
  stage_of stages PROTOCOL_L2 = Some s2 -> stage_of stages L3_NOTARY = Some s3 ->
  validateDeterministicPostureStageOutcomes stages r = "" <->
  stOutcome s2 = deterministicStatusOutcome (rcL2Status r) /\ stOutcome s3 = deterministicStatusOutcome (rcL3Status r).
Proof.
  intros H2 H3. unfold validateDeterministicPostureStageOutcomes. rewrite H2, H3.
  split.
  - intros H. case_in H. bools. done.
  - intros [H H']. by rewrite !bool_decide_true by done.
Qed.

(** C37: Auditing an executed transaction.  The receipt the actuator returns for an
    envelope the warden accepted passes the protocol-chain audit exactly when the
    actuator has its audit store and each layer was achieved exactly where the
    posture asks for it: consensus reached without being required, or an exemption
    from a required layer, makes the audit refuse the pipeline's own receipt. *)
Theorem executed_chain_audit tv (c : call E) env (st : warden_state S) vt st' w e msg s r err s' :
  VerifyEnvelope unmarshal tv c (Some env) st = (Some vt, None, st') -> EnvActionType env <> "" ->
  healthy marshal_stage marshal_commitment unmarshal_commitment w e vt msg (commitments s) ->
  (forall s, is_ok (marshal_canonical s) = true) ->
  Execute marshal_stage marshal_commitment unmarshal_commitment w e vt msg s = ((Some r, err), s') ->
  is_ok (ValidateDeterministicProtocolChain marshal_canonical (Some r)) = true <->
  auditStore w <> None /\
  Some (vtL2Valid vt, vtL3Valid vt) =
    option_map (fun p => (RequiresL2Signature p, RequiresL3Proof p)) (vtPosture vt).
Proof.
  intros Hv Ha Hup Hm Hex.
  apply VerifyEnvelope_Ok in Hv as (t & s0 & m & p & l2 & _ & Hok & [= ->] & _). clear Hok.
  destruct (Execute_up _ _ _ w e _ msg s Hup) as (sig & fsig & payload & cap & s2 & H).
  destruct (handler e _ payload cap) as [summary execErr]. destruct H as (_ & Hex' & _).
  rewrite Hex in Hex'. injection Hex' as -> _ _.
  set (vt := accepted_tx tv c env t m p l2) in *.
  set (final := conclude w e vt (prepared_receipt w e vt sig 0%nat (commitments s)) summary execErr).
  set (r := sealed_receipt w e final fsig).
  assert (Hst : rcStages r = executed_stages w e vt (prepared_receipt w e vt sig 0%nat (commitments s))
                               (rcStateRootAfter r) execErr) by reflexivity.
  assert (Hfor : Forall (stage_for env) (rcStages r)).
  { rewrite Hst. apply (executed_stages_for w e vt), prepared_stages_for, accepted_stages_for. }
  assert (Hstat : rcTransactionId r = Id env /\ rcTransactionHash r = TransactionHash env /\
    rcStateRootBefore r = root_text (rootProviderSet w) (root_before e) /\
    rcStatus r = (match execErr with Some _ => STATUS_FAILED | None => STATUS_COMPLETED end) /\
    rcL2Status r = layer_status (RequiresL2Signature p) l2 /\
    rcL3Status r = layer_status (RequiresL3Proof p) (l3_verified tv env)).
  { unfold r, final, conclude, prepared_receipt. by destruct (auditStore w). }
  destruct Hstat as (Hi & Hh & Hb & Hs & Hl2 & Hl3).
  assert (Hkinds : map stKind (rcStages r) =
    [L1_DOCTRINE; PROTOCOL_L2; L3_NOTARY; L4_VERIFICATION; RECEIPT_PERSISTENCE] ++
    (if auditStore w then [COMMITMENT_APPEND] else []) ++ [L5_EXECUTION]).
  { rewrite Hst. unfold executed_stages, prepared_receipt. by destruct (auditStore w). }
  assert (Hord : in_order (rcStages r) = true).
  { rewrite Hst. unfold executed_stages, prepared_receipt. by destruct (auditStore w). }
  assert (Hfind : exists s2 s3 l4, stage_of (rcStages r) PROTOCOL_L2 = Some s2 /\
    stage_of (rcStages r) L3_NOTARY = Some s3 /\ stage_of (rcStages r) L4_VERIFICATION = Some l4 /\
    stOutcome s2 = layer_outcome l2 /\ stOutcome s3 = layer_outcome (l3_verified tv env) /\ stOutcome l4 = VERIFIED).
  { rewrite Hst. unfold executed_stages, prepared_receipt. destruct (auditStore w); do 3 eexists; by split_and!. }
  destruct Hfind as (st2 & st3 & l4 & H2 & H3 & H4 & Ho2 & Ho3 & Ho4).
  rewrite (audit_verified env r l4); try done.
  2:{ rewrite Hkinds. destruct (auditStore w); apply (bool_decide_unpack _); reflexivity. }
  rewrite (posture_outcomes_iff _ _ st2 st3), Hl2, Hl3, Ho2, Ho3, !layer_agrees by done.
  unfold validate_by_outcome. rewrite Ho4. cbn [option_map vtPosture vt accepted_tx vtL2Valid vtL3Valid].
  destruct (auditStore w) as [b|] eqn:Haud.
  - assert (Hc : validateVerifiedDeterministicChain r (rcStages r) = "").
    { apply complete_chain_verified. rewrite Hst. by apply (executed_complete _ _ _ _ _ _ _ _ _ _ _ _ _ _ _ b). }
    split; [intros [[-> ->] _]; by split | intros [_ [= -> ->]]; by repeat split].
  - split; [|by intros []]. intros [_ Hbad]. exfalso. revert Hbad. apply incomplete_chain.
    rewrite Hkinds. intros Hin. by vm_compute in Hin; set_solver.
Qed.
End executed.

(** ** Rejected transactions *)

Section rejected.
Context `{Ed : Ed25519}.
Context (unmarshal : string -> string -> result Message).
Context {S E : Type} `{RS : ReplayStore S E}.
Context (marshal_stage marshal_canonical : StageEvidence -> result string).

Lemma signAndLogFinalReceipt_done w e vt r s r' s' :
  signAndLogFinalReceipt marshal_stage w e vt r s = ((r', None), s') -> exists sig, r' = sealed_receipt w e r sig.
Proof.
  unfold signAndLogFinalReceipt, wrapping. destruct (signReceipt _ _ _) as [sig|]; [|done].
  destruct (LogReceipt w e 1 _ _ _) as [[?|] ?]; [|done]. destruct (LogReceipt w e 2 _ _ _) as [[?|] ?]; [|done].
  intros [= <- _]. by exists sig.
Qed.

Lemma RecordRejectedTransaction_done w e vt rejection s r s' :
  RecordRejectedTransaction marshal_stage w e vt rejection s = ((Some r, None), s') ->
  exists sig, r = sealed_receipt w e (rejection_receipt w e vt rejection) sig.
Proof.
  unfold RecordRejectedTransaction. destruct (negb _); [done|].
  destruct (signAndLogFinalReceipt _ _ _ _ _ s) as [[r' [err|]] s1] eqn:H; [done|].
  apply signAndLogFinalReceipt_done in H as [sig ->]. intros H. exists sig.
  destruct (publisherSet w); [destruct (publish_answer e)|]; by injection H.
Qed.

Lemma verifyL2Posture_Err ss ps env h p err :
  verifyL2Posture ss ps env h p = Err err -> RequiresL2Signature p = true.
Proof.
  unfold verifyL2Posture. destruct (RequiresL2Signature p); [done|]. cbn [andb negb].
  intros H. repeat (case_match; try done).
Qed.

(** The stages a rejection can leave, with the posture and the L2 verdict. *)
Inductive rejected_shape (tv : L4Warden) (c : call E) (env : GovernanceEnvelope) :
    list StageEvidence -> option GovernancePosture -> bool -> Prop :=
| shape_nonce : rejected_shape tv c env [] None false
| shape_doctrine : rejected_shape tv c env [l1_stage tv c env FAILED] None false
| shape_state : rejected_shape tv c env [l1_stage tv c env VERIFIED] None false
| shape_consensus p : RequiresL2Signature p = true ->
    rejected_shape tv c env [l1_stage tv c env VERIFIED; l2_stage c env FAILED] (Some p) false
| shape_notary p l2 : RequiresL3Proof p = true ->
    rejected_shape tv c env
      [l1_stage tv c env VERIFIED; l2_stage c env (layer_outcome l2); l3_stage c env FAILED] (Some p) l2.

Lemma VerifyEnvelope_rejected tv c env (st : warden_state S) vt err st' :
  VerifyEnvelope unmarshal tv c (Some env) st = (Some vt, Some err, st') ->
  exists last stages posture l2, vt = rejected c env last posture l2 false stages /\
    rejected_shape tv c env stages posture l2.
Proof.
  unfold VerifyEnvelope. destruct (admit_nonce tv c env st) as [[t|e] st1].
  2:{ intros [= <- _ _]. do 4 eexists. split; [reflexivity|constructor]. }
  unfold verify_reserved.
  destruct (verifyStateless unmarshal tv env) as [[m h]|e].
  2:{ intros [= <- _ _]. do 4 eexists. split; [reflexivity|constructor]. }
  destruct (verifyStateful tv _ env) as [u|e].
  2:{ intros [= <- _ _]. do 4 eexists. split; [reflexivity|constructor]. }
  destruct (postureFromEnvelope env) as [p|e].
  2:{ intros [= <- _ _]. do 4 eexists. split; [reflexivity|constructor]. }
  unfold verifyPosture. destruct (verifyL2Posture _ _ _ _ _) as [l2|e] eqn:H2.
  2:{ intros [= <- _ _]. do 4 eexists. split; [reflexivity|]. by eapply shape_consensus, verifyL2Posture_Err. }
  destruct (verifyL3Posture tv env p) as [l3|e] eqn:H3; [done|].
  intros [= <- _ _]. do 4 eexists. split; [reflexivity|]. apply shape_notary.
  unfold verifyL3Posture in H3. destruct (RequiresL3Proof p); [done|]. rewrite andb_false_r in H3.
  repeat (case_match; try done); bools; done.
Qed.

Lemma rejected_stages_for tv (c : call E) env last stages posture l2 :
  rejected_shape tv c env stages posture l2 ->
  Forall (stage_for env) (close_stages stages (l4_stage c last env FAILED)).
Proof.
  intros H. apply close_stages_for; [|by apply new_stage_for].
  destruct H; repeat constructor; by apply new_stage_for.
Qed.

(** The checks on a rejection's stages, by its shape. *)
Lemma rejected_shape_audit tv (c : call E) env last stages posture l2 r :
  rejected_shape tv c env stages posture l2 ->
  rcStatus r = STATUS_FAILED ->
  rcL2Status r = layer_status (posture_requires posture RequiresL2Signature) l2 ->
  rcL3Status r = layer_status (posture_requires posture RequiresL3Proof) false ->
  let all := close_stages stages (l4_stage c last env FAILED) in
  (validateDeterministicPostureStageOutcomes all r = "" /\ validateRejectedDeterministicChain r all = "") <->
  (List.length stages = 3%nat -> Some l2 = option_map RequiresL2Signature posture).
Proof.
  intros Hs Hst H2 H3 all. unfold all, validateDeterministicPostureStageOutcomes, validateRejectedDeterministicChain, expected_outcome.
  rewrite Hst, H2, H3. clear Hst H2 H3.
  destruct Hs as [| | |p Hp|p l2 Hp]; cbn [posture_requires option_map];
    try (split; [intros _; discriminate | intros _; split; [done|]; cbn; by rewrite ?String.eqb_refl]).
  - rewrite Hp. split; [intros _; discriminate|]. intros _. split; [done|]. cbn. by rewrite ?String.eqb_refl.
  - rewrite Hp. destruct l2, (RequiresL2Signature p) eqn:Hq; cbn [option_map].
    + split; [done|]. intros _. split; [done|]. cbn. by rewrite ?String.eqb_refl.
    + split; [intros [H _]; discriminate H | intros H; discriminate (H eq_refl)].
    + split; [intros [H _]; discriminate H | intros H; discriminate (H eq_refl)].
    + split; [done|]. intros _. split; [done|]. cbn. by rewrite ?String.eqb_refl.
Qed.

(** Auditing a rejected transaction.  Every rejection the actuator records for
    the warden passes the protocol-chain audit, except one refused by the notary
    whose L2 verdict is not the one its posture asks for. *)
Theorem rejected_chain_audit tv (c : call E) env (st : warden_state S) vt err st' w e rejection s r s' :
  VerifyEnvelope unmarshal tv c (Some env) st = (Some vt, Some err, st') -> EnvActionType env <> "" ->
  (forall s, is_ok (marshal_canonical s) = true) ->
  RecordRejectedTransaction marshal_stage w e vt rejection s = ((Some r, None), s') ->
  is_ok (ValidateDeterministicProtocolChain marshal_canonical (Some r)) = true <->
  (map stKind (vtStages vt) = [L1_DOCTRINE; PROTOCOL_L2; L3_NOTARY; L4_VERIFICATION] ->
   Some (vtL2Valid vt) = option_map RequiresL2Signature (vtPosture vt)).
Proof.
  intros Hv Ha Hm Hr.
  apply VerifyEnvelope_rejected in Hv as (last & stages & posture & l2 & -> & Hshape).
  apply RecordRejectedTransaction_done in Hr as [sig ->].
  pose proof (rejected_stages_for tv c env last stages posture l2 Hshape) as Hfor.
  set (l4 := l4_stage c last env FAILED) in *.
  assert (H4 : stage_of (close_stages stages l4) L4_VERIFICATION = Some l4) by by destruct Hshape.
  rewrite (audit_verified marshal_canonical env _ l4); try done.
  2:{ destruct Hshape; apply (bool_decide_unpack _); reflexivity. }
  2:{ by destruct Hshape. }
  eapply iff_trans.
  { exact (rejected_shape_audit tv c env last stages posture l2
      (sealed_receipt w e (rejection_receipt w e (rejected c env last posture l2 false stages) rejection) sig) Hshape eq_refl eq_refl eq_refl). }
  destruct Hshape; cbn; naive_solver.
Qed.
End rejected.

(** ** Concrete audits *)

#[local] Existing Instance toy_ed25519.

Notation ex_verified := (VerifyEnvelope ex_unmarshal ex_warden first_call (Some ex_env) ex_state).

Definition ex_receipt : ActionReceipt :=
  match ex_execution.1.1 with Some r => r | None => sample_receipt "" end.

Lemma executed_chain_audit_witness :
  is_ok (ValidateDeterministicProtocolChain toy_marshal (Some ex_receipt)) = true <->
  auditStore ex_actuator <> None /\
  Some (vtL2Valid ex_tx, vtL3Valid ex_tx) =
    option_map (fun p => (RequiresL2Signature p, RequiresL3Proof p)) (vtPosture ex_tx).
Proof.
  apply (executed_chain_audit ex_unmarshal toy_marshal toy_marshal ex_marshal ex_unmarshal_commitment
    ex_warden first_call ex_env ex_state ex_tx ex_verified.2 ex_actuator ex_run_env (Some "ls") ex_world
    ex_receipt None ex_execution.2).
  - vm_compute. reflexivity.
  - vm_compute. discriminate.
  - exact ex_healthy.
  - intros s. exact eq_refl.
  - vm_compute. reflexivity.
Defined.

(** The run above passes; for a transaction whose posture does not ask for the
    consensus it reached the audit refuses the receipt. *)
Definition ex_unasked : VerifiedTransaction :=
  accepted_tx ex_warden first_call ex_env ex_expiry (CommandRequested "ls -la") DoctrinePosture true.

Definition ex_unasked_receipt : option ActionReceipt :=
  (Execute toy_marshal (fun _ => Ok "{}") (fun _ => Ok ex_commitment) ex_actuator ex_run_env ex_unasked
    (Some "ls") ex_world).1.1.

Example ex_audited :
  is_ok (ValidateDeterministicProtocolChain toy_marshal (Some ex_receipt)) = true /\
  is_ok (ValidateDeterministicProtocolChain toy_marshal ex_unasked_receipt) = false.
Proof. vm_compute. split; reflexivity. Qed.

Notation ex_blocked := (VerifyEnvelope ex_unmarshal ex_warden first_call (Some blocked_env) busy_state).

Definition ex_rejected : VerifiedTransaction :=
  match ex_blocked.1.1 with Some vt => vt | None => ex_tx end.
Definition ex_rejection : gerr := Errorf "%w: %s" [Sentinel "ErrTxL1ValidationFailed"].

Notation ex_recorded := (RecordRejectedTransaction toy_marshal ex_actuator ex_run_env ex_rejected ex_rejection ex_world).

Definition ex_rejected_receipt : ActionReceipt :=
  match ex_recorded.1.1 with Some r => r | None => sample_receipt "" end.

Lemma rejected_chain_audit_witness :
  is_ok (ValidateDeterministicProtocolChain toy_marshal (Some ex_rejected_receipt)) = true <->
  (map stKind (vtStages ex_rejected) = [L1_DOCTRINE; PROTOCOL_L2; L3_NOTARY; L4_VERIFICATION] ->
   Some (vtL2Valid ex_rejected) = option_map RequiresL2Signature (vtPosture ex_rejected)).
Proof.
  apply (rejected_chain_audit ex_unmarshal toy_marshal toy_marshal ex_warden first_call blocked_env busy_state
    ex_rejected ex_rejection ex_blocked.2 ex_actuator ex_run_env ex_rejection ex_world ex_rejected_receipt
    ex_recorded.2).
  - vm_compute. reflexivity.
  - discriminate.
  - intros s. exact eq_refl.
  - vm_compute. reflexivity.
Defined.
