(* ===== verification/AuditChain.v ===== *)
(** The audit event chain ([src/internal/services/storage/audit_chain.go],
    and the recording operations of [audit_store.go]).

    The database is a record of its tables.  Events are chained by hashes over their
    metadata and a digest of their content; pruning deletes a prefix behind a
    checkpoint; verification recomputes the chain after the latest checkpoint.
    The vault that encrypts content is an argument.  The flags that only the listing
    queries read are left out. *)
From S2P Require Import Prelude Errors Encoding Sha256 Sqlite Timestamp TimeParse JsonEncode EventRegistry.
From Stdlib Require Import String Ascii List ZArith Lia Bool.
From stdpp Require Import base strings list sorting pretty.
Open Scope string_scope.

Definition auditChainGenesisPrevHash : string :=
  "0000000000000000000000000000000000000000000000000000000000000000".
Definition auditChainHashVersion : string := "g8e-audit-v1".

(** ** Events and tables *)

(** The fields of [Event] that recording reads; [Type] and the integers as text and Z. *)
Record Event := {
  evTransactionID : string; evSessionID : string; evTimestamp : gotime; evType : string;
  evContentText : string; evCommandRaw : string; evExitCode : Z; evStdout : string; evStderr : string;
  evDurationMs : Z
}.

(** A row of [events]; an absent text is empty. *)
Record event_row := {
  erId : Z; erSeq : option Z; erPrevHash : string; erDigest : string; erHash : string;
  erTransactionID : string; erSession : string; erTimestamp : string; erType : string;
  erContent : string; erCommandRaw : string; erExitCode : option Z; erStdout : string; erStderr : string;
  erDurationMs : option Z; erEncrypted : bool
}.

Record checkpoint_row := {
  cpThroughSeq : Z; cpThroughHash : string; cpCount : Z; cpHash : string; cpCreatedAt : string
}.

(** Newest rows last; [next_id] is AUTOINCREMENT's counter. *)
Record audit_db := {
  sessions : list string; events : list event_row; checkpoints : list checkpoint_row; next_id : Z
}.

Definition empty_db : audit_db := {| sessions := []; events := []; checkpoints := []; next_id := 1 |}.

(** ** Digests *)

Definition digest_members (ev : Event) : list (string * jval) :=
  [("content_text", JS (evContentText ev)); ("command_raw", JS (evCommandRaw ev));
   ("command_exit_code", JI (evExitCode ev)); ("command_stdout", JS (evStdout ev));
   ("command_stderr", JS (evStderr ev)); ("execution_duration_ms", JI (evDurationMs ev))].

Definition computeEventContentDigest (ev : Event) : string := sha256_hex (json_object (digest_members ev)).

Definition audit_canonical (seq : Z) (prevHash eventType sessionID timestamp contentDigest transactionID : string)
    : string :=
  str_join "|" [auditChainHashVersion; pretty seq; prevHash; eventType; sessionID; timestamp; contentDigest; transactionID].

Definition computeAuditEventHash (seq : Z) (prevHash eventType sessionID timestamp contentDigest transactionID : string)
    : string := sha256_hex (audit_canonical seq prevHash eventType sessionID timestamp contentDigest transactionID).

(** ** Queries *)

(** The rows with a sequence number, with it. *)
Definition chained_rows (l : list event_row) : list (Z * event_row) :=
  omap (fun r => match erSeq r with Some s => Some (s, r) | None => None end) l.

(** ORDER BY seq ASC. *)
Definition seq_le (a b : Z * event_row) : Prop := (a.1 <= b.1)%Z.
#[export] Instance seq_le_dec a b : Decision (seq_le a b) := Z_le_dec a.1 b.1.
Definition by_seq (l : list (Z * event_row)) : list (Z * event_row) := merge_sort seq_le l.

(** ORDER BY seq DESC LIMIT 1. *)
Definition top (l : list (Z * event_row)) : option (Z * event_row) :=
  fold_right (fun x best => match best with
                            | Some y => if (y.1 <? x.1)%Z then Some x else Some y
                            | None => Some x
                            end) None l.

(** ORDER BY pruned_through_seq DESC LIMIT 1. *)
Definition latest (l : list checkpoint_row) : option checkpoint_row :=
  fold_right (fun c best => match best with
                            | Some b => if (cpThroughSeq b <? cpThroughSeq c)%Z then Some c else Some b
                            | None => Some c
                            end) None l.

Local Open Scope sq_scope.

Definition loadAuditChainHeadConn : sq audit_db (Z * string) :=
  let$ head := sq_wrap (fun e => Errorf "audit chain: select head: %w" [e])
                 (query (fun db => top (chained_rows (events db)))) in
  match head with
  | Some (seq, r) => sq_ret (seq, erHash r)
  | None =>
      let$ checkpoint := sq_wrap (fun e => Errorf "audit chain: select checkpoint: %w" [e])
                           (query (fun db => latest (checkpoints db))) in
      sq_ret (0%Z, match checkpoint with Some c => cpThroughHash c | None => auditChainGenesisPrevHash end)
  end.

(** ** Appending *)

Record PreparedAuditEventInsert := {
  pEvent : Event; pTimestampStr : string; pContentBytes : string; pStdoutBytes : string; pStderrBytes : string;
  pEncrypted : bool; pStdoutPlaintext : string; pStderrPlaintext : string
}.

(** The INSERT: [seq] is UNIQUE. *)
Definition insert_event (r : Z -> event_row) (seq : Z) (db : audit_db) : result Z * audit_db :=
  if existsb (fun x => (x.1 =? seq)%Z) (chained_rows (events db))
  then (Err (Extern "UNIQUE constraint failed: events.seq"), db)
  else (Ok (next_id db), {| sessions := sessions db; events := events db ++ [r (next_id db)];
                            checkpoints := checkpoints db; next_id := (next_id db + 1)%Z |}).

(** The copy of the event whose output columns hold the truncated text. *)
Definition digest_event (p : PreparedAuditEventInsert) : Event := {|
  evTransactionID := evTransactionID (pEvent p); evSessionID := evSessionID (pEvent p);
  evTimestamp := evTimestamp (pEvent p); evType := evType (pEvent p);
  evContentText := evContentText (pEvent p); evCommandRaw := evCommandRaw (pEvent p);
  evExitCode := evExitCode (pEvent p); evStdout := pStdoutPlaintext p; evStderr := pStderrPlaintext p;
  evDurationMs := evDurationMs (pEvent p) |}.

(** The row for a prepared event on top of a head. *)
Definition row_on (p : PreparedAuditEventInsert) (seq : Z) (prevHash : string) (id : Z) : event_row :=
  let contentDigest := computeEventContentDigest (digest_event p) in
  {| erId := id; erSeq := Some seq; erPrevHash := prevHash; erDigest := contentDigest;
     erHash := computeAuditEventHash seq prevHash (evType (pEvent p)) (evSessionID (pEvent p)) (pTimestampStr p)
                 contentDigest (evTransactionID (pEvent p));
     erTransactionID := evTransactionID (pEvent p); erSession := evSessionID (pEvent p);
     erTimestamp := pTimestampStr p; erType := evType (pEvent p); erContent := pContentBytes p;
     erCommandRaw := evCommandRaw (pEvent p); erExitCode := Some (evExitCode (pEvent p));
     erStdout := pStdoutBytes p; erStderr := pStderrBytes p; erDurationMs := Some (evDurationMs (pEvent p));
     erEncrypted := pEncrypted p |}.

(** [AppendPreparedAuditEvent]: the row's id, its sequence number and its hash. *)
Definition AppendPreparedAuditEvent (p : PreparedAuditEventInsert) : sq audit_db (Z * Z * string) :=
  let$ head := loadAuditChainHeadConn in
  let nextSeq := (head.1 + 1)%Z in
  let$ id := sq_wrap (fun e => Errorf "%w: %w" [Sentinel "ErrAuditStoreRecordEventFailed"; e])
               (stmt (insert_event (row_on p nextSeq head.2) nextSeq)) in
  sq_ret (id, nextSeq, erHash (row_on p nextSeq head.2 id)).

(** ** Recording *)

Record AuditStoreConfig := { OutputTruncationThreshold : nat; HeadTailSize : nat }.

(** The encryption vault: its state and what it makes of a text and of a ciphertext. *)
Record Vault := { IsUnlocked : bool; Encrypt : string -> result string; Decrypt : string -> result string }.

Section store.
Context (err_text : gerr -> string).
Context (vault : Vault).

Definition encryptContent (content : string) : result string :=
  if String.eqb content "" then Ok ""
  else
    let? _ := require (IsUnlocked vault) (Sentinel "ErrAuditStoreVaultLocked") in
    match Encrypt vault content with
    | Ok b => Ok b
    | Err e => Err (Errorf "%w: %w" [Sentinel "ErrAuditStoreEncryptFailed"; e])
    end.

(** [truncateOutput]; slices as Go takes them when HeadTailSize is at most the length. *)
Definition truncateOutput (config : AuditStoreConfig) (output : string) : string * bool :=
  let n := String.length output in
  if (n <=? OutputTruncationThreshold config)%nat then (output, false)
  else
    let size := HeadTailSize config in
    (String.substring 0 size output +:+ "

[TRUNCATED: " +:+ pretty (Z.of_nat n - Z.of_nat size - Z.of_nat size)%Z +:+ " bytes skipped]

" +:+ String.substring (n - size) size output, true).

Definition prepareAuditEventInsert (config : AuditStoreConfig) (ev : Event) : result PreparedAuditEventInsert :=
  let stdout := (truncateOutput config (evStdout ev)).1 in
  let stderr := (truncateOutput config (evStderr ev)).1 in
  let wrap name (r : result string) := match r with Ok b => Ok b | Err e => Err (Errorf "%w: %w" [Sentinel name; e]) end in
  let? content := wrap "ErrAuditStoreEncryptContentFailed" (encryptContent (evContentText ev)) in
  let? out := wrap "ErrAuditStoreEncryptStdoutFailed" (encryptContent stdout) in
  let? err := wrap "ErrAuditStoreEncryptStderrFailed" (encryptContent stderr) in
  Ok {| pEvent := ev; pTimestampStr := FormatTimestamp (evTimestamp ev); pContentBytes := content;
        pStdoutBytes := out; pStderrBytes := err; pEncrypted := IsUnlocked vault; pStdoutPlaintext := stdout; pStderrPlaintext := stderr |}.

Definition checkpoint_type : string := "g8e.v1.platform.audit.chain.checkpointed".

Definition requireExistingSessionConn (ev : Event) : sq audit_db unit :=
  if String.eqb (evType ev) checkpoint_type then sq_ret tt
  else if String.eqb (evSessionID ev) "" || negb (String.eqb (trim_space (evSessionID ev)) (evSessionID ev))
  then sq_err (Sentinel "ErrAuditSessionMissing")
  else
    let$ known := sq_wrap (fun e => Errorf "%w: %w" [Sentinel "ErrAuditStoreVerifySessionFailed"; e])
                    (query (fun db => mem (evSessionID ev) (sessions db))) in
    if known : bool then sq_ret tt else sq_err (Errorf "%w: %s" [Sentinel "ErrAuditSessionUnknown"]).

(** INSERT OR IGNORE INTO sessions. *)
Definition insert_session (id : string) (db : audit_db) : result unit * audit_db :=
  (Ok tt, if mem id (sessions db) then db
          else {| sessions := id :: sessions db; events := events db; checkpoints := checkpoints db; next_id := next_id db |}).

(** The transaction of [RecordEventChained]; [RecordEvent] drops all but the id. *)
Definition record_chained (config : AuditStoreConfig) (ev : Event) : sq audit_db (Z * Z * string) :=
  let$ _ := if String.eqb (evSessionID ev) "" then sq_ret tt
            else sq_wrap (fun e => Errorf "audit store: create app session: %w" [e])
                   (stmt (insert_session (evSessionID ev))) in
  let$ _ := requireExistingSessionConn ev in
  let$ p := sq_lift (prepareAuditEventInsert config ev) in
  AppendPreparedAuditEvent p.

Definition RecordEventChained (config : AuditStoreConfig) (c : DBConfig) (now : nat -> Z) (attempts : nat -> attempt)
    (ev : Event) (db : audit_db) : result (Z * Z * string) * audit_db :=
  (ExecInImmediateTxWithRetry err_text c now attempts (fun _ => record_chained config ev) db).1.

Definition RecordEvent (config : AuditStoreConfig) (c : DBConfig) (now : nat -> Z) (attempts : nat -> attempt)
    (ev : Event) (db : audit_db) : result Z * audit_db :=
  match RecordEventChained config c now attempts ev db with
  | (Ok (id, _, _), db) => (Ok id, db)
  | (Err e, db) => (Err e, db)
  end.

(** The loop of [RecordEvents]. *)
Fixpoint record_batch (config : AuditStoreConfig) (evs : list Event) : sq audit_db unit :=
  match evs with
  | [] => sq_ret tt
  | ev :: evs =>
      let$ _ := requireExistingSessionConn ev in
      let$ p := sq_lift (prepareAuditEventInsert config ev) in
      let$ _ := sq_wrap (fun e => Errorf "%w: %w" [Sentinel "ErrAuditStoreExecuteBatchFailed"; e])
                  (AppendPreparedAuditEvent p) in
      record_batch config evs
  end.

Definition RecordEvents (config : AuditStoreConfig) (c : DBConfig) (now : nat -> Z) (attempts : nat -> attempt)
    (evs : list Event) (db : audit_db) : result unit * audit_db :=
  match evs with
  | [] => (Ok tt, db)
  | _ => (ExecInImmediateTxWithRetry err_text c now attempts (fun _ => record_batch config evs) db).1
  end.

(** ** Pruning *)

Definition checkpoint_payload (seq : Z) (hash : string) (count : Z) : string :=
  json_object [("pruned_through_seq", JI seq); ("pruned_through_hash", JS hash); ("pruned_count", JI count)].

Definition checkpoint_event (now : gotime) (payload : string) : Event := {|
  evTransactionID := ""; evSessionID := ""; evTimestamp := now; evType := checkpoint_type;
  evContentText := payload; evCommandRaw := ""; evExitCode := 0; evStdout := ""; evStderr := ""; evDurationMs := 0 |}.

Definition insert_checkpoint (row : checkpoint_row) (db : audit_db) : result unit * audit_db :=
  (Ok tt, {| sessions := sessions db; events := events db; checkpoints := checkpoints db ++ [row]; next_id := next_id db |}).

Definition appendAuditChainCheckpoint (now : gotime) (seq : Z) (hash : string) (count : Z) : sq audit_db string :=
  let payload := checkpoint_payload seq hash count in
  let p := {| pEvent := checkpoint_event now payload; pTimestampStr := FormatTimestamp now; pContentBytes := payload;
              pStdoutBytes := ""; pStderrBytes := ""; pEncrypted := false; pStdoutPlaintext := ""; pStderrPlaintext := "" |} in
  let$ _ := AppendPreparedAuditEvent p in
  let$ head := loadAuditChainHeadConn in
  let$ _ := sq_wrap (fun e => Errorf "audit chain checkpoint: persist anchor: %w" [e])
              (stmt (insert_checkpoint {| cpThroughSeq := seq; cpThroughHash := hash; cpCount := count;
                                          cpHash := head.2; cpCreatedAt := FormatTimestamp now |})) in
  sq_ret head.2.

(** timestamp < ? AND type != checkpointed. *)
Definition prunable (cutoff : string) (r : event_row) : bool :=
  String.ltb (erTimestamp r) cutoff && negb (String.eqb (erType r) checkpoint_type).

Definition delete_events (cutoff : string) (db : audit_db) : result unit * audit_db :=
  (Ok tt, {| sessions := sessions db; events := List.filter (fun r => negb (prunable cutoff r)) (events db);
             checkpoints := checkpoints db; next_id := next_id db |}).

(** The chained rows a cutoff deletes. *)
Definition doomed (cutoff : string) (db : audit_db) : list (Z * event_row) :=
  List.filter (fun x => prunable cutoff x.2) (chained_rows (events db)).

Definition prune_chained (now : gotime) (cutoff : string) : sq audit_db unit :=
  let$ pruneCount := sq_wrap (fun e => Errorf "audit chain prune: count: %w" [e])
                       (query (fun db => Z.of_nat (List.length (doomed cutoff db)))) in
  if (pruneCount =? 0)%Z then sq_ret tt
  else
    let$ tail := sq_wrap (fun e => Errorf "audit chain prune: select tail: %w" [e])
                   (stmt (fun db => (match top (doomed cutoff db) with
                                     | Some x => Ok x
                                     | None => Err (Extern "sql: no rows in result set")
                                     end, db))) in
    let$ _ := appendAuditChainCheckpoint now tail.1 (erHash tail.2) pruneCount in
    sq_wrap (fun e => Errorf "audit chain prune: delete: %w" [e]) (stmt (delete_events cutoff)).

Definition PruneChainedAuditEvents (c : DBConfig) (now : nat -> Z) (attempts : nat -> attempt)
    (clock : nat -> gotime) (cutoff : string) (db : audit_db) : result unit * audit_db :=
  (ExecInImmediateTxWithRetry err_text c now attempts (fun i => prune_chained (clock i) cutoff) db).1.
End store.

(** ** Verification *)

(** The loop over the rows. *)
Fixpoint verify_rows (expectedPrevHash : string) (rows : list (Z * event_row)) : result unit :=
  match rows with
  | [] => Ok tt
  | (seq, r) :: rows =>
      let? _ := require (String.eqb (erPrevHash r) expectedPrevHash) (Errorf "audit chain verify: prev_hash mismatch at seq %d" []) in
      let? _ := require (String.eqb (computeAuditEventHash seq (erPrevHash r) (erType r) (erSession r) (erTimestamp r)
                                       (erDigest r) (erTransactionID r)) (erHash r))
                        (Errorf "audit chain verify: hash mismatch at seq %d" []) in
      verify_rows (erHash r) rows
  end.

(** WHERE seq = ?. *)
Definition hash_at (seq : Z) (db : audit_db) : option string :=
  option_map (fun x => erHash x.2) (List.find (fun x => (x.1 =? seq)%Z) (chained_rows (events db))).

Definition rows_from (seq : Z) (db : audit_db) : list (Z * event_row) :=
  by_seq (List.filter (fun x => (seq <=? x.1)%Z) (chained_rows (events db))).

(** Where the walk starts and the hash it expects there. *)
Definition verify_start (fromSeq : Z) : sq audit_db (Z * string) :=
  if (0 <? fromSeq)%Z then
    if (1 <? fromSeq)%Z then
      let$ found := sq_wrap (fun e => Errorf "audit chain verify: predecessor lookup: %w" [e]) (query (hash_at (fromSeq - 1))) in
      match found with
      | Some h => sq_ret (fromSeq, h)
      | None =>
          let$ checkpoint := sq_wrap (fun e => Errorf "audit chain verify: checkpoint lookup: %w" [e])
            (query (fun db => latest (List.filter (fun c => (cpThroughSeq c <? fromSeq)%Z) (checkpoints db)))) in
          match checkpoint with
          | Some c => if (cpThroughSeq c =? fromSeq - 1)%Z then sq_ret (fromSeq, cpThroughHash c)
                      else sq_err (Errorf "audit chain verify: missing predecessor for seq %d" [])
          | None => sq_err (Errorf "audit chain verify: missing predecessor for seq %d" [])
          end
      end
    else sq_ret (fromSeq, auditChainGenesisPrevHash)
  else
    let$ checkpoint := sq_wrap (fun e => Errorf "audit chain verify: latest checkpoint: %w" [e])
                         (query (fun db => latest (checkpoints db))) in
    match checkpoint with
    | Some c => sq_ret ((cpThroughSeq c + 1)%Z, cpThroughHash c)
    | None => sq_ret (1%Z, auditChainGenesisPrevHash)
    end.

Definition VerifyChain (fromSeq : Z) : sq audit_db unit :=
  let$ start := verify_start fromSeq in
  let$ rows := sq_wrap (fun e => Errorf "audit chain verify: query: %w" [e]) (query (rows_from start.1)) in
  sq_lift (verify_rows start.2 rows).

(** [GetAuditChainHead]; [fault] is a failure of its query. *)
Definition GetAuditChainHead (fault : option gerr) (db : audit_db) : result (Z * string) :=
  match fault with
  | Some e => Err (Errorf "audit store: chain head: %w" [e])
  | None => match top (chained_rows (events db)) with
            | Some (seq, r) => Ok (seq, erHash r)
            | None => Ok (0%Z, auditChainGenesisPrevHash)
            end
  end.

(** ** Sorted rows *)

Definition seq_lt (a b : Z * event_row) : Prop := (a.1 < b.1)%Z.

Lemma strictly_sorted_eq l1 l2 :
  StronglySorted seq_lt l1 -> StronglySorted seq_lt l2 -> (forall x, x ∈ l1 <-> x ∈ l2) -> l1 = l2.
Proof.
  intros H. revert l2. induction H as [|x l1 Hs IH Hx]; intros l2 H2 Hin.
  - destruct l2 as [|y l2]; [done|]. exfalso. apply (not_elem_of_nil y), Hin. by left.
  - destruct H2 as [|y l2 H2 Hy]. { exfalso. apply (not_elem_of_nil x), Hin. by left. }
    rewrite Forall_forall in Hx, Hy.
    assert (x = y) as <-.
    { assert (H1 : x ∈ y :: l2) by (apply Hin; by left). assert (H3 : y ∈ x :: l1) by (apply Hin; by left).
      apply elem_of_cons in H1 as [->|H1]; [done|]. apply elem_of_cons in H3 as [->|H3]; [done|].
      pose proof (Hx y H3) as Ha. pose proof (Hy x H1) as Hb. unfold seq_lt in *. lia. }
    f_equal. apply IH; [done|]. intros z. split; intros Hz.
    + assert (Hz' : z ∈ x :: l2) by (apply Hin; by right). apply elem_of_cons in Hz' as [->|?]; [|done].
      pose proof (Hx x Hz). unfold seq_lt in *. lia.
    + assert (Hz' : z ∈ x :: l1) by (apply Hin; by right). apply elem_of_cons in Hz' as [->|?]; [|done].
      pose proof (Hy x Hz). unfold seq_lt in *. lia.
Qed.

Lemma sorted_strict l : StronglySorted seq_le l -> NoDup (map fst l) -> StronglySorted seq_lt l.
Proof.
  induction 1 as [|x l Hs IH Hx]; intros Hnd; [constructor|]. simpl in Hnd. apply NoDup_cons in Hnd as [Hin Hnd].
  constructor; [by apply IH|]. rewrite Forall_forall in *. intros y Hy. pose proof (Hx y Hy) as Hle.
  assert (y.1 <> x.1) by (intros He; apply Hin; rewrite <- He; by apply list_elem_of_fmap_2).
  unfold seq_le, seq_lt in *. lia.
Qed.

#[export] Instance seq_le_trans : Transitive seq_le.
Proof. intros a b c. unfold seq_le. lia. Qed.
#[export] Instance seq_le_total : Total seq_le.
Proof. intros a b. unfold seq_le. lia. Qed.

Lemma NoDup_filter_keys (f : Z * event_row -> bool) l : NoDup (map fst l) -> NoDup (map fst (List.filter f l)).
Proof.
  induction l as [|x l IH]; simpl; [done|]. intros [Hin Hnd]%NoDup_cons. destruct (f x); [|by apply IH].
  simpl. apply NoDup_cons. split; [|by apply IH]. intros (y & Hy & Hf)%list_elem_of_fmap. apply Hin.
  rewrite Hy. apply list_elem_of_fmap_2. apply list_elem_of_In in Hf. apply filter_In in Hf as [Hf _].
  by apply list_elem_of_In.
Qed.

Lemma elem_of_rows_from seq db x :
  x ∈ rows_from seq db <-> x ∈ chained_rows (events db) /\ (seq <= x.1)%Z.
Proof.
  unfold rows_from, by_seq. rewrite (merge_sort_Permutation seq_le), list_elem_of_In, filter_In, <- list_elem_of_In.
  by rewrite Z.leb_le.
Qed.

Lemma rows_from_sorted seq db :
  NoDup (map fst (chained_rows (events db))) -> StronglySorted seq_lt (rows_from seq db).
Proof.
  intros Hnd. apply sorted_strict.
  - apply Sorted_StronglySorted; [apply _|]. apply Sorted_merge_sort, _.
  - unfold rows_from, by_seq. rewrite (merge_sort_Permutation seq_le). by apply NoDup_filter_keys.
Qed.

Lemma keys_eq (l : list (Z * event_row)) x y : NoDup (map fst l) -> x ∈ l -> y ∈ l -> x.1 = y.1 -> x = y.
Proof.
  induction l as [|z l IH]; intros Hnd Hx Hy He; [by apply not_elem_of_nil in Hx|].
  simpl in Hnd. apply NoDup_cons in Hnd as [Hin Hnd].
  apply elem_of_cons in Hx as [->|Hx]; apply elem_of_cons in Hy as [->|Hy]; [done| | |by apply IH].
  - exfalso. apply Hin. rewrite He. by apply list_elem_of_fmap_2.
  - exfalso. apply Hin. rewrite <- He. by apply list_elem_of_fmap_2.
Qed.

Lemma top_None l : top l = None <-> l = [].
Proof. destruct l as [|x l]; [done|]. simpl. split; [|done]. destruct (top l) as [y|]; [destruct (y.1 <? x.1)%Z|]; done. Qed.

Lemma top_spec l x : top l = Some x -> x ∈ l /\ forall y, y ∈ l -> (y.1 <= x.1)%Z.
Proof.
  revert x. induction l as [|z l IH]; intros x H; [done|]. simpl in H.
  destruct (top l) as [y|] eqn:Ht.
  - destruct (IH y eq_refl) as [Hin Hmax]. destruct (y.1 <? z.1)%Z eqn:Hlt; injection H as <-.
    + apply Z.ltb_lt in Hlt. split; [by left|]. intros w [->|Hw]%elem_of_cons; [lia|]. specialize (Hmax w Hw). lia.
    + apply Z.ltb_ge in Hlt. split; [by right|]. intros w [->|Hw]%elem_of_cons; [lia|by apply Hmax].
  - injection H as <-. apply top_None in Ht as ->. split; [by left|].
    intros w [->|Hw]%elem_of_cons; [lia|by apply not_elem_of_nil in Hw].
Qed.

Lemma latest_snoc l c :
  latest (l ++ [c])%list =
  Some (match latest l with Some b => if (cpThroughSeq c <? cpThroughSeq b)%Z then b else c | None => c end).
Proof.
  induction l as [|d l IH]; [done|]. simpl. rewrite IH.
  destruct (latest l) as [b|].
  - destruct (cpThroughSeq c <? cpThroughSeq b)%Z eqn:H1, (cpThroughSeq b <? cpThroughSeq d)%Z eqn:H2;
      rewrite ?H1, ?H2; try done; destruct (cpThroughSeq c <? cpThroughSeq d)%Z eqn:H3; try done; lia.
  - by destruct (cpThroughSeq c <? cpThroughSeq d)%Z.
Qed.

(** ** The invariant of the tables *)

(** A row's hash is the one its columns have under a sequence number. *)
Definition sealed_row (seq : Z) (r : event_row) : Prop :=
  erHash r = computeAuditEventHash seq (erPrevHash r) (erType r) (erSession r) (erTimestamp r) (erDigest r) (erTransactionID r).

(** Rows that continue a chain whose last member has number [p] and hash [h]. *)
Fixpoint chain (p : Z) (h : string) (rows : list (Z * event_row)) : Prop :=
  match rows with
  | [] => True
  | (s, r) :: rows => s = (p + 1)%Z /\ erPrevHash r = h /\ sealed_row s r /\ chain s (erHash r) rows
  end.

Fixpoint chain_end (p : Z) (h : string) (rows : list (Z * event_row)) : Z * string :=
  match rows with [] => (p, h) | (s, r) :: rows => chain_end s (erHash r) rows end.

(** The latest checkpoint, or the genesis. *)
Definition anchor (db : audit_db) : Z * string :=
  match latest (checkpoints db) with
  | Some c => (cpThroughSeq c, cpThroughHash c)
  | None => (0%Z, auditChainGenesisPrevHash)
  end.

(** The rows after the anchor are one unbroken chain from it, whose end is the head
    the next append reads. *)
Record intact (db : audit_db) : Prop := {
  in_keys : NoDup (map fst (chained_rows (events db)));
  in_positive : forall x, x ∈ chained_rows (events db) -> (0 < x.1)%Z /\ x.1 <> (anchor db).1;
  in_chain : exists rows, chain (anchor db).1 (anchor db).2 rows /\
    (forall x, x ∈ rows <-> x ∈ chained_rows (events db) /\ ((anchor db).1 < x.1)%Z) /\
    (rows = [] -> (anchor db).1 = 0%Z)
}.

Lemma chain_end_ge p h rows : chain p h rows -> (p <= (chain_end p h rows).1)%Z.
Proof.
  revert p h. induction rows as [|[s r] rows IH]; intros p h Hc; [simpl; lia|].
  destruct Hc as (-> & _ & _ & Hc). apply IH in Hc. simpl. lia.
Qed.

Lemma chain_bound p h rows x : chain p h rows -> x ∈ rows -> (p < x.1 <= (chain_end p h rows).1)%Z.
Proof.
  revert p h. induction rows as [|[s r] rows IH]; intros p h Hc Hx; [by apply not_elem_of_nil in Hx|].
  destruct Hc as (-> & _ & _ & Hc). simpl.
  assert (Hend : (p + 1 <= (chain_end (p + 1) (erHash r) rows).1)%Z).
  { by apply chain_end_ge. }
  apply elem_of_cons in Hx as [->|Hx]; [simpl; lia|]. specialize (IH _ _ Hc Hx). lia.
Qed.

Lemma chain_sorted p h rows : chain p h rows -> StronglySorted seq_lt rows.
Proof.
  revert p h. induction rows as [|[s r] rows IH]; intros p h Hc; [constructor|].
  destruct Hc as (-> & _ & _ & Hc). constructor; [by eapply IH|].
  apply Forall_forall. intros x Hx. pose proof (chain_bound _ _ _ _ Hc Hx). unfold seq_lt. simpl. lia.
Qed.

Lemma chain_app p h l1 l2 :
  chain p h (l1 ++ l2)%list <-> chain p h l1 /\ chain (chain_end p h l1).1 (chain_end p h l1).2 l2.
Proof.
  revert p h. induction l1 as [|[s r] l1 IH]; intros p h; simpl; [tauto|]. rewrite IH. tauto.
Qed.

Lemma chain_end_app p h l1 l2 :
  chain_end p h (l1 ++ l2)%list = chain_end (chain_end p h l1).1 (chain_end p h l1).2 l2.
Proof. revert p h. induction l1 as [|[s r] l1 IH]; intros p h; simpl; [done|apply IH]. Qed.

Lemma chain_end_in p h rows : rows <> [] -> exists r, ((chain_end p h rows).1, r) ∈ rows /\ erHash r = (chain_end p h rows).2.
Proof.
  revert p h. induction rows as [|[s r] rows IH]; intros p h Hne; [done|]. simpl.
  destruct rows as [|y rows]; [exists r; split; [by left|done]|].
  destruct (IH s (erHash r) ltac:(done)) as (r' & Hin & Hh). exists r'. split; [by right|done].
Qed.

Lemma chain_verifies p h rows : chain p h rows -> verify_rows h rows = Ok tt.
Proof.
  revert p h. induction rows as [|[s r] rows IH]; intros p h Hc; [done|].
  destruct Hc as (_ & Hp & Hs & Hc). simpl. rewrite Hp, String.eqb_refl. cbn [require rbind].
  unfold sealed_row in Hs. rewrite Hp in Hs. rewrite <- Hs, String.eqb_refl. cbn [require rbind]. by eapply IH.
Qed.

(** The head of an intact database is the end of its chain. *)
Definition head_of (db : audit_db) : Z * string :=
  match top (chained_rows (events db)) with
  | Some (s, r) => (s, erHash r)
  | None => (0%Z, (anchor db).2)
  end.

Lemma intact_head db : intact db ->
  exists rows, chain (anchor db).1 (anchor db).2 rows /\
    (forall x, x ∈ rows <-> x ∈ chained_rows (events db) /\ ((anchor db).1 < x.1)%Z) /\
    (rows = [] -> (anchor db).1 = 0%Z) /\
    head_of db = chain_end (anchor db).1 (anchor db).2 rows /\
    (forall x, x ∈ chained_rows (events db) -> (x.1 <= (head_of db).1)%Z).
Proof.
  intros [Hk Hpos (rows & Hc & Hin & Hne)]. exists rows. split_and!; try done; unfold head_of.
  - destruct (top (chained_rows (events db))) as [[s r]|] eqn:Ht.
    + apply top_spec in Ht as [Hsr Hmax]. destruct (decide (rows = [])) as [->|Hrows].
      { exfalso. apply (not_elem_of_nil (s, r)), Hin. split; [done|]. rewrite (Hne eq_refl). by destruct (Hpos _ Hsr). }
      destruct (chain_end_in (anchor db).1 (anchor db).2 rows Hrows) as (r' & Hr' & Hh).
      assert (Hr'' : ((chain_end (anchor db).1 (anchor db).2 rows).1, r') ∈ chained_rows (events db)) by by apply Hin in Hr' as [? _].
      pose proof (Hmax _ Hr'') as Hle. simpl in Hle.
      assert (Hs : (s, r) ∈ rows).
      { apply Hin. split; [done|]. apply (chain_bound _ _ _ _ Hc) in Hr'. simpl in *. lia. }
      pose proof (chain_bound _ _ _ _ Hc Hs) as Hb. simpl in Hb.
      assert (He : (s, r) = ((chain_end (anchor db).1 (anchor db).2 rows).1, r')) by (apply (keys_eq _ _ _ Hk); [done|done|simpl; lia]).
      injection He as -> ->. rewrite Hh. by destruct (chain_end (anchor db).1 (anchor db).2 rows).
    + apply top_None in Ht. destruct rows as [|x rows].
      * simpl. by rewrite (Hne eq_refl).
      * exfalso. assert (Hx : x ∈ chained_rows (events db)) by (apply Hin; by left). rewrite Ht in Hx. by apply not_elem_of_nil in Hx.
  - destruct (top (chained_rows (events db))) as [[s r]|] eqn:Ht.
    + by apply top_spec in Ht as [_ Hmax].
    + apply top_None in Ht as ->. intros x Hx. by apply not_elem_of_nil in Hx.
Qed.

Lemma chained_rows_app l1 l2 : chained_rows (l1 ++ l2)%list = (chained_rows l1 ++ chained_rows l2)%list.
Proof. apply omap_app. Qed.

Lemma anchor_events db s e n : anchor {| sessions := s; events := e; checkpoints := checkpoints db; next_id := n |} = anchor db.
Proof. done. Qed.

(** Appending a row on the head. *)
Lemma intact_append db r id :
  intact db -> erSeq r = Some ((head_of db).1 + 1)%Z -> erPrevHash r = (head_of db).2 ->
  sealed_row ((head_of db).1 + 1) r ->
  intact {| sessions := sessions db; events := (events db ++ [r])%list; checkpoints := checkpoints db; next_id := id |}.
Proof.
  intros Hdb Hs Hp Hseal. pose proof Hdb as [Hk Hpos _].
  destruct (intact_head db Hdb) as (rows & Hc & Hin & Hne & Hh & Hmax).
  assert (Hnew : chained_rows (events db ++ [r])%list = (chained_rows (events db) ++ [(((head_of db).1 + 1)%Z, r)])%list).
  { rewrite chained_rows_app. unfold chained_rows at 2. simpl. by rewrite Hs. }
  assert (Hge : ((anchor db).1 <= (head_of db).1)%Z).
  { rewrite Hh. by apply chain_end_ge. }
  assert (H0 : (0 <= (head_of db).1)%Z).
  { unfold head_of. destruct (top (chained_rows (events db))) as [[s r0]|] eqn:Ht; [|simpl; lia].
    apply top_spec in Ht as [Hsr _]. destruct (Hpos _ Hsr). simpl in *. lia. }
  split; cbn [events]; rewrite ?anchor_events, ?Hnew.
  - rewrite map_app. apply NoDup_app. split_and!; [done| |apply NoDup_singleton].
    intros k (x & -> & Hx)%list_elem_of_fmap. apply Hmax in Hx. simpl. rewrite list_elem_of_singleton. lia.
  - intros x [Hx|Hx]%elem_of_app; [by apply Hpos|]. apply list_elem_of_singleton in Hx as ->. simpl. lia.
  - exists (rows ++ [(((head_of db).1 + 1)%Z, r)])%list. split_and!.
    + apply chain_app. split; [done|]. rewrite <- Hh. simpl. done.
    + intros x. rewrite !elem_of_app, Hin, list_elem_of_singleton. split.
      * intros [[? ?]| ->]; [tauto|]. split; [by right|]. simpl. lia.
      * intros [[?| ->] ?]; [by left|by right].
    + intros H. by apply app_nil in H as [_ ?].
Qed.

Lemma elem_of_chained l (x : Z * event_row) : x ∈ chained_rows l <-> x.2 ∈ l /\ erSeq x.2 = Some x.1.
Proof.
  induction l as [|r l IH].
  - split; [intros H; by apply not_elem_of_nil in H|intros [H _]; by apply not_elem_of_nil in H].
  - change (chained_rows (r :: l)) with (chained_rows ([r] ++ l)%list).
    rewrite chained_rows_app, elem_of_app, IH, elem_of_cons. unfold chained_rows. simpl.
    destruct x as [s r']. simpl. destruct (erSeq r) as [s'|] eqn:Hs.
    + rewrite list_elem_of_singleton. split.
      * intros [[= -> ->]|[? ?]]; tauto.
      * intros [[->|?] He]; [|tauto]. rewrite Hs in He. injection He as ->. by left.
    + split.
      * intros [He|[? ?]]; [by apply not_elem_of_nil in He|tauto].
      * intros [[->|?] He]; [congruence|tauto].
Qed.

Lemma elem_of_filter_rows f l (x : Z * event_row) :
  x ∈ chained_rows (List.filter f l) <-> x ∈ chained_rows l /\ f x.2 = true.
Proof. rewrite !elem_of_chained, !list_elem_of_In, filter_In. tauto. Qed.

Lemma NoDup_filter_rows f l : NoDup (map fst (chained_rows l)) -> NoDup (map fst (chained_rows (List.filter f l))).
Proof.
  intros Hnd. assert (He : chained_rows (List.filter f l) = List.filter (fun x => f x.2) (chained_rows l)).
  { clear Hnd. induction l as [|r l IH]; [done|].
    change (chained_rows (r :: l)) with (chained_rows ([r] ++ l)%list).
    rewrite chained_rows_app, List.filter_app, <- IH. simpl. destruct (f r) eqn:Hf.
    - change (r :: List.filter f l) with ([r] ++ List.filter f l)%list. rewrite chained_rows_app. f_equal.
      unfold chained_rows. simpl. destruct (erSeq r); [|done]. simpl. by rewrite Hf.
    - unfold chained_rows at 2. simpl. destruct (erSeq r); [|done]. simpl. by rewrite Hf. }
  rewrite He. by apply NoDup_filter_keys.
Qed.

Lemma elem_of_doomed cutoff db x :
  x ∈ doomed cutoff db <-> x ∈ chained_rows (events db) /\ prunable cutoff x.2 = true.
Proof. unfold doomed. by rewrite list_elem_of_In, filter_In, <- list_elem_of_In. Qed.

(** Deleting, behind a checkpoint at the last of them, rows of an intact database. *)
Lemma intact_delete db cutoff x c :
  intact db -> x ∈ chained_rows (events db) -> prunable cutoff x.2 = true ->
  (forall y, y ∈ chained_rows (events db) -> prunable cutoff y.2 = true -> (y.1 <= x.1)%Z) ->
  (x.1 < (head_of db).1)%Z -> cpThroughSeq c = x.1 -> cpThroughHash c = erHash x.2 ->
  intact {| sessions := sessions db; events := List.filter (fun r => negb (prunable cutoff r)) (events db);
            checkpoints := (checkpoints db ++ [c])%list; next_id := next_id db |}.
Proof.
  intros Hdb Hx Hpx Hmax Hlt Hcs Hch. pose proof Hdb as [Hk Hpos _].
  destruct (intact_head db Hdb) as (rows & Hc & Hin & Hne & Hh & _).
  destruct (Hpos x Hx) as [Hx0 Hxp].
  assert (Hanchor : anchor {| sessions := sessions db; events := List.filter (fun r => negb (prunable cutoff r)) (events db);
      checkpoints := (checkpoints db ++ [c])%list; next_id := next_id db |} =
    if (x.1 <? (anchor db).1)%Z then anchor db else (x.1, erHash x.2)).
  { unfold anchor. cbn [checkpoints]. rewrite latest_snoc. destruct (latest (checkpoints db)) as [b|].
    - rewrite Hcs. cbn [fst]. destruct (x.1 <? cpThroughSeq b)%Z; [done|]. by rewrite Hcs, Hch.
    - cbn [fst]. rewrite (proj2 (Z.ltb_ge x.1 0)) by lia. by rewrite Hcs, Hch. }
  assert (Hkeep : forall y, y ∈ chained_rows (List.filter (fun r => negb (prunable cutoff r)) (events db)) <->
    y ∈ chained_rows (events db) /\ prunable cutoff y.2 = false).
  { intros y. by rewrite elem_of_filter_rows, negb_true_iff. }
  assert (Hlate : forall y, y ∈ chained_rows (events db) -> (x.1 < y.1)%Z -> prunable cutoff y.2 = false).
  { intros y Hy Hlty. apply not_true_iff_false. intros Hp. pose proof (Hmax y Hy Hp). lia. }
  destruct (x.1 <? (anchor db).1)%Z eqn:Hcase.
  - apply Z.ltb_lt in Hcase. split; rewrite ?Hanchor; cbn [events].
    + by apply NoDup_filter_rows.
    + intros y [Hy _]%Hkeep. by apply Hpos.
    + exists rows. split_and!; [done| |done]. intros y. rewrite Hkeep, Hin. split; [|tauto].
      intros [Hy Hyp]. split_and!; [done| |done]. apply Hlate; [done|lia].
  - apply Z.ltb_ge in Hcase. assert (Hpx' : ((anchor db).1 < x.1)%Z) by lia.
    assert (Hxr : x ∈ rows) by by apply Hin.
    apply list_elem_of_split in Hxr as (l1 & l2 & ->). destruct x as [s r]. cbn [fst snd] in *.
    apply chain_app in Hc as [Hc1 (Hs & _ & _ & Hc2)]. rewrite chain_end_app in Hh. simpl in Hh.
    split; rewrite ?Hanchor; cbn [events fst snd].
    + by apply NoDup_filter_rows.
    + intros y [Hy Hyp]%Hkeep. destruct (Hpos y Hy) as [? _]. split; [done|]. intros He.
      assert (y = (s, r)) as -> by (apply (keys_eq _ _ _ Hk); done). cbn in Hyp. congruence.
    + exists l2. split_and!; [done| |].
      * intros y. rewrite Hkeep. split.
        -- intros Hy. pose proof (chain_bound _ _ _ _ Hc2 Hy) as Hb.
           assert (Hyr : y ∈ chained_rows (events db)) by (apply Hin, elem_of_app; right; by right).
           split_and!; [done|apply Hlate; [done|simpl; lia]|lia].
        -- intros [[Hy _] Hsy].
           assert (Hyr : y ∈ (l1 ++ (s, r) :: l2)%list) by (apply Hin; split; [done|lia]).
           apply elem_of_app in Hyr as [Hy1|[->|Hy2]%elem_of_cons]; [|simpl in Hsy; lia|done].
           pose proof (chain_bound _ _ _ _ Hc1 Hy1). lia.
      * intros ->. simpl in Hh. rewrite Hh in Hlt. simpl in Hlt. lia.
Qed.

(** ** The operations keep the tables intact *)

Lemma load_head_ok env n db h n' db' :
  loadAuditChainHeadConn env n db = (Ok h, n', db') -> h = head_of db /\ db' = db.
Proof.
  unfold loadAuditChainHeadConn, head_of, anchor. intros H. sq_inv.
  destruct (top (chained_rows (events db))) as [[s r]|]; sq_inv; [done|].
  by destruct (latest (checkpoints db)).
Qed.

(** The database after a row was appended on its head. *)
Definition appended (p : PreparedAuditEventInsert) (db : audit_db) : audit_db := {|
  sessions := sessions db;
  events := (events db ++ [row_on p ((head_of db).1 + 1) (head_of db).2 (next_id db)])%list;
  checkpoints := checkpoints db; next_id := (next_id db + 1)%Z |}.

Lemma append_ok p env n db x n' db' :
  AppendPreparedAuditEvent p env n db = (Ok x, n', db') ->
  db' = appended p db /\ x.1.1 = next_id db /\ x.1.2 = ((head_of db).1 + 1)%Z /\
  x.2 = erHash (row_on p ((head_of db).1 + 1) (head_of db).2 (next_id db)).
Proof.
  unfold AppendPreparedAuditEvent. intros H. sq_inv. apply load_head_ok in Hrun as [-> ->].
  unfold insert_event in Hrun0. destruct (existsb _ _); [done|]. by injection Hrun0 as <- <-.
Qed.

Lemma appended_intact p db : intact db -> intact (appended p db).
Proof. intros H. by apply intact_append. Qed.

Lemma appended_in p db :
  (((head_of db).1 + 1)%Z, row_on p ((head_of db).1 + 1) (head_of db).2 (next_id db)) ∈ chained_rows (events (appended p db)).
Proof. apply elem_of_chained. split; [|done]. cbn. apply elem_of_app. right. by left. Qed.

Lemma require_session_ok ev env n db x n' db' :
  requireExistingSessionConn ev env n db = (Ok x, n', db') -> db' = db.
Proof.
  unfold requireExistingSessionConn. intros H. destruct (String.eqb (evType ev) checkpoint_type); sq_inv; [done|].
  destruct (_ || _); sq_inv. destruct (mem _ _); by sq_inv.
Qed.

Lemma record_ok config vault ev env n db x n' db' :
  record_chained vault config ev env n db = (Ok x, n', db') -> intact db -> intact db'.
Proof.
  unfold record_chained. intros H Hdb. sq_inv.
  assert (Hst : intact st).
  { destruct (String.eqb (evSessionID ev) ""); sq_inv; [done|]. unfold insert_session in Hrun. injection Hrun as _ <-.
    destruct (mem (evSessionID ev) (sessions db)); [done|]. destruct Hdb. by split. }
  assert (st0 = st) as ->.
  { by apply require_session_ok in Hrun0. }
  apply append_ok in H as (-> & _). by apply appended_intact.
Qed.

Lemma batch_ok config vault evs env n db x n' db' :
  record_batch vault config evs env n db = (Ok x, n', db') -> intact db -> intact db'.
Proof.
  revert n db. induction evs as [|ev evs IH]; simpl; intros n db H Hdb; sq_inv; [done|].
  apply require_session_ok in Hrun as ->. apply append_ok in Hrun1 as (-> & _).
  apply IH in H; [done|]. by apply appended_intact.
Qed.

Lemma doomed_appended_checkpoint p cutoff db :
  evType (pEvent p) = checkpoint_type -> doomed cutoff (appended p db) = doomed cutoff db.
Proof.
  intros Ht. unfold doomed, appended. cbn [events]. rewrite chained_rows_app, List.filter_app.
  unfold chained_rows at 2. simpl. unfold prunable, row_on at 2 3. cbn [erType]. rewrite Ht, String.eqb_refl, andb_false_r.
  by rewrite app_nil_r.
Qed.

(** The database pruning leaves. *)
Definition pruned (p : PreparedAuditEventInsert) (c : checkpoint_row) (cutoff : string) (db : audit_db) : audit_db := {|
  sessions := sessions db; events := List.filter (fun r => negb (prunable cutoff r)) (events (appended p db));
  checkpoints := (checkpoints db ++ [c])%list; next_id := (next_id db + 1)%Z |}.

Lemma pruned_intact p c cutoff db x :
  intact db -> evType (pEvent p) = checkpoint_type -> top (doomed cutoff db) = Some x ->
  cpThroughSeq c = x.1 -> cpThroughHash c = erHash x.2 -> intact (pruned p c cutoff db).
Proof.
  intros Hdb Ht Htop Hs Hh. pose proof (appended_intact p db Hdb) as Hdb1.
  destruct (intact_head _ Hdb) as (_ & _ & _ & _ & _ & Hmax0).
  destruct (intact_head _ Hdb1) as (_ & _ & _ & _ & _ & Hmax).
  rewrite <- (doomed_appended_checkpoint p) in Htop by done.
  apply top_spec in Htop as [Hin Htop]. apply elem_of_doomed in Hin as [Hin Hp].
  apply (intact_delete (appended p db) cutoff x c); try done.
  - intros y Hy Hyp. apply Htop. by apply elem_of_doomed.
  - pose proof (Hmax _ (appended_in p db)) as Hnew. cbn [fst] in Hnew.
    assert (Hd : x ∈ doomed cutoff db) by (rewrite <- (doomed_appended_checkpoint p) by done; by apply elem_of_doomed).
    apply elem_of_doomed in Hd as [Hd _]. apply Hmax0 in Hd. lia.
Qed.

(** What a run that prunes does. *)
Lemma prune_ok clock cutoff env n db x n' db' :
  prune_chained clock cutoff env n db = (Ok x, n', db') ->
  (doomed cutoff db = [] /\ db' = db) \/
  exists p c x, db' = pruned p c cutoff db /\ evType (pEvent p) = checkpoint_type /\ top (doomed cutoff db) = Some x /\
    cpThroughSeq c = x.1 /\ cpThroughHash c = erHash x.2 /\ cpCount c = Z.of_nat (List.length (doomed cutoff db)).
Proof.
  unfold prune_chained. intros H. sq_inv.
  destruct (Z.of_nat (List.length (doomed cutoff db)) =? 0)%Z eqn:Hc.
  { sq_inv. left. split; [|done]. apply Z.eqb_eq in Hc. destruct (doomed cutoff db); [done|simpl in Hc; lia]. }
  right. sq_inv. destruct (top (doomed cutoff db)) as [y|] eqn:Ht; [|done].
  injection Hrun as <- <-. unfold appendAuditChainCheckpoint in Hrun0. sq_inv.
  apply append_ok in Hrun as (-> & _). apply load_head_ok in Hrun1 as [-> ->].
  unfold insert_checkpoint in Hrun2. injection Hrun2 as _ <-. unfold delete_events in H. injection H as _ <-.
  eexists _, _, y. split; [reflexivity|]. done.
Qed.

(** ** The chain as a state machine *)

Section machine.
Context (err_text : gerr -> string) (vault : Vault) (config : AuditStoreConfig) (c : DBConfig).

(** Every operation that writes the events, under any behaviour of the driver. *)
Inductive audit_step (db : audit_db) : audit_db -> Prop :=
  | step_record now attempts ev r db' :
      RecordEvent err_text vault config c now attempts ev db = (r, db') -> audit_step db db'
  | step_record_chained now attempts ev r db' :
      RecordEventChained err_text vault config c now attempts ev db = (r, db') -> audit_step db db'
  | step_batch now attempts evs r db' :
      RecordEvents err_text vault config c now attempts evs db = (r, db') -> audit_step db db'
  | step_prune now attempts clock cutoff r db' :
      PruneChainedAuditEvents err_text c now attempts clock cutoff db = (r, db') -> audit_step db db'.

Inductive reachable : audit_db -> Prop :=
  | reach_init : reachable empty_db
  | reach_step db db' : reachable db -> audit_step db db' -> reachable db'.

(** A transaction whose successful runs keep a property keeps it. *)
Lemma immediate_keeps {A} now attempts (fn : nat -> sq audit_db A) (P : audit_db -> Prop) db r db' :
  (forall i env n x n' db', fn i env n db = (Ok x, n', db') -> P db') -> P db ->
  (ExecInImmediateTxWithRetry err_text c now attempts fn db).1 = (r, db') -> P db'.
Proof.
  intros Hfn Hdb H. pose proof (immediate_cases err_text c now attempts fn db) as Hc.
  destruct (ExecInImmediateTxWithRetry err_text c now attempts fn db) as [[r1 s1] sleeps].
  cbn in H. injection H as -> ->. destruct r as [a|e]; [|by subst].
  destruct Hc as (i & n & _ & Hrun). by eapply Hfn.
Qed.

Lemma record_keeps now attempts ev r db db' :
  intact db ->
  RecordEventChained err_text vault config c now attempts ev db = (r, db') -> intact db'.
Proof.
  intros Hdb H. eapply (immediate_keeps _ _ _ intact); [|done|exact H].
  intros i env n x n' db1 Hrun. exact (record_ok _ _ _ _ _ _ _ _ _ Hrun Hdb).
Qed.

Lemma step_intact db db' : audit_step db db' -> intact db -> intact db'.
Proof.
  intros Hs Hdb. destruct Hs as [now attempts ev r db' H|now attempts ev r db' H|now attempts evs r db' H|now attempts clock cutoff r db' H].
  - unfold RecordEvent in H. destruct (RecordEventChained _ _ _ _ _ _ _ _) as [r1 db1] eqn:Hr.
    assert (db1 = db') as -> by (destruct r1 as [[[? ?] ?]|?]; by injection H). by eapply record_keeps.
  - by eapply record_keeps.
  - unfold RecordEvents in H. destruct evs as [|ev evs]; [by injection H as _ <-|].
    eapply (immediate_keeps _ _ _ intact); [|done|exact H].
    intros i env n x n' db1 Hrun. exact (batch_ok _ _ _ _ _ _ _ _ _ Hrun Hdb).
  - eapply (immediate_keeps _ _ _ intact); [|done|exact H].
    intros i env n x n' db1 Hrun. apply prune_ok in Hrun as [[_ ->]|(p & cp & y & -> & ? & ? & ? & ? & _)]; [done|].
    by eapply pruned_intact.
Qed.

Lemma empty_intact : intact empty_db.
Proof.
  split; cbn.
  - constructor.
  - intros x Hx. by apply not_elem_of_nil in Hx.
  - exists []. split_and!; [done| |done]. intros x. split; [intros Hx; by apply not_elem_of_nil in Hx|].
    intros [Hx _]. by apply not_elem_of_nil in Hx.
Qed.

Lemma reachable_intact db : reachable db -> intact db.
Proof. induction 1; [apply empty_intact|by eapply step_intact]. Qed.

(** The walk of the verification over an intact database. *)
Lemma rows_from_anchor db rows :
  intact db -> chain (anchor db).1 (anchor db).2 rows ->
  (forall x, x ∈ rows <-> x ∈ chained_rows (events db) /\ ((anchor db).1 < x.1)%Z) ->
  rows_from ((anchor db).1 + 1) db = rows.
Proof.
  intros Hdb Hc Hin. apply strictly_sorted_eq.
  - apply rows_from_sorted, Hdb.
  - by eapply chain_sorted.
  - intros x. rewrite elem_of_rows_from, Hin. split; intros [? ?]; (split; [done|lia]).
Qed.

Lemma verify_start_anchor db n :
  exists m, verify_start 0 (fun _ => None) n db = (Ok ((anchor db).1 + 1, (anchor db).2)%Z, m, db).
Proof.
  unfold verify_start, anchor, sq_bind, sq_wrap, query, stmt, sq_ret. cbn.
  destruct (latest (checkpoints db)); by eexists.
Qed.

Lemma intact_verifies db : intact db -> (VerifyChain 0 (fun _ => None) 0%nat db).1.1 = Ok tt.
Proof.
  intros Hdb. destruct (intact_head db Hdb) as (rows & Hc & Hin & _).
  unfold VerifyChain, sq_bind. destruct (verify_start_anchor db 0) as [m ->].
  unfold sq_wrap, query, stmt, sq_lift. cbn [fst snd].
  rewrite (rows_from_anchor db rows Hdb Hc Hin). cbn. by eapply chain_verifies.
Qed.
End machine.

(** ** Tampering *)

(** What a row says: its number and the columns its hash covers. *)
Definition logged (x : Z * event_row) : Z * list string :=
  (x.1, [erPrevHash x.2; erType x.2; erSession x.2; erTimestamp x.2; erDigest x.2; erTransactionID x.2; erHash x.2]).

Definition row_text (x : Z * event_row) : string :=
  audit_canonical x.1 (erPrevHash x.2) (erType x.2) (erSession x.2) (erTimestamp x.2) (erDigest x.2) (erTransactionID x.2).

(** No column of the row holds the separator. *)
Definition row_bar_free (x : Z * event_row) : Prop :=
  Forall (fun s => has_char "|"%char s = false)
    [erPrevHash x.2; erType x.2; erSession x.2; erTimestamp x.2; erDigest x.2; erTransactionID x.2].

Lemma pretty_bar (z : Z) : has_char "|"%char (pretty z) = false.
Proof. apply pretty_Z_has_char; [|done]. intros n. by apply pretty_N_char_other. Qed.

Lemma row_text_inj x y :
  row_bar_free x -> row_bar_free y -> erHash x.2 = erHash y.2 -> row_text x = row_text y -> logged x = logged y.
Proof.
  intros Hx Hy Hh H. unfold row_text, audit_canonical in H.
  apply (str_join_inj "|"%char) in H; [|done| |].
  - injection H as Hs Hp Ht He Hd Hc Hi. apply (inj pretty) in Hs. unfold logged. congruence.
  - constructor; [done|]. constructor; [apply pretty_bar|]. exact Hx.
  - constructor; [done|]. constructor; [apply pretty_bar|]. exact Hy.
Qed.

Lemma sealed_same x y :
  sealed_row x.1 x.2 -> sealed_row y.1 y.2 -> row_bar_free x -> row_bar_free y -> erHash x.2 = erHash y.2 ->
  logged x = logged y \/ collision (row_text x) (row_text y).
Proof.
  intros Hx Hy Bx By Hh. pose proof Hh as He. rewrite Hx, Hy in He. apply sha256_hex_eq in He as [He|He]; [|by right].
  left. by apply row_text_inj.
Qed.

Definition last_hash (h : string) (rows : list (Z * event_row)) : string :=
  match last rows with Some x => erHash x.2 | None => h end.

Lemma verify_snoc h l x :
  verify_rows h (l ++ [x])%list = Ok tt <->
  verify_rows h l = Ok tt /\ erPrevHash x.2 = last_hash h l /\ sealed_row x.1 x.2.
Proof.
  revert h. induction l as [|[s r] l IH]; intros h.
  - destruct x as [s r]. cbn. unfold sealed_row, last_hash. cbn.
    destruct (String.eqb_spec (erPrevHash r) h); cbn; [|by split; [|intros (_ & ? & _)]].
    destruct (String.eqb_spec (computeAuditEventHash s (erPrevHash r) (erType r) (erSession r) (erTimestamp r) (erDigest r) (erTransactionID r)) (erHash r)); cbn; [done|].
    split; [done|]. intros (_ & _ & ?). congruence.
  - cbn [verify_rows List.app]. destruct (String.eqb (erPrevHash r) h); cbn [require rbind]; [|by split; [|intros [? _]]].
    destruct (String.eqb _ _); cbn [require rbind]; [|by split; [|intros [? _]]].
    rewrite IH. unfold last_hash. rewrite last_cons. by destruct (last l).
Qed.

(** Two verified walks from one hash to one hash. *)
Lemma walks_agree h l1 l2 :
  verify_rows h l1 = Ok tt -> verify_rows h l2 = Ok tt -> last_hash h l1 = last_hash h l2 ->
  Forall row_bar_free l1 -> Forall row_bar_free l2 ->
  map logged l1 = map logged l2 \/
  (exists x y, x ∈ l1 /\ y ∈ l2 /\ collision (row_text x) (row_text y)) \/
  (exists x, (x ∈ l1 \/ x ∈ l2) /\ erHash x.2 = h).
Proof.
  revert l2. induction l1 as [|x l1 IH] using rev_ind; intros l2 H1 H2 Hh B1 B2.
  - destruct l2 as [|y l2 _] using rev_ind; [by left|]. right; right. exists y.
    split; [right; apply elem_of_app; right; by left|]. unfold last_hash in Hh. by rewrite last_snoc in Hh.
  - destruct l2 as [|y l2 _] using rev_ind.
    + right; right. exists x. split; [left; apply elem_of_app; right; by left|]. unfold last_hash in Hh. by rewrite last_snoc in Hh.
    + apply verify_snoc in H1 as (H1 & P1 & S1), H2 as (H2 & P2 & S2).
      apply Forall_app in B1 as [B1 Bx], B2 as [B2 By]. apply Forall_cons in Bx as [Bx _], By as [By _].
      unfold last_hash in Hh. rewrite !last_snoc in Hh.
      destruct (sealed_same x y S1 S2 Bx By Hh) as [He|He].
      * assert (Hp : erPrevHash x.2 = erPrevHash y.2) by (by injection He). rewrite P1, P2 in Hp.
        destruct (IH l2 H1 H2 Hp B1 B2) as [Hl|[(a & b & ? & ? & ?)|(a & ? & ?)]].
        -- left. by rewrite !map_app, Hl; cbn; rewrite He.
        -- right; left. exists a, b. rewrite !elem_of_app. tauto.
        -- right; right. exists a. rewrite !elem_of_app. tauto.
      * right; left. exists x, y. split_and!; [apply elem_of_app; right; by left..|done].
Qed.

(** The walk of the verification. *)
Definition walk (db : audit_db) : list (Z * event_row) := rows_from ((anchor db).1 + 1) db.

Lemma verify_walk db : (VerifyChain 0 (fun _ => None) 0%nat db).1.1 = Ok tt -> verify_rows (anchor db).2 (walk db) = Ok tt.
Proof.
  unfold VerifyChain, sq_bind. destruct (verify_start_anchor db 0) as [m ->].
  unfold sq_wrap, query, stmt, sq_lift. by cbn [fst snd].
Qed.

Lemma sorted_last l y : StronglySorted seq_lt l -> y ∈ l -> exists x, last l = Some x /\ (y.1 <= x.1)%Z.
Proof.
  induction 1 as [|z l Hs IH Hz]; intros Hy; [by apply not_elem_of_nil in Hy|].
  apply elem_of_cons in Hy as [->|Hy].
  - destruct l as [|w l]; [exists z; split; [done|lia]|]. destruct (last_is_Some (w :: l)) as [_ [x Hx]]; [done|].
    exists x. rewrite last_cons, Hx. split; [done|]. apply last_Some in Hx as [l' Hx].
    rewrite Forall_forall in Hz. assert (Hin : x ∈ w :: l) by (rewrite Hx; apply elem_of_app; right; by left).
    specialize (Hz x Hin). unfold seq_lt in Hz. lia.
  - destruct (IH Hy) as (x & Hx & Hle). exists x. by rewrite last_cons, Hx.
Qed.

(** The head as a reader sees it and the end of the walk. *)
Lemma head_walk db s h :
  (0 <= (anchor db).1)%Z -> NoDup (map fst (chained_rows (events db))) -> GetAuditChainHead None db = Ok (s, h) ->
  last_hash (anchor db).2 (walk db) = (if ((anchor db).1 <? s)%Z then h else (anchor db).2).
Proof.
  unfold GetAuditChainHead. intros H0 Hnd. destruct (top (chained_rows (events db))) as [[s' r]|] eqn:Ht.
  - intros [= -> <-]. apply top_spec in Ht as [Hin Hmax]. destruct ((anchor db).1 <? s)%Z eqn:Hs.
    + apply Z.ltb_lt in Hs. assert (Hw : (s, r) ∈ walk db) by (apply elem_of_rows_from; split; [done|cbn; lia]).
      destruct (sorted_last _ _ (rows_from_sorted ((anchor db).1 + 1) db Hnd) Hw) as (x & Hx & Hle).
      unfold last_hash, walk. rewrite Hx. apply last_Some in Hx as [l' Hx].
      assert (Hxin : x ∈ walk db) by (unfold walk; rewrite Hx; apply elem_of_app; right; by left).
      apply elem_of_rows_from in Hxin as [Hxin _]. pose proof (Hmax x Hxin). cbn in *.
      by rewrite (keys_eq _ x (s, r) Hnd Hxin Hin ltac:(cbn; lia)).
    + apply Z.ltb_ge in Hs. destruct (walk db) as [|x l] eqn:Hw; [done|].
      assert (Hx : x ∈ walk db) by (rewrite Hw; by left). apply elem_of_rows_from in Hx as [Hx Hge].
      pose proof (Hmax x Hx). cbn in *. lia.
  - intros [= <- <-]. apply top_None in Ht. assert (Hw : walk db = []) by (unfold walk, rows_from; by rewrite Ht).
    rewrite Hw, (proj2 (Z.ltb_ge _ 0)) by done. done.
Qed.

Lemma intact_anchor db : intact db -> (0 <= (anchor db).1)%Z.
Proof.
  intros Hdb. destruct (intact_head db Hdb) as (rows & Hc & Hin & Hne & _).
  destruct rows as [|[s r] rows]; [by rewrite Hne|]. destruct Hc as (Hs & _).
  assert (Hx : (s, r) ∈ chained_rows (events db)) by (apply Hin; by left).
  destruct (in_positive db Hdb _ Hx). cbn in *. lia.
Qed.

(** The head of an intact database is what readers see. *)
Lemma head_read db : intact db -> (head_of db).1 <> 0%Z -> GetAuditChainHead None db = Ok (head_of db).
Proof. intros _. unfold GetAuditChainHead, head_of. by destruct (top (chained_rows (events db))) as [[s r]|]. Qed.

Lemma appended_head p db : intact db ->
  head_of (appended p db) = (((head_of db).1 + 1)%Z, erHash (row_on p ((head_of db).1 + 1) (head_of db).2 (next_id db))).
Proof.
  intros Hdb. pose proof (appended_intact p db Hdb) as Hdb1. destruct (intact_head _ Hdb) as (_ & _ & _ & _ & _ & Hmax).
  unfold head_of at 1. destruct (top (chained_rows (events (appended p db)))) as [[s r]|] eqn:Ht.
  - apply top_spec in Ht as [Hin Htop]. pose proof (Htop _ (appended_in p db)) as Hle. cbn [fst] in Hle.
    assert (He : (s, r) = (((head_of db).1 + 1)%Z, row_on p ((head_of db).1 + 1) (head_of db).2 (next_id db))).
    { apply (keys_eq _ _ _ (in_keys _ Hdb1)); [done|apply appended_in|]. cbn.
      unfold appended in Hin. cbn [events] in Hin. rewrite chained_rows_app in Hin.
      apply elem_of_app in Hin as [Hin|Hin]; [apply Hmax in Hin; cbn in Hin; lia|].
      apply elem_of_chained in Hin as [Hr Hs]. apply list_elem_of_singleton in Hr. cbn in Hr, Hs. rewrite Hr in Hs.
      cbn in Hs. by injection Hs. }
    injection He as -> ->. done.
  - apply top_None in Ht. pose proof (appended_in p db) as Hin. rewrite Ht in Hin. by apply not_elem_of_nil in Hin.
Qed.

Lemma record_head config vault ev env n db id seq hash n' db' :
  record_chained vault config ev env n db = (Ok (id, seq, hash), n', db') -> intact db ->
  seq = ((head_of db).1 + 1)%Z /\ GetAuditChainHead None db' = Ok (seq, hash) /\
  exists r, events db' = (events db ++ [r])%list /\ erId r = id /\ erPrevHash r = (head_of db).2 /\
    erHash r = hash /\ sealed_row seq r.
Proof.
  unfold record_chained. intros H Hdb. sq_inv.
  assert (Hst : intact st /\ events st = events db /\ checkpoints st = checkpoints db).
  { destruct (String.eqb (evSessionID ev) ""); sq_inv; [done|]. unfold insert_session in Hrun. injection Hrun as _ <-.
    destruct (mem (evSessionID ev) (sessions db)); [done|]. split; [destruct Hdb; by split|done]. }
  destruct Hst as (Hst & He & Hc).
  assert (Hh : head_of st = head_of db) by (unfold head_of, anchor; by rewrite He, Hc).
  apply require_session_ok in Hrun0 as ->. apply append_ok in H as (-> & Hid & Hseq & Hhash). cbn in Hid, Hseq, Hhash.
  pose proof (appended_head v1 st Hst) as Ha. rewrite Hh in *. split_and!; [done| |].
  - rewrite head_read, Ha; [by rewrite Hseq, Hhash|by apply appended_intact|]. rewrite Ha. cbn.
    pose proof (intact_anchor db Hdb). destruct (intact_head _ Hdb) as (rows & Hch & _ & _ & Hd & _). rewrite Hd.
    pose proof (chain_end_ge _ _ _ Hch). lia.
  - eexists. unfold appended. cbn [events]. rewrite Hh, He. split_and!; [done|by rewrite Hid|done|by rewrite Hhash|].
    by rewrite Hseq.
Qed.

Section guarantees.
Context (err_text : gerr -> string) (vault : Vault) (config : AuditStoreConfig) (c : DBConfig).
Notation reachable := (reachable err_text vault config c).

(** Whatever is recorded, batched and pruned, in any order and with any failures of
    the driver, the chain stays whole: sequence numbers are unique, the rows after the
    latest checkpoint are one unbroken chain from it, and the verification of the whole
    chain raises no alarm. *)
Theorem chain_intact db :
  reachable db -> intact db /\ (VerifyChain 0 (fun _ => None) 0%nat db).1.1 = Ok tt.
Proof.
  intros Hr. assert (Hdb : intact db) by by eapply reachable_intact. split; [done|]. by apply intact_verifies.
Qed.

(** Recording is an append: when it succeeds the caller holds the number and the hash
    of the new head, the number follows the old head's, the new row names the old head's
    hash, and every row before it is as it was; when it fails the database is as it was. *)
Theorem record_appends now attempts ev db :
  reachable db ->
  match RecordEventChained err_text vault config c now attempts ev db with
  | (Ok (id, seq, hash), db') =>
      seq = ((head_of db).1 + 1)%Z /\ GetAuditChainHead None db' = Ok (seq, hash) /\
      exists r, events db' = (events db ++ [r])%list /\ erId r = id /\ erPrevHash r = (head_of db).2 /\
        erHash r = hash /\ sealed_row seq r
  | (Err _, db') => db' = db
  end.
Proof.
  intros Hr. assert (Hdb : intact db) by by eapply reachable_intact.
  unfold RecordEventChained.
  pose proof (immediate_cases err_text c now attempts (fun _ => record_chained vault config ev) db) as H.
  destruct (ExecInImmediateTxWithRetry err_text c now attempts (fun _ => record_chained vault config ev) db) as [[[[[id seq] hash]|e] db'] sleeps];
    cbn [fst snd]; [|done].
  destruct H as (i & n & _ & Hrun). by eapply record_head.
Qed.

(** C27: The log is tamper evident: a database that passes verification and shows the
    checkpoint and the head of a genuine one lists the same events after that checkpoint,
    in every column the hash covers, unless two of their rows are a SHA-256 collision or
    a row hashes to the checkpoint's own anchor.  This takes sequence numbers that do
    not repeat in the shown database, and that no hashed column of either database holds
    a bar: the hash joins its columns with an unescaped one. *)
Theorem tamper_evident db db' :
  reachable db -> NoDup (map fst (chained_rows (events db'))) ->
  (VerifyChain 0 (fun _ => None) 0%nat db').1.1 = Ok tt ->
  anchor db' = anchor db -> GetAuditChainHead None db' = GetAuditChainHead None db ->
  Forall row_bar_free (walk db) -> Forall row_bar_free (walk db') ->
  map logged (walk db) = map logged (walk db') \/
  (exists x y, x ∈ walk db /\ y ∈ walk db' /\ collision (row_text x) (row_text y)) \/
  (exists x, (x ∈ walk db \/ x ∈ walk db') /\ erHash x.2 = (anchor db).2).
Proof.
  intros Hr Hnd Hv Ha Hh B1 B2. assert (Hdb : intact db) by by eapply reachable_intact.
  pose proof (intact_anchor db Hdb) as H0. pose proof (verify_walk _ (intact_verifies _ Hdb)) as V1.
  pose proof (verify_walk _ Hv) as V2. rewrite Ha in V2. apply walks_agree; try done.
  destruct (GetAuditChainHead None db) as [[s h]|e] eqn:Hg; [|unfold GetAuditChainHead in Hg; by destruct (top _) as [[? ?]|]].
  pose proof (head_walk db s h H0 (in_keys db Hdb) Hg) as W1.
  pose proof (head_walk db' s h ltac:(by rewrite Ha) Hnd Hh) as W2. rewrite Ha in W2. by rewrite W1, W2.
Qed.
End guarantees.

(** ** A concrete log *)

Definition ex_config : AuditStoreConfig := {| OutputTruncationThreshold := 16; HeadTailSize := 4 |}.
Definition ex_vault : Vault := {| IsUnlocked := true; Encrypt := Ok; Decrypt := Ok |}.
Definition ex_now (i : nat) : Z := 0.
Definition ex_quiet (i : nat) : attempt := quiet_attempt.

(** A command that ran at second [t]. *)
Definition ex_ran (t : Z) : Event := {|
  evTransactionID := "tx-1"; evSessionID := "session-1"; evTimestamp := (1700000000000000000 + t * 1000000000)%Z;
  evType := "g8e.v1.operator.command.completed"; evContentText := ""; evCommandRaw := "ls -la"; evExitCode := 0;
  evStdout := "0123456789abcdef-0123456789abcdef"; evStderr := ""; evDurationMs := 7 |}.

Definition ex_record (t : Z) (db : audit_db) : result (Z * Z * string) * audit_db :=
  RecordEventChained ex_text ex_vault ex_config DefaultDBConfig ex_now ex_quiet (ex_ran t) db.

Definition ex_prune (t : Z) (db : audit_db) : result unit * audit_db :=
  PruneChainedAuditEvents ex_text DefaultDBConfig ex_now ex_quiet (fun _ => 1700000100000000000%Z)
    (FormatTimestamp (1700000000000000000 + t * 1000000000)%Z) db.

Notation ex_two := ((ex_record 2 (ex_record 1 empty_db).2).2).
Notation ex_pruned := ((ex_record 9 (ex_prune 2 ex_two).2).2).

Notation ex_reachable := (reachable ex_text ex_vault ex_config DefaultDBConfig).

Lemma ex_record_reachable t db : ex_reachable db -> ex_reachable (ex_record t db).2.
Proof.
  intros H. eapply reach_step; [exact H|]. eapply (step_record_chained _ _ _ _ _ ex_now ex_quiet (ex_ran t)).
  apply surjective_pairing.
Qed.

Lemma ex_prune_reachable t db : ex_reachable db -> ex_reachable (ex_prune t db).2.
Proof.
  intros H. eapply reach_step; [exact H|]. eapply (step_prune _ _ _ _ _ ex_now ex_quiet).
  apply surjective_pairing.
Qed.

(** Pruning left the checkpoint event, the second command and the one after. *)
Example ex_pruned_rows :
  map (fun r => (erId r, erSeq r, erType r)) (events ex_pruned) =
    [(2%Z, Some 2%Z, "g8e.v1.operator.command.completed"); (3%Z, Some 3%Z, checkpoint_type);
     (4%Z, Some 4%Z, "g8e.v1.operator.command.completed")] /\
  map (fun c => (cpThroughSeq c, cpCount c)) (checkpoints ex_pruned) = [(1%Z, 1%Z)] /\
  map erStdout (events ex_two) = [(truncateOutput ex_config "0123456789abcdef-0123456789abcdef").1;
                                  (truncateOutput ex_config "0123456789abcdef-0123456789abcdef").1].
Proof. vm_compute. done. Qed.

(** A row whose type was edited is caught. *)
Definition ex_edit (r : event_row) : event_row := {|
  erId := erId r; erSeq := erSeq r; erPrevHash := erPrevHash r; erDigest := erDigest r; erHash := erHash r;
  erTransactionID := erTransactionID r; erSession := erSession r; erTimestamp := erTimestamp r;
  erType := "g8e.v1.operator.command.failed"; erContent := erContent r; erCommandRaw := erCommandRaw r;
  erExitCode := erExitCode r; erStdout := erStdout r; erStderr := erStderr r; erDurationMs := erDurationMs r;
  erEncrypted := erEncrypted r |}.

Example ex_edited :
  (VerifyChain 0 (fun _ => None) 0%nat {| sessions := sessions ex_two; events := map ex_edit (events ex_two);
     checkpoints := checkpoints ex_two; next_id := next_id ex_two |}).1.1 =
  Err (Errorf "audit chain verify: hash mismatch at seq %d" []).
Proof. vm_compute. done. Qed.

(** A second prune deletes the events on both sides of the first one's checkpoint event.
    The chain verifies as a whole; verified from the number after the surviving event,
    the walk expects that event's hash where the deleted event's is named. *)
Definition ex_twice : audit_db := (ex_prune 50 (ex_record 9 (ex_prune 2 ex_two).2).2).2.

Example ex_false_alarm :
  map erSeq (events ex_twice) = [Some 3%Z; Some 5%Z] /\ (VerifyChain 0 (fun _ => None) 0%nat ex_twice).1.1 = Ok tt /\
  (VerifyChain 4 (fun _ => None) 0%nat ex_twice).1.1 = Err (Errorf "audit chain verify: prev_hash mismatch at seq %d" []).
Proof. vm_compute. done. Qed.

(** Cutting the newest events off leaves a database that verifies: only a head kept
    elsewhere shows the loss. *)
Example ex_truncated :
  (VerifyChain 0 (fun _ => None) 0%nat {| sessions := sessions ex_two; events := removelast (events ex_two);
     checkpoints := checkpoints ex_two; next_id := next_id ex_two |}).1.1 = Ok tt.
Proof. vm_compute. done. Qed.

Lemma chain_intact_witness :
  intact ex_pruned /\ (VerifyChain 0 (fun _ => None) 0%nat ex_pruned).1.1 = Ok tt.
Proof.
  apply (chain_intact ex_text ex_vault ex_config DefaultDBConfig).
  apply ex_record_reachable, ex_prune_reachable, ex_record_reachable, ex_record_reachable, reach_init.
Defined.

Lemma record_appends_witness :
  match RecordEventChained ex_text ex_vault ex_config DefaultDBConfig ex_now ex_quiet (ex_ran 3) ex_two with
  | (Ok (id, seq, hash), db') =>
      seq = ((head_of ex_two).1 + 1)%Z /\ GetAuditChainHead None db' = Ok (seq, hash) /\
      exists r, events db' = (events ex_two ++ [r])%list /\ erId r = id /\ erPrevHash r = (head_of ex_two).2 /\
        erHash r = hash /\ sealed_row seq r
  | (Err _, db') => db' = ex_two
  end.
Proof.
  apply (record_appends ex_text ex_vault ex_config DefaultDBConfig).
  apply ex_record_reachable, ex_record_reachable, reach_init.
Defined.

(** Another copy of the log: the rows have other ids and durations, columns outside the
    hash, and it holds a row outside the chain. *)
Definition ex_copied (r : event_row) : event_row := {|
  erId := (erId r + 40)%Z; erSeq := erSeq r; erPrevHash := erPrevHash r; erDigest := erDigest r; erHash := erHash r;
  erTransactionID := erTransactionID r; erSession := erSession r; erTimestamp := erTimestamp r; erType := erType r;
  erContent := erContent r; erCommandRaw := erCommandRaw r; erExitCode := erExitCode r; erStdout := erStdout r;
  erStderr := erStderr r; erDurationMs := Some 99%Z; erEncrypted := erEncrypted r |}.

Definition ex_stray : event_row := {|
  erId := 90; erSeq := None; erPrevHash := ""; erDigest := ""; erHash := ""; erTransactionID := ""; erSession := "session-1";
  erTimestamp := "2023-11-14T22:13:20.000000Z"; erType := "legacy"; erContent := ""; erCommandRaw := "";
  erExitCode := None; erStdout := ""; erStderr := ""; erDurationMs := None; erEncrypted := false |}.

Definition ex_copy : audit_db := {|
  sessions := sessions ex_pruned; events := ex_stray :: map ex_copied (events ex_pruned);
  checkpoints := checkpoints ex_pruned; next_id := 91 |}.

Lemma tamper_evident_witness :
  events ex_copy <> events ex_pruned /\ walk ex_copy <> walk ex_pruned /\
  (map logged (walk ex_pruned) = map logged (walk ex_copy) \/
  (exists x y, x ∈ walk ex_pruned /\ y ∈ walk ex_copy /\ collision (row_text x) (row_text y)) \/
  (exists x, (x ∈ walk ex_pruned \/ x ∈ walk ex_copy) /\ erHash x.2 = (anchor ex_pruned).2)).
Proof.
  split; [vm_compute; discriminate|]. split; [vm_compute; discriminate|].
  apply (tamper_evident ex_text ex_vault ex_config DefaultDBConfig).
  - apply ex_record_reachable, ex_prune_reachable, ex_record_reachable, ex_record_reachable, reach_init.
  - apply (bool_decide_unpack _). vm_compute. exact I.
  - vm_compute. reflexivity.
  - vm_compute. reflexivity.
  - vm_compute. reflexivity.
  - vm_compute. repeat constructor.
  - vm_compute. repeat constructor.
Defined.
