(* ===== verification/AuditMigrate.v ===== *)
(** Chaining the events of an older database
    ([backfillEventChain] of [src/internal/services/storage/audit_chain.go]).

    Rows without a sequence number are numbered in the order of their ids on top of
    the head, in one immediate transaction, and a genesis checkpoint is added.  The
    columns are there: the ALTER TABLE statements before are not modelled. *)
From S2P Require Import Prelude Errors Encoding Sha256 Sqlite Timestamp TimeParse JsonEncode AuditChain.
From Stdlib Require Import String Ascii List ZArith Lia Bool.
From stdpp Require Import base strings list sorting.
Open Scope string_scope.

Definition ExitCodeNone : Z := -1.

(** [event.Timestamp, _ = timesvc.ParseTimestamp(timestampStr)]. *)
Definition stored_time (s : string) : gotime := match ParseTimestamp s with Ok t => t | Err _ => zero_time end.

(** [None] is a nil vault. *)
Definition unlocked (v : option Vault) : bool := match v with Some v => IsUnlocked v | None => false end.

Definition decryptAuditBytes (v : option Vault) (data : string) : string :=
  match v with
  | Some vt => if String.eqb data "" || negb (IsUnlocked vt) then data
               else match Decrypt vt data with Ok t => t | Err _ => data end
  | None => data
  end.

(** The event a legacy row stands for. *)
Definition legacy_event (v : option Vault) (r : event_row) : Event :=
  let text b := if erEncrypted r && unlocked v then decryptAuditBytes v b else b in {|
  evTransactionID := erTransactionID r; evSessionID := erSession r; evTimestamp := stored_time (erTimestamp r);
  evType := erType r; evContentText := text (erContent r); evCommandRaw := erCommandRaw r;
  evExitCode := default ExitCodeNone (erExitCode r); evStdout := text (erStdout r); evStderr := text (erStderr r);
  evDurationMs := default 0%Z (erDurationMs r) |}.

(** The row with its chain columns set. *)
Definition chained_row (r : event_row) (seq : Z) (prevHash digest hash : string) : event_row := {|
  erId := erId r; erSeq := Some seq; erPrevHash := prevHash; erDigest := digest; erHash := hash;
  erTransactionID := erTransactionID r; erSession := erSession r; erTimestamp := erTimestamp r; erType := erType r;
  erContent := erContent r; erCommandRaw := erCommandRaw r; erExitCode := erExitCode r; erStdout := erStdout r;
  erStderr := erStderr r; erDurationMs := erDurationMs r; erEncrypted := erEncrypted r |}.

(** The chain columns of a legacy row on top of a head. *)
Definition chain_legacy (v : option Vault) (r : event_row) (head : Z * string) : event_row :=
  let ev := legacy_event v r in
  let digest := computeEventContentDigest ev in
  chained_row r (head.1 + 1) head.2 digest
    (computeAuditEventHash (head.1 + 1) head.2 (evType ev) (evSessionID ev) (FormatTimestamp (evTimestamp ev)) digest
       (evTransactionID ev)).

(** UPDATE events SET ... WHERE id = ?: [seq] is UNIQUE. *)
Definition put_row (r : event_row) (db : audit_db) : audit_db := {|
  sessions := sessions db; events := map (fun x => if (erId x =? erId r)%Z then r else x) (events db);
  checkpoints := checkpoints db; next_id := next_id db |}.

Definition update_event (r : event_row) (db : audit_db) : result unit * audit_db :=
  if existsb (fun x => bool_decide (erSeq x = erSeq r) && negb (erId x =? erId r)%Z) (events db)
  then (Err (Extern "UNIQUE constraint failed: events.seq"), db)
  else (Ok tt, put_row r db).

(** WHERE seq IS NULL ORDER BY id ASC. *)
Definition id_le (a b : event_row) : Prop := (erId a <= erId b)%Z.
#[export] Instance id_le_dec a b : Decision (id_le a b) := Z_le_dec (erId a) (erId b).
Definition unchained (r : event_row) : bool := match erSeq r with None => true | Some _ => false end.
Definition pending_rows (db : audit_db) : list event_row := merge_sort id_le (List.filter unchained (events db)).

Local Open Scope sq_scope.

Section backfill.
Context (err_text : gerr -> string) (vault : option Vault).

(** The loop over the rows; it returns the head it ends with. *)
Fixpoint backfill_rows (rows : list event_row) (head : Z * string) : sq audit_db (Z * string) :=
  match rows with
  | [] => sq_ret head
  | r :: rows =>
      let r' := chain_legacy vault r head in
      let$ _ := sq_wrap (fun e => Errorf "audit chain backfill: update id %d: %w" [e]) (stmt (update_event r')) in
      backfill_rows rows ((head.1 + 1)%Z, erHash r')
  end.

Definition genesis_checkpoint (now : gotime) (count : Z) (hash : string) : checkpoint_row := {|
  cpThroughSeq := 0; cpThroughHash := auditChainGenesisPrevHash; cpCount := count; cpHash := hash;
  cpCreatedAt := FormatTimestamp now |}.

Definition backfill_tx (now : gotime) : sq audit_db unit :=
  let$ rows := sq_wrap (fun e => Errorf "audit chain backfill: select: %w" [e]) (query pending_rows) in
  let$ head := loadAuditChainHeadConn in
  let$ last := backfill_rows rows head in
  if (0 <? List.length rows)%nat then
    sq_wrap (fun e => Errorf "audit chain backfill: genesis checkpoint: %w" [e])
      (stmt (insert_checkpoint (genesis_checkpoint now (Z.of_nat (List.length rows)) last.2)))
  else sq_ret tt.

(** [count] is the answer of the driver to the count of pending rows. *)
Definition backfillEventChain (c : DBConfig) (now : nat -> Z) (count : option gerr) (attempts : nat -> attempt)
    (clock : nat -> gotime) (db : audit_db) : result unit * audit_db :=
  match count with
  | Some e => (Err (Errorf "audit chain backfill: count pending: %w" [e]), db)
  | None =>
      if (List.length (pending_rows db) =? 0)%nat then (Ok tt, db)
      else (ExecInImmediateTxWithRetry err_text c now attempts (fun i => backfill_tx (clock i)) db).1
  end.
End backfill.

(** ** What the loop does *)

#[local] Opaque sha256_hex computeEventContentDigest FormatTimestamp stored_time.

Section migrated.
Context (v : option Vault).

(** The head and the database after the rows were chained. *)
Fixpoint migrated (rows : list event_row) (head : Z * string) (db : audit_db) : (Z * string) * audit_db :=
  match rows with
  | [] => (head, db)
  | r :: rows => let r' := chain_legacy v r head in migrated rows ((head.1 + 1)%Z, erHash r') (put_row r' db)
  end.

Lemma backfill_rows_ok rows head env n db x n' db' :
  backfill_rows v rows head env n db = (Ok x, n', db') -> (x, db') = migrated rows head db.
Proof.
  revert head n db. induction rows as [|r rows IH]; intros head n db H; cbn [backfill_rows migrated] in *; sq_inv; [done|].
  unfold update_event in Hrun. destruct (existsb _ _); [done|]. injection Hrun as _ <-. by apply IH in H.
Qed.

Lemma put_row_other r x db : x ∈ events db -> erId x <> erId r -> x ∈ events (put_row r db).
Proof.
  intros Hx Hne. cbn. apply list_elem_of_fmap. exists x. by rewrite (proj2 (Z.eqb_neq _ _) Hne).
Qed.

Lemma put_row_in r x db : x ∈ events db -> erId x = erId r -> r ∈ events (put_row r db).
Proof.
  intros Hx He. cbn. apply list_elem_of_fmap. exists x. split; [|done]. by rewrite He, Z.eqb_refl.
Qed.

Lemma put_row_ids r db : map erId (events (put_row r db)) = map erId (events db).
Proof.
  cbn. rewrite map_map. apply map_ext. intros x. destruct (erId x =? erId r)%Z eqn:He; [|done].
  by apply Z.eqb_eq in He.
Qed.

Lemma migrated_keeps rows head db x :
  x ∈ events db -> (forall r, r ∈ rows -> erId r <> erId x) -> x ∈ events (migrated rows head db).2.
Proof.
  revert head db. induction rows as [|r rows IH]; intros head db Hx Hne; [done|]. cbn [migrated]. apply IH.
  - apply put_row_other; [done|]. intros He. apply (Hne r); [by left|done].
  - intros r' Hr'. apply Hne. by right.
Qed.

(** Every row was chained on a head not before the first one. *)
Lemma migrated_row rows head db r :
  NoDup (map erId rows) -> (forall x, x ∈ rows -> x ∈ events db) -> r ∈ rows ->
  exists h, (head.1 <= h.1)%Z /\ chain_legacy v r h ∈ events (migrated rows head db).2.
Proof.
  revert head db. induction rows as [|r0 rows IH]; intros head db Hnd Hin Hr; [by apply not_elem_of_nil in Hr|].
  apply NoDup_cons in Hnd as [Hn0 Hnd]. cbn [migrated].
  assert (Hne : forall x, x ∈ rows -> erId x <> erId r0).
  { intros x Hx He. apply Hn0. rewrite <- He. by apply list_elem_of_fmap_2. }
  apply elem_of_cons in Hr as [->|Hr].
  - exists head. split; [lia|]. apply migrated_keeps; [|done].
    eapply put_row_in; [apply Hin; by left|done].
  - destruct (IH ((head.1 + 1)%Z, erHash (chain_legacy v r0 head)) (put_row (chain_legacy v r0 head) db) Hnd) as (h & Hh & Hc); [|done|].
    + intros x Hx. apply put_row_other; [apply Hin; by right|]. cbn. by apply Hne.
    + exists h. cbn in Hh. split; [lia|done].
Qed.

(** A stored time in the canonical layout. *)
Definition canonical_time (r : event_row) : Prop := FormatTimestamp (stored_time (erTimestamp r)) = erTimestamp r.
#[export] Instance canonical_time_dec r : Decision (canonical_time r).
Proof. unfold canonical_time. apply _. Defined.

(** The texts a chained legacy row is hashed from: as the migration took it and as the
    row shows it. *)
Definition taken_text (r : event_row) (h : Z * string) : string :=
  audit_canonical (h.1 + 1) h.2 (erType r) (erSession r) (FormatTimestamp (stored_time (erTimestamp r)))
    (computeEventContentDigest (legacy_event v r)) (erTransactionID r).
Definition shown_text (r : event_row) (h : Z * string) : string :=
  audit_canonical (h.1 + 1) h.2 (erType r) (erSession r) (erTimestamp r)
    (computeEventContentDigest (legacy_event v r)) (erTransactionID r).

Lemma chain_legacy_sealed r h :
  sealed_row (h.1 + 1) (chain_legacy v r h) -> canonical_time r \/ collision (taken_text r h) (shown_text r h).
Proof.
  intros H. change (sha256_hex (taken_text r h) = sha256_hex (shown_text r h)) in H.
  apply sha256_hex_eq in H as [H|H]; [|by right]. left. unfold taken_text, shown_text, audit_canonical in H. cbn [str_join] in H. repeat apply string_app_inj_l in H.
  by apply string_app_inj_r in H.
Qed.

Lemma canonical_sealed r h : canonical_time r -> sealed_row (h.1 + 1) (chain_legacy v r h).
Proof.
  intros Hc. change (sha256_hex (taken_text r h) = sha256_hex (shown_text r h)).
  unfold taken_text, shown_text. by rewrite Hc.
Qed.
End migrated.

(** ** The invariant across the loop *)

Lemma chained_rows_perm l1 l2 : l1 ≡ₚ l2 -> chained_rows l1 ≡ₚ chained_rows l2.
Proof. intros H. unfold chained_rows. by rewrite H. Qed.

(** What the invariant says depends on the set of chained rows and the anchor. *)
Lemma intact_perm db1 db2 :
  chained_rows (events db2) ≡ₚ chained_rows (events db1) -> anchor db2 = anchor db1 -> intact db1 -> intact db2.
Proof.
  intros Hp Ha [Hk Hpos (rows & Hch & Hin & Hne)].
  split.
  - by rewrite Hp.
  - intros x. rewrite Hp, Ha. apply Hpos.
  - exists rows. rewrite Ha. split_and!; [done| |done]. intros x. by rewrite Hp.
Qed.

Lemma top_perm l1 l2 : NoDup (map fst l1) -> l1 ≡ₚ l2 -> AuditChain.top l1 = AuditChain.top l2.
Proof.
  intros Hnd Hp. assert (Hnd2 : NoDup (map fst l2)) by by rewrite <- Hp.
  destruct (AuditChain.top l1) as [x|] eqn:H1, (AuditChain.top l2) as [y|] eqn:H2; [| | |done].
  - apply top_spec in H1 as [Hx Hmx], H2 as [Hy Hmy]. f_equal.
    apply (keys_eq l1); [done|done|by rewrite Hp|]. pose proof (Hmx y ltac:(by rewrite Hp)).
    pose proof (Hmy x ltac:(by rewrite <- Hp)). lia.
  - apply top_None in H2 as ->. apply Permutation_nil_r in Hp as ->. done.
  - apply top_None in H1 as ->. symmetry in Hp. apply Permutation_nil_r in Hp as ->. done.
Qed.

Section loop.
Context (v : option Vault).

(** Chaining a row in place is appending it and forgetting the old one. *)
Lemma put_row_chained r r' db :
  NoDup (map erId (events db)) -> r ∈ events db -> erSeq r = None -> erId r' = erId r ->
  chained_rows (events (put_row r' db)) ≡ₚ chained_rows (events db ++ [r'])%list.
Proof.
  intros Hnd Hr Hs Hid. apply list_elem_of_split in Hr as (l1 & l2 & He). rewrite He in *. cbn [put_row events].
  assert (Hother : forall l, (forall x, x ∈ l -> erId x <> erId r) -> map (fun x => if (erId x =? erId r)%Z then r' else x) l = l).
  { intros l Hl. rewrite <- (map_id l) at 2. apply map_ext_in. intros x Hx.
    by rewrite (proj2 (Z.eqb_neq _ _) (Hl x ltac:(by apply list_elem_of_In))). }
  rewrite map_app, NoDup_app in Hnd. destruct Hnd as (_ & Hd & Hnd). cbn in Hnd. apply NoDup_cons in Hnd as [Hr2 _].
  unfold put_row. cbn [events]. rewrite He, map_app, map_cons, Hid, Z.eqb_refl, !Hother.
  - rewrite !chained_rows_app. change (r :: l2) with ([r] ++ l2)%list. change (r' :: l2) with ([r'] ++ l2)%list.
    rewrite !chained_rows_app. assert (Hnil : chained_rows [r] = []) by (unfold chained_rows; simpl; by rewrite Hs).
    rewrite Hnil. cbn [List.app]. rewrite <- (app_assoc (chained_rows l1)). f_equiv. apply Permutation_app_comm.
  - intros x Hx Hxr. apply Hr2. rewrite <- Hxr. by apply list_elem_of_fmap_2.
  - intros x Hx Hxr. apply (Hd (erId x)); [by apply list_elem_of_fmap_2|]. rewrite Hxr. by left.
Qed.

Lemma put_row_intact r db :
  intact db -> NoDup (map erId (events db)) -> r ∈ events db -> erSeq r = None -> canonical_time r ->
  intact (put_row (chain_legacy v r (head_of db)) db) /\
  head_of (put_row (chain_legacy v r (head_of db)) db) =
    (((head_of db).1 + 1)%Z, erHash (chain_legacy v r (head_of db))).
Proof.
  intros Hdb Hnd Hr Hs Hc. set (r' := chain_legacy v r (head_of db)).
  pose proof (put_row_chained r r' db Hnd Hr Hs eq_refl) as Hp.
  pose proof (intact_append db r' (next_id db) Hdb eq_refl eq_refl (canonical_sealed v r (head_of db) Hc)) as Ha.
  split; [match type of Ha with intact ?d => exact (intact_perm d (put_row r' db) Hp eq_refl Ha) end|].
  assert (Ht : AuditChain.top (chained_rows (events (put_row r' db))) = Some (((head_of db).1 + 1)%Z, r')).
  { rewrite (top_perm _ (chained_rows (events db ++ [r'])%list)); [|rewrite Hp; apply Ha|done].
    destruct (intact_head db Hdb) as (_ & _ & _ & _ & _ & Hmax).
    assert (Hin : (((head_of db).1 + 1)%Z, r') ∈ chained_rows (events db ++ [r'])%list).
    { apply elem_of_chained. split; [|done]. apply elem_of_app. right. by left. }
    destruct (AuditChain.top _) as [y|] eqn:Hy; [|apply top_None in Hy; rewrite Hy in Hin; by apply not_elem_of_nil in Hin].
    apply top_spec in Hy as [Hyin Hymax]. f_equal. apply (keys_eq (chained_rows (events db ++ [r'])%list)); [apply Ha|done|done|].
    pose proof (Hymax _ Hin) as Hle. cbn [fst] in Hle |- *. rewrite chained_rows_app in Hyin. apply elem_of_app in Hyin as [Hyin|Hyin].
    - pose proof (Hmax y Hyin). lia.
    - apply elem_of_chained in Hyin as [Hyr Hys]. apply list_elem_of_singleton in Hyr. rewrite Hyr in Hys. by injection Hys. }
  unfold head_of at 1. by rewrite Ht.
Qed.

(** The whole loop over rows with canonical times. *)
Lemma migrated_intact rows db :
  intact db -> NoDup (map erId (events db)) -> NoDup (map erId rows) ->
  (forall r, r ∈ rows -> r ∈ events db /\ erSeq r = None) -> Forall canonical_time rows ->
  intact (migrated v rows (head_of db) db).2.
Proof.
  intros Hdb Hids Hnd Hin Hc. revert db Hdb Hids Hnd Hin. induction Hc as [|r rows Hr _ IH]; intros db Hdb Hids Hnd Hin; [done|].
  cbn [migrated]. apply NoDup_cons in Hnd as [Hr0 Hnd]. destruct (Hin r ltac:(by left)) as [Hrin Hs].
  destruct (put_row_intact r db Hdb Hids Hrin Hs Hr) as [Hdb1 Hh]. rewrite <- Hh. apply IH; [done| |done|].
  - by rewrite put_row_ids.
  - intros x Hx. destruct (Hin x ltac:(by right)) as [Hxin Hxs]. split; [|done]. apply put_row_other; [done|].
    cbn. intros He. apply Hr0. rewrite <- He. by apply list_elem_of_fmap_2.
Qed.

(** What is still without a number was not among the rows. *)
Lemma migrated_unchained rows head db x :
  x ∈ events (migrated v rows head db).2 -> erSeq x = None -> x ∈ events db /\ forall r, r ∈ rows -> erId x <> erId r.
Proof.
  revert head db. induction rows as [|r rows IH]; intros head db Hx Hs.
  - split; [done|]. intros r Hr. by apply not_elem_of_nil in Hr.
  - cbn [migrated] in Hx. apply IH in Hx as [Hx Hne]; [|done]. cbn in Hx. apply list_elem_of_fmap in Hx as (y & Hy & Hin).
    destruct (erId y =? erId r)%Z eqn:He; subst x; [done|]. apply Z.eqb_neq in He.
    split; [done|]. intros r' [->|Hr']%elem_of_cons; [done|by apply Hne].
Qed.

Lemma migrated_checkpoints rows head db : checkpoints (migrated v rows head db).2 = checkpoints db.
Proof. revert head db. induction rows as [|r rows IH]; intros head db; [done|]. cbn [migrated]. by rewrite IH. Qed.
End loop.

(** ** The migration *)

(** A database to migrate: ids are unique, and an anchor at 0 is the genesis. *)
Record legacy (db : audit_db) : Prop := {
  lg_intact : intact db;
  lg_ids : NoDup (map erId (events db));
  lg_genesis : (anchor db).1 = 0%Z -> (anchor db).2 = auditChainGenesisPrevHash
}.

Lemma elem_of_pending r db : r ∈ pending_rows db <-> r ∈ events db /\ erSeq r = None.
Proof.
  unfold pending_rows. rewrite (merge_sort_Permutation id_le), list_elem_of_In, filter_In, <- list_elem_of_In.
  unfold unchained. destruct (erSeq r); naive_solver.
Qed.

Lemma pending_ids db : NoDup (map erId (events db)) -> NoDup (map erId (pending_rows db)).
Proof.
  intros Hnd. unfold pending_rows. rewrite (merge_sort_Permutation id_le). induction (events db) as [|x l IH]; [done|].
  cbn in Hnd |- *. apply NoDup_cons in Hnd as [Hx Hnd]. destruct (unchained x); [|by apply IH]. cbn.
  apply NoDup_cons. split; [|by apply IH]. intros (y & Hy & Hin)%list_elem_of_fmap. apply Hx. rewrite Hy.
  apply list_elem_of_fmap_2. apply list_elem_of_In, filter_In in Hin as [Hin _]. by apply list_elem_of_In.
Qed.

Lemma genesis_anchor db now count hash s e n :
  legacy db ->
  anchor {| sessions := s; events := e; checkpoints := (checkpoints db ++ [genesis_checkpoint now count hash])%list; next_id := n |} = anchor db.
Proof.
  intros [Hdb _ Hg]. pose proof (intact_anchor db Hdb) as H0. unfold anchor in *. cbn [checkpoints]. rewrite latest_snoc.
  destruct (latest (checkpoints db)) as [b|]; [|done]. cbn [fst snd cpThroughSeq genesis_checkpoint] in *.
  destruct (0 <? cpThroughSeq b)%Z eqn:Hb; [done|]. apply Z.ltb_ge in Hb.
  assert (He : cpThroughSeq b = 0%Z) by lia. by rewrite He, (Hg He).
Qed.

(** A successful run of the transaction. *)
Lemma backfill_tx_ok v now env n db x n' db' :
  backfill_tx v now env n db = (Ok x, n', db') -> legacy db -> pending_rows db <> [] ->
  events db' = events (migrated v (pending_rows db) (head_of db) db).2 /\ anchor db' = anchor db.
Proof.
  unfold backfill_tx. intros H Hl Hne. sq_inv. apply load_head_ok in Hrun0 as [-> ->].
  apply backfill_rows_ok in Hrun1. rewrite (proj2 (Nat.ltb_lt _ _)) in H by (destruct (pending_rows db); [done|simpl; lia]).
  sq_inv. unfold insert_checkpoint in H. injection H as _ <-.
  pose proof (migrated_checkpoints v (pending_rows db) (head_of db) db) as Hc.
  destruct (migrated v (pending_rows db) (head_of db) db) as [h mdb]. injection Hrun1 as -> ->. cbn [snd] in *.
  cbn [events]. split; [done|]. rewrite Hc. by apply genesis_anchor.
Qed.

Lemma verified_sealed h rows x : verify_rows h rows = Ok tt -> x ∈ rows -> sealed_row x.1 x.2.
Proof.
  revert h. induction rows as [|[s r] rows IH]; intros h H Hx; [by apply not_elem_of_nil in Hx|]. cbn [verify_rows] in H.
  apply rbind_Ok in H as (_ & _ & H). apply rbind_Ok in H as ([] & Hs & H). apply require_Ok, String.eqb_eq in Hs.
  apply elem_of_cons in Hx as [->|Hx]; [by unfold sealed_row|by eapply IH].
Qed.

Section verdict.
Context (err_text : gerr -> string) (v : option Vault) (c : DBConfig).

(** C23: Chaining an older database either fails and changes nothing, or leaves no row
    without a number.  When every legacy row keeps its time in the canonical layout the
    result is one unbroken chain that verifies.  When one of them does not - the column's
    own default is such a text - the result never verifies again, short of a SHA-256
    collision: the row is hashed with its time rewritten and verified with its time as
    stored. *)
Theorem backfill_verdict now count attempts clock db :
  legacy db ->
  match backfillEventChain err_text v c now count attempts clock db with
  | (Err _, db') => db' = db
  | (Ok _, db') =>
      pending_rows db' = [] /\
      (Forall canonical_time (pending_rows db) -> intact db' /\ (VerifyChain 0 (fun _ => None) 0%nat db').1.1 = Ok tt) /\
      ((VerifyChain 0 (fun _ => None) 0%nat db').1.1 = Ok tt ->
       Forall canonical_time (pending_rows db) \/
       exists r h, r ∈ pending_rows db /\ collision (taken_text v r h) (shown_text v r h))
  end.
Proof.
  intros Hl. unfold backfillEventChain. destruct count as [e|]; [done|].
  destruct (List.length (pending_rows db) =? 0)%nat eqn:H0.
  { apply Nat.eqb_eq, nil_length_inv in H0. rewrite H0. split_and!; [done| |by left].
    intros _. split; [apply Hl|]. apply intact_verifies, Hl. }
  pose proof (immediate_cases err_text c now attempts (fun i => backfill_tx v (clock i)) db) as H.
  destruct (ExecInImmediateTxWithRetry err_text c now attempts (fun i => backfill_tx v (clock i)) db) as [[[[]|e] db'] sleeps];
    cbn [fst snd]; [|done].
  destruct H as (i & n & _ & Hrun).
  apply backfill_tx_ok in Hrun as [He Ha]; [|done|by destruct (pending_rows db)].
  set (rows := pending_rows db) in *. set (m := (migrated v rows (head_of db) db).2) in *.
  pose proof (pending_ids db (lg_ids db Hl)) as Hnd. pose proof (fun r => proj1 (elem_of_pending r db)) as Hpend.
  split; [|split].
  - destruct (pending_rows db') as [|x l] eqn:Hx; [done|]. exfalso.
    assert (Hxin : x ∈ pending_rows db') by (rewrite Hx; by left). apply elem_of_pending in Hxin as [Hxin Hs]. rewrite He in Hxin.
    apply migrated_unchained in Hxin as [Hxdb Hxn]; [|done]. by apply (Hxn x); [apply elem_of_pending|].
  - intros Hc. assert (Hm : intact m).
    { apply migrated_intact; [apply Hl|apply Hl|done| |done]. intros r Hr. by apply Hpend. }
    assert (Hdb' : intact db').
    { apply (intact_perm m); [by rewrite He|rewrite Ha; unfold anchor, m; by rewrite migrated_checkpoints|done]. }
    split; [done|by apply intact_verifies].
  - intros Hv. apply verify_walk in Hv. destruct (decide (Forall canonical_time rows)) as [Hc|Hc]; [by left|right].
    apply not_Forall_Exists, Exists_exists in Hc as (r & Hr & Hnc); [|apply _].
    destruct (migrated_row v rows (head_of db) db r Hnd) as (h & Hh & Hin); [intros x Hx; by apply Hpend|done|].
    fold m in Hin. rewrite <- He in Hin. exists r, h. split; [done|].
    assert (Hw : ((h.1 + 1)%Z, chain_legacy v r h) ∈ walk db').
    { apply elem_of_rows_from. split; [by apply elem_of_chained|]. rewrite Ha. cbn [fst].
      destruct (intact_head db (lg_intact db Hl)) as (l & Hl' & _ & _ & Hd & _). rewrite Hd in Hh.
      pose proof (chain_end_ge _ _ _ Hl'). lia. }
    apply (verified_sealed _ _ _ Hv) in Hw. cbn [fst snd] in Hw. by apply chain_legacy_sealed in Hw as [?|?].
Qed.
End verdict.

(** ** A concrete migration *)

Definition legacy_row (id : Z) (at_text : string) : event_row := {|
  erId := id; erSeq := None; erPrevHash := ""; erDigest := ""; erHash := ""; erTransactionID := "";
  erSession := "session-1"; erTimestamp := at_text; erType := "g8e.v1.operator.command.completed"; erContent := "";
  erCommandRaw := "ls"; erExitCode := Some 0%Z; erStdout := "out"; erStderr := ""; erDurationMs := None; erEncrypted := false |}.

Definition ex_legacy (times : string * string) : audit_db := {|
  sessions := ["session-1"]; events := [legacy_row 1 times.1; legacy_row 2 times.2]; checkpoints := []; next_id := 3 |}.

Definition ex_migrate (times : string * string) : result unit * audit_db :=
  backfillEventChain ex_text None DefaultDBConfig ex_now None ex_quiet (fun _ => 1700000100000000000%Z) (ex_legacy times).

Definition good_times : string * string := ("2025-06-15T13:00:00.000000Z", "2025-06-15T13:00:01.000000Z").
(** The second row has the time SQLite writes for the column's default. *)
Definition default_times : string * string := ("2025-06-15T13:00:00.000000Z", "2025-06-15T13:00:01.000").

Example ex_migrate_good :
  (ex_migrate good_times).1 = Ok tt /\ map erSeq (events (ex_migrate good_times).2) = [Some 1%Z; Some 2%Z] /\
  (VerifyChain 0 (fun _ => None) 0%nat (ex_migrate good_times).2).1.1 = Ok tt.
Proof. vm_compute. done. Qed.

Example ex_migrate_default :
  (ex_migrate default_times).1 = Ok tt /\
  (VerifyChain 0 (fun _ => None) 0%nat (ex_migrate default_times).2).1.1 =
    Err (Errorf "audit chain verify: hash mismatch at seq %d" []).
Proof. vm_compute. done. Qed.

Lemma ex_legacy_legacy times : legacy (ex_legacy times).
Proof.
  split; [|apply (bool_decide_unpack _); vm_compute; exact I|done].
  apply (intact_perm empty_db); [done|done|apply empty_intact].
Qed.

Lemma backfill_verdict_witness :
  match backfillEventChain ex_text None DefaultDBConfig ex_now None ex_quiet (fun _ => 1700000100000000000%Z) (ex_legacy good_times) with
  | (Err _, db') => db' = ex_legacy good_times
  | (Ok _, db') =>
      pending_rows db' = [] /\
      (Forall canonical_time (pending_rows (ex_legacy good_times)) -> intact db' /\ (VerifyChain 0 (fun _ => None) 0%nat db').1.1 = Ok tt) /\
      ((VerifyChain 0 (fun _ => None) 0%nat db').1.1 = Ok tt ->
       Forall canonical_time (pending_rows (ex_legacy good_times)) \/
       exists r h, r ∈ pending_rows (ex_legacy good_times) /\ collision (taken_text None r h) (shown_text None r h))
  end.
Proof.
  apply (backfill_verdict ex_text None DefaultDBConfig).
  apply ex_legacy_legacy.
Defined.
