(* ===== verification/ReceiptStore.v ===== *)
(** The receipts of the audit store ([RecordActionReceipt] and the queries beside it in
    [src/internal/services/storage/audit_store.go]).

    A record updates one row of [receipts] per transaction and appends an event with the
    canonical receipt to the audit chain, in one immediate transaction.  The canonical
    JSON of a receipt ([compliancev1.MarshalCanonical], [UnmarshalCanonical]) is a
    parameter. *)
From S2P Require Import Prelude Errors Encoding Sha256 Sqlite Timestamp TimeParse Constants JsonEncode Receipt Actuator AuditChain AuditMigrate.
From Stdlib Require Import String Ascii List ZArith Lia Bool.
From stdpp Require Import base strings list sorting.
Open Scope string_scope.

(** A row of [receipts]; [None] is NULL. *)
Record receipt_row := {
  rrTransactionID : string; rrTransactionHash : string; rrInvestigationID : string; rrOperatorID : string;
  rrSession : string; rrRequestorUserID : string; rrActingAppID : string; rrEventType : string;
  rrActionType : ActionType; rrTargetResource : string; rrStatus : ExecutionStatus; rrResultSummary : string;
  rrStateRootBefore : string; rrStateRootAfter : string; rrExecutedAtMs : Z; rrSignerKeyID : string;
  rrSignature : string; rrReceiptJSON : option string; rrTimestamp : string
}.

(** The audit database with its receipts; the key is the transaction id. *)
Record audit_store := { as_chain : audit_db; as_receipts : list receipt_row }.

Definition put_chain (c : audit_db) (s : audit_store) : audit_store := {| as_chain := c; as_receipts := as_receipts s |}.
Definition on_chain {A} (m : sq audit_db A) : sq audit_store A := zoom as_chain put_chain m.

(** ** Recording *)

Definition receipt_row_of (record : ActionReceiptRecord) (receiptJSON : option string) (timestamp : gotime) : receipt_row := {|
  rrTransactionID := arTransactionID record; rrTransactionHash := arTransactionHash record;
  rrInvestigationID := arInvestigationID record; rrOperatorID := arOperatorID record;
  rrSession := arOperatorSessionID record; rrRequestorUserID := arRequestorUserID record;
  rrActingAppID := arActingAppID record; rrEventType := arEventType record; rrActionType := arActionType record;
  rrTargetResource := arTargetResource record; rrStatus := arStatus record; rrResultSummary := arResultSummary record;
  rrStateRootBefore := arStateRootBefore record; rrStateRootAfter := arStateRootAfter record;
  rrExecutedAtMs := arExecutedAtUnixMs record; rrSignerKeyID := arSignerKeyID record;
  rrSignature := arSignature record; rrReceiptJSON := receiptJSON; rrTimestamp := FormatTimestamp timestamp |}.

(** ON CONFLICT(transaction_id) DO UPDATE SET: the columns it names take the new values. *)
Definition merge_receipt (old new : receipt_row) : receipt_row := {|
  rrTransactionID := rrTransactionID old; rrTransactionHash := rrTransactionHash old;
  rrInvestigationID := rrInvestigationID new; rrOperatorID := rrOperatorID old; rrSession := rrSession old;
  rrRequestorUserID := rrRequestorUserID old; rrActingAppID := rrActingAppID old; rrEventType := rrEventType old;
  rrActionType := rrActionType old; rrTargetResource := rrTargetResource old; rrStatus := rrStatus new;
  rrResultSummary := rrResultSummary new; rrStateRootBefore := rrStateRootBefore old;
  rrStateRootAfter := rrStateRootAfter new; rrExecutedAtMs := rrExecutedAtMs new; rrSignerKeyID := rrSignerKeyID old;
  rrSignature := rrSignature new; rrReceiptJSON := rrReceiptJSON new; rrTimestamp := rrTimestamp new |}.

Definition has_id (id : string) (r : receipt_row) : bool := String.eqb (rrTransactionID r) id.

Definition upsert_receipt (new : receipt_row) (l : list receipt_row) : list receipt_row :=
  if existsb (has_id (rrTransactionID new)) l
  then map (fun r => if has_id (rrTransactionID new) r then merge_receipt r new else r) l
  else (l ++ [new])%list.

Definition receipt_event_type : string := "g8e.v1.operator.receipt.recorded".

(** The chained fact of one stage. *)
Definition receipt_event (record : ActionReceiptRecord) (receiptJSON : option string) (timestamp : gotime) : Event := {|
  evTransactionID := arTransactionID record; evSessionID := arOperatorSessionID record; evTimestamp := timestamp;
  evType := receipt_event_type; evContentText := default "" receiptJSON; evCommandRaw := ""; evExitCode := 0;
  evStdout := ""; evStderr := ""; evDurationMs := 0 |}.

(** [record.Timestamp.IsZero()]. *)
Definition record_time (now : gotime) (record : ActionReceiptRecord) : gotime :=
  if (arTimestamp record =? zero_time)%Z then now else arTimestamp record.

Section receipts.
Context (MarshalCanonical : ActionReceipt -> result string) (UnmarshalCanonical : string -> result ActionReceipt).
Context (err_text : gerr -> string) (vault : Vault) (config : AuditStoreConfig).

Local Open Scope sq_scope.

Definition receipt_json (record : ActionReceiptRecord) : result (option string) :=
  match arActionReceipt record with
  | None => Ok None
  | Some r => match MarshalCanonical r with
              | Ok t => Ok (Some t)
              | Err e => Err (Errorf "%w: marshal canonical receipt: %w" [Sentinel "ErrAuditStoreRecordReceiptFailed"; e])
              end
  end.

(** [upsertActionReceiptConn]. *)
Definition upsertActionReceiptConn (record : ActionReceiptRecord) (receiptJSON : option string) (timestamp : gotime)
    : sq audit_store unit :=
  sq_wrap (fun e => Errorf "audit store: upsert receipt projection: %w" [e])
    (stmt (fun s => (Ok tt, {| as_chain := as_chain s;
                               as_receipts := upsert_receipt (receipt_row_of record receiptJSON timestamp) (as_receipts s) |}))).

Definition record_receipt_tx (record : ActionReceiptRecord) (receiptJSON : option string) (timestamp : gotime)
    : sq audit_store unit :=
  let$ _ := if String.eqb (arOperatorSessionID record) "" then sq_ret tt
            else sq_wrap (fun e => Errorf "audit store: create operator session: %w" [e])
                   (on_chain (stmt (insert_session (arOperatorSessionID record)))) in
  let$ _ := upsertActionReceiptConn record receiptJSON timestamp in
  let ev := receipt_event record receiptJSON timestamp in
  let$ _ := if String.eqb (evSessionID ev) "" then sq_ret tt else on_chain (requireExistingSessionConn ev) in
  let$ p := sq_lift (prepareAuditEventInsert vault config ev) in
  let$ _ := on_chain (AppendPreparedAuditEvent p) in
  sq_ret tt.

(** [RecordActionReceipt]; [clock] is read when the record has no time. *)
Definition RecordActionReceipt (c : DBConfig) (now : nat -> Z) (attempts : nat -> attempt) (clock : gotime)
    (record : option ActionReceiptRecord) (s : audit_store) : result unit * audit_store :=
  match record with
  | None => (Err (Sentinel "ErrAuditStoreRecordReceiptFailed"), s)
  | Some record =>
      match receipt_json record with
      | Err e => (Err e, s)
      | Ok receiptJSON =>
          match (ExecInImmediateTxWithRetry err_text c now attempts
                   (fun _ => record_receipt_tx record receiptJSON (record_time clock record)) s).1 with
          | (Ok _, s) => (Ok tt, s)
          | (Err e, s) => (Err (Errorf "%w: %w" [Sentinel "ErrAuditStoreRecordReceiptFailed"; e]), s)
          end
      end
  end.

(** ** Reading *)

Definition parseStoredActionReceipt (receiptJSON : option string) : result (option ActionReceipt) :=
  match receiptJSON with
  | None => Ok None
  | Some t => if String.eqb t "" then Ok None else rbind (UnmarshalCanonical t) (fun r => Ok (Some r))
  end.

(** The record a row holds; the layer verdicts have no column. *)
Definition record_of_row (r : receipt_row) (receipt : option ActionReceipt) : ActionReceiptRecord := {|
  arTransactionID := rrTransactionID r; arTransactionHash := rrTransactionHash r;
  arInvestigationID := rrInvestigationID r; arOperatorID := rrOperatorID r; arOperatorSessionID := rrSession r;
  arRequestorUserID := rrRequestorUserID r; arActingAppID := rrActingAppID r; arEventType := rrEventType r;
  arActionType := rrActionType r; arTargetResource := rrTargetResource r; arStatus := rrStatus r;
  arResultSummary := rrResultSummary r; arStateRootBefore := rrStateRootBefore r;
  arStateRootAfter := rrStateRootAfter r; arExecutedAtUnixMs := rrExecutedAtMs r; arSignerKeyID := rrSignerKeyID r;
  arSignature := rrSignature r; arL2Valid := false; arL3Valid := false; arTimestamp := stored_time (rrTimestamp r);
  arActionReceipt := receipt |}.

Definition read_row (sentinel : string) (r : receipt_row) : result ActionReceiptRecord :=
  match parseStoredActionReceipt (rrReceiptJSON r) with
  | Ok receipt => Ok (record_of_row r receipt)
  | Err e => Err (Errorf "%w: unmarshal canonical receipt: %w" [Sentinel sentinel; e])
  end.

(** [GetActionReceipt]; [fault] is a failure of the query. *)
Definition GetActionReceipt (fault : option gerr) (transactionID : string) (s : audit_store)
    : result (option ActionReceiptRecord) :=
  match fault with
  | Some e => Err (Errorf "%w: %w" [Sentinel "ErrAuditStoreGetReceiptFailed"; e])
  | None => match List.find (has_id transactionID) (as_receipts s) with
            | None => Ok None
            | Some r => rbind (read_row "ErrAuditStoreGetReceiptFailed" r) (fun x => Ok (Some x))
            end
  end.

(** ORDER BY timestamp. *)
Definition ts_le (a b : receipt_row) : Prop := String.leb (rrTimestamp a) (rrTimestamp b) = true.
#[export] Instance ts_le_dec a b : Decision (ts_le a b) := decide (String.leb (rrTimestamp a) (rrTimestamp b) = true).

Definition GetActionReceiptByInvestigationID (fault1 fault2 : option gerr) (investigationID : string)
    (actionType : ActionType) (s : audit_store) : result (option ActionReceiptRecord) :=
  match fault1 with
  | Some e => Err (Errorf "%w: investigation correlation: %w" [Sentinel "ErrAuditStoreGetReceiptFailed"; e])
  | None =>
      let found := List.filter (fun r => String.eqb (rrInvestigationID r) investigationID && String.eqb (rrActionType r) actionType)
                     (as_receipts s) in
      match firstn 2 (rev (merge_sort ts_le found)) with
      | [] => Ok None
      | [r] => GetActionReceipt fault2 (rrTransactionID r) s
      | _ => Err (Sentinel "ErrAuditStoreReceiptCorrelationDuplicate")
      end
  end.

(** Rows turned into records until one does not parse. *)
Fixpoint read_rows (sentinel : string) (l : list receipt_row) : result (list ActionReceiptRecord) :=
  match l with
  | [] => Ok []
  | r :: l => let? x := read_row sentinel r in let? xs := read_rows sentinel l in Ok (x :: xs)
  end.

(** [ListActionReceipts] for a scope of session and app. *)
Definition ListActionReceipts (fault : option gerr) (session app : string) (limit offset : Z) (s : audit_store)
    : result (list ActionReceiptRecord) :=
  let limit := if (limit <=? 0)%Z then 50%Z else limit in
  match fault with
  | Some e => Err (Errorf "%w: %w" [Sentinel "ErrAuditStoreQueryReceiptsFailed"; e])
  | None =>
      let found := List.filter (fun r => (String.eqb session "" || String.eqb (rrSession r) session) &&
                                         (String.eqb app "" || String.eqb (rrActingAppID r) app)) (as_receipts s) in
      read_rows "ErrAuditStoreQueryReceiptsFailed"
        (firstn (Z.to_nat limit) (skipn (Z.to_nat offset) (rev (merge_sort ts_le found))))
  end.

Definition ListActionReceiptsSince (fault : option gerr) (since : gotime) (limit : Z) (s : audit_store)
    : result (list ActionReceiptRecord) :=
  let limit := if (limit <=? 0)%Z then 100%Z else limit in
  match fault with
  | Some e => Err (Errorf "%w %v: %w" [Sentinel "ErrAuditStoreQueryReceiptsSinceFailed"; e])
  | None =>
      let found := List.filter (fun r => String.ltb (FormatTimestamp since) (rrTimestamp r)) (as_receipts s) in
      read_rows "ErrAuditStoreQueryReceiptsSinceFailed" (firstn (Z.to_nat limit) (merge_sort ts_le found))
  end.
End receipts.

(** ** The table *)

(** The row an upsert leaves for its transaction. *)
Definition upserted (new : receipt_row) (l : list receipt_row) : receipt_row :=
  match List.find (has_id (rrTransactionID new)) l with Some old => merge_receipt old new | None => new end.

Lemma find_existsb {A} (f : A -> bool) l : existsb f l = match List.find f l with Some _ => true | None => false end.
Proof. induction l as [|x l IH]; [done|]. simpl. by destruct (f x). Qed.

Lemma find_map_keep {A} (f : A -> bool) (g : A -> A) l :
  (forall x, f (g x) = f x) -> List.find f (map g l) = option_map g (List.find f l).
Proof. intros H. induction l as [|x l IH]; [done|]. simpl. rewrite H. by destruct (f x). Qed.

Lemma find_app {A} (f : A -> bool) l1 l2 :
  List.find f (l1 ++ l2)%list = match List.find f l1 with Some x => Some x | None => List.find f l2 end.
Proof. induction l1 as [|x l1 IH]; [done|]. simpl. by destruct (f x). Qed.

Lemma has_id_other id id' r : has_id id r = true -> id <> id' -> has_id id' r = false.
Proof. unfold has_id. intros H Hne. apply String.eqb_eq in H as <-. by apply String.eqb_neq. Qed.

(** An upsert is seen for its transaction and for no other. *)
Lemma find_upsert new l id :
  List.find (has_id id) (upsert_receipt new l) =
  if String.eqb (rrTransactionID new) id then Some (upserted new l) else List.find (has_id id) l.
Proof.
  unfold upsert_receipt, upserted. set (id0 := rrTransactionID new). rewrite find_existsb.
  set (g := fun r => if has_id id0 r then merge_receipt r new else r).
  assert (Hg : forall x, has_id id (g x) = has_id id x) by (intros x; unfold g; by destruct (has_id id0 x)).
  destruct (String.eqb_spec id0 id) as [<-|Hne].
  - destruct (List.find (has_id id0) l) as [old|] eqn:Hf.
    + rewrite (find_map_keep _ g l Hg), Hf. cbn. f_equal. unfold g. apply find_some in Hf as [_ Hf]. by rewrite Hf.
    + rewrite find_app, Hf. cbn. unfold has_id. by rewrite String.eqb_refl.
  - destruct (List.find (has_id id0) l) as [old|].
    + rewrite (find_map_keep _ g l Hg). destruct (List.find (has_id id) l) as [x|] eqn:Hf; [|done]. cbn. f_equal.
      unfold g. apply find_some in Hf as [_ Hf]. by rewrite (has_id_other id id0 x Hf) by congruence.
    + rewrite find_app. destruct (List.find (has_id id) l); [done|]. cbn. unfold has_id.
      fold id0. by rewrite (proj2 (String.eqb_neq id0 id) Hne).
Qed.

(** ** Recording *)

Section recording.
Context (MarshalCanonical : ActionReceipt -> result string) (UnmarshalCanonical : string -> result ActionReceipt).
Context (err_text : gerr -> string) (vault : Vault) (config : AuditStoreConfig).

(** The chain event of a stage, on a head. *)
Definition stage_row (record : ActionReceiptRecord) (json : option string) (timestamp : gotime) (r : event_row) : Prop :=
  erType r = receipt_event_type /\ erTransactionID r = arTransactionID record /\ erSession r = arOperatorSessionID record /\
  erTimestamp r = FormatTimestamp timestamp /\
  erDigest r = computeEventContentDigest
    {| evTransactionID := arTransactionID record; evSessionID := arOperatorSessionID record; evTimestamp := timestamp;
       evType := receipt_event_type; evContentText := default "" json; evCommandRaw := ""; evExitCode := 0;
       evStdout := (truncateOutput config "").1; evStderr := (truncateOutput config "").1; evDurationMs := 0 |}.

Lemma prepare_ok ev p :
  prepareAuditEventInsert vault config ev = Ok p ->
  pEvent p = ev /\ pTimestampStr p = FormatTimestamp (evTimestamp ev) /\
  pStdoutPlaintext p = (truncateOutput config (evStdout ev)).1 /\ pStderrPlaintext p = (truncateOutput config (evStderr ev)).1.
Proof.
  unfold prepareAuditEventInsert. intros H. repeat apply rbind_Ok in H as (? & _ & H). by injection H as <-.
Qed.

Lemma insert_session_intact id db db' : insert_session id db = (Ok tt, db') -> intact db ->
  intact db' /\ events db' = events db /\ checkpoints db' = checkpoints db.
Proof.
  unfold insert_session. intros [= <-] Hdb. destruct (mem id (sessions db)); [done|].
  split; [destruct Hdb; by split|done].
Qed.

Lemma record_receipt_ok record json timestamp env n s x n' s' :
  record_receipt_tx vault config record json timestamp env n s = (Ok x, n', s') -> intact (as_chain s) ->
  intact (as_chain s') /\ as_receipts s' = upsert_receipt (receipt_row_of record json timestamp) (as_receipts s) /\
  exists r, events (as_chain s') = (events (as_chain s) ++ [r])%list /\ stage_row record json timestamp r /\
    erPrevHash r = (head_of (as_chain s)).2 /\ sealed_row ((head_of (as_chain s)).1 + 1) r /\
    head_of (as_chain s') = (((head_of (as_chain s)).1 + 1)%Z, erHash r).
Proof.
  unfold record_receipt_tx, on_chain, upsertActionReceiptConn. intros H Hdb. sq_inv.
  assert (Hst : as_receipts st = as_receipts s /\ intact (as_chain st) /\ events (as_chain st) = events (as_chain s) /\
    checkpoints (as_chain st) = checkpoints (as_chain s)).
  { destruct (String.eqb (arOperatorSessionID record) ""); sq_inv; [done|]. subst st. cbn.
    destruct v. by destruct (insert_session_intact _ _ _ Hrun Hdb) as (? & ? & ?). }
  destruct Hst as (Hr & Hi & He & Hc). injection Hrun0 as _ <-. cbn [as_chain as_receipts] in *.
  assert (st1 = {| as_chain := as_chain st; as_receipts := upsert_receipt (receipt_row_of record json timestamp) (as_receipts st) |}) as ->.
  { destruct (String.eqb _ ""); sq_inv; [done|]. apply require_session_ok in Hrun1. by subst. }
  cbn [as_chain as_receipts put_chain] in *. apply append_ok in Hrun3 as (-> & _).
  assert (Hh : head_of (as_chain st) = head_of (as_chain s)) by (unfold head_of, anchor; by rewrite He, Hc).
  pose proof (appended_head v2 (as_chain st) Hi) as Ha. rewrite Hh in Ha. rewrite Hr.
  split; [by apply appended_intact|]. split; [done|]. apply prepare_ok in H0 as (Hev & Hts & Hout & Herr).
  eexists. unfold appended at 1. cbn [events]. rewrite He, Hh. split; [done|]. split_and!; try done.
  unfold stage_row, row_on, digest_event. cbn. rewrite Hev, Hts, Hout, Herr. done.
Qed.

Lemma receipt_recorded_ok c now attempts clock record s u s' :
  intact (as_chain s) ->
  RecordActionReceipt MarshalCanonical err_text vault config c now attempts clock (Some record) s = (Ok u, s') ->
  exists json, receipt_json MarshalCanonical record = Ok json /\ intact (as_chain s') /\
    as_receipts s' = upsert_receipt (receipt_row_of record json (record_time clock record)) (as_receipts s) /\
    exists r, events (as_chain s') = (events (as_chain s) ++ [r])%list /\ stage_row record json (record_time clock record) r.
Proof.
  intros Hdb. unfold RecordActionReceipt. destruct (receipt_json MarshalCanonical record) as [json|e]; [|done].
  pose proof (immediate_cases err_text c now attempts
    (fun _ => record_receipt_tx vault config record json (record_time clock record)) s) as H.
  destruct (ExecInImmediateTxWithRetry err_text c now attempts _ s) as [[[x|e] s1] sleeps]; cbn [fst]; [|done].
  intros [= _ <-]. destruct H as (i & n & _ & Hrun). exists json. split; [done|].
  apply record_receipt_ok in Hrun as (Hi & Hr & r & He & Hs & _); [|done]. split_and!; try done. by exists r.
Qed.

Lemma receipt_failed c now attempts clock record s e s' :
  RecordActionReceipt MarshalCanonical err_text vault config c now attempts clock record s = (Err e, s') -> s' = s.
Proof.
  unfold RecordActionReceipt. destruct record as [record|]; [|by intros [= _ <-]].
  destruct (receipt_json MarshalCanonical record) as [json|e']; [|by intros [= _ <-]].
  pose proof (immediate_cases err_text c now attempts
    (fun _ => record_receipt_tx vault config record json (record_time clock record)) s) as H.
  destruct (ExecInImmediateTxWithRetry err_text c now attempts _ s) as [[[x|e'] s1] sleeps]; cbn [fst]; [done|].
  by intros [= _ <-].
Qed.
End recording.

(** ** The stages of a transaction *)

(** One call: its configuration of the driver, the wall clock, the record. *)
Record stage := {
  sgNow : nat -> Z; sgAttempts : nat -> attempt; sgClock : gotime; sgRecord : ActionReceiptRecord
}.

Section stages.
Context (MarshalCanonical : ActionReceipt -> result string) (UnmarshalCanonical : string -> result ActionReceipt).
Context (err_text : gerr -> string) (vault : Vault) (config : AuditStoreConfig) (c : DBConfig).

(** The calls of an execution, until one fails. *)
Fixpoint record_stages (l : list stage) (s : audit_store) : result unit * audit_store :=
  match l with
  | [] => (Ok tt, s)
  | g :: l =>
      match RecordActionReceipt MarshalCanonical err_text vault config c (sgNow g) (sgAttempts g) (sgClock g) (Some (sgRecord g)) s with
      | (Ok _, s) => record_stages l s
      | (Err e, s) => (Err e, s)
      end
  end.

Definition stage_json (g : stage) : option string :=
  match receipt_json MarshalCanonical (sgRecord g) with Ok j => j | Err _ => None end.
Definition stage_time (g : stage) : gotime := record_time (sgClock g) (sgRecord g).
Definition stage_receipt (g : stage) : receipt_row := receipt_row_of (sgRecord g) (stage_json g) (stage_time g).

Lemma merge_self a : merge_receipt a a = a.
Proof. by destruct a. Qed.

Lemma last_cons_default {A} (l : list A) x d : List.last (x :: l) d = List.last l x.
Proof. revert x d. induction l as [|y l IH]; intros x d; [done|]. change (List.last (y :: l) d = List.last (y :: l) x). by rewrite !IH. Qed.

(** The row of the first stage, or the one that was there. *)
Definition base_row (id : string) (first : stage) (s : audit_store) : receipt_row :=
  default (stage_receipt first) (List.find (has_id id) (as_receipts s)).

Lemma upserted_base id g s :
  arTransactionID (sgRecord g) = id ->
  upserted (stage_receipt g) (as_receipts s) = merge_receipt (base_row id g s) (stage_receipt g).
Proof.
  intros <-. unfold upserted, base_row. change (rrTransactionID (stage_receipt g)) with (arTransactionID (sgRecord g)).
  destruct (List.find _ (as_receipts s)); [done|]. cbn [default]. by rewrite merge_self.
Qed.

Lemma one_stage g s u s' :
  intact (as_chain s) ->
  RecordActionReceipt MarshalCanonical err_text vault config c (sgNow g) (sgAttempts g) (sgClock g) (Some (sgRecord g)) s = (Ok u, s') ->
  intact (as_chain s') /\ as_receipts s' = upsert_receipt (stage_receipt g) (as_receipts s) /\
  exists r, events (as_chain s') = (events (as_chain s) ++ [r])%list /\
    stage_row config (sgRecord g) (stage_json g) (stage_time g) r.
Proof.
  intros Hdb H. apply receipt_recorded_ok in H as (json & Hj & Hi & Hr & r & He & Hs); [|done].
  unfold stage_receipt, stage_json, stage_time. rewrite Hj. split_and!; try done. by exists r.
Qed.

(** What a history of stages of one transaction leaves. *)
Lemma record_stages_spec id first rest s s' :
  intact (as_chain s) -> Forall (fun g => arTransactionID (sgRecord g) = id) (first :: rest) ->
  record_stages (first :: rest) s = (Ok tt, s') ->
  (intact (as_chain s') /\
   exists rows, events (as_chain s') = (events (as_chain s) ++ rows)%list /\
     Forall2 (fun g => stage_row config (sgRecord g) (stage_json g) (stage_time g)) (first :: rest) rows) /\
  List.find (has_id id) (as_receipts s') =
    Some (merge_receipt (base_row id first s) (stage_receipt (List.last rest first))) /\
  (forall id', id' <> id -> List.find (has_id id') (as_receipts s') = List.find (has_id id') (as_receipts s)).
Proof.
  revert first s. induction rest as [|g rest IH]; intros first s Hdb Hid H; cbn [record_stages] in H;
    apply Forall_cons in Hid as [Hid Hids];
    destruct (RecordActionReceipt _ _ _ _ _ _ _ _ _ _) as [[u|e] s1] eqn:H1; try done;
    destruct (one_stage first s u s1 Hdb H1) as (Hi & Hr & r & He & Hrow);
    assert (Hother : forall id', id' <> id -> List.find (has_id id') (as_receipts s1) = List.find (has_id id') (as_receipts s))
      by (intros id' Hne; rewrite Hr, find_upsert; cbn; by rewrite (proj2 (String.eqb_neq _ _)) by congruence);
    assert (Hfind : List.find (has_id id) (as_receipts s1) = Some (merge_receipt (base_row id first s) (stage_receipt first)))
      by (rewrite Hr, find_upsert, (upserted_base id) by done; cbn; by rewrite Hid, String.eqb_refl).
  - injection H as <-. split_and!; try done. exists [r]. split; [done|]. by constructor.
  - destruct (IH g s1 Hi Hids H) as ((Hi' & rows & He' & Hrows) & Hf & Ho). split_and!; try done.
    + exists (r :: rows). rewrite He', He, <- app_assoc. split; [done|]. by constructor.
    + rewrite Hf. unfold base_row at 1. rewrite Hfind. cbn [from_option].
      rewrite last_cons_default. exact eq_refl.
    + intros id' Hne. by rewrite Ho, Hother.
Qed.

(** C18: The table keeps one row per transaction - who, what and the first signer from the
    first stage, status, summary, root after, signature and receipt from the last - and
    leaves every other transaction's row alone, while the audit chain keeps every stage:
    one event each, in order, whose digest is that of the stage's canonical receipt. *)
Theorem receipt_history id first rest s s' :
  intact (as_chain s) -> Forall (fun g => arTransactionID (sgRecord g) = id) (first :: rest) ->
  record_stages (first :: rest) s = (Ok tt, s') ->
  (intact (as_chain s') /\
   exists rows, events (as_chain s') = (events (as_chain s) ++ rows)%list /\
     Forall2 (fun g => stage_row config (sgRecord g) (stage_json g) (stage_time g)) (first :: rest) rows) /\
  List.find (has_id id) (as_receipts s') =
    (let old := base_row id first s in let new := stage_receipt (List.last rest first) in Some {|
     rrTransactionID := rrTransactionID old; rrTransactionHash := rrTransactionHash old;
     rrInvestigationID := rrInvestigationID new; rrOperatorID := rrOperatorID old; rrSession := rrSession old;
     rrRequestorUserID := rrRequestorUserID old; rrActingAppID := rrActingAppID old; rrEventType := rrEventType old;
     rrActionType := rrActionType old; rrTargetResource := rrTargetResource old; rrStatus := rrStatus new;
     rrResultSummary := rrResultSummary new; rrStateRootBefore := rrStateRootBefore old;
     rrStateRootAfter := rrStateRootAfter new; rrExecutedAtMs := rrExecutedAtMs new; rrSignerKeyID := rrSignerKeyID old;
     rrSignature := rrSignature new; rrReceiptJSON := rrReceiptJSON new; rrTimestamp := rrTimestamp new |}) /\
  (forall id', id' <> id -> List.find (has_id id') (as_receipts s') = List.find (has_id id') (as_receipts s)).
Proof. apply record_stages_spec. Qed.
End stages.

(** ** Retention *)

Section prune.
Context (err_text : gerr -> string) (c : DBConfig).

Definition delete_receipts (cutoff : string) (s : audit_store) : result unit * audit_store :=
  (Ok tt, {| as_chain := as_chain s; as_receipts := List.filter (fun r => negb (String.ltb (rrTimestamp r) cutoff)) (as_receipts s) |}).

(** The sessions an event or a receipt names. *)
Definition session_used (s : audit_store) (id : string) : bool :=
  existsb (fun r => String.eqb (erSession r) id) (events (as_chain s)) || existsb (fun r => String.eqb (rrSession r) id) (as_receipts s).

Definition delete_sessions (s : audit_store) : result unit * audit_store :=
  let d := as_chain s in
  (Ok tt, put_chain {| sessions := List.filter (session_used s) (sessions d); events := events d;
                       checkpoints := checkpoints d; next_id := next_id d |} s).

(** [auditStorePrune]: what the driver answers in each of its five steps; the file
    mutations it deletes first are another table. *)
Definition auditStorePrune (now : nat -> Z) (mutations : result unit) (attempts : nat -> attempt) (clock : nat -> gotime)
    (receipt_fault session_fault : nat -> option gerr) (cutoff : string) (s : audit_store) : result unit * audit_store :=
  match mutations with
  | Err e => (Err e, s)
  | Ok _ =>
      match PruneChainedAuditEvents err_text c now attempts clock cutoff (as_chain s) with
      | (Err e, d) => (Err e, put_chain d s)
      | (Ok _, d) =>
          match (ExecWithRetry err_text c now receipt_fault (delete_receipts cutoff) (put_chain d s)).1 with
          | (Err e, s) => (Err e, s)
          | (Ok _, s) => (Ok tt, (ExecWithRetry err_text c now session_fault delete_sessions s).1.2)
          end
      end
  end.
End prune.

(** ** The store as a state machine *)

Section store_machine.
Context (MarshalCanonical : ActionReceipt -> result string).
Context (err_text : gerr -> string) (vault : Vault) (config : AuditStoreConfig) (c : DBConfig).

Inductive store_step (s : audit_store) : audit_store -> Prop :=
  | store_chain d : audit_step err_text vault config c (as_chain s) d -> store_step s (put_chain d s)
  | store_receipt now attempts clock record r s' :
      RecordActionReceipt MarshalCanonical err_text vault config c now attempts clock record s = (r, s') -> store_step s s'
  | store_prune now mutations attempts clock receipt_fault session_fault cutoff r s' :
      auditStorePrune err_text c now mutations attempts clock receipt_fault session_fault cutoff s = (r, s') -> store_step s s'.

Inductive store_reachable : audit_store -> Prop :=
  | store_init : store_reachable {| as_chain := empty_db; as_receipts := [] |}
  | store_next s s' : store_reachable s -> store_step s s' -> store_reachable s'.

Definition unique_receipts (s : audit_store) : Prop := NoDup (map rrTransactionID (as_receipts s)).

Lemma upsert_ids new l :
  map rrTransactionID (upsert_receipt new l) =
  if existsb (has_id (rrTransactionID new)) l then map rrTransactionID l else (map rrTransactionID l ++ [rrTransactionID new])%list.
Proof.
  unfold upsert_receipt. destruct (existsb _ l); [|by rewrite map_app]. rewrite map_map. apply map_ext. intros r.
  by destruct (has_id (rrTransactionID new) r).
Qed.

Lemma upsert_unique new l : NoDup (map rrTransactionID l) -> NoDup (map rrTransactionID (upsert_receipt new l)).
Proof.
  intros Hnd. rewrite upsert_ids. destruct (existsb _ l) eqn:He; [done|]. apply NoDup_app. split; [done|].
  split; [|apply NoDup_singleton]. intros id Hid Hn. apply list_elem_of_singleton in Hn as ->.
  apply list_elem_of_fmap in Hid as (r & Hr & Hin). apply not_true_iff_false in He. apply He. apply existsb_exists.
  exists r. split; [by apply list_elem_of_In|]. unfold has_id. by rewrite <- Hr, String.eqb_refl.
Qed.

(** A statement under retries leaves the state or applies its effect. *)
Lemma exec_state {A} now fault (f : audit_store -> result A * audit_store) s :
  (ExecWithRetry err_text c now fault f s).1.2 = s \/ (ExecWithRetry err_text c now fault f s).1.2 = (f s).2.
Proof.
  pose proof (with_retry_cases err_text "sqliteutil: exec failed after %d retries: %w" c now fault f s) as H.
  unfold ExecWithRetry. destruct (with_retry _ _ _ _ _ _ _) as [[[a|e] s'] sleeps]; cbn in *; [|by left].
  right. by rewrite H.
Qed.

(** What the invariant says of the store. *)
Definition whole_store (s : audit_store) : Prop := intact (as_chain s) /\ unique_receipts s.

Lemma unique_filter (f : receipt_row -> bool) l : NoDup (map rrTransactionID l) -> NoDup (map rrTransactionID (List.filter f l)).
Proof.
  induction l as [|x l IH]; intros Hnd; [done|]. cbn in *. apply NoDup_cons in Hnd as [Hx Hnd]. destruct (f x); [|by apply IH].
  cbn. apply NoDup_cons. split; [|by apply IH]. intros (y & Hy & Hin)%list_elem_of_fmap. apply Hx. rewrite Hy.
  apply list_elem_of_fmap_2. apply list_elem_of_In, filter_In in Hin as [Hin _]. by apply list_elem_of_In.
Qed.

Lemma delete_receipts_whole cutoff s : whole_store s -> whole_store (delete_receipts cutoff s).2.
Proof. intros [Hi Hu]. split; [done|]. by apply unique_filter. Qed.

Lemma delete_sessions_whole s : whole_store s -> whole_store (delete_sessions s).2.
Proof. intros [Hi Hu]. split; [|done]. destruct Hi. by split. Qed.

Lemma exec_whole {A} now fault (f : audit_store -> result A * audit_store) s :
  whole_store s -> whole_store (f s).2 -> whole_store (ExecWithRetry err_text c now fault f s).1.2.
Proof. intros Hs Hf. by destruct (exec_state now fault f s) as [-> | ->]. Qed.

Lemma prune_whole now mutations attempts clock rf sf cutoff s r s' :
  auditStorePrune err_text c now mutations attempts clock rf sf cutoff s = (r, s') -> whole_store s -> whole_store s'.
Proof.
  intros H [Hi Hu]. unfold auditStorePrune in H. destruct mutations as [u|e]; [|by injection H as _ <-].
  destruct (PruneChainedAuditEvents err_text c now attempts clock cutoff (as_chain s)) as [r0 d] eqn:Hp.
  assert (Hd : intact d).
  { eapply (step_intact err_text vault config c (as_chain s)); [|done]. by eapply step_prune. }
  assert (Hs : whole_store (put_chain d s)) by by split.
  destruct r0 as [u0|e]; [|by injection H as _ <-].
  pose proof (exec_whole now rf (delete_receipts cutoff) _ Hs (delete_receipts_whole cutoff _ Hs)) as H1.
  destruct (ExecWithRetry err_text c now rf (delete_receipts cutoff) (put_chain d s)) as [[[u1|e] s1] sl]; cbn in H, H1;
    injection H as _ <-; [|done].
  apply exec_whole; [done|by apply delete_sessions_whole].
Qed.

Lemma store_step_whole s s' : store_step s s' -> whole_store s -> whole_store s'.
Proof.
  intros Hs [Hi Hu]. destruct Hs as [d Hd|now attempts clock record r s' H|now mutations attempts clock rf sf cutoff r s' H].
  - split; [by eapply step_intact|done].
  - destruct r as [u|e]; [|apply receipt_failed in H as ->; by split].
    destruct record as [record|]; [|done].
    apply receipt_recorded_ok in H as (json & _ & Hi' & Hr & _); [|done]. split; [done|].
    unfold unique_receipts. rewrite Hr. by apply upsert_unique.
  - by eapply prune_whole.
Qed.

(** C17: Whatever is recorded, batched, pruned and received, in any order and with any
    failures of the driver, the committed store stays whole: sequence numbers are unique,
    the rows after the latest checkpoint are one unbroken chain from it, the verification
    of the whole chain raises no alarm, and a transaction has one receipt.  (Statements
    that run on a connection a failed COMMIT left in its transaction are not committed,
    and transactions fail while it stays: [Sqlite.open_transaction_blocks].) *)
Theorem store_whole s :
  store_reachable s ->
  whole_store s /\ (VerifyChain 0 (fun _ => None) 0%nat (as_chain s)).1.1 = Ok tt.
Proof.
  intros Hr. assert (Hw : whole_store s).
  { induction Hr as [|s s' _ IH Hs]; [|by eapply store_step_whole]. split; [apply empty_intact|constructor]. }
  split; [done|]. apply intact_verifies, Hw.
Qed.
End store_machine.

(** ** A concrete store *)

(** A stage at second [t]; the canonical text of a receipt is its summary. *)
Definition ex_receipt (status : ExecutionStatus) (summary : string) : ActionReceipt := {|
  rcTransactionId := "tx-1"; rcTransactionHash := "hash-1"; rcStatus := status; rcResultSummary := summary;
  rcStateRootBefore := "root-1"; rcStateRootAfter := ""; rcExecutedAtUnixMs := 1700000001000; rcSignerKeyId := "key-1";
  rcSignature := "sig"; rcL2Status := LAYER_NOT_REQUIRED; rcL3Status := LAYER_NOT_REQUIRED; rcStages := [];
  rcAttestation := None; rcFailureCode := CODE_UNSPECIFIED; rcEventType := "g8e.v1.operator.command.requested";
  rcActionType := "EXECUTE_COMMAND" |}.

Definition ex_stage (t : Z) (id : string) (status : ExecutionStatus) (summary : string) : stage := {|
  sgNow := ex_now; sgAttempts := ex_quiet; sgClock := 1700000100000000000%Z;
  sgRecord := {|
    arTransactionID := id; arTransactionHash := "hash-1"; arInvestigationID := ""; arOperatorID := "operator-1";
    arOperatorSessionID := "session-1"; arRequestorUserID := ""; arActingAppID := ""; arEventType := "g8e.v1.operator.command.requested";
    arActionType := "EXECUTE_COMMAND"; arTargetResource := "host"; arStatus := status; arResultSummary := summary;
    arStateRootBefore := "root-1"; arStateRootAfter := ""; arExecutedAtUnixMs := 1700000001000; arSignerKeyID := "key-1";
    arSignature := "sig"; arL2Valid := true; arL3Valid := true; arTimestamp := ((1700000000 + t) * 1000000000)%Z;
    arActionReceipt := Some (ex_receipt status summary) |} |}.

Definition ex_marshal (r : ActionReceipt) : result string := Ok (rcResultSummary r).
Definition ex_store : audit_store := {| as_chain := empty_db; as_receipts := [] |}.
Notation ex_stages := (record_stages ex_marshal ex_text ex_vault ex_config DefaultDBConfig).
Notation ex_executed := (ex_stages [ex_stage 1 "tx-1" STATUS_EXECUTING "executing"; ex_stage 2 "tx-1" STATUS_COMPLETED "done"] ex_store).

Example ex_executed_row :
  ex_executed.1 = Ok tt /\
  map (fun r => (rrTransactionID r, rrStatus r, rrReceiptJSON r, rrTimestamp r)) (as_receipts ex_executed.2) =
    [("tx-1", STATUS_COMPLETED, Some "done", "2023-11-14T22:13:22.000000Z")] /\
  map (fun r => (erSeq r, erType r, erContent r)) (events (as_chain ex_executed.2)) =
    [(Some 1%Z, receipt_event_type, "executing"); (Some 2%Z, receipt_event_type, "done")].
Proof. vm_compute. done. Qed.

(** Read back, the record has lost the verdicts of the layers. *)
Example ex_read_back :
  match GetActionReceipt (fun t => Ok (ex_receipt STATUS_COMPLETED t)) None "tx-1" ex_executed.2 with
  | Ok (Some r) => (arStatus r, arActionReceipt r, arL2Valid r) = (STATUS_COMPLETED, Some (ex_receipt STATUS_COMPLETED "done"), false)
  | _ => False
  end.
Proof. vm_compute. done. Qed.

(** Two transactions of one investigation are not told apart. *)
Example ex_correlation :
  GetActionReceiptByInvestigationID (fun t => Ok (ex_receipt STATUS_COMPLETED t)) None None "" "EXECUTE_COMMAND"
    (ex_stages [ex_stage 3 "tx-2" STATUS_COMPLETED "done"] ex_executed.2).2 =
  Err (Sentinel "ErrAuditStoreReceiptCorrelationDuplicate").
Proof. vm_compute. done. Qed.

Lemma ex_executed_intact : intact (as_chain ex_executed.2).
Proof.
  apply (record_stages_spec ex_marshal ex_text ex_vault ex_config DefaultDBConfig "tx-1"
           (ex_stage 1 "tx-1" STATUS_EXECUTING "executing") [ex_stage 2 "tx-1" STATUS_COMPLETED "done"] ex_store).
  - apply empty_intact.
  - repeat constructor.
  - vm_compute. reflexivity.
Qed.

Lemma receipt_history_witness :
  (intact (as_chain ex_executed.2) /\
   exists rows, events (as_chain ex_executed.2) = (events (as_chain ex_store) ++ rows)%list /\
     Forall2 (fun g => stage_row ex_config (sgRecord g) (stage_json ex_marshal g) (stage_time g))
       [ex_stage 1 "tx-1" STATUS_EXECUTING "executing"; ex_stage 2 "tx-1" STATUS_COMPLETED "done"] rows) /\
  List.find (has_id "tx-1") (as_receipts ex_executed.2) =
    (let old := base_row ex_marshal "tx-1" (ex_stage 1 "tx-1" STATUS_EXECUTING "executing") ex_store in let new := stage_receipt ex_marshal (ex_stage 2 "tx-1" STATUS_COMPLETED "done") in Some {|
     rrTransactionID := rrTransactionID old; rrTransactionHash := rrTransactionHash old;
     rrInvestigationID := rrInvestigationID new; rrOperatorID := rrOperatorID old; rrSession := rrSession old;
     rrRequestorUserID := rrRequestorUserID old; rrActingAppID := rrActingAppID old; rrEventType := rrEventType old;
     rrActionType := rrActionType old; rrTargetResource := rrTargetResource old; rrStatus := rrStatus new;
     rrResultSummary := rrResultSummary new; rrStateRootBefore := rrStateRootBefore old;
     rrStateRootAfter := rrStateRootAfter new; rrExecutedAtMs := rrExecutedAtMs new; rrSignerKeyID := rrSignerKeyID old;
     rrSignature := rrSignature new; rrReceiptJSON := rrReceiptJSON new; rrTimestamp := rrTimestamp new |}) /\
  (forall id', id' <> "tx-1" -> List.find (has_id id') (as_receipts ex_executed.2) = List.find (has_id id') (as_receipts ex_store)).
Proof.
  apply (receipt_history ex_marshal ex_text ex_vault ex_config DefaultDBConfig "tx-1"
           (ex_stage 1 "tx-1" STATUS_EXECUTING "executing") [ex_stage 2 "tx-1" STATUS_COMPLETED "done"] ex_store).
  - apply empty_intact.
  - repeat constructor.
  - vm_compute. reflexivity.
Defined.

Notation ex_kept := (auditStorePrune ex_text DefaultDBConfig ex_now (Ok tt) ex_quiet (fun _ => 1700000100000000000%Z)
  (fun _ => None) (fun _ => None) "2023-11-14T22:13:22.500000Z" ex_executed.2).

(** Retention drops both stages, the receipt and the session, behind a checkpoint. *)
Example ex_kept_nothing :
  map erType (events (as_chain ex_kept.2)) = [checkpoint_type] /\ as_receipts ex_kept.2 = [] /\
  sessions (as_chain ex_kept.2) = [].
Proof. vm_compute. done. Qed.

Lemma store_whole_witness :
  whole_store ex_kept.2 /\ (VerifyChain 0 (fun _ => None) 0%nat (as_chain ex_kept.2)).1.1 = Ok tt.
Proof.
  apply (store_whole ex_marshal ex_text ex_vault ex_config DefaultDBConfig).
  assert (Hr : forall g s, store_reachable ex_marshal ex_text ex_vault ex_config DefaultDBConfig s ->
    store_reachable ex_marshal ex_text ex_vault ex_config DefaultDBConfig
      (RecordActionReceipt ex_marshal ex_text ex_vault ex_config DefaultDBConfig (sgNow g) (sgAttempts g) (sgClock g) (Some (sgRecord g)) s).2).
  { intros g s Hs. eapply store_next; [exact Hs|]. eapply store_receipt. apply surjective_pairing. }
  eapply store_next; [|eapply store_prune; apply surjective_pairing].
  pose proof (Hr (ex_stage 1 "tx-1" STATUS_EXECUTING "executing") ex_store (store_init _ _ _ _ _)) as H1.
  exact (Hr (ex_stage 2 "tx-1" STATUS_COMPLETED "done") _ H1).
Defined.
