(* ===== verification/Segment.v ===== *)
(** Exported segments of the audit chain
    ([src/internal/services/storage/audit_chain_segment.go]).

    An entry is one chained event on its own; a verifier that has the entries, the hash
    before them and the hash of the last recomputes the links without the database. *)
From S2P Require Import Prelude Errors Encoding Sha256 Timestamp TimeParse Json JsonEncode JsonDecode AuditChain.
From Stdlib Require Import String Ascii List ZArith Lia Bool.
From stdpp Require Import base strings list sorting pretty.
Open Scope string_scope.

Record AuditChainSegmentEntry := {
  seSeq : Z; sePrevHash : string; seHash : string; seEventType : string; seSession : string; seTimestamp : string;
  seDigest : string; seTransactionID : string; seContentText : string
}.

(** ** The JSON of an entry *)

(** A member with [omitempty]. *)
Definition opt_member (name value : string) : list (string * jval) :=
  if String.eqb value "" then [] else [(name, JS value)].

Definition entry_members (e : AuditChainSegmentEntry) : list (string * jval) :=
  ([("seq", JI (seSeq e)); ("prev_hash", JS (sePrevHash e)); ("hash", JS (seHash e)); ("event_type", JS (seEventType e))] ++
   opt_member "operator_session_id" (seSession e) ++
   [("timestamp", JS (seTimestamp e)); ("content_digest", JS (seDigest e))] ++
   opt_member "transaction_id" (seTransactionID e) ++ opt_member "content_text" (seContentText e))%list.

(** No value of the struct fails to marshal. *)
Definition MarshalAuditChainSegmentEntry (e : AuditChainSegmentEntry) : result string := Ok (json_object (entry_members e)).

Definition read_entry (ms : list (string * json)) : option AuditChainSegmentEntry :=
  seq ← read_int64 "seq" ms; prev ← read_string "prev_hash" ms; hash ← read_string "hash" ms;
  type ← read_string "event_type" ms; session ← read_string "operator_session_id" ms;
  at_time ← read_string "timestamp" ms; digest ← read_string "content_digest" ms;
  tx ← read_string "transaction_id" ms; content ← read_string "content_text" ms;
  Some {| seSeq := seq; sePrevHash := prev; seHash := hash; seEventType := type; seSession := session;
          seTimestamp := at_time; seDigest := digest; seTransactionID := tx; seContentText := content |}.

Definition incomplete (e : AuditChainSegmentEntry) : bool :=
  (seSeq e <=? 0)%Z || String.eqb (sePrevHash e) "" || String.eqb (seHash e) "" || String.eqb (seEventType e) "" ||
  String.eqb (seTimestamp e) "" || String.eqb (seDigest e) "".

Definition UnmarshalAuditChainSegmentEntry (body : string) : result AuditChainSegmentEntry :=
  match (ms ← struct_members body; read_entry ms) with
  | None => Err (Errorf "audit chain segment: decode entry: %w" [Extern "json"])
  | Some e =>
      if incomplete e
      then Err (Errorf "%w: audit chain segment entry is incomplete" [Sentinel "ErrEvidenceArtifactMalformed"])
      else Ok e
  end.

(** ** Verification *)

(** [sort.Slice] by sequence number; entries with one number are refused whatever their order. *)
Definition entry_le (a b : AuditChainSegmentEntry) : Prop := (seSeq a <= seSeq b)%Z.
#[export] Instance entry_le_dec a b : Decision (entry_le a b) := Z_le_dec (seSeq a) (seSeq b).
Definition sorted_entries (l : list AuditChainSegmentEntry) : list AuditChainSegmentEntry := merge_sort entry_le l.

(** The event the content digest is recomputed from. *)
Definition content_event (text : string) : Event := {|
  evTransactionID := ""; evSessionID := ""; evTimestamp := 0%Z; evType := ""; evContentText := text; evCommandRaw := "";
  evExitCode := 0; evStdout := ""; evStderr := ""; evDurationMs := 0 |}.

Definition entry_hash (e : AuditChainSegmentEntry) : string :=
  computeAuditEventHash (seSeq e) (sePrevHash e) (seEventType e) (seSession e) (seTimestamp e) (seDigest e) (seTransactionID e).

(** The loop; [before] is the number of the entry before, if any. *)
Fixpoint verify_entries (before : option Z) (expectedPrevHash : string) (l : list AuditChainSegmentEntry) : result unit :=
  match l with
  | [] => Ok tt
  | e :: l =>
      let? _ := require (match before with Some s => (seSeq e =? s + 1)%Z | None => true end)
                        (Errorf "audit chain segment: sequence gap before seq %d" []) in
      let? _ := require (String.eqb (sePrevHash e) expectedPrevHash) (Errorf "audit chain segment: prev_hash mismatch at seq %d" []) in
      let? _ := require (String.eqb (seContentText e) "" ||
                         String.eqb (computeEventContentDigest (content_event (seContentText e))) (seDigest e))
                        (Errorf "audit chain segment: content_digest mismatch at seq %d" []) in
      let? _ := wrap_err "audit chain segment: timestamp at seq %d: %w" (ParseTimestamp (seTimestamp e)) in
      let? _ := require (String.eqb (entry_hash e) (seHash e)) (Errorf "audit chain segment: hash mismatch at seq %d" []) in
      verify_entries (Some (seSeq e)) (seHash e) l
  end.

Definition last_entry_hash (l : list AuditChainSegmentEntry) : string :=
  match last l with Some e => seHash e | None => "" end.

Definition VerifyAuditChainSegment (entries : list AuditChainSegmentEntry) (boundaryPriorHash headHash : string) : result unit :=
  match sorted_entries entries with
  | [] => Ok tt
  | e :: l =>
      let? _ := require (String.eqb boundaryPriorHash "" || String.eqb (sePrevHash e) boundaryPriorHash)
                        (Errorf "audit chain segment: boundary prior hash mismatch at seq %d" []) in
      let? _ := require (String.eqb headHash "" || String.eqb (last_entry_hash (e :: l)) headHash)
                        (Errorf "audit chain segment: head hash mismatch at seq %d" []) in
      verify_entries None (sePrevHash e) (e :: l)
  end.

(** ** Round trip *)

Definition entry_fields : list string :=
  ["seq"; "prev_hash"; "hash"; "event_type"; "operator_session_id"; "timestamp"; "content_digest"; "transaction_id"; "content_text"].

(** No two fields differ in letter case only. *)
Lemma entry_field_key a b : a ∈ entry_fields -> b ∈ entry_fields -> field_key a b = String.eqb a b.
Proof.
  intros Ha Hb. assert (H : forallb (fun a => forallb (fun b => Bool.eqb (field_key a b) (String.eqb a b)) entry_fields) entry_fields = true)
    by (vm_compute; reflexivity).
  rewrite forallb_forall in H. specialize (H a ltac:(by apply list_elem_of_In)). rewrite forallb_forall in H.
  specialize (H b ltac:(by apply list_elem_of_In)). by apply eqb_prop.
Qed.

(** Reading by the exact name. *)
Fixpoint read_exact {A} (rd : json -> option (option A)) (name : string) (ms : list (string * json)) (cur : A) : option A :=
  match ms with
  | [] => Some cur
  | (k, v) :: ms =>
      if String.eqb name k then
        match rd v with
        | Some (Some a) => read_exact rd name ms a
        | Some None => read_exact rd name ms cur
        | None => None
        end
      else read_exact rd name ms cur
  end.

Lemma read_field_exact {A} (rd : json -> option (option A)) name ms cur :
  name ∈ entry_fields -> Forall (fun kv => kv.1 ∈ entry_fields) ms -> read_field rd name ms cur = read_exact rd name ms cur.
Proof.
  intros Hn Hms. revert cur. induction Hms as [|[k v] ms Hk _ IH]; intros cur; [done|]. cbn [read_field read_exact].
  rewrite (entry_field_key name k Hn Hk). destruct (String.eqb name k); [|apply IH].
  destruct (rd v) as [[a|]|]; [apply IH..|done].
Qed.

Definition entry_texts (e : AuditChainSegmentEntry) : list string :=
  [sePrevHash e; seHash e; seEventType e; seSession e; seTimestamp e; seDigest e; seTransactionID e; seContentText e].

Lemma entry_members_ok e : Forall valid_utf8 (entry_texts e) -> Forall member_ok (entry_members e).
Proof.
  intros H. unfold entry_texts in H. repeat (apply Forall_cons in H as [? H]).
  unfold entry_members, opt_member.
  repeat case_match; cbn [app]; repeat (constructor; [split; [by vm_compute|done]|]); constructor.
Qed.

Lemma read_int64_member (z : Z) : (- 2 ^ 63 <= z < 2 ^ 63)%Z -> rd_int64 (to_json (JI z)) = Some (Some z).
Proof. intros Hz. cbn [to_json rd_int64]. by rewrite ParseInt64_pretty. Qed.

Lemma entry_members_fields e : Forall (fun kv => kv.1 ∈ entry_fields) (map to_member (entry_members e)).
Proof.
  assert (H : forall l : list (string * json), forallb (fun kv => mem kv.1 entry_fields) l = true -> Forall (fun kv => kv.1 ∈ entry_fields) l).
  { intros l Hl. apply List.Forall_forall. intros x Hx. rewrite forallb_forall in Hl. by apply mem_true, Hl. }
  apply H. unfold entry_members, opt_member. by repeat case_match.
Qed.

Lemma read_entry_members e :
  (- 2 ^ 63 <= seSeq e < 2 ^ 63)%Z -> read_entry (map to_member (entry_members e)) = Some e.
Proof.
  intros Hz. unfold read_entry, read_string, read_int64.
  assert (Hf : forall a, mem a entry_fields = true -> a ∈ entry_fields) by (intros a; apply mem_true).
  rewrite !read_field_exact by (first [apply entry_members_fields | apply Hf; vm_compute; reflexivity]).
  unfold entry_members, opt_member.
  destruct (String.eqb_spec (seSession e) ""), (String.eqb_spec (seTransactionID e) ""), (String.eqb_spec (seContentText e) "");
    cbn [app map to_member fst snd read_exact String.eqb Ascii.eqb Bool.eqb]; rewrite read_int64_member by done;
    cbn [to_json rd_string mbind option_bind]; f_equal; destruct e; cbn in *; congruence.
Qed.

Lemma entry_roundtrip e :
  Forall valid_utf8 (entry_texts e) -> (- 2 ^ 63 <= seSeq e < 2 ^ 63)%Z ->
  rbind (MarshalAuditChainSegmentEntry e) UnmarshalAuditChainSegmentEntry =
  if incomplete e
  then Err (Errorf "%w: audit chain segment entry is incomplete" [Sentinel "ErrEvidenceArtifactMalformed"])
  else Ok e.
Proof.
  intros Hu Hz. cbn [rbind MarshalAuditChainSegmentEntry]. unfold UnmarshalAuditChainSegmentEntry, struct_members.
  rewrite parse_json_object by by apply entry_members_ok. cbn [mbind option_bind]. by rewrite read_entry_members.
Qed.

(** What is exported is what is read: an entry whose texts are UTF-8 comes back as it
    was when it is complete, and an incomplete one is refused. *)
Theorem segment_entry_roundtrip e :
  Forall valid_utf8 (entry_texts e) -> (- 2 ^ 63 <= seSeq e < 2 ^ 63)%Z ->
  rbind (MarshalAuditChainSegmentEntry e) UnmarshalAuditChainSegmentEntry =
  if incomplete e
  then Err (Errorf "%w: audit chain segment entry is incomplete" [Sentinel "ErrEvidenceArtifactMalformed"])
  else Ok e.
Proof. apply entry_roundtrip. Qed.

(** ** What a verified segment says *)

(** The entry is sealed: its time parses, its content has its digest and its hash covers it. *)
Definition entry_ok (e : AuditChainSegmentEntry) : Prop :=
  (seContentText e = "" \/ computeEventContentDigest (content_event (seContentText e)) = seDigest e) /\
  is_ok (ParseTimestamp (seTimestamp e)) = true /\ entry_hash e = seHash e.

(** Consecutive entries from a number and a hash on. *)
Fixpoint consecutive (s : Z) (h : string) (l : list AuditChainSegmentEntry) : Prop :=
  match l with
  | [] => True
  | e :: l => seSeq e = s /\ sePrevHash e = h /\ consecutive (s + 1) (seHash e) l
  end.

Lemma require_bind {A} c e (k : unit -> result A) r : rbind (require c e) k = Ok r <-> c = true /\ k tt = Ok r.
Proof. destruct c; cbn; [naive_solver|]. split; [done|by intros [? _]]. Qed.

Lemma wrap_bind {A B} f (x : result B) (k : result A) r : rbind (wrap_err f x) (fun _ => k) = Ok r <-> is_ok x = true /\ k = Ok r.
Proof. destruct x; cbn; [naive_solver|]. split; [done|by intros [? _]]. Qed.

Lemma entry_checks e :
  String.eqb (seContentText e) "" || String.eqb (computeEventContentDigest (content_event (seContentText e))) (seDigest e) = true /\
  is_ok (ParseTimestamp (seTimestamp e)) = true /\ String.eqb (entry_hash e) (seHash e) = true <-> entry_ok e.
Proof. unfold entry_ok. by rewrite orb_true_iff, !String.eqb_eq. Qed.

Lemma verify_entries_spec before h l :
  verify_entries before h l = Ok tt <->
  Forall entry_ok l /\
  match before, l with
  | Some s, _ => consecutive (s + 1) h l
  | None, e :: _ => consecutive (seSeq e) h l
  | None, [] => True
  end.
Proof.
  revert before h. induction l as [|e l IH]; intros before h; cbn [verify_entries].
  { split; [|done]. intros _. split; [constructor|]. by destruct before. }
  rewrite !require_bind, wrap_bind, require_bind, IH, Forall_cons, <- entry_checks. cbn [consecutive].
  destruct before as [s|]; rewrite ?Z.eqb_eq, String.eqb_eq; [|naive_solver]. split.
  - intros (-> & ? & ? & ? & ? & ? & ?). naive_solver.
  - intros (? & -> & ? & ?). naive_solver.
Qed.

Lemma VerifyAuditChainSegment_Ok entries boundary head :
  VerifyAuditChainSegment entries boundary head = Ok tt <->
  match sorted_entries entries with
  | [] => True
  | e :: l => (boundary = "" \/ sePrevHash e = boundary) /\ (head = "" \/ last_entry_hash (e :: l) = head) /\
              Forall entry_ok (e :: l) /\ consecutive (seSeq e) (sePrevHash e) (e :: l)
  end.
Proof.
  unfold VerifyAuditChainSegment. destruct (sorted_entries entries) as [|e l]; [done|].
  by rewrite !require_bind, verify_entries_spec, !orb_true_iff, !String.eqb_eq.
Qed.

(** A segment is accepted exactly when its entries, in the order of their numbers, are
    consecutive links from the boundary to the head - where these are given - and each of
    them is sealed. *)
Theorem segment_accepted entries boundary head :
  VerifyAuditChainSegment entries boundary head = Ok tt <->
  match sorted_entries entries with
  | [] => True
  | e :: l => (boundary = "" \/ sePrevHash e = boundary) /\ (head = "" \/ last_entry_hash (e :: l) = head) /\
              Forall entry_ok (e :: l) /\ consecutive (seSeq e) (sePrevHash e) (e :: l)
  end.
Proof. apply VerifyAuditChainSegment_Ok. Qed.

(** ** A concrete segment *)

Definition ex_entry (seq : Z) (prev text : string) : AuditChainSegmentEntry :=
  let digest := computeEventContentDigest (content_event text) in
  {| seSeq := seq; sePrevHash := prev;
     seHash := computeAuditEventHash seq prev "t" "" "2023-11-14T22:13:20.000000Z" digest "tx-1"; seEventType := "t";
     seSession := ""; seTimestamp := "2023-11-14T22:13:20.000000Z"; seDigest := digest; seTransactionID := "tx-1";
     seContentText := text |}.
Definition ex_first := ex_entry 7 "h6" "<a & b>".
Definition ex_second := ex_entry 8 (seHash ex_first) "".

(** Given in any order, without a head. *)
Example ex_segment : VerifyAuditChainSegment [ex_second; ex_first] "h6" "" = Ok tt.
Proof. vm_compute. done. Qed.

(** A missing entry shows. *)
Example ex_gap : is_ok (VerifyAuditChainSegment [ex_entry 9 (seHash ex_second) ""; ex_first] "" "") = false.
Proof. vm_compute. done. Qed.

Lemma segment_entry_roundtrip_witness :
  rbind (MarshalAuditChainSegmentEntry ex_first) UnmarshalAuditChainSegmentEntry =
  if incomplete ex_first
  then Err (Errorf "%w: audit chain segment entry is incomplete" [Sentinel "ErrEvidenceArtifactMalformed"])
  else Ok ex_first.
Proof.
  apply (segment_entry_roundtrip ex_first).
  - repeat constructor; vm_compute; reflexivity.
  - vm_compute. split; [discriminate|reflexivity].
Defined.
