(* ===== verification/Snapshot.v ===== *)
(** Bounded read-only snapshots of the operational evidence
    ([src/internal/services/storage/operational_snapshot.go]).

    A snapshot reads the receipts, the commitments and the receipt events of a window in one
    transaction.  The two tables are selected by milliseconds, the events by the text of
    their time.  Commitment ids count from one: no row is deleted and an insert that is
    rolled back leaves no gap.  Contexts are not cancelled. *)
From S2P Require Import Prelude Errors Sqlite Timestamp TimeParse Receipt Commitment AuditChain AuditMigrate ReceiptStore.
From Stdlib Require Import String Ascii List ZArith Lia Bool.
From stdpp Require Import base strings list sorting sets.
Open Scope string_scope.

Record OperationalEvidenceQuery := { WindowStart : gotime; WindowEnd : gotime; MaxRows : Z }.

(** A nil body is [None]. *)
Record OperationalReceiptSource := { srTransactionID : string; srExecutedAt : gotime; srBody : option string }.
Record OperationalCommitmentSource := {
  scSequence : Z; scTransactionID : string; scCommittedAt : gotime; scBody : string
}.
Record OperationalAuditChainSource := {
  saSeq : Z; saPrevHash : string; saHash : string; saEventType : string; saSession : string; saTimestamp : gotime;
  saDigest : string; saTransactionID : string; saContentText : string
}.

Record OperationalEvidenceSnapshot := {
  snReceipts : list OperationalReceiptSource; snCommitments : list OperationalCommitmentSource;
  snAuditChain : list OperationalAuditChainSource
}.

(** The database of a gateway or an operator. *)
Record evidence_db := { ed_store : audit_store; ed_ledger : ledger }.

(** ** Rows *)

(** The loop over the rows of a query: the first row over the bound fails. *)
Fixpoint read_bounded {A B} (scan : A -> result B) (what : string) (maxRows read : Z) (rows : list A) : result (list B) :=
  match rows with
  | [] => Ok []
  | a :: rows =>
      let? b := scan a in
      let? _ := require (read + 1 <=? maxRows)%Z (Errorf what [Sentinel "ErrEvidenceArtifactTooLarge"]) in
      let? bs := read_bounded scan what maxRows (read + 1) rows in
      Ok (b :: bs)
  end.

(** executed_at_ms >= ? AND executed_at_ms <= ?, and the same for commitments. *)
Definition in_window (q : OperationalEvidenceQuery) (ms : Z) : bool :=
  (UnixMilli (WindowStart q) <=? ms)%Z && (ms <=? UnixMilli (WindowEnd q))%Z.

(** ORDER BY executed_at_ms ASC, transaction_id ASC. *)
Definition receipt_le (a b : receipt_row) : Prop :=
  (rrExecutedAtMs a < rrExecutedAtMs b)%Z \/
  (rrExecutedAtMs a = rrExecutedAtMs b /\ String.leb (rrTransactionID a) (rrTransactionID b) = true).
#[export] Instance receipt_le_dec a b : Decision (receipt_le a b).
Proof. unfold receipt_le. apply _. Defined.

Definition receipt_source (r : receipt_row) : OperationalReceiptSource := {|
  srTransactionID := rrTransactionID r; srExecutedAt := of_milli (rrExecutedAtMs r); srBody := rrReceiptJSON r |}.

Definition receipts_of (q : OperationalEvidenceQuery) (db : evidence_db) : list receipt_row :=
  merge_sort receipt_le (List.filter (fun r => in_window q (rrExecutedAtMs r)) (as_receipts (ed_store db))).

(** The rows with their ids, the oldest first. *)
Definition numbered (l : ledger) : list (Z * CommitmentRow) := imap (fun i r => (Z.of_nat i + 1, r)%Z) (rev l).

Definition commitment_source (x : Z * CommitmentRow) : OperationalCommitmentSource := {|
  scSequence := x.1; scTransactionID := caTransactionId (crAttestation x.2);
  scCommittedAt := of_milli (caCommittedAtUnixMs (crAttestation x.2)); scBody := crJSON x.2 |}.

Definition commitments_of (q : OperationalEvidenceQuery) (db : evidence_db) : list (Z * CommitmentRow) :=
  List.filter (fun x => in_window q (caCommittedAtUnixMs (crAttestation x.2))) (numbered (ed_ledger db)).

(** type = ? AND timestamp >= ? AND timestamp <= ?, on the texts. *)
Definition chain_selected (q : OperationalEvidenceQuery) (x : Z * event_row) : bool :=
  String.eqb (erType x.2) receipt_event_type &&
  String.leb (FormatRFC3339Nano (WindowStart q)) (erTimestamp x.2) &&
  String.leb (erTimestamp x.2) (FormatRFC3339Nano (WindowEnd q)).

Definition chain_of (q : OperationalEvidenceQuery) (db : evidence_db) : list (Z * event_row) :=
  by_seq (List.filter (chain_selected q) (chained_rows (events (as_chain (ed_store db))))).

Definition chain_source (x : Z * event_row) : result OperationalAuditChainSource :=
  let? parsedAt := wrap_err "operational evidence: parse audit chain timestamp: %w" (ParseTimestamp (erTimestamp x.2)) in
  Ok {| saSeq := x.1; saPrevHash := erPrevHash x.2; saHash := erHash x.2; saEventType := erType x.2;
        saSession := erSession x.2; saTimestamp := parsedAt; saDigest := erDigest x.2;
        saTransactionID := erTransactionID x.2; saContentText := if erEncrypted x.2 then "" else erContent x.2 |}.

(** ** The snapshot *)

Local Open Scope sq_scope.

Definition readOperationalReceipts (q : OperationalEvidenceQuery) : sq evidence_db (list OperationalReceiptSource) :=
  let$ rows := sq_wrap (fun e => Errorf "operational evidence: query receipts: %w" [e]) (query (receipts_of q)) in
  sq_lift (read_bounded (fun r => Ok (receipt_source r)) "%w: receipt population exceeds bound %d" (MaxRows q) 0 rows).

Definition readOperationalCommitments (q : OperationalEvidenceQuery) : sq evidence_db (list OperationalCommitmentSource) :=
  let$ rows := sq_wrap (fun e => Errorf "operational evidence: query commitments: %w" [e]) (query (commitments_of q)) in
  sq_lift (read_bounded (fun r => Ok (commitment_source r)) "%w: commitment population exceeds bound %d" (MaxRows q) 0 rows).

Definition readOperationalAuditChain (q : OperationalEvidenceQuery) : sq evidence_db (list OperationalAuditChainSource) :=
  let$ rows := sq_wrap (fun e => Errorf "operational evidence: query audit chain: %w" [e]) (query (chain_of q)) in
  sq_lift (read_bounded chain_source "%w: audit chain population exceeds bound %d" (MaxRows q) 0 rows).

Definition query_valid (q : OperationalEvidenceQuery) : bool :=
  negb (WindowStart q =? zero_time)%Z && negb (WindowEnd q =? zero_time)%Z && negb (WindowEnd q <? WindowStart q)%Z &&
  (0 <? MaxRows q)%Z.

(** BEGIN and the rollback that closes the transaction are statements too. *)
Definition Snapshot (q : OperationalEvidenceQuery) : sq evidence_db OperationalEvidenceSnapshot :=
  if negb (query_valid q)
  then sq_err (Errorf "%w: operational evidence window and positive row bound are required" [Sentinel "ErrValidationFailed"])
  else
    let$ _ := sq_wrap (fun e => Errorf "operational evidence: begin read-only snapshot: %w" [e]) (query (fun _ => tt)) in
    let$ receipts := readOperationalReceipts q in
    let$ commitments := readOperationalCommitments q in
    let$ chain := readOperationalAuditChain q in
    let$ _ := sq_wrap (fun e => Errorf "operational evidence: close read-only snapshot: %w" [e]) (query (fun _ => tt)) in
    sq_ret {| snReceipts := receipts; snCommitments := commitments; snAuditChain := chain |}.

(** MAX(committed_at_unix_ms). *)
Definition LatestCommitmentAt : sq evidence_db gotime :=
  let$ times := sq_wrap (fun e => Errorf "operational evidence: query latest commitment: %w" [e])
                  (query (fun db => map (fun r => caCommittedAtUnixMs (crAttestation r)) (ed_ledger db))) in
  match times with
  | [] => sq_err (Errorf "%w: commitment ledger is empty" [Sentinel "ErrNotFound"])
  | t :: ts => sq_ret (of_milli (fold_right Z.max t ts))
  end.

(** ** What a snapshot holds *)

Lemma read_bounded_Ok {A B} (scan : A -> result B) what maxRows read rows bs :
  (0 <= read)%Z ->
  read_bounded scan what maxRows read rows = Ok bs <->
  Forall2 (fun a b => scan a = Ok b) rows bs /\ (rows = [] \/ (read + Z.of_nat (List.length rows) <= maxRows)%Z).
Proof.
  revert read bs. induction rows as [|a rows IH]; intros read bs Hr; cbn [read_bounded].
  - split; [intros [= <-]; split; [constructor|by left]|]. intros [H _]. by inversion H.
  - split.
    + destruct (scan a) as [b|] eqn:Ha; [|done]. cbn [rbind]. destruct (Z.leb_spec (read + 1) maxRows); [|done]. cbn [require rbind].
      destruct (read_bounded scan what maxRows (read + 1) rows) as [bs'|] eqn:Hb; [|done]. intros [= <-].
      apply IH in Hb as [H2 H3]; [|lia]. split; [by constructor|]. right. cbn [List.length]. destruct H3 as [->|H3]; cbn; lia.
    + intros [H [?|Hlen]]; [done|]. apply Forall2_cons_inv_l in H as (b & bs' & Ha & H & ->). rewrite Ha. cbn [rbind].
      cbn [List.length] in Hlen. destruct (Z.leb_spec (read + 1) maxRows); [|lia]. cbn [require rbind].
      assert (read_bounded scan what maxRows (read + 1) rows = Ok bs') as ->; [|done].
      apply IH; [lia|]. split; [done|]. destruct rows; [by left|right]. cbn [List.length] in *. lia.
Qed.

(** The rows of the window, and nothing else, as many as they are. *)
Definition snapshot_of (q : OperationalEvidenceQuery) (db : evidence_db) (sn : OperationalEvidenceSnapshot) : Prop :=
  snReceipts sn = map receipt_source (receipts_of q db) /\
  snCommitments sn = map commitment_source (commitments_of q db) /\
  Forall2 (fun x e => chain_source x = Ok e) (chain_of q db) (snAuditChain sn) /\
  Forall (fun n => (Z.of_nat n <= MaxRows q)%Z) [List.length (snReceipts sn); List.length (snCommitments sn); List.length (snAuditChain sn)].

Lemma Forall2_Ok_map {A B} (f : A -> B) (l : list A) bs : Forall2 (fun a b => Ok (f a) = Ok b) l bs <-> bs = map f l.
Proof.
  split.
  - induction 1 as [|a b l bs [= <-] _ IH]; [done|]. cbn. by rewrite IH.
  - intros ->. induction l; cbn; by constructor.
Qed.

Definition no_fault (n : nat) : option gerr := None.

(** A list is read whole exactly when it fits. *)
Lemma read_fits {A B} (scan : A -> result B) what maxRows rows bs :
  (0 < maxRows)%Z ->
  read_bounded scan what maxRows 0 rows = Ok bs <->
  Forall2 (fun a b => scan a = Ok b) rows bs /\ (Z.of_nat (List.length bs) <= maxRows)%Z.
Proof.
  intros Hm. rewrite read_bounded_Ok by lia. split; intros [H Hl]; (split; [done|]); apply Forall2_length in H.
  - destruct Hl as [->|Hl]; [destruct bs; cbn in *; lia|lia].
  - right. lia.
Qed.

Lemma query_valid_bound q : query_valid q = true -> (0 < MaxRows q)%Z.
Proof. unfold query_valid. intros H. bools. lia. Qed.

Lemma Snapshot_Ok q env n db sn n' db' :
  Snapshot q env n db = (Ok sn, n', db') -> query_valid q = true /\ db' = db /\ snapshot_of q db sn.
Proof.
  unfold Snapshot. destruct (query_valid q) eqn:Hq; [|done]. cbn [negb]. apply query_valid_bound in Hq.
  unfold readOperationalReceipts, readOperationalCommitments, readOperationalAuditChain, sq_bind, sq_wrap, sq_lift, query, stmt.
  destruct (env n); [done|]. cbn beta iota. destruct (env (S n)); [done|]. cbn beta iota zeta.
  destruct (read_bounded _ _ _ _ (receipts_of q db)) as [rs|] eqn:Hr; [|done]. destruct (env (S (S n))); [done|]. cbn beta iota zeta.
  destruct (read_bounded _ _ _ _ (commitments_of q db)) as [cs|] eqn:Hc; [|done]. destruct (env (S (S (S n)))); [done|]. cbn beta iota zeta.
  destruct (read_bounded _ _ _ _ (chain_of q db)) as [es|] eqn:He; [|done]. destruct (env (S (S (S (S n))))); [done|].
  intros [= <- _ <-]. split; [done|]. split; [done|].
  apply read_fits in Hr as [Hr Lr], Hc as [Hc Lc], He as [He Le]; [|done..].
  apply Forall2_Ok_map in Hr, Hc. unfold snapshot_of. cbn [snReceipts snCommitments snAuditChain]. naive_solver.
Qed.

Lemma Snapshot_quiet q n db sn :
  query_valid q = true -> snapshot_of q db sn -> exists n', Snapshot q no_fault n db = (Ok sn, n', db).
Proof.
  intros Hq (Hr & Hc & He & Hl). unfold Snapshot. rewrite Hq. cbn [negb]. apply query_valid_bound in Hq.
  apply Forall2_Ok_map in Hr, Hc. rewrite !Forall_cons in Hl. destruct Hl as (Lr & Lc & Le & _).
  unfold readOperationalReceipts, readOperationalCommitments, readOperationalAuditChain, sq_bind, sq_wrap, sq_lift, query, stmt, no_fault.
  rewrite (proj2 (read_fits _ _ _ _ _ Hq) (conj Hr Lr)). cbn beta iota zeta.
  rewrite (proj2 (read_fits _ _ _ _ _ Hq) (conj Hc Lc)). cbn beta iota zeta.
  rewrite (proj2 (read_fits _ _ _ _ _ Hq) (conj He Le)). destruct sn. by eexists.
Qed.

(** ** The window *)

Lemma in_sorted {A} (R : relation A) `{forall x y, Decision (R x y)} (l : list A) x : x ∈ merge_sort R l <-> x ∈ l.
Proof. by rewrite merge_sort_Permutation. Qed.

Lemma in_filter {A} (f : A -> bool) (l : list A) x : x ∈ List.filter f l <-> x ∈ l /\ f x = true.
Proof. by rewrite !list_elem_of_In, filter_In. Qed.

Lemma Forall2_in_r {A B} (R : A -> B -> Prop) l m y : Forall2 R l m -> y ∈ m -> exists x, x ∈ l /\ R x y.
Proof. intros H Hy. induction H as [|a b l m Hab _ IH]; [by inversion Hy|]. apply elem_of_cons in Hy as [->|Hy]; [exists a|destruct (IH Hy) as (x & ? & ?); exists x]; set_solver. Qed.

Lemma Forall2_in_l {A B} (R : A -> B -> Prop) l m x : Forall2 R l m -> x ∈ l -> exists y, y ∈ m /\ R x y.
Proof. intros H Hy. induction H as [|a b l m Hab _ IH]; [by inversion Hy|]. apply elem_of_cons in Hy as [->|Hy]; [exists b|destruct (IH Hy) as (y & ? & ?); exists y]; set_solver. Qed.

(** The texts of whole seconds against stored texts. *)
Lemma chain_selected_whole q s e x u :
  WindowStart q = (s * 1000000000)%Z -> WindowEnd q = (e * 1000000000)%Z ->
  Forall year_in_range [WindowStart q; WindowEnd q; u] -> erTimestamp x.2 = FormatTimestamp u ->
  chain_selected q x = true <-> erType x.2 = receipt_event_type /\ ((s + 1) * 1000000000 <= u < (e + 1) * 1000000000)%Z.
Proof.
  intros Hs He Hy Ht. rewrite !Forall_cons in Hy. destruct Hy as (Hys & Hye & Hyu & _).
  unfold chain_selected, String.leb. rewrite Ht, !andb_true_iff, String.eqb_eq.
  rewrite (String.compare_antisym (FormatRFC3339Nano (WindowStart q))), !FormatTimestamp_whole by (done || rewrite ?Hs, ?He; apply Z_mod_mult).
  rewrite Hs, He, !Z.div_mul by lia.
  destruct (Z.leb_spec (u / 1000000000) s), (Z.leb_spec (u / 1000000000) e); cbn;
    (split; [intros [[? ?] ?]|intros [? ?]]; try done; split_and!; try done; Z.to_euclidean_division_equations; lia).
Qed.

(** C22: A snapshot whose window starts and ends on whole seconds holds the receipts and
    the commitments of exactly these milliseconds, all of them, and leaves the database as
    it was; but the receipt events are those of one second later: the first second of the
    window is missing, and of the second after its end all are there.  The bounds are
    written without a fraction, the stored times with one. *)
Theorem snapshot_window q s e env n db sn n' db' :
  Snapshot q env n db = (Ok sn, n', db') ->
  WindowStart q = (s * 1000000000)%Z -> WindowEnd q = (e * 1000000000)%Z ->
  year_in_range (WindowStart q) -> year_in_range (WindowEnd q) ->
  (forall x, x ∈ chained_rows (events (as_chain (ed_store db))) ->
     exists u, year_in_range u /\ erTimestamp x.2 = FormatTimestamp u) ->
  db' = db /\
  (forall y, y ∈ snReceipts sn <-> exists r, r ∈ as_receipts (ed_store db) /\ y = receipt_source r /\
     (s * 1000 <= rrExecutedAtMs r <= e * 1000)%Z) /\
  (forall y, y ∈ snCommitments sn <-> exists x, x ∈ numbered (ed_ledger db) /\ y = commitment_source x /\
     (s * 1000 <= caCommittedAtUnixMs (crAttestation x.2) <= e * 1000)%Z) /\
  (forall y, y ∈ snAuditChain sn <-> exists x u, x ∈ chained_rows (events (as_chain (ed_store db))) /\ chain_source x = Ok y /\
     erType x.2 = receipt_event_type /\ erTimestamp x.2 = FormatTimestamp u /\ year_in_range u /\
     ((s + 1) * 1000000000 <= u < (e + 1) * 1000000000)%Z).
Proof.
  intros H Hs He Hys Hye Hcan. apply Snapshot_Ok in H as (_ & -> & Hr & Hc & Hch & _). split; [done|].
  assert (Hw : forall ms, in_window q ms = true <-> (s * 1000 <= ms <= e * 1000)%Z).
  { intros ms. unfold in_window, UnixMilli. rewrite Hs, He, andb_true_iff, !Z.leb_le. Z.to_euclidean_division_equations; lia. }
  split_and!; intros y.
  - assert (Hin : forall r, r ∈ receipts_of q db <-> r ∈ as_receipts (ed_store db) /\ (s * 1000 <= rrExecutedAtMs r <= e * 1000)%Z).
    { intros r. unfold receipts_of. by rewrite in_sorted, in_filter, Hw. }
    rewrite Hr, list_elem_of_In, in_map_iff. setoid_rewrite <- list_elem_of_In. setoid_rewrite Hin. naive_solver.
  - assert (Hin : forall x, x ∈ commitments_of q db <->
      x ∈ numbered (ed_ledger db) /\ (s * 1000 <= caCommittedAtUnixMs (crAttestation x.2) <= e * 1000)%Z).
    { intros x. unfold commitments_of. by rewrite in_filter, Hw. }
    rewrite Hc, list_elem_of_In, in_map_iff. setoid_rewrite <- list_elem_of_In. setoid_rewrite Hin. naive_solver.
  - assert (Hin : forall x, x ∈ chain_of q db <-> x ∈ chained_rows (events (as_chain (ed_store db))) /\ chain_selected q x = true).
    { intros x. unfold chain_of, by_seq. by rewrite in_sorted, in_filter. }
    assert (Hsel : forall x u, year_in_range u -> erTimestamp x.2 = FormatTimestamp u ->
      chain_selected q x = true <-> erType x.2 = receipt_event_type /\ ((s + 1) * 1000000000 <= u < (e + 1) * 1000000000)%Z).
    { intros x u Hu Ht. apply chain_selected_whole; [done|done|by rewrite !Forall_cons, Forall_nil|done]. }
    split.
    + intros (x & [Hx Hxs]%Hin & Hxy)%(Forall2_in_r _ _ _ _ Hch). destruct (Hcan x Hx) as (u & Hu & Ht).
      apply (Hsel x u Hu Ht) in Hxs as [? ?]. by exists x, u.
    + intros (x & u & Hx & Hxy & Hty & Ht & Hu & Hb).
      destruct (Forall2_in_l _ _ _ x Hch) as (y' & Hy' & Hxy'); [apply Hin; split; [done|by apply (Hsel x u)]|]. congruence.
Qed.

(** All times are in the fixed layout. *)
Definition fixed_times (l : list (Z * event_row)) : bool :=
  forallb (fun x => let u := stored_time (erTimestamp x.2) in
    let '(y, _, _) := civil (u / 1000 / us_per_day)%Z in
    (0 <=? y)%Z && (y <=? 9999)%Z && String.eqb (erTimestamp x.2) (FormatTimestamp u)) l.

Lemma fixed_times_spec l :
  fixed_times l = true -> forall x, x ∈ l -> exists u, year_in_range u /\ erTimestamp x.2 = FormatTimestamp u.
Proof.
  unfold fixed_times. rewrite forallb_forall. intros H x Hx%list_elem_of_In. specialize (H x Hx). cbn zeta in H.
  exists (stored_time (erTimestamp x.2)). unfold year_in_range. destruct (civil _) as [[y m] d]. bools. split; [lia|done].
Qed.

(** ** A concrete snapshot *)

(** Stages at the seconds 1700000001 and 1700000002; the commitment ledger is empty. *)
Definition ex_db : evidence_db := {| ed_store := ex_executed.2; ed_ledger := [] |}.
Definition ex_query (s e : Z) : OperationalEvidenceQuery :=
  {| WindowStart := (s * 1000000000)%Z; WindowEnd := (e * 1000000000)%Z; MaxRows := 10 |}.

Definition ex_taken (s e : Z) : option (list string * list Z) :=
  match Snapshot (ex_query s e) no_fault 0 ex_db with
  | (Ok sn, _, _) => Some (map srTransactionID (snReceipts sn), map saSeq (snAuditChain sn))
  | _ => None
  end.

(** The receipt was executed at 1700000001, in the window; the events of that second are not
    found, the one of the second after the end is. *)
Example ex_window : ex_taken 1700000001 1700000001 = Some (["tx-1"], []).
Proof. vm_compute. done. Qed.
Example ex_window_shift : ex_taken 1700000000 1700000001 = Some (["tx-1"], [1]%Z) /\ ex_taken 1700000000 1700000002 = Some (["tx-1"], [1; 2]%Z).
Proof. vm_compute. done. Qed.

Definition ex_snapshot : OperationalEvidenceSnapshot :=
  match Snapshot (ex_query 1700000001 1700000001) no_fault 0 ex_db with
  | (Ok sn, _, _) => sn
  | _ => {| snReceipts := []; snCommitments := []; snAuditChain := [] |}
  end.

Lemma snapshot_window_witness :
  ex_db = ex_db /\
  (forall y, y ∈ snReceipts ex_snapshot <-> exists r, r ∈ as_receipts (ed_store ex_db) /\ y = receipt_source r /\
     (1700000001 * 1000 <= rrExecutedAtMs r <= 1700000001 * 1000)%Z) /\
  (forall y, y ∈ snCommitments ex_snapshot <-> exists x, x ∈ numbered (ed_ledger ex_db) /\ y = commitment_source x /\
     (1700000001 * 1000 <= caCommittedAtUnixMs (crAttestation x.2) <= 1700000001 * 1000)%Z) /\
  (forall y, y ∈ snAuditChain ex_snapshot <-> exists x u, x ∈ chained_rows (events (as_chain (ed_store ex_db))) /\ chain_source x = Ok y /\
     erType x.2 = receipt_event_type /\ erTimestamp x.2 = FormatTimestamp u /\ year_in_range u /\
     ((1700000001 + 1) * 1000000000 <= u < (1700000001 + 1) * 1000000000)%Z).
Proof.
  apply (snapshot_window (ex_query 1700000001 1700000001) 1700000001 1700000001 no_fault 0 ex_db ex_snapshot 5 ex_db).
  - vm_compute. reflexivity.
  - reflexivity.
  - reflexivity.
  - vm_compute. split; discriminate.
  - vm_compute. split; discriminate.
  - apply fixed_times_spec. vm_compute. reflexivity.
Defined.
