(* ===== verification/StateStore.v ===== *)
(** The Gateway's coordination store
    ([src/internal/services/gateway/db/schema.sql], [kv_store_service.go],
    [blob_store_service.go] and the statements of [document_store_service.go]).

    A table is a finite map from the primary key to the row.  Every statement carries
    the triggers of the schema: the counter [state_version] and the invalidation of
    cached documents.  SQLite's GLOB operator is an argument.  The clock is read in the
    order of the calls of [time.Now]; a statement runs under [ExecWithRetry], whose
    faults the environment chooses. *)
From S2P Require Import Prelude Errors Timestamp Envelope Sqlite.
From Stdlib Require Import String Ascii List ZArith Lia Bool SpecFloat.
From stdpp Require Import base strings list gmap sorting.
Open Scope string_scope.

(** ** Tables *)

Record doc_row := { drData : string; drCreatedAt : string; drUpdatedAt : string }.
Record kv_row := { kvValue : string; kvCreatedAt : string; kvExpiresAt : option string; kvTier : string }.
Record blob_row := {
  blSize : Z; blContentType : string; blData : string; blCreatedAt : string;
  blExpiresAt : option string; blTier : string
}.

Record state_db := {
  documents : gmap (string * string) doc_row; kv_store : gmap string kv_row;
  blobs : gmap (string * string) blob_row; version : Z
}.

Definition empty_state : state_db := {| documents := ∅; kv_store := ∅; blobs := ∅; version := 0 |}.

Definition set_documents (m : gmap (string * string) doc_row) (db : state_db) : state_db :=
  {| documents := m; kv_store := kv_store db; blobs := blobs db; version := version db |}.
Definition set_kv (m : gmap string kv_row) (db : state_db) : state_db :=
  {| documents := documents db; kv_store := m; blobs := blobs db; version := version db |}.
Definition set_blobs (m : gmap (string * string) blob_row) (db : state_db) : state_db :=
  {| documents := documents db; kv_store := kv_store db; blobs := m; version := version db |}.

(** UPDATE state_version SET version = version + 1, [n] times. *)
Definition bump (n : Z) (db : state_db) : state_db :=
  {| documents := documents db; kv_store := kv_store db; blobs := blobs db; version := (version db + n)%Z |}.

(** LIKE 'g8e:cache:%': SQLite folds the case of ASCII letters. *)
Definition fold_ascii (c : ascii) : ascii :=
  let n := nat_of_ascii c in if ((65 <=? n) && (n <=? 90))%nat then ascii_of_nat (n + 32) else c.
Fixpoint fold_case (s : string) : string :=
  match s with EmptyString => "" | String c s => String (fold_ascii c) (fold_case s) end.
Definition cache_key (key : string) : bool := String.prefix "g8e:cache:" (fold_case key).

(** The rows a condition selects and the rows it leaves. *)
Definition selected `{Countable K} {V} (p : K -> V -> bool) (m : gmap K V) : gmap K V :=
  filter (fun x => p x.1 x.2 = true) m.
Definition rest `{Countable K} {V} (p : K -> V -> bool) (m : gmap K V) : gmap K V :=
  filter (fun x => p x.1 x.2 = false) m.

(** DELETE FROM kv_store WHERE [p]: the rows affected. *)
Definition kv_remove (p : string -> kv_row -> bool) (db : state_db) : Z * state_db :=
  let out := selected p (kv_store db) in
  (Z.of_nat (size out),
   bump (Z.of_nat (size (selected (fun k _ => negb (cache_key k)) out))) (set_kv (rest p (kv_store db)) db)).

(** DELETE FROM blobs WHERE [p]. *)
Definition blob_remove (p : string * string -> blob_row -> bool) (db : state_db) : Z * state_db :=
  let n := Z.of_nat (size (selected p (blobs db))) in (n, bump n (set_blobs (rest p (blobs db)) db)).

Section store.
(** [key GLOB pattern]. *)
Context (glob : string -> string -> bool).

(** The triggers on documents: cached reads of the document and of queries on its
    collection are dropped and the version moves. *)
Definition doc_changed (collection id : string) (db : state_db) : state_db :=
  let db := (kv_remove (fun k _ => String.eqb k ("g8e:cache:doc:" +:+ collection +:+ ":" +:+ id)) db).2 in
  let db := (kv_remove (fun k _ => glob ("g8e:cache:query:" +:+ collection +:+ ":*") k) db).2 in
  bump 1 db.

Definition doc_insert (collection id data now : string) (db : state_db) : result unit * state_db :=
  match documents db !! (collection, id) with
  | Some _ => (Err (Extern "UNIQUE constraint failed: documents.collection, documents.id"), db)
  | None =>
      let row := {| drData := data; drCreatedAt := now; drUpdatedAt := now |} in
      (Ok tt, doc_changed collection id (set_documents (<[(collection, id) := row]> (documents db)) db))
  end.

(** UPDATE documents SET data, updated_at WHERE collection, id: the rows affected. *)
Definition doc_update (collection id data now : string) (db : state_db) : result Z * state_db :=
  match documents db !! (collection, id) with
  | None => (Ok 0%Z, db)
  | Some old =>
      let row := {| drData := data; drCreatedAt := drCreatedAt old; drUpdatedAt := now |} in
      let db := set_documents (<[(collection, id) := row]> (documents db)) db in
      (Ok 1%Z, if String.eqb (drData old) data then db else doc_changed collection id db)
  end.

Definition doc_upsert (collection id data created updated : string) (db : state_db) : result unit * state_db :=
  match documents db !! (collection, id) with
  | None =>
      let row := {| drData := data; drCreatedAt := created; drUpdatedAt := updated |} in
      (Ok tt, doc_changed collection id (set_documents (<[(collection, id) := row]> (documents db)) db))
  | Some _ => (Ok tt, (doc_update collection id data updated db).2)
  end.

Definition doc_delete (collection id : string) (db : state_db) : result Z * state_db :=
  match documents db !! (collection, id) with
  | None => (Ok 0%Z, db)
  | Some _ => (Ok 1%Z, doc_changed collection id (set_documents (delete (collection, id) (documents db)) db))
  end.

Definition doc_delete_all (collection : string) (db : state_db) : result Z * state_db :=
  let ids := map (fun x => x.1.2) (map_to_list (selected (fun k (_ : doc_row) => String.eqb k.1 collection) (documents db))) in
  (Ok (Z.of_nat (List.length ids)), fold_right (fun id db => (doc_delete collection id db).2) db ids).

(** INSERT INTO kv_store ... ON CONFLICT(key) DO UPDATE; [tier] is the column when the
    statement names it. *)
Definition kv_upsert (tier : option string) (key value now : string) (expires : option string) (db : state_db)
    : result unit * state_db :=
  let row := match kv_store db !! key with
             | None => {| kvValue := value; kvCreatedAt := now; kvExpiresAt := expires;
                          kvTier := match tier with Some t => t | None => "bound" end |}
             | Some old => {| kvValue := value; kvCreatedAt := kvCreatedAt old; kvExpiresAt := expires;
                              kvTier := match tier with Some t => t | None => kvTier old end |}
             end in
  (Ok tt, bump (if cache_key key then 0 else 1) (set_kv (<[key := row]> (kv_store db)) db)).

(** UPDATE kv_store SET expires_at WHERE key. *)
Definition kv_expire (key expires : string) (db : state_db) : result Z * state_db :=
  match kv_store db !! key with
  | None => (Ok 0%Z, db)
  | Some old =>
      let row := {| kvValue := kvValue old; kvCreatedAt := kvCreatedAt old; kvExpiresAt := Some expires; kvTier := kvTier old |} in
      (Ok 1%Z, bump (if cache_key key then 0 else 1) (set_kv (<[key := row]> (kv_store db)) db))
  end.

Definition blob_upsert (tier : option string) (namespace id contentType data now : string) (expires : option string)
    (db : state_db) : result unit * state_db :=
  let old := blobs db !! (namespace, id) in
  let row := {| blSize := Z.of_nat (String.length data); blContentType := contentType; blData := data;
                blCreatedAt := match old with Some o => blCreatedAt o | None => now end; blExpiresAt := expires;
                blTier := match tier, old with Some t, _ => t | None, Some o => blTier o | None, None => "bound" end |} in
  (Ok tt, bump 1 (set_blobs (<[(namespace, id) := row]> (blobs db)) db)).

(** expires_at IS NULL OR expires_at > ?. *)
Definition live (now : string) (expires : option string) : bool :=
  match expires with None => true | Some e => String.ltb now e end.
(** expires_at IS NOT NULL AND expires_at < ?. *)
Definition expired (now : string) (expires : option string) : bool :=
  match expires with None => false | Some e => String.ltb e now end.

(** ** The services *)

Context (err_text : gerr -> string) (c : DBConfig) (rnow : nat -> Z).

Definition exec {A} (fault : nat -> option gerr) (f : state_db -> result A * state_db) (db : state_db)
    : result A * state_db :=
  (ExecWithRetry err_text c rnow fault f db).1.

(** The column for a time to live; the duration is an int64 of nanoseconds. *)
Definition ttl_expiry (t : gotime) (ttlSeconds : Z) : option string :=
  if (0 <? ttlSeconds)%Z then Some (FormatTimestamp (t + wrap64 (ttlSeconds * 1000000000))%Z)
  else if (ttlSeconds <? 0)%Z then Some (FormatTimestamp (t - 1000000000)%Z)
  else None.

Definition KVGet (now : gotime) (key : string) (db : state_db) : option string :=
  match kv_store db !! key with
  | Some row => if live (FormatTimestamp now) (kvExpiresAt row) then Some (kvValue row) else None
  | None => None
  end.

Definition KVSet (clock : nat -> gotime) (fault : nat -> option gerr) (key value : string) (ttlSeconds : Z) (db : state_db)
    : result unit * state_db :=
  exec fault (kv_upsert None key value (FormatTimestamp (clock 0%nat)) (ttl_expiry (clock 1%nat) ttlSeconds)) db.

Definition KVSetObserved (clock : nat -> gotime) (fault : nat -> option gerr) (key value : string) (ttlSeconds : Z)
    (db : state_db) : result unit * state_db :=
  exec fault (kv_upsert (Some "observed") key value (FormatTimestamp (clock 0%nat)) (ttl_expiry (clock 1%nat) ttlSeconds)) db.

Definition KVDelete (fault : nat -> option gerr) (key : string) (db : state_db) : result unit * state_db :=
  exec fault (fun db => (Ok tt, (kv_remove (fun k _ => String.eqb k key) db).2)) db.

Definition KVDeletePattern (fault : nat -> option gerr) (pattern : string) (db : state_db) : result Z * state_db :=
  exec fault (fun db => let '(n, db) := kv_remove (fun k _ => glob pattern k) db in (Ok n, db)) db.

(** ORDER BY key. *)
Definition matching_keys (now : gotime) (pattern : string) (db : state_db) : list string :=
  sort_strings (map fst (map_to_list
    (selected (fun k row => glob pattern k && live (FormatTimestamp now) (kvExpiresAt row)) (kv_store db)))).

(** [KVScan]: the next cursor and the page. *)
Definition KVScan (now : gotime) (pattern : string) (cursor count : Z) (db : state_db) : Z * list string :=
  let count := if (count <=? 0)%Z then 100%Z else count in
  let keys := firstn (Z.to_nat (count + 1)) (skipn (Z.to_nat cursor) (matching_keys now pattern db)) in
  if (count <? Z.of_nat (List.length keys))%Z then ((cursor + count)%Z, firstn (Z.to_nat count) keys)
  else (0%Z, keys).

Definition KVExists (now : gotime) (key : string) (db : state_db) : bool :=
  match KVGet now key db with Some _ => true | None => false end.

(** [Duration.Seconds], a float64, and its truncation. *)
Definition whole_seconds (d : Z) : Z :=
  Z_of_float (SFadd 53 1024 (float_of_Z (Z.quot d 1000000000))
                            (SFdiv 53 1024 (float_of_Z (Z.rem d 1000000000)) (float_of_Z 1000000000))).

Definition KVTTL (now : gotime) (key : string) (db : state_db) : Z :=
  match kv_store db !! key with
  | None => (-2)%Z
  | Some row =>
      match kvExpiresAt row with
      | None => (-1)%Z
      | Some text =>
          match parse_canonical text with
          | None => (-2)%Z
          | Some exp => let remaining := whole_seconds (exp - now)%Z in if (remaining <? 0)%Z then (-2)%Z else remaining
          end
      end
  end.

Definition KVExpire (now : gotime) (fault : nat -> option gerr) (key : string) (ttlSeconds : Z) (db : state_db)
    : bool * state_db :=
  match exec fault (kv_expire key (FormatTimestamp (now + wrap64 (ttlSeconds * 1000000000))%Z)) db with
  | (Ok n, db) => ((0 <? n)%Z, db)
  | (Err _, db) => (false, db)
  end.

Definition KV_RunMaintenance (now : gotime) (fault : nat -> option gerr) (db : state_db) : result unit * state_db :=
  match exec fault (fun db => (Ok tt, (kv_remove (fun _ row => expired (FormatTimestamp now) (kvExpiresAt row)) db).2)) db with
  | (Ok _, db) => (Ok tt, db)
  | (Err e, db) => (Err (Errorf "failed to cleanup expired kv entries: %w" [e]), db)
  end.

Definition or_sentinel {A} (text name : string) (r : result A * state_db) : result A * state_db :=
  match r with (Ok a, db) => (Ok a, db) | (Err _, db) => (Err (Errorf text [Sentinel name]), db) end.

Definition BlobPut (clock : nat -> gotime) (fault : nat -> option gerr) (namespace id data contentType : string)
    (ttlSeconds : Z) (db : state_db) : result unit * state_db :=
  or_sentinel "blob_store: put %s/%s: %w" "ErrBlobStorePutFailed"
    (exec fault (blob_upsert None namespace id contentType data (FormatTimestamp (clock 0%nat)) (ttl_expiry (clock 1%nat) ttlSeconds)) db).

Definition BlobPutObserved (clock : nat -> gotime) (fault : nat -> option gerr) (namespace id data contentType : string)
    (ttlSeconds : Z) (db : state_db) : result unit * state_db :=
  or_sentinel "blob_store: put observed %s/%s: %w" "ErrBlobStorePutFailed"
    (exec fault (blob_upsert (Some "observed") namespace id contentType data (FormatTimestamp (clock 0%nat))
                   (ttl_expiry (clock 1%nat) ttlSeconds)) db).

Definition BlobGet (now : gotime) (namespace id : string) (db : state_db) : option (string * string) :=
  match blobs db !! (namespace, id) with
  | Some row => if live (FormatTimestamp now) (blExpiresAt row) then Some (blData row, blContentType row) else None
  | None => None
  end.

Definition BlobDelete (fault : nat -> option gerr) (namespace id : string) (db : state_db) : result bool * state_db :=
  or_sentinel "blob_store: delete %s/%s: %w" "ErrBlobStoreDeleteFailed"
    (exec fault (fun db => let '(n, db) := blob_remove (fun k _ => bool_decide (k = (namespace, id))) db in
                           (Ok (0 <? n)%Z, db)) db).

Definition BlobDeleteNamespace (fault : nat -> option gerr) (namespace : string) (db : state_db) : result Z * state_db :=
  or_sentinel "blob_store: delete namespace %s: %w" "ErrBlobStoreDeleteFailed"
    (exec fault (fun db => let '(n, db) := blob_remove (fun k _ => String.eqb k.1 namespace) db in (Ok n, db)) db).

Definition Blob_RunMaintenance (now : gotime) (fault : nat -> option gerr) (db : state_db) : result unit * state_db :=
  or_sentinel "blob_store: cleanup: %w" "ErrBlobStoreCleanupFailed"
    (exec fault (fun db => (Ok tt, (blob_remove (fun _ row => expired (FormatTimestamp now) (blExpiresAt row)) db).2)) db).

(** ** The statements as a step relation *)

(** One statement that takes effect, with the argument texts it was given. *)
Inductive db_step (db : state_db) : state_db -> Prop :=
  | step_doc_insert collection id data now : db_step db (doc_insert collection id data now db).2
  | step_doc_update collection id data now : db_step db (doc_update collection id data now db).2
  | step_doc_upsert collection id data created updated : db_step db (doc_upsert collection id data created updated db).2
  | step_doc_delete collection id : db_step db (doc_delete collection id db).2
  | step_doc_delete_all collection : db_step db (doc_delete_all collection db).2
  | step_kv_upsert tier key value now expires : db_step db (kv_upsert tier key value now expires db).2
  | step_kv_expire key expires : db_step db (kv_expire key expires db).2
  | step_kv_remove p : db_step db (kv_remove p db).2
  | step_blob_upsert tier namespace id contentType data now expires :
      db_step db (blob_upsert tier namespace id contentType data now expires db).2
  | step_blob_remove p : db_step db (blob_remove p db).2.
End store.

(** ** The version tracks the hashed columns *)

(** The columns that the state root reads. *)
Definition kv_cols (r : kv_row) : string * option string * string := (kvValue r, kvExpiresAt r, kvTier r).
Definition blob_cols (r : blob_row) : Z * string * string * option string * string :=
  (blSize r, blContentType r, blData r, blExpiresAt r, blTier r).

Definition doc_view (db : state_db) : gmap (string * string) string := drData <$> documents db.
Definition kv_view (db : state_db) : gmap string (string * option string * string) :=
  kv_cols <$> selected (fun k _ => negb (cache_key k)) (kv_store db).
Definition blob_view (db : state_db) : gmap (string * string) (Z * string * string * option string * string) :=
  blob_cols <$> blobs db.

Definition same_view (db db' : state_db) : Prop :=
  doc_view db' = doc_view db /\ kv_view db' = kv_view db /\ blob_view db' = blob_view db.

(** The counter never goes back, and while it stands still nothing hashed has changed. *)
Definition tracked (db db' : state_db) : Prop :=
  (version db <= version db')%Z /\ (version db' = version db -> same_view db db').

#[export] Instance tracked_preorder : PreOrder tracked.
Proof.
  split.
  - intros db. split; [lia|]. done.
  - intros a b d [H1 V1] [H2 V2]. split; [lia|]. intros He.
    destruct (V1 ltac:(lia)) as (? & ? & ?), (V2 ltac:(lia)) as (? & ? & ?). split_and!; congruence.
Qed.

Lemma tracked_lt db db' : (version db < version db')%Z -> tracked db db'.
Proof. intros H. split; [lia|]. intros He. lia. Qed.

Lemma rest_all `{Countable K} {V} (p : K -> V -> bool) (m : gmap K V) : selected p m = ∅ -> rest p m = m.
Proof.
  intros He. apply map_eq. intros k. unfold rest. apply option_eq. intros v. rewrite map_lookup_filter_Some. split; [tauto|].
  intros Hk. split; [done|]. cbn. apply not_true_iff_false. intros Hp.
  assert (Hs : selected p m !! k = Some v) by (unfold selected; by apply map_lookup_filter_Some).
  rewrite He in Hs. by rewrite lookup_empty in Hs.
Qed.

Lemma kv_remove_tracked p db : tracked db (kv_remove p db).2.
Proof.
  unfold kv_remove. cbn [snd]. set (out := selected _ (selected p (kv_store db))). split; [cbn; lia|].
  intros He. assert (Hout : out = ∅) by (apply map_size_empty_iff; cbn in He; lia).
  split_and!; [done| |done]. unfold kv_view. f_equal. cbn. apply map_eq. intros k. apply option_eq. intros r.
  unfold selected, rest. rewrite !map_lookup_filter_Some. cbn. split; [tauto|]. intros [Hk Hc]. split_and!; [done| |done].
  apply not_true_iff_false. intros Hp.
  assert (Hs : out !! k = Some r) by (unfold out, selected; rewrite !map_lookup_filter_Some; done).
  rewrite Hout in Hs. by rewrite lookup_empty in Hs.
Qed.

Lemma blob_remove_tracked p db : tracked db (blob_remove p db).2.
Proof.
  unfold blob_remove. cbn [snd]. split; [cbn; lia|]. intros He.
  assert (Hout : selected p (blobs db) = ∅) by (apply map_size_empty_iff; cbn in He; lia).
  split_and!; [done|done|]. unfold blob_view. cbn. by rewrite rest_all.
Qed.

Section tracked.
Context (glob : string -> string -> bool).

Lemma doc_changed_version collection id db : (version db < version (doc_changed glob collection id db))%Z.
Proof.
  unfold doc_changed. set (db1 := (kv_remove _ db).2). set (db2 := (kv_remove _ db1).2).
  assert (H1 : (version db <= version db1)%Z) by apply (kv_remove_tracked _ db).
  assert (H2 : (version db1 <= version db2)%Z) by apply (kv_remove_tracked _ db1). cbn. lia.
Qed.

Lemma doc_update_tracked collection id data now db : tracked db (doc_update glob collection id data now db).2.
Proof.
  unfold doc_update. destruct (documents db !! (collection, id)) as [old|] eqn:Hold; [|done]. cbn [snd].
  destruct (String.eqb_spec (drData old) data) as [He|_].
  - split; [done|]. intros _. split_and!; [|done|done]. unfold doc_view. cbn. rewrite fmap_insert. cbn.
    apply insert_id. by rewrite lookup_fmap, Hold, <- He.
  - apply tracked_lt. set (db1 := set_documents _ db). pose proof (doc_changed_version collection id db1). by cbn in *.
Qed.

Lemma doc_delete_tracked collection id db : tracked db (doc_delete glob collection id db).2.
Proof.
  unfold doc_delete. destruct (documents db !! (collection, id)); [|done]. cbn [snd].
  apply tracked_lt. set (db1 := set_documents _ db). pose proof (doc_changed_version collection id db1). by cbn in *.
Qed.

Lemma doc_new_tracked collection id row db :
  tracked db (doc_changed glob collection id (set_documents (<[(collection, id) := row]> (documents db)) db)).
Proof. apply tracked_lt. set (db1 := set_documents _ db). pose proof (doc_changed_version collection id db1). by cbn in *. Qed.

Lemma kv_put_tracked key row db :
  tracked db (bump (if cache_key key then 0 else 1) (set_kv (<[key := row]> (kv_store db)) db)).
Proof.
  destruct (cache_key key) eqn:Hc; [|apply tracked_lt; cbn; lia]. split; [cbn; lia|]. intros _.
  split_and!; [done| |done]. unfold kv_view. f_equal. cbn. unfold selected. apply map_filter_insert_not. intros r Hn. cbn [fst] in Hn. apply negb_true_iff in Hn. congruence.
Qed.

(** No statement changes a hashed column without moving the version. *)
Lemma db_step_tracked db db' : db_step glob db db' -> tracked db db'.
Proof.
  destruct 1.
  - unfold doc_insert. destruct (documents db !! _); [done|]. apply doc_new_tracked.
  - apply doc_update_tracked.
  - unfold doc_upsert. destruct (documents db !! _); [apply doc_update_tracked|apply doc_new_tracked].
  - apply doc_delete_tracked.
  - unfold doc_delete_all. cbn [snd]. induction (map _ _) as [|id ids IH]; cbn; [done|].
    etransitivity; [exact IH|]. apply doc_delete_tracked.
  - unfold kv_upsert. apply kv_put_tracked.
  - unfold kv_expire. destruct (kv_store db !! key); [apply kv_put_tracked|done].
  - apply kv_remove_tracked.
  - apply tracked_lt. cbn. lia.
  - apply blob_remove_tracked.
Qed.

Lemma db_steps_tracked db db' : rtc (db_step glob) db db' -> tracked db db'.
Proof. induction 1; [done|]. etransitivity; [by apply db_step_tracked|done]. Qed.
End tracked.

(** ** Entries and their deadlines *)

Section entries.
Context (glob : string -> string -> bool) (err_text : gerr -> string) (c : DBConfig) (rnow : nat -> Z).

Lemma exec_cases {A} fault (f : state_db -> result A * state_db) db :
  match exec err_text c rnow fault f db with
  | (Ok a, db') => f db = (Ok a, db')
  | (Err _, db') => db' = db
  end.
Proof. unfold exec. pose proof (with_retry_cases err_text "sqliteutil: exec failed after %d retries: %w" c rnow fault f db) as H. exact H. Qed.

(** The instant at which an entry set at [t] ends. *)
Definition deadline (t : gotime) (ttlSeconds : Z) : gotime :=
  if (0 <? ttlSeconds)%Z then (t + ttlSeconds * 1000000000)%Z else (t - 1000000000)%Z.

Lemma live_ttl now t ttl :
  year_in_range now -> year_in_range (deadline t ttl) -> (Z.abs ttl * 1000000000 < 2 ^ 63)%Z ->
  live (FormatTimestamp now) (ttl_expiry t ttl) = (ttl =? 0)%Z || (now / 1000 <? deadline t ttl / 1000)%Z.
Proof.
  intros Hn Hd Hb. unfold ttl_expiry, deadline in *. destruct (Z.ltb_spec 0 ttl) as [Hp|Hp].
  - cbn [live]. assert (Hw : wrap64 (ttl * 1000000000) = (ttl * 1000000000)%Z) by (unfold wrap64; rewrite Z.mod_small; lia).
    rewrite Hw, FormatTimestamp_lt by done. destruct (Z.eqb_spec ttl 0); [lia|done].
  - destruct (Z.ltb_spec ttl 0) as [Hneg|Hneg].
    + cbn [live]. rewrite FormatTimestamp_lt by done. destruct (Z.eqb_spec ttl 0); [lia|done].
    + assert (ttl = 0)%Z as -> by lia. done.
Qed.

(** A stored entry is read back until its deadline and not from it on, to the
    microsecond: no deadline for a zero time to live, one second before the write for a
    negative one.  Other entries are untouched, and a write that fails changes nothing. *)
Theorem kv_set_get clock fault key value ttl db now :
  year_in_range now -> year_in_range (deadline (clock 1%nat) ttl) -> (Z.abs ttl * 1000000000 < 2 ^ 63)%Z ->
  match KVSet err_text c rnow clock fault key value ttl db with
  | (Ok _, db') =>
      KVGet now key db' = (if (ttl =? 0)%Z || (now / 1000 <? deadline (clock 1%nat) ttl / 1000)%Z then Some value else None) /\
      forall k, k <> key -> KVGet now k db' = KVGet now k db
  | (Err _, db') => db' = db
  end.
Proof.
  intros Hn Hd Hb. unfold KVSet.
  pose proof (exec_cases fault (kv_upsert None key value (FormatTimestamp (clock 0%nat)) (ttl_expiry (clock 1%nat) ttl)) db) as H.
  destruct (exec _ _ _ _ _ _) as [[u|e] db']; [|done]. injection H as _ <-. split.
  - unfold KVGet. cbn [kv_store bump set_kv]. rewrite lookup_insert_eq. rewrite <- live_ttl by done.
    by destruct (kv_store db !! key).
  - intros k Hk. unfold KVGet. cbn [kv_store bump set_kv]. by rewrite lookup_insert_ne.
Qed.

(** ** Scanning *)

(** A client that asks for page after page until the cursor is 0. *)
Fixpoint scan_all (fuel : nat) (now : gotime) (pattern : string) (cursor count : Z) (db : state_db) : option (list string) :=
  match fuel with
  | O => None
  | S fuel =>
      let '(next, keys) := KVScan glob now pattern cursor count db in
      if (next =? 0)%Z then Some keys
      else match scan_all fuel now pattern next count db with Some rest => Some (keys ++ rest)%list | None => None end
  end.

Lemma scan_from fuel now pattern cursor count db :
  (0 <= cursor)%Z -> (List.length (matching_keys glob now pattern db) < Z.to_nat cursor + fuel)%nat ->
  scan_all fuel now pattern cursor count db = Some (skipn (Z.to_nat cursor) (matching_keys glob now pattern db)) \/ fuel = O.
Proof.
  revert cursor. induction fuel as [|fuel IH]; intros cursor Hc Hf; [by right|left]. cbn [scan_all]. unfold KVScan.
  set (n := if (count <=? 0)%Z then 100%Z else count).
  assert (Hn : (0 < n)%Z) by (unfold n; destruct (Z.leb_spec count 0); lia).
  set (l := skipn (Z.to_nat cursor) (matching_keys glob now pattern db)).
  destruct (Z.ltb_spec n (Z.of_nat (List.length (firstn (Z.to_nat (n + 1)) l)))) as [Hm|Hm].
  - destruct (Z.eqb_spec (cursor + n) 0) as [He|_]; [lia|].
    rewrite length_firstn in Hm.
    assert (Hl : (Z.to_nat n < List.length l)%nat) by lia.
    unfold l in Hl. rewrite length_skipn in Hl.
    destruct (IH (cursor + n)%Z ltac:(lia) ltac:(lia)) as [Hr| ->]; [|lia].
    rewrite Hr, firstn_firstn, Nat.min_l by lia. f_equal.
    replace (Z.to_nat (cursor + n)) with (Z.to_nat n + Z.to_nat cursor)%nat by lia.
    rewrite <- skipn_skipn. fold l. apply firstn_skipn.
  - rewrite Z.eqb_refl. f_equal. apply firstn_all2. rewrite length_firstn in Hm. lia.
Qed.

(** Scanning ends and misses nothing: following the cursors of [KVScan] from 0 until it
    is 0 again gives every live key that matches, in order and once each, whatever the
    page size, within one call per key and one more. *)
Theorem kv_scan_complete now pattern count db :
  scan_all (S (List.length (matching_keys glob now pattern db))) now pattern 0 count db =
    Some (matching_keys glob now pattern db) /\
  NoDup (matching_keys glob now pattern db) /\
  forall k, k ∈ matching_keys glob now pattern db <-> glob pattern k = true /\ is_Some (KVGet now k db).
Proof.
  split_and!.
  - destruct (scan_from (S (List.length (matching_keys glob now pattern db))) now pattern 0 count db) as [H|H]; [lia..| |done].
    exact H.
  - unfold matching_keys, sort_strings. rewrite (merge_sort_Permutation str_le). apply NoDup_fst_map_to_list.
  - intros k. unfold matching_keys, sort_strings. rewrite (merge_sort_Permutation str_le).
    rewrite list_elem_of_fmap. unfold KVGet, selected. split.
    + intros ([k' row] & -> & Hx). apply elem_of_map_to_list, map_lookup_filter_Some in Hx as [Hx Hp].
      cbn [fst snd] in *. apply andb_true_iff in Hp as [Hg Hl]. split; [done|]. rewrite Hx, Hl. by eexists.
    + intros [Hg [v Hv]]. destruct (kv_store db !! k) as [row|] eqn:Hk; [|done].
      destruct (live (FormatTimestamp now) (kvExpiresAt row)) eqn:Hl; [|done].
      exists (k, row). split; [done|]. apply elem_of_map_to_list, map_lookup_filter_Some. split; [done|]. cbn [fst snd]. by rewrite Hg, Hl.
Qed.
End entries.

(** ** Concrete stores *)

Lemma kv_set_get_witness :
  match KVSet ex_text DefaultDBConfig (fun _ => 0%Z) (fun _ => 0%Z) (fun i => if (i <? 2)%nat then Some (Extern "database is locked") else None)
          "lease" "held" 60 empty_state with
  | (Ok _, db') =>
      KVGet 59999999999%Z "lease" db' =
        (if (60 =? 0)%Z || (59999999999 / 1000 <? deadline 0%Z 60 / 1000)%Z then Some "held" else None) /\
      forall k, k <> "lease" -> KVGet 59999999999%Z k db' = KVGet 59999999999%Z k empty_state
  | (Err _, db') => db' = empty_state
  end.
Proof.
  apply (kv_set_get ex_text DefaultDBConfig (fun _ => 0%Z) (fun _ => 0%Z) _ "lease" "held" 60 empty_state 59999999999%Z).
  - unfold year_in_range. vm_compute. split; discriminate.
  - unfold year_in_range. vm_compute. split; discriminate.
  - vm_compute. reflexivity.
Defined.

Definition ex_store : state_db :=
  fold_right (fun k db => (kv_upsert None k "v" "t0" None db).2) empty_state ["a:3"; "a:1"; "b:1"; "a:2"].

Example ex_scan :
  scan_all (fun p k => String.prefix p k) 9 0%Z "a:" 0 2 ex_store = Some ["a:1"; "a:2"; "a:3"] /\
  (KVScan (fun p k => String.prefix p k) 0%Z "a:" 0 2 ex_store).1 = 2%Z /\
  version ex_store = 4%Z.
Proof. vm_compute. done. Qed.
