(* ===== verification/StateRoot.v ===== *)
(** The state root of the Gateway
    ([src/internal/services/gateway/state_root_service.go] and [TokenKeymapHash] of
    [src/internal/services/scrubbing/boundary.go]).

    The bound root is the SHA-256 of one line per active row, read in three queries;
    a cache keyed by [state_version] saves the queries.  The environment of a call says
    what the database holds when each query runs, so writers may act between them. *)
From S2P Require Import Prelude Errors Encoding Sha256 Timestamp Envelope Sqlite Json JsonEncode StateStore.
From Stdlib Require Import String Ascii List ZArith Lia Bool.
From stdpp Require Import base strings list gmap sorting pretty.
Open Scope string_scope.

(** ** Rows as text *)

(** The values [writeRowToHash] takes; any other type is an error. *)
Inductive hash_value := VS (s : string) | VI (z : Z) | VOther.

(** A quotation mark and a line feed. *)
Definition dq : string := String "034" "".
Definition nl : string := String "010" "".

Definition value_text (v : hash_value) : result string :=
  match v with
  | VS s => Ok (dq +:+ s +:+ dq)
  | VI z => Ok (pretty z)
  | VOther => Err (Errorf "%w: %T" [Sentinel "ErrStateRootUnsupportedType"])
  end.

Fixpoint values_text (vs : list hash_value) : result string :=
  match vs with
  | [] => Ok ""
  | [v] => value_text v
  | v :: vs => let? t := value_text v in let? ts := values_text vs in Ok (t +:+ "," +:+ ts)
  end.

(** What [writeRowToHash] writes. *)
Definition writeRowToHash (table : string) (values : list hash_value) : result string :=
  let? ts := values_text values in
  Ok ("{" +:+ dq +:+ "table" +:+ dq +:+ ":" +:+ dq +:+ table +:+ dq +:+ "," +:+ dq +:+ "values" +:+ dq +:+ ":[" +:+ ts +:+ "]}" +:+ nl).

Fixpoint write_rows (rows : list (string * list hash_value)) : result string :=
  match rows with
  | [] => Ok ""
  | (table, values) :: rows =>
      let? t := writeRowToHash table values in let? ts := write_rows rows in Ok (t +:+ ts)
  end.

(** SQLite's [hex]. *)
Definition hex_upper (d : Z) : ascii := byte_of (if (d <? 10)%Z then 48 + d else 55 + d).
Fixpoint sql_hex (s : string) : string :=
  match s with
  | EmptyString => ""
  | String c s => String (hex_upper (byte_val c / 16)) (String (hex_upper (byte_val c mod 16)) (sql_hex s))
  end.

(** ** Queries *)

(** ORDER BY the two columns of the key. *)
Definition pair_le (a b : string * string) : Prop := if String.eqb a.1 b.1 then str_le a.2 b.2 else str_le a.1 b.1.
#[export] Instance pair_le_dec a b : Decision (pair_le a b).
Proof. unfold pair_le. destruct (String.eqb a.1 b.1); apply _. Defined.

(** The rows of a table in the order of a relation on its keys. *)
Definition ordered {K V} `{Countable K} (R : K -> K -> Prop) `{forall a b, Decision (R a b)} (m : gmap K V) : list (K * V) :=
  omap (fun k => match m !! k with Some v => Some (k, v) | None => None end) (merge_sort R (map fst (map_to_list m))).

Definition coalesce (o : option string) : string := match o with Some s => s | None => "" end.

Definition kv_active (tier now : string) (k : string) (cols : string * option string * string) : bool :=
  String.eqb cols.2 tier && live now cols.1.2.

(** SELECT collection, id, data. *)
Definition doc_rows (db : state_db) : list (string * list hash_value) :=
  map (fun x => ("documents", [VS x.1.1; VS x.1.2; VS x.2])) (ordered pair_le (doc_view db)).

(** SELECT key, value, COALESCE(expires_at, '') of the active rows of a tier, cache
    entries left out. *)
Definition kv_rows (table tier now : string) (db : state_db) : list (string * list hash_value) :=
  map (fun x => (table, [VS x.1; VS x.2.1.1; VS (coalesce x.2.1.2)]))
    (ordered str_le (selected (kv_active tier now) (kv_view db))).

Definition blob_active (tier now : string) (k : string * string) (cols : Z * string * string * option string * string) : bool :=
  String.eqb cols.2 tier && live now cols.1.2.

(** SELECT namespace, id, size, content_type, hex(data), COALESCE(expires_at, ''). *)
Definition blob_rows (table tier now : string) (db : state_db) : list (string * list hash_value) :=
  map (fun x => (table, [VS x.1.1; VS x.1.2; VI x.2.1.1.1.1; VS x.2.1.1.1.2; VS (sql_hex x.2.1.1.2); VS (coalesce x.2.1.2)]))
    (ordered pair_le (selected (blob_active tier now) (blob_view db))).

(** ** The token keymap *)

(** [TokenKeymapHash]: empty for an empty map. *)
Definition TokenKeymapHash (tokenMap : gmap string string) : string :=
  match ordered str_le tokenMap with
  | [] => ""
  | l => sha256_hex (str_join "" (map (fun x => x.1 +:+ ":" +:+ x.2 +:+ nl) l))
  end.

Definition keymap_rows (provider : option (gmap string string)) : list (string * list hash_value) :=
  match provider with
  | None => []
  | Some m => if str_nonempty (TokenKeymapHash m) then [("token_keymap", [VS (TokenKeymapHash m)])] else []
  end.

(** ** The roots *)

(** One call of the service: the database as each statement finds it, the statements
    that fail, the clock and the keymap. *)
Record root_env := {
  snap : nat -> state_db; q_fault : nat -> option gerr; root_now : gotime;
  provider : option (gmap string string); persist_fault : option gerr
}.

(** A query of [hashTableToStream] with the lines its rows give. *)
Definition hashTableToStream (fault : option gerr) (name : string) (rows : list (string * list hash_value)) : result string :=
  match fault with
  | Some e => Err (Errorf "%w: %v" [Sentinel name])
  | None => match write_rows rows with
            | Ok t => Ok t
            | Err e => Err (Errorf "%w: %v" [Sentinel name])
            end
  end.

(** [calculateStateRoot]; its statements are numbered from [i]. *)
Definition calculateStateRoot (e : root_env) (i : nat) : result string :=
  let now := FormatTimestamp (root_now e) in
  let? docs := hashTableToStream (q_fault e i) "ErrStateRootHashDocuments" (doc_rows (snap e i)) in
  let? kvs := hashTableToStream (q_fault e (i + 1)) "ErrStateRootHashKVStore" (kv_rows "kv_store" "bound" now (snap e (i + 1))) in
  let? bs := hashTableToStream (q_fault e (i + 2)) "ErrStateRootHashBlobs" (blob_rows "blobs" "bound" now (snap e (i + 2))) in
  let? keymap := write_rows (keymap_rows (provider e)) in
  Ok (sha256_hex (docs +:+ kvs +:+ bs +:+ keymap)).

Definition calculateObservedStateRoot (e : root_env) (i : nat) : result string :=
  let now := FormatTimestamp (root_now e) in
  let? kvs := hashTableToStream (q_fault e i) "ErrStateRootHashKVStore" (kv_rows "kv_store_observed" "observed" now (snap e i)) in
  let? bs := hashTableToStream (q_fault e (i + 1)) "ErrStateRootHashBlobs" (blob_rows "blobs_observed" "observed" now (snap e (i + 1))) in
  Ok (sha256_hex (kvs +:+ bs)).

(** ** The cache *)

Record root_cache := {
  cachedStateRoot : string; cachedStateVersion : Z; cachedObservedRoot : string; cachedObservedVersion : Z
}.

Definition InvalidateCache (c : root_cache) : root_cache :=
  {| cachedStateRoot := ""; cachedStateVersion := 0; cachedObservedRoot := ""; cachedObservedVersion := 0 |}.
Definition NewStateRootService : root_cache :=
  {| cachedStateRoot := ""; cachedStateVersion := 0; cachedObservedRoot := ""; cachedObservedVersion := 0 |}.

(** [GetCurrentStateRoot]: statement 0 reads the version, 1 to 3 the tables.  The root
    is also written to a table that nothing here reads. *)
Definition GetCurrentStateRoot (e : root_env) (c : root_cache) : result string * root_cache :=
  match q_fault e 0 with
  | Some err => (Err (Errorf "failed to read state_version: %w" [err]), c)
  | None =>
      let currentVersion := version (snap e 0) in
      if (currentVersion =? cachedStateVersion c)%Z && str_nonempty (cachedStateRoot c) then (Ok (cachedStateRoot c), c)
      else match calculateStateRoot e 1 with
           | Err err => (Err (Errorf "%w: %v" [Sentinel "ErrStateRootCalculate"]), c)
           | Ok root =>
               let c := {| cachedStateRoot := root; cachedStateVersion := currentVersion;
                           cachedObservedRoot := cachedObservedRoot c; cachedObservedVersion := cachedObservedVersion c |} in
               (match persist_fault e with
                | Some err => Err (Errorf "%w: %v" [Sentinel "ErrStateRootPersist"])
                | None => Ok root
                end, c)
           end
  end.

Definition GetObservedStateRoot (e : root_env) (c : root_cache) : result string * root_cache :=
  let calculated := match calculateObservedStateRoot e 1 with
                    | Ok root => Ok root
                    | Err err => Err (Errorf "%w: %v" [Sentinel "ErrStateRootCalculate"])
                    end in
  match q_fault e 0 with
  | Some err => (calculated, c)
  | None =>
      let currentVersion := version (snap e 0) in
      if (currentVersion =? cachedObservedVersion c)%Z && str_nonempty (cachedObservedRoot c) then (Ok (cachedObservedRoot c), c)
      else match calculated with
           | Err err => (Err err, c)
           | Ok root => (Ok root, {| cachedStateRoot := cachedStateRoot c; cachedStateVersion := cachedStateVersion c;
                                     cachedObservedRoot := root; cachedObservedVersion := currentVersion |})
           end
  end.

(** ** The roots of a database that stands still *)

Definition root_rows (now : gotime) (keymap : option (gmap string string)) (db : state_db) : list (string * list hash_value) :=
  (doc_rows db ++ kv_rows "kv_store" "bound" (FormatTimestamp now) db ++
   blob_rows "blobs" "bound" (FormatTimestamp now) db ++ keymap_rows keymap)%list.

Definition observed_rows (now : gotime) (db : state_db) : list (string * list hash_value) :=
  (kv_rows "kv_store_observed" "observed" (FormatTimestamp now) db ++
   blob_rows "blobs_observed" "observed" (FormatTimestamp now) db)%list.

Definition rows_root (rows : list (string * list hash_value)) : string :=
  match write_rows rows with Ok t => sha256_hex t | Err _ => "" end.

(** ** The rows depend on the view alone *)

Lemma write_rows_app l1 l2 :
  write_rows (l1 ++ l2)%list = let? a := write_rows l1 in let? b := write_rows l2 in Ok (a +:+ b).
Proof.
  induction l1 as [|[t vs] l1 IH]; cbn; [by destruct (write_rows l2)|].
  destruct (writeRowToHash t vs); cbn; [|done]. rewrite IH. destruct (write_rows l1); cbn; [|done].
  destruct (write_rows l2); cbn; [|done]. by rewrite string_app_assoc.
Qed.

Lemma stream_Ok fault name rows t : hashTableToStream fault name rows = Ok t -> write_rows rows = Ok t.
Proof. unfold hashTableToStream. destruct fault; [done|]. by destruct (write_rows rows). Qed.

Lemma doc_rows_view db db' : same_view db db' -> doc_rows db' = doc_rows db.
Proof. intros (H & _ & _). unfold doc_rows. by rewrite H. Qed.
Lemma kv_rows_view table tier now db db' : same_view db db' -> kv_rows table tier now db' = kv_rows table tier now db.
Proof. intros (_ & H & _). unfold kv_rows. by rewrite H. Qed.
Lemma blob_rows_view table tier now db db' : same_view db db' -> blob_rows table tier now db' = blob_rows table tier now db.
Proof. intros (_ & _ & H). unfold blob_rows. by rewrite H. Qed.

Lemma root_rows_view now km db db' : same_view db db' -> root_rows now km db' = root_rows now km db.
Proof. intros H. unfold root_rows. by rewrite (doc_rows_view _ _ H), (kv_rows_view _ _ _ _ _ H), (blob_rows_view _ _ _ _ _ H). Qed.
Lemma observed_rows_view now db db' : same_view db db' -> observed_rows now db' = observed_rows now db.
Proof. intros H. unfold observed_rows. by rewrite (kv_rows_view _ _ _ _ _ H), (blob_rows_view _ _ _ _ _ H). Qed.

(** A calculation over snapshots that agree with one database. *)
Lemma calculate_quiet e i db root :
  (forall j, (i <= j < i + 3)%nat -> same_view db (snap e j)) -> calculateStateRoot e i = Ok root ->
  root = rows_root (root_rows (root_now e) (provider e) db).
Proof.
  intros Hv H. unfold calculateStateRoot in H.
  destruct (hashTableToStream (q_fault e i) _ _) as [docs|] eqn:H1; [cbn [rbind] in H|done]. apply stream_Ok in H1.
  destruct (hashTableToStream (q_fault e (i + 1)) _ _) as [kvs|] eqn:H2; [cbn [rbind] in H|done]. apply stream_Ok in H2.
  destruct (hashTableToStream (q_fault e (i + 2)) _ _) as [bs|] eqn:H3; [cbn [rbind] in H|done]. apply stream_Ok in H3.
  destruct (write_rows (keymap_rows (provider e))) as [k|] eqn:H4; [cbn [rbind] in H|done]. injection H as <-.
  rewrite (doc_rows_view db) in H1 by (apply Hv; lia). rewrite (kv_rows_view _ _ _ db) in H2 by (apply Hv; lia).
  rewrite (blob_rows_view _ _ _ db) in H3 by (apply Hv; lia).
  unfold rows_root, root_rows. by rewrite !write_rows_app, H1, H2, H3, H4.
Qed.

Lemma calculate_observed_quiet e i db root :
  (forall j, (i <= j < i + 2)%nat -> same_view db (snap e j)) -> calculateObservedStateRoot e i = Ok root ->
  root = rows_root (observed_rows (root_now e) db).
Proof.
  intros Hv H. unfold calculateObservedStateRoot in H.
  destruct (hashTableToStream (q_fault e i) _ _) as [kvs|] eqn:H2; [cbn [rbind] in H|done]. apply stream_Ok in H2.
  destruct (hashTableToStream (q_fault e (i + 1)) _ _) as [bs|] eqn:H3; [cbn [rbind] in H|done]. apply stream_Ok in H3.
  injection H as <-. rewrite (kv_rows_view _ _ _ db) in H2 by (apply Hv; lia).
  rewrite (blob_rows_view _ _ _ db) in H3 by (apply Hv; lia).
  unfold rows_root, observed_rows. by rewrite !write_rows_app, H2, H3.
Qed.

(** ** The service among writers *)

Section history.
Context (glob : string -> string -> bool).
(** What the clock and the keymap may read. *)
Context (P : gotime -> option (gmap string string) -> Prop).

(** The snapshots of a call follow one another by statements of other writers. *)
Definition unfolds (db : state_db) (e : root_env) : Prop :=
  rtc (db_step glob) db (snap e 0) /\ (forall i, rtc (db_step glob) (snap e i) (snap e (S i))) /\
  P (root_now e) (provider e).

Inductive sys_step : state_db * root_cache -> state_db * root_cache -> Prop :=
  | sys_write db db' c : db_step glob db db' -> sys_step (db, c) (db', c)
  | sys_root e db db' c : unfolds db e -> rtc (db_step glob) (snap e 3) db' ->
      sys_step (db, c) (db', (GetCurrentStateRoot e c).2)
  | sys_observed e db db' c : unfolds db e -> rtc (db_step glob) (snap e 2) db' ->
      sys_step (db, c) (db', (GetObservedStateRoot e c).2)
  | sys_invalidate db c : sys_step (db, c) (db, InvalidateCache c).

(** The service starts with an empty cache over whatever database it finds. *)
Inductive sys_reachable : state_db * root_cache -> Prop :=
  | sys_init db : sys_reachable (db, NewStateRootService)
  | sys_next s s' : sys_reachable s -> sys_step s s' -> sys_reachable s'.

Definition coherent (db : state_db) (c : root_cache) : Prop :=
  (str_nonempty (cachedStateRoot c) = true -> (cachedStateVersion c <= version db)%Z /\
     (version db = cachedStateVersion c -> exists now km, P now km /\ cachedStateRoot c = rows_root (root_rows now km db))) /\
  (str_nonempty (cachedObservedRoot c) = true -> (cachedObservedVersion c <= version db)%Z /\
     (version db = cachedObservedVersion c -> exists now km, P now km /\ cachedObservedRoot c = rows_root (observed_rows now db))).

Lemma coherent_tracked db db' c : tracked db db' -> coherent db c -> coherent db' c.
Proof.
  intros [Hle Hv] [H1 H2]. split; intros Hne.
  - destruct (H1 Hne) as [Hc Hr]. split; [lia|]. intros He. assert (version db' = version db) as Hve by lia.
    destruct (Hr ltac:(lia)) as (now & km & Hp & Hroot). exists now, km. split; [done|].
    by rewrite (root_rows_view now km db db' (Hv Hve)).
  - destruct (H2 Hne) as [Hc Hr]. split; [lia|]. intros He. assert (version db' = version db) as Hve by lia.
    destruct (Hr ltac:(lia)) as (now & km & Hp & Hroot). exists now, km. split; [done|].
    by rewrite (observed_rows_view now db db' (Hv Hve)).
Qed.

Lemma unfolds_tracked db e i j : unfolds db e -> (i <= j)%nat -> tracked (snap e i) (snap e j).
Proof.
  intros (_ & Hs & _) Hij. induction Hij as [|j Hij IH]; [done|].
  etransitivity; [exact IH|]. eapply db_steps_tracked, Hs.
Qed.

(** Two snapshots with one version and every one between them show one view. *)
Lemma tracked_between a b d : tracked a b -> tracked b d -> version d = version a -> same_view d b.
Proof.
  intros [H1 V1] [H2 V2] He. destruct (V2 ltac:(lia)) as (A & B & C). by split_and!.
Qed.

Lemma root_call e c :
  ((GetCurrentStateRoot e c).2 = c /\ forall root, (GetCurrentStateRoot e c).1 = Ok root ->
     version (snap e 0) = cachedStateVersion c /\ str_nonempty (cachedStateRoot c) = true /\ root = cachedStateRoot c) \/
  (exists root, calculateStateRoot e 1 = Ok root /\ (forall r, (GetCurrentStateRoot e c).1 = Ok r -> r = root) /\
     (GetCurrentStateRoot e c).2 = {| cachedStateRoot := root; cachedStateVersion := version (snap e 0);
       cachedObservedRoot := cachedObservedRoot c; cachedObservedVersion := cachedObservedVersion c |}).
Proof.
  unfold GetCurrentStateRoot. destruct (q_fault e 0); [left; by split|].
  destruct ((version (snap e 0) =? cachedStateVersion c)%Z && str_nonempty (cachedStateRoot c)) eqn:Hc; cbn [fst snd].
  { left. split; [done|]. intros root [= <-]. apply andb_true_iff in Hc as [Hv Hn]. by apply Z.eqb_eq in Hv. }
  destruct (calculateStateRoot e 1) as [r|]; cbn [fst snd]; [|left; by split].
  right. exists r. split_and!; [done| |done]. intros r'. destruct (persist_fault e); [done|]. by intros [= <-].
Qed.

Lemma observed_call e c :
  ((GetObservedStateRoot e c).2 = c /\ forall root, (GetObservedStateRoot e c).1 = Ok root ->
     calculateObservedStateRoot e 1 = Ok root \/
     version (snap e 0) = cachedObservedVersion c /\ str_nonempty (cachedObservedRoot c) = true /\ root = cachedObservedRoot c) \/
  (exists root, calculateObservedStateRoot e 1 = Ok root /\ (forall r, (GetObservedStateRoot e c).1 = Ok r -> r = root) /\
     (GetObservedStateRoot e c).2 = {| cachedStateRoot := cachedStateRoot c; cachedStateVersion := cachedStateVersion c;
       cachedObservedRoot := root; cachedObservedVersion := version (snap e 0) |}).
Proof.
  unfold GetObservedStateRoot. destruct (q_fault e 0); cbn [fst snd].
  { left. split; [done|]. intros root. destruct (calculateObservedStateRoot e 1); [|done]. intros [= <-]. by left. }
  destruct ((version (snap e 0) =? cachedObservedVersion c)%Z && str_nonempty (cachedObservedRoot c)) eqn:Hc; cbn [fst snd].
  { left. split; [done|]. intros root [= <-]. right. apply andb_true_iff in Hc as [Hv Hn]. by apply Z.eqb_eq in Hv. }
  destruct (calculateObservedStateRoot e 1) as [r|]; cbn [fst snd]; [|left; by split].
  right. exists r. split_and!; [done| |done]. by intros r' [= <-].
Qed.

(** A calculation that saw one version is the root of every database of that version. *)
Lemma calculated_coherent db e db' root :
  unfolds db e -> rtc (db_step glob) (snap e 3) db' -> calculateStateRoot e 1 = Ok root -> version db' = version (snap e 0) ->
  exists now km, P now km /\ root = rows_root (root_rows now km db').
Proof.
  intros Hu Hend Hc Hv. pose proof (db_steps_tracked glob _ _ Hend) as Ht.
  exists (root_now e), (provider e). split; [apply Hu|]. eapply calculate_quiet; [|exact Hc].
  intros j Hj. apply (tracked_between (snap e 0)); [by eapply unfolds_tracked; [|lia]| |done].
  etransitivity; [eapply unfolds_tracked; [exact Hu|]|exact Ht]. lia.
Qed.

Lemma calculated_observed_coherent db e db' root :
  unfolds db e -> rtc (db_step glob) (snap e 2) db' -> calculateObservedStateRoot e 1 = Ok root ->
  version db' = version (snap e 0) -> exists now km, P now km /\ root = rows_root (observed_rows now db').
Proof.
  intros Hu Hend Hc Hv. pose proof (db_steps_tracked glob _ _ Hend) as Ht.
  exists (root_now e), (provider e). split; [apply Hu|]. eapply calculate_observed_quiet; [|exact Hc].
  intros j Hj. apply (tracked_between (snap e 0)); [by eapply unfolds_tracked; [|lia]| |done].
  etransitivity; [eapply unfolds_tracked; [exact Hu|]|exact Ht]. lia.
Qed.

Lemma unfolds_end db e n db' : unfolds db e -> rtc (db_step glob) (snap e n) db' -> tracked db db'.
Proof.
  intros Hu Hend. etransitivity; [eapply db_steps_tracked, Hu|].
  etransitivity; [eapply (unfolds_tracked db e 0 n Hu); lia|by eapply db_steps_tracked].
Qed.

Lemma sys_step_coherent s s' : sys_step s s' -> coherent s.1 s.2 -> coherent s'.1 s'.2.
Proof.
  intros Hs Hc. destruct Hs as [db db' c Hw|e db db' c Hu Hend|e db db' c Hu Hend|db c]; cbn [fst snd] in *.
  - eapply coherent_tracked; [by eapply db_step_tracked|done].
  - apply (coherent_tracked _ db') in Hc; [|by eapply unfolds_end].
    destruct (root_call e c) as [[-> _]|(root & Hcalc & _ & ->)]; [done|]. destruct Hc as [_ Ho]. split; [|exact Ho].
    intros _. cbn. split; [|by eapply calculated_coherent].
    pose proof (db_steps_tracked glob _ _ Hend) as [Hle _].
    destruct (unfolds_tracked db e 0 3 Hu ltac:(lia)) as [Hle' _]. lia.
  - apply (coherent_tracked _ db') in Hc; [|by eapply unfolds_end].
    destruct (observed_call e c) as [[-> _]|(root & Hcalc & _ & ->)]; [done|]. destruct Hc as [Ho _]. split; [exact Ho|].
    intros _. cbn. split; [|by eapply calculated_observed_coherent].
    pose proof (db_steps_tracked glob _ _ Hend) as [Hle _].
    destruct (unfolds_tracked db e 0 2 Hu ltac:(lia)) as [Hle' _]. lia.
  - by split.
Qed.

Lemma sys_coherent s : sys_reachable s -> coherent s.1 s.2.
Proof. induction 1 as [db|s s' Hs IH Hstep]; [by split|by eapply sys_step_coherent]. Qed.

(** C32: The cached root is never stale with respect to writes: among any writers and calls,
    a root returned while the version stands still is the hash of exactly the rows the
    database holds, as a clock and a keymap of this or an earlier call selected them. *)
Theorem root_current db c e root :
  sys_reachable (db, c) -> unfolds db e -> version (snap e 3) = version (snap e 0) ->
  (GetCurrentStateRoot e c).1 = Ok root ->
  exists now km, P now km /\ root = rows_root (root_rows now km (snap e 3)).
Proof.
  intros Hr Hu Hv Hroot. apply sys_coherent in Hr. cbn [fst snd] in Hr.
  apply (coherent_tracked _ (snap e 3)) in Hr; [|by eapply unfolds_end].
  destruct (root_call e c) as [[_ Hcached]|(r & Hcalc & Heq & _)].
  - destruct (Hcached root Hroot) as (Hver & Hne & ->). apply Hr; [done|congruence].
  - apply Heq in Hroot as ->. by eapply calculated_coherent.
Qed.
End history.

(** ** What a root binds *)

Lemma hex_upper_val d : (0 <= d < 16)%Z -> hex_val (hex_upper d) = Some d.
Proof.
  intros Hd. unfold hex_val, hex_upper.
  destruct (Z.ltb_spec d 10); rewrite byte_val_of by lia;
    repeat (match goal with |- context [(?a <=? ?b)%Z] => destruct (Z.leb_spec a b); try lia end);
    simpl; f_equal; lia.
Qed.

Lemma nibbles c : (0 <= byte_val c / 16 < 16)%Z /\ (0 <= byte_val c mod 16 < 16)%Z.
Proof. pose proof (byte_val_range c). split; Z.to_euclidean_division_equations; lia. Qed.

Lemma hex_decode_sql s : hex_decode (sql_hex s) = Some s.
Proof.
  induction s as [|c s IH]; [done|]. cbn [sql_hex hex_decode]. destruct (nibbles c) as [H1 H2].
  rewrite !hex_upper_val, IH by done. by rewrite <- Z.div_mod, byte_of_val by lia.
Qed.

Lemma sql_hex_inj s t : sql_hex s = sql_hex t -> s = t.
Proof. intros H. apply (f_equal hex_decode) in H. rewrite !hex_decode_sql in H. congruence. Qed.

Lemma digit_not c d v : hex_val d = Some v -> hex_val c = None -> Ascii.eqb c d = false.
Proof. intros Hd Hc. apply Ascii.eqb_neq. intros ->. congruence. Qed.

Lemma sql_hex_free c s : hex_val c = None -> has_char c (sql_hex s) = false.
Proof.
  intros Hc. induction s as [|d s IH]; [done|]. cbn [sql_hex has_char]. destruct (nibbles d) as [H1 H2].
  by rewrite IH, (digit_not c _ _ (hex_upper_val _ H1) Hc), (digit_not c _ _ (hex_upper_val _ H2) Hc).
Qed.

Lemma hex_encode_free c s : hex_val c = None -> has_char c (hex_encode s) = false.
Proof.
  intros Hc. induction s as [|d s IH]; [done|]. cbn [hex_encode]. unfold hex_byte. cbn. destruct (nibbles d) as [H1 H2].
  by rewrite IH, (digit_not c _ _ (hex_digit_val _ H1) Hc), (digit_not c _ _ (hex_digit_val _ H2) Hc).
Qed.

Lemma last_delim_inj c s s' e e' :
  has_char c e = false -> has_char c e' = false -> s +:+ String c e = s' +:+ String c e' -> s = s' /\ e = e'.
Proof.
  intros He He'. revert s'. induction s as [|d s IH]; intros [|d' s'] H; simpl in H.
  - by injection H as ->.
  - injection H as <- H. rewrite H, has_char_app in He. simpl in He. by rewrite Ascii.eqb_refl, orb_true_r in He.
  - injection H as -> H. rewrite <- H, has_char_app in He'. simpl in He'. by rewrite Ascii.eqb_refl, orb_true_r in He'.
  - injection H as -> H. by destruct (IH s' H) as [-> ->].
Qed.

Definition line_free (s : string) : Prop := has_char "010"%char s = false.
Definition tame_text (s : string) : Prop := has_char "034"%char s = false /\ line_free s.

(** Rows whose text can be read back. *)
Inductive tame_row : string * list hash_value -> Prop :=
  | tame_doc c i d : tame_text c -> tame_text i -> line_free d -> tame_row ("documents", [VS c; VS i; VS d])
  | tame_kv k v e : tame_text k -> line_free v -> tame_text e -> tame_row ("kv_store", [VS k; VS v; VS e])
  | tame_blob ns i z ct h e : tame_text ns -> tame_text i -> line_free ct -> tame_text h -> tame_text e ->
      tame_row ("blobs", [VS ns; VS i; VI z; VS ct; VS h; VS e])
  | tame_keymap h : tame_text h -> tame_row ("token_keymap", [VS h]).

Lemma pretty_free (z : Z) c : is_digit (byte_val c) = false -> c <> "-"%char -> has_char c (pretty z) = false.
Proof. intros H1 H2. apply pretty_Z_has_char; [|done]. intros n. by apply pretty_N_char_other. Qed.

Lemma tame_line r : tame_row r -> exists l, line_free l /\ writeRowToHash r.1 r.2 = Ok (l +:+ nl).
Proof.
  intros H. destruct H; unfold tame_text, line_free in *; destruct_and?; cbn [fst snd]; unfold writeRowToHash; cbn [values_text value_text rbind];
    (eexists; split; [|f_equal; rewrite <- !string_app_assoc; reflexivity]);
    rewrite !has_char_app; cbn; rewrite ?has_char_app, ?pretty_free by first [reflexivity | discriminate];
    repeat match goal with H : has_char "010" _ = false |- _ => rewrite H; clear H end; done.
Qed.

Lemma value_expiry_inj v v' e e' t :
  has_char "034"%char e = false -> has_char "034"%char e' = false ->
  v +:+ String "034" (String "," (String "034" (e +:+ t))) = v' +:+ String "034" (String "," (String "034" (e' +:+ t))) ->
  v = v' /\ e = e'.
Proof.
  intros He He' H.
  assert (Ha : ((v +:+ String "034" ",") +:+ String "034" e) +:+ t = ((v' +:+ String "034" ",") +:+ String "034" e') +:+ t)
    by (rewrite !string_app_assoc; exact H).
  apply string_app_inj_r, last_delim_inj in Ha as [Ha ->]; [|done..]. split; [|done]. by apply string_app_inj_r in Ha.
Qed.

(** A text followed by two fields without quotation marks. *)
Lemma value_digest_inj v v' h h' e e' t :
  has_char "034"%char h = false -> has_char "034"%char h' = false ->
  has_char "034"%char e = false -> has_char "034"%char e' = false ->
  v +:+ String "034" (String "," (String "034" (h +:+ String "034" (String "," (String "034" (e +:+ t)))))) =
  v' +:+ String "034" (String "," (String "034" (h' +:+ String "034" (String "," (String "034" (e' +:+ t)))))) ->
  v = v' /\ h = h' /\ e = e'.
Proof.
  intros Hh Hh' He He' H.
  assert (Ha : (v +:+ String "034" (String "," (String "034" h))) +:+ String "034" (String "," (String "034" (e +:+ t))) =
               (v' +:+ String "034" (String "," (String "034" h'))) +:+ String "034" (String "," (String "034" (e' +:+ t))))
    by (rewrite !string_app_assoc; exact H).
  apply value_expiry_inj in Ha as [Ha ->]; [|done..].
  assert (Hb : v +:+ String "034" (String "," (String "034" (h +:+ ""))) = v' +:+ String "034" (String "," (String "034" (h' +:+ ""))))
    by (rewrite !string_app_nil_r; exact Ha).
  by apply value_expiry_inj in Hb as [-> ->].
Qed.

(** Reassociates a text and takes a delimited field off both sides. *)
Ltac text_norm H := repeat progress (rewrite ?string_app_assoc in H; cbn in H).
Ltac next_field H := apply string_delim_inj in H as [-> H]; [injection H as H|done..].

Lemma tame_row_inj r r' t :
  tame_row r -> tame_row r' -> writeRowToHash r.1 r.2 = Ok t -> writeRowToHash r'.1 r'.2 = Ok t -> r = r'.
Proof.
  intros H H' <- Ht. destruct H, H'; unfold tame_text in *; destruct_and?; cbn in Ht; try discriminate Ht;
    injection Ht as Ht; text_norm Ht.
  - do 2 next_field Ht. by apply string_app_inj_r in Ht as ->.
  - next_field Ht.
    by apply value_expiry_inj in Ht as [-> ->].
  - do 2 next_field Ht. apply string_delim_inj in Ht as [Hz Ht]; [|by apply pretty_free..].
    apply (inj pretty) in Hz as ->. injection Ht as Ht. by apply value_digest_inj in Ht as (-> & -> & ->).
  - by apply string_app_inj_r in Ht as ->.
Qed.

Lemma write_rows_inj l l' t :
  Forall tame_row l -> Forall tame_row l' -> write_rows l = Ok t -> write_rows l' = Ok t -> l = l'.
Proof.
  intros Hl. revert l' t. induction Hl as [|r l Hr Hl IH]; intros l' t Hl' Ht Ht'.
  - injection Ht as <-. destruct Hl' as [|r' l' Hr' Hl']; [done|]. destruct r' as [tb vs].
    destruct (tame_line _ Hr') as (x & _ & Hx). cbn in Hx. cbn [write_rows] in Ht'. rewrite Hx in Ht'. cbn [rbind] in Ht'.
    destruct (write_rows l'); [|done]. cbn in Ht'. injection Ht' as Ht'. apply (f_equal String.length) in Ht'.
    rewrite !string_app_length in Ht'. simpl in Ht'. lia.
  - destruct r as [tb vs]. destruct (tame_line _ Hr) as (x & Hf & Hx). cbn in Hx. cbn [write_rows] in Ht. rewrite Hx in Ht. cbn [rbind] in Ht.
    destruct (write_rows l) as [ts|] eqn:Hts; [|done]. cbn [rbind] in Ht. injection Ht as <-.
    destruct Hl' as [|r' l' Hr' Hl'].
    { cbn in Ht'. injection Ht' as Ht'. apply (f_equal String.length) in Ht'. rewrite !string_app_length in Ht'. simpl in Ht'. lia. }
    destruct r' as [tb' vs']. destruct (tame_line _ Hr') as (x' & Hf' & Hx'). cbn in Hx'. cbn [write_rows] in Ht'.
    rewrite Hx' in Ht'. cbn [rbind] in Ht'. destruct (write_rows l') as [ts'|] eqn:Hts'; [|done]. cbn [rbind] in Ht'.
    injection Ht' as Ht'. unfold nl in Ht'. rewrite !string_app_assoc in Ht'. cbn in Ht'.
    apply string_delim_inj in Ht' as [-> ->]; [|done..].
    f_equal; [|by eapply IH]. by eapply (tame_row_inj (tb, vs) (tb', vs')).
Qed.

(** A database whose texts can be read back out of the lines. *)
Definition tame_expiry (o : option string) : Prop := match o with Some e => e <> "" /\ tame_text e | None => True end.

#[export] Instance line_free_dec s : Decision (line_free s).
Proof. unfold line_free. apply _. Defined.
#[export] Instance tame_text_dec s : Decision (tame_text s).
Proof. unfold tame_text. apply _. Defined.
#[export] Instance tame_expiry_dec o : Decision (tame_expiry o).
Proof. destruct o; apply _. Defined.

Record tame (db : state_db) : Prop := {
  tame_docs k d : doc_view db !! k = Some d -> tame_text k.1 /\ tame_text k.2 /\ line_free d;
  tame_kvs k v : kv_view db !! k = Some v -> tame_text k /\ line_free v.1.1 /\ tame_expiry v.1.2;
  tame_blobs k v : blob_view db !! k = Some v ->
    tame_text k.1 /\ tame_text k.2 /\ line_free v.1.1.1.2 /\ tame_expiry v.1.2
}.

(** ** The rows of a table and the table *)

Lemma ordered_perm {K V} `{Countable K} (R : K -> K -> Prop) `{forall a b, Decision (R a b)} (m : gmap K V) :
  ordered R m ≡ₚ map_to_list m.
Proof.
  unfold ordered. rewrite (merge_sort_Permutation R).
  assert (Hl : forall l : list (K * V), (forall x, x ∈ l -> m !! x.1 = Some x.2) ->
    omap (fun k => match m !! k with Some v => Some (k, v) | None => None end) (map fst l) = l).
  { induction l as [|[k v] l IH]; intros Hm; [done|]. assert (Hk : m !! k = Some v) by (apply (Hm (k, v)); by left).
    cbn. rewrite Hk. cbn. f_equal. apply IH. intros x Hx. apply Hm. by right. }
  rewrite Hl; [done|]. intros [k v] Hx. by apply elem_of_map_to_list in Hx.
Qed.

Lemma elem_of_ordered {K V} `{Countable K} (R : K -> K -> Prop) `{forall a b, Decision (R a b)} (m : gmap K V) x :
  x ∈ ordered R m <-> m !! x.1 = Some x.2.
Proof. destruct x as [k v]. by rewrite ordered_perm, elem_of_map_to_list. Qed.

Lemma ordered_inj {K V} `{Countable K} (R : K -> K -> Prop) `{forall a b, Decision (R a b)} (m m' : gmap K V) :
  ordered R m = ordered R m' -> m = m'.
Proof. intros He. apply map_to_list_inj. by rewrite <- !(ordered_perm R), He. Qed.

Lemma map_inj_in {A B} (f : A -> B) l l' :
  (forall x y, x ∈ l -> y ∈ l' -> f x = f y -> x = y) -> map f l = map f l' -> l = l'.
Proof.
  revert l'. induction l as [|x l IH]; intros [|y l'] Hf He; try done. injection He as Hx He. f_equal.
  - apply Hf; [by left|by left|done].
  - apply IH; [|done]. intros a b Ha Hb. apply Hf; by right.
Qed.

Lemma active_kv tier now db k v :
  selected (kv_active tier now) (kv_view db) !! k = Some v -> kv_view db !! k = Some v /\ v.2 = tier.
Proof.
  unfold selected, kv_active. intros [Hv Ht]%map_lookup_filter_Some. split; [done|].
  cbn in Ht. apply andb_true_iff in Ht as [Ht _]. by apply String.eqb_eq in Ht.
Qed.

Lemma active_blob tier now db k v :
  selected (blob_active tier now) (blob_view db) !! k = Some v -> blob_view db !! k = Some v /\ v.2 = tier.
Proof.
  unfold selected, blob_active. intros [Hv Ht]%map_lookup_filter_Some. split; [done|].
  cbn in Ht. apply andb_true_iff in Ht as [Ht _]. by apply String.eqb_eq in Ht.
Qed.

Lemma coalesce_inj o o' : tame_expiry o -> tame_expiry o' -> coalesce o = coalesce o' -> o = o'.
Proof. destruct o, o'; cbn; intros; destruct_and?; congruence. Qed.

Lemma tame_coalesce o : tame_expiry o -> tame_text (coalesce o).
Proof. destruct o; cbn; [tauto|done]. Qed.

Lemma doc_rows_inj db db' : doc_rows db = doc_rows db' -> doc_view db = doc_view db'.
Proof.
  intros H. apply (ordered_inj pair_le). apply map_inj_in in H; [done|].
  intros [[c i] d] [[c' i'] d'] _ _ [= -> -> ->]. done.
Qed.

Lemma kv_rows_inj table tier now now' db db' :
  tame db -> tame db' -> kv_rows table tier now db = kv_rows table tier now' db' ->
  selected (kv_active tier now) (kv_view db) = selected (kv_active tier now') (kv_view db').
Proof.
  intros Hd Hd' H. apply (ordered_inj str_le). apply map_inj_in in H; [done|].
  intros [k [[v e] t]] [k' [[v' e'] t']] Hx Hy He. apply elem_of_ordered, active_kv in Hx as [Hx Ht], Hy as [Hy Ht'].
  cbn in *. subst t t'. apply (tame_kvs _ Hd) in Hx as (_ & _ & Hx). apply (tame_kvs _ Hd') in Hy as (_ & _ & Hy). cbn in *.
  injection He as -> -> He. by apply coalesce_inj in He as ->.
Qed.

Lemma blob_rows_inj table tier now now' db db' :
  tame db -> tame db' -> blob_rows table tier now db = blob_rows table tier now' db' ->
  selected (blob_active tier now) (blob_view db) = selected (blob_active tier now') (blob_view db').
Proof.
  intros Hd Hd' H. apply (ordered_inj pair_le). apply map_inj_in in H; [done|].
  intros [[n i] [[[[z ct] d] e] t]] [[n' i'] [[[[z' ct'] d'] e'] t']] Hx Hy He.
  apply elem_of_ordered, active_blob in Hx as [Hx Ht], Hy as [Hy Ht'].
  cbn in *. subst t t'. apply (tame_blobs _ Hd) in Hx as (_ & _ & _ & Hx). apply (tame_blobs _ Hd') in Hy as (_ & _ & _ & Hy). cbn in *.
  injection He as -> -> -> -> Hh He. apply sql_hex_inj in Hh as ->. by apply coalesce_inj in He as ->.
Qed.

(** The rows of one table out of the rows of a root. *)
Definition of_table (t : string) (l : list (string * list hash_value)) : list (string * list hash_value) :=
  List.filter (fun r => String.eqb r.1 t) l.

Lemma of_table_all {A} t (f : A -> list hash_value) l :
  of_table t (map (fun x => (t, f x)) l) = map (fun x => (t, f x)) l.
Proof. induction l as [|x l IH]; [done|]. cbn. rewrite String.eqb_refl. f_equal. exact IH. Qed.

Lemma of_table_none {A} t u (f : A -> list hash_value) l :
  String.eqb u t = false -> of_table t (map (fun x => (u, f x)) l) = [].
Proof. intros Hu. induction l as [|x l IH]; [done|]. cbn. by rewrite Hu. Qed.

Lemma of_table_keymap t km : String.eqb "token_keymap" t = false -> of_table t (keymap_rows km) = [].
Proof.
  intros Ht. unfold keymap_rows, of_table. destruct km as [m|]; [|done]. destruct (str_nonempty _); [|done].
  cbn [List.filter fst]. by rewrite Ht.
Qed.

Lemma of_keymap km : of_table "token_keymap" (keymap_rows km) = keymap_rows km.
Proof. unfold keymap_rows, of_table. destruct km as [m|]; [|done]. by destruct (str_nonempty _). Qed.

(** The rows of each table among the rows of a root. *)
Ltac pick_table :=
  intros; unfold root_rows; unfold of_table; rewrite !List.filter_app;
  repeat match goal with |- context [List.filter (fun r => String.eqb r.1 ?t) ?l] => fold (of_table t l) end;
  unfold doc_rows, kv_rows, blob_rows;
  rewrite ?of_keymap, ?of_table_all, ?of_table_keymap, ?of_table_none by reflexivity; rewrite ?app_nil_r; reflexivity.

Lemma root_docs n k d : of_table "documents" (root_rows n k d) = doc_rows d.
Proof. pick_table. Qed.
Lemma root_kvs n k d : of_table "kv_store" (root_rows n k d) = kv_rows "kv_store" "bound" (FormatTimestamp n) d.
Proof. pick_table. Qed.
Lemma root_blobs n k d : of_table "blobs" (root_rows n k d) = blob_rows "blobs" "bound" (FormatTimestamp n) d.
Proof. pick_table. Qed.
Lemma root_keymap n k d : of_table "token_keymap" (root_rows n k d) = keymap_rows k.
Proof. pick_table. Qed.

Lemma root_rows_parts now km db now' km' db' :
  root_rows now km db = root_rows now' km' db' ->
  doc_rows db = doc_rows db' /\ kv_rows "kv_store" "bound" (FormatTimestamp now) db = kv_rows "kv_store" "bound" (FormatTimestamp now') db' /\
  blob_rows "blobs" "bound" (FormatTimestamp now) db = blob_rows "blobs" "bound" (FormatTimestamp now') db' /\
  keymap_rows km = keymap_rows km'.
Proof.
  intros He. split_and!.
  - by rewrite <- (root_docs now km), He, root_docs.
  - by rewrite <- (root_kvs now km), He, root_kvs.
  - by rewrite <- (root_blobs now km), He, root_blobs.
  - by rewrite <- (root_keymap now km db), He, root_keymap.
Qed.

Lemma sha256_hex_tame s : tame_text (sha256_hex s).
Proof. unfold sha256_hex. split; by apply hex_encode_free. Qed.

Lemma root_rows_tame now km db : tame db -> Forall tame_row (root_rows now km db).
Proof.
  intros Hd. unfold root_rows. rewrite !Forall_app. split_and!; apply Forall_forall; intros r Hr.
  - apply list_elem_of_fmap in Hr as ([[c i] d] & -> & Hx). apply elem_of_ordered, (tame_docs _ Hd) in Hx as (? & ? & ?).
    by constructor.
  - apply list_elem_of_fmap in Hr as ([k [[v e] t]] & -> & Hx). apply elem_of_ordered, active_kv in Hx as [Hx _].
    apply (tame_kvs _ Hd) in Hx as (? & ? & ?). constructor; [done|done|by apply tame_coalesce].
  - apply list_elem_of_fmap in Hr as ([[n i] [[[[z ct] d] e] t]] & -> & Hx). apply elem_of_ordered, active_blob in Hx as [Hx _].
    apply (tame_blobs _ Hd) in Hx as (? & ? & ? & ?). constructor; try done; [|by apply tame_coalesce].
    split; by apply sql_hex_free.
  - unfold keymap_rows in Hr. destruct km as [m|]; [|by apply not_elem_of_nil in Hr].
    destruct (str_nonempty (TokenKeymapHash m)); [|by apply not_elem_of_nil in Hr].
    apply list_elem_of_singleton in Hr as ->. constructor. unfold TokenKeymapHash.
    destruct (ordered str_le m); [done|apply sha256_hex_tame].
Qed.

(** The text a root hashes. *)
Definition root_text (now : gotime) (km : option (gmap string string)) (db : state_db) : string :=
  match write_rows (root_rows now km db) with Ok t => t | Err _ => "" end.

Lemma write_tame l : Forall tame_row l -> exists t, write_rows l = Ok t.
Proof.
  induction 1 as [|[tb vs] l Hr Hl [t Ht]]; [by eexists|]. destruct (tame_line _ Hr) as (x & _ & Hx).
  cbn [write_rows]. cbn [fst snd] in Hx. rewrite Hx, Ht. by eexists.
Qed.

(** C33: The root binds the state: two databases with one bound root hold the same
    documents, the same active entries and blobs and the same keymap hash, or exhibit a
    SHA-256 collision.  This takes texts that hold no line feed, collections, ids, keys
    and namespaces without quotation marks, and expiry times that are not the empty text
    and hold none either; documents, values and content types may hold them. *)
Theorem root_binds now km db now' km' db' :
  tame db -> tame db' -> rows_root (root_rows now km db) = rows_root (root_rows now' km' db') ->
  (doc_view db = doc_view db' /\
   selected (kv_active "bound" (FormatTimestamp now)) (kv_view db) = selected (kv_active "bound" (FormatTimestamp now')) (kv_view db') /\
   selected (blob_active "bound" (FormatTimestamp now)) (blob_view db) = selected (blob_active "bound" (FormatTimestamp now')) (blob_view db') /\
   keymap_rows km = keymap_rows km') \/
  collision (root_text now km db) (root_text now' km' db').
Proof.
  intros Hd Hd' H. pose proof (root_rows_tame now km db Hd) as T. pose proof (root_rows_tame now' km' db' Hd') as T'.
  unfold rows_root, root_text in *. destruct (write_tame _ T) as [t Ht], (write_tame _ T') as [t' Ht']. rewrite Ht, Ht' in *.
  apply sha256_hex_eq in H as [<-|H]; [left|by right].
  pose proof (write_rows_inj _ _ _ T T' Ht Ht') as He. apply root_rows_parts in He as (H1 & H2 & H3 & H4).
  split_and!; [by apply doc_rows_inj|by eapply kv_rows_inj|by eapply blob_rows_inj|done].
Qed.

(** ** Values that hold lines of their own *)

Lemma kv_view_insert key row m db :
  cache_key key = false -> kv_view (set_kv (<[key := row]> m) db) = <[key := kv_cols row]> (kv_view (set_kv m db)).
Proof.
  intros Hc. unfold kv_view, selected. cbn [kv_store set_kv]. rewrite map_filter_insert_True, fmap_insert; [done|].
  cbn [fst]. by rewrite Hc.
Qed.

Lemma kv_view_empty db : kv_view (set_kv ∅ db) = ∅.
Proof. unfold kv_view, selected. cbn [kv_store set_kv]. by rewrite map_filter_empty, fmap_empty. Qed.

Lemma bound_insert now key v m :
  live now v.1.2 = true -> v.2 = "bound" ->
  selected (kv_active "bound" now) (<[key := v]> m) = <[key := v]> (selected (kv_active "bound" now) m).
Proof. intros Hl Ht. unfold selected. rewrite map_filter_insert_True; [done|]. unfold kv_active. cbn [fst snd]. by rewrite Hl, Ht. Qed.

Lemma ordered_two a b (v w : string * option string * string) :
  String.ltb a b = true -> ordered str_le (<[b := w]> (<[a := v]> ∅)) = [(a, v); (b, w)].
Proof.
  intros Hab. assert (Hne : a <> b) by (intros ->; by rewrite ltb_irrefl in Hab).
  unfold ordered. change (merge_sort str_le) with sort_strings.
  rewrite (sort_strings_perm _ [a; b]).
  - assert (Hs : sort_strings [a; b] = [a; b]).
    { unfold sort_strings. cbn. rewrite decide_True; [done|]. unfold str_le. by apply ltb_not_sym. }
    rewrite Hs. cbn. by rewrite lookup_insert_ne, lookup_insert_eq, lookup_insert_eq by done.
  - rewrite map_to_list_insert by (rewrite lookup_insert_ne by done; done). cbn.
    rewrite map_to_list_insert by done. rewrite map_to_list_empty. cbn. by constructor.
Qed.

Lemma ordered_one a (v : string * option string * string) : ordered str_le (<[a := v]> ∅) = [(a, v)].
Proof.
  unfold ordered. rewrite insert_empty, map_to_list_singleton. cbn. by rewrite lookup_singleton_eq.
Qed.

(** The end of one line and the beginning of the next, up to the value of [key]. *)
Definition splice (key : string) : string :=
  dq +:+ "," +:+ dq +:+ dq +:+ "]}" +:+ nl +:+
  "{" +:+ dq +:+ "table" +:+ dq +:+ ":" +:+ dq +:+ "kv_store" +:+ dq +:+ "," +:+ dq +:+ "values" +:+ dq +:+ ":[" +:+
  dq +:+ key +:+ dq +:+ "," +:+ dq.

(** Values are hashed without escaping, so the root does not say which entries exist:
    an entry whose value spells the end of its line and another entry's line has the root
    of the database that holds both entries. *)
Theorem root_confusion now km t a x b y :
  cache_key a = false -> cache_key b = false -> String.ltb a b = true ->
  let one := (kv_upsert None a (x +:+ splice b +:+ y) t None empty_state).2 in
  let two := (kv_upsert None b y t None (kv_upsert None a x t None empty_state).2).2 in
  rows_root (root_rows now km one) = rows_root (root_rows now km two) /\
  KVGet now b one = None /\ KVGet now b two = Some y.
Proof.
  intros Ha Hb Hab one two. assert (Hne : a <> b) by (intros ->; by rewrite ltb_irrefl in Hab).
  assert (H1 : kv_view one = <[a := (x +:+ splice b +:+ y, None, "bound")]> ∅).
  { unfold one, kv_upsert. cbn [fst snd kv_store empty_state]. rewrite lookup_empty. unfold bump. rewrite Ha.
    change (kv_view ?d) with (kv_view (set_kv (kv_store d) empty_state)). cbn [kv_store set_kv].
    by rewrite kv_view_insert, kv_view_empty by done. }
  assert (H2 : kv_view two = <[b := (y, None, "bound")]> (<[a := (x, None, "bound")]> ∅)).
  { unfold two, kv_upsert. cbn [fst snd kv_store empty_state bump set_kv]. rewrite lookup_empty, lookup_insert_ne, lookup_empty by done.
    unfold bump. change (kv_view ?d) with (kv_view (set_kv (kv_store d) empty_state)). cbn [kv_store set_kv].
    by rewrite !kv_view_insert, kv_view_empty by done. }
  split_and!.
  - unfold rows_root, root_rows, kv_rows. rewrite H1, H2, !bound_insert by done.
    unfold selected. rewrite !map_filter_empty, ordered_one, ordered_two by done.
    change (doc_rows two) with (doc_rows one).
    change (blob_rows "blobs" "bound" (FormatTimestamp now) two) with (blob_rows "blobs" "bound" (FormatTimestamp now) one).
    rewrite !write_rows_app. destruct (write_rows (doc_rows one)) as [td|]; [cbn [rbind]|done].
    cbn [map write_rows fst snd coalesce]. unfold writeRowToHash. cbn [values_text value_text rbind].
    destruct (write_rows _) as [tr|]; [|done]. cbn [rbind]. unfold splice. by rewrite !string_app_assoc, !string_app_nil_r.
  - unfold KVGet, one, kv_upsert. cbn. by rewrite lookup_insert_ne, lookup_empty by done.
  - unfold KVGet, two, kv_upsert. cbn [snd kv_store bump set_kv]. rewrite lookup_insert_eq.
    cbn [kv_store empty_state]. by rewrite lookup_insert_ne, lookup_empty by done.
Qed.

(** ** Concrete calls *)

Definition ex_env (db : state_db) (now : gotime) (provider : option (gmap string string)) : root_env :=
  {| snap := fun _ => db; q_fault := fun _ => None; root_now := now; provider := provider; persist_fault := None |}.

Definition ex_root (db : state_db) (now : gotime) (km : option (gmap string string)) (c : root_cache) : result string * root_cache :=
  GetCurrentStateRoot (ex_env db now km) c.

(** An entry that lives for a minute and a document. *)
Definition ex_db : state_db :=
  (doc_upsert (fun _ _ => false) "operators" "op-1" "{}" "t0" "t0"
    (kv_upsert None "lease" "held" "t0" (ttl_expiry 0%Z 60) empty_state).2).2.

Definition ex_cache : root_cache := (ex_root ex_db 0%Z None NewStateRootService).2.

(** Once the entry has expired a new service does not hash it; a service with a cache
    still answers with the root that holds it, and ignores a keymap that has appeared,
    for no write has moved the version. *)
Example ex_stale :
  let later := (120 * 1000000000)%Z in
  (ex_root ex_db later None ex_cache).1 = (ex_root ex_db 0%Z None NewStateRootService).1 /\
  (ex_root ex_db later None ex_cache).1 <> (ex_root ex_db later None NewStateRootService).1 /\
  (ex_root ex_db 0%Z (Some {["token" := "value"]}) ex_cache).1 <>
    (ex_root ex_db 0%Z (Some {["token" := "value"]}) NewStateRootService).1.
Proof. vm_compute. split_and!; done. Qed.

(** A bound write to an entry that was once observed stays out of the bound root. *)
Example ex_stays_observed :
  let db := (kv_upsert None "mode" "strict" "t1" None (kv_upsert (Some "observed") "mode" "lax" "t0" None empty_state).2).2 in
  KVGet 0%Z "mode" db = Some "strict" /\ kv_rows "kv_store" "bound" "t2" db = [].
Proof. vm_compute. done. Qed.

Lemma root_current_witness :
  exists now km, (now = 0%Z /\ km = None) /\ (ex_root ex_db 0%Z None ex_cache).1 = Ok (rows_root (root_rows now km ex_db)).
Proof.
  destruct (root_current (fun _ _ => false) (fun now km => now = 0%Z /\ km = None) ex_db ex_cache (ex_env ex_db 0%Z None)
              (cachedStateRoot ex_cache)) as (now & km & Hp & Hr).
  - eapply sys_next; [apply sys_init|]. apply (sys_root _ _ (ex_env ex_db 0%Z None) ex_db ex_db); [|constructor].
    split; [constructor|]. split; [intros i; constructor|split; reflexivity].
  - split; [constructor|]. split; [intros i; constructor|split; reflexivity].
  - reflexivity.
  - vm_compute. reflexivity.
  - exists now, km. split; [exact Hp|]. cbn [snap ex_env] in Hr. rewrite <- Hr. vm_compute. reflexivity.
Defined.

(** The same state after an observation. *)
Definition ex_observed_db : state_db := (kv_upsert (Some "observed") "seen" "value" "t9" None ex_db).2.

Lemma root_binds_witness :
  KVGet 0%Z "seen" ex_db <> KVGet 0%Z "seen" ex_observed_db /\
  ((doc_view ex_db = doc_view ex_observed_db /\
   selected (kv_active "bound" (FormatTimestamp 0%Z)) (kv_view ex_db) = selected (kv_active "bound" (FormatTimestamp 1%Z)) (kv_view ex_observed_db) /\
   selected (blob_active "bound" (FormatTimestamp 0%Z)) (blob_view ex_db) = selected (blob_active "bound" (FormatTimestamp 1%Z)) (blob_view ex_observed_db) /\
   keymap_rows None = keymap_rows None) \/
  collision (root_text 0%Z None ex_db) (root_text 1%Z None ex_observed_db)).
Proof.
  assert (Htame : forall db,
    map_Forall (fun k d => tame_text k.1 /\ tame_text k.2 /\ line_free d) (doc_view db) ->
    map_Forall (fun k v => tame_text k /\ line_free v.1.1 /\ tame_expiry v.1.2) (kv_view db) ->
    map_Forall (fun k v => tame_text k.1 /\ tame_text k.2 /\ line_free v.1.1.1.2 /\ tame_expiry v.1.2) (blob_view db) -> tame db).
  { intros db H1 H2 H3. split; intros k v H; [by apply H1 in H|by apply H2 in H|by apply H3 in H]. }
  split; [vm_compute; discriminate|].
  apply (root_binds 0%Z None ex_db 1%Z None ex_observed_db);
    [apply Htame; apply (bool_decide_unpack _); vm_compute; exact I..|]. vm_compute. reflexivity.
Defined.

Lemma root_confusion_witness :
  let one := (kv_upsert None "a" ("x" +:+ splice "b" +:+ "y") "t" None empty_state).2 in
  let two := (kv_upsert None "b" "y" "t" None (kv_upsert None "a" "x" "t" None empty_state).2).2 in
  rows_root (root_rows 0%Z None one) = rows_root (root_rows 0%Z None two) /\
  KVGet 0%Z "b" one = None /\ KVGet 0%Z "b" two = Some "y".
Proof. apply (root_confusion 0%Z None "t" "a" "x" "b" "y"); reflexivity. Defined.
