(* ===== verification/Handlers.v ===== *)
(** The egress handlers of the operator
    ([src/internal/services/pubsub/pubsub_commands.go] and the payload table of
    [protocol_helpers.go]): which function executes a verified action class, what
    it decodes, and which calls it makes.

    A handler is a computation that lists its calls to other services in order and
    returns the summary for the receipt, or an error.  The services answer through
    [answer]; the protobuf codec is a parameter. *)
From S2P Require Import Prelude Errors Encoding Sha256 Constants EventRegistry Envelope Payload JsonEncode.
From Stdlib Require Import String Ascii List ZArith Lia Bool.
From stdpp Require Import base strings list gmap.
Open Scope string_scope.
Open Scope list_scope.

(** [PubSubCommandMessage]. *)
Record PubSubCommandMessage := {
  msgID : string; msgEventType : EventType; msgCaseID : string; msgTaskID : string;
  msgInvestigationID : string; msgWebSessionID : string; msgCLISessionID : string;
  msgOperatorSessionID : string; msgOperatorID : string; msgPayload : string
}.

(** The messages whose fields the handlers read; the others by their type.  The
    updates of a document are the [Struct] as the codec holds it. *)
Inductive CommandPayload :=
| PShutdown (reason : string)
| PMcpCall (tool_name arguments_json : string)
| PA2ACall (skill_name payload_json : string)
| PMcpResourceRead (uri : string)
| PMcpPromptGet (name : string)
| PEvalAnswer (answer : string)
| PInference (provider_attempt_id : string) (retry_count : Z) (stream : bool)
| PDocumentUpdate (collection document_id : string) (updates : option string) (merge : bool)
| PDocumentDelete (collection document_id : string)
| POther (type_name : string).

(** The result of an inference with its digest. *)
Record InferenceResult := { irBody : string; irResultDigest : string }.

(** A call to another service. *)
Inductive egress :=
| EgService (service : string) (msg : PubSubCommandMessage)
| EgHeartbeat (payload : string)
| EgDocReplace (collection document_id data : string)
| EgDocMerge (collection document_id data : string)
| EgDocDelete (collection document_id : string)
| EgMcpCall (tool arguments operator_session : string)
| EgA2aCall (skill payload : string)
| EgResourceRead (uri : string)
| EgPromptGet (name : string)
| EgResourceList
| EgPromptList
| EgAttemptBegin (attempt transaction : string) (retry_count : Z)
| EgAttemptFail (attempt : string)
| EgAttemptSave (attempt : string) (result : InferenceResult)
| EgAttemptComplete (attempt digest : string)
| EgInference (msg : PubSubCommandMessage)
| EgObserve (observer : string) (msg : PubSubCommandMessage)
| EgEnrollment (step : string) (msg : PubSubCommandMessage).

(** The part of [OperatorPubSubService] the handlers read; a nil dependency is
    [None] or [false].  A gateway says which of its tools are native. *)
Record OperatorPubSubService := {
  gatewayMode : bool; mcpGateway : option (string -> bool); governedDocStore : bool;
  inferenceHandler : bool; inferenceAttemptStore : bool; providerBoundaryObserver : bool;
  modelProvenanceOperator : bool; platformEnrollment : bool
}.

(** ** Payloads by event *)

(** [MaxPayloadSize]: five mebibytes. *)
Definition MaxPayloadSize : Z := (5 * 1024 * 1024)%Z.

(** The switch of [unmarshalPayload]: the message type of an event. *)
Definition payload_table : list (EventType * string) := [
  ("g8e.v1.operator.heartbeat.requested", "HeartbeatRequested");
  ("g8e.v1.operator.command.requested", "CommandRequested");
  ("g8e.v1.operator.command.cancel.requested", "CommandCancelRequested");
  ("g8e.v1.operator.file.edit.requested", "FileEditRequested");
  ("g8e.v1.operator.filesystem.list.requested", "FsListRequested");
  ("g8e.v1.operator.filesystem.read.requested", "FsReadRequested");
  ("g8e.v1.operator.filesystem.grep.requested", "FsGrepRequested");
  ("g8e.v1.operator.network.port.check.requested", "CheckPortRequested");
  ("g8e.v1.operator.ollama.model.inventory.requested", "OllamaModelInventoryRequested");
  ("g8e.v1.operator.ollama.model.residency.requested", "OllamaModelResidencyRequested");
  ("g8e.v1.operator.logs.fetch.requested", "FetchLogsRequested");
  ("g8e.v1.operator.history.fetch.requested", "FetchHistoryRequested");
  ("g8e.v1.operator.file.history.fetch.requested", "FetchFileHistoryRequested");
  ("g8e.v1.operator.file.restore.requested", "RestoreFileRequested");
  ("g8e.v1.operator.shutdown.requested", "ShutdownRequested");
  ("g8e.v1.operator.audit.user.recorded", "AuditMsgRequested");
  ("g8e.v1.operator.audit.ai.recorded", "AuditMsgRequested");
  ("g8e.v1.operator.audit.direct.command.recorded", "DirectCommandAuditRequested");
  ("g8e.v1.operator.audit.direct.command.result.recorded", "DirectCommandResultAuditRequested");
  ("g8e.v1.operator.file.diff.fetch.requested", "FetchFileDiffRequested");
  ("g8e.v1.operator.mcp.call.requested", "McpCallRequested");
  ("g8e.v1.operator.a2a.call.requested", "A2ACallRequested");
  ("g8e.v1.operator.eval.answer.requested", "EvalAnswerRequested");
  ("g8e.v1.operator.inference.requested", "InferenceRequested");
  ("g8e.v1.operator.provider.boundary.observation.requested", "ProviderBoundaryObservationCommand");
  ("g8e.v1.platform.enrollment.create.requested", "PlatformEnrollmentGovernancePayload");
  ("g8e.v1.platform.enrollment.decide.requested", "PlatformEnrollmentGovernancePayload");
  ("g8e.v1.platform.enrollment.issue.requested", "PlatformEnrollmentGovernancePayload");
  ("g8e.v1.platform.enrollment.persist_policy.requested", "PlatformEnrollmentGovernancePayload");
  ("g8e.v1.platform.enrollment.create_session.requested", "PlatformEnrollmentGovernancePayload");
  ("g8e.v1.platform.enrollment.revoke.requested", "PlatformEnrollmentGovernancePayload")].

Definition find_key {A} (k : string) (l : list (string * A)) : option A :=
  option_map snd (List.find (fun kv => String.eqb k kv.1) l).

Definition payload_message (eventType : EventType) : option string := find_key eventType payload_table.

(** ** The computation of a handler *)

Definition egr (A : Type) : Type := list egress * result A.
Definition ebind {A B} (m : egr A) (k : A -> egr B) : egr B :=
  match m with
  | (l, Ok a) => let '(l', r) := k a in (l ++ l', r)
  | (l, Err e) => (l, Err e)
  end.
(** A check or a computation without calls. *)
Definition pure {A} (r : result A) : egr A := ([], r).
Definition ewrap {A} (f : gerr -> gerr) (m : egr A) : egr A :=
  (m.1, match m.2 with Ok a => Ok a | Err e => Err (f e) end).

Notation "'let>' x := e 'in' k" := (ebind e (fun x => k))
  (at level 10, x pattern, e at level 100, k at level 200) : go_scope.

(** A summary, and the inference result the handler leaves in the message. *)
Definition outcome : Type := string * option InferenceResult.

Definition say (summary : string) : egr outcome := pure (Ok (summary, None)).
Definition fail (err : gerr) : egr outcome := pure (Err err).

(** [constants.ReceiptSummaryMaxBytes]. *)
Definition ReceiptSummaryMaxBytes : Z := 4096.

(** [if len(summary) > max { summary = summary[:max] }], in bytes. *)
Definition bound_summary (summary : string) : string :=
  if (ReceiptSummaryMaxBytes <? Z.of_nat (String.length summary))%Z
  then String.substring 0 (Z.to_nat ReceiptSummaryMaxBytes) summary else summary.

Lemma ebind_pure {A B} (a : A) (k : A -> egr B) : ebind (pure (Ok a)) k = k a.
Proof. unfold ebind, pure. by destruct (k a). Qed.

Lemma ebind_Ok {A B} (m : egr A) (k : A -> egr B) l b :
  ebind m k = (l, Ok b) -> exists a l1 l2, m = (l1, Ok a) /\ k a = (l2, Ok b) /\ l = l1 ++ l2.
Proof.
  destruct m as [l1 [a|e]]; [|discriminate]. cbn. destruct (k a) as [l2 r] eqn:Hk. intros [= <- ->].
  by exists a, l1, l2.
Qed.

Section handlers.
(** [proto.Unmarshal] into a message of the named type, [protojson.Marshal] of a
    [Struct], and the deterministic encoding of an inference result. *)
Context (unmarshal : string -> string -> result CommandPayload).
Context (protojson : string -> result string).
Context (marshal_result : string -> result string).
(** What the called service returns. *)
Context (answer : egress -> result string).

Definition ecall (x : egress) : egr string := ([x], answer x).

Definition unmarshalPayload (eventType : EventType) (payload : string) : result CommandPayload :=
  let? _ := require (Z.of_nat (String.length payload) <=? MaxPayloadSize)%Z
              (Errorf "payload exceeds maximum size limit (%d bytes): %w" [Sentinel "ErrPayloadExceedsLimit"]) in
  match payload_message eventType with
  | None => Err (Errorf "unknown event type for unmarshaling: %s" [])
  | Some t => unmarshal t payload
  end.

(** The failed assertion on the type of a decoded payload. *)
Definition wrong_type : egr outcome :=
  fail (Errorf "invalid payload type %T: %w" [Sentinel "ErrTxPayloadActionMismatch"]).

(** [proto.Unmarshal] returned a message of another type than it was given. *)
Definition wrong_decode : egr outcome := fail (Extern "proto.Unmarshal").

Definition downstream_error (err : gerr) : gerr := Errorf "%w: %w" [Sentinel "ErrGatewayDownstreamHTTPError"; err].

Definition or_empty_object (json : string) : string := if String.eqb json "" then "{}" else json.

Definition handleMcpCallRequestSync (rs : OperatorPubSubService) (msg : PubSubCommandMessage) : egr outcome :=
  match mcpGateway rs with
  | None => fail (Sentinel "ErrPubSubMCPGateway")
  | Some isNativeTool =>
      let> req := pure (unmarshalPayload (msgEventType msg) (msgPayload msg)) in
      match req with
      | PMcpCall tool args =>
          if String.eqb tool "" then fail (Sentinel "ErrPubSubMCPMissingToolName")
          else
            let> summary := ewrap downstream_error
              (ecall (EgMcpCall tool (or_empty_object args) (msgOperatorSessionID msg))) in
            say (if negb (String.eqb tool "read_field") && negb (isNativeTool tool)
                 then bound_summary summary else summary)
      | _ => wrong_type
      end
  end.

Definition mcpGatewayOrErr (rs : OperatorPubSubService) : result (string -> bool) :=
  match mcpGateway rs with None => Err (Sentinel "ErrPubSubMCPGateway") | Some gw => Ok gw end.

(** A call whose answer is the summary. *)
Definition relay (x : egress) : egr outcome := let> summary := ecall x in say summary.

Definition handleMcpResourceReadSync (rs : OperatorPubSubService) (msg : PubSubCommandMessage) : egr outcome :=
  let> _ := pure (mcpGatewayOrErr rs) in
  let> req := pure (unmarshalPayload (msgEventType msg) (msgPayload msg)) in
  match req with
  | PMcpResourceRead uri =>
      if String.eqb uri "" then fail (Sentinel "ErrGatewayURIRequired") else relay (EgResourceRead uri)
  | _ => wrong_type
  end.

Definition handleMcpPromptGetSync (rs : OperatorPubSubService) (msg : PubSubCommandMessage) : egr outcome :=
  let> _ := pure (mcpGatewayOrErr rs) in
  let> req := pure (unmarshalPayload (msgEventType msg) (msgPayload msg)) in
  match req with
  | PMcpPromptGet name =>
      if String.eqb name "" then fail (Sentinel "ErrGatewayNameRequired") else relay (EgPromptGet name)
  | _ => wrong_type
  end.

Definition handleMcpResourceListSync (rs : OperatorPubSubService) (msg : PubSubCommandMessage) : egr outcome :=
  let> _ := pure (mcpGatewayOrErr rs) in
  let> _ := pure (unmarshalPayload (msgEventType msg) (msgPayload msg)) in
  relay EgResourceList.

Definition handleMcpPromptListSync (rs : OperatorPubSubService) (msg : PubSubCommandMessage) : egr outcome :=
  let> _ := pure (mcpGatewayOrErr rs) in
  let> _ := pure (unmarshalPayload (msgEventType msg) (msgPayload msg)) in
  relay EgPromptList.

Definition handleA2aCallRequestSync (rs : OperatorPubSubService) (msg : PubSubCommandMessage) : egr outcome :=
  match mcpGateway rs with
  | None => fail (Sentinel "ErrPubSubA2AGateway")
  | Some _ =>
      let> req := pure (unmarshalPayload (msgEventType msg) (msgPayload msg)) in
      match req with
      | PA2ACall skill payload =>
          if String.eqb skill "" then fail (Sentinel "ErrPubSubA2AMissingSkillName")
          else
            let> summary := ewrap downstream_error (ecall (EgA2aCall skill (or_empty_object payload))) in
            say (bound_summary summary)
      | _ => wrong_type
      end
  end.

(** ** Documents *)

Definition wrapf (fmt : string) (err : gerr) : gerr := Errorf fmt [err].

Definition update_json (updates : option string) : result string :=
  match updates with
  | None => Ok "{}"
  | Some st => wrap_err "pubsub: document update: struct to json: %w" (protojson st)
  end.

Definition handleDocumentUpdateSync (rs : OperatorPubSubService) (msg : PubSubCommandMessage) : egr outcome :=
  if negb (governedDocStore rs) then fail (Sentinel "ErrGovernedDocStoreNotConfigured")
  else
    let> req := pure (wrap_err "pubsub: document update: unmarshal: %w" (unmarshal "DocumentUpdateRequested" (msgPayload msg))) in
    match req with
    | PDocumentUpdate collection id updates merge =>
        if String.eqb collection "" || String.eqb id ""
        then fail (Errorf "pubsub: document update: %w" [Sentinel "ErrTxPayloadMissing"])
        else
          let> data := pure (update_json updates) in
          let> _ := if merge
                    then ewrap (wrapf "pubsub: document update: doc merge: %w") (ecall (EgDocMerge collection id data))
                    else ewrap (wrapf "pubsub: document update: doc replace: %w") (ecall (EgDocReplace collection id data)) in
          say ("document updated: " +:+ collection +:+ "/" +:+ id)
    | _ => wrong_decode
    end.

Definition handleDocumentDeleteSync (rs : OperatorPubSubService) (msg : PubSubCommandMessage) : egr outcome :=
  if negb (governedDocStore rs) then fail (Sentinel "ErrGovernedDocStoreNotConfigured")
  else
    let> req := pure (wrap_err "pubsub: document delete: unmarshal: %w" (unmarshal "DocumentDeleteRequested" (msgPayload msg))) in
    match req with
    | PDocumentDelete collection id =>
        if String.eqb collection "" || String.eqb id ""
        then fail (Errorf "pubsub: document delete: %w" [Sentinel "ErrTxPayloadMissing"])
        else
          let> _ := ewrap (wrapf "pubsub: document delete: doc delete: %w") (ecall (EgDocDelete collection id)) in
          say ("document deleted: " +:+ collection +:+ "/" +:+ id)
    | _ => wrong_decode
    end.

(** ** Shutdown, evaluation, observation *)

Definition shutdown_reason (reason : string) : string := if String.eqb reason "" then "No reason provided" else reason.

Definition handleShutdownRequest (msg : PubSubCommandMessage) : egr outcome :=
  let> req := pure (unmarshalPayload (msgEventType msg) (msgPayload msg)) in
  match req with
  | PShutdown reason => say (shutdown_reason reason)
  | _ => wrong_type
  end.

Definition handleEvalAnswerRequestSync (msg : PubSubCommandMessage) : egr outcome :=
  let> req := pure (unmarshalPayload (msgEventType msg) (msgPayload msg)) in
  match req with
  | PEvalAnswer text => say (bound_summary text)
  | _ => wrong_type
  end.

Definition handleProviderBoundaryObservationSync (rs : OperatorPubSubService) (msg : PubSubCommandMessage) : egr outcome :=
  if negb (providerBoundaryObserver rs)
  then fail (Errorf "provider boundary observer handler not configured: %w" [Sentinel "ErrMissingRequiredField"])
  else relay (EgObserve "providerBoundaryObserver" msg).

Definition handleModelProvenanceObservationSync (rs : OperatorPubSubService) (msg : PubSubCommandMessage) : egr outcome :=
  if negb (modelProvenanceOperator rs)
  then fail (Errorf "model provenance operator handler not configured: %w" [Sentinel "ErrMissingRequiredField"])
  else relay (EgObserve "modelProvenanceOperator" msg).

(** ** Inference *)

(** [models.ComputeInferenceResultDigest]. *)
Definition ComputeInferenceResultDigest (body : string) : result string :=
  let? data := wrap_err "models: compute inference result digest: marshal: %w" (marshal_result body) in
  Ok (sha256_hex data).

(** The request, when there is one: its attempt and its retry count. *)
Definition inference_request (payload : string) : result (string * Z) :=
  if String.eqb payload "" then Ok ("", 0%Z)
  else match wrap_err "inference handler: unmarshal payload: %w" (unmarshal "InferenceRequested" payload) with
       | Ok (PInference attempt retries _) => Ok (attempt, retries)
       | Ok _ => Err (Extern "proto.Unmarshal")
       | Err err => Err err
       end.

(** [failAttempt]: the cause is returned whatever the store answers. *)
Definition failing (recordAttempt : bool) (attempt : string) {A} (m : egr A) : egr A :=
  match m with
  | (l, Err err) => (if recordAttempt then l ++ [EgAttemptFail attempt] else l, Err err)
  | m => m
  end.

(** The attempt between [Begin] and [Complete]: every error of it is recorded. *)
Definition run_attempt (recordAttempt : bool) (attempt : string) (msg : PubSubCommandMessage) : egr InferenceResult :=
  failing recordAttempt attempt (
    let> resp := ecall (EgInference msg) in
    let> digest := pure (ComputeInferenceResultDigest resp) in
    let result := {| irBody := resp; irResultDigest := digest |} in
    let> _ := if recordAttempt
              then ewrap (wrapf "inference handler: save result: %w") (ecall (EgAttemptSave attempt result))
              else pure (Ok "") in
    pure (Ok result)).

Definition handleInferenceRequestSync (rs : OperatorPubSubService) (msg : PubSubCommandMessage) : egr outcome :=
  if negb (inferenceHandler rs)
  then fail (Errorf "inference handler not configured: %w" [Sentinel "ErrInferenceBackendNotRegistered"])
  else
    let> req := pure (inference_request (msgPayload msg)) in
    let '(attempt, retries) := req in
    let recordAttempt := inferenceAttemptStore rs && str_nonempty attempt in
    let> _ := if recordAttempt
              then ewrap (wrapf "inference handler: begin attempt: %w")
                     (ecall (EgAttemptBegin attempt (msgID msg) retries))
              else pure (Ok "") in
    let> result := run_attempt recordAttempt attempt msg in
    let> _ := if recordAttempt
              then ewrap (wrapf "inference handler: complete attempt: %w")
                     (ecall (EgAttemptComplete attempt (irResultDigest result)))
              else pure (Ok "") in
    pure (Ok (irResultDigest result, Some result)).

(** ** The tables *)

(** A handler by the code that implements it. *)
Inductive verifiedActionHandler :=
| FireAndForget (service : string)
| DocumentUpdateSync | DocumentDeleteSync | EvalAnswerSync | InferenceSync
| ProviderBoundarySync | ModelProvenanceSync | ShutdownSync
| EnrollmentStep (step : string)
| McpCallSync | A2aCallSync | McpResourceReadSync | McpPromptGetSync | McpResourceListSync | McpPromptListSync.

(** [buildHandlers]. *)
Definition buildHandlers : list (ActionType * verifiedActionHandler) := [
  (ActionTypeHeartbeat, FireAndForget "heartbeat.HandleRequest");
  (ActionTypeExecuteBash, FireAndForget "commands.HandleExecutionRequest");
  (ActionTypeCancel, FireAndForget "commands.HandleCancelRequest");
  (ActionTypeFileEdit, FireAndForget "fileOps.HandleFileEditRequest");
  (ActionTypeFsList, FireAndForget "fileOps.HandleFsListRequest");
  (ActionTypeFsRead, FireAndForget "fileOps.HandleFsReadRequest");
  (ActionTypeFsGrep, FireAndForget "fileOps.HandleFsGrepRequest");
  (ActionTypePortCheck, FireAndForget "ports.HandlePortCheckRequest");
  (ActionTypeOllamaModelInventory, FireAndForget "ollama.HandleInventoryRequest");
  (ActionTypeOllamaModelResidency, FireAndForget "ollama.HandleResidencyRequest");
  (ActionTypeFetchLogs, FireAndForget "history.HandleFetchLogsRequest");
  (ActionTypeFetchHistory, FireAndForget "history.HandleFetchHistoryRequest");
  (ActionTypeFetchFileHistory, FireAndForget "history.HandleFetchFileHistoryRequest");
  (ActionTypeRestoreFile, FireAndForget "history.HandleRestoreFileRequest");
  (ActionTypeFetchFileDiff, FireAndForget "history.HandleFetchFileDiffRequest");
  (ActionTypeDocumentUpdate, DocumentUpdateSync);
  (ActionTypeDocumentDelete, DocumentDeleteSync);
  (ActionTypeEvalAnswer, EvalAnswerSync);
  (ActionTypeInference, InferenceSync);
  (ActionTypeProviderBoundaryObservation, ProviderBoundarySync);
  (ActionTypeModelProvenanceObservation, ModelProvenanceSync);
  (ActionTypeShutdown, ShutdownSync)].

Definition registerPlatformEnrollmentHandlers : list (ActionType * verifiedActionHandler) := [
  (ActionTypePlatformEnrollmentCreate, EnrollmentStep "HandleCreate");
  (ActionTypePlatformEnrollmentDecide, EnrollmentStep "HandleDecide");
  (ActionTypePlatformEnrollmentIssue, EnrollmentStep "HandleIssue");
  (ActionTypePlatformEnrollmentPersistPolicy, EnrollmentStep "HandlePersistPolicy");
  (ActionTypePlatformEnrollmentCreateSession, EnrollmentStep "HandleCreateSession");
  (ActionTypePlatformEnrollmentRevoke, EnrollmentStep "HandleRevoke")].

Definition buildGatewayHandlers : list (ActionType * verifiedActionHandler) := [
  (ActionTypeMcpCall, McpCallSync); (ActionTypeA2aCall, A2aCallSync);
  (ActionTypeMcpResourceRead, McpResourceReadSync); (ActionTypeMcpPromptGet, McpPromptGetSync);
  (ActionTypeMcpResourceList, McpResourceListSync); (ActionTypeMcpPromptList, McpPromptListSync)].

Definition actionHandlers (rs : OperatorPubSubService) : list (ActionType * verifiedActionHandler) :=
  buildHandlers ++ (if gatewayMode rs then buildGatewayHandlers else []) ++
  (if platformEnrollment rs then registerPlatformEnrollmentHandlers else []).

(** [legacyEventHandlers]: the heartbeat an operator sends. *)
Definition legacyEvent (eventType : EventType) : bool := String.eqb eventType "g8e.v1.operator.heartbeat.sent".

(** [handleHeartbeatEvent]: failures are logged. *)
Definition handleHeartbeatEvent (msg : PubSubCommandMessage) : list egress :=
  match unmarshal "HeartbeatResult" (msgPayload msg) with
  | Ok _ => [EgHeartbeat (msgPayload msg)]
  | Err _ => []
  end.

Definition run_handler (rs : OperatorPubSubService) (h : verifiedActionHandler) (msg : PubSubCommandMessage) : egr outcome :=
  match h with
  | FireAndForget service => ([EgService service msg], Ok ("", None))
  | DocumentUpdateSync => handleDocumentUpdateSync rs msg
  | DocumentDeleteSync => handleDocumentDeleteSync rs msg
  | EvalAnswerSync => handleEvalAnswerRequestSync msg
  | InferenceSync => handleInferenceRequestSync rs msg
  | ProviderBoundarySync => handleProviderBoundaryObservationSync rs msg
  | ModelProvenanceSync => handleModelProvenanceObservationSync rs msg
  | ShutdownSync => handleShutdownRequest msg
  | EnrollmentStep step => relay (EgEnrollment step msg)
  | McpCallSync => handleMcpCallRequestSync rs msg
  | A2aCallSync => handleA2aCallRequestSync rs msg
  | McpResourceReadSync => handleMcpResourceReadSync rs msg
  | McpPromptGetSync => handleMcpPromptGetSync rs msg
  | McpResourceListSync => handleMcpResourceListSync rs msg
  | McpPromptListSync => handleMcpPromptListSync rs msg
  end.

(** [ExecuteVerifiedTransaction]. *)
Definition ExecuteVerifiedTransaction (rs : OperatorPubSubService) (eventType : EventType)
    (msg : PubSubCommandMessage) : egr outcome :=
  if legacyEvent eventType then (handleHeartbeatEvent msg, Ok ("", None))
  else match ValidateGovernedRequest eventType with
  | Err err => fail (Errorf "no handler for event type %s: %w" [err])
  | Ok actionType =>
      match find_key actionType (actionHandlers rs) with
      | None => fail (Errorf "no handler for action type %s: %w" [Sentinel "ErrTxUnknownActionType"])
      | Some h => run_handler rs h msg
      end
  end.

End handlers.

(** ** Which handler runs *)

Lemma find_key_app {A} k (l l' : list (string * A)) :
  find_key k (l ++ l') = match find_key k l with Some x => Some x | None => find_key k l' end.
Proof.
  unfold find_key. induction l as [|[k' x] l IH]; [done|]. simpl. by destruct (String.eqb k k').
Qed.

Lemma find_key_in {A} k (l : list (string * A)) : find_key k l <> None -> k ∈ map fst l.
Proof.
  unfold find_key. destruct (List.find _ l) as [[k' x]|] eqn:Hf; [|done]. intros _.
  apply find_some in Hf as [Hin Hk]. apply String.eqb_eq in Hk. subst k. apply list_elem_of_fmap.
  exists (k', x). split; [done|]. by apply list_elem_of_In.
Qed.

(** A property of every governed request of the registry is one of its entries. *)
Definition governed_all (P : EventType -> ActionType -> bool) : bool :=
  forallb (fun ev => match ValidateGovernedRequest ev.1 with Ok a => P ev.1 a | Err _ => true end)
    (map_to_list Registry).

Lemma forallb_lookup {A} (f : EventType * A -> bool) (m : gmap EventType A) k x :
  forallb f (map_to_list m) = true -> m !! k = Some x -> f (k, x) = true.
Proof.
  rewrite forallb_forall. intros H Hk. apply H, list_elem_of_In. by apply elem_of_map_to_list.
Qed.

Lemma governed_all_spec P event action :
  governed_all P = true -> ValidateGovernedRequest event = Ok action -> P event action = true.
Proof.
  unfold governed_all. set (f := fun ev : EventType * EventRegistryEntry => _). intros H Hv.
  pose proof Hv as (e & He & _)%ValidateGovernedRequest_Ok.
  pose proof (forallb_lookup f Registry event e H He) as Hf. unfold f in Hf. cbn [fst] in Hf. by rewrite Hv in Hf.
Qed.

(** The action classes whose handlers do not find a message type for their event. *)
Definition catalog_actions : list ActionType :=
  [ActionTypeMcpResourceRead; ActionTypeMcpPromptGet; ActionTypeMcpResourceList; ActionTypeMcpPromptList].
(** The classes whose handlers name the message type themselves. *)
Definition self_typed_actions : list ActionType :=
  [ActionTypeDocumentUpdate; ActionTypeDocumentDelete; ActionTypeModelProvenanceObservation].

Lemma governed_decoding_all :
  governed_all (fun event action =>
    if mem action catalog_actions || mem action self_typed_actions
    then bool_decide (payload_message event = None)
    else bool_decide (payload_message event = payload_type action)) = true.
Proof. vm_compute. reflexivity. Qed.

Lemma legacy_not_governed : governed_all (fun event _ => negb (legacyEvent event)) = true.
Proof. vm_compute. reflexivity. Qed.

Lemma handlers_registered :
  governed_all (fun _ action =>
    match find_key action (buildHandlers ++ buildGatewayHandlers ++ registerPlatformEnrollmentHandlers) with
    | Some _ => true | None => false end) = true.
Proof. vm_compute. reflexivity. Qed.

Lemma catalog_handler rs action : action ∈ catalog_actions ->
  find_key action (actionHandlers rs) = None \/
  exists h, find_key action (actionHandlers rs) = Some h /\
    h ∈ [McpResourceReadSync; McpPromptGetSync; McpResourceListSync; McpPromptListSync].
Proof.
  unfold actionHandlers. intros Hin.
  repeat (apply elem_of_cons in Hin as [->|Hin]); [..|destruct (not_elem_of_nil _ Hin)];
    destruct (gatewayMode rs), (platformEnrollment rs);
    first [ by left | right; eexists; split; [reflexivity | set_solver] ].
Qed.

(** A class no table holds is not of the registry, else its table is missing. *)
Lemma unregistered rs action :
  find_key action (actionHandlers rs) = None ->
  find_key action (buildHandlers ++ buildGatewayHandlers ++ registerPlatformEnrollmentHandlers) <> None ->
  gatewayMode rs = false /\ action ∈ map fst buildGatewayHandlers \/
  platformEnrollment rs = false /\ action ∈ map fst registerPlatformEnrollmentHandlers.
Proof.
  unfold actionHandlers. rewrite !find_key_app. intros Hn Hr.
  destruct (find_key action buildHandlers); [done|].
  destruct (gatewayMode rs), (platformEnrollment rs), (find_key action buildGatewayHandlers) eqn:Hg; try done;
    first [ left; split; [done|]; apply find_key_in; congruence
          | right; split; [done|]; apply find_key_in; congruence ].
Qed.

Lemma substring_cut n s :
  (String.length (String.substring 0 n s) <= n)%nat /\ exists rest, s = String.substring 0 n s +:+ rest.
Proof.
  revert s. induction n as [|n IH]; intros s.
  { replace (String.substring 0 0 s) with "" by by destruct s. split; [done|]. by exists s. }
  destruct s as [|c s]; [split; [simpl; lia|by exists ""]|].
  destruct (IH s) as [Hl [rest Hr]]. simpl. split; [lia|]. exists rest. by rewrite Hr at 1.
Qed.

Lemma bound_summary_length s : (Z.of_nat (String.length (bound_summary s)) <= ReceiptSummaryMaxBytes)%Z.
Proof.
  unfold bound_summary. destruct (Z.ltb_spec ReceiptSummaryMaxBytes (Z.of_nat (String.length s))); [|done].
  pose proof (substring_cut (Z.to_nat ReceiptSummaryMaxBytes) s) as [Hl _].
  unfold ReceiptSummaryMaxBytes in *. lia.
Qed.

Lemma bound_summary_prefix s : exists rest, s = bound_summary s +:+ rest.
Proof.
  unfold bound_summary. destruct (_ <? _)%Z; [apply substring_cut|].
  exists "". by rewrite string_app_nil_r.
Qed.

Section dispatch.
Context (unmarshal : string -> string -> result CommandPayload).
Context (protojson marshal_result : string -> result string).
Context (answer : egress -> result string).
Notation ExecuteVerifiedTransaction := (ExecuteVerifiedTransaction unmarshal protojson marshal_result answer).
Notation handleInferenceRequestSync := (handleInferenceRequestSync unmarshal marshal_result answer).

Lemma ExecuteVerifiedTransaction_governed rs event action msg :
  ValidateGovernedRequest event = Ok action ->
  ExecuteVerifiedTransaction rs event msg =
    match find_key action (actionHandlers rs) with
    | None => fail (Errorf "no handler for action type %s: %w" [Sentinel "ErrTxUnknownActionType"])
    | Some h => run_handler unmarshal protojson marshal_result answer rs h msg
    end.
Proof.
  intros H. unfold Handlers.ExecuteVerifiedTransaction.
  pose proof (governed_all_spec _ _ _ legacy_not_governed H) as Hl.
  apply negb_true_iff in Hl. by rewrite Hl, H.
Qed.

(** C35: The egress of the four MCP catalogue actions is dead.  For every governed
    event of the classes MCP_RESOURCE_READ, MCP_PROMPT_GET, MCP_RESOURCE_LIST and
    MCP_PROMPT_LIST, in every configuration and for every payload, the verified
    transaction ends in an error before any service is called: the payload table
    has no entry for their events. *)
Theorem catalog_unreachable rs event action msg :
  ValidateGovernedRequest event = Ok action -> action ∈ catalog_actions -> msgEventType msg = event ->
  exists err, ExecuteVerifiedTransaction rs event msg = ([], Err err).
Proof.
  intros H Hin Hev. rewrite (ExecuteVerifiedTransaction_governed _ _ _ _ H).
  pose proof (governed_all_spec _ _ _ governed_decoding_all H) as Hd.
  cbv beta in Hd. rewrite (proj2 (mem_true _ _) Hin) in Hd. apply bool_decide_eq_true in Hd. clear H.
  assert (Hu : forall p, exists err, unmarshalPayload unmarshal (msgEventType msg) p = Err err).
  { intros p. unfold unmarshalPayload. rewrite Hev, Hd. destruct (_ <=? _)%Z; by eexists. }
  destruct (Hu (msgPayload msg)) as [err He].
  destruct (catalog_handler rs action Hin) as [->|(h & -> & Hh)]; [by eexists|].
  repeat (apply elem_of_cons in Hh as [->|Hh]); [..|destruct (not_elem_of_nil _ Hh)];
    cbn [run_handler]; unfold handleMcpResourceReadSync, handleMcpPromptGetSync, handleMcpResourceListSync,
      handleMcpPromptListSync, mcpGatewayOrErr; rewrite He; destruct (mcpGateway rs); by eexists.
Qed.

(** Dispatch by action class.  A verified transaction of a governed event runs
    the one handler registered for the action class that L4 checked against the
    event; a class has none only when it belongs to the gateway or to platform
    enrollment and those are not installed; and outside the catalogue the handler
    decodes the payload as the message type that L1 and L4 validated. *)
Theorem dispatch_by_action rs event action msg :
  ValidateGovernedRequest event = Ok action ->
  (exists h, find_key action (actionHandlers rs) = Some h /\
     ExecuteVerifiedTransaction rs event msg = run_handler unmarshal protojson marshal_result answer rs h msg /\
     (action ∉ catalog_actions -> action ∉ self_typed_actions -> payload_message event = payload_type action)) \/
  (err_of (ExecuteVerifiedTransaction rs event msg).2 "ErrTxUnknownActionType" = true /\
   (ExecuteVerifiedTransaction rs event msg).1 = [] /\
   (gatewayMode rs = false /\ action ∈ map fst buildGatewayHandlers \/
    platformEnrollment rs = false /\ action ∈ map fst registerPlatformEnrollmentHandlers)).
Proof.
  intros H. rewrite (ExecuteVerifiedTransaction_governed _ _ _ _ H).
  destruct (find_key action (actionHandlers rs)) as [h|] eqn:Ha.
  - left. exists h. split_and!; [done..|]. intros Hc Hs.
    pose proof (governed_all_spec _ _ _ governed_decoding_all H) as Hd. cbv beta in Hd.
    rewrite <- (mem_true action) in Hc, Hs.
    destruct (mem action catalog_actions); [destruct (Hc eq_refl)|].
    destruct (mem action self_typed_actions); [destruct (Hs eq_refl)|].
    exact (proj1 (bool_decide_eq_true _) Hd).
  - right. split; [exact eq_refl|]. split; [exact eq_refl|]. apply (unregistered rs action Ha).
    pose proof (governed_all_spec _ _ _ handlers_registered H) as Hr. cbv beta in Hr.
    intros Hn. rewrite Hn in Hr. discriminate Hr.
Qed.

(** A successful inference leaves its result, with the digest that is the summary. *)
Lemma inference_kept rs msg l summary kept :
  handleInferenceRequestSync rs msg = (l, Ok (summary, kept)) ->
  exists r, kept = Some r /\ summary = irResultDigest r /\
    ComputeInferenceResultDigest marshal_result (irBody r) = Ok summary /\
    answer (EgInference msg) = Ok (irBody r).
Proof.
  unfold Handlers.handleInferenceRequestSync. destruct (negb _); [discriminate|].
  destruct (inference_request _ _) as [[attempt retries]|]; [|discriminate]. rewrite ebind_pure.
  set (rec := inferenceAttemptStore rs && str_nonempty attempt).
  intros (_ & l1 & l2 & _ & H & _)%ebind_Ok. apply ebind_Ok in H as (r & l3 & l4 & Hr & H & _).
  apply ebind_Ok in H as (_ & l5 & l6 & _ & H & _). injection H as _ <- <-.
  exists r. split; [done|]. split; [done|].
  assert (Hrun : exists l, (let> resp := ecall answer (EgInference msg) in
    let> digest := pure (ComputeInferenceResultDigest marshal_result resp) in
    let result := {| irBody := resp; irResultDigest := digest |} in
    let> _ := if rec then ewrap (wrapf "inference handler: save result: %w") (ecall answer (EgAttemptSave attempt result))
              else pure (Ok "") in
    pure (Ok result)) = (l, Ok r)).
  { unfold run_attempt, failing in Hr. destruct (ebind _ _) as [l0 [a|e]]; [by exists l3 | discriminate]. }
  destruct Hrun as [l0 Hrun]. apply ebind_Ok in Hrun as (resp & l7 & l8 & Ha & Hrun & _).
  apply ebind_Ok in Hrun as (digest & l9 & l10 & Hd & Hrun & _).
  apply ebind_Ok in Hrun as (_ & l11 & l12 & _ & Hrun & _). injection Hrun as _ <-.
  injection Ha as _ Ha. injection Hd as _ Hd. cbn [irBody irResultDigest]. by split.
Qed.

Lemma inference_handler rs : find_key ActionTypeInference (actionHandlers rs) = Some InferenceSync.
Proof. reflexivity. Qed.

Lemma shutdown_handler rs : find_key ActionTypeShutdown (actionHandlers rs) = Some ShutdownSync.
Proof. reflexivity. Qed.

(** A run that begins an attempt: its calls in order, by how it ends. *)
Definition settled_run (attempt : string) (msg : PubSubCommandMessage) (retries : Z)
    (run : egr outcome) : Prop :=
  let started := [EgAttemptBegin attempt (msgID msg) retries] in
  match run with
  | (l, Ok (digest, kept)) => exists r, kept = Some r /\ irResultDigest r = digest /\
      answer (EgInference msg) = Ok (irBody r) /\ ComputeInferenceResultDigest marshal_result (irBody r) = Ok digest /\
      l = started ++ [EgInference msg; EgAttemptSave attempt r; EgAttemptComplete attempt digest]
  | (l, Err _) =>
      l = started \/
      (exists calls, l = started ++ EgInference msg :: calls ++ [EgAttemptFail attempt] /\
         (calls = [] \/ exists r, calls = [EgAttemptSave attempt r])) \/
      (exists r, l = started ++ [EgInference msg; EgAttemptSave attempt r; EgAttemptComplete attempt (irResultDigest r)] /\
         is_ok (answer (EgAttemptComplete attempt (irResultDigest r))) = false)
  end.

(** A recorded inference attempt is settled.  A run that begins an attempt ends
    it in exactly one way: completed with the digest that goes into the receipt, after
    the result was saved; or failed, when anything between went wrong.  Only when the
    store refuses the completion itself does the attempt stay open. *)
Theorem attempt_settled rs msg attempt retries :
  inferenceHandler rs = true -> inferenceAttemptStore rs = true ->
  inference_request unmarshal (msgPayload msg) = Ok (attempt, retries) -> attempt <> "" ->
  settled_run attempt msg retries (handleInferenceRequestSync rs msg).
Proof.
  intros Hi Hs Hr Ha%str_nonempty_true.
  unfold Handlers.handleInferenceRequestSync. rewrite Hi, Hr. cbn [negb pure ebind]. rewrite Hs, Ha.
  unfold run_attempt, ecall, ewrap, pure. cbn [andb fst snd].
  destruct (answer (EgAttemptBegin _ _ _)); [|by left]. cbn [ebind fst snd app].
  destruct (answer (EgInference msg)) as [body|] eqn:Hb; cbn [ebind failing app fst snd].
  2:{ right. left. exists []. split; [done|by left]. }
  destruct (ComputeInferenceResultDigest marshal_result body) as [digest|] eqn:Hd; cbn [ebind failing app fst snd].
  2:{ right. left. exists []. split; [done|by left]. }
  destruct (answer (EgAttemptSave _ _)); cbn [ebind failing app fst snd].
  2:{ right. left. eexists [_]. split; [done|]. right. by eexists. }
  cbn [irResultDigest]. destruct (answer (EgAttemptComplete _ _)) eqn:Hc; cbn [ebind app].
  - by eexists.
  - right. right. exists {| irBody := body; irResultDigest := digest |}. split; [reflexivity|].
    cbn [irResultDigest]. by rewrite Hc.
Qed.

Lemma ewrap_call_Ok f x (k : string -> outcome) l o :
  ebind (ewrap f (ecall answer x)) (fun full => pure (Ok (k full))) = (l, Ok o) ->
  exists full, answer x = Ok full /\ l = [x] /\ k full = o.
Proof.
  unfold ewrap, ecall, pure. cbn [fst snd]. destruct (answer x) as [full|]; [|discriminate].
  cbn. intros [= <- <-]. by exists full.
Qed.

Lemma assoc_handlers_fixed rs action h :
  action ∈ [ActionTypeMcpCall; ActionTypeA2aCall; ActionTypeEvalAnswer] ->
  find_key action (actionHandlers rs) = Some h -> h ∈ [McpCallSync; A2aCallSync; EvalAnswerSync].
Proof.
  unfold actionHandlers. intros Hin.
  repeat (apply elem_of_cons in Hin as [->|Hin]); [..|destruct (not_elem_of_nil _ Hin)];
    destruct (gatewayMode rs), (platformEnrollment rs); intros [= <-]; set_solver.
Qed.

(** The text a summary is cut from: an answer of the one service called, or the
    payload's own. *)
Definition summary_source (l : list egress) (full : string) : Prop :=
  match l with [x] => answer x = Ok full | _ => l = [] end.

(** Summaries of external calls are bounded.  A tool call, an agent call or an
    evaluation answer puts into the receipt a prefix of what it is about, of at most
    4096 bytes, and leaves no inference result; only a field read and the operator's
    own tools are reported in full. *)
Theorem summary_bounded rs event action msg l summary kept :
  ValidateGovernedRequest event = Ok action ->
  action ∈ [ActionTypeMcpCall; ActionTypeA2aCall; ActionTypeEvalAnswer] ->
  ExecuteVerifiedTransaction rs event msg = (l, Ok (summary, kept)) ->
  kept = None /\ exists full, summary_source l full /\ (exists rest, full = summary +:+ rest) /\
    ((Z.of_nat (String.length summary) <= ReceiptSummaryMaxBytes)%Z \/
     summary = full /\ exists tool args native, l = [EgMcpCall tool args (msgOperatorSessionID msg)] /\
       mcpGateway rs = Some native /\ (tool = "read_field" \/ native tool = true)).
Proof.
  intros H Hin. rewrite (ExecuteVerifiedTransaction_governed _ _ _ _ H).
  destruct (find_key action (actionHandlers rs)) as [h|] eqn:Ha; [|discriminate].
  apply (assoc_handlers_fixed _ _ _ Hin) in Ha.
  repeat (apply elem_of_cons in Ha as [->|Ha]); [..|destruct (not_elem_of_nil _ Ha)]; cbn [run_handler].
  - unfold handleMcpCallRequestSync. destruct (mcpGateway rs) as [native|]; [|discriminate].
    destruct (unmarshalPayload _ _ _) as [[|tool args| | | | | | | |]|]; [discriminate| |discriminate..].
    rewrite ebind_pure. destruct (String.eqb tool ""); [discriminate|]. intros (full & Hfull & -> & Hsay)%ewrap_call_Ok.
    injection Hsay as <- <-. split; [done|]. exists full. split; [exact Hfull|].
    destruct (String.eqb tool "read_field") eqn:Ht; [|destruct (native tool) eqn:Hn]; cbn [negb andb].
    3:{ split; [apply bound_summary_prefix | left; apply bound_summary_length]. }
    all: split; [exists ""; by rewrite string_app_nil_r|]; right; split; [done|].
    all: do 3 eexists; split_and!; [reflexivity | reflexivity |].
    + left. by apply String.eqb_eq.
    + by right.
  - unfold handleA2aCallRequestSync. destruct (mcpGateway rs) as [native|]; [|discriminate].
    destruct (unmarshalPayload _ _ _) as [[| |skill payload| | | | | | |]|]; [discriminate| discriminate| |discriminate..].
    rewrite ebind_pure. destruct (String.eqb skill ""); [discriminate|]. intros (full & Hfull & -> & Hsay)%ewrap_call_Ok.
    injection Hsay as <- <-. split; [done|]. exists full. split; [exact Hfull|].
    split; [apply bound_summary_prefix | left; apply bound_summary_length].
  - unfold handleEvalAnswerRequestSync.
    destruct (unmarshalPayload _ _ _) as [[| | | | |text| | | |]|]; [discriminate..| |discriminate| discriminate|discriminate|discriminate|discriminate].
    unfold say, pure. cbn [app]. intros [= <- <- <-]. split; [done|]. exists text. split; [exact eq_refl|].
    split; [apply bound_summary_prefix | left; apply bound_summary_length].
Qed.

End dispatch.

(** ** Concrete runs *)

(** A codec that reads the text of the payload into the one field of interest. *)
Definition ex_decode (t payload : string) : result CommandPayload :=
  if String.eqb t "McpCallRequested" then Ok (PMcpCall payload "")
  else if String.eqb t "EvalAnswerRequested" then Ok (PEvalAnswer payload)
  else if String.eqb t "InferenceRequested" then Ok (PInference payload 1 false)
  else if String.eqb t "ShutdownRequested" then Ok (PShutdown payload)
  else Ok (POther t).

(** Services that answer; with [false] the attempt store refuses the completion. *)
Definition ex_answer (completes : bool) (x : egress) : result string :=
  match x with
  | EgInference _ => Ok "tokens"
  | EgMcpCall tool _ _ => Ok ("ran " +:+ tool)
  | EgAttemptComplete _ _ => if completes then Ok "" else Err (Extern "sqlite")
  | _ => Ok ""
  end.

Definition ex_service : OperatorPubSubService := {|
  gatewayMode := true; mcpGateway := Some (String.eqb "audit_query"); governedDocStore := true;
  inferenceHandler := true; inferenceAttemptStore := true; providerBoundaryObserver := false;
  modelProvenanceOperator := false; platformEnrollment := true |}.

Definition ex_msg (event : EventType) (payload : string) : PubSubCommandMessage := {|
  msgID := "tx"; msgEventType := event; msgCaseID := ""; msgTaskID := ""; msgInvestigationID := "";
  msgWebSessionID := ""; msgCLISessionID := ""; msgOperatorSessionID := "session"; msgOperatorID := "op";
  msgPayload := payload |}.

Notation ex_run completes event payload :=
  (ExecuteVerifiedTransaction ex_decode (fun _ => Ok "{}") (fun r => Ok r) (ex_answer completes) ex_service event
     (ex_msg event payload)).

Example ex_tool : ex_run true "g8e.v1.operator.mcp.call.requested" "lookup" =
  ([EgMcpCall "lookup" "{}" "session"], Ok ("ran lookup", None)).
Proof. vm_compute. reflexivity. Qed.

Example ex_catalog : ex_run true "g8e.v1.operator.mcp.resource.read.requested" "file:///x" =
  ([], Err (Errorf "unknown event type for unmarshaling: %s" [])).
Proof. vm_compute. reflexivity. Qed.

(** An attempt whose completion is refused stays open. *)
Example ex_open_attempt :
  (ex_run false "g8e.v1.operator.inference.requested" "attempt-1").1 =
    let r := {| irBody := "tokens"; irResultDigest := sha256_hex "tokens" |} in
    [EgAttemptBegin "attempt-1" "tx" 1;
     EgInference (ex_msg "g8e.v1.operator.inference.requested" "attempt-1");
     EgAttemptSave "attempt-1" r; EgAttemptComplete "attempt-1" (sha256_hex "tokens")].
Proof. vm_compute. reflexivity. Qed.

(** A text that is valid UTF-8 and whose summary is not: the cut falls inside a
    two-byte character. *)
Definition long_text : string :=
  string_of_list_ascii (List.repeat (ascii_of_nat 97) 4095) +:+ bytes_str [195; 169]%Z.

Example ex_cut : bool_decide (valid_utf8 long_text) = true /\ bool_decide (valid_utf8 (bound_summary long_text)) = false.
Proof. vm_compute. split; reflexivity. Qed.

Lemma catalog_unreachable_witness :
  exists err, ex_run true "g8e.v1.operator.mcp.prompt.list.requested" "" = ([], Err err).
Proof.
  apply (catalog_unreachable ex_decode (fun _ => Ok "{}") (fun r => Ok r) (ex_answer true) ex_service
    "g8e.v1.operator.mcp.prompt.list.requested" ActionTypeMcpPromptList).
  - vm_compute. reflexivity.
  - unfold catalog_actions. set_solver.
  - exact eq_refl.
Defined.

Lemma dispatch_by_action_witness :
  let event := "g8e.v1.operator.inference.requested" in
  (exists h, find_key ActionTypeInference (actionHandlers ex_service) = Some h /\
     ex_run true event "a" = run_handler ex_decode (fun _ => Ok "{}") (fun r => Ok r) (ex_answer true) ex_service h (ex_msg event "a") /\
     (ActionTypeInference ∉ catalog_actions -> ActionTypeInference ∉ self_typed_actions ->
      payload_message event = payload_type ActionTypeInference)) \/
  (err_of (ex_run true event "a").2 "ErrTxUnknownActionType" = true /\ (ex_run true event "a").1 = [] /\
   (gatewayMode ex_service = false /\ ActionTypeInference ∈ map fst buildGatewayHandlers \/
    platformEnrollment ex_service = false /\ ActionTypeInference ∈ map fst registerPlatformEnrollmentHandlers)).
Proof.
  apply (dispatch_by_action ex_decode (fun _ => Ok "{}") (fun r => Ok r) (ex_answer true) ex_service
    "g8e.v1.operator.inference.requested" ActionTypeInference (ex_msg "g8e.v1.operator.inference.requested" "a")).
  vm_compute. reflexivity.
Defined.

Lemma attempt_settled_witness :
  let msg := ex_msg "g8e.v1.operator.inference.requested" "attempt-1" in
  settled_run (fun r => Ok r) (ex_answer true) "attempt-1" msg 1
    (handleInferenceRequestSync ex_decode (fun r => Ok r) (ex_answer true) ex_service msg).
Proof.
  apply attempt_settled; [exact eq_refl | exact eq_refl | exact eq_refl | discriminate].
Defined.

Lemma summary_bounded_witness :
  @None InferenceResult = None /\ exists full, summary_source (ex_answer true) [EgMcpCall "lookup" "{}" "session"] full /\
    (exists rest, full = "ran lookup" +:+ rest) /\
    ((Z.of_nat (String.length "ran lookup") <= ReceiptSummaryMaxBytes)%Z \/
     "ran lookup" = full /\ exists tool args native, [EgMcpCall "lookup" "{}" "session"] = [EgMcpCall tool args "session"] /\
       mcpGateway ex_service = Some native /\ (tool = "read_field" \/ native tool = true)).
Proof.
  apply (summary_bounded ex_decode (fun _ => Ok "{}") (fun r => Ok r) (ex_answer true) ex_service
    "g8e.v1.operator.mcp.call.requested" ActionTypeMcpCall (ex_msg "g8e.v1.operator.mcp.call.requested" "lookup")).
  - vm_compute. reflexivity.
  - set_solver.
  - vm_compute. reflexivity.
Defined.
