(* ===== verification/Dispatch.v ===== *)
(** The dispatcher of the operator
    ([src/internal/services/pubsub/pubsub_commands.go]): from the bytes of an
    envelope to the handler of its action.

    Two entries exist: [ProcessEnvelope] (HTTP) and [handleCommandPayload] (the
    operator's command channel).  Both run the warden, then the actuator over the
    handlers of [Handlers], and leave notices: blocked records, inference
    completions, the acknowledgement and the signal of a shutdown. *)
From S2P Require Import Prelude Errors Encoding Sha256 Constants EventRegistry Envelope Posture Crypto.
From S2P Require Import L2Consensus Doctrine Replay Receipt Payload Warden Capability Commitment Actuator Handlers.
From Stdlib Require Import String List ZArith Lia Bool.
From stdpp Require Import base strings list gmap.
Open Scope string_scope.
Open Scope list_scope.

(** The dispatcher's dependencies beside those of the handlers. *)
Record Dispatcher := {
  handlersOf : OperatorPubSubService; l4warden : option L4Warden; actuator : option L5Actuator;
  resultsSet : bool; auditSet : bool
}.

(** What [logBlockedTransaction] hands to the audit store. *)
Record BlockedRecord := {
  brTransactionID : string; brTransactionHash : string; brOperatorID : string; brOperatorSessionID : string;
  brActionType : ActionType; brTargetResource : string; brStatus : ExecutionStatus; brResultSummary : string
}.

(** What the dispatcher sends or records, whatever the answer. *)
Inductive notice :=
| NBlocked (r : BlockedRecord)
| NCompletion (origin : GovernanceEnvelope) (res : option InferenceResult) (receipt : ActionReceipt)
| NShutdownAck (reason : string) (msg : PubSubCommandMessage)
| NShutdown (reason : string).

Record node (S : Type) := { nsWarden : warden_state S; nsWorld : world; nsNotices : list notice }.
Arguments nsWarden {S} n.
Arguments nsWorld {S} n.
Arguments nsNotices {S} n.
Arguments Build_node {S} nsWarden nsWorld nsNotices.

(** One message: the warden's and the actuator's environments, the answers of the
    services, of the publisher of acknowledgements, and the branch the [select] of
    the shutdown signal takes. *)
Record delivery (E : Type) := {
  dWarden : call E; dActuator : run_env; dAnswer : egress -> result string;
  dAck : result unit; dSignal : result unit
}.
Arguments dWarden {E} d.
Arguments dActuator {E} d.
Arguments dAnswer {E} d.
Arguments dAck {E} d.
Arguments dSignal {E} d.

Definition set_warden {S} (st : warden_state S) (s : node S) : node S := Build_node st (nsWorld s) (nsNotices s).
Definition set_world {S} (w : world) (s : node S) : node S := Build_node (nsWarden s) w (nsNotices s).
Definition notify {S} (l : list notice) (s : node S) : node S := Build_node (nsWarden s) (nsWorld s) (nsNotices s ++ l).

(** [gatewayDispatchedVerificationContext]: the envelope's own root becomes the
    root of the context. *)
Definition gatewayDispatchedVerificationContext {E} (parent : call E) (env : GovernanceEnvelope) : call E :=
  if String.eqb (StateMerkleRoot env) "" then parent
  else {| wall := wall parent; mono := mono parent; reserve_env := reserve_env parent;
          release_env := release_env parent; context_root := StateMerkleRoot env |}.

(** The command message of an envelope. *)
Definition command_message (env : GovernanceEnvelope) (payload : string) : PubSubCommandMessage := {|
  msgID := Id env; msgEventType := EnvEventType env; msgCaseID := CaseId env; msgTaskID := TaskId env;
  msgInvestigationID := InvestigationId env; msgWebSessionID := WebSessionId env;
  msgCLISessionID := CliSessionId env; msgOperatorSessionID := OperatorSessionId env;
  msgOperatorID := OperatorId env; msgPayload := payload |}.

Definition blocked_record (error_text : gerr -> string) (env : GovernanceEnvelope) (reason : gerr) : BlockedRecord := {|
  brTransactionID := Id env; brTransactionHash := TransactionHash env; brOperatorID := OperatorId env;
  brOperatorSessionID := OperatorSessionId env; brActionType := EnvActionType env;
  brTargetResource := TargetResource env; brStatus := STATUS_FAILED;
  brResultSummary := "blocked: " +:+ error_text reason |}.

(** [logBlockedTransaction]. *)
Definition logBlockedTransaction {S} (n : Dispatcher) (error_text : gerr -> string) (env : GovernanceEnvelope)
    (reason : gerr) (s : node S) : node S :=
  if auditSet n then notify [NBlocked (blocked_record error_text env reason)] s else s.

(** [publishInferenceCompletion]: only a completed receipt carries the result. *)
Definition publishInferenceCompletion {S} (n : Dispatcher) (env : GovernanceEnvelope) (res : option InferenceResult)
    (receipt : option ActionReceipt) (s : node S) : node S :=
  match receipt with
  | Some receipt =>
      if resultsSet n
      then notify [NCompletion env (if bool_decide (rcStatus receipt = STATUS_COMPLETED) then res else None) receipt] s
      else s
  | None => s
  end.

Definition with_handler (e : run_env) (h : string -> option string -> Capability -> string * option gerr) : run_env := {|
  mono_ns := mono_ns e; clock := clock e; log_clock := log_clock e; root_before := root_before e;
  root_after := root_after e; doc_answer := doc_answer e; audit_answer := audit_answer e;
  ledger_db := ledger_db e; ledger_now := ledger_now e; ledger_attempts := ledger_attempts e;
  commit_clock := commit_clock e; random := random e; rehydrate := rehydrate e; handler := h;
  publish_answer := publish_answer e; error_text := error_text e |}.

Section dispatcher.
Context `{Ed : Ed25519}.
Context (unmarshal : string -> string -> result Message).
Context {S E : Type} `{RS : ReplayStore S E}.
Context (marshal_stage : StageEvidence -> result string).
Context (marshal_commitment : CommitmentAttestation -> result string)
        (unmarshal_commitment : string -> result CommitmentAttestation).
Context (unmarshal_command : string -> string -> result CommandPayload).
Context (protojson marshal_result : string -> result string).
(** [protojson.Unmarshal] of an envelope, unknown fields refused. *)
Context (unmarshal_envelope : string -> result GovernanceEnvelope).

Notation VerifyEnvelope := (VerifyEnvelope unmarshal).
Notation Execute := (Execute marshal_stage marshal_commitment unmarshal_commitment).
Notation RecordRejectedTransaction := (RecordRejectedTransaction marshal_stage).

(** The handler's run for an envelope whose message holds [payload]. *)
Definition handler_run (n : Dispatcher) (d : delivery E) (env : GovernanceEnvelope) (payload : string) : egr outcome :=
  ExecuteVerifiedTransaction unmarshal_command protojson marshal_result (dAnswer d) (handlersOf n)
    (EnvEventType env) (command_message env payload).

(** What the actuator sees of it. *)
Definition handler_outcome (r : egr outcome) : string * option gerr :=
  match r.2 with Ok (summary, _) => (summary, None) | Err err => ("", Some err) end.

(** The environment of the actuator with this dispatcher as its handler. *)
Definition execution_env (n : Dispatcher) (d : delivery E) (env : GovernanceEnvelope) : run_env :=
  with_handler (dActuator d) (fun eventType payload _ =>
    match payload with
    | Some p => handler_outcome (ExecuteVerifiedTransaction unmarshal_command protojson marshal_result (dAnswer d)
                  (handlersOf n) eventType (command_message env p))
    | None => ("", Some (Errorf "invalid cmdMsg type %T: %w" [Sentinel "ErrTxPayloadDecodeFailed"]))
    end).

(** The message's payload after the execution, which rehydrates it in place. *)
Definition executed_payload (d : delivery E) (payload : string) : string :=
  match rehydratePayload (dActuator d) (Some payload) with Ok (Some p) => p | _ => payload end.

(** The inference result the handler left in the message. *)
Definition kept_result (n : Dispatcher) (d : delivery E) (env : GovernanceEnvelope) (payload : string) : option InferenceResult :=
  match (handler_run n d env (executed_payload d payload)).2 with Ok (_, kept) => kept | Err _ => None end.

(** [completeShutdown] *)
Definition completeShutdown (n : Dispatcher) (d : delivery E) (msg : PubSubCommandMessage) (s : node S)
    : option gerr * node S :=
  if negb (resultsSet n) then (Some (Sentinel "ErrPubSubResultsPublisher"), s)
  else match unmarshalPayload unmarshal_command (msgEventType msg) (msgPayload msg) with
  | Err err => (Some err, s)
  | Ok (PShutdown reason) =>
      let s := notify [NShutdownAck reason msg] s in
      match dAck d with
      | Err err => (Some (Errorf "pubsub: publish shutdown acknowledgement: %w" [err]), s)
      | Ok _ =>
          match dSignal d with
          | Ok _ => (None, notify [NShutdown (shutdown_reason reason)] s)
          | Err err => (Some (Errorf "pubsub: signal shutdown: %w" [err]), s)
          end
      end
  | Ok _ => (Some (Errorf "invalid payload type %T: %w" [Sentinel "ErrTxPayloadActionMismatch"]), s)
  end.

(** The end of both entries: the actuator, the completion, the shutdown. *)
Definition execute_verified (n : Dispatcher) (d : delivery E) (w : L5Actuator) (env : GovernanceEnvelope)
    (vt : VerifiedTransaction) (s : node S) : (option ActionReceipt * option gerr) * node S :=
  let '((receipt, execErr), wd) := Execute w (execution_env n d env) vt (Some (Payload env)) (nsWorld s) in
  let s := set_world wd s in
  let s := if String.eqb (EnvActionType env) ActionTypeInference
           then publishInferenceCompletion n env (kept_result n d env (Payload env)) receipt s else s in
  match execErr with
  | Some err => ((receipt, Some err), s)
  | None =>
      if String.eqb (EnvActionType env) ActionTypeShutdown
      then let '(err, s) := completeShutdown n d (command_message env (executed_payload d (Payload env))) s in
           ((receipt, err), s)
      else ((receipt, None), s)
  end.

(** The recording of a rejection, the same in both entries. *)
Definition reject_verified (n : Dispatcher) (d : delivery E) (w : L5Actuator) (env : GovernanceEnvelope)
    (verified : option VerifiedTransaction) (err : gerr) (s : node S) : (option ActionReceipt * option gerr) * node S :=
  let '((receipt, recordErr), wd) :=
    match verified with
    | None => ((None, Some (Sentinel "ErrTxInvalidEnvelope")), nsWorld s)
    | Some vt => RecordRejectedTransaction w (dActuator d) vt err (nsWorld s)
    end in
  let s := set_world wd s in
  match recordErr with
  | Some recordErr => ((None, Some (Errorf "%w: rejection receipt: %w" [err; recordErr])), s)
  | None =>
      ((receipt, Some err),
       if String.eqb (EnvActionType env) ActionTypeInference then publishInferenceCompletion n env None receipt s else s)
  end.

(** [ProcessEnvelope]: the receipt, the error, the node. *)
Definition ProcessEnvelope (n : Dispatcher) (d : delivery E) (payload : string) (s : node S)
    : (option ActionReceipt * option gerr) * node S :=
  let refuse err := ((None, Some err), s) in
  if String.eqb payload "" then refuse (Sentinel "ErrPubSubEmptyPayload")
  else if (MaxPayloadSize <? Z.of_nat (String.length payload))%Z
  then refuse (Errorf "payload exceeds %d byte limit: %w" [Sentinel "ErrPayloadExceedsLimit"])
  else match unmarshal_envelope payload with
  | Err err => refuse (Errorf "%w: %w" [Sentinel "ErrTxInvalidEnvelope"; err])
  | Ok env =>
  match ValidateGovernedEnvelopeFields (EnvEventType env) (EnvActionType env) with
  | Err err => refuse err
  | Ok _ =>
  match l4warden n with
  | None => refuse (Sentinel "ErrPubSubTransactionVerifier")
  | Some tv =>
  match VerifyEnvelope tv (dWarden d) (Some env) (nsWarden s) with
  | (verified, Some err, st) =>
      let s := set_warden st s in
      match actuator n with
      | None => ((None, Some (Errorf "%w: %w" [Sentinel "ErrPubSubActuator"; err])),
                 logBlockedTransaction n (error_text (dActuator d)) env err s)
      | Some w => reject_verified n d w env verified err s
      end
  | (verified, None, st) =>
      let s := set_warden st s in
      match actuator n, verified with
      | Some w, Some vt =>
          if String.eqb (EnvEventType (vtEnvelope vt)) "" then ((None, Some (Sentinel "ErrTxUnknownEventType")), s)
          else execute_verified n d w env vt s
      | _, _ => ((None, Some (Sentinel "ErrPubSubActuator")), s)
      end
  end end end end.

(** [handleGovernanceEnvelope]: what it leaves behind. *)
Definition handleGovernanceEnvelope (n : Dispatcher) (d : delivery E) (env : GovernanceEnvelope) (s : node S) : node S :=
  let blocked err s := logBlockedTransaction n (error_text (dActuator d)) env err s in
  match event_check env with
  | Err err => blocked err s
  | Ok _ =>
  match l4warden n with
  | None => blocked (Sentinel "ErrPubSubL4Warden") s
  | Some tv =>
  match VerifyEnvelope tv (gatewayDispatchedVerificationContext (dWarden d) env) (Some env) (nsWarden s) with
  | (verified, Some err, st) =>
      let s := set_warden st s in
      match actuator n with
      | None => blocked err s
      | Some w => (reject_verified n d w env verified err s).2
      end
  | (verified, None, st) =>
      let s := set_warden st s in
      if String.eqb (EnvEventType env) "" then s
      else if String.eqb (Payload env) "" then s
      else match actuator n, verified with
           | Some w, Some vt => (execute_verified n d w env vt s).2
           | _, _ => s
           end
  end end end.

(** [handleCommandPayload]: a message of the command channel. *)
Definition handleCommandPayload (n : Dispatcher) (d : delivery E) (payload : string) (s : node S) : node S :=
  if (MaxPayloadSize <? Z.of_nat (String.length payload))%Z then s
  else match unmarshal_envelope payload with
       | Err _ => s
       | Ok env => handleGovernanceEnvelope n d env s
       end.

(** ** The two entries *)

Inductive entry := Http | Channel.

Definition receive (via : entry) (n : Dispatcher) (d : delivery E) (payload : string) (s : node S) : node S :=
  match via with
  | Http => (ProcessEnvelope n d payload s).2
  | Channel => handleCommandPayload n d payload s
  end.

(** The warden's call: on the channel, with the envelope's own state root. *)
Definition entry_call (via : entry) (d : delivery E) (env : GovernanceEnvelope) : call E :=
  match via with Http => dWarden d | Channel => gatewayDispatchedVerificationContext (dWarden d) env end.

(** ** Facts about the steps *)

Definition completion (n : Dispatcher) (env : GovernanceEnvelope) (res : option InferenceResult)
    (receipt : option ActionReceipt) : list notice :=
  match receipt with
  | Some r => if resultsSet n then [NCompletion env (if bool_decide (rcStatus r = STATUS_COMPLETED) then res else None) r] else []
  | None => []
  end.

Lemma notify_nil (s : node S) : notify [] s = s.
Proof. unfold notify. rewrite app_nil_r. by destruct s. Qed.

Lemma notify_app l l' (s : node S) : notify l' (notify l s) = notify (l ++ l') s.
Proof. unfold notify. cbn. by rewrite <- List.app_assoc. Qed.

Lemma publishInferenceCompletion_eq n env res receipt (s : node S) :
  publishInferenceCompletion n env res receipt s = notify (completion n env res receipt) s.
Proof.
  unfold publishInferenceCompletion, completion. destruct receipt; [destruct (resultsSet n); [done|]|];
    by rewrite notify_nil.
Qed.

(** The notices of a shutdown: none, the acknowledgement, or both in that order. *)
Inductive shutdown_notices (msg : PubSubCommandMessage) : option gerr -> list notice -> Prop :=
| shut_nothing err : shutdown_notices msg (Some err) []
| shut_unsignalled reason err : shutdown_notices msg (Some err) [NShutdownAck reason msg]
| shut_done reason :
    unmarshalPayload unmarshal_command (msgEventType msg) (msgPayload msg) = Ok (PShutdown reason) ->
    shutdown_notices msg None [NShutdownAck reason msg; NShutdown (shutdown_reason reason)].

Lemma shutdown_signalled msg err k reason :
  shutdown_notices msg err k -> NShutdown reason ∈ k ->
  exists text, unmarshalPayload unmarshal_command (msgEventType msg) (msgPayload msg) = Ok (PShutdown text) /\
    reason = shutdown_reason text /\ k = [NShutdownAck text msg; NShutdown reason].
Proof.
  intros Hs Hin. destruct Hs as [err|text err|text Hp].
  - by apply not_elem_of_nil in Hin.
  - by apply list_elem_of_singleton in Hin.
  - exists text. apply elem_of_cons in Hin as [?|Hin]; [done|]. apply list_elem_of_singleton in Hin as [= ->]. done.
Qed.

Lemma completeShutdown_shape n d msg (s : node S) :
  exists err k, completeShutdown n d msg s = (err, notify k s) /\ shutdown_notices msg err k.
Proof.
  unfold completeShutdown. destruct (negb (resultsSet n)).
  { do 2 eexists. split; [by rewrite notify_nil|]. constructor. }
  destruct (unmarshalPayload _ _ _) as [[reason| | | | | | | | |]|] eqn:Hu;
    try (do 2 eexists; split; [by rewrite notify_nil|]; by constructor).
  rewrite notify_app. destruct (dAck d); [destruct (dSignal d)|]; do 2 eexists; (split; [reflexivity|]); by constructor.
Qed.

(** What a rejection notifies: a blocked record, or a completion without a result whose
    receipt reports the failure. *)
Definition rejection_notice (x : notice) : Prop :=
  match x with NBlocked _ => True | NCompletion _ None r => rcStatus r = STATUS_FAILED | _ => False end.

(** What a delivery that is refused leaves: records of the stores, then at most the
    publication of a receipt that reports the failure, and notices of the rejection. *)
Definition refused (s s' : node S) : Prop :=
  commitments (nsWorld s') = commitments (nsWorld s) /\
  (exists recs pub receipt, effects (nsWorld s') = effects (nsWorld s) ++ recs ++ pub /\ recorded recs /\
     published pub receipt /\ forall r, receipt = Some r -> rcStatus r = STATUS_FAILED) /\
  exists k, nsNotices s' = nsNotices s ++ k /\ Forall rejection_notice k.

Lemma RecordRejectedTransaction_refused w e vt err (s : world) :
  let '((receipt, _), s') := RecordRejectedTransaction w e vt err s in
  commitments s' = commitments s /\ (forall r, receipt = Some r -> rcStatus r = STATUS_FAILED) /\
  exists recs pub, effects s' = effects s ++ recs ++ pub /\ recorded recs /\ published pub receipt.
Proof.
  assert (Hg0 : forall s1, grew s s1 -> commitments s1 = commitments s /\
    (forall r, @None ActionReceipt = Some r -> rcStatus r = STATUS_FAILED) /\
    exists recs pub, effects s1 = effects s ++ recs ++ pub /\ recorded recs /\ published pub None).
  { intros s1 [Hc (l & He & Hl)]. split; [done|]. split; [done|]. exists l, []. rewrite app_nil_r.
    split_and!; [done|done|by left]. }
  unfold Actuator.RecordRejectedTransaction. destruct (negb _); [apply Hg0, grew_refl|].
  set (r0 := rejection_receipt w e vt err).
  pose proof (signAndLogFinalReceipt_grew marshal_stage w e vt r0 s) as Hg.
  pose proof (signAndLogFinalReceipt_shape marshal_stage w e vt r0 s) as Hs.
  destruct (signAndLogFinalReceipt _ _ _ _ r0 s) as [[r [err'|]] s1]; cbn [snd] in Hg; [by apply Hg0|].
  destruct Hs as [(sig & _ & [= ->])|(r' & err' & ? & _)]; [|done].
  destruct (grew_published w e (sealed_receipt w e r0 sig) s s1 Hg) as (Hc & recs & pub & He & Hrecs & Hpub).
  destruct (if publisherSet w then _ else _) as [u s2]. cbn [snd] in *. split; [done|].
  split; [by intros r [= <-]|]. by exists recs, pub.
Qed.

Lemma reject_verified_refused n d w env verified err (s0 s : node S) :
  nsWorld s = nsWorld s0 -> nsNotices s = nsNotices s0 ->
  refused s0 (reject_verified n d w env verified err s).2.
Proof.
  intros Hw0 Hn0. unfold refused, reject_verified. rewrite <- Hw0, <- Hn0.
  set (rec := match verified with None => _ | Some vt => _ end).
  assert (Hg : let '((receipt, _), s') := rec in commitments s' = commitments (nsWorld s) /\
    (forall r, receipt = Some r -> rcStatus r = STATUS_FAILED) /\
    exists recs pub, effects s' = effects (nsWorld s) ++ recs ++ pub /\ recorded recs /\ published pub receipt).
  { unfold rec. destruct verified as [vt|]; [apply RecordRejectedTransaction_refused|]. split; [done|]. split; [done|].
    exists [], []. rewrite app_nil_r. split_and!; [done|constructor|by left]. }
  destruct rec as [[receipt [recordErr|]] wd]; destruct Hg as (Hc & Hf & recs & pub & He & Hrecs & Hpub); cbn.
  { split; [done|]. split; [by exists recs, pub, receipt|]. exists []. split; [by rewrite app_nil_r|constructor]. }
  rewrite publishInferenceCompletion_eq.
  destruct (String.eqb _ _); (split; [done|]; split; [by exists recs, pub, receipt|]).
  2:{ exists []. split; [by rewrite app_nil_r|constructor]. }
  eexists. split; [reflexivity|]. unfold completion. destruct receipt as [r|]; [destruct (resultsSet n)|]; repeat constructor.
  destruct (bool_decide _); cbn; by apply Hf.
Qed.

(** The end of an accepted delivery, exactly. *)
Lemma execute_verified_shape n d w env vt (s : node S) :
  vtEnvelope vt = env ->
  let s' := (execute_verified n d w env vt s).2 in
  exists l receipt execErr shut,
    effects (nsWorld s') = effects (nsWorld s) ++ l /\
    run_shape marshal_stage w (execution_env n d env) vt (Some (Payload env)) l (receipt, execErr) /\
    nsWarden s' = nsWarden s /\
    nsNotices s' = nsNotices s ++
      (if String.eqb (EnvActionType env) ActionTypeInference
       then completion n env (kept_result n d env (Payload env)) receipt else []) ++ shut /\
    (shut = [] \/ execErr = None /\ EnvActionType env = ActionTypeShutdown /\
       exists err, shutdown_notices (command_message env (executed_payload d (Payload env))) err shut) /\
    (forall err, execErr = Some err -> (execute_verified n d w env vt s).1 = (receipt, Some err)).
Proof.
  intros Hvt. unfold execute_verified.
  destruct (Execute_shape marshal_stage marshal_commitment unmarshal_commitment w (execution_env n d env) vt
    (Some (Payload env)) (nsWorld s)) as (l & Hl & Hs).
  destruct (Execute w _ vt _ (nsWorld s)) as [[receipt execErr] wd]; cbn [fst snd] in *.
  rewrite publishInferenceCompletion_eq.
  set (s1 := if String.eqb _ _ then notify _ _ else _).
  assert (Hs1 : nsWorld s1 = wd /\ nsWarden s1 = nsWarden s /\ nsNotices s1 = nsNotices s ++
    (if String.eqb (EnvActionType env) ActionTypeInference
     then completion n env (kept_result n d env (Payload env)) receipt else [])).
  { unfold s1. destruct (String.eqb _ _); [done|]. by rewrite app_nil_r. }
  destruct Hs1 as (Hw & Hwd & Hn). clearbody s1.
  assert (Hstop : exists shut, nsNotices s1 = nsNotices s ++ (if String.eqb (EnvActionType env) ActionTypeInference
     then completion n env (kept_result n d env (Payload env)) receipt else []) ++ shut /\ shut = []).
  { exists []. by rewrite app_nil_r. }
  exists l, receipt, execErr.
  destruct execErr as [err|].
  { destruct Hstop as (shut & Hsh & ->). exists []. cbn. rewrite Hw. split_and!; try done; [by left|by intros ? [= <-]]. }
  destruct (String.eqb (EnvActionType env) ActionTypeShutdown) eqn:Hsd.
  2:{ destruct Hstop as (shut & Hsh & ->). exists []. cbn. rewrite Hw. split_and!; try done; by left. }
  destruct (completeShutdown_shape n d (command_message env (executed_payload d (Payload env))) s1) as (err & k & -> & Hk).
  exists k. cbn. rewrite Hw, Hwd, Hn, List.app_assoc. split_and!; try done.
  right. split_and!; [done | by apply String.eqb_eq | by exists err].
Qed.

(** The checks before the warden: on the channel only requests are bound to their
    action class. *)
Definition entry_check (via : entry) (env : GovernanceEnvelope) : result unit :=
  match via with
  | Http => ValidateGovernedEnvelopeFields (EnvEventType env) (EnvActionType env)
  | Channel => event_check env
  end.

Lemma entry_check_governed via env a :
  entry_check via env = Ok tt -> ValidateGovernedRequest (EnvEventType env) = Ok a -> EnvActionType env = a.
Proof.
  intros Hc Hg. destruct via; cbn [entry_check] in Hc; unfold event_check, ValidateGovernedEnvelopeFields in Hc;
    rewrite Hg in Hc; cbn [rbind] in Hc; apply require_Ok, String.eqb_eq in Hc; exact Hc.
Qed.

(** A delivery that reaches the actuator. *)
Definition dispatched (via : entry) (n : Dispatcher) (d : delivery E) (payload : string) (s s' : node S) : Prop :=
  exists env tv vt w st,
    unmarshal_envelope payload = Ok env /\ entry_check via env = Ok tt /\
    l4warden n = Some tv /\ actuator n = Some w /\
    VerifyEnvelope tv (entry_call via d env) (Some env) (nsWarden s) = (Some vt, None, st) /\
    vtEnvelope vt = env /\ s' = (execute_verified n d w env vt (set_warden st s)).2.

Lemma refused_refl (s : node S) st : refused s (set_warden st s).
Proof.
  split; [done|]. split; [exists [], [], None; rewrite app_nil_r; split_and!; [done|constructor|by left|done]|].
  exists []. split; [by rewrite app_nil_r|constructor].
Qed.

Lemma refused_same (s : node S) : refused s s.
Proof. pose proof (refused_refl s (nsWarden s)) as H. by destruct s. Qed.

Lemma refused_blocked n et env err (s s0 : node S) st :
  s0 = set_warden st s \/ s0 = s -> refused s (logBlockedTransaction n et env err s0).
Proof.
  unfold logBlockedTransaction. intros H. destruct (auditSet n).
  - destruct (refused_refl s st) as (Hc & He & _). destruct H as [->| ->]; (split; [done|]; split; [exact He|]);
      eexists; (split; [reflexivity|]); repeat constructor.
  - destruct H as [->| ->]; [apply refused_refl | apply refused_same].
Qed.

Lemma accepted_envelope tv (c : call E) env st vt st' :
  VerifyEnvelope tv c (Some env) st = (Some vt, None, st') -> vtEnvelope vt = env.
Proof. by intros (t & s' & m & p & l2 & _ & _ & [= ->] & _)%VerifyEnvelope_Ok. Qed.

Lemma handleGovernanceEnvelope_cases n d payload env (s : node S) :
  unmarshal_envelope payload = Ok env ->
  refused s (handleGovernanceEnvelope n d env s) \/ dispatched Channel n d payload s (handleGovernanceEnvelope n d env s).
Proof.
  intros Hu. unfold handleGovernanceEnvelope. destruct (event_check env) as [[]|err] eqn:Hc.
  2:{ left. apply (refused_blocked _ _ _ _ _ _ (nsWarden s)). by right. }
  destruct (l4warden n) as [tv|] eqn:Htv.
  2:{ left. apply (refused_blocked _ _ _ _ _ _ (nsWarden s)). by right. }
  destruct (VerifyEnvelope tv _ (Some env) (nsWarden s)) as [[verified [err|]] st] eqn:Hv.
  { left. destruct (actuator n) as [w|].
    - by apply reject_verified_refused.
    - eapply refused_blocked. by left. }
  destruct (String.eqb (EnvEventType env) ""); [left; apply refused_refl|].
  destruct (String.eqb (Payload env) ""); [left; apply refused_refl|].
  destruct (actuator n) as [w|] eqn:Hw; [|left; apply refused_refl].
  destruct verified as [vt|]; [|left; apply refused_refl].
  right. exists env, tv, vt, w, st. pose proof (accepted_envelope _ _ _ _ _ _ Hv) as Hvt.
  exact (conj Hu (conj Hc (conj Htv (conj Hw (conj Hv (conj Hvt eq_refl)))))).
Qed.

Lemma ProcessEnvelope_cases n d payload (s : node S) :
  refused s (ProcessEnvelope n d payload s).2 \/ dispatched Http n d payload s (ProcessEnvelope n d payload s).2.
Proof.
  unfold ProcessEnvelope. destruct (String.eqb payload ""); [left; apply refused_same|].
  destruct (_ <? _)%Z; [left; apply refused_same|].
  destruct (unmarshal_envelope payload) as [env|] eqn:Hu; [|left; apply refused_same].
  destruct (ValidateGovernedEnvelopeFields _ _) as [[]|err] eqn:Hc; [|left; apply refused_same].
  destruct (l4warden n) as [tv|] eqn:Htv; [|left; apply refused_same].
  destruct (VerifyEnvelope tv _ (Some env) (nsWarden s)) as [[verified [err|]] st] eqn:Hv.
  { left. destruct (actuator n) as [w|].
    - by apply reject_verified_refused.
    - eapply refused_blocked. by left. }
  destruct (actuator n) as [w|] eqn:Hw; [|left; apply refused_refl].
  destruct verified as [vt|]; [|left; apply refused_refl].
  pose proof (accepted_envelope _ _ _ _ _ _ Hv) as Hvt.
  destruct (String.eqb (EnvEventType (vtEnvelope vt)) ""); [left; apply refused_refl|].
  right. exists env, tv, vt, w, st. exact (conj Hu (conj Hc (conj Htv (conj Hw (conj Hv (conj Hvt eq_refl)))))).
Qed.

(** Every delivery stops or is dispatched. *)
Lemma receive_cases via n d payload (s : node S) :
  refused s (receive via n d payload s) \/ dispatched via n d payload s (receive via n d payload s).
Proof.
  destruct via; cbn [receive]; [apply ProcessEnvelope_cases|].
  unfold handleCommandPayload. destruct (_ <? _)%Z; [left; apply refused_same|].
  destruct (unmarshal_envelope payload) as [env|] eqn:Hu; [|left; apply refused_same].
  by apply handleGovernanceEnvelope_cases.
Qed.

(** The calls a delivery's handlers make. *)
Definition reached (n : Dispatcher) (d : delivery E) (env : GovernanceEnvelope) (l : list effect) : list egress :=
  flat_map (fun x => match x with EHandle _ (Some p) _ => (handler_run n d env p).1 | _ => [] end) l.

Lemma reached_quiet n d env l : quiet l -> reached n d env l = [].
Proof. intros H. induction H as [|x l Hx _ IH]; [done|]. simpl. rewrite IH. by destruct x. Qed.

Lemma executed_payload_eq d payload p :
  rehydratePayload (dActuator d) (Some payload) = Ok (Some p) -> executed_payload d payload = p.
Proof. unfold executed_payload. by intros ->. Qed.

Lemma reached_run n d w env vt l out payload :
  vtEnvelope vt = env ->
  run_shape marshal_stage w (execution_env n d env) vt (Some payload) l out ->
  (recorded l /\ exists err, out = (None, Some err)) \/
  exists p cap pre recs pub,
    l = pre ++ EHandle (EnvEventType env) (Some p) cap :: EDissolve (Dissolve cap) :: recs ++ pub /\
    recorded pre /\ recorded recs /\ published pub out.1 /\
    rehydratePayload (dActuator d) (Some payload) = Ok (Some p) /\
    MintCapability (random (dActuator d)) vt (SigningKey w) (KeyID w) = Ok cap /\
    reached n d env l = (handler_run n d env p).1.
Proof.
  intros Hvt Hs. inversion Hs as [? err Hq|pre pl cap recs pub r0 summary execErr ? Hpre Hrecs Hpub Hr Hc Hh Hf]; subst.
  { left. split; [done|by exists err]. }
  right. assert (Hp : exists p, pl = Some p).
  { unfold rehydratePayload in Hr. destruct (rehydrate _); repeat case_match; try done; injection Hr as <-; by eexists. }
  destruct Hp as [p ->]. exists p, cap, pre, recs, pub. split_and!; try done.
  unfold reached. rewrite flat_map_app. fold (reached n d (vtEnvelope vt) pre).
  rewrite reached_quiet by by apply recorded_quiet.
  simpl. fold (reached n d (vtEnvelope vt) (recs ++ pub)). rewrite reached_quiet; [by rewrite app_nil_r|].
  apply Forall_app. split; [by apply recorded_quiet|by eapply published_quiet].
Qed.





Lemma shape_no_receipt w e vt msg l err :
  run_shape marshal_stage w e vt msg l (None, err) -> err <> None.
Proof.
  intros Hs. inversion Hs as [|pre pl cap recs pub r0 summary herr out _ _ _ _ _ _ Hf]; subst; [done|].
  by destruct Hf as [(sig & _ & ?)|(r & e' & ? & _)].
Qed.

(** The receipt of a run is the handler's outcome. *)
Lemma ran_receipt n d w env vt l r execErr payload :
  vtEnvelope vt = env ->
  run_shape marshal_stage w (execution_env n d env) vt (Some payload) l (Some r, execErr) ->
  exists p, rehydratePayload (dActuator d) (Some payload) = Ok (Some p) /\ reached n d env l = (handler_run n d env p).1 /\
    let '(summary, herr) := handler_outcome (handler_run n d env p) in
    rcStatus r = (match herr with Some _ => STATUS_FAILED | None => STATUS_COMPLETED end) /\
    (herr = None -> rcResultSummary r = if String.eqb summary "" then "completed" else summary) /\
    (execErr = None -> herr = None /\ exists final sig,
       signReceipt marshal_stage (SigningKey w) final = Ok sig /\ r = sealed_receipt w (execution_env n d env) final sig /\
       rcStatus final = STATUS_COMPLETED /\
       rcResultSummary final = if String.eqb summary "" then "completed" else summary).
Proof.
  intros Hvt Hs. destruct (reached_run _ _ _ _ _ _ _ _ Hvt Hs) as [[_ (err & ?)]|(p & cap & pre & recs & pub & Hl & _ & _ & _ & Hr & _ & Hre)]; [done|].
  exists p. split; [done|]. split; [done|].
  inversion Hs as [|pre' pl cap' recs' pub' r0 summary herr ? _ _ _ Hr' _ Hh Hf]. subst.
  change (rehydratePayload (execution_env n d (vtEnvelope vt))) with (rehydratePayload (dActuator d)) in Hr'.
  rewrite Hr in Hr'. injection Hr' as <-.
  change (handler_outcome (handler_run n d (vtEnvelope vt) p) = (summary, herr)) in Hh. rewrite Hh.
  destruct Hf as [(sig & Hsig & [= -> ->])|(r' & err & [= <- ->] & (Hst & Hsum & _))].
  - split_and!; [by destruct herr | by intros -> |]. intros ->. split; [done|]. do 2 eexists.
    split_and!; [exact Hsig|reflexivity..].
  - split_and!; [rewrite Hst; by destruct herr | intros ->; by rewrite Hsum | done].
Qed.

(** A handler that succeeded ran for a governed event of the envelope's class, or
    was the heartbeat. *)
Lemma handler_run_Ok via n d env p l summary kept :
  entry_check via env = Ok tt -> handler_run n d env p = (l, Ok (summary, kept)) ->
  (legacyEvent (EnvEventType env) = true /\ kept = None) \/
  exists h, find_key (EnvActionType env) (actionHandlers (handlersOf n)) = Some h /\
    run_handler unmarshal_command protojson marshal_result (dAnswer d) (handlersOf n) h (command_message env p)
      = (l, Ok (summary, kept)).
Proof.
  intros Hc. unfold handler_run, ExecuteVerifiedTransaction.
  destruct (legacyEvent (EnvEventType env)); [intros [= _ _ <-]; left; split; reflexivity|].
  destruct (ValidateGovernedRequest (EnvEventType env)) as [a|err] eqn:Hg; [|discriminate].
  assert (Ha : EnvActionType env = a).
  { exact (entry_check_governed _ _ _ Hc Hg). }
  subst a. destruct (find_key _ _) as [h|]; [|discriminate]. intros H. right. exists h. split; [reflexivity|exact H].
Qed.

Lemma legacy_payload event : legacyEvent event = true -> payload_message event = None.
Proof. intros ->%String.eqb_eq. reflexivity. Qed.

Lemma finalized_shutdown reason : (if String.eqb (shutdown_reason reason) "" then "completed" else shutdown_reason reason) = shutdown_reason reason.
Proof. unfold shutdown_reason. destruct (String.eqb reason "") eqn:H; [done|]. by rewrite H. Qed.

(** Shutting down is the last step.  The node is told to shut down only for an
    accepted SHUTDOWN envelope whose execution completed: its receipt is sealed with
    the reason as its summary before, the acknowledgement is sent before, and nothing
    is sent after. *)
Theorem shutdown_is_last via n d payload (s : node S) :
  exists k, nsNotices (receive via n d payload s) = nsNotices s ++ k /\
  forall reason, NShutdown reason ∈ k ->
    exists env p text w final sig,
      unmarshal_envelope payload = Ok env /\ EnvActionType env = ActionTypeShutdown /\
      unmarshalPayload unmarshal_command (EnvEventType env) p = Ok (PShutdown text) /\ reason = shutdown_reason text /\
      k = [NShutdownAck text (command_message env p); NShutdown reason] /\
      actuator n = Some w /\ signReceipt marshal_stage (SigningKey w) final = Ok sig /\
      rcStatus final = STATUS_COMPLETED /\ rcResultSummary final = reason.
Proof.
  destruct (receive_cases via n d payload s) as [(_ & _ & k & Hk & Hr)|H].
  { exists k. split; [done|]. intros reason Hin. rewrite Forall_forall in Hr. by apply Hr in Hin. }
  destruct H as (env & tv & vt & w & st & Hu & Hc & _ & Hw & _ & Hvt & ->).
  destruct (execute_verified_shape n d w env vt (set_warden st s) Hvt) as (l & receipt & execErr & shut & _ & Hs & _ & Hn & Hshut & _).
  eexists. split; [exact Hn|]. intros reason Hin.
  assert (Hin' : NShutdown reason ∈ shut).
  { apply elem_of_app in Hin as [Hin|Hin]; [|done]. destruct (String.eqb _ _); [|by apply not_elem_of_nil in Hin].
    unfold completion in Hin. destruct receipt; [destruct (resultsSet n)|]; try by apply not_elem_of_nil in Hin.
    by apply list_elem_of_singleton in Hin. }
  destruct Hshut as [->|(-> & Ha & err & Hsh)]; [by apply not_elem_of_nil in Hin'|].
  destruct (shutdown_signalled _ _ _ _ Hsh Hin') as (text & Hp & -> & ->).
  destruct receipt as [r|]; [|by apply shape_no_receipt in Hs].
  destruct (ran_receipt _ _ _ _ _ _ _ _ _ Hvt Hs) as (p & Hre & _ & Hrun).
  rewrite (executed_payload_eq _ _ _ Hre) in *. cbn [command_message msgEventType msgPayload] in Hp.
  destruct (handler_run n d env p) as [calls [[summary kept]|e]] eqn:Hh; cbn in Hrun.
  2:{ destruct Hrun as (_ & _ & Hrun). by destruct (Hrun eq_refl). }
  destruct Hrun as (_ & _ & Hrun). destruct (Hrun eq_refl) as (_ & r0 & sig & Hsig & -> & Hst & Hsum).
  destruct (handler_run_Ok _ _ _ _ _ _ _ _ Hc Hh) as [[Hleg _]|(h & Hassoc & Hh')].
  { unfold unmarshalPayload in Hp. rewrite (legacy_payload _ Hleg) in Hp. destruct (require _ _); discriminate Hp. }
  rewrite Ha, shutdown_handler in Hassoc. injection Hassoc as <-.
  cbn [run_handler] in Hh'. unfold handleShutdownRequest in Hh'. cbn [command_message msgEventType msgPayload] in Hh'.
  rewrite Hp, ebind_pure in Hh'. injection Hh' as _ <- _. rewrite finalized_shutdown in Hsum.
  exists env, p, text, w, r0, sig. rewrite Ha.
  do 4 (split; [first [assumption|reflexivity]|]). split; [reflexivity|]. do 3 (split; [assumption|]). exact Hsum.
Qed.

(** C34: The published inference is the one the receipt signs.  Whenever a delivery
    publishes an inference result, the receipt published with it reports COMPLETED,
    and its summary is the digest of that result, which the backend returned for this
    message; the receipt is sealed by the actuator, unless sealing or recording it
    failed. *)
Theorem completion_binds_receipt via n d payload (s : node S) :
  exists k, nsNotices (receive via n d payload s) = nsNotices s ++ k /\
  forall env res receipt, NCompletion env (Some res) receipt ∈ k ->
    exists p w, unmarshal_envelope payload = Ok env /\ actuator n = Some w /\
      EnvActionType env = ActionTypeInference /\
      rcStatus receipt = STATUS_COMPLETED /\ rcResultSummary receipt = irResultDigest res /\
      ComputeInferenceResultDigest marshal_result (irBody res) = Ok (irResultDigest res) /\
      dAnswer d (EgInference (command_message env p)) = Ok (irBody res) /\
      ((exists final sig, signReceipt marshal_stage (SigningKey w) final = Ok sig /\
          receipt = sealed_receipt w (execution_env n d env) final sig) \/
       exists err vt s0, (execute_verified n d w env vt s0).1 = (Some receipt, Some err)).
Proof.
  destruct (receive_cases via n d payload s) as [(_ & _ & k & Hk & Hr)|H].
  { exists k. split; [done|]. intros env res receipt Hin. rewrite Forall_forall in Hr. by apply Hr in Hin. }
  destruct H as (env & tv & vt & w & st & Hu & Hc & _ & Hw & _ & Hvt & ->).
  destruct (execute_verified_shape n d w env vt (set_warden st s) Hvt) as (l & receipt & execErr & shut & _ & Hs & _ & Hn & Hshut & Hout).
  eexists. split; [exact Hn|]. intros env' res receipt' Hin.
  apply elem_of_app in Hin as [Hin|Hin].
  2:{ exfalso. destruct Hshut as [->|(_ & _ & err & Hsh)]; [by apply not_elem_of_nil in Hin|].
      destruct Hsh; set_solver. }
  destruct (String.eqb (EnvActionType env) ActionTypeInference) eqn:Ha; [|by apply not_elem_of_nil in Hin].
  apply String.eqb_eq in Ha. unfold completion in Hin. destruct receipt as [r|]; [|by apply not_elem_of_nil in Hin].
  destruct (resultsSet n); [|by apply not_elem_of_nil in Hin]. apply list_elem_of_singleton in Hin.
  destruct (bool_decide _) eqn:Hst; [|discriminate Hin]. injection Hin as -> Hk ->. symmetry in Hk.
  destruct (ran_receipt _ _ _ _ _ _ _ _ _ Hvt Hs) as (p & Hre & _ & Hrun).
  unfold kept_result in Hk. rewrite (executed_payload_eq _ _ _ Hre) in Hk.
  destruct (handler_run n d env p) as [calls [[summary kept]|e]] eqn:Hh; cbn in Hrun, Hk; [|discriminate Hk]. subst kept.
  destruct Hrun as (Hst' & Hsum & Hseal).
  destruct (handler_run_Ok _ _ _ _ _ _ _ _ Hc Hh) as [[_ Hno]|(h & Hassoc & Hh')]; [discriminate Hno|].
  rewrite Ha, inference_handler in Hassoc. injection Hassoc as <-.
  apply inference_kept in Hh' as (res' & [= <-] & -> & Hd & Hans).
  exists p, w. do 2 (split; [assumption|]). split; [exact Ha|]. split; [exact Hst'|]. split.
  { rewrite (Hsum eq_refl). unfold ComputeInferenceResultDigest in Hd.
    apply rbind_Ok in Hd as (data & _ & [= <-]).
    destruct (String.eqb_spec (sha256_hex data) ""); [|reflexivity]. by destruct (sha256_hex_nonempty data). }
  split; [exact Hd|]. split; [exact Hans|]. destruct execErr as [err|].
  - right. exists err, vt, (set_warden st s). by apply Hout.
  - left. destruct (Hseal eq_refl) as (_ & final & sig & Hsig & -> & _). exists final, sig. by split.
Qed.

(** ** The live state root *)

Definition with_provider (tv : L4Warden) (live : result string) : L4Warden := {|
  executionTarget := executionTarget tv; replayStoreSet := replayStoreSet tv;
  stateRootProvider := Some live; signerStore := signerStore tv;
  consensusPolicyStore := consensusPolicyStore tv; l3Notary := l3Notary tv; doctrine := doctrine tv;
  knownActionTypes := knownActionTypes tv |}.

Definition with_warden (n : Dispatcher) (tv : L4Warden) : Dispatcher := {|
  handlersOf := handlersOf n; l4warden := Some tv; actuator := actuator n; resultsSet := resultsSet n;
  auditSet := auditSet n |}.

Lemma verifyStateful_own_root tv live live' root env :
  root = StateMerkleRoot env \/ StateMerkleRoot env = "" ->
  verifyStateful (with_provider tv live) root env = verifyStateful (with_provider tv live') root env.
Proof.
  intros Hroot. unfold verifyStateful, current_root. cbn [stateRootProvider with_provider].
  destruct (str_nonempty (StateMerkleRoot env)) eqn:Hne; [|reflexivity].
  destruct Hroot as [->|He]; [by rewrite Hne|]. by rewrite He in Hne.
Qed.

Lemma VerifyEnvelope_own_root tv live live' (c : call E) env st :
  context_root c = StateMerkleRoot env \/ StateMerkleRoot env = "" ->
  VerifyEnvelope (with_provider tv live) c (Some env) st = VerifyEnvelope (with_provider tv live') c (Some env) st.
Proof.
  intros Hroot. unfold Warden.VerifyEnvelope.
  change (admit_nonce (with_provider tv live) c env st) with (admit_nonce (with_provider tv live') c env st).
  destruct (admit_nonce _ c env st) as [[t|err] st1]; [|reflexivity].
  replace (verify_reserved unmarshal (with_provider tv live) c env t)
    with (verify_reserved unmarshal (with_provider tv live') c env t); [reflexivity|].
  unfold verify_reserved. rewrite (verifyStateful_own_root tv live live' _ env Hroot). reflexivity.
Qed.

Lemma channel_root (c : call E) env :
  context_root (gatewayDispatchedVerificationContext c env) = StateMerkleRoot env \/ StateMerkleRoot env = "".
Proof.
  unfold gatewayDispatchedVerificationContext. destruct (String.eqb (StateMerkleRoot env) "") eqn:He; [|by left].
  right. by apply String.eqb_eq.
Qed.

(** Where the live state root counts.  On the command channel an envelope is
    checked against the root it carries itself: whatever the provider answers, the
    delivery is the same.  Over HTTP, when the caller put no root in the context, an
    envelope whose root is not the live one is refused. *)
Theorem live_root_by_entry n tv d payload env (s : node S) live :
  unmarshal_envelope payload = Ok env ->
  (forall live', receive Channel (with_warden n (with_provider tv live')) d payload s =
                 receive Channel (with_warden n (with_provider tv live)) d payload s) /\
  (context_root (dWarden d) = "" -> live <> Ok (StateMerkleRoot env) ->
   refused s (receive Http (with_warden n (with_provider tv live)) d payload s)).
Proof.
  intros Hu. split.
  - intros live'. cbn [receive]. unfold handleCommandPayload. destruct (_ <? _)%Z; [reflexivity|]. rewrite Hu.
    unfold handleGovernanceEnvelope. destruct (event_check env); [|reflexivity]. cbn [l4warden with_warden].
    rewrite (VerifyEnvelope_own_root tv live' live _ env _ (channel_root _ env)).
    destruct (VerifyEnvelope _ _ _ _) as [[verified [err|]] st]; [reflexivity|].
    destruct (String.eqb (EnvEventType env) ""); [reflexivity|]. destruct (String.eqb (Payload env) ""); reflexivity.
  - intros Hctx Hlive.
    destruct (receive_cases Http (with_warden n (with_provider tv live)) d payload s) as [H|H]; [exact H|].
    exfalso. destruct H as (env' & tv' & vt & w & st & Hu' & _ & Htv & _ & Hv & _).
    rewrite Hu in Hu'. injection Hu' as <-. cbn in Htv. injection Htv as <-.
    apply VerifyEnvelope_Ok in Hv as (_ & _ & _ & _ & _ & _ & [_ [_ (pr & Hpr & Hroot)] _ _ _] & _).
    cbn in Hpr. injection Hpr as <-. cbn [entry_call] in Hroot. rewrite Hctx in Hroot.
    apply Hlive. unfold current_root in Hroot. cbn [str_nonempty] in Hroot. by apply wrap_err_Ok in Hroot.
Qed.
End dispatcher.

(** ** Concrete deliveries *)

#[local] Existing Instance toy_ed25519.

(** An envelope that asks for neither consensus nor a human, for any action. *)
Definition plain_env (event action payload : string) : GovernanceEnvelope :=
  let env := {|
    Id := ""; SentAt := None; ExpiresAt := Some ex_expiry; SourceComponent := 1;
    OperatorId := "op-1"; OperatorSessionId := "session"; WebSessionId := ""; CliSessionId := "";
    RequestorUserId := "user"; ActingAppId := ""; EnvEventType := event; Payload := payload; IntentData := None;
    EnvActionType := action; TargetResource := "op-1"; StateMerkleRoot := "root"; Nonce := "n1";
    TransactionHash := ""; ProtocolVersion := "2"; Governance := None; CaseId := ""; InvestigationId := "";
    TaskId := ""; SystemFingerprint := ""; TenantId := ""; BindingPersona := ""; Posture := "doctrine" |} in
  with_hash (match GenerateMessageID (Some env) with Ok h => h | Err _ => "" end) env.

Definition ex_dispatcher (tv : L4Warden) : Dispatcher := {|
  handlersOf := ex_service; l4warden := Some tv;
  actuator := Some {| auditStore := None; consoleSet := true; rootProviderSet := true; handlerSet := true;
    publisherSet := false; SigningKey := "warden"; KeyID := hex_encode (sha256 "warden");
    AuditorSigningKey := ""; AuditorKeyID := "" |};
  resultsSet := true; auditSet := true |}.

Definition ex_delivery : delivery sql_env := {|
  dWarden := first_call; dActuator := ex_run_env; dAnswer := ex_answer true; dAck := Ok tt; dSignal := Ok tt |}.

Definition ex_node : node (gmap string SQLReplayStore.nonce_row) := Build_node ex_state ex_world [].

Notation ex_receive via tv env :=
  (receive ex_unmarshal toy_marshal (fun _ => Ok "{}") (fun _ => Err (Extern "protojson")) ex_decode
     (fun _ => Ok "{}") (fun r => Ok r) (fun _ => Ok env) via (ex_dispatcher tv) ex_delivery "envelope" ex_node).

Definition shutdown_env : GovernanceEnvelope :=
  plain_env "g8e.v1.operator.shutdown.requested" "SHUTDOWN" "maintenance".
Definition inference_env : GovernanceEnvelope :=
  plain_env "g8e.v1.operator.inference.requested" "INFERENCE" "attempt-1".

(** The rehydration of the example puts brackets around a payload. *)
Example ex_shutdown :
  nsNotices (ex_receive Http ex_warden shutdown_env) =
    [NShutdownAck "[maintenance]" (command_message shutdown_env "[maintenance]"); NShutdown "[maintenance]"].
Proof. vm_compute. reflexivity. Qed.

Example ex_inference :
  map (fun x => match x with
                | NCompletion _ (Some r) rc => (irResultDigest r, rcResultSummary rc)
                | _ => ("", "")
                end) (nsNotices (ex_receive Channel ex_warden inference_env)) =
    [(sha256_hex "tokens", sha256_hex "tokens")].
Proof. vm_compute. reflexivity. Qed.

(** A stale envelope: executed from the channel, refused over HTTP. *)
Definition moved_on : L4Warden := with_provider ex_warden (Ok "newer").
Example ex_stale_channel :
  List.length (List.filter is_handle (effects (nsWorld (ex_receive Channel moved_on inference_env)))) = 1%nat.
Proof. vm_compute. reflexivity. Qed.
Example ex_stale_http :
  List.length (List.filter is_handle (effects (nsWorld (ex_receive Http moved_on inference_env)))) = 0%nat.
Proof. vm_compute. reflexivity. Qed.

Lemma live_root_by_entry_witness :
  (forall live', ex_receive Channel (with_provider ex_warden live') inference_env =
                 ex_receive Channel (with_provider ex_warden (Ok "newer")) inference_env) /\
  ("" = "" -> Ok "newer" <> Ok (StateMerkleRoot inference_env) ->
   refused ex_node (ex_receive Http (with_provider ex_warden (Ok "newer")) inference_env)).
Proof.
  exact (live_root_by_entry ex_unmarshal toy_marshal (fun _ => Ok "{}") (fun _ => Err (Extern "protojson")) ex_decode
    (fun _ => Ok "{}") (fun r => Ok r) (fun _ => Ok inference_env) (ex_dispatcher ex_warden) ex_warden ex_delivery
    "envelope" inference_env ex_node (Ok "newer") eq_refl).
Defined.
