(* ===== verification/Evidence.v ===== *)
(** Evidence nodes and the primitives of the evidence package
    ([src/internal/services/compliance/evidence], graph.go and primitives.go).

    A node is content addressed: its id names its type and the digest of its bytes.  Paths
    inside a bundle are relative; Go's [filepath.Clean] is computed. *)
From S2P Require Import Prelude Errors Encoding Sha256 Timestamp.
From Stdlib Require Import String Ascii List ZArith Lia Bool.
From stdpp Require Import base strings list.
Open Scope string_scope.

(** ** Paths *)

(** One component of a path on the stack of the components before it. *)
Definition clean_step (rooted : bool) (stack : list string) (part : string) : list string :=
  if String.eqb part "" || String.eqb part "." then stack
  else if String.eqb part ".." then
    match stack with
    | x :: below => if String.eqb x ".." then ".." :: stack else below
    | [] => if rooted then [] else [".."]
    end
  else part :: stack.

Definition clean_parts (rooted : bool) (stack parts : list string) : list string := fold_left (clean_step rooted) parts stack.

(** [filepath.Clean] and [filepath.Join] on Unix, [path.Join]. *)
Definition Clean (path : string) : string :=
  let rooted := String.prefix "/" path in
  let body := str_join "/" (rev (clean_parts rooted [] (split_on "/" path))) in
  if rooted then "/" +:+ body else if String.eqb body "" then "." else body.

Definition JoinPath (elems : list string) : string :=
  match List.filter str_nonempty elems with [] => "" | l => Clean (str_join "/" l) end.

(** A NUL byte is not a character of a path either. *)
Definition ValidRelativePath (value : string) : bool :=
  if String.prefix "/" value || has_char ":" value || has_char (byte_of 0) value then false
  else
    let clean := Clean value in
    negb (String.eqb clean ".") && negb (String.eqb clean "..") && negb (String.prefix "/" clean) &&
    negb (String.prefix "../" clean).

(** ** Content addresses *)

Notation ArtifactType := string (only parsing).
Definition ArtifactTypeActionReceipt : ArtifactType := "action-receipt".
Definition ArtifactTypeReceiptPersistence : ArtifactType := "receipt-persistence".
Definition ArtifactTypeProtocolChain : ArtifactType := "protocol-chain".
Definition ArtifactTypeAuditChainEntry : ArtifactType := "audit-chain-entry".
Definition ArtifactTypeCommitment : ArtifactType := "commitment".

Definition ContentAddress (artifactType : ArtifactType) (canonicalBytes : string) : string :=
  artifactType +:+ ":sha256:" +:+ sha256_hex canonicalBytes.

Definition ContentReferenceForBody (prefix body : string) : string := prefix +:+ ":sha256:" +:+ sha256_hex body.

Definition VerifyDigest (body expected : string) : bool := String.eqb (sha256_hex body) expected.

(** [strings.ToLower(s) == s] on the 64 bytes a digest has: no capital letter, and
    hex decoding refuses what is not ASCII. *)
Definition no_capital (s : string) : bool :=
  forallb (fun c => negb ((65 <=? byte_val c)%Z && (byte_val c <=? 90)%Z)) (list_ascii_of_string s).

(** [ParseContentAddress] and [ParseContentReference] do the same. *)
Definition ParseContentReference (reference : string) : option (string * string) :=
  match split_on ":" reference with
  | [kind; alg; digest] =>
      if String.eqb kind "" || negb (String.eqb alg "sha256") || negb (String.length digest =? 64)%nat || negb (no_capital digest)
      then None
      else match hex_decode digest with
           | Some decoded => if (String.length decoded =? 32)%nat then Some (kind, digest) else None
           | None => None
           end
  | _ => None
  end.

Definition ParseExpectedContentReference (reference expectedPrefix : string) : option string :=
  match ParseContentReference reference with
  | Some (kind, digest) => if String.eqb kind expectedPrefix then Some digest else None
  | None => None
  end.

(** ** Nodes *)

Inductive VerificationStatus := StatusVerified | StatusUnverified | StatusFailed | StatusPending.

Record EncryptionMetadata := {
  emAlgorithm : string; emKeyID : string; emAuthorizationScope : string; emPlaintextSHA256 : string;
  emAuthenticatedMetadataSHA256 : string
}.

(** [Diagnostics] is carried for the report only and left out. *)
Record EvidenceNode := {
  enArtifactID : string; enArtifactType : ArtifactType; enSHA256 : string; enMediaType : string; enSchemaRef : string;
  enProducerIdentity : string; enProducedAt : gotime; enScopeID : string; enSourceAdmissionID : string; enRunID : string;
  enAttemptID : string; enScenarioID : string; enTransactionID : string; enVerificationStatus : VerificationStatus;
  enVerifierID : string; enVerifierVersion : string; enVerifiedAt : gotime; enBundlePath : string;
  enEncryption : option EncryptionMetadata; enCanonicalBytes : string; enReferences : list string
}.

#[export] Instance status_eq_dec : EqDecision VerificationStatus. Proof. solve_decision. Defined.

(** ** Round trip of addresses *)

Lemma split_on_nonempty sep s : split_on sep s <> [].
Proof. destruct s as [|c s]; cbn; [done|]. by repeat case_match. Qed.

Lemma split_on_app sep a b : split_on sep (a +:+ String sep b) = (split_on sep a ++ split_on sep b)%list.
Proof.
  induction a as [|c a IH]; cbn.
  - by rewrite (proj2 (Ascii.eqb_eq _ _) eq_refl).
  - destruct (Ascii.eqb c sep); [by rewrite IH|]. rewrite IH. destruct (split_on sep a) eqn:E; [|done].
    by destruct (split_on_nonempty sep a).
Qed.

Lemma split_on_free sep a : has_char sep a = false -> split_on sep a = [a].
Proof.
  induction a as [|c a IH]; cbn [has_char split_on]; [done|]. intros [Hc Ha]%orb_false_iff.
  by rewrite Ascii.eqb_sym, Hc, IH.
Qed.

(** The digits of a digest. *)
Definition hex_text (s : string) : Prop :=
  forall c, has_char c s = true -> exists d, (0 <= d < 16)%Z /\ c = hex_digit d.

Lemma hex_encode_text s : hex_text (hex_encode s).
Proof.
  induction s as [|c s IH]; intros x; [done|]. cbn [hex_encode]. rewrite has_char_app. unfold hex_byte.
  cbn [has_char]. pose proof (byte_val_range c) as Hb.
  rewrite !orb_true_iff. intros [[H|[H|H]]|H]; [| |done|by apply IH]; apply Ascii.eqb_eq in H as ->;
    eexists; (split; [|reflexivity]); [split; [apply Z.div_pos; lia|apply Z.div_lt_upper_bound; lia]|apply Z.mod_pos_bound; lia].
Qed.

Lemma hex_digit_code d : (0 <= d < 16)%Z -> byte_val (hex_digit d) = (if (d <? 10)%Z then 48 + d else 87 + d)%Z.
Proof. intros Hd. unfold hex_digit. rewrite byte_val_of; [done|]. destruct (Z.ltb_spec d 10); lia. Qed.

Lemma hex_text_free s c : hex_text s -> hex_val c = None -> has_char c s = false.
Proof.
  intros Hs Hc. apply not_true_iff_false. intros H. destruct (Hs c H) as (d & Hd & ->). by rewrite hex_digit_val in Hc.
Qed.

Lemma hex_text_no_capital s : hex_text s -> no_capital s = true.
Proof.
  intros Hs. unfold no_capital. apply forallb_forall. intros c Hc.
  assert (H : has_char c s = true).
  { clear Hs. induction s as [|x s IH]; [done|]. cbn. destruct Hc as [->|Hc]; [by rewrite Ascii.eqb_refl|].
    rewrite IH by done. apply orb_true_r. }
  destruct (Hs c H) as (d & Hd & ->). rewrite hex_digit_code by done.
  destruct (Z.ltb_spec d 10), (Z.leb_spec 65 (48 + d)), (Z.leb_spec 65 (87 + d)), (Z.leb_spec (48 + d) 90), (Z.leb_spec (87 + d) 90); cbn; lia || done.
Qed.

Lemma ParseContentReference_address kind body :
  kind <> "" -> has_char ":" kind = false ->
  ParseContentReference (ContentReferenceForBody kind body) = Some (kind, sha256_hex body).
Proof.
  intros Hne Hk. unfold ParseContentReference, ContentReferenceForBody.
  change (":sha256:" +:+ sha256_hex body) with (String ":" ("sha256" +:+ String ":" (sha256_hex body))).
  pose proof (hex_encode_text (sha256 body) : hex_text (sha256_hex body)) as Hx.
  rewrite !split_on_app, (split_on_free ":" kind), (split_on_free ":" "sha256"), (split_on_free ":" (sha256_hex body));
    [|by apply hex_text_free|done|done].
  cbn [app]. rewrite (proj2 (String.eqb_neq kind "") Hne), length_sha256_hex, hex_text_no_capital by done.
  cbn. unfold sha256_hex at 1. by rewrite hex_decode_encode, length_sha256.
Qed.

(** ** Paths stay below their root *)

Lemma clean_step_up a part : ".." ∈ a -> ".." ∈ clean_step false a part.
Proof.
  unfold clean_step. intros H. destruct (_ || _); [done|]. destruct (String.eqb part ".."); [|by right].
  destruct a as [|x a]; [by inversion H|]. destruct (String.eqb_spec x ".."); [by left|].
  apply elem_of_cons in H as [<-|H]; [done|exact H].
Qed.

Lemma clean_parts_up a parts : ".." ∈ a -> ".." ∈ clean_parts false a parts.
Proof. revert a. induction parts as [|p parts IH]; intros a H; [done|]. by apply IH, clean_step_up. Qed.

(** What climbs nowhere does the same above any stack. *)
Lemma clean_parts_above rooted a b parts :
  ~ ".." ∈ clean_parts false a parts -> clean_parts rooted (a ++ b) parts = (clean_parts false a parts ++ b)%list.
Proof.
  revert a. induction parts as [|p parts IH]; intros a H; [done|].
  change (clean_parts rooted (clean_step rooted (a ++ b) p) parts = clean_parts false (clean_step false a p) parts ++ b)%list.
  change (~ ".." ∈ clean_parts false (clean_step false a p) parts) in H.
  rewrite <- (IH _ H). f_equal. unfold clean_step. destruct (_ || _); [done|]. destruct (String.eqb_spec p ".."); [|done].
  destruct a as [|x a]; [|cbn; by case_match].
  exfalso. apply H, clean_parts_up. subst p. by left.
Qed.

(** A component is not empty. *)
Lemma clean_parts_nonempty rooted a parts : Forall (fun x => x <> "") a -> Forall (fun x => x <> "") (clean_parts rooted a parts).
Proof.
  revert a. induction parts as [|p parts IH]; intros a H; [done|]. apply IH. unfold clean_step.
  destruct (String.eqb_spec p ""); [done|]. cbn [orb]. destruct (String.eqb p "."); [done|]. destruct (String.eqb p ".."); [|by constructor].
  destruct a as [|x a]; [destruct rooted; by repeat constructor|]. destruct (String.eqb x ".."); [by constructor|by inversion H].
Qed.

Lemma str_join_nonempty sep x l : x <> "" -> str_join sep (x :: l) <> "".
Proof. intros Hx. destruct l; [done|]. rewrite str_join_cons by done. by destruct x. Qed.

(** The climbing components are at the bottom. *)
Lemma clean_parts_shape parts :
  exists names k, clean_parts false [] parts = (names ++ repeat ".." k)%list /\ ~ ".." ∈ names.
Proof.
  assert (H : forall names k, ~ ".." ∈ names -> exists names' k',
            clean_parts false (names ++ repeat ".." k) parts = (names' ++ repeat ".." k')%list /\ ~ ".." ∈ names');
    [|by apply (H [] 0%nat); intros Hn; inversion Hn].
  induction parts as [|p parts IH]; intros names k Hn; [by exists names, k|]. cbn [clean_parts fold_left].
  assert (Hs : exists names' k', clean_step false (names ++ repeat ".." k) p = (names' ++ repeat ".." k')%list /\ ~ ".." ∈ names').
  { unfold clean_step. destruct (_ || _); [by exists names, k|]. destruct (String.eqb_spec p "..").
    - destruct names as [|x names]; cbn [app].
      + exists [], (S k). split; [|by intros Hx; inversion Hx]. destruct k; [done|cbn; done].
      + destruct (String.eqb_spec x "..") as [->|]; [by destruct Hn; left|]. exists names, k. split; [done|]. intros Hx. apply Hn. by right.
    - exists (p :: names), k. split; [done|]. intros [?|?]%elem_of_cons; [congruence|done]. }
  destruct Hs as (names' & k' & -> & Hn'). by apply IH.
Qed.

Lemma str_join_app sep l m : l <> [] -> m <> [] -> str_join sep (l ++ m) = str_join sep l +:+ sep +:+ str_join sep m.
Proof.
  intros Hl Hm. induction l as [|x l IH]; [done|]. destruct (decide (l = [])) as [->|Hne].
  - cbn [app]. by rewrite str_join_cons.
  - cbn [app]. rewrite !str_join_cons, IH, !string_app_assoc; [done|done|done|by destruct l].
Qed.

Lemma valid_path_parts value :
  ValidRelativePath value = true ->
  let parts := clean_parts false [] (split_on "/" value) in
  ~ ".." ∈ parts /\ parts <> [] /\ Clean value = str_join "/" (rev parts) /\ value <> "".
Proof.
  unfold ValidRelativePath. destruct (String.prefix "/" value) eqn:Hp; [done|]. cbn [orb].
  destruct (_ || _); [done|]. assert (Hc : Clean value =
    let body := str_join "/" (rev (clean_parts false [] (split_on "/" value))) in if String.eqb body "" then "." else body)
    by (unfold Clean; by rewrite Hp).
  intros H. cbn zeta. destruct (clean_parts_shape (split_on "/" value)) as (names & k & Hs & Hn).
  assert (Hv : value <> "") by (by intros ->). destruct (String.eqb_spec (str_join "/" (rev (clean_parts false [] (split_on "/" value)))) "") as [Hb|Hb].
  { rewrite Hc in H. cbn in H. rewrite Hb in H. done. }
  assert (Hc' : Clean value = str_join "/" (rev (clean_parts false [] (split_on "/" value)))).
  { rewrite Hc. cbn zeta. by rewrite (proj2 (String.eqb_neq _ _) Hb). }
  split_and!; [|by intros E; rewrite E in Hb|exact Hc'|exact Hv].
  rewrite Hc', Hs in H. destruct k as [|k]; [by rewrite Hs, app_nil_r|exfalso].
  rewrite rev_app_distr in H.
  assert (Hr : rev (repeat ".." (S k)) = ".." :: repeat ".." k).
  { clear. induction k as [|k IH]; [done|]. change (repeat ".." (S (S k))) with (".." :: repeat ".." (S k)). cbn [rev]. rewrite IH.
    cbn [app]. f_equal. clear. induction k as [|k IH]; [done|]. cbn [repeat app]. by rewrite IH. }
  rewrite Hr in H. cbn [app] in H. destruct (repeat ".." k ++ rev names)%list as [|y l] eqn:El; [done|].
  rewrite str_join_cons in H by done. bools. destruct (str_join "/" (y :: l)); done.
Qed.

(** A path that is accepted stays below every absolute root it is joined to. *)
Theorem valid_path_below root value :
  String.prefix "/" root = true -> ValidRelativePath value = true ->
  JoinPath [root; value] = (if String.eqb (Clean root) "/" then "/" else Clean root +:+ "/") +:+ Clean value.
Proof.
  intros Hroot Hv. destruct (valid_path_parts value Hv) as (Hup & Hne & Hc & Hv0).
  destruct root as [|c root]; [done|]. unfold JoinPath. cbn [List.filter str_nonempty]. destruct value as [|v value]; [done|].
  cbn [List.filter str_nonempty]. rewrite str_join_cons by done. cbn [str_join].
  remember (String v value) as val eqn:Ev. remember (String c root) as r eqn:Er.
  assert (Hp : String.prefix "/" (r +:+ "/" +:+ val) = true).
  { rewrite prefix_iff in *. destruct Hroot as [x ->]. eexists. by rewrite string_app_assoc. }
  unfold Clean at 1 2 3. rewrite Hp, Hroot.
  change ("/" +:+ val) with (String "/" val). rewrite split_on_app. unfold clean_parts at 1. rewrite fold_left_app.
  fold (clean_parts true [] (split_on "/" r)). remember (clean_parts true [] (split_on "/" r)) as b eqn:Eb.
  pose proof (clean_parts_above true [] b (split_on "/" val) Hup) as Ha. cbn [app] in Ha. unfold clean_parts at 1 in Ha. rewrite Ha, rev_app_distr, Hc.
  destruct (decide (b = [])) as [->|Hb]; [done|].
  rewrite str_join_app; [|by intros E; apply Hb; rewrite <- (rev_involutive b), E|by intros E; apply Hne; rewrite <- (rev_involutive (clean_parts _ _ _)), E].
  destruct (String.eqb_spec ("/" +:+ str_join "/" (rev b)) "/") as [E|E]; [|by rewrite !string_app_assoc].
  exfalso.
  injection E as E. destruct (rev b) as [|x l] eqn:Er'; [by apply Hb; rewrite <- (rev_involutive b), Er'|].
  assert (Hx : Forall (fun x => x <> "") (rev b)) by (apply Forall_rev; subst b; by apply clean_parts_nonempty).
  rewrite Er' in Hx. apply Forall_cons in Hx as [Hx _]. by apply (str_join_nonempty "/" x l Hx).
Qed.

(** ** An address names what it says *)

Lemma split_on_join sep s : str_join (String sep EmptyString) (split_on sep s) = s.
Proof.
  induction s as [|c s IH]; [done|]. cbn [split_on]. destruct (Ascii.eqb_spec c sep) as [->|].
  - rewrite str_join_cons, IH; [done|]. apply split_on_nonempty.
  - destruct (split_on sep s) as [|x l] eqn:E; [by destruct (split_on_nonempty sep s)|].
    rewrite <- IH. destruct l as [|y l]; [done|]. done.
Qed.

Lemma ParseExpected_Some reference prefix digest :
  ParseExpectedContentReference reference prefix = Some digest -> reference = prefix +:+ ":sha256:" +:+ digest /\ digest <> "".
Proof.
  unfold ParseExpectedContentReference, ParseContentReference.
  destruct (split_on ":" reference) as [|kind [|alg [|d [|]]]] eqn:Hs; try done.
  destruct (_ || _) eqn:Hc; [done|]. destruct (hex_decode d); [|done]. destruct (_ =? 32)%nat; [|done].
  destruct (String.eqb_spec kind prefix) as [->|]; [|done]. intros [= ->]. bools. subst alg.
  rewrite <- (split_on_join ":" reference), Hs. split; [done|]. by intros ->.
Qed.

Lemma valid_path_below_witness :
  JoinPath ["/srv/export"; "a/../receipts/./r.json"] =
    (if String.eqb (Clean "/srv/export") "/" then "/" else Clean "/srv/export" +:+ "/") +:+ Clean "a/../receipts/./r.json".
Proof. apply (valid_path_below "/srv/export" "a/../receipts/./r.json"); vm_compute; reflexivity. Defined.
