(* ===== verification/EvidenceGraph.v ===== *)
(** The evidence graph ([src/internal/services/compliance/evidence], graph.go and
    graph_report.go).

    Nodes are kept in a map by content address; validation appends failures.  Go ranges
    over a map in any order, another each time: the order of the [i]-th range is an argument.
    The reason of a failure keeps the texts it shows and leaves times out. *)
From S2P Require Import Prelude Errors Sha256 Timestamp TimeParse Evidence.
From Stdlib Require Import String Ascii List ZArith Lia Bool.
From stdpp Require Import base strings list gmap sets relations.
Open Scope string_scope.

Record GraphFailure := { gfCode : gerr; gfSubject : string; gfReason : string }.

Record EvidenceGraph := {
  eg_nodes : gmap string EvidenceNode; eg_byScope : gmap string (list EvidenceNode);
  eg_byType : gmap string (list EvidenceNode); eg_failures : list GraphFailure; eg_freshness : list GraphFailure;
  eg_maxBytes : Z; eg_allowed : list string
}.

Definition NewEvidenceGraph (maxBytes : Z) (allowedMediaTypes : list string) : EvidenceGraph := {|
  eg_nodes := ∅; eg_byScope := ∅; eg_byType := ∅; eg_failures := []; eg_freshness := [];
  eg_maxBytes := maxBytes; eg_allowed := allowedMediaTypes |}.

Definition set_failures (fs : list GraphFailure) (g : EvidenceGraph) : EvidenceGraph := {|
  eg_nodes := eg_nodes g; eg_byScope := eg_byScope g; eg_byType := eg_byType g; eg_failures := fs;
  eg_freshness := eg_freshness g; eg_maxBytes := eg_maxBytes g; eg_allowed := eg_allowed g |}.

Definition set_freshness (fs : list GraphFailure) (g : EvidenceGraph) : EvidenceGraph := {|
  eg_nodes := eg_nodes g; eg_byScope := eg_byScope g; eg_byType := eg_byType g; eg_failures := eg_failures g;
  eg_freshness := fs; eg_maxBytes := eg_maxBytes g; eg_allowed := eg_allowed g |}.

Definition recordFailure (code : gerr) (subject reason : string) (g : EvidenceGraph) : EvidenceGraph :=
  set_failures (eg_failures g ++ [{| gfCode := code; gfSubject := subject; gfReason := reason |}]) g.

Definition recordFreshnessFailure (code : gerr) (subject reason : string) (g : EvidenceGraph) : EvidenceGraph :=
  set_freshness (eg_freshness g ++ [{| gfCode := code; gfSubject := subject; gfReason := reason |}]) g.

(** ** Adding *)

Definition sameScopeBinding (a b : EvidenceNode) : bool :=
  String.eqb (enScopeID a) (enScopeID b) && String.eqb (enRunID a) (enRunID b) && String.eqb (enAttemptID a) (enAttemptID b) &&
  String.eqb (enScenarioID a) (enScenarioID b) && String.eqb (enTransactionID a) (enTransactionID b).

Definition bucket {A} (k : string) (x : A) (m : gmap string (list A)) : gmap string (list A) :=
  <[k := (default [] (m !! k) ++ [x])%list]> m.

Definition insert_node (node : EvidenceNode) (g : EvidenceGraph) : EvidenceGraph := {|
  eg_nodes := <[enArtifactID node := node]> (eg_nodes g);
  eg_byScope := bucket (enScopeID node) node (eg_byScope g);
  eg_byType := bucket (enArtifactType node) node (eg_byType g);
  eg_failures := eg_failures g; eg_freshness := eg_freshness g; eg_maxBytes := eg_maxBytes g; eg_allowed := eg_allowed g |}.

(** A node is refused: the error is recorded and returned. *)
Definition refuse (e : gerr) (subject reason : string) (g : EvidenceGraph) : result unit * EvidenceGraph :=
  (Err e, recordFailure e subject reason g).

Definition AddNode (node : EvidenceNode) (g : EvidenceGraph) : result unit * EvidenceGraph :=
  let id := enArtifactID node in
  if String.eqb id ""
  then refuse (Errorf "%w: empty artifact ID" [Sentinel "ErrEvidenceArtifactMalformed"]) "" "artifact ID is empty" g
  else if String.eqb (enSHA256 node) ""
  then refuse (Errorf "%w: %s: empty SHA-256" [Sentinel "ErrEvidenceArtifactMalformed"]) id "SHA-256 digest is empty" g
  else if String.eqb (enScopeID node) ""
  then refuse (Errorf "%w: %s: empty scope ID" [Sentinel "ErrEvidenceScopeMismatch"]) id "scope ID is empty" g
  else if (0 <? eg_maxBytes g)%Z && (eg_maxBytes g <? Z.of_nat (String.length (enCanonicalBytes node)))%Z
  then refuse (Errorf "%w: %s: %d bytes exceeds limit %d" [Sentinel "ErrEvidenceArtifactTooLarge"]) id
         "artifact exceeds size limit" g
  else if negb (match eg_allowed g with [] => true | _ => false end) && negb (String.eqb (enMediaType node) "") &&
          negb (mem (enMediaType node) (eg_allowed g))
  then refuse (Errorf "%w: %s: %s" [Sentinel "ErrEvidenceMediaTypeUnsupported"]) id "media type is not in the allowed set" g
  else if negb (String.eqb (enBundlePath node) "") && negb (ValidRelativePath (enBundlePath node))
  then refuse (Errorf "%w: %s: %s" [Sentinel "ErrPathValidation"]) id
         "bundle path contains traversal or absolute components" g
  else
    match eg_nodes g !! id with
    | Some existing =>
        if negb (String.eqb (enSHA256 existing) (enSHA256 node))
        then refuse (Errorf "%w: %s: existing %s vs new %s" [Sentinel "ErrEvidenceDuplicateContent"]) id
               "duplicate artifact ID with conflicting content digest" g
        else if negb (sameScopeBinding existing node)
        then refuse (Errorf "%w: %s" [Sentinel "ErrEvidenceScopeMismatch"]) id
               "duplicate artifact ID with conflicting authoritative binding" g
        else (Ok tt, g)
    | None => (Ok tt, insert_node node g)
    end.

(** ** Validation *)

(** A range over the nodes: [f] is the loop's body, [order] the order of the nodes. *)
Definition each_node (f : EvidenceNode -> EvidenceGraph -> EvidenceGraph) (order : list EvidenceNode) (g : EvidenceGraph)
    : EvidenceGraph := fold_left (fun g n => f n g) order g.

Definition VerifyDigests (order : list EvidenceNode) (g : EvidenceGraph) : EvidenceGraph :=
  each_node (fun node g =>
    if String.eqb (enCanonicalBytes node) "" then g
    else
      let actual := sha256_hex (enCanonicalBytes node) in
      if String.eqb actual (enSHA256 node) then g
      else recordFailure (Sentinel "ErrChecksumMismatch") (enArtifactID node)
             ("digest mismatch: declared " +:+ enSHA256 node +:+ " vs computed " +:+ actual) g) order g.

Definition ResolveReferences (order : list EvidenceNode) (g : EvidenceGraph) : EvidenceGraph :=
  each_node (fun node g =>
    fold_left (fun g ref =>
      match eg_nodes g !! ref with
      | Some _ => g
      | None => recordFailure (Sentinel "ErrUnresolvedReference") (enArtifactID node)
                  ("reference " +:+ ref +:+ " is not in the graph") g
      end) (enReferences node) g) order g.

Definition ValidateTrust (order : list EvidenceNode) (g : EvidenceGraph) : EvidenceGraph :=
  each_node (fun node g =>
    let g := if bool_decide (enVerificationStatus node = StatusVerified) &&
                (String.eqb (enVerifierID node) "" || String.eqb (enVerifierVersion node) "")
             then recordFailure (Sentinel "ErrEvidenceTrustNotAssessed") (enArtifactID node)
                    "verified node lacks verifier identity or version" g
             else g in
    if String.eqb (enProducerIdentity node) ""
    then recordFailure (Sentinel "ErrEvidenceProducerUnverified") (enArtifactID node) "producer identity is empty" g
    else g) order g.

Definition encryption_incomplete (node : EvidenceNode) : bool :=
  match enEncryption node with
  | None => false
  | Some em => String.eqb (emAlgorithm em) "" || String.eqb (emKeyID em) "" || String.eqb (emAuthorizationScope em) "" ||
               String.eqb (emPlaintextSHA256 em) "" || String.eqb (emAuthenticatedMetadataSHA256 em) ""
  end.

Definition ValidateEncryption (order : list EvidenceNode) (g : EvidenceGraph) : EvidenceGraph :=
  each_node (fun node g =>
    if encryption_incomplete node
    then recordFailure (Sentinel "ErrEvidenceEncryptionInvalid") (enArtifactID node) "encryption metadata is incomplete" g
    else g) order g.

(** [IsZero] of a window's end switches it off. *)
Definition ValidateFreshness (windowStart windowEnd : gotime) (order : list EvidenceNode) (g : EvidenceGraph)
    : EvidenceGraph :=
  each_node (fun node g =>
    if (enProducedAt node =? zero_time)%Z
    then recordFreshnessFailure (Sentinel "ErrStaleEvidence") (enArtifactID node) "produced-at timestamp is missing" g
    else
      let g := if negb (windowStart =? zero_time)%Z && (enProducedAt node <? windowStart)%Z
               then recordFreshnessFailure (Sentinel "ErrStaleEvidence") (enArtifactID node) "produced at %s before window start %s" g
               else g in
      if negb (windowEnd =? zero_time)%Z && (windowEnd <? enProducedAt node)%Z
      then recordFreshnessFailure (Sentinel "ErrStaleEvidence") (enArtifactID node) "produced at %s after window end %s" g
      else g) order g.

(** *** Occurrences *)

Record transactionBinding := { tbRunID : string; tbAttemptID : string; tbScenarioID : string }.

Definition conflictingOccurrenceValue (existing current : string) : bool :=
  negb (String.eqb existing "") && negb (String.eqb current "") && negb (String.eqb existing current).

Definition fill (existing current : string) : string := if String.eqb existing "" then current else existing.

Definition mergeTransactionBinding (existing current : transactionBinding) : transactionBinding := {|
  tbRunID := fill (tbRunID existing) (tbRunID current); tbAttemptID := fill (tbAttemptID existing) (tbAttemptID current);
  tbScenarioID := fill (tbScenarioID existing) (tbScenarioID current) |}.

Definition conflicting_binding (existing binding : transactionBinding) : bool :=
  conflictingOccurrenceValue (tbRunID existing) (tbRunID binding) ||
  conflictingOccurrenceValue (tbAttemptID existing) (tbAttemptID binding) ||
  conflictingOccurrenceValue (tbScenarioID existing) (tbScenarioID binding).

Definition node_binding (node : EvidenceNode) : transactionBinding := {|
  tbRunID := enRunID node; tbAttemptID := enAttemptID node; tbScenarioID := enScenarioID node |}.

(** A key's first value stands; a later one that differs is a failure. *)
Definition note_first (code_reason : string -> string) (node : EvidenceNode) (key : string * string) (value : string)
    (st : gmap (string * string) string * EvidenceGraph) : gmap (string * string) string * EvidenceGraph :=
  match st.1 !! key with
  | Some existing =>
      if String.eqb existing value then st
      else (st.1, recordFailure (Sentinel "ErrEvidenceScopeMismatch") (enArtifactID node) (code_reason existing) st.2)
  | None => (<[key := value]> st.1, st.2)
  end.

Definition scope_run (node : EvidenceNode) (st : gmap (string * string) string * EvidenceGraph) :=
  if String.eqb (enRunID node) "" then st
  else note_first (fun existing => "source " +:+ enSourceAdmissionID node +:+ " run " +:+ enRunID node +:+
                                   " has conflicting scopes " +:+ existing +:+ " vs " +:+ enScopeID node)
         node (enSourceAdmissionID node, enRunID node) (enScopeID node) st.

Definition scope_attempt (node : EvidenceNode) (st : gmap (string * string) string * EvidenceGraph) :=
  if String.eqb (enAttemptID node) "" then st
  else note_first (fun existing => "source " +:+ enSourceAdmissionID node +:+ " attempt " +:+ enAttemptID node +:+
                                   " has conflicting runs " +:+ existing +:+ " vs " +:+ enRunID node)
         node (enSourceAdmissionID node, enAttemptID node) (enRunID node) st.

Definition scope_transaction (node : EvidenceNode) (st : gmap (string * string) transactionBinding * EvidenceGraph) :=
  if String.eqb (enTransactionID node) "" then st
  else
    let key := (enSourceAdmissionID node, enTransactionID node) in
    match st.1 !! key with
    | Some existing =>
        if conflicting_binding existing (node_binding node)
        then (st.1, recordFailure (Sentinel "ErrEvidenceScopeMismatch") (enArtifactID node)
                      ("source " +:+ enSourceAdmissionID node +:+ " transaction " +:+ enTransactionID node +:+
                       " has conflicting occurrence binding") st.2)
        else (<[key := mergeTransactionBinding existing (node_binding node)]> st.1, st.2)
    | None => (<[key := node_binding node]> st.1, st.2)
    end.

Record occurrences := {
  oc_runs : gmap (string * string) string; oc_attempts : gmap (string * string) string;
  oc_transactions : gmap (string * string) transactionBinding
}.

Definition scope_node (st : occurrences * EvidenceGraph) (node : EvidenceNode) : occurrences * EvidenceGraph :=
  let '(runs, g) := scope_run node (oc_runs st.1, st.2) in
  let '(attempts, g) := scope_attempt node (oc_attempts st.1, g) in
  let '(transactions, g) := scope_transaction node (oc_transactions st.1, g) in
  ({| oc_runs := runs; oc_attempts := attempts; oc_transactions := transactions |}, g).

Definition ValidateScopeBinding (order : list EvidenceNode) (g : EvidenceGraph) : EvidenceGraph :=
  (fold_left scope_node order ({| oc_runs := ∅; oc_attempts := ∅; oc_transactions := ∅ |}, g)).2.

(** *** Cycles *)

(** [visited]: 1 while a node is on the path, 2 when it is finished. *)
Inductive mark := OnPath | Finished.
Definition dfs_state : Type := gmap string mark * list GraphFailure.

Fixpoint fold_opt {A S} (f : S -> A -> option S) (l : list A) (s : S) : option S :=
  match l with
  | [] => Some s
  | a :: l => match f s a with Some s => fold_opt f l s | None => None end
  end.

Definition cycle_failure (path : list string) (id : string) : GraphFailure := {|
  gfCode := Sentinel "ErrEvidenceCycleDetected"; gfSubject := id;
  gfReason := "reference cycle: " +:+ str_join " -> " (path ++ [id]) |}.

(** The recursion; the fuel bounds its depth. *)
Fixpoint dfs (nodes : gmap string EvidenceNode) (fuel : nat) (id : string) (path : list string) (st : dfs_state)
    : option dfs_state :=
  match fuel with
  | O => None
  | S fuel =>
      match st.1 !! id with
      | Some OnPath => Some (st.1, st.2 ++ [cycle_failure path id])%list
      | Some Finished => Some st
      | None =>
          match nodes !! id with
          | None => Some (<[id := Finished]> st.1, st.2)
          | Some node =>
              match fold_opt (fun (st : dfs_state) ref => dfs nodes fuel ref (path ++ [id])%list st) (enReferences node)
                      (<[id := OnPath]> st.1, st.2) with
              | Some st => Some (<[id := Finished]> st.1, st.2)
              | None => None
              end
          end
      end
  end.

(** The depth never exceeds the number of nodes by more than one. *)
Definition DetectCycles (order : list string) (g : EvidenceGraph) : option EvidenceGraph :=
  match fold_opt (fun (st : dfs_state) id => match st.1 !! id with
                               | None => dfs (eg_nodes g) (S (size (eg_nodes g))) id [] st
                               | Some _ => Some st
                               end) order (∅, eg_failures g) with
  | Some st => Some (set_failures st.2 g)
  | None => None
  end.

(** ** Building *)

Section build.
(** The pairs a range over the map yields, the [i]-th time. *)
Context (range : nat -> gmap string EvidenceNode -> list (string * EvidenceNode)).

Definition ValidateAll (windowStart windowEnd : gotime) (g : EvidenceGraph) : option EvidenceGraph :=
  let nodes i g := (range i (eg_nodes g)).*2 in
  let g := VerifyDigests (nodes 0%nat g) g in
  let g := ValidateScopeBinding (nodes 1%nat g) g in
  let g := ResolveReferences (nodes 2%nat g) g in
  match DetectCycles (range 3 (eg_nodes g)).*1 g with
  | None => None
  | Some g =>
      let g := ValidateTrust (nodes 4%nat g) g in
      let g := ValidateEncryption (nodes 5%nat g) g in
      Some (ValidateFreshness windowStart windowEnd (nodes 6%nat g) g)
  end.

(** [RunBoundImporter] is the interface of the importers that have a run. *)
Record EvidenceImporter := { imImport : result (list EvidenceNode); imSourceID : string; imRunID : option string }.

Record ImporterError := { ieSourceID : string; ieRunID : string; ieError : gerr }.

Record EvidenceGraphReport := {
  rpValid : bool; rpNodeCount : nat; rpNodesByType : gmap string nat; rpNodesByScope : gmap string nat;
  rpFailures : list GraphFailure; rpFreshnessFailures : list GraphFailure; rpImporterErrors : list ImporterError;
  rpVerifiedAt : gotime
}.

Definition add_nodes (nodes : list EvidenceNode) (g : EvidenceGraph) : EvidenceGraph :=
  fold_left (fun g node => (AddNode node g).2) nodes g.

(** The loop over the importers; a nil one is skipped. *)
Fixpoint import_all (importers : list (option EvidenceImporter)) (g : EvidenceGraph) (errs : list ImporterError)
    : EvidenceGraph * list ImporterError :=
  match importers with
  | [] => (g, errs)
  | None :: importers => import_all importers g errs
  | Some im :: importers =>
      match imImport im with
      | Err e => import_all importers g
                   (errs ++ [{| ieSourceID := imSourceID im; ieRunID := default "" (imRunID im); ieError := e |}])
      | Ok nodes => import_all importers (add_nodes nodes g) errs
      end
  end.

Definition Valid (g : EvidenceGraph) : bool := match eg_failures g with [] => true | _ => false end.
Definition EvidenceGraphMaxBytes : Z := 64 * 2 ^ 20.

Definition BuildAndValidateGraph (importers : list (option EvidenceImporter)) (windowStart windowEnd verifiedAt : gotime)
    : option (EvidenceGraph * EvidenceGraphReport) :=
  let '(g, errs) := import_all importers (NewEvidenceGraph EvidenceGraphMaxBytes []) [] in
  match ValidateAll windowStart windowEnd g with
  | None => None
  | Some g =>
      Some (g, {| rpValid := Valid g && match errs with [] => true | _ => false end;
                  rpNodeCount := size (eg_nodes g); rpNodesByType := List.length <$> eg_byType g;
                  rpNodesByScope := List.length <$> eg_byScope g; rpFailures := eg_failures g;
                  rpFreshnessFailures := eg_freshness g; rpImporterErrors := errs; rpVerifiedAt := verifiedAt |})
  end.
End build.

(** ** Depth-first search *)

Section search.
Context (nodes : gmap string EvidenceNode).

(** [a] is in the graph and names [b]. *)
Definition refers (a b : string) : Prop := exists n, nodes !! a = Some n /\ b ∈ enReferences n.
Definition cyclic (a : string) : Prop := tc refers a a.

(** Nothing infinite starts at a finished node. *)
Definition settled (v : gmap string mark) : Prop := forall x, v !! x = Some Finished -> Acc (flip refers) x.

Lemma settled_acyclic x : Acc (flip refers) x -> ~ cyclic x.
Proof.
  induction 1 as [x _ IH]. intros Hc. unfold cyclic in Hc.
  inversion Hc as [? ? Hr|? y ? Hr Ht]; subst; [by apply (IH x Hr), tc_once|].
  apply (IH y Hr). unfold cyclic. eapply tc_r; [exact Ht|exact Hr].
Qed.

Definition unseen (v : gmap string mark) : nat := size (dom nodes ∖ dom v).

(** What a call keeps of the marks it was given. *)
Record kept (v v' : gmap string mark) : Prop := {
  kept_path : forall x, v' !! x = Some OnPath <-> v !! x = Some OnPath;
  kept_finished : forall x, v !! x = Some Finished -> v' !! x = Some Finished
}.

Lemma kept_refl v : kept v v.
Proof. by split. Qed.

Lemma kept_trans v1 v2 v3 : kept v1 v2 -> kept v2 v3 -> kept v1 v3.
Proof. intros [H1 H2] [H3 H4]. split; [intros x; by rewrite H3|auto]. Qed.

Lemma kept_unseen v v' : kept v v' -> (unseen v' <= unseen v)%nat.
Proof.
  intros [H1 H2]. unfold unseen. apply subseteq_size. intros x [Hx Hv]%elem_of_difference. apply elem_of_difference. split; [done|].
  intros [[] Hm]%elem_of_dom; apply Hv, elem_of_dom; [exists OnPath; by apply H1|exists Finished; auto].
Qed.

Lemma unseen_insert v x n m : nodes !! x = Some n -> v !! x = None -> (unseen (<[x := m]> v) < unseen v)%nat.
Proof.
  intros Hn Hv. unfold unseen. apply subset_size. rewrite dom_insert_L. split; [set_solver|]. intros H.
  assert (Hx : x ∈ dom nodes ∖ dom v).
  { apply elem_of_difference. split; [apply elem_of_dom; by exists n|]. by apply not_elem_of_dom. }
  specialize (H x Hx). set_solver.
Qed.

(** What a search from [id] does. *)
Definition found (v : gmap string mark) (fs : list GraphFailure) (id : string) (r : option dfs_state) : Prop :=
  exists v' new, r = Some (v', fs ++ new)%list /\ kept v v' /\ Forall (fun f => cyclic (gfSubject f)) new /\
    (new = [] -> settled v -> settled v' /\ v' !! id = Some Finished).

(** The path leads to [id]. *)
Definition leads (v : gmap string mark) (id : string) : Prop := forall x, v !! x = Some OnPath -> tc refers x id.

Lemma fold_search (f : dfs_state -> string -> option dfs_state) refs v fs :
  (forall v' fs' ref, ref ∈ refs -> kept v v' -> found v' fs' ref (f (v', fs') ref)) ->
  exists v' new, fold_opt f refs (v, fs) = Some (v', fs ++ new)%list /\ kept v v' /\
    Forall (fun f => cyclic (gfSubject f)) new /\
    (new = [] -> settled v -> settled v' /\ forall ref, ref ∈ refs -> v' !! ref = Some Finished).
Proof.
  revert v fs. induction refs as [|ref refs IH]; intros v fs Hf; cbn [fold_opt].
  { exists v, []. rewrite app_nil_r. split_and!; [done|apply kept_refl|constructor|]. intros _ Hs. split; [done|set_solver]. }
  destruct (Hf v fs ref ltac:(by left) (kept_refl v)) as (v1 & new1 & -> & Hk1 & Hc1 & Hs1).
  destruct (IH v1 (fs ++ new1)%list) as (v2 & new2 & -> & Hk2 & Hc2 & Hs2).
  { intros v' fs' r Hr Hk. apply Hf; [by right|by eapply kept_trans]. }
  exists v2, (new1 ++ new2)%list. rewrite app_assoc. split_and!; [done|by eapply kept_trans|by apply Forall_app|].
  intros [-> ->]%app_eq_nil Hs. destruct (Hs1 eq_refl Hs) as [Hs' Hd]. destruct (Hs2 eq_refl Hs') as [Hs'' Hds].
  split; [done|]. intros r [->|Hr]%elem_of_cons; [by apply (kept_finished _ _ Hk2)|by apply Hds].
Qed.

Lemma dfs_spec fuel id path v fs :
  (unseen v < fuel)%nat -> leads v id -> found v fs id (dfs nodes fuel id path (v, fs)).
Proof.
  revert id path v fs. induction fuel as [|fuel IH]; intros id path v fs Hfuel Hl; [lia|]. cbn [dfs fst snd].
  destruct (v !! id) as [[]|] eqn:Hv.
  - exists v, [cycle_failure path id]. split_and!; [done|apply kept_refl| |done]. constructor; [by apply Hl|constructor].
  - exists v, []. rewrite app_nil_r. split_and!; [done|apply kept_refl|constructor|done].
  - destruct (nodes !! id) as [n|] eqn:Hn.
    + destruct (fold_search (fun (st : dfs_state) ref => dfs nodes fuel ref (path ++ [id])%list st) (enReferences n) (<[id:=OnPath]> v) fs)
        as (v1 & new & -> & Hk & Hc & Hs).
      { intros v' fs' ref Hr Hk. apply IH.
        - pose proof (kept_unseen _ _ Hk). pose proof (unseen_insert v id n OnPath Hn Hv). lia.
        - intros x Hx. apply (kept_path _ _ Hk) in Hx. assert (Hid : refers id ref) by (by exists n).
          destruct (decide (x = id)) as [->|Hne]; [by apply tc_once|]. rewrite lookup_insert_ne in Hx by done.
          eapply tc_r; [by apply Hl|done]. }
      exists (<[id:=Finished]> v1), new. split_and!; [done| |done|].
      * split; intros x; (destruct (decide (x = id)) as [->|Hne]; [rewrite lookup_insert, decide_True by done; split || idtac; congruence|]);
          rewrite lookup_insert_ne by done.
        -- rewrite (kept_path _ _ Hk), lookup_insert_ne; done.
        -- intros Hx. apply (kept_finished _ _ Hk). by rewrite lookup_insert_ne.
      * intros Hnew Hset. destruct (Hs Hnew) as [Hset1 Hd].
        { intros x. destruct (decide (x = id)) as [->|Hne]; [by rewrite lookup_insert, decide_True|]. rewrite lookup_insert_ne by done. apply Hset. }
        split; [|by rewrite lookup_insert, decide_True]. intros x. destruct (decide (x = id)) as [->|Hne].
        -- intros _. constructor. intros y (n' & Hn' & Hy). apply Hset1, Hd. congruence.
        -- rewrite lookup_insert_ne by done. apply Hset1.
    + exists (<[id:=Finished]> v), []. rewrite app_nil_r. split_and!; [done| |constructor|].
      * split; intros x; (destruct (decide (x = id)) as [->|Hne]; [rewrite lookup_insert, decide_True by done; split || idtac; congruence|]);
          by rewrite lookup_insert_ne.
      * intros _ Hset. split; [|by rewrite lookup_insert, decide_True]. intros x. destruct (decide (x = id)) as [->|Hne].
        -- intros _. constructor. intros y (n' & Hn' & _). congruence.
        -- rewrite lookup_insert_ne by done. apply Hset.
Qed.
End search.

Lemma DetectCycles_spec order g :
  exists new, DetectCycles order g = Some (set_failures (eg_failures g ++ new)%list g) /\
    Forall (fun f => cyclic (eg_nodes g) (gfSubject f)) new /\
    (new = [] -> forall id, id ∈ order -> ~ cyclic (eg_nodes g) id).
Proof.
  unfold DetectCycles.
  destruct (fold_search (eg_nodes g) (fun (st : dfs_state) id => match st.1 !! id with
              | None => dfs (eg_nodes g) (S (size (eg_nodes g))) id [] st | Some _ => Some st end) order ∅ (eg_failures g))
    as (v & new & -> & _ & Hc & Hs).
  { intros v fs id _ Hk. assert (Hp : forall x, v !! x <> Some OnPath) by (intros x Hx; apply (kept_path _ _ Hk) in Hx; by rewrite lookup_empty in Hx).
    cbn [fst]. destruct (v !! id) as [[]|] eqn:Hv; [by destruct (Hp id)| |].
    - exists v, []. rewrite app_nil_r. split_and!; [done|apply kept_refl|constructor|done].
    - apply dfs_spec.
      + unfold unseen. rewrite <- (size_dom (eg_nodes g) (D := gset string)). apply Nat.lt_succ_r, subseteq_size. set_solver.
      + intros x Hx. by destruct (Hp x). }
  exists new. split_and!; [done|done|]. intros Hn id Hid. destruct (Hs Hn) as [Hset Hd].
  - intros x Hx. by rewrite lookup_empty in Hx.
  - by apply settled_acyclic, Hset, Hd.
Qed.

(** C28: The search ends and is exact: ranging over the nodes in any order it reports a
    failure if and only if some node refers to itself along some path, and every failure it
    reports is at a node that does. *)
Theorem cycles_detected order g :
  order ≡ₚ (map_to_list (eg_nodes g)).*1 ->
  exists new, DetectCycles order g = Some (set_failures (eg_failures g ++ new)%list g) /\
    Forall (fun f => cyclic (eg_nodes g) (gfSubject f)) new /\
    (new <> [] <-> exists id, cyclic (eg_nodes g) id).
Proof.
  intros Ho. destruct (DetectCycles_spec order g) as (new & Hd & Hc & Hn). exists new. split_and!; [done|done|]. split.
  - intros Hne. destruct new as [|f new]; [done|]. inversion Hc; subst. by eexists.
  - intros [id Hid] ->. apply (Hn eq_refl id); [|exact Hid].
    assert (Hk : is_Some (eg_nodes g !! id)).
    { clear -Hid. unfold cyclic in Hid. inversion Hid as [? ? (n & Hx & _)|? y ? (n & Hx & _) _]; subst; by exists n. }
    destruct Hk as [n Hk]. rewrite Ho. apply list_elem_of_fmap. exists (id, n). split; [done|by apply elem_of_map_to_list].
Qed.

(** ** The other checks *)

(** [g'] is [g] with failures appended, none exactly when [P]. *)
Definition reports (P : Prop) (g g' : EvidenceGraph) : Prop :=
  exists new, g' = set_failures (eg_failures g ++ new)%list g /\ (new = [] <-> P).

Lemma reports_none (P : Prop) g : P -> reports P g g.
Proof. intros HP. exists []. rewrite app_nil_r. by destruct g. Qed.

Lemma reports_one (P : Prop) code subject reason g : ~ P -> reports P g (recordFailure code subject reason g).
Proof. intros HP. eexists. by split; [reflexivity|]. Qed.

Lemma reports_trans P Q g g1 g2 : reports P g g1 -> reports Q g1 g2 -> reports (P /\ Q) g g2.
Proof.
  intros (n1 & -> & H1) (n2 & -> & H2). exists (n1 ++ n2)%list. split; [by rewrite app_assoc|]. rewrite app_nil. by rewrite H1, H2.
Qed.

Lemma reports_iff (P Q : Prop) g g' : (P <-> Q) -> reports P g g' -> reports Q g g'.
Proof. intros HPQ (n & -> & H). exists n. by rewrite H, HPQ. Qed.

Lemma reports_nodes P g g' : reports P g g' -> eg_nodes g' = eg_nodes g.
Proof. by intros (n & -> & _). Qed.

Lemma fold_reports {A} (f : EvidenceGraph -> A -> EvidenceGraph) (P : A -> Prop) l g :
  (forall a g', a ∈ l -> eg_nodes g' = eg_nodes g -> reports (P a) g' (f g' a)) -> reports (Forall P l) g (fold_left f l g).
Proof.
  revert g. induction l as [|a l IH]; intros g Hf; [by apply reports_none|]. cbn [fold_left].
  pose proof (Hf a g ltac:(by left) eq_refl) as Ha.
  eapply reports_iff; [symmetry; apply Forall_cons|]. eapply reports_trans; [exact Ha|]. apply IH.
  intros a' g' Hin Hg. apply Hf; [by right|]. rewrite Hg. by apply (reports_nodes _ _ _ Ha).
Qed.

Definition digest_ok (n : EvidenceNode) : Prop := enCanonicalBytes n = "" \/ sha256_hex (enCanonicalBytes n) = enSHA256 n.

Definition trusted (n : EvidenceNode) : Prop :=
  (enVerificationStatus n = StatusVerified -> enVerifierID n <> "" /\ enVerifierVersion n <> "") /\ enProducerIdentity n <> "".

Lemma VerifyDigests_reports order g : reports (Forall digest_ok order) g (VerifyDigests order g).
Proof.
  apply fold_reports. intros n g' _ _. unfold digest_ok. destruct (String.eqb_spec (enCanonicalBytes n) ""); [by apply reports_none; left|].
  cbn zeta. destruct (String.eqb_spec (sha256_hex (enCanonicalBytes n)) (enSHA256 n)); [by apply reports_none; right|].
  apply reports_one. naive_solver.
Qed.

Lemma ResolveReferences_reports order g :
  reports (Forall (fun n => Forall (fun ref => is_Some (eg_nodes g !! ref)) (enReferences n)) order) g (ResolveReferences order g).
Proof.
  apply fold_reports. intros n g1 _ H1. apply fold_reports. intros ref g2 _ H2. rewrite H2, H1.
  destruct (eg_nodes g !! ref); [by apply reports_none|]. apply reports_one. by intros [].
Qed.

Lemma ValidateTrust_reports order g : reports (Forall trusted order) g (ValidateTrust order g).
Proof.
  apply fold_reports. intros n g' _ _. unfold trusted. cbn zeta. eapply reports_trans.
  2: { destruct (String.eqb_spec (enProducerIdentity n) ""); [apply reports_one; naive_solver|by apply reports_none]. }
  case_bool_decide as Hv; cbn [andb]; [|by apply reports_none].
  destruct (String.eqb_spec (enVerifierID n) "") as [He|He]; cbn [orb]; [apply reports_one; intros H; by destruct (H Hv)|].
  destruct (String.eqb_spec (enVerifierVersion n) ""); [apply reports_one; intros H; by destruct (H Hv)|by apply reports_none].
Qed.

Lemma ValidateEncryption_reports order g :
  reports (Forall (fun n => encryption_incomplete n = false) order) g (ValidateEncryption order g).
Proof.
  apply fold_reports. intros n g' _ _. destruct (encryption_incomplete n); [by apply reports_one|by apply reports_none].
Qed.

Lemma ValidateFreshness_only a b order g :
  exists fs, ValidateFreshness a b order g = set_freshness fs g.
Proof.
  unfold ValidateFreshness, each_node. revert g. induction order as [|n order IH]; intros g; cbn [fold_left].
  - exists (eg_freshness g). by destruct g.
  - edestruct IH as [fs ->]. exists fs. repeat case_match; reflexivity.
Qed.

(** ** Occurrences do not conflict *)

(** Nodes of one run of a source have one scope; of one attempt, one run; of one
    transaction, no two known coordinates that differ. *)
Definition runs_agree (a b : EvidenceNode) : Prop :=
  enRunID a <> "" -> enSourceAdmissionID a = enSourceAdmissionID b -> enRunID a = enRunID b -> enScopeID a = enScopeID b.
Definition attempts_agree (a b : EvidenceNode) : Prop :=
  enAttemptID a <> "" -> enSourceAdmissionID a = enSourceAdmissionID b -> enAttemptID a = enAttemptID b -> enRunID a = enRunID b.
Definition transactions_agree (a b : EvidenceNode) : Prop :=
  enTransactionID a <> "" -> enSourceAdmissionID a = enSourceAdmissionID b -> enTransactionID a = enTransactionID b ->
  conflicting_binding (node_binding a) (node_binding b) = false.

Definition pairwise (R : EvidenceNode -> EvidenceNode -> Prop) (l : list EvidenceNode) : Prop :=
  forall a b, a ∈ l -> b ∈ l -> R a b.

(** A step over a table of its own reports exactly the first conflict: [I c m l] holds of
    the table [m] after the nodes [l], of which none was reported when [c]. *)
Definition tracks {M} (step : EvidenceNode -> M * EvidenceGraph -> M * EvidenceGraph) (m0 : M)
    (R : EvidenceNode -> EvidenceNode -> Prop) : Prop :=
  exists I : Prop -> M -> list EvidenceNode -> Prop,
    I True m0 [] /\
    (forall c m l n g, I c m l -> exists m' new,
       step n (m, g) = (m', set_failures (eg_failures g ++ new)%list g) /\ I (c /\ new = []) m' (l ++ [n])%list /\
       (pairwise R (l ++ [n])%list -> new = [])) /\
    (forall (c : Prop) m l, c -> I c m l -> pairwise R l).

Lemma set_failures_same g : set_failures (eg_failures g ++ [])%list g = g.
Proof. rewrite app_nil_r. by destruct g. Qed.

Lemma tracks_note_first reason (skip : EvidenceNode -> bool) (key : EvidenceNode -> string * string) (value : EvidenceNode -> string) :
  tracks (fun n (st : gmap (string * string) string * EvidenceGraph) =>
            if skip n then st else note_first (reason n) n (key n) (value n) st) ∅
    (fun a b => skip a = false -> skip b = false -> key a = key b -> value a = value b).
Proof.
  exists (fun (c : Prop) m l => (forall k v, m !! k = Some v -> exists n, n ∈ l /\ skip n = false /\ key n = k /\ value n = v) /\
                      (c -> forall n, n ∈ l -> skip n = false -> m !! key n = Some (value n))).
  split; [|split].
  - split; [intros k v H; by rewrite lookup_empty in H|]. intros _ n H. inversion H.
  - intros c m l n g [Hf Hc]. unfold note_first. cbn [fst snd]. destruct (skip n) eqn:Hs.
    { exists m, []. rewrite set_failures_same. split_and!; [done| | |done].
      - intros k v H. destruct (Hf k v H) as (n' & ? & ?). exists n'. set_solver.
      - intros [Hc' _] n' [Hn'| ->%list_elem_of_singleton]%elem_of_app Hs'; [auto|congruence]. }
    destruct (m !! key n) as [v|] eqn:Hm; [destruct (String.eqb_spec v (value n)) as [->|Hne]|].
    + exists m, []. rewrite set_failures_same. split_and!; [done| | |done].
      * intros k v H. destruct (Hf k v H) as (n' & ? & ?). exists n'. set_solver.
      * intros [Hc' _] n' [Hn'| ->%list_elem_of_singleton]%elem_of_app Hs'; [auto|done].
    + exists m. eexists. split_and!; [reflexivity| | |].
      * intros k w H. destruct (Hf k w H) as (n' & ? & ?). exists n'. set_solver.
      * by intros [_ ?].
      * intros HR. destruct (Hf _ _ Hm) as (n' & Hin & Hs' & Hk & Hv). exfalso. apply Hne. rewrite <- Hv.
        apply HR; [set_solver..|done|done|done].
    + exists (<[key n := value n]> m), []. rewrite set_failures_same. split_and!; [done| | |done].
      * intros k w. destruct (decide (k = key n)) as [->|Hne].
        -- rewrite lookup_insert, decide_True by done. intros [= <-]. exists n. set_solver.
        -- rewrite lookup_insert_ne by done. intros H. destruct (Hf k w H) as (n' & ? & ?). exists n'. set_solver.
      * intros [Hc' _] n' [Hn'| ->%list_elem_of_singleton]%elem_of_app Hs'; [|by rewrite lookup_insert, decide_True].
        destruct (decide (key n' = key n)) as [E|Hne]; [|rewrite lookup_insert_ne by done; auto].
        rewrite E in *. specialize (Hc Hc' n' Hn' Hs'). rewrite E in Hc. congruence.
  - intros c m l Hcl [_ Hc] a b Ha Hb Hsa Hsb Hk. pose proof (Hc Hcl a Ha Hsa). pose proof (Hc Hcl b Hb Hsb). congruence.
Qed.

Lemma tracks_iff {M} step step' (m0 : M) (R R' : EvidenceNode -> EvidenceNode -> Prop) :
  (forall n st, step n st = step' n st) -> (forall a b, R a b <-> R' a b) -> tracks step m0 R -> tracks step' m0 R'.
Proof.
  intros Hs HR (I & H0 & H1 & H2).
  assert (Hp : forall l, pairwise R l <-> pairwise R' l) by (intros l; unfold pairwise; split; intros H a b Ha Hb; apply HR; auto).
  exists I. split; [done|split].
  - intros c m l n g HI. destruct (H1 c m l n g HI) as (m' & new & Hst & HI' & Hn). exists m', new.
    rewrite <- Hs, <- Hp. done.
  - intros c m l Hc HI. apply Hp. exact (H2 c m l Hc HI).
Qed.

Lemma tracks_run : tracks scope_run ∅ runs_agree.
Proof.
  eapply tracks_iff; [| |apply (tracks_note_first
    (fun node existing => "source " +:+ enSourceAdmissionID node +:+ " run " +:+ enRunID node +:+
                          " has conflicting scopes " +:+ existing +:+ " vs " +:+ enScopeID node)
    (fun n => String.eqb (enRunID n) "") (fun n => (enSourceAdmissionID n, enRunID n)) enScopeID)].
  - done.
  - intros a b. unfold runs_agree. rewrite !String.eqb_neq. split; intros H; [|naive_solver].
    intros Ha Hs Hr. apply H; congruence.
Qed.

Lemma tracks_attempt : tracks scope_attempt ∅ attempts_agree.
Proof.
  eapply tracks_iff; [| |apply (tracks_note_first
    (fun node existing => "source " +:+ enSourceAdmissionID node +:+ " attempt " +:+ enAttemptID node +:+
                          " has conflicting runs " +:+ existing +:+ " vs " +:+ enRunID node)
    (fun n => String.eqb (enAttemptID n) "") (fun n => (enSourceAdmissionID n, enAttemptID n)) enRunID)].
  - done.
  - intros a b. unfold attempts_agree. rewrite !String.eqb_neq. split; intros H; [|naive_solver].
    intros Ha Hs Hr. apply H; congruence.
Qed.

(** The coordinates of a binding. *)
Definition coordinates : list (transactionBinding -> string) := [tbRunID; tbAttemptID; tbScenarioID].

Lemma conflicting_binding_false a b :
  conflicting_binding a b = false <-> forall p, p ∈ coordinates -> p a = "" \/ p b = "" \/ p a = p b.
Proof.
  assert (Hc : forall x y, conflictingOccurrenceValue x y = false <-> x = "" \/ y = "" \/ x = y).
  { intros x y. unfold conflictingOccurrenceValue.
    destruct (String.eqb_spec x ""), (String.eqb_spec y ""), (String.eqb_spec x y); cbn; naive_solver. }
  unfold conflicting_binding, coordinates. rewrite !orb_false_iff, !Hc. set_solver.
Qed.

Lemma merge_coordinate p a b : p ∈ coordinates -> p (mergeTransactionBinding a b) = fill (p a) (p b).
Proof. unfold coordinates. intros H. repeat (apply elem_of_cons in H as [->|H]; [done|]). inversion H. Qed.

Definition tx_key (n : EvidenceNode) : string * string := (enSourceAdmissionID n, enTransactionID n).

(** The table after nodes [l]: a coordinate is some node's, and unless a conflict was
    reported a node's coordinates are in it. *)
Definition tx_from (m : gmap (string * string) transactionBinding) (l : list EvidenceNode) : Prop :=
  forall k e p, m !! k = Some e -> p ∈ coordinates ->
    p e = "" \/ exists n, n ∈ l /\ enTransactionID n <> "" /\ tx_key n = k /\ p (node_binding n) = p e.
Definition tx_covers (m : gmap (string * string) transactionBinding) (l : list EvidenceNode) : Prop :=
  forall n, n ∈ l -> enTransactionID n <> "" ->
    exists e, m !! tx_key n = Some e /\ forall p, p ∈ coordinates -> p (node_binding n) = "" \/ p (node_binding n) = p e.

Lemma tx_from_app m l n : tx_from m l -> tx_from m (l ++ [n]).
Proof. intros Hf k e p Hm Hp. destruct (Hf k e p Hm Hp) as [?|(n' & ? & ?)]; [by left|right; exists n'; set_solver]. Qed.

(** Putting [e'] at the key of [n], which it covers, where an entry [e] may have been. *)
Lemma tx_put m l n e' :
  enTransactionID n <> "" ->
  (forall p, p ∈ coordinates -> p (node_binding n) = "" \/ p (node_binding n) = p e') ->
  (forall p, p ∈ coordinates -> p e' = p (node_binding n) \/ exists e, m !! tx_key n = Some e /\ p e' = p e) ->
  (forall e p, m !! tx_key n = Some e -> p ∈ coordinates -> p e = "" \/ p e = p e') ->
  tx_from m l ->
  tx_from (<[tx_key n := e']> m) (l ++ [n]) /\ (tx_covers m l -> tx_covers (<[tx_key n := e']> m) (l ++ [n])).
Proof.
  intros Ht Hn1 Hn2 Hn3 Hf%(tx_from_app _ _ n). split.
  - intros k e p. destruct (decide (k = tx_key n)) as [->|Hne]; [|rewrite lookup_insert_ne by done; apply Hf].
    rewrite lookup_insert, decide_True by done. intros [= <-] Hp. destruct (Hn2 p Hp) as [E|(e & Hm & E)].
    + right. exists n. set_solver.
    + rewrite E. by apply (Hf (tx_key n)).
  - intros Hc n' [Hn'| ->%list_elem_of_singleton]%elem_of_app Ht'; [|exists e'; by rewrite lookup_insert, decide_True].
    destruct (Hc n' Hn' Ht') as (e & Hm & He). destruct (decide (tx_key n' = tx_key n)) as [E|Hne].
    + rewrite E in *. exists e'. rewrite lookup_insert, decide_True by done. split; [done|]. intros p Hp.
      destruct (He p Hp) as [?|E1]; [by left|]. destruct (Hn3 e p Hm Hp) as [E2|E2]; [left|right]; congruence.
    + exists e. by rewrite lookup_insert_ne.
Qed.

Lemma tx_covers_agree m l : tx_covers m l -> pairwise transactions_agree l.
Proof.
  intros Hc a b Ha Hb Hta Hs Ht. apply conflicting_binding_false. intros p Hp.
  destruct (Hc a Ha Hta) as (e & Hm & He). destruct (Hc b Hb ltac:(congruence)) as (e' & Hm' & He').
  assert (e = e') as <-. { unfold tx_key in *. rewrite Hs, Ht in Hm. congruence. }
  destruct (He p Hp) as [?|E1]; [by left|]. destruct (He' p Hp) as [?|E2]; [by right; left|]. right; right. congruence.
Qed.

Lemma fill_left x y : x = "" \/ x = fill x y.
Proof. unfold fill. destruct (String.eqb_spec x ""); [by left|by right]. Qed.

Lemma fill_right x y : x = "" \/ y = "" \/ x = y -> y = "" \/ y = fill x y.
Proof. unfold fill. destruct (String.eqb_spec x ""); [by right|naive_solver]. Qed.

Lemma fill_one x y : fill x y = y \/ fill x y = x.
Proof. unfold fill. destruct (String.eqb x ""); [by left|by right]. Qed.

Lemma tracks_transaction : tracks scope_transaction ∅ transactions_agree.
Proof.
  exists (fun (c : Prop) m l => tx_from m l /\ (c -> tx_covers m l)). split; [|split].
  - split; [intros k e p H; by rewrite lookup_empty in H|]. intros _ n H. inversion H.
  - intros c m l n g [Hf Hc]. unfold scope_transaction. cbn [fst snd]. fold (tx_key n).
    destruct (String.eqb_spec (enTransactionID n) "") as [Ht|Ht].
    { exists m, []. rewrite set_failures_same. split; [done|]. split; [|done]. split; [by apply tx_from_app|].
      intros [Hc' _] n' [Hn'| ->%list_elem_of_singleton]%elem_of_app Hs'; [by apply Hc|congruence]. }
    assert (Hput : forall e', (tx_from m l -> tx_from (<[tx_key n := e']> m) (l ++ [n]) /\
                                              (tx_covers m l -> tx_covers (<[tx_key n := e']> m) (l ++ [n]))) ->
      exists m' new, (<[tx_key n := e']> m, g) = (m', set_failures (eg_failures g ++ new)%list g) /\
        (tx_from m' (l ++ [n]) /\ (c /\ new = [] -> tx_covers m' (l ++ [n]))) /\ (pairwise transactions_agree (l ++ [n]) -> new = [])).
    { intros e' He. eexists _, []. rewrite set_failures_same. destruct (He Hf). naive_solver. }
    destruct (m !! tx_key n) as [e|] eqn:Hm; [destruct (conflicting_binding e (node_binding n)) eqn:Hcf|].
    + exists m. eexists. split; [reflexivity|]. split; [by split; [apply tx_from_app|intros [_ ?]]|]. intros HR. exfalso.
      apply not_false_iff_true in Hcf. apply Hcf, conflicting_binding_false. intros p Hp.
      destruct (Hf _ _ p Hm Hp) as [?|(n' & Hin & Ht' & Hk & Hv)]; [by left|]. rewrite <- Hv. injection Hk as Hk1 Hk2.
      assert (Ha : transactions_agree n' n) by (apply HR; set_solver).
      by apply (proj1 (conflicting_binding_false _ _) (Ha Ht' Hk1 Hk2)).
    + apply Hput, tx_put; [done|..]; rewrite conflicting_binding_false in Hcf.
      * intros p Hp. rewrite merge_coordinate by done. by apply fill_right, Hcf.
      * intros p Hp. rewrite merge_coordinate by done. destruct (fill_one (p e) (p (node_binding n))); [by left|right; by exists e].
      * intros e1 p He Hp. rewrite merge_coordinate by done. rewrite Hm in He. injection He as <-. apply fill_left.
    + apply Hput, tx_put; [done|by right|by left|]. intros e p He. by rewrite Hm in He.
  - intros c m l Hcl [_ Hc]. by apply (tx_covers_agree m), Hc.
Qed.

Definition occurrences_agree (a b : EvidenceNode) : Prop := runs_agree a b /\ attempts_agree a b /\ transactions_agree a b.

Lemma pairwise_occurrences l :
  pairwise occurrences_agree l <-> pairwise runs_agree l /\ pairwise attempts_agree l /\ pairwise transactions_agree l.
Proof. unfold pairwise, occurrences_agree. split; [intros H; split_and!; intros a b Ha Hb; by apply H|intros (? & ? & ?) a b Ha Hb; auto]. Qed.

Lemma set_failures_app g n1 n2 :
  set_failures (eg_failures (set_failures (eg_failures g ++ n1) g) ++ n2)%list (set_failures (eg_failures g ++ n1)%list g) =
  set_failures (eg_failures g ++ (n1 ++ n2))%list g.
Proof. cbn. by rewrite app_assoc. Qed.

Lemma tracks_node :
  tracks (fun n st => scope_node st n) {| oc_runs := ∅; oc_attempts := ∅; oc_transactions := ∅ |} occurrences_agree.
Proof.
  destruct tracks_run as (I1 & H1 & S1 & F1), tracks_attempt as (I2 & H2 & S2 & F2), tracks_transaction as (I3 & H3 & S3 & F3).
  exists (fun (c : Prop) st l => exists c1 c2 c3 : Prop, (c -> c1 /\ c2 /\ c3) /\
            I1 c1 (oc_runs st) l /\ I2 c2 (oc_attempts st) l /\ I3 c3 (oc_transactions st) l).
  split; [by exists True, True, True|split].
  - intros c st l n g (c1 & c2 & c3 & Hc & HI1 & HI2 & HI3). unfold scope_node. cbn [fst snd].
    destruct (S1 _ _ _ n g HI1) as (m1 & n1 & -> & J1 & K1).
    destruct (S2 _ _ _ n (set_failures (eg_failures g ++ n1) g) HI2) as (m2 & n2 & -> & J2 & K2). rewrite set_failures_app.
    destruct (S3 _ _ _ n (set_failures (eg_failures g ++ (n1 ++ n2)) g) HI3) as (m3 & n3 & -> & J3 & K3). rewrite set_failures_app.
    eexists _, _. split; [reflexivity|split].
    + eexists _, _, _. split; [|split; [exact J1|split; [exact J2|exact J3]]].
      intros [Hcc [[-> ->]%app_nil ->]%app_nil]. naive_solver.
    + intros (? & ? & ?)%pairwise_occurrences. by rewrite K1, K2, K3.
  - intros c st l Hcl (c1 & c2 & c3 & Hc & HI1 & HI2 & HI3). destruct (Hc Hcl) as (? & ? & ?).
    apply pairwise_occurrences. split_and!; [by eapply (F1 c1)|by eapply (F2 c2)|by eapply (F3 c3)].
Qed.

Lemma tracks_fold {M} step (m0 : M) R l g :
  tracks step m0 R -> reports (pairwise R l) g (fold_left (fun st n => step n st) l (m0, g)).2.
Proof.
  intros (I & H0 & H1 & H2).
  assert (Hgo : forall l c m seen g, I c m seen -> exists d m' new,
    fold_left (fun st n => step n st) l (m, g) = (m', set_failures (eg_failures g ++ new)%list g) /\
    (c /\ new = [] -> d) /\ I d m' (seen ++ l)%list /\ (pairwise R (seen ++ l)%list -> new = [])).
  { clear l g. induction l as [|n l IH]; intros c m seen g HI; cbn [fold_left].
    - exists c, m, []. rewrite set_failures_same, app_nil_r. naive_solver.
    - destruct (H1 c m seen n g HI) as (m1 & n1 & -> & HI1 & K1).
      destruct (IH _ m1 (seen ++ [n])%list (set_failures (eg_failures g ++ n1)%list g) HI1) as (d & m2 & n2 & -> & Hd & HI2 & K2).
      rewrite set_failures_app. rewrite <- app_assoc in HI2, K2. cbn [app] in HI2, K2. exists d, m2, (n1 ++ n2)%list.
      split_and!; [done| |done|].
      + intros [Hc [-> ->]%app_nil]. by apply Hd.
      + intros HR. rewrite (K2 HR), app_nil_r. apply K1. intros a b Ha Hb. apply HR; set_solver. }
  destruct (Hgo l True m0 [] g H0) as (d & m' & new & -> & Hd & HI & K). exists new. split; [done|]. split; [|exact K].
  intros Hn. apply (H2 d m' l); [by apply Hd|exact HI].
Qed.

Lemma ValidateScopeBinding_reports order g : reports (pairwise occurrences_agree order) g (ValidateScopeBinding order g).
Proof. apply (tracks_fold _ _ _ order g tracks_node). Qed.

(** ** Adding nodes *)

Definition node_ok (n : EvidenceNode) : Prop :=
  enArtifactID n <> "" /\ enSHA256 n <> "" /\ enScopeID n <> "" /\
  (Z.of_nat (String.length (enCanonicalBytes n)) <= EvidenceGraphMaxBytes)%Z /\
  (enBundlePath n = "" \/ ValidRelativePath (enBundlePath n) = true).

(** Two nodes with one address have one digest and one binding. *)
Definition same_address (a b : EvidenceNode) : Prop :=
  enArtifactID a = enArtifactID b -> enSHA256 a = enSHA256 b /\ sameScopeBinding a b = true.

(** The first node of each address. *)
Definition index (l : list EvidenceNode) : gmap string EvidenceNode := list_to_map ((fun n => (enArtifactID n, n)) <$> l).

Lemma sameScopeBinding_spec a b :
  sameScopeBinding a b = true <->
  enScopeID a = enScopeID b /\ enRunID a = enRunID b /\ enAttemptID a = enAttemptID b /\ enScenarioID a = enScenarioID b /\
  enTransactionID a = enTransactionID b.
Proof. unfold sameScopeBinding. rewrite !andb_true_iff, !String.eqb_eq. naive_solver. Qed.

Lemma index_app l n : index (l ++ [n]) = match index l !! enArtifactID n with Some _ => index l | None => <[enArtifactID n := n]> (index l) end.
Proof.
  unfold index. rewrite fmap_app, list_to_map_app. cbn. rewrite insert_empty.
  apply map_eq. intros k. destruct (list_to_map _ !! enArtifactID n) as [x|] eqn:E;
    (destruct (decide (k = enArtifactID n)) as [->|Hne]; [|rewrite lookup_union_l; [|by apply lookup_singleton_ne]; by rewrite ?lookup_insert_ne]).
  - by rewrite (lookup_union_Some_l _ _ _ _ E).
  - rewrite lookup_union_r by done. by rewrite lookup_singleton, lookup_insert, !decide_True.
Qed.

Lemma index_Some l k n : index l !! k = Some n -> n ∈ l /\ enArtifactID n = k.
Proof.
  intros H. apply elem_of_list_to_map_2 in H. apply list_elem_of_fmap in H as (x & [= -> ->] & Hx). by split.
Qed.

Lemma index_None l k : index l !! k = None -> forall n, n ∈ l -> enArtifactID n <> k.
Proof.
  intros H n Hn <-. apply not_elem_of_list_to_map in H. apply H. rewrite <- list_fmap_compose.
  apply list_elem_of_fmap. by exists n.
Qed.

(** A graph that holds what was added to it, so far without a failure. *)
Definition holds_nodes (g : EvidenceGraph) (l : list EvidenceNode) : Prop :=
  eg_failures g = [] /\ eg_nodes g = index l /\ Forall node_ok l /\ pairwise same_address l.

Lemma AddNode_spec n g l :
  eg_maxBytes g = EvidenceGraphMaxBytes -> eg_allowed g = [] -> holds_nodes g l ->
  if is_ok (AddNode n g).1 then holds_nodes (AddNode n g).2 (l ++ [n])%list
  else eg_failures (AddNode n g).2 <> [] /\ ~ (Forall node_ok (l ++ [n])%list /\ pairwise same_address (l ++ [n])%list).
Proof.
  intros Hm Ha (Hf & Hn & Hok & Hsame).
  assert (Hbad : forall e r s, (~ node_ok n \/ ~ pairwise same_address (l ++ [n])%list) ->
    if is_ok (refuse e r s g).1 then holds_nodes (refuse e r s g).2 (l ++ [n])%list
    else eg_failures (refuse e r s g).2 <> [] /\ ~ (Forall node_ok (l ++ [n])%list /\ pairwise same_address (l ++ [n])%list)).
  { intros e r s H. cbn. split; [by intros []%app_nil|]. rewrite Forall_app, Forall_singleton. tauto. }
  unfold AddNode. rewrite Hm, Ha. cbn [negb andb].
  destruct (String.eqb_spec (enArtifactID n) ""); [apply Hbad; left; unfold node_ok; tauto|].
  destruct (String.eqb_spec (enSHA256 n) ""); [apply Hbad; left; unfold node_ok; tauto|].
  destruct (String.eqb_spec (enScopeID n) ""); [apply Hbad; left; unfold node_ok; tauto|].
  destruct (Z.ltb_spec EvidenceGraphMaxBytes (Z.of_nat (String.length (enCanonicalBytes n)))).
  { rewrite andb_true_r. assert (0 <? EvidenceGraphMaxBytes = true)%Z as -> by done.
    apply Hbad. left. unfold node_ok. lia. }
  rewrite andb_false_r.
  destruct (negb (String.eqb (enBundlePath n) "") && negb (ValidRelativePath (enBundlePath n))) eqn:Hb.
  { apply andb_true_iff in Hb as [Hb1 Hb2]. apply negb_true_iff in Hb1, Hb2. apply String.eqb_neq in Hb1. apply Hbad. left.
    intros (_ & _ & _ & _ & [?|?]); congruence. }
  assert (Hnok : node_ok n).
  { apply andb_false_iff in Hb. rewrite !negb_false_iff, String.eqb_eq in Hb. unfold node_ok. tauto. }
  destruct (eg_nodes g !! enArtifactID n) as [x|] eqn:Hx; rewrite Hn in Hx.
  - destruct (index_Some _ _ _ Hx) as [Hin Hid].
    assert (Hconf : ~ (enSHA256 x = enSHA256 n /\ sameScopeBinding x n = true) -> ~ pairwise same_address (l ++ [n])%list).
    { intros H1 H2. apply H1. apply H2; [set_solver|set_solver|done]. }
    destruct (String.eqb_spec (enSHA256 x) (enSHA256 n)) as [Hsha|]; [|apply Hbad; right; apply Hconf; tauto]. cbn [negb].
    destruct (sameScopeBinding x n) eqn:Hss; [|apply Hbad; right; apply Hconf; by intros [_ ?]]. cbn [negb is_ok fst snd].
    split_and!; [done|by rewrite index_app, Hx|by rewrite Forall_app, Forall_singleton|].
    rewrite sameScopeBinding_spec in Hss.
    assert (Hto : forall a, a ∈ l -> enArtifactID a = enArtifactID n -> enSHA256 a = enSHA256 n /\ sameScopeBinding a n = true).
    { intros a Hal E. destruct (Hsame a x Hal Hin ltac:(congruence)) as [E1 E2]. rewrite sameScopeBinding_spec in *. intuition congruence. }
    intros a b [Hal| ->%list_elem_of_singleton]%elem_of_app [Hbl| ->%list_elem_of_singleton]%elem_of_app E; [by apply Hsame|by apply Hto| |].
    + destruct (Hto b Hbl (eq_sym E)) as [E1 E2]. rewrite sameScopeBinding_spec in *. intuition congruence.
    + rewrite sameScopeBinding_spec. tauto.
  - cbn [is_ok fst snd]. split_and!; [done|cbn; by rewrite index_app, Hx, Hn|by rewrite Forall_app, Forall_singleton|].
    intros a b [Hal| ->%list_elem_of_singleton]%elem_of_app [Hbl| ->%list_elem_of_singleton]%elem_of_app E; [by apply Hsame| | |].
    + by destruct (index_None _ _ Hx a Hal).
    + by destruct (index_None _ _ Hx b Hbl).
    + rewrite sameScopeBinding_spec. tauto.
Qed.

Lemma AddNode_kept n g :
  eg_maxBytes (AddNode n g).2 = eg_maxBytes g /\ eg_allowed (AddNode n g).2 = eg_allowed g /\
  (eg_failures g <> [] -> eg_failures (AddNode n g).2 <> []).
Proof. unfold AddNode, refuse. repeat case_match; cbn; (split_and!; [done|done|]); try done; by intros _ []%app_nil. Qed.

(** What the graph is after nodes [l] in all. *)
Definition after_nodes (l : list EvidenceNode) (g : EvidenceGraph) : Prop :=
  eg_maxBytes g = EvidenceGraphMaxBytes /\ eg_allowed g = [] /\
  (eg_failures g = [] -> eg_nodes g = index l) /\
  (eg_failures g = [] <-> Forall node_ok l /\ pairwise same_address l).

Lemma AddNode_after n l g : after_nodes l g -> after_nodes (l ++ [n]) (AddNode n g).2.
Proof.
  intros (Hm & Ha & Hi & Hf). destruct (AddNode_kept n g) as (Hm' & Ha' & Hk). unfold after_nodes.
  rewrite Hm', Ha'. split; [done|split; [done|]]. destruct (decide (eg_failures g = [])) as [E|E].
  - pose proof (AddNode_spec n g l Hm Ha) as H. destruct (proj1 Hf E). specialize (H ltac:(split_and!; auto)).
    destruct (is_ok (AddNode n g).1); [|naive_solver]. destruct H as (E1 & E2 & E3 & E4). naive_solver.
  - specialize (Hk E). split; [done|]. split; [done|]. intros [H1 H2]. exfalso. apply E, Hf. split.
    + by apply Forall_app in H1 as [? _].
    + intros a b Hx Hy. apply H2; set_solver.
Qed.

Lemma add_nodes_after ns l g : after_nodes l g -> after_nodes (l ++ ns) (add_nodes ns g).
Proof.
  revert l g. induction ns as [|n ns IH]; intros l g H; [by rewrite app_nil_r|].
  change (n :: ns) with ([n] ++ ns)%list. rewrite app_assoc. by apply IH, AddNode_after.
Qed.

(** The nodes of the importers that did not fail. *)
Fixpoint imported (importers : list (option EvidenceImporter)) : list EvidenceNode :=
  match importers with
  | [] => []
  | Some im :: importers => match imImport im with Ok nodes => nodes ++ imported importers | Err _ => imported importers end
  | None :: importers => imported importers
  end.

Definition imports (im : option EvidenceImporter) : Prop :=
  match im with Some im => is_ok (imImport im) = true | None => True end.

Lemma import_all_after importers l g errs :
  after_nodes l g ->
  let r := import_all importers g errs in
  after_nodes (l ++ imported importers) r.1 /\ (r.2 = [] <-> errs = [] /\ Forall imports importers).
Proof.
  revert l g errs. induction importers as [|[im|] importers IH]; intros l g errs H; cbn [import_all imported].
  - rewrite app_nil_r. split; [done|]. split; [by split|by intros [? _]].
  - rewrite Forall_cons. unfold imports at 1. destruct (imImport im) as [ns|e]; cbn [is_ok].
    + destruct (IH (l ++ ns)%list (add_nodes ns g) errs (add_nodes_after _ _ _ H)) as [H1 H2]. rewrite <- app_assoc in H1. split; [done|].
      rewrite H2. naive_solver.
    + match goal with |- context [import_all importers g ?e] => destruct (IH l g e H) as [H1 H2] end. split; [done|]. rewrite H2.
      split; [by intros [[]%app_nil _]|by intros (_ & ? & _)].
  - rewrite Forall_cons. destruct (IH l g errs H) as [H1 H2]. split; [done|]. rewrite H2. unfold imports at 2. naive_solver.
Qed.

(** ** The report *)

(** A graph without defects. *)
Record graph_ok (m : gmap string EvidenceNode) : Prop := {
  go_digests : forall id n, m !! id = Some n -> digest_ok n;
  go_references : forall id n ref, m !! id = Some n -> ref ∈ enReferences n -> is_Some (m !! ref);
  go_acyclic : forall id, ~ cyclic m id;
  go_trusted : forall id n, m !! id = Some n -> trusted n;
  go_encryption : forall id n, m !! id = Some n -> encryption_incomplete n = false;
  go_occurrences : forall i j a b, m !! i = Some a -> m !! j = Some b -> occurrences_agree a b
}.

Section report.
Context (range : nat -> gmap string EvidenceNode -> list (string * EvidenceNode)).
(** A range visits every entry of the map once, in some order. *)
Hypothesis range_all : forall i m, range i m ≡ₚ map_to_list m.

Lemma range_nodes i m n : n ∈ (range i m).*2 <-> exists id, m !! id = Some n.
Proof.
  rewrite range_all, list_elem_of_fmap. setoid_rewrite <- elem_of_map_to_list.
  split; [intros ([id n'] & -> & ?); by exists id|intros [id ?]; by exists (id, n)].
Qed.

Lemma range_Forall i m P : Forall P (range i m).*2 <-> forall id n, m !! id = Some n -> P n.
Proof. rewrite Forall_forall. setoid_rewrite range_nodes. naive_solver. Qed.

Lemma ValidateAll_spec a b g :
  exists g', ValidateAll range a b g = Some g' /\ eg_nodes g' = eg_nodes g /\
    (eg_failures g' = [] <-> eg_failures g = [] /\ graph_ok (eg_nodes g)).
Proof.
  unfold ValidateAll. cbn zeta. set (m := eg_nodes g).
  pose proof (VerifyDigests_reports (range 0 m).*2 g) as H1. remember (VerifyDigests _ g) as g1 eqn:E1. clear E1.
  pose proof (reports_nodes _ _ _ H1) as N1. fold m in N1. rewrite N1.
  pose proof (ValidateScopeBinding_reports (range 1 m).*2 g1) as H2. remember (ValidateScopeBinding _ g1) as g2 eqn:E2. clear E2.
  pose proof (reports_nodes _ _ _ H2) as N2. rewrite N1 in N2. rewrite N2.
  pose proof (ResolveReferences_reports (range 2 m).*2 g2) as H3. remember (ResolveReferences _ g2) as g3 eqn:E3. clear E3.
  pose proof (reports_nodes _ _ _ H3) as N3. rewrite N2 in N3. rewrite N3. rewrite N2 in H3.
  destruct (cycles_detected (range 3 m).*1 g3) as (new & -> & Hc1 & Hc2); [rewrite N3; by rewrite (range_all 3 m)|].
  assert (H4 : reports (forall id, ~ cyclic m id) g3 (set_failures (eg_failures g3 ++ new)%list g3)).
  { exists new. split; [done|]. rewrite N3 in Hc2. split.
    - intros -> id Hid. by apply (proj2 Hc2 (ex_intro _ id Hid)).
    - intros H. destruct new as [|f new]; [done|]. destruct (proj1 Hc2 ltac:(done)) as [id Hid]. by destruct (H id). }
  remember (set_failures (eg_failures g3 ++ new)%list g3) as g4 eqn:E4. clear E4 Hc1 Hc2 new.
  pose proof (reports_nodes _ _ _ H4) as N4. rewrite N3 in N4. rewrite N4.
  pose proof (ValidateTrust_reports (range 4 m).*2 g4) as H5. remember (ValidateTrust _ g4) as g5 eqn:E5. clear E5.
  pose proof (reports_nodes _ _ _ H5) as N5. rewrite N4 in N5. rewrite N5.
  pose proof (ValidateEncryption_reports (range 5 m).*2 g5) as H6. remember (ValidateEncryption _ g5) as g6 eqn:E6. clear E6.
  pose proof (reports_nodes _ _ _ H6) as N6. rewrite N5 in N6.
  destruct (ValidateFreshness_only a b (range 6 (eg_nodes g6)).*2 g6) as [fs ->].
  eexists. split; [reflexivity|]. split; [exact N6|]. cbn [eg_failures set_freshness].
  pose proof (reports_trans _ _ _ _ _ (reports_trans _ _ _ _ _ (reports_trans _ _ _ _ _ (reports_trans _ _ _ _ _
    (reports_trans _ _ _ _ _ H1 H2) H3) H4) H5) H6) as (new & -> & Hnew). cbn [eg_failures set_failures].
  rewrite app_nil, Hnew, !range_Forall. setoid_rewrite Forall_forall. unfold pairwise. setoid_rewrite range_nodes. split.
  - intros (Hg & ((((Hd & Hs) & Hr) & Ha) & Ht) & He). split; [done|]. split; [done|naive_solver|done|done|done|naive_solver].
  - intros (Hg & [Hd Hr Ha Ht He Ho]). split; [done|]. split_and!; [done| |naive_solver|done|done|done].
    intros x y [i Hi] [j Hj]. by apply (Ho i j).
Qed.

Lemma BuildAndValidateGraph_spec importers windowStart windowEnd verifiedAt :
  exists g report,
    BuildAndValidateGraph range importers windowStart windowEnd verifiedAt = Some (g, report) /\
    (rpValid report = true <->
      Forall imports importers /\ Forall node_ok (imported importers) /\ pairwise same_address (imported importers) /\
      graph_ok (index (imported importers))) /\
    (rpValid report = true -> eg_nodes g = index (imported importers)).
Proof.
  unfold BuildAndValidateGraph.
  destruct (import_all_after importers [] (NewEvidenceGraph EvidenceGraphMaxBytes []) []) as [(_ & _ & Hi & Hf) Herr].
  { split_and!; try done. split; [intros _; split; [constructor|]|done]. intros a b Ha. inversion Ha. }
  destruct (import_all importers _ []) as [g errs]. cbn [fst snd app] in *.
  destruct (ValidateAll_spec windowStart windowEnd g) as (g' & -> & Hn & Hv). eexists _, _. split; [reflexivity|]. cbn [rpValid].
  assert (Hval : Valid g' = true <-> eg_failures g' = []) by (unfold Valid; by destruct (eg_failures g')).
  assert (He : (match errs with [] => true | _ => false end) = true <-> errs = []) by by destruct errs.
  rewrite andb_true_iff, Hval, He, Hv, Herr. split.
  - split.
    + intros [[Hg Hok] [_ Him]]. rewrite (Hi Hg) in Hok. apply Hf in Hg as [? ?]. done.
    + intros (Him & Hno & Hsame & Hok). pose proof (proj2 Hf (conj Hno Hsame)) as Hg. by rewrite (Hi Hg).
  - intros [[Hg _] _]. rewrite Hn. by apply Hi.
Qed.
(** C21: The report of a graph is exact.  Building ends for every list of importers, whatever
    the order Go ranges over the graph in, and the report is valid if and only if every
    importer succeeded, every node was acceptable and agreed with the nodes of its address,
    and the graph of them is without defects: digests match, references resolve and do not
    run in circles, verified nodes name their verifier, encryption that is described is described
    completely, and the occurrences agree.  Freshness has no part in it; neither has
    whether a restricted medium is encrypted, nor whether an id is its content's address. *)
Theorem report_exact importers windowStart windowEnd verifiedAt :
  exists g report,
    BuildAndValidateGraph range importers windowStart windowEnd verifiedAt = Some (g, report) /\
    (rpValid report = true <->
      Forall imports importers /\ Forall node_ok (imported importers) /\ pairwise same_address (imported importers) /\
      graph_ok (index (imported importers))) /\
    (rpValid report = true -> eg_nodes g = index (imported importers)).
Proof. apply BuildAndValidateGraph_spec. Qed.
End report.

(** ** A concrete graph *)

Definition ex_range (i : nat) (m : gmap string EvidenceNode) : list (string * EvidenceNode) := map_to_list m.

Definition ex_node (id body : string) (refs : list string) : EvidenceNode := {|
  enArtifactID := id; enArtifactType := ArtifactTypeCommitment; enSHA256 := sha256_hex body; enMediaType := "application/json";
  enSchemaRef := "s"; enProducerIdentity := "key-1"; enProducedAt := 1700000000000000000%Z; enScopeID := "scope-1";
  enSourceAdmissionID := ""; enRunID := "run-1"; enAttemptID := ""; enScenarioID := ""; enTransactionID := "tx-1";
  enVerificationStatus := StatusVerified; enVerifierID := "v"; enVerifierVersion := "1"; enVerifiedAt := 1700000000000000000%Z;
  enBundlePath := "commitments/a.json"; enEncryption := None; enCanonicalBytes := body; enReferences := refs |}.

Definition ex_importer (nodes : list EvidenceNode) : option EvidenceImporter :=
  Some {| imImport := Ok nodes; imSourceID := "commitment"; imRunID := None |}.

Definition ex_report (nodes : list EvidenceNode) : option (bool * list string) :=
  match BuildAndValidateGraph ex_range [None; ex_importer nodes] zero_time zero_time zero_time with
  | Some (_, r) => Some (rpValid r, map gfReason (rpFailures r))
  | None => None
  end.

Example ex_chain : ex_report [ex_node "a" "A" ["b"]; ex_node "b" "B" []; ex_node "a" "A" []] = Some (true, []).
Proof. vm_compute. done. Qed.

Example ex_mutual : ex_report [ex_node "a" "A" ["b"]; ex_node "b" "B" ["a"]] = Some (false, ["reference cycle: a -> b -> a"]).
Proof. vm_compute. done. Qed.

Example ex_dangling : ex_report [ex_node "a" "A" ["c"]] = Some (false, ["reference c is not in the graph"]).
Proof. vm_compute. done. Qed.

Definition ex_two : EvidenceGraph := add_nodes [ex_node "a" "A" ["b"]; ex_node "b" "B" ["a"]] (NewEvidenceGraph EvidenceGraphMaxBytes []).

Lemma cycles_detected_witness :
  exists new, DetectCycles ["b"; "a"] ex_two = Some (set_failures (eg_failures ex_two ++ new)%list ex_two) /\
    Forall (fun f => cyclic (eg_nodes ex_two) (gfSubject f)) new /\
    (new <> [] <-> exists id, cyclic (eg_nodes ex_two) id).
Proof. apply (cycles_detected ["b"; "a"] ex_two). vm_compute. apply perm_swap. Defined.

Lemma report_exact_witness :
  exists g report,
    BuildAndValidateGraph ex_range [ex_importer [ex_node "b" "B" []]] zero_time zero_time zero_time = Some (g, report) /\
    (rpValid report = true <->
      Forall imports [ex_importer [ex_node "b" "B" []]] /\ Forall node_ok (imported [ex_importer [ex_node "b" "B" []]]) /\
    pairwise same_address (imported [ex_importer [ex_node "b" "B" []]]) /\
    graph_ok (index (imported [ex_importer [ex_node "b" "B" []]]))) /\
    (rpValid report = true -> eg_nodes g = index (imported [ex_importer [ex_node "b" "B" []]])).
Proof. apply (report_exact ex_range). intros i m. reflexivity. Defined.
