(* ===== verification/EvidenceImport.v ===== *)
(** Importing receipts, persistence attestations and commitments as evidence
    ([src/internal/services/compliance/evidence], receipt_importer.go, commitment_importer.go).

    The reader of artifacts and the source of trusted keys are arguments; a reader answers
    one path one way, as the two readers of the program do, whose files are in a map.
    Trusted keys have the size of Ed25519 keys.  The canonical JSON of protocol messages is
    generated code and an argument.  Contexts are not cancelled. *)
From S2P Require Import Prelude Errors Encoding Sha256 Timestamp Crypto Receipt Evidence.
From Stdlib Require Import String Ascii List ZArith Lia Bool.
From stdpp Require Import base strings list.
Open Scope string_scope.

Definition maxArtifactBytes : Z := 16 * 2 ^ 20.

Definition ActionReceiptReferencePrefix : string := "action-receipt".
Definition ReceiptPersistenceReferencePrefix : string := "receipt-persistence".
Definition CommitmentReferencePrefix : string := "commitment".

Record ReceiptImportBinding := {
  rbReference : string; rbPath : string; rbScopeID : string; rbRunID : string; rbAttemptID : string; rbScenarioID : string
}.

Record PersistenceImportBinding := {
  pbReference : string; pbPath : string; pbReceiptReference : string; pbReceiptPath : string; pbScopeID : string;
  pbRunID : string; pbAttemptID : string; pbScenarioID : string
}.

Record CommitmentImportBinding := {
  cbReference : string; cbPath : string; cbScopeID : string; cbRunID : string; cbAttemptID : string; cbScenarioID : string;
  cbTransactionID : string
}.

Definition validReceiptBinding (b : ReceiptImportBinding) (prefix : string) : bool :=
  bool_decide (is_Some (ParseExpectedContentReference (rbReference b) prefix)) && ValidRelativePath (rbPath b) &&
  negb (String.eqb (rbScopeID b) "") && negb (String.eqb (rbRunID b) "").

Definition validPersistenceBinding (b : PersistenceImportBinding) : bool :=
  validReceiptBinding {| rbReference := pbReference b; rbPath := pbPath b; rbScopeID := pbScopeID b; rbRunID := pbRunID b;
                         rbAttemptID := ""; rbScenarioID := "" |} ReceiptPersistenceReferencePrefix &&
  validReceiptBinding {| rbReference := pbReceiptReference b; rbPath := pbReceiptPath b; rbScopeID := pbScopeID b;
                         rbRunID := pbRunID b; rbAttemptID := ""; rbScenarioID := "" |} ActionReceiptReferencePrefix.

Definition validCommitmentBinding (b : CommitmentImportBinding) : bool :=
  bool_decide (is_Some (ParseExpectedContentReference (cbReference b) CommitmentReferencePrefix)) && ValidRelativePath (cbPath b) &&
  negb (String.eqb (cbScopeID b) "") && negb (String.eqb (cbRunID b) "") && negb (String.eqb (cbTransactionID b) "").

Definition validCommitmentAttestation (a : CommitmentAttestation) : bool :=
  str_nonempty (caTransactionId a) && str_nonempty (caTransactionHash a) && str_nonempty (caStateRootAtCommit a) &&
  str_nonempty (caWardenIntentSignatureDigest a) && str_nonempty (caActionType a) && (0 <? caCommittedAtUnixMs a)%Z &&
  str_nonempty (caAuditorKeyId a) && str_nonempty (caSignature a) && str_nonempty (caHash a).

(** What an importer says of a message: the status, its verifier and the time. *)
Record verdict := { vdStatus : VerificationStatus; vdVerifierID : string; vdVerifierVersion : string; vdVerifiedAt : gotime }.

Definition unassessed : verdict := {| vdStatus := StatusUnverified; vdVerifierID := ""; vdVerifierVersion := ""; vdVerifiedAt := zero_time |}.
Definition receipt_verdict (good : bool) (now : gotime) : verdict := {|
  vdStatus := if good then StatusVerified else StatusFailed; vdVerifierID := "g8e-receipt-evidence-importer";
  vdVerifierVersion := "1.0.0"; vdVerifiedAt := now |}.
Definition commitment_verdict (good : bool) (now : gotime) : verdict := {|
  vdStatus := if good then StatusVerified else StatusFailed; vdVerifierID := "g8e-commitment-evidence-importer";
  vdVerifierVersion := "1.0.0"; vdVerifiedAt := now |}.

#[export] Instance persistence_eq_dec : EqDecision ReceiptPersistenceAttestation. Proof. solve_decision. Defined.

(** [fmt.Errorf(fmt, constants.sentinel, err)] around what fails. *)
Definition wrap_as {A} (fmt sentinel : string) (r : result A) : result A :=
  match r with Ok a => Ok a | Err e => Err (Errorf fmt [Sentinel sentinel; e]) end.

Section importers.
Context `{E : Ed25519}.
Context (marshal_stage : StageEvidence -> result string).
(** [compliancev1.UnmarshalCanonical] at the three messages, [MarshalCanonical] at one. *)
Context (UnmarshalReceipt : string -> result ActionReceipt).
Context (UnmarshalPersistence : string -> result ReceiptPersistenceAttestation).
Context (UnmarshalCommitment : string -> result CommitmentAttestation).
Context (MarshalPersistence : ReceiptPersistenceAttestation -> result string).
Context (ReadFile : string -> result string).
Context (GetTrustedSignerPublicKey : string -> result string).

Definition ReadAndDigest (path : string) : result string :=
  let? body := ReadFile path in
  let? _ := require (Z.of_nat (String.length body) <=? maxArtifactBytes)%Z (Sentinel "ErrEvidenceArtifactTooLarge") in
  Ok body.

(** The bytes of a reference, read and compared with its digest. *)
Definition read_referenced (reference path prefix : string) : result (string * string) :=
  let digest := default "" (ParseExpectedContentReference reference prefix) in
  let? body := wrap_as "%w: %s: %w" "ErrEvidenceImporterFailed" (ReadAndDigest path) in
  let? _ := require (VerifyDigest body digest) (Errorf "%w: %s" [Sentinel "ErrChecksumMismatch"]) in
  Ok (body, digest).

(** [errors.Is] decides between a key that is not trusted and a failure to look it up. *)
Definition trusted_key (sentinel_fmt keyID : string) : result (option string) :=
  match GetTrustedSignerPublicKey keyID with
  | Ok k => Ok (Some k)
  | Err e => if err_is "ErrTrustedSignerKeyNotFound" e then Ok None
             else Err (Errorf sentinel_fmt [Sentinel "ErrEvidenceTrustNotAssessed"; e])
  end.

(** ** Receipts *)

Definition readCanonicalReceipt (b : ReceiptImportBinding) : result (ActionReceipt * (string * string)) :=
  let? read := read_referenced (rbReference b) (rbPath b) ActionReceiptReferencePrefix in
  let? receipt := wrap_as "%w: %s: %w" "ErrEvidenceArtifactMalformed" (UnmarshalReceipt read.1) in
  let? _ := require (str_nonempty (rcTransactionId receipt) && str_nonempty (rcSignerKeyId receipt) && (0 <? rcExecutedAtUnixMs receipt)%Z)
                    (Errorf "%w: receipt binding is incomplete" [Sentinel "ErrEvidenceArtifactMalformed"]) in
  Ok (receipt, read).

Definition verifyAssessedReceiptSignature (now : gotime) (receipt : ActionReceipt) : result verdict :=
  let? key := trusted_key "%w: resolve signer %s: %w" (rcSignerKeyId receipt) in
  match key with
  | None => Ok unassessed
  | Some publicKey => Ok (receipt_verdict (is_ok (VerifyActionReceiptSignature marshal_stage (Some receipt) publicKey)) now)
  end.

Definition receipt_references (receipt : ActionReceipt) : result (list string) :=
  match rcAttestation receipt with
  | None => Ok []
  | Some a => let? body := wrap_as "%w: marshal persistence attestation: %w" "ErrEvidenceArtifactMalformed" (MarshalPersistence a) in
              Ok [ContentReferenceForBody ReceiptPersistenceReferencePrefix body]
  end.

(** [ReceiptImporter.Import]; [now] is what [nowFunc] returns. *)
Definition ImportReceipt (now : gotime) (b : ReceiptImportBinding) : result EvidenceNode :=
  let? _ := require (validReceiptBinding b ActionReceiptReferencePrefix)
              (Errorf "%w: reader, assessed trust, content reference, path, scope, and run are required" [Sentinel "ErrInvalidEvidenceGraph"]) in
  let? (receipt, (body, digest)) := readCanonicalReceipt b in
  let? v := verifyAssessedReceiptSignature now receipt in
  let? references := receipt_references receipt in
  Ok {| enArtifactID := rbReference b; enArtifactType := ArtifactTypeActionReceipt; enSHA256 := digest;
        enMediaType := "application/json"; enSchemaRef := "g8e.operator.v1.ActionReceipt";
        enProducerIdentity := rcSignerKeyId receipt; enProducedAt := of_milli (rcExecutedAtUnixMs receipt);
        enScopeID := rbScopeID b; enSourceAdmissionID := ""; enRunID := rbRunID b; enAttemptID := rbAttemptID b;
        enScenarioID := rbScenarioID b; enTransactionID := rcTransactionId receipt; enVerificationStatus := vdStatus v;
        enVerifierID := vdVerifierID v; enVerifierVersion := vdVerifierVersion v; enVerifiedAt := vdVerifiedAt v;
        enBundlePath := rbPath b; enEncryption := None; enCanonicalBytes := body; enReferences := references |}.

(** ** Persistence attestations *)

Definition readCanonicalPersistence (b : PersistenceImportBinding) : result (ReceiptPersistenceAttestation * (string * string)) :=
  let? read := read_referenced (pbReference b) (pbPath b) ReceiptPersistenceReferencePrefix in
  let? a := wrap_as "%w: %s: %w" "ErrEvidenceArtifactMalformed" (UnmarshalPersistence read.1) in
  let? _ := require (str_nonempty (paTransactionId a) && str_nonempty (paSignerKeyId a) && (0 <? paPersistedAtUnixMs a)%Z)
                    (Errorf "%w: persistence binding is incomplete" [Sentinel "ErrEvidenceArtifactMalformed"]) in
  Ok (a, read).

Definition verifyAssessedPersistence (now : gotime) (receipt : ActionReceipt) : result verdict :=
  let? key := trusted_key "%w: resolve signer %s: %w" (rcSignerKeyId receipt) in
  match key with
  | None => Ok unassessed
  | Some publicKey =>
      Ok (receipt_verdict (is_ok (VerifyActionReceiptSignature marshal_stage (Some receipt) publicKey) &&
                           is_ok (VerifyReceiptPersistenceAttestation (Some receipt) publicKey)) now)
  end.

Definition ImportPersistence (now : gotime) (b : PersistenceImportBinding) : result EvidenceNode :=
  let? _ := require (validPersistenceBinding b)
              (Errorf "%w: reader, assessed trust, content references, paths, scope, and run are required" [Sentinel "ErrInvalidEvidenceGraph"]) in
  let? (receipt, _) := readCanonicalReceipt {| rbReference := pbReceiptReference b; rbPath := pbReceiptPath b; rbScopeID := pbScopeID b;
                          rbRunID := pbRunID b; rbAttemptID := pbAttemptID b; rbScenarioID := pbScenarioID b |} in
  let? (a, (body, digest)) := readCanonicalPersistence b in
  let? _ := require (bool_decide (rcAttestation receipt = Some a) && String.eqb (rcTransactionId receipt) (paTransactionId a) &&
                     String.eqb (rcSignerKeyId receipt) (paSignerKeyId a))
                    (Errorf "%w: persistence attestation does not match receipt" [Sentinel "ErrEvidenceScopeMismatch"]) in
  let? v := verifyAssessedPersistence now receipt in
  Ok {| enArtifactID := pbReference b; enArtifactType := ArtifactTypeReceiptPersistence; enSHA256 := digest;
        enMediaType := "application/json"; enSchemaRef := "g8e.operator.v1.ReceiptPersistenceAttestation";
        enProducerIdentity := paSignerKeyId a; enProducedAt := of_milli (paPersistedAtUnixMs a); enScopeID := pbScopeID b;
        enSourceAdmissionID := ""; enRunID := pbRunID b; enAttemptID := pbAttemptID b; enScenarioID := pbScenarioID b;
        enTransactionID := paTransactionId a; enVerificationStatus := vdStatus v; enVerifierID := vdVerifierID v;
        enVerifierVersion := vdVerifierVersion v; enVerifiedAt := vdVerifiedAt v; enBundlePath := pbPath b; enEncryption := None;
        enCanonicalBytes := body; enReferences := [] |}.

(** ** Commitments *)

(** [ed25519.Verify] on the decoded signature. *)
Definition commitment_signature_ok (publicKey payload signature : string) : bool :=
  match hex_decode signature with
  | Some sig => (String.length sig =? SignatureSize)%nat && ed_verify publicKey payload sig
  | None => false
  end.

Definition verifyAssessedCommitment (verifiedAt : gotime) (a : CommitmentAttestation) : result verdict :=
  let payload := CanonicalizeCommitmentAttestation a in
  let hashed := String.eqb (sha256_hex payload) (caHash a) in
  let? key := trusted_key "%w: resolve auditor %s: %w" (caAuditorKeyId a) in
  match key with
  | None => Ok (if hashed then unassessed else commitment_verdict false verifiedAt)
  | Some publicKey => Ok (commitment_verdict (hashed && commitment_signature_ok publicKey payload (caSignature a)) verifiedAt)
  end.

Definition ImportCommitment (verifiedAt : gotime) (b : CommitmentImportBinding) : result EvidenceNode :=
  let? _ := require (validCommitmentBinding b && negb (verifiedAt =? zero_time)%Z)
              (Errorf "%w: reader, assessed trust, content reference, path, scope, run, transaction, and verification time are required"
                 [Sentinel "ErrInvalidEvidenceGraph"]) in
  let? (body, digest) := read_referenced (cbReference b) (cbPath b) CommitmentReferencePrefix in
  let? a := wrap_as "%w: %s: %w" "ErrEvidenceArtifactMalformed" (UnmarshalCommitment body) in
  let? _ := require (validCommitmentAttestation a)
              (Errorf "%w: commitment attestation binding is incomplete" [Sentinel "ErrEvidenceArtifactMalformed"]) in
  let? _ := require (String.eqb (caTransactionId a) (cbTransactionID b))
              (Errorf "%w: commitment transaction does not match import binding" [Sentinel "ErrEvidenceScopeMismatch"]) in
  let? v := verifyAssessedCommitment verifiedAt a in
  Ok {| enArtifactID := cbReference b; enArtifactType := ArtifactTypeCommitment; enSHA256 := digest;
        enMediaType := "application/json"; enSchemaRef := "g8e.operator.v1.CommitmentAttestation";
        enProducerIdentity := caAuditorKeyId a; enProducedAt := of_milli (caCommittedAtUnixMs a); enScopeID := cbScopeID b;
        enSourceAdmissionID := ""; enRunID := cbRunID b; enAttemptID := cbAttemptID b; enScenarioID := cbScenarioID b;
        enTransactionID := caTransactionId a; enVerificationStatus := vdStatus v; enVerifierID := vdVerifierID v;
        enVerifierVersion := vdVerifierVersion v; enVerifiedAt := vdVerifiedAt v; enBundlePath := cbPath b; enEncryption := None;
        enCanonicalBytes := body; enReferences := [] |}.
End importers.

(** ** What an imported node is *)

Section exactness.
Context `{E : Ed25519}.
Context (marshal_stage : StageEvidence -> result string).
Context (UnmarshalReceipt : string -> result ActionReceipt) (UnmarshalPersistence : string -> result ReceiptPersistenceAttestation).
Context (UnmarshalCommitment : string -> result CommitmentAttestation).
Context (MarshalPersistence : ReceiptPersistenceAttestation -> result string).
Context (ReadFile : string -> result string) (GetTrustedSignerPublicKey : string -> result string).

(** The bytes of a node are those at its path, and its id is their address. *)
Definition anchored (n : EvidenceNode) (prefix : string) : Prop :=
  ReadFile (enBundlePath n) = Ok (enCanonicalBytes n) /\ enSHA256 n = sha256_hex (enCanonicalBytes n) /\
  enArtifactID n = ContentReferenceForBody prefix (enCanonicalBytes n) /\ ValidRelativePath (enBundlePath n) = true.

Lemma read_referenced_Ok reference path prefix body digest :
  read_referenced ReadFile reference path prefix = Ok (body, digest) ->
  is_Some (ParseExpectedContentReference reference prefix) ->
  ReadFile path = Ok body /\ digest = sha256_hex body /\ reference = ContentReferenceForBody prefix body.
Proof.
  unfold read_referenced, ReadAndDigest. intros H [d Hd]. rewrite Hd in H. cbn [default from_option id] in H.
  destruct (ReadFile path) as [b|]; [|done]. cbn [rbind] in H. destruct (_ <=? _)%Z; [|done]. cbn [require rbind wrap_as] in H.
  unfold VerifyDigest in H. destruct (String.eqb_spec (sha256_hex b) d) as [<-|]; [|done]. cbn in H. injection H as <- <-.
  apply ParseExpected_Some in Hd as [-> _]. done.
Qed.

Lemma trusted_key_Ok fmt id k :
  trusted_key GetTrustedSignerPublicKey fmt id = Ok k ->
  match k with
  | Some key => GetTrustedSignerPublicKey id = Ok key
  | None => err_of (GetTrustedSignerPublicKey id) "ErrTrustedSignerKeyNotFound" = true
  end.
Proof.
  unfold trusted_key, err_of. destruct (GetTrustedSignerPublicKey id) as [key|e]; [by intros [= <-]|].
  destruct (err_is _ e) eqn:He; [|done]. by intros [= <-].
Qed.

Lemma require_bind_Ok {B} c e (k : unit -> result B) r : rbind (require c e) k = Ok r -> c = true /\ k tt = Ok r.
Proof. by destruct c. Qed.

(** The status of a message: nothing but a trusted key makes it verified. *)
Definition status_of (good : string -> bool) (unknown : VerificationStatus) (keyID : string) (s : VerificationStatus) : Prop :=
  match GetTrustedSignerPublicKey keyID with
  | Ok key => s = if good key then StatusVerified else StatusFailed
  | Err e => err_is "ErrTrustedSignerKeyNotFound" e = true /\ s = unknown
  end.

(** C31: A commitment that is imported is the one its reference addresses and its file
    holds.  It is verified exactly when its auditor's key is trusted, its hash is the one of
    its content and the signature on the content is good under that key; without a trusted
    key it is unverified, or failed if the hash is wrong. *)
Theorem commitment_imported verifiedAt b n :
  ImportCommitment UnmarshalCommitment ReadFile GetTrustedSignerPublicKey verifiedAt b = Ok n ->
  anchored n CommitmentReferencePrefix /\
  exists a, UnmarshalCommitment (enCanonicalBytes n) = Ok a /\ validCommitmentAttestation a = true /\
    enTransactionID n = caTransactionId a /\ enTransactionID n = cbTransactionID b /\ enProducerIdentity n = caAuditorKeyId a /\
    let hashed := String.eqb (sha256_hex (CanonicalizeCommitmentAttestation a)) (caHash a) in
    status_of (fun key => hashed && commitment_signature_ok key (CanonicalizeCommitmentAttestation a) (caSignature a))
      (if hashed then StatusUnverified else StatusFailed) (caAuditorKeyId a) (enVerificationStatus n).
Proof.
  unfold ImportCommitment. intros [Hb H]%require_bind_Ok. unfold validCommitmentBinding in Hb. bools.
  match goal with K : is_Some _ |- _ => rename K into Href end.
  destruct (read_referenced _ _ _ _) as [[body digest]|] eqn:Hr; [|done]. cbn [rbind fst snd] in H.
  destruct (read_referenced_Ok _ _ _ _ _ Hr Href) as (Hf & -> & Hid).
  destruct (UnmarshalCommitment body) as [a|] eqn:Ha; [|done]. cbn [rbind wrap_as] in H.
  apply require_bind_Ok in H as [Hv H]. apply require_bind_Ok in H as [Ht H]. apply String.eqb_eq in Ht.
  destruct (verifyAssessedCommitment _ _ _) as [v|] eqn:Hvd; [|done]. injection H as <-. unfold anchored. cbn.
  split; [by split_and!|]. exists a. split_and!; [done|done|done|done|done|].
  unfold verifyAssessedCommitment, trusted_key in Hvd. unfold status_of.
  destruct (GetTrustedSignerPublicKey (caAuditorKeyId a)) as [key|e]; cbn [rbind] in Hvd; [by injection Hvd as <-|].
  destruct (err_is _ e); [|done]. injection Hvd as <-. by destruct (String.eqb _ _).
Qed.

Lemma readCanonicalReceipt_Ok b r body digest :
  validReceiptBinding b ActionReceiptReferencePrefix = true ->
  readCanonicalReceipt UnmarshalReceipt ReadFile b = Ok (r, (body, digest)) ->
  (ReadFile (rbPath b) = Ok body /\ digest = sha256_hex body /\ rbReference b = ContentReferenceForBody ActionReceiptReferencePrefix body) /\
  ValidRelativePath (rbPath b) = true /\ UnmarshalReceipt body = Ok r.
Proof.
  unfold validReceiptBinding, readCanonicalReceipt. intros Hb H. bools. match goal with K : is_Some _ |- _ => rename K into Href end.
  destruct (read_referenced _ _ _ _) as [[body' digest']|] eqn:Hr; [|done]. cbn [rbind fst] in H.
  destruct (UnmarshalReceipt body') as [r'|] eqn:Hu; [|done]. cbn [rbind wrap_as] in H. apply require_bind_Ok in H as [_ H].
  injection H as -> -> ->. by split; [apply read_referenced_Ok|].
Qed.

Lemma readCanonicalPersistence_Ok b a body digest :
  validPersistenceBinding b = true ->
  readCanonicalPersistence UnmarshalPersistence ReadFile b = Ok (a, (body, digest)) ->
  (ReadFile (pbPath b) = Ok body /\ digest = sha256_hex body /\ pbReference b = ContentReferenceForBody ReceiptPersistenceReferencePrefix body) /\
  ValidRelativePath (pbPath b) = true /\ UnmarshalPersistence body = Ok a.
Proof.
  unfold validPersistenceBinding, validReceiptBinding, readCanonicalPersistence. cbn [rbReference rbPath rbScopeID rbRunID]. intros Hb H.
  apply andb_true_iff in Hb as [Hb _]. bools. match goal with K : is_Some _ |- _ => rename K into Href end.
  destruct (read_referenced _ _ _ _) as [[body' digest']|] eqn:Hr; [|done]. cbn [rbind fst] in H.
  destruct (UnmarshalPersistence body') as [r'|] eqn:Hu; [|done]. cbn [rbind wrap_as] in H. apply require_bind_Ok in H as [_ H].
  injection H as -> -> ->. by split; [apply read_referenced_Ok|].
Qed.

Lemma status_of_key good unknown fmt id now v :
  (let? key := trusted_key GetTrustedSignerPublicKey fmt id in
   match key with None => Ok unassessed | Some k => Ok (receipt_verdict (good k) now) end) = Ok v ->
  unknown = StatusUnverified -> status_of good unknown id (vdStatus v).
Proof.
  intros H ->. unfold status_of. unfold trusted_key in H. destruct (GetTrustedSignerPublicKey id) as [key|e]; cbn [rbind] in H.
  - injection H as <-. cbn. by destruct (good key).
  - destruct (err_is _ e); [|done]. by injection H as <-.
Qed.

(** C30: An imported receipt and an imported persistence attestation are what their
    references address and their files hold; the attestation is the one inside the receipt.
    They are verified exactly when the signer's key is trusted and the signature - for an
    attestation both signatures - is good under it, failed when the key is trusted and it is
    not, and unverified when the key is not trusted. *)
Theorem receipt_imported now b pb n pn :
  ImportReceipt marshal_stage UnmarshalReceipt MarshalPersistence ReadFile GetTrustedSignerPublicKey now b = Ok n ->
  ImportPersistence marshal_stage UnmarshalReceipt UnmarshalPersistence ReadFile GetTrustedSignerPublicKey now pb = Ok pn ->
  pbReceiptReference pb = rbReference b -> pbReceiptPath pb = rbPath b ->
  anchored n ActionReceiptReferencePrefix /\ anchored pn ReceiptPersistenceReferencePrefix /\
  exists r a, UnmarshalReceipt (enCanonicalBytes n) = Ok r /\ UnmarshalPersistence (enCanonicalBytes pn) = Ok a /\
    rcAttestation r = Some a /\ enTransactionID n = rcTransactionId r /\ enTransactionID pn = rcTransactionId r /\
    (exists body, MarshalPersistence a = Ok body /\ enReferences n = [ContentReferenceForBody ReceiptPersistenceReferencePrefix body]) /\
    status_of (fun key => is_ok (VerifyActionReceiptSignature marshal_stage (Some r) key))
      StatusUnverified (rcSignerKeyId r) (enVerificationStatus n) /\
    status_of (fun key => is_ok (VerifyActionReceiptSignature marshal_stage (Some r) key) &&
                          is_ok (VerifyReceiptPersistenceAttestation (Some r) key))
      StatusUnverified (rcSignerKeyId r) (enVerificationStatus pn).
Proof.
  intros H Hp Href Hpath. unfold ImportReceipt in H. apply require_bind_Ok in H as [Hb H].
  destruct (readCanonicalReceipt _ _ b) as [[r [body digest]]|] eqn:Hr; [|done]. cbn [rbind] in H.
  destruct (readCanonicalReceipt_Ok _ _ _ _ Hb Hr) as ((Hf & -> & Hid) & Hv & Hu).
  destruct (verifyAssessedReceiptSignature _ _ _ r) as [v|] eqn:Hvd; [|done]. cbn [rbind] in H.
  destruct (receipt_references _ r) as [refs|] eqn:Hrefs; [|done]. injection H as <-.
  unfold ImportPersistence in Hp. apply require_bind_Ok in Hp as [Hpb Hp].
  match type of Hp with context [readCanonicalReceipt _ _ ?b'] => destruct (readCanonicalReceipt UnmarshalReceipt ReadFile b') as [[r2 [body2 digest2]]|] eqn:Hr2 end; [|done].
  cbn [rbind] in Hp. apply readCanonicalReceipt_Ok in Hr2 as ((Hf2 & _ & Hid2) & _ & Hu2); [|by apply andb_true_iff in Hpb as [_ ?]].
  cbn [rbPath rbReference] in Hf2, Hid2. rewrite Hpath, Hf in Hf2. injection Hf2 as <-. rewrite Hu in Hu2. injection Hu2 as <-.
  destruct (readCanonicalPersistence _ _ pb) as [[a [pbody pdigest]]|] eqn:Hpr; [|done]. cbn [rbind] in Hp.
  destruct (readCanonicalPersistence_Ok _ _ _ _ Hpb Hpr) as ((Hpf & -> & Hpid) & Hpv & Hpu).
  apply require_bind_Ok in Hp as [Hm Hp]. apply andb_true_iff in Hm as [Hm _]. apply andb_true_iff in Hm as [Ha Ht].
  apply bool_decide_eq_true in Ha. apply String.eqb_eq in Ht.
  destruct (verifyAssessedPersistence _ _ _ r) as [pv|] eqn:Hpvd; [|done]. injection Hp as <-. unfold anchored. cbn.
  split; [done|]. split; [done|]. exists r, a. split_and!; try done.
  - unfold receipt_references in Hrefs. rewrite Ha in Hrefs. destruct (MarshalPersistence a) as [t|]; [|done]. injection Hrefs as <-. by exists t.
  - by eapply status_of_key.
  - by eapply (status_of_key (fun key => _ && _)).
Qed.
End exactness.

(** ** A concrete import *)

#[local] Existing Instance toy_ed25519.

Definition ex_auditor_id : string := hex_encode (ed_public "auditor").
Definition ex_attestation (signature hash : string) : CommitmentAttestation := {|
  caTransactionId := "tx-1"; caTransactionHash := "th"; caPriorCommitmentHash := ""; caStateRootAtCommit := "root";
  caL2SignatureDigest := ""; caWardenIntentSignatureDigest := "w"; caHumanSignatureDigest := ""; caActionType := "EXECUTE_COMMAND";
  caTargetResource := "host"; caCommittedAtUnixMs := 1700000001000; caAuditorKeyId := ex_auditor_id; caSignature := signature;
  caHash := hash |}.
Definition ex_sealed : CommitmentAttestation :=
  let payload := CanonicalizeCommitmentAttestation (ex_attestation "" "") in
  ex_attestation (hex_encode (ed_sign "auditor" payload)) (sha256_hex payload).

(** Files and keys; the bodies stand for the canonical JSON. *)
Definition ex_files (path : string) : result string :=
  if String.eqb path "c.json" then Ok "sealed" else if String.eqb path "r.json" then Ok "receipt"
  else if String.eqb path "p.json" then Ok "attestation" else Err (Extern "open").
Definition ex_commitments (body : string) : result CommitmentAttestation :=
  if String.eqb body "sealed" then Ok ex_sealed else Err (Extern "protojson").
Definition ex_trust (keyID : string) : result string :=
  if String.eqb keyID ex_auditor_id then Ok (ed_public "auditor") else Err (Sentinel "ErrTrustedSignerKeyNotFound").
Definition ex_no_trust (keyID : string) : result string := Err (Sentinel "ErrTrustedSignerKeyNotFound").

Definition ex_commitment_binding : CommitmentImportBinding := {|
  cbReference := ContentReferenceForBody CommitmentReferencePrefix "sealed"; cbPath := "c.json"; cbScopeID := "s"; cbRunID := "r";
  cbAttemptID := ""; cbScenarioID := ""; cbTransactionID := "tx-1" |}.

Definition ex_import (trust : string -> result string) : result EvidenceNode :=
  ImportCommitment ex_commitments ex_files trust 1700000002000000000%Z ex_commitment_binding.
Definition ex_node : EvidenceNode := match ex_import ex_trust with Ok n => n | Err _ => {|
  enArtifactID := ""; enArtifactType := ""; enSHA256 := ""; enMediaType := ""; enSchemaRef := ""; enProducerIdentity := "";
  enProducedAt := 0%Z; enScopeID := ""; enSourceAdmissionID := ""; enRunID := ""; enAttemptID := ""; enScenarioID := "";
  enTransactionID := ""; enVerificationStatus := StatusPending; enVerifierID := ""; enVerifierVersion := ""; enVerifiedAt := 0%Z;
  enBundlePath := ""; enEncryption := None; enCanonicalBytes := ""; enReferences := [] |} end.

Definition status (r : result EvidenceNode) : option VerificationStatus :=
  match r with Ok n => Some (enVerificationStatus n) | Err _ => None end.

Example ex_statuses : status (ex_import ex_trust) = Some StatusVerified /\ status (ex_import ex_no_trust) = Some StatusUnverified.
Proof. split; vm_compute; reflexivity. Qed.

Lemma commitment_imported_witness :
  anchored ex_files ex_node CommitmentReferencePrefix /\
  exists a, ex_commitments (enCanonicalBytes ex_node) = Ok a /\ validCommitmentAttestation a = true /\
    enTransactionID ex_node = caTransactionId a /\ enTransactionID ex_node = cbTransactionID ex_commitment_binding /\
    enProducerIdentity ex_node = caAuditorKeyId a /\
    let hashed := String.eqb (sha256_hex (CanonicalizeCommitmentAttestation a)) (caHash a) in
    status_of ex_trust (fun key => hashed && commitment_signature_ok key (CanonicalizeCommitmentAttestation a) (caSignature a))
      (if hashed then StatusUnverified else StatusFailed) (caAuditorKeyId a) (enVerificationStatus ex_node).
Proof. apply (commitment_imported ex_commitments ex_files ex_trust 1700000002000000000%Z). vm_compute. reflexivity. Defined.

(** A receipt that was signed and persisted by the key it names. *)
Definition ex_signer_id : string := hex_encode (ed_public "warden").
Definition ex_unsigned (a : option ReceiptPersistenceAttestation) (signature : string) : ActionReceipt := {|
  rcTransactionId := "tx-1"; rcTransactionHash := "th"; rcStatus := STATUS_COMPLETED; rcResultSummary := "done";
  rcStateRootBefore := "root"; rcStateRootAfter := "root2"; rcExecutedAtUnixMs := 1700000001000; rcSignerKeyId := ex_signer_id;
  rcSignature := signature; rcL2Status := LAYER_NOT_REQUIRED; rcL3Status := LAYER_NOT_REQUIRED; rcStages := [];
  rcAttestation := a; rcFailureCode := CODE_UNSPECIFIED; rcEventType := ""; rcActionType := "EXECUTE_COMMAND" |}.
Definition ex_signature : string := match signReceipt toy_marshal "warden" (ex_unsigned None "") with Ok s => s | Err _ => "" end.
Definition ex_persisted : ReceiptPersistenceAttestation :=
  signReceiptPersistenceAttestation "warden" ex_signer_id 1700000001500 (ex_unsigned None ex_signature).
Definition ex_action_receipt : ActionReceipt := ex_unsigned (Some ex_persisted) ex_signature.

Definition ex_receipts (body : string) : result ActionReceipt :=
  if String.eqb body "receipt" then Ok ex_action_receipt else Err (Extern "protojson").
Definition ex_attestations (body : string) : result ReceiptPersistenceAttestation :=
  if String.eqb body "attestation" then Ok ex_persisted else Err (Extern "protojson").
Definition ex_marshal_attestation (a : ReceiptPersistenceAttestation) : result string :=
  if decide (a = ex_persisted) then Ok "attestation" else Err (Extern "protojson").
Definition ex_signer_trust (keyID : string) : result string :=
  if String.eqb keyID ex_signer_id then Ok (ed_public "warden") else Err (Sentinel "ErrTrustedSignerKeyNotFound").

Definition ex_receipt_binding : ReceiptImportBinding := {|
  rbReference := ContentReferenceForBody ActionReceiptReferencePrefix "receipt"; rbPath := "r.json"; rbScopeID := "s"; rbRunID := "r";
  rbAttemptID := ""; rbScenarioID := "" |}.
Definition ex_persistence_binding : PersistenceImportBinding := {|
  pbReference := ContentReferenceForBody ReceiptPersistenceReferencePrefix "attestation"; pbPath := "p.json";
  pbReceiptReference := rbReference ex_receipt_binding; pbReceiptPath := "r.json"; pbScopeID := "s"; pbRunID := "r";
  pbAttemptID := ""; pbScenarioID := "" |}.
Definition ex_receipt_node : EvidenceNode :=
  match ImportReceipt toy_marshal ex_receipts ex_marshal_attestation ex_files ex_signer_trust 7%Z ex_receipt_binding with Ok n => n | Err _ => ex_node end.
Definition ex_persistence_node : EvidenceNode :=
  match ImportPersistence toy_marshal ex_receipts ex_attestations ex_files ex_signer_trust 7%Z ex_persistence_binding with Ok n => n | Err _ => ex_node end.

Example ex_receipt_statuses :
  (enVerificationStatus ex_receipt_node, enVerificationStatus ex_persistence_node) = (StatusVerified, StatusVerified) /\
  enReferences ex_receipt_node = [enArtifactID ex_persistence_node].
Proof. split; vm_compute; reflexivity. Qed.

Lemma receipt_imported_witness :
  anchored ex_files ex_receipt_node ActionReceiptReferencePrefix /\
  anchored ex_files ex_persistence_node ReceiptPersistenceReferencePrefix /\
  exists r a, ex_receipts (enCanonicalBytes ex_receipt_node) = Ok r /\ ex_attestations (enCanonicalBytes ex_persistence_node) = Ok a /\
    rcAttestation r = Some a /\ enTransactionID ex_receipt_node = rcTransactionId r /\ enTransactionID ex_persistence_node = rcTransactionId r /\
    (exists body, ex_marshal_attestation a = Ok body /\
       enReferences ex_receipt_node = [ContentReferenceForBody ReceiptPersistenceReferencePrefix body]) /\
    status_of ex_signer_trust (fun key => is_ok (VerifyActionReceiptSignature toy_marshal (Some r) key))
      StatusUnverified (rcSignerKeyId r) (enVerificationStatus ex_receipt_node) /\
    status_of ex_signer_trust (fun key => is_ok (VerifyActionReceiptSignature toy_marshal (Some r) key) &&
                                          is_ok (VerifyReceiptPersistenceAttestation (Some r) key))
      StatusUnverified (rcSignerKeyId r) (enVerificationStatus ex_persistence_node).
Proof.
  apply (receipt_imported toy_marshal ex_receipts ex_attestations ex_marshal_attestation ex_files ex_signer_trust 7%Z
           ex_receipt_binding ex_persistence_binding).
  - vm_compute. reflexivity.
  - vm_compute. reflexivity.
  - reflexivity.
  - reflexivity.
Defined.
