(* ===== verification/OperationalExport.v ===== *)
(** Exporting a snapshot of operational evidence as a package of files
    ([src/internal/services/compliance/evidence/operational_export.go]).

    Every body is a file named after its digest; the inventory lists the files and the
    bounds of the two segments.  The file system is a map from paths to contents on which a
    write may fail; directories exist once they are asked for. *)
From S2P Require Import Prelude Errors Encoding Sha256 Sqlite Timestamp TimeParse Json JsonEncode JsonDecode JsonTree Envelope Receipt Snapshot Segment Evidence.
From Stdlib Require Import String Ascii List ZArith Lia Bool.
From stdpp Require Import base strings list sorting gmap.
Open Scope string_scope.

Notation files := (gmap string string).

Record OperationalExportRequest := {
  rqScopeID : string; rqAdmissionID : string; rqSourceKind : string; rqSourceVersion : string; rqSourceScopeID : string;
  rqOwnerRuntimeBoundary : string; rqAcquisitionBoundary : string; rqRunID : string; rqSnapshotID : string; rqVerifierID : string;
  rqVerifierVersion : string; rqWindowStart : gotime; rqWindowEnd : gotime; rqMaxRows : Z; rqOutputDir : string
}.

Record OperationalExportArtifact := {
  oaArtifactType : string; oaArtifactID : string; oaSHA256 : string; oaTransactionID : string; oaSequence : Z;
  oaProducedAtUTC : string; oaRelativePath : string
}.

(** The bounds of a segment: first and last number, hash before, last hash, no gap. *)
Record segment_bounds := {
  sbFirst : Z; sbLast : Z; sbBoundaryPriorHash : string; sbHeadHash : string; sbContiguous : bool
}.
Definition no_segment : segment_bounds :=
  {| sbFirst := 0; sbLast := 0; sbBoundaryPriorHash := ""; sbHeadHash := ""; sbContiguous := false |}.

Record OperationalSourceInventory := {
  inSchemaVersion : string; inScopeID : string; inAdmissionID : string; inSourceKind : string; inSourceVersion : string;
  inSourceScopeID : string; inOwnerRuntimeBoundary : string; inAcquisitionBoundary : string; inRunID : string;
  inSnapshotID : string; inVerifierID : string; inVerifierVersion : string; inWindowStartUTC : string; inWindowEndUTC : string;
  inReceiptCount : Z; inCommitmentCount : Z; inPersistenceCount : Z; inCommitmentSegment : segment_bounds;
  inAuditChainCount : Z; inAuditChainSegment : segment_bounds; inLimitations : list string;
  inArtifacts : list OperationalExportArtifact
}.

Definition operationalExportSchemaVersion : string := "operational-evidence-export@1.0.0".

(** ** The inventory's JSON *)

Definition omit_string (k v : string) : list (string * jtree) := if String.eqb v "" then [] else [(k, TS v)].
Definition omit_number (k : string) (v : Z) : list (string * jtree) := if (v =? 0)%Z then [] else [(k, TI v)].
Definition omit_false (k : string) (v : bool) : list (string * jtree) := if v then [(k, TB v)] else [].

Definition artifact_tree (a : OperationalExportArtifact) : jtree :=
  TO ([("artifact_type", TS (oaArtifactType a)); ("artifact_id", TS (oaArtifactID a)); ("sha256", TS (oaSHA256 a))] ++
      omit_string "transaction_id" (oaTransactionID a) ++ omit_number "sequence" (oaSequence a) ++
      [("produced_at_utc", TS (oaProducedAtUTC a)); ("relative_path", TS (oaRelativePath a))])%list.

Definition segment_members (prefix number : string) (s : segment_bounds) : list (string * jtree) :=
  (omit_number (prefix +:+ "_first_" +:+ number) (sbFirst s) ++ omit_number (prefix +:+ "_last_" +:+ number) (sbLast s) ++
   omit_string (prefix +:+ "_boundary_prior_hash") (sbBoundaryPriorHash s) ++ omit_string (prefix +:+ "_head_hash") (sbHeadHash s) ++
   omit_false (prefix +:+ "_sequence_contiguous") (sbContiguous s))%list.

Definition inventory_members (i : OperationalSourceInventory) : list (string * jtree) :=
  ([("schema_version", TS (inSchemaVersion i)); ("scope_id", TS (inScopeID i)); ("admission_id", TS (inAdmissionID i));
    ("source_kind", TS (inSourceKind i)); ("source_version", TS (inSourceVersion i)); ("source_scope_id", TS (inSourceScopeID i));
    ("owner_runtime_boundary", TS (inOwnerRuntimeBoundary i)); ("acquisition_boundary", TS (inAcquisitionBoundary i))] ++
   omit_string "run_id" (inRunID i) ++ omit_string "snapshot_id" (inSnapshotID i) ++
   [("verifier_id", TS (inVerifierID i)); ("verifier_version", TS (inVerifierVersion i));
    ("window_start_utc", TS (inWindowStartUTC i)); ("window_end_utc", TS (inWindowEndUTC i)); ("receipt_count", TI (inReceiptCount i));
    ("commitment_count", TI (inCommitmentCount i)); ("persistence_count", TI (inPersistenceCount i))] ++
   segment_members "commitment" "sequence" (inCommitmentSegment i) ++
   [("audit_chain_count", TI (inAuditChainCount i))] ++
   segment_members "audit_chain" "seq" (inAuditChainSegment i) ++
   match inLimitations i with [] => [] | l => [("limitations", TA (map TS l))] end ++
   [("artifacts", TA (map artifact_tree (inArtifacts i)))])%list.

Definition MarshalInventory (i : OperationalSourceInventory) : string := tree_text (TO (inventory_members i)).

(** ** The export *)

Definition request_complete (r : OperationalExportRequest) : bool :=
  str_nonempty (rqScopeID r) && str_nonempty (rqAdmissionID r) && str_nonempty (rqSourceKind r) && str_nonempty (rqSourceVersion r) &&
  str_nonempty (rqSourceScopeID r) && str_nonempty (rqOwnerRuntimeBoundary r) && str_nonempty (rqAcquisitionBoundary r) &&
  (str_nonempty (rqRunID r) || str_nonempty (rqSnapshotID r)) && str_nonempty (rqVerifierID r) && str_nonempty (rqVerifierVersion r) &&
  negb (rqWindowStart r =? zero_time)%Z && negb (rqWindowEnd r =? zero_time)%Z && negb (rqWindowEnd r <? rqWindowStart r)%Z &&
  (0 <? rqMaxRows r)%Z && str_nonempty (rqOutputDir r).

Local Open Scope sq_scope.

Definition artifact_path (directory body : string) : string := JoinPath [directory; sha256_hex body +:+ ".json"].

(** [writeOperationalArtifact]. *)
Definition writeOperationalArtifact (outputDir directory artifactType transactionID : string) (sequence : Z) (producedAt : gotime)
    (body : string) : sq files OperationalExportArtifact :=
  let relativePath := artifact_path directory body in
  let$ _ := sq_wrap (fun e => Errorf "%w: create operational artifact directory: %w" [Sentinel "ErrDirCreateFailed"; e]) (query (fun _ => tt)) in
  let$ _ := sq_wrap (fun e => Errorf "%w: write operational artifact: %w" [Sentinel "ErrFileWriteFailed"; e])
              (stmt (fun fs => (Ok tt, <[JoinPath [outputDir; relativePath] := body]> fs))) in
  sq_ret {| oaArtifactType := artifactType; oaArtifactID := ContentAddress artifactType body; oaSHA256 := sha256_hex body;
            oaTransactionID := transactionID; oaSequence := sequence; oaProducedAtUTC := FormatRFC3339Nano producedAt;
            oaRelativePath := relativePath |}.

(** [sort.Slice] by number; the numbers differ. *)
Definition chain_source_le (a b : OperationalAuditChainSource) : Prop := (saSeq a <= saSeq b)%Z.
#[export] Instance chain_source_le_dec a b : Decision (chain_source_le a b) := Z_le_dec (saSeq a) (saSeq b).
Definition commitment_source_le (a b : OperationalCommitmentSource) : Prop := (scSequence a <= scSequence b)%Z.
#[export] Instance commitment_source_le_dec a b : Decision (commitment_source_le a b) := Z_le_dec (scSequence a) (scSequence b).

(** [sort.Slice] by path. *)
Definition path_le (a b : OperationalExportArtifact) : Prop := String.leb (oaRelativePath a) (oaRelativePath b) = true.
#[export] Instance path_le_dec a b : Decision (path_le a b) := bool_dec _ _.

(** Every number is one more than the one before. *)
Fixpoint contiguous (l : list Z) : bool :=
  match l with
  | [] => true
  | a :: l => match l with [] => true | b :: _ => (b =? a + 1)%Z end && contiguous l
  end.

(** The entry a chain source is written as. *)
Definition source_entry (e : OperationalAuditChainSource) : AuditChainSegmentEntry := {|
  seSeq := saSeq e; sePrevHash := saPrevHash e; seHash := saHash e; seEventType := saEventType e; seSession := saSession e;
  seTimestamp := FormatTimestamp (saTimestamp e); seDigest := saDigest e; seTransactionID := saTransactionID e;
  seContentText := saContentText e |}.

Definition chain_bounds (l : list OperationalAuditChainSource) : segment_bounds :=
  match l, last l with
  | e :: _, Some e' => {| sbFirst := saSeq e; sbLast := saSeq e'; sbBoundaryPriorHash := saPrevHash e; sbHeadHash := saHash e';
                          sbContiguous := contiguous (map saSeq l) |}
  | _, _ => no_segment
  end.

(** One operation per element of a list. *)
Fixpoint sq_each {St A B} (f : A -> sq St B) (l : list A) : sq St (list B) :=
  match l with
  | [] => sq_ret []
  | a :: l => let$ b := f a in let$ bs := sq_each f l in sq_ret (b :: bs)
  end.

(** What one source adds to the inventory. *)
Record piece := { pcArtifacts : list OperationalExportArtifact; pcLimitations : list string; pcPersistence : Z }.

Section export.
(** [compliancev1.UnmarshalCanonical] and [MarshalCanonical]; the texts of errors. *)
Context (UnmarshalReceipt : string -> result ActionReceipt).
Context (UnmarshalCommitment : string -> result CommitmentAttestation).
Context (MarshalPersistence : ReceiptPersistenceAttestation -> result string).
Context (err_text : gerr -> string).

(** A turn of the loop over the receipts; a nil body is written as an empty file. *)
Definition export_receipt (dir : string) (r : OperationalReceiptSource) : sq files piece :=
  let body := default "" (srBody r) in
  let id := srTransactionID r in
  let$ artifact := writeOperationalArtifact dir "receipts" ArtifactTypeActionReceipt id 0 (srExecutedAt r) body in
  let limited text := sq_ret {| pcArtifacts := [artifact]; pcLimitations := [text]; pcPersistence := 0 |} in
  if String.eqb body "" then limited ("receipt " +:+ id +:+ " has no canonical body")
  else
    match UnmarshalReceipt body with
    | Err e => limited ("receipt " +:+ id +:+ " could not yield persistence evidence: " +:+ err_text e)
    | Ok receipt =>
        match rcAttestation receipt with
        | None => limited ("receipt " +:+ id +:+ " has no final persistence attestation")
        | Some a =>
            let$ abody := sq_lift (wrap_err "operational export: canonicalize persistence attestation %s: %w" (MarshalPersistence a)) in
            let$ partifact := writeOperationalArtifact dir "persistence" ArtifactTypeReceiptPersistence id 0
                                (of_milli (paPersistedAtUnixMs a)) abody in
            sq_ret {| pcArtifacts := [artifact; partifact]; pcLimitations := []; pcPersistence := 1 |}
        end
    end.

Definition export_chain_entry (dir : string) (e : OperationalAuditChainSource) : sq files OperationalExportArtifact :=
  let$ body := sq_lift (wrap_err "operational export: marshal audit chain entry %d: %w" (MarshalAuditChainSegmentEntry (source_entry e))) in
  writeOperationalArtifact dir "audit-chain" ArtifactTypeAuditChainEntry (saTransactionID e) (saSeq e) (saTimestamp e) body.

(** A turn of the loop over the commitments, with the attestation that was read. *)
Definition export_commitment (dir : string) (c : OperationalCommitmentSource) : sq files (piece * option CommitmentAttestation) :=
  let id := scTransactionID c in
  let$ artifact := writeOperationalArtifact dir "commitments" ArtifactTypeCommitment id (scSequence c) (scCommittedAt c) (scBody c) in
  let found limitations a := sq_ret ({| pcArtifacts := [artifact]; pcLimitations := limitations; pcPersistence := 0 |}, a) in
  if String.eqb (scBody c) "" then found ["commitment " +:+ id +:+ " has no canonical body"] None
  else
    match UnmarshalCommitment (scBody c) with
    | Err e => found ["commitment " +:+ id +:+ " could not establish segment bounds: " +:+ err_text e] None
    | Ok a => found [] (Some a)
    end.

Definition commitment_bounds (l : list (OperationalCommitmentSource * option CommitmentAttestation)) : segment_bounds :=
  match l, last l with
  | (c, a) :: _, Some (c', a') => {|
      sbFirst := scSequence c; sbLast := scSequence c';
      sbBoundaryPriorHash := match a with Some a => caPriorCommitmentHash a | None => "" end;
      sbHeadHash := match a' with Some a => caHash a | None => "" end;
      sbContiguous := forallb (fun x => 0 <? scSequence x.1)%Z l && contiguous (map (fun x => scSequence x.1) l) |}
  | _, _ => no_segment
  end.

Definition ExportOperationalEvidence (sn : OperationalEvidenceSnapshot) (r : OperationalExportRequest) : sq files OperationalSourceInventory :=
  let dir := rqOutputDir r in
  let fits {A} (l : list A) := (Z.of_nat (List.length l) <=? rqMaxRows r)%Z in
  if negb (request_complete r) then sq_err (Errorf "%w: operational export request is incomplete" [Sentinel "ErrValidationFailed"])
  else if negb (fits (snReceipts sn) && fits (snCommitments sn) && fits (snAuditChain sn))
  then sq_err (Errorf "%w: operational export exceeds row bound %d" [Sentinel "ErrEvidenceArtifactTooLarge"])
  else
    let$ _ := sq_wrap (fun e => Errorf "%w: create operational export directory: %w" [Sentinel "ErrDirCreateFailed"; e]) (query (fun _ => tt)) in
    let$ receipts := sq_each (export_receipt dir) (snReceipts sn) in
    let chainEntries := merge_sort chain_source_le (snAuditChain sn) in
    let$ chain := sq_each (export_chain_entry dir) chainEntries in
    let commitments := merge_sort commitment_source_le (snCommitments sn) in
    let$ exported := sq_each (export_commitment dir) commitments in
    let artifacts := (concat (map pcArtifacts receipts) ++ chain ++ concat (map (fun x => pcArtifacts x.1) exported))%list in
    let inventory := {|
      inSchemaVersion := operationalExportSchemaVersion; inScopeID := rqScopeID r; inAdmissionID := rqAdmissionID r;
      inSourceKind := rqSourceKind r; inSourceVersion := rqSourceVersion r; inSourceScopeID := rqSourceScopeID r;
      inOwnerRuntimeBoundary := rqOwnerRuntimeBoundary r; inAcquisitionBoundary := rqAcquisitionBoundary r; inRunID := rqRunID r;
      inSnapshotID := rqSnapshotID r; inVerifierID := rqVerifierID r; inVerifierVersion := rqVerifierVersion r;
      inWindowStartUTC := FormatRFC3339Nano (rqWindowStart r); inWindowEndUTC := FormatRFC3339Nano (rqWindowEnd r);
      inReceiptCount := Z.of_nat (List.length (snReceipts sn)); inCommitmentCount := Z.of_nat (List.length (snCommitments sn));
      inPersistenceCount := fold_right Z.add 0%Z (map pcPersistence receipts);
      inCommitmentSegment := commitment_bounds (zip commitments (map snd exported));
      inAuditChainCount := Z.of_nat (List.length (snAuditChain sn)); inAuditChainSegment := chain_bounds chainEntries;
      inLimitations := sort_strings (concat (map pcLimitations receipts) ++ concat (map (fun x => pcLimitations x.1) exported))%list;
      inArtifacts := merge_sort path_le artifacts |} in
    let$ _ := sq_wrap (fun e => Errorf "%w: write operational inventory: %w" [Sentinel "ErrFileWriteFailed"; e])
                (stmt (fun fs => (Ok tt, <[JoinPath [dir; "inventory.json"] := MarshalInventory inventory]> fs))) in
    sq_ret inventory.
End export.
