(* ===== verification/OperationalImport.v ===== *)
(** Importing a package of operational evidence
    ([src/internal/services/compliance/evidence/operational_importer.go]).

    The inventory is checked against the admission of its source, every file against its
    digest; receipts, persistence attestations and commitments are imported, the two
    segments verified, and nodes that belong together refer to each other. *)
From S2P Require Import Prelude Errors Encoding Sha256 Timestamp TimeParse Json JsonDecode Crypto Receipt Chain Segment Evidence EvidenceImport OperationalExport.
From Stdlib Require Import String Ascii List ZArith Lia Bool.
From stdpp Require Import base strings list sorting.
Open Scope string_scope.

(** ** Reading the inventory *)

Definition rd_bool (v : json) : option (option bool) :=
  match v with JBool b => Some (Some b) | JNull => Some None | _ => None end.

(** A slice: null is the empty one.  Of a list given twice the last counts. *)
Definition rd_slice {A} (rd : json -> option A) (v : json) : option (option (list A)) :=
  match v with
  | JArray l => match mapM rd l with Some l => Some (Some l) | None => None end
  | JNull => Some (Some [])
  | _ => None
  end.

Definition rd_text (v : json) : option string := match v with JString s => Some s | JNull => Some "" | _ => None end.

Definition read_artifact (ms : list (string * json)) : option OperationalExportArtifact :=
  type ← read_string "artifact_type" ms; id ← read_string "artifact_id" ms; digest ← read_string "sha256" ms;
  tx ← read_string "transaction_id" ms; seq ← read_int64 "sequence" ms; at_time ← read_string "produced_at_utc" ms;
  path ← read_string "relative_path" ms;
  Some {| oaArtifactType := type; oaArtifactID := id; oaSHA256 := digest; oaTransactionID := tx; oaSequence := seq;
          oaProducedAtUTC := at_time; oaRelativePath := path |}.

Definition rd_artifact (v : json) : option OperationalExportArtifact :=
  match v with JObject ms => read_artifact ms | JNull => read_artifact [] | _ => None end.

Definition read_segment (prefix number : string) (ms : list (string * json)) : option segment_bounds :=
  first ← read_int64 (prefix +:+ "_first_" +:+ number) ms; final ← read_int64 (prefix +:+ "_last_" +:+ number) ms;
  prior ← read_string (prefix +:+ "_boundary_prior_hash") ms; head ← read_string (prefix +:+ "_head_hash") ms;
  whole ← read_field rd_bool (prefix +:+ "_sequence_contiguous") ms false;
  Some {| sbFirst := first; sbLast := final; sbBoundaryPriorHash := prior; sbHeadHash := head; sbContiguous := whole |}.

Definition read_inventory (ms : list (string * json)) : option OperationalSourceInventory :=
  schema ← read_string "schema_version" ms; scope ← read_string "scope_id" ms; admission ← read_string "admission_id" ms;
  kind ← read_string "source_kind" ms; version ← read_string "source_version" ms; sscope ← read_string "source_scope_id" ms;
  owner ← read_string "owner_runtime_boundary" ms; acq ← read_string "acquisition_boundary" ms; run ← read_string "run_id" ms;
  snap ← read_string "snapshot_id" ms; vid ← read_string "verifier_id" ms; vver ← read_string "verifier_version" ms;
  ws ← read_string "window_start_utc" ms; we ← read_string "window_end_utc" ms; rc ← read_int64 "receipt_count" ms;
  cc ← read_int64 "commitment_count" ms; pc ← read_int64 "persistence_count" ms; cseg ← read_segment "commitment" "sequence" ms;
  ac ← read_int64 "audit_chain_count" ms; aseg ← read_segment "audit_chain" "seq" ms;
  lims ← read_field (rd_slice rd_text) "limitations" ms []; arts ← read_field (rd_slice rd_artifact) "artifacts" ms [];
  Some {| inSchemaVersion := schema; inScopeID := scope; inAdmissionID := admission; inSourceKind := kind; inSourceVersion := version;
          inSourceScopeID := sscope; inOwnerRuntimeBoundary := owner; inAcquisitionBoundary := acq; inRunID := run;
          inSnapshotID := snap; inVerifierID := vid; inVerifierVersion := vver; inWindowStartUTC := ws; inWindowEndUTC := we;
          inReceiptCount := rc; inCommitmentCount := cc; inPersistenceCount := pc; inCommitmentSegment := cseg;
          inAuditChainCount := ac; inAuditChainSegment := aseg; inLimitations := lims; inArtifacts := arts |}.

Definition UnmarshalInventory (body : string) : result OperationalSourceInventory :=
  match (ms ← struct_members body; read_inventory ms) with
  | Some i => Ok i
  | None => Err (Errorf "%w: decode operational inventory: %w" [Sentinel "ErrEvidenceArtifactMalformed"; Extern "json"])
  end.

(** ** The importer *)

(** The fields of an admission the importer reads. *)
Record AssessmentSourceAdmission := {
  adAdmissionId : string; adSourceKind : string; adSourceVersion : string; adSourceScopeId : string;
  adOwnerRuntimeBoundary : string; adAcquisitionBoundary : string; adRunId : string; adSnapshotId : string;
  adVerifierId : string; adVerifierVersion : string
}.

Record OperationalExportImporter := {
  oiInventoryPath : string; oiSourceRoot : string; oiScopeID : string; oiAdmission : AssessmentSourceAdmission;
  oiVerifiedAt : gotime; oiNow : gotime
}.

Definition inventoryMatchesAdmission (i : OperationalExportImporter) (v : OperationalSourceInventory) : bool :=
  let a := oiAdmission i in
  String.eqb (inSchemaVersion v) operationalExportSchemaVersion && String.eqb (inScopeID v) (oiScopeID i) &&
  String.eqb (inAdmissionID v) (adAdmissionId a) && String.eqb (inSourceKind v) (adSourceKind a) &&
  String.eqb (inSourceVersion v) (adSourceVersion a) && String.eqb (inSourceScopeID v) (adSourceScopeId a) &&
  String.eqb (inOwnerRuntimeBoundary v) (adOwnerRuntimeBoundary a) && String.eqb (inAcquisitionBoundary v) (adAcquisitionBoundary a) &&
  String.eqb (inRunID v) (adRunId a) && String.eqb (inSnapshotID v) (adSnapshotId a) && String.eqb (inVerifierID v) (adVerifierId a) &&
  String.eqb (inVerifierVersion v) (adVerifierVersion a).

Definition sourceArtifactPath (i : OperationalExportImporter) (relativePath : string) : string :=
  if String.eqb (oiSourceRoot i) "" then relativePath else JoinPath [oiSourceRoot i; relativePath].

Definition matchesOperationalArtifact (a : OperationalExportArtifact) (body : string) : bool :=
  String.eqb (sha256_hex body) (oaSHA256 a) && String.eqb (ContentAddress (oaArtifactType a) body) (oaArtifactID a).

Definition known_type (t : string) : bool :=
  mem t [ArtifactTypeActionReceipt; ArtifactTypeReceiptPersistence; ArtifactTypeCommitment; ArtifactTypeAuditChainEntry].

(** The checks of one entry of the inventory against the entries before it. *)
Definition entry_valid (a : OperationalExportArtifact) (seenPaths seenIDs : list string) : result unit :=
  let? _ := require (ValidRelativePath (oaRelativePath a) && str_nonempty (oaSHA256 a) && str_nonempty (oaArtifactID a) &&
                     str_nonempty (oaProducedAtUTC a) && known_type (oaArtifactType a))
              (Errorf "%w: operational artifact inventory entry is incomplete" [Sentinel "ErrEvidenceArtifactMalformed"]) in
  let is_chain := String.eqb (oaArtifactType a) ArtifactTypeAuditChainEntry in
  let? _ := require (is_chain || str_nonempty (oaTransactionID a))
              (Errorf "%w: operational artifact inventory entry is incomplete" [Sentinel "ErrEvidenceArtifactMalformed"]) in
  let? _ := require (negb is_chain || (0 <? oaSequence a)%Z)
              (Errorf "%w: operational audit chain entry sequence is missing" [Sentinel "ErrEvidenceArtifactMalformed"]) in
  let? _ := require (negb (mem (oaRelativePath a) seenPaths))
              (Errorf "%w: duplicate operational artifact path %s" [Sentinel "ErrEvidenceDuplicateID"]) in
  require (negb (mem (oaArtifactID a) seenIDs))
    (Errorf "%w: duplicate operational artifact identity %s" [Sentinel "ErrEvidenceDuplicateID"]).

Definition of_type (t : string) (l : list OperationalExportArtifact) : list OperationalExportArtifact :=
  List.filter (fun a => String.eqb (oaArtifactType a) t) l.

Definition artifact_le (a b : OperationalExportArtifact) : Prop := (oaSequence a <= oaSequence b)%Z.
#[export] Instance artifact_le_dec a b : Decision (artifact_le a b) := Z_le_dec (oaSequence a) (oaSequence b).

(** A reference is added to the nodes with an id, to the first of them only when [once]. *)
Fixpoint add_reference (once : bool) (id ref : string) (nodes : list EvidenceNode) : list EvidenceNode :=
  match nodes with
  | [] => []
  | n :: nodes =>
      if String.eqb (enArtifactID n) id
      then {| enArtifactID := enArtifactID n; enArtifactType := enArtifactType n; enSHA256 := enSHA256 n; enMediaType := enMediaType n;
              enSchemaRef := enSchemaRef n; enProducerIdentity := enProducerIdentity n; enProducedAt := enProducedAt n;
              enScopeID := enScopeID n; enSourceAdmissionID := enSourceAdmissionID n; enRunID := enRunID n;
              enAttemptID := enAttemptID n; enScenarioID := enScenarioID n; enTransactionID := enTransactionID n;
              enVerificationStatus := enVerificationStatus n; enVerifierID := enVerifierID n; enVerifierVersion := enVerifierVersion n;
              enVerifiedAt := enVerifiedAt n; enBundlePath := enBundlePath n; enEncryption := enEncryption n;
              enCanonicalBytes := enCanonicalBytes n; enReferences := (enReferences n ++ [ref])%list |} ::
           (if once then nodes else add_reference once id ref nodes)
      else n :: add_reference once id ref nodes
  end.

(** ** The segments *)

(** A commitment record: its number, its node, its attestation. *)
Record operationalCommitmentRecord := { ocSequence : Z; ocNodeID : string; ocAttestation : CommitmentAttestation }.

(** Every pair of neighbours in a list. *)
Fixpoint neighbours {A} (ok : A -> A -> bool) (l : list A) : bool :=
  match l with
  | [] => true
  | a :: l => match l with [] => true | b :: _ => ok a b end && neighbours ok l
  end.

Definition validateOperationalCommitmentSegment (v : OperationalSourceInventory) (records : list operationalCommitmentRecord) : result unit :=
  let s := inCommitmentSegment v in
  match records, last records with
  | r :: _, Some r' =>
      let? _ := require ((sbFirst s =? ocSequence r)%Z && (sbLast s =? ocSequence r')%Z &&
                         String.eqb (sbBoundaryPriorHash s) (caPriorCommitmentHash (ocAttestation r)) &&
                         String.eqb (sbHeadHash s) (caHash (ocAttestation r')))
                  (Errorf "%w: operational commitment segment bounds do not match its attestations" [Sentinel "ErrEvidenceScopeMismatch"]) in
      let? _ := require (sbContiguous s && (ocSequence r' - ocSequence r + 1 =? Z.of_nat (List.length records))%Z)
                  (Errorf "%w: operational commitment segment sequence has a gap" [Sentinel "ErrInvalidEvidenceGraph"]) in
      require (neighbours (fun a b => (ocSequence b =? ocSequence a + 1)%Z &&
                                      String.eqb (caPriorCommitmentHash (ocAttestation b)) (caHash (ocAttestation a))) records)
        (Errorf "%w: operational commitment segment predecessor link is invalid" [Sentinel "ErrInvalidEvidenceGraph"])
  | _, _ => Ok tt
  end.

Definition validateOperationalAuditChainInventory (v : OperationalSourceInventory) (segment : list AuditChainSegmentEntry) : result unit :=
  let s := inAuditChainSegment v in
  let sorted := sorted_entries segment in
  match sorted, last sorted with
  | e :: _, Some e' =>
      let? _ := require ((sbFirst s =? seSeq e)%Z && (sbLast s =? seSeq e')%Z)
                  (Errorf "%w: operational audit chain segment bounds do not match inventory" [Sentinel "ErrEvidenceScopeMismatch"]) in
      let? _ := require (sbContiguous s && (seSeq e' - seSeq e + 1 =? Z.of_nat (List.length sorted))%Z)
                  (Errorf "%w: operational audit chain segment sequence has a gap" [Sentinel "ErrInvalidEvidenceGraph"]) in
      require (neighbours (fun a b => (seSeq b =? seSeq a + 1)%Z && String.eqb (sePrevHash b) (seHash a)) sorted)
        (Errorf "%w: operational audit chain segment predecessor link is invalid" [Sentinel "ErrInvalidEvidenceGraph"])
  | _, _ => require (inAuditChainCount v =? 0)%Z
              (Errorf "%w: operational audit chain inventory is non-empty without artifacts" [Sentinel "ErrEvidenceArtifactMalformed"])
  end.

(** The commitment's receipt, and its reference if the receipt has the stage. *)
Definition commitment_stage_matches (a : CommitmentAttestation) (s : StageEvidence) : bool :=
  String.eqb (stTransactionId s) (caTransactionId a) && String.eqb (stTransactionHash s) (caTransactionHash a) &&
  String.eqb (stCommitmentHash s) (caHash a) && String.eqb (stPriorCommitmentHash s) (caPriorCommitmentHash a) &&
  String.eqb (stSignerKeyId s) (caAuditorKeyId a) && String.eqb (stL2SignatureDigest s) (caL2SignatureDigest a) &&
  String.eqb (stL3SignatureDigest s) (caHumanSignatureDigest a).

Definition validateOperationalCommitmentReceiptLink (a : CommitmentAttestation) (receipt : ActionReceipt) (receiptReference : string)
    : result string :=
  let? _ := require (String.eqb (caTransactionHash a) (rcTransactionHash receipt))
              (Errorf "%w: commitment %s transaction hash does not match retained receipt" [Sentinel "ErrEvidenceScopeMismatch"]) in
  match List.find (fun s => bool_decide (stKind s = COMMITMENT_APPEND)) (rcStages receipt) with
  | None => Ok ""
  | Some s => if commitment_stage_matches a s then Ok receiptReference
              else Err (Errorf "%w: commitment %s does not match its retained commitment stage" [Sentinel "ErrEvidenceScopeMismatch"])
  end.

(** ** Importing *)

(** A receipt that was imported: its transaction, the message, its node. *)
Record imported_receipt := { irTransactionID : string; irReceipt : ActionReceipt; irNode : EvidenceNode }.

Section import.
Context `{E : Ed25519}.
Context (marshal_stage marshal_canonical_stage : StageEvidence -> result string).
Context (UnmarshalReceipt : string -> result ActionReceipt) (UnmarshalPersistence : string -> result ReceiptPersistenceAttestation).
Context (UnmarshalCommitment : string -> result CommitmentAttestation).
Context (MarshalReceipt : ActionReceipt -> result string) (MarshalPersistence : ReceiptPersistenceAttestation -> result string).
Context (ReadFile : string -> result string) (GetTrustedSignerPublicKey : string -> result string).
(** The order in which [Import] ranges over the map of imported receipts. *)
Context (range_receipts : list imported_receipt -> list imported_receipt).

Definition importer_ready (i : OperationalExportImporter) : bool :=
  ValidRelativePath (oiInventoryPath i) && str_nonempty (oiScopeID i) && str_nonempty (adAdmissionId (oiAdmission i)) &&
  str_nonempty (adRunId (oiAdmission i)) && negb (oiVerifiedAt i =? zero_time)%Z.

(** The loop over the inventory: the entries are in order and every file is as listed. *)
Fixpoint check_artifacts (i : OperationalExportImporter) (seenPaths seenIDs : list string) (l : list OperationalExportArtifact) : result unit :=
  match l with
  | [] => Ok tt
  | a :: l =>
      let? _ := entry_valid a seenPaths seenIDs in
      let? body := wrap_as "%w: read operational artifact %s: %w" "ErrEvidenceImporterFailed" (ReadFile (sourceArtifactPath i (oaRelativePath a))) in
      let? _ := require (matchesOperationalArtifact a body)
                  (Errorf "%w: operational artifact %s does not match its inventory digest" [Sentinel "ErrChecksumMismatch"]) in
      check_artifacts i (oaRelativePath a :: seenPaths) (oaArtifactID a :: seenIDs) l
  end.

Definition receiptTransactionID (body : string) : result string :=
  match UnmarshalReceipt body with
  | Ok r => if str_nonempty (rcTransactionId r) then Ok (rcTransactionId r)
            else Err (Errorf "%w: operational receipt transaction binding is incomplete" [Sentinel "ErrEvidenceArtifactMalformed"])
  | Err _ => Err (Errorf "%w: operational receipt transaction binding is incomplete" [Sentinel "ErrEvidenceArtifactMalformed"])
  end.

Definition persistenceTransactionID (body : string) : result string :=
  match UnmarshalPersistence body with
  | Ok a => if str_nonempty (paTransactionId a) then Ok (paTransactionId a)
            else Err (Errorf "%w: operational persistence transaction binding is incomplete" [Sentinel "ErrEvidenceArtifactMalformed"])
  | Err _ => Err (Errorf "%w: operational persistence transaction binding is incomplete" [Sentinel "ErrEvidenceArtifactMalformed"])
  end.

Definition binding_of (i : OperationalExportImporter) (a : OperationalExportArtifact) : ReceiptImportBinding := {|
  rbReference := oaArtifactID a; rbPath := sourceArtifactPath i (oaRelativePath a); rbScopeID := oiScopeID i;
  rbRunID := adRunId (oiAdmission i); rbAttemptID := ""; rbScenarioID := "" |}.

(** [receiptBindings]: transaction ids with their bindings, the latest first. *)
Fixpoint bind_receipts (i : OperationalExportImporter) (bindings : list (string * ReceiptImportBinding)) (l : list OperationalExportArtifact)
    : result (list (string * ReceiptImportBinding)) :=
  match l with
  | [] => Ok bindings
  | a :: l =>
      let? body := ReadFile (sourceArtifactPath i (oaRelativePath a)) in
      let? transactionID := receiptTransactionID body in
      let? _ := require (String.eqb transactionID (oaTransactionID a))
                  (Errorf "%w: operational receipt transaction does not match inventory" [Sentinel "ErrEvidenceScopeMismatch"]) in
      let? _ := require (negb (mem transactionID (map fst bindings)))
                  (Errorf "%w: duplicate operational receipt transaction %s" [Sentinel "ErrEvidenceDuplicateID"]) in
      bind_receipts i ((transactionID, binding_of i a) :: bindings) l
  end.

(** [receiptBindingsForEntry]: the binding with the entry's reference; references differ. *)
Definition receiptBindingsForEntry (bindings : list (string * ReceiptImportBinding)) (a : OperationalExportArtifact) : ReceiptImportBinding :=
  match List.find (fun b => String.eqb (rbReference b.2) (oaArtifactID a)) bindings with
  | Some b => b.2
  | None => {| rbReference := ""; rbPath := ""; rbScopeID := ""; rbRunID := ""; rbAttemptID := ""; rbScenarioID := "" |}
  end.

(** The node of a receipt's stages; none without stages. *)
Definition operationalProtocolChainNode (receipt : ActionReceipt) (n : EvidenceNode) : result (option EvidenceNode) :=
  match rcStages receipt with
  | [] => Ok None
  | _ =>
      let? chain := wrap_as "%w: validate operational protocol chain: %w" "ErrInvalidEvidenceGraph"
                      (ValidateDeterministicProtocolChain marshal_canonical_stage (Some receipt)) in
      let? canonical := CanonicalDeterministicStages marshal_canonical_stage (Stages chain) in
      match ParseExpectedContentReference (ContentReference chain) "deterministic-stages" with
      | Some digest =>
          if VerifyDigest canonical digest then
            Ok (Some {| enArtifactID := ContentAddress ArtifactTypeProtocolChain canonical; enArtifactType := ArtifactTypeProtocolChain;
                        enSHA256 := digest; enMediaType := "application/octet-stream";
                        enSchemaRef := "g8e.operator.v1.DeterministicStageEvidence[]"; enProducerIdentity := enProducerIdentity n;
                        enProducedAt := enProducedAt n; enScopeID := enScopeID n; enSourceAdmissionID := ""; enRunID := enRunID n;
                        enAttemptID := ""; enScenarioID := ""; enTransactionID := enTransactionID n;
                        enVerificationStatus := enVerificationStatus n; enVerifierID := enVerifierID n;
                        enVerifierVersion := enVerifierVersion n; enVerifiedAt := enVerifiedAt n; enBundlePath := enBundlePath n;
                        enEncryption := None; enCanonicalBytes := canonical; enReferences := [enArtifactID n] |})
          else Err (Errorf "%w: operational deterministic stage digest does not match reference" [Sentinel "ErrChecksumMismatch"])
      | None => Err (Errorf "%w: operational deterministic stage digest does not match reference" [Sentinel "ErrChecksumMismatch"])
      end
  end.

Fixpoint import_receipts (i : OperationalExportImporter) (bindings : list (string * ReceiptImportBinding)) (l : list OperationalExportArtifact)
    : result (list imported_receipt * list EvidenceNode) :=
  match l with
  | [] => Ok ([], [])
  | a :: l =>
      let b := receiptBindingsForEntry bindings a in
      let? n := ImportReceipt marshal_stage UnmarshalReceipt MarshalPersistence ReadFile GetTrustedSignerPublicKey (oiNow i) b in
      let? body := ReadFile (rbPath b) in
      let? receipt := wrap_as "%w: decode operational receipt for protocol chain: %w" "ErrEvidenceArtifactMalformed" (UnmarshalReceipt body) in
      let? chain := operationalProtocolChainNode receipt n in
      let? (receipts, nodes) := import_receipts i bindings l in
      Ok ({| irTransactionID := oaTransactionID a; irReceipt := receipt; irNode := n |} :: receipts,
          (n :: match chain with Some c => [c] | None => [] end) ++ nodes)%list
  end.

Fixpoint import_persistence (i : OperationalExportImporter) (bindings : list (string * ReceiptImportBinding)) (l : list OperationalExportArtifact)
    : result (list EvidenceNode) :=
  match l with
  | [] => Ok []
  | a :: l =>
      let path := sourceArtifactPath i (oaRelativePath a) in
      let? body := ReadFile path in
      let? transactionID := persistenceTransactionID body in
      let? _ := require (String.eqb transactionID (oaTransactionID a))
                  (Errorf "%w: operational persistence transaction does not match inventory" [Sentinel "ErrEvidenceScopeMismatch"]) in
      match List.find (fun b => String.eqb b.1 transactionID) bindings with
      | None => Err (Errorf "%w: persistence attestation %s has no exported receipt" [Sentinel "ErrUnresolvedReference"])
      | Some (_, b) =>
          let? n := ImportPersistence marshal_stage UnmarshalReceipt UnmarshalPersistence ReadFile GetTrustedSignerPublicKey (oiNow i)
                      {| pbReference := oaArtifactID a; pbPath := path; pbReceiptReference := rbReference b; pbReceiptPath := rbPath b;
                         pbScopeID := oiScopeID i; pbRunID := adRunId (oiAdmission i); pbAttemptID := ""; pbScenarioID := "" |} in
          let? nodes := import_persistence i bindings l in
          Ok (n :: nodes)
      end
  end.

Fixpoint import_commitments (i : OperationalExportImporter) (l : list OperationalExportArtifact)
    : result (list operationalCommitmentRecord * list EvidenceNode) :=
  match l with
  | [] => Ok ([], [])
  | a :: l =>
      let path := sourceArtifactPath i (oaRelativePath a) in
      let? _ := require (0 <? oaSequence a)%Z (Errorf "%w: operational commitment sequence is missing" [Sentinel "ErrEvidenceArtifactMalformed"]) in
      let? n := ImportCommitment UnmarshalCommitment ReadFile GetTrustedSignerPublicKey (oiVerifiedAt i)
                  {| cbReference := oaArtifactID a; cbPath := path; cbScopeID := oiScopeID i; cbRunID := adRunId (oiAdmission i);
                     cbAttemptID := ""; cbScenarioID := ""; cbTransactionID := oaTransactionID a |} in
      let? body := wrap_as "%w: read operational commitment for segment: %w" "ErrEvidenceImporterFailed" (ReadFile path) in
      let? attestation := wrap_as "%w: decode operational commitment for segment: %w" "ErrEvidenceArtifactMalformed" (UnmarshalCommitment body) in
      let? (records, nodes) := import_commitments i l in
      Ok ({| ocSequence := oaSequence a; ocNodeID := enArtifactID n; ocAttestation := attestation |} :: records, n :: nodes)
  end.

(** One entry of the audit chain and its node. *)
Definition import_chain_entry (i : OperationalExportImporter) (a : OperationalExportArtifact) : result (AuditChainSegmentEntry * EvidenceNode) :=
  let path := sourceArtifactPath i (oaRelativePath a) in
  let? body := ReadFile path in
  let? _ := require (matchesOperationalArtifact a body)
              (Errorf "%w: operational audit chain entry %s does not match its inventory digest" [Sentinel "ErrChecksumMismatch"]) in
  let? entry := UnmarshalAuditChainSegmentEntry body in
  let? _ := require (seSeq entry =? oaSequence a)%Z
              (Errorf "%w: operational audit chain sequence does not match inventory" [Sentinel "ErrEvidenceScopeMismatch"]) in
  let? _ := require (String.eqb (oaTransactionID a) "" || String.eqb (seTransactionID entry) (oaTransactionID a))
              (Errorf "%w: operational audit chain transaction does not match inventory" [Sentinel "ErrEvidenceScopeMismatch"]) in
  let? producedAt := wrap_as "%w: parse audit chain timestamp: %w" "ErrEvidenceArtifactMalformed"
                       (match parse_rfc3339 (seTimestamp entry) with Some t => Ok t | None => Err (Extern "time.Parse") end) in
  Ok (entry,
      {| enArtifactID := oaArtifactID a; enArtifactType := ArtifactTypeAuditChainEntry; enSHA256 := oaSHA256 a;
         enMediaType := "application/json"; enSchemaRef := "g8e.storage.AuditChainSegmentEntry";
         enProducerIdentity := if String.eqb (seSession entry) "" then adAdmissionId (oiAdmission i) else seSession entry;
         enProducedAt := producedAt; enScopeID := oiScopeID i; enSourceAdmissionID := ""; enRunID := adRunId (oiAdmission i);
         enAttemptID := ""; enScenarioID := ""; enTransactionID := seTransactionID entry; enVerificationStatus := StatusVerified;
         enVerifierID := "g8e-audit-chain-evidence-importer"; enVerifierVersion := "1.0.0"; enVerifiedAt := oiVerifiedAt i;
         enBundlePath := path; enEncryption := None; enCanonicalBytes := body; enReferences := [] |}).

Fixpoint import_chain_entries (i : OperationalExportImporter) (l : list OperationalExportArtifact)
    : result (list AuditChainSegmentEntry * list EvidenceNode) :=
  match l with
  | [] => Ok ([], [])
  | a :: l =>
      let? (entry, n) := import_chain_entry i a in
      let? (segment, nodes) := import_chain_entries i l in
      Ok (entry :: segment, n :: nodes)
  end.

Definition importOperationalAuditChainEntries (i : OperationalExportImporter) (l : list OperationalExportArtifact)
    (v : OperationalSourceInventory) : result (list AuditChainSegmentEntry * list EvidenceNode) :=
  let? (segment, nodes) := import_chain_entries i l in
  let s := inAuditChainSegment v in
  let? _ := wrap_as "%w: %w" "ErrInvalidEvidenceGraph"
              (VerifyAuditChainSegment segment (sbBoundaryPriorHash s) (sbHeadHash s)) in
  Ok (segment, nodes).

Definition operationalReceiptMatchesChainEntry (receipt : ActionReceipt) (chainBody : string) : bool :=
  match UnmarshalAuditChainSegmentEntry chainBody with
  | Err _ => false
  | Ok entry =>
      if negb (String.eqb (seTransactionID entry) "") && negb (String.eqb (seTransactionID entry) (rcTransactionId receipt)) then false
      else match MarshalReceipt receipt with Ok body => String.eqb (seContentText entry) body | Err _ => false end
  end.

(** Commitments refer to their receipts. *)
Fixpoint link_commitments (receipts : list imported_receipt) (records : list operationalCommitmentRecord) (nodes : list EvidenceNode)
    : result (list EvidenceNode) :=
  match records with
  | [] => Ok nodes
  | r :: records =>
      match List.find (fun x => String.eqb (irTransactionID x) (caTransactionId (ocAttestation r))) receipts with
      | None => link_commitments receipts records nodes
      | Some x =>
          let? reference := validateOperationalCommitmentReceiptLink (ocAttestation r) (irReceipt x) (enArtifactID (irNode x)) in
          link_commitments receipts records
            (if String.eqb reference "" then nodes else add_reference true (ocNodeID r) reference nodes)
      end
  end.

(** A receipt and the chain entry with its body refer to each other. *)
Definition link_pair (x : imported_receipt) (c : EvidenceNode) (nodes : list EvidenceNode) : list EvidenceNode :=
  if String.eqb (enTransactionID c) (irTransactionID x) && operationalReceiptMatchesChainEntry (irReceipt x) (enCanonicalBytes c)
  then add_reference false (enArtifactID c) (enArtifactID (irNode x)) (add_reference false (enArtifactID (irNode x)) (enArtifactID c) nodes)
  else nodes.

Definition link_receipts (receipts : list imported_receipt) (chain nodes : list EvidenceNode) : list EvidenceNode :=
  fold_left (fun nodes x => fold_left (fun nodes c => link_pair x c nodes) chain nodes) receipts nodes.

Definition Import (i : OperationalExportImporter) : result (list EvidenceNode) :=
  let? _ := require (importer_ready i)
              (Errorf "%w: operational export reader, trust, inventory, scope, admission, run, and assessment time are required"
                 [Sentinel "ErrInvalidEvidenceGraph"]) in
  let? inventoryBody := wrap_as "%w: read operational inventory: %w" "ErrEvidenceImporterFailed" (ReadFile (oiInventoryPath i)) in
  let? v := UnmarshalInventory inventoryBody in
  let? _ := require (inventoryMatchesAdmission i v)
              (Errorf "%w: operational inventory does not match its protected source admission" [Sentinel "ErrEvidenceScopeMismatch"]) in
  let artifacts := merge_sort path_le (inArtifacts v) in
  let? _ := check_artifacts i [] [] artifacts in
  let receiptEntries := of_type ArtifactTypeActionReceipt artifacts in
  let persistenceEntries := of_type ArtifactTypeReceiptPersistence artifacts in
  let commitmentEntries := of_type ArtifactTypeCommitment artifacts in
  let chainEntries := of_type ArtifactTypeAuditChainEntry artifacts in
  let counted (n : Z) (l : list OperationalExportArtifact) := (n =? Z.of_nat (List.length l))%Z in
  let? _ := require (counted (inReceiptCount v) receiptEntries && counted (inPersistenceCount v) persistenceEntries &&
                     counted (inCommitmentCount v) commitmentEntries && counted (inAuditChainCount v) chainEntries)
              (Errorf "%w: operational artifact counts do not match inventory" [Sentinel "ErrEvidenceArtifactMalformed"]) in
  let? bindings := bind_receipts i [] receiptEntries in
  let? (receipts, receiptNodes) := import_receipts i bindings receiptEntries in
  let? persistenceNodes := import_persistence i bindings persistenceEntries in
  let? (records, commitmentNodes) := import_commitments i (merge_sort artifact_le commitmentEntries) in
  let? _ := validateOperationalCommitmentSegment v records in
  let? (segment, chainNodes) := importOperationalAuditChainEntries i chainEntries v in
  let? nodes := link_commitments receipts records (receiptNodes ++ persistenceNodes ++ commitmentNodes ++ chainNodes)%list in
  let nodes := link_receipts (range_receipts receipts) chainNodes nodes in
  let? _ := validateOperationalAuditChainInventory v segment in
  Ok nodes.
End import.
