(* ===== verification/OperationalInventory.v ===== *)
(** The inventory of a package of operational evidence: what is written is read back. *)
From S2P Require Import Prelude Errors Encoding Json JsonEncode JsonDecode JsonTree Evidence OperationalExport OperationalImport.
From Stdlib Require Import String Ascii List ZArith Lia Bool.
From stdpp Require Import base strings list.
Open Scope string_scope.

(** ** Structs as pieces *)

(** A field that is written, or is left out because it is empty. *)
Definition piece : Type := string * option jtree.
Definition written (p : piece) : list (string * jtree) := match p.2 with Some t => [(p.1, t)] | None => [] end.
Definition members (ps : list piece) : list (string * jtree) := flat_map written ps.
Definition json_members (ms : list (string * jtree)) : list (string * json) := map (fun kv => (kv.1, tree_json kv.2)) ms.

Definition text_piece (k v : string) : piece := (k, Some (TS v)).
Definition number_piece (k : string) (v : Z) : piece := (k, Some (TI v)).
Definition some_text (k v : string) : piece := (k, if String.eqb v "" then None else Some (TS v)).
Definition some_number (k : string) (v : Z) : piece := (k, if (v =? 0)%Z then None else Some (TI v)).
Definition some_true (k : string) (v : bool) : piece := (k, if v then Some (TB v) else None).

(** What a reader makes of a field. *)
Definition piece_value {A} (rd : json -> option (option A)) (cur : A) (o : option jtree) : option A :=
  match o with
  | Some t => match rd (tree_json t) with Some (Some a) => Some a | Some None => Some cur | None => None end
  | None => Some cur
  end.

Lemma read_absent {A} (rd : json -> option (option A)) name ps cur :
  List.filter (fun p : piece => field_key name p.1) ps = [] -> read_field rd name (json_members (members ps)) cur = Some cur.
Proof.
  induction ps as [|[k o] ps IH]; [done|]. cbn [List.filter fst]. destruct (field_key name k) eqn:Hk; [done|]. intros H.
  unfold members. cbn [flat_map]. destruct o as [t|]; [|by apply IH]. cbn [written app fst snd json_members map read_field]. rewrite Hk. by apply IH.
Qed.

(** A field that is the only one of its name. *)
Lemma read_piece {A} (rd : json -> option (option A)) name ps cur k o :
  List.filter (fun p : piece => field_key name p.1) ps = [(k, o)] ->
  read_field rd name (json_members (members ps)) cur = piece_value rd cur o.
Proof.
  induction ps as [|[k' o'] ps IH]; [done|]. cbn [List.filter fst]. destruct (field_key name k') eqn:Hk; intros H.
  - injection H as -> -> Hps. unfold members. cbn [flat_map]. destruct o as [t|]; [|by apply (read_absent rd name ps cur)].
    cbn [written app fst snd json_members map read_field]. rewrite Hk. cbn [piece_value]. destruct (rd (tree_json t)) as [[a|]|]; [by apply (read_absent rd name ps)..|done].
  - unfold members. cbn [flat_map]. destruct o' as [t|]; [|by apply IH]. cbn [written app fst snd json_members map read_field]. rewrite Hk. by apply IH.
Qed.

Lemma value_text cur v : piece_value rd_string cur (Some (TS v)) = Some v.
Proof. done. Qed.
Lemma value_number cur v : (- 2 ^ 63 <= v < 2 ^ 63)%Z -> piece_value rd_int64 cur (Some (TI v)) = Some v.
Proof. intros Hv. cbn. by rewrite ParseInt64_pretty. Qed.
Lemma value_some_text (v : string) : piece_value rd_string "" (if String.eqb v "" then None else Some (TS v)) = Some v.
Proof. by destruct (String.eqb_spec v "") as [->|]. Qed.
Lemma value_some_number (v : Z) : (- 2 ^ 63 <= v < 2 ^ 63)%Z -> piece_value rd_int64 0%Z (if (v =? 0)%Z then None else Some (TI v)) = Some v.
Proof. intros Hv. destruct (Z.eqb_spec v 0) as [->|]; [done|]. by apply value_number. Qed.
Lemma value_some_true (v : bool) : piece_value rd_bool false (if v then Some (TB v) else None) = Some v.
Proof. by destruct v. Qed.

(** ** Well-formed trees *)

Definition piece_ok (n : Z) (p : piece) : Prop :=
  valid_utf8 p.1 /\ match p.2 with Some t => tree_ok t /\ (depth t <= n)%Z | None => True end.

Lemma members_ok n ps : (0 <= n)%Z -> Forall (piece_ok n) ps -> tree_ok (TO (members ps)) /\ (depth (TO (members ps)) <= n + 1)%Z.
Proof.
  intros Hn Hps. assert (H : Forall (fun kv => valid_utf8 kv.1 /\ tree_ok kv.2 /\ (depth kv.2 <= n)%Z) (members ps)).
  { induction Hps as [|[k [t|]] ps [Hk Ht] _ IH]; [constructor|constructor; [by split|done]|done]. }
  split.
  - apply tree_ok_object. eapply Forall_impl; [exact H|]. naive_solver.
  - cbn [depth]. assert (fold_right (fun kv m => Z.max (depth kv.2) m) 0 (members ps) <= n)%Z; [|lia].
    induction H as [|kv ms (_ & _ & Hd) _ IH]; cbn; lia.
Qed.

Lemma text_ok n k v : (0 <= n)%Z -> valid_utf8 k -> valid_utf8 v -> piece_ok n (text_piece k v).
Proof. by intros Hn Hk Hv. Qed.
Lemma number_ok n k v : (0 <= n)%Z -> valid_utf8 k -> piece_ok n (number_piece k v).
Proof. by intros Hn Hk. Qed.
Lemma some_text_ok n k v : (0 <= n)%Z -> valid_utf8 k -> valid_utf8 v -> piece_ok n (some_text k v).
Proof. intros Hn Hk Hv. unfold some_text, piece_ok. by destruct (String.eqb v ""). Qed.
Lemma some_number_ok n k v : (0 <= n)%Z -> valid_utf8 k -> piece_ok n (some_number k v).
Proof. intros Hn Hk. unfold some_number, piece_ok. by destruct (v =? 0)%Z. Qed.
Lemma some_true_ok n k v : (0 <= n)%Z -> valid_utf8 k -> piece_ok n (some_true k v).
Proof. intros Hn Hk. unfold some_true, piece_ok. by destruct v. Qed.

Create HintDb pieces.
#[local] Hint Extern 5 (valid_utf8 (String _ _)) => (vm_compute; reflexivity) : pieces.
#[local] Hint Extern 5 (_ <= _)%Z => lia : pieces.
#[local] Hint Resolve text_ok number_ok some_text_ok some_number_ok some_true_ok : pieces.

(** ** Artifacts *)

Definition artifact_texts (a : OperationalExportArtifact) : list string :=
  [oaArtifactType a; oaArtifactID a; oaSHA256 a; oaTransactionID a; oaProducedAtUTC a; oaRelativePath a].
Definition artifact_fit (a : OperationalExportArtifact) : Prop :=
  Forall valid_utf8 (artifact_texts a) /\ (- 2 ^ 63 <= oaSequence a < 2 ^ 63)%Z.

Definition artifact_pieces (a : OperationalExportArtifact) : list piece := [
  text_piece "artifact_type" (oaArtifactType a); text_piece "artifact_id" (oaArtifactID a); text_piece "sha256" (oaSHA256 a);
  some_text "transaction_id" (oaTransactionID a); some_number "sequence" (oaSequence a);
  text_piece "produced_at_utc" (oaProducedAtUTC a); text_piece "relative_path" (oaRelativePath a)].

Lemma omit_string_piece k v : omit_string k v = written (some_text k v).
Proof. unfold omit_string, some_text, written. by destruct (String.eqb v ""). Qed.
Lemma omit_number_piece k v : omit_number k v = written (some_number k v).
Proof. unfold omit_number, some_number, written. by destruct (v =? 0)%Z. Qed.
Lemma omit_false_piece k v : omit_false k v = written (some_true k v).
Proof. by destruct v. Qed.

Lemma artifact_tree_pieces a : artifact_tree a = TO (members (artifact_pieces a)).
Proof. unfold artifact_tree. rewrite omit_string_piece, omit_number_piece. unfold members, artifact_pieces. cbn [flat_map]. by rewrite app_nil_r. Qed.

Ltac read_one :=
  erewrite read_piece by reflexivity;
  first [rewrite value_text | rewrite value_number by done | rewrite value_some_text | rewrite value_some_number by done | rewrite value_some_true];
  cbn [mbind option_bind].

Lemma read_artifact_pieces a :
  (- 2 ^ 63 <= oaSequence a < 2 ^ 63)%Z -> read_artifact (json_members (members (artifact_pieces a))) = Some a.
Proof.
  intros Hs. unfold read_artifact, read_string, read_int64. unfold artifact_pieces.
  do 7 read_one. by destruct a.
Qed.

(** ** The inventory *)

Definition int64 (z : Z) : Prop := (- 2 ^ 63 <= z < 2 ^ 63)%Z.
Definition bounds_fit (s : segment_bounds) : Prop :=
  int64 (sbFirst s) /\ int64 (sbLast s) /\ valid_utf8 (sbBoundaryPriorHash s) /\ valid_utf8 (sbHeadHash s).

Definition inventory_texts (i : OperationalSourceInventory) : list string :=
  [inSchemaVersion i; inScopeID i; inAdmissionID i; inSourceKind i; inSourceVersion i; inSourceScopeID i; inOwnerRuntimeBoundary i;
   inAcquisitionBoundary i; inRunID i; inSnapshotID i; inVerifierID i; inVerifierVersion i; inWindowStartUTC i; inWindowEndUTC i].

(** Texts are UTF-8 and numbers have 64 bits. *)
Record inventory_fit (i : OperationalSourceInventory) : Prop := {
  if_texts : Forall valid_utf8 (inventory_texts i);
  if_counts : Forall int64 [inReceiptCount i; inCommitmentCount i; inPersistenceCount i; inAuditChainCount i];
  if_commitments : bounds_fit (inCommitmentSegment i);
  if_chain : bounds_fit (inAuditChainSegment i);
  if_limitations : Forall valid_utf8 (inLimitations i);
  if_artifacts : Forall artifact_fit (inArtifacts i)
}.

Definition bounds_pieces (prefix number : string) (s : segment_bounds) : list piece := [
  some_number (prefix +:+ "_first_" +:+ number) (sbFirst s); some_number (prefix +:+ "_last_" +:+ number) (sbLast s);
  some_text (prefix +:+ "_boundary_prior_hash") (sbBoundaryPriorHash s); some_text (prefix +:+ "_head_hash") (sbHeadHash s);
  some_true (prefix +:+ "_sequence_contiguous") (sbContiguous s)].

Definition limitations_piece (l : list string) : piece :=
  ("limitations", match l with [] => None | l => Some (TA (map TS l)) end).

Definition inventory_pieces (i : OperationalSourceInventory) : list piece :=
  ([text_piece "schema_version" (inSchemaVersion i); text_piece "scope_id" (inScopeID i); text_piece "admission_id" (inAdmissionID i);
    text_piece "source_kind" (inSourceKind i); text_piece "source_version" (inSourceVersion i);
    text_piece "source_scope_id" (inSourceScopeID i); text_piece "owner_runtime_boundary" (inOwnerRuntimeBoundary i);
    text_piece "acquisition_boundary" (inAcquisitionBoundary i); some_text "run_id" (inRunID i); some_text "snapshot_id" (inSnapshotID i);
    text_piece "verifier_id" (inVerifierID i); text_piece "verifier_version" (inVerifierVersion i);
    text_piece "window_start_utc" (inWindowStartUTC i); text_piece "window_end_utc" (inWindowEndUTC i);
    number_piece "receipt_count" (inReceiptCount i); number_piece "commitment_count" (inCommitmentCount i);
    number_piece "persistence_count" (inPersistenceCount i)] ++
   bounds_pieces "commitment" "sequence" (inCommitmentSegment i) ++ [number_piece "audit_chain_count" (inAuditChainCount i)] ++
   bounds_pieces "audit_chain" "seq" (inAuditChainSegment i) ++
   [limitations_piece (inLimitations i); ("artifacts", Some (TA (map artifact_tree (inArtifacts i))))])%list.

Lemma segment_members_pieces prefix number s : segment_members prefix number s = members (bounds_pieces prefix number s).
Proof.
  unfold segment_members. rewrite !omit_number_piece, !omit_string_piece, omit_false_piece. unfold members, bounds_pieces. cbn [flat_map].
  by rewrite app_nil_r.
Qed.

Lemma members_app l r : members (l ++ r)%list = (members l ++ members r)%list.
Proof. apply flat_map_app. Qed.

Lemma inventory_members_pieces i : inventory_members i = members (inventory_pieces i).
Proof.
  unfold inventory_members, inventory_pieces. rewrite !members_app, !segment_members_pieces, !omit_string_piece.
  assert (Hl : match inLimitations i with [] => [] | l => [("limitations", TA (map TS l))] end = written (limitations_piece (inLimitations i)))
    by by destruct (inLimitations i).
  rewrite Hl. unfold members at 1 3 5. cbn [flat_map]. rewrite !app_nil_r, <- !app_assoc. reflexivity.
Qed.

Lemma value_list {A} (rd : json -> option A) (tree : A -> jtree) l :
  Forall (fun a => rd (tree_json (tree a)) = Some a) l -> piece_value (rd_slice rd) [] (Some (TA (map tree l))) = Some l.
Proof.
  intros H. cbn. assert (E : mapM rd (map tree_json (map tree l)) = Some l); [|by rewrite E].
  induction H as [|a l Ha _ IH]; [done|]. cbn [map mapM]. by rewrite Ha, IH.
Qed.

Lemma rd_artifact_tree a : artifact_fit a -> rd_artifact (tree_json (artifact_tree a)) = Some a.
Proof. intros [_ Hs]. rewrite artifact_tree_pieces. cbn [tree_json rd_artifact]. by apply read_artifact_pieces. Qed.

Lemma artifact_tree_ok a : artifact_fit a -> tree_ok (artifact_tree a) /\ (depth (artifact_tree a) <= 1)%Z.
Proof.
  intros [Ht _]. rewrite artifact_tree_pieces. apply (members_ok 0); [lia|]. unfold artifact_texts in Ht.
  repeat (apply Forall_cons in Ht as [? Ht]). unfold artifact_pieces. repeat (constructor; [auto with pieces|]). constructor.
Qed.

Lemma trees_ok {A} n (tree : A -> jtree) l :
  (0 <= n)%Z -> Forall (fun a => tree_ok (tree a) /\ (depth (tree a) <= n)%Z) l ->
  tree_ok (TA (map tree l)) /\ (depth (TA (map tree l)) <= n + 1)%Z.
Proof.
  intros Hn H. split.
  - apply tree_ok_list, Forall_fmap. eapply Forall_impl; [exact H|]. by intros a [? _].
  - cbn [depth]. assert (fold_right (fun t m => Z.max (depth t) m) 0 (map tree l) <= n)%Z; [|lia].
    induction H as [|a l [_ Hd] _ IH]; cbn; lia.
Qed.

Lemma bounds_ok n prefix number s :
  (0 <= n)%Z -> bounds_fit s ->
  Forall (fun k => valid_utf8 (prefix +:+ k)) ["_first_" +:+ number; "_last_" +:+ number; "_boundary_prior_hash"; "_head_hash"; "_sequence_contiguous"] ->
  Forall (piece_ok n) (bounds_pieces prefix number s).
Proof.
  intros Hn (_ & _ & ? & ?) Hk. repeat (apply Forall_cons in Hk as [? Hk]). unfold bounds_pieces.
  repeat (constructor; [auto with pieces|]). constructor.
Qed.

Lemma inventory_pieces_ok i : inventory_fit i -> Forall (piece_ok 2) (inventory_pieces i).
Proof.
  intros [Ht _ Hc Ha Hl Hr]. unfold inventory_texts in Ht. repeat (apply Forall_cons in Ht as [? Ht]). unfold inventory_pieces.
  rewrite !Forall_app. split; [repeat (constructor; [auto with pieces|]); constructor|].
  split; [apply bounds_ok; [lia|done|]; repeat (constructor; [vm_compute; reflexivity|]); constructor|].
  split; [constructor; [auto with pieces|constructor]|].
  split; [apply bounds_ok; [lia|done|]; repeat (constructor; [vm_compute; reflexivity|]); constructor|].
  constructor; [|constructor; [|constructor]].
  - split; [vm_compute; reflexivity|]. unfold limitations_piece. cbn [snd]. destruct (inLimitations i) as [|t l]; [done|].
    destruct (trees_ok 1 TS (t :: l)) as [? ?]; [lia| |by split]. eapply Forall_impl; [exact Hl|]. intros x Hx. by split.
  - split; [vm_compute; reflexivity|]. apply (trees_ok 1 artifact_tree); [lia|]. eapply Forall_impl; [exact Hr|]. apply artifact_tree_ok.
Qed.

Lemma value_limitations l :
  piece_value (rd_slice rd_text) [] match l with [] => None | l => Some (TA (map TS l)) end = Some l.
Proof.
  destruct l as [|t l]; [done|]. apply (value_list rd_text TS).
  apply Forall_forall. intros x _. done.
Qed.

Lemma read_inventory_pieces i : inventory_fit i -> read_inventory (json_members (members (inventory_pieces i))) = Some i.
Proof.
  intros [_ Hn (Hc1 & Hc2 & _) (Ha1 & Ha2 & _) _ Hr]. repeat (apply Forall_cons in Hn as [? Hn]). clear Hn.
  assert (Hc : read_segment "commitment" "sequence" (json_members (members (inventory_pieces i))) = Some (inCommitmentSegment i)).
  { unfold read_segment, read_string, read_int64. do 5 read_one. by destruct (inCommitmentSegment i). }
  assert (Ha : read_segment "audit_chain" "seq" (json_members (members (inventory_pieces i))) = Some (inAuditChainSegment i)).
  { unfold read_segment, read_string, read_int64. do 5 read_one. by destruct (inAuditChainSegment i). }
  assert (Har := value_list rd_artifact artifact_tree (inArtifacts i) ltac:(eapply Forall_impl; [exact Hr|apply rd_artifact_tree])).
  unfold read_inventory, read_string, read_int64. rewrite Hc, Ha.
  repeat (erewrite read_piece by reflexivity;
          first [rewrite value_text | rewrite value_number by done | rewrite value_some_text | rewrite value_limitations | rewrite Har]).
  cbn [mbind option_bind]. by destruct i.
Qed.

Lemma inventory_read_back i : inventory_fit i -> UnmarshalInventory (MarshalInventory i) = Ok i.
Proof.
  intros H. unfold UnmarshalInventory, MarshalInventory, struct_members. rewrite inventory_members_pieces.
  destruct (members_ok 2 (inventory_pieces i) ltac:(lia) (inventory_pieces_ok i H)) as [Hok Hd].
  rewrite parse_json_tree by (done || (unfold max_nesting; lia)). cbn [mbind option_bind tree_json].
  change (map (fun kv => (kv.1, tree_json kv.2)) ?ms) with (json_members ms). by rewrite read_inventory_pieces.
Qed.

(** C29: The inventory of a package is read as it was written, whatever fields are left out
    because they are empty, when its texts are UTF-8 and its numbers have 64 bits. *)
Theorem inventory_roundtrip i : inventory_fit i -> UnmarshalInventory (MarshalInventory i) = Ok i.
Proof. apply inventory_read_back. Qed.

(** ** A concrete inventory *)

Definition ex_listed : OperationalSourceInventory := {|
  inSchemaVersion := operationalExportSchemaVersion; inScopeID := "scope-1"; inAdmissionID := "admission-1";
  inSourceKind := "operational"; inSourceVersion := "1"; inSourceScopeID := "scope-1"; inOwnerRuntimeBoundary := "<owner>";
  inAcquisitionBoundary := "boundary"; inRunID := "run-1"; inSnapshotID := ""; inVerifierID := "verifier-1";
  inVerifierVersion := "1"; inWindowStartUTC := "2023-11-14T22:13:20Z"; inWindowEndUTC := "2023-11-14T22:13:22Z";
  inReceiptCount := 1; inCommitmentCount := 0; inPersistenceCount := 0; inCommitmentSegment := no_segment;
  inAuditChainCount := 1;
  inAuditChainSegment := {| sbFirst := 7; sbLast := 7; sbBoundaryPriorHash := "h6"; sbHeadHash := "h7"; sbContiguous := true |};
  inLimitations := ["receipt has no persistence attestation"];
  inArtifacts := [
    {| oaArtifactType := ArtifactTypeActionReceipt; oaArtifactID := "a"; oaSHA256 := "d"; oaTransactionID := "tx-1"; oaSequence := 0;
       oaProducedAtUTC := "2023-11-14T22:13:21Z"; oaRelativePath := "receipts/r.json" |};
    {| oaArtifactType := ArtifactTypeAuditChainEntry; oaArtifactID := "b"; oaSHA256 := "e"; oaTransactionID := ""; oaSequence := 7;
       oaProducedAtUTC := "2023-11-14T22:13:20Z"; oaRelativePath := "audit-chain/e.json" |}] |}.

Lemma inventory_roundtrip_witness : UnmarshalInventory (MarshalInventory ex_listed) = Ok ex_listed.
Proof.
  apply (inventory_roundtrip ex_listed).
  constructor; unfold bounds_fit, artifact_fit, int64; cbn;
    repeat first [split | apply Forall_cons; split | apply Forall_nil_2 | vm_compute; reflexivity | vm_compute; discriminate].
Defined.
