(* ===== verification/OperationalTransfer.v ===== *)
(** From the audit chain of one node to the verifier of another: what is exported of a
    snapshot, and whether it is accepted. *)
From S2P Require Import Prelude Errors Encoding Sha256 Sqlite Timestamp TimeParse Json JsonEncode Crypto Receipt AuditChain ReceiptStore Segment Snapshot Evidence EvidenceGraph EvidenceImport OperationalExport OperationalImport.
From Stdlib Require Import String Ascii List ZArith Lia Bool.
From stdpp Require Import base strings list sorting gmap sets.
Open Scope string_scope.

(** ** Positions in a chain *)

Lemma chain_sealed p h rows x : chain p h rows -> x ∈ rows -> sealed_row x.1 x.2.
Proof.
  revert p h. induction rows as [|[s r] rows IH]; intros p h Hc Hx; [by apply not_elem_of_nil in Hx|].
  destruct Hc as (-> & _ & Hs & Hc). apply elem_of_cons in Hx as [->|Hx]; [done|]. by eapply IH.
Qed.

Lemma chain_adjacent p h rows s r r' : chain p h rows -> (s, r) ∈ rows -> ((s + 1)%Z, r') ∈ rows -> erPrevHash r' = erHash r.
Proof.
  revert p h. induction rows as [|[t q] rows IH]; intros p h Hc Hx Hy; [by apply not_elem_of_nil in Hx|].
  destruct Hc as (-> & _ & _ & Hc).
  apply elem_of_cons in Hx as [[= -> ->]|Hx].
  - apply elem_of_cons in Hy as [[= ? _]|Hy]; [lia|]. destruct rows as [|[t' q'] rows]; [by apply not_elem_of_nil in Hy|].
    destruct Hc as (-> & Hp & _ & Hc). apply elem_of_cons in Hy as [[= ->]|Hy]; [done|].
    pose proof (chain_bound _ _ _ _ Hc Hy). cbn in *. lia.
  - apply elem_of_cons in Hy as [[= ? _]|Hy]; [pose proof (chain_bound _ _ _ _ Hc Hx); cbn in *; lia|]. by eapply IH.
Qed.

Lemma chain_dense p h rows x k : chain p h rows -> x ∈ rows -> (p < k <= x.1)%Z -> exists r, (k, r) ∈ rows.
Proof.
  revert p h. induction rows as [|[t q] rows IH]; intros p h Hc Hx Hk; [by apply not_elem_of_nil in Hx|].
  destruct Hc as (-> & _ & _ & Hc). destruct (decide (k = p + 1)%Z) as [->|]; [exists q; by left|].
  apply elem_of_cons in Hx as [->|Hx]; [cbn in *; lia|].
  destruct (IH _ _ Hc Hx ltac:(lia)) as [r Hr]. exists r. by right.
Qed.

(** Ascending numbers are consecutive when none is missing between the first and the last. *)
Lemma contiguous_dense (a b : Z) l :
  StronglySorted Z.lt (a :: l) -> last (a :: l) = Some b ->
  contiguous (a :: l) = true <-> forall k, (a <= k <= b)%Z -> k ∈ a :: l.
Proof.
  revert a. induction l as [|c l IH]; intros a Hs Hb.
  - injection Hb as ->. split; [|done]. intros _ k Hk. assert (k = b) as -> by lia. by left.
  - apply StronglySorted_inv in Hs as [Hs Ha]. rewrite last_cons_cons in Hb. specialize (IH c Hs Hb).
    assert (Hac : (a < c)%Z) by (by apply Forall_inv in Ha).
    assert (Hge : forall k, k ∈ c :: l -> (c <= k)%Z).
    { intros k [->|Hk]%elem_of_cons; [lia|]. apply StronglySorted_inv in Hs as [_ Hs]. rewrite Forall_forall in Hs. specialize (Hs k Hk). lia. }
    assert (Hcb : (c <= b)%Z) by (apply Hge; apply last_Some in Hb as [l' ->]; set_solver).
    change (contiguous (a :: c :: l)) with ((c =? a + 1)%Z && contiguous (c :: l)). rewrite andb_true_iff, Z.eqb_eq, IH. split.
    + intros [-> H] k Hk. destruct (decide (k = a)) as [->|]; [by left|]. right. apply H. lia.
    + intros H. assert (Hc : (a + 1)%Z ∈ a :: c :: l) by (apply H; lia). apply elem_of_cons in Hc as [?|Hc]; [lia|].
      apply Hge in Hc. split; [lia|]. intros k Hk. assert (Hk' : k ∈ a :: c :: l) by (apply H; lia).
      apply elem_of_cons in Hk' as [->|?]; [lia|done].
Qed.

(** ** Exported entries are the rows *)

(** The time of a row is in the fixed layout; nothing that is required of an entry is empty. *)
Definition row_fit (x : Z * event_row) : Prop :=
  (exists u, year_in_range u /\ erTimestamp x.2 = FormatTimestamp u) /\ (0 < x.1 < 2 ^ 63)%Z /\
  erPrevHash x.2 <> "" /\ erHash x.2 <> "" /\ erDigest x.2 <> "" /\ erTimestamp x.2 <> "" /\
  Forall valid_utf8 [erPrevHash x.2; erHash x.2; erType x.2; erSession x.2; erTimestamp x.2; erDigest x.2; erTransactionID x.2; erContent x.2].

Definition row_entry (x : Z * event_row) : AuditChainSegmentEntry := {|
  seSeq := x.1; sePrevHash := erPrevHash x.2; seHash := erHash x.2; seEventType := erType x.2; seSession := erSession x.2;
  seTimestamp := erTimestamp x.2; seDigest := erDigest x.2; seTransactionID := erTransactionID x.2;
  seContentText := if erEncrypted x.2 then "" else erContent x.2 |}.

Lemma FormatTimestamp_micros (u : gotime) : FormatTimestamp (u / 1000 * 1000)%Z = FormatTimestamp u.
Proof. unfold FormatTimestamp. by rewrite Z.div_mul. Qed.

Lemma source_entry_row x e : row_fit x -> chain_source x = Ok e -> source_entry e = row_entry x.
Proof.
  intros ((u & Hu & Ht) & _) H. unfold chain_source in H. rewrite Ht, ParseTimestamp_canonical in H by done. injection H as <-.
  unfold source_entry, row_entry. cbn [saSeq saPrevHash saHash saEventType saSession saTimestamp saDigest saTransactionID saContentText]. by rewrite FormatTimestamp_micros, Ht.
Qed.

Lemma row_entry_complete x : row_fit x -> erType x.2 = receipt_event_type -> incomplete (row_entry x) = false.
Proof.
  intros (_ & Hs & Hp & Hh & Hd & Ht & _) Hty. unfold incomplete, row_entry. cbn [seSeq sePrevHash seHash seEventType seTimestamp seDigest].
  rewrite Hty. rewrite !orb_false_iff, !String.eqb_neq. split_and!; try done. apply Z.leb_gt. lia.
Qed.

(** The content text, where it is exported, is all the digest covers. *)
Definition content_fit (x : Z * event_row) : Prop :=
  erEncrypted x.2 = true \/ erContent x.2 = "" \/ computeEventContentDigest (content_event (erContent x.2)) = erDigest x.2.

Lemma row_entry_ok x : row_fit x -> sealed_row x.1 x.2 -> entry_ok (row_entry x) <-> content_fit x.
Proof.
  intros ((u & Hu & Ht) & _) Hs. unfold entry_ok, content_fit, row_entry, entry_hash. cbn. split.
  - intros [Hc _]. destruct (erEncrypted x.2); [by left|by right].
  - intros Hc. split; [|split; [by rewrite Ht, ParseTimestamp_canonical|symmetry; exact Hs]].
    destruct (erEncrypted x.2); [by left|]. by destruct Hc.
Qed.

Lemma consecutive_rows p h rows x xs s hh :
  chain p h rows -> Forall (fun x => x ∈ rows) (x :: xs) -> s = x.1 -> hh = erPrevHash x.2 ->
  consecutive s hh (map row_entry (x :: xs)) <-> contiguous (map fst (x :: xs)) = true.
Proof.
  intros Hc Hin -> ->. revert x Hin. induction xs as [|y xs IH]; intros x Hin; [cbn; tauto|].
  inversion Hin as [|? ? Hx Hin']; subst. inversion Hin' as [|? ? Hy _]; subst.
  change (contiguous (map fst (x :: y :: xs))) with ((y.1 =? x.1 + 1)%Z && contiguous (map fst (y :: xs))).
  change (consecutive x.1 (erPrevHash x.2) (map row_entry (x :: y :: xs))) with
    (x.1 = x.1 /\ erPrevHash x.2 = erPrevHash x.2 /\ consecutive (x.1 + 1) (erHash x.2) (map row_entry (y :: xs))).
  rewrite andb_true_iff, Z.eqb_eq, <- (IH y Hin'). split.
  - intros (_ & _ & H). pose proof H as (H1 & H2 & _). cbn in H1, H2. split; [done|]. by rewrite H1, H2.
  - intros [H1 H]. split_and!; [done|done|]. destruct x as [s r], y as [s' r']. cbn in H1, H |- *. subst s'.
    by rewrite <- (chain_adjacent _ _ _ _ _ _ Hc Hx Hy).
Qed.

(** ** The verifier's side *)

(** The file of an entry and its line in the inventory. *)
Definition entry_body (e : OperationalAuditChainSource) : string := json_object (entry_members (source_entry e)).
Definition entry_artifact (e : OperationalAuditChainSource) : OperationalExportArtifact := {|
  oaArtifactType := ArtifactTypeAuditChainEntry; oaArtifactID := ContentAddress ArtifactTypeAuditChainEntry (entry_body e);
  oaSHA256 := sha256_hex (entry_body e); oaTransactionID := saTransactionID e; oaSequence := saSeq e;
  oaProducedAtUTC := FormatRFC3339Nano (saTimestamp e); oaRelativePath := artifact_path "audit-chain" (entry_body e) |}.

Section transfer.
Context (ReadFile : string -> result string) (i : OperationalExportImporter).

Lemma import_exported_entry x e :
  row_fit x -> erType x.2 = receipt_event_type -> chain_source x = Ok e ->
  ReadFile (sourceArtifactPath i (oaRelativePath (entry_artifact e))) = Ok (entry_body e) ->
  exists n, import_chain_entry ReadFile i (entry_artifact e) = Ok (row_entry x, n).
Proof.
  intros Hx Hty He Hr. pose proof (source_entry_row x e Hx He) as Hse. unfold import_chain_entry. rewrite Hr. cbn [rbind].
  unfold matchesOperationalArtifact. cbn [oaSHA256 oaArtifactID oaArtifactType entry_artifact]. rewrite !String.eqb_refl. cbn [andb require rbind].
  assert (Hu : UnmarshalAuditChainSegmentEntry (entry_body e) = Ok (row_entry x)).
  { pose proof (entry_roundtrip (row_entry x)) as H. rewrite (row_entry_complete x Hx Hty) in H.
    destruct Hx as (_ & Hb & _ & _ & _ & _ & Hv). unfold entry_body. rewrite Hse. apply H; [|cbn; lia].
    rewrite !Forall_cons in Hv. destruct Hv as (? & ? & ? & ? & ? & ? & ? & ? & _). unfold entry_texts, row_entry. cbn.
    repeat (constructor; [assumption|]). constructor; [|constructor]. destruct (erEncrypted x.2); [by vm_compute|done]. }
  rewrite Hu. cbn [rbind]. destruct Hx as ((u & Hyu & Ht) & _).
  unfold chain_source in He. rewrite Ht, ParseTimestamp_canonical in He by done. injection He as <-.
  cbn [oaSequence oaTransactionID entry_artifact saSeq saTransactionID row_entry seSeq seTransactionID seTimestamp].
  rewrite Z.eqb_refl, String.eqb_refl, orb_true_r. cbn [require rbind].
  pose proof (ParseTimestamp_canonical u Hyu) as Hp. rewrite <- Ht in Hp. unfold ParseTimestamp in Hp.
  destruct (String.eqb _ _); [done|]. destruct (parse_rfc3339 (erTimestamp x.2)); [|done]. by eexists.
Qed.

Lemma import_exported_entries xs es :
  Forall2 (fun x e => row_fit x /\ erType x.2 = receipt_event_type /\ chain_source x = Ok e /\
    ReadFile (sourceArtifactPath i (oaRelativePath (entry_artifact e))) = Ok (entry_body e)) xs es ->
  exists nodes, import_chain_entries ReadFile i (map entry_artifact es) = Ok (map row_entry xs, nodes).
Proof.
  induction 1 as [|x e xs es (H1 & H2 & H3 & H4) _ [nodes IH]]; [by exists []|]. cbn [map import_chain_entries].
  destruct (import_exported_entry x e H1 H2 H3 H4) as [n ->]. cbn [rbind]. rewrite IH. by eexists.
Qed.
End transfer.

Lemma Forall2_perm_r {A B} (R : A -> B -> Prop) l k k' : Forall2 R l k -> k ≡ₚ k' -> exists l', l ≡ₚ l' /\ Forall2 R l' k'.
Proof.
  intros H Hp. revert l H. induction Hp as [|y k k' _ IH|y z k|k1 k2 k3 _ IH1 _ IH2]; intros l H.
  - exists l. by split.
  - apply Forall2_cons_inv_r in H as (x & l0 & Hx & H & ->). destruct (IH l0 H) as (l' & Hl & H'). exists (x :: l'). split; [by f_equiv|by constructor].
  - apply Forall2_cons_inv_r in H as (x & l0 & Hx & H & ->). apply Forall2_cons_inv_r in H as (x' & l1 & Hx' & H & ->).
    exists (x' :: x :: l1). split; [apply perm_swap|by repeat constructor].
  - destruct (IH1 l H) as (l1 & Hl1 & H1). destruct (IH2 l1 H1) as (l2 & Hl2 & H2). exists l2. split; [by etrans|done].
Qed.

Lemma by_seq_sorted l : NoDup (map fst l) -> StronglySorted seq_lt (by_seq l).
Proof.
  intros Hnd. assert (Hs : StronglySorted seq_le (by_seq l)).
  { apply Sorted_StronglySorted; [|apply Sorted_merge_sort]; intros a b; unfold seq_le; lia. }
  assert (Hn : NoDup (map fst (by_seq l))) by (unfold by_seq; by rewrite merge_sort_Permutation).
  induction Hs as [|x m Hs IH Hx]; [constructor|]. apply NoDup_cons in Hn as [Hnx Hn]. constructor; [by apply IH|].
  rewrite Forall_forall in *. intros y Hy. specialize (Hx y Hy). unfold seq_le, seq_lt in *.
  assert (x.1 <> y.1); [|lia]. intros E. apply Hnx. rewrite E. apply list_elem_of_fmap. by exists y.
Qed.

(** The sorted entries of a segment that holds the rows in any order. *)
Lemma sorted_row_entries xs xs' : StronglySorted seq_lt xs -> xs ≡ₚ xs' -> sorted_entries (map row_entry xs') = map row_entry xs.
Proof.
  intros Hs Hp. unfold sorted_entries.
  assert (Hle : StronglySorted entry_le (map row_entry xs)).
  { clear Hp. induction Hs as [|x xs _ IH Hx]; [constructor|]. constructor; [exact IH|]. apply Forall_fmap.
    eapply Forall_impl; [exact Hx|]. intros y Hy. unfold entry_le, seq_lt in *. cbn. lia. }
  assert (Hperm : merge_sort entry_le (map row_entry xs') ≡ₚ map row_entry xs) by (rewrite merge_sort_Permutation; by rewrite Hp).
  apply (StronglySorted_unique_strong entry_le); [|apply StronglySorted_merge_sort; intros ? ?; unfold entry_le; lia|exact Hle|exact Hperm].
  intros a b Ha Hb Hab Hba. rewrite Hperm in Ha. apply list_elem_of_fmap in Ha as (x & -> & Hx), Hb as (y & -> & Hy).
  unfold entry_le in *. cbn in Hab, Hba. assert (E : x.1 = y.1) by lia. clear -Hs Hx Hy E.
  induction Hs as [|z zs _ IH Hz]; [by apply not_elem_of_nil in Hx|]. rewrite Forall_forall in Hz. unfold seq_lt in Hz.
  apply elem_of_cons in Hx as [->|Hx], Hy as [->|Hy]; [done|specialize (Hz y Hy); lia|specialize (Hz x Hx); lia|by apply IH].
Qed.

(** The bounds of an export are the ends of its entries. *)
Lemma chain_bounds_ends e es :
  sbBoundaryPriorHash (chain_bounds (e :: es)) = saPrevHash e /\
  last_entry_hash (map source_entry (e :: es)) = sbHeadHash (chain_bounds (e :: es)).
Proof.
  unfold chain_bounds, last_entry_hash. change (map source_entry (e :: es)) with (source_entry <$> (e :: es)). rewrite fmap_last.
  destruct (last (e :: es)) as [e'|] eqn:Hl; [done|]. by apply last_None in Hl.
Qed.

(** Rows of an unbroken chain, ascending, lie without a gap when nothing between two of
    them is left out. *)
Lemma contiguous_between p h rows (sel : Z * event_row -> bool) x xs :
  chain p h rows -> NoDup (map fst rows) -> StronglySorted seq_lt (x :: xs) ->
  (forall y, y ∈ x :: xs <-> y ∈ rows /\ sel y = true) ->
  contiguous (map fst (x :: xs)) = true <->
  forall a b c, a ∈ rows -> b ∈ rows -> c ∈ rows -> sel a = true -> sel c = true -> (a.1 <= b.1 <= c.1)%Z -> sel b = true.
Proof.
  intros Hc Hnd Hs Hsel.
  assert (Huniq : forall a b, a ∈ rows -> b ∈ rows -> a.1 = b.1 -> a = b).
  { intros a b Ha Hb E. clear -Hnd Ha Hb E. induction rows as [|r rows IH]; [by apply not_elem_of_nil in Ha|].
    apply NoDup_cons in Hnd as [Hr Hnd].
    apply elem_of_cons in Ha as [->|Ha], Hb as [->|Hb]; [done| | |by apply IH]; exfalso; apply Hr; apply list_elem_of_fmap;
      [by exists b|by exists a]. }
  assert (Hsz : StronglySorted Z.lt (map fst (x :: xs))).
  { clear -Hs. induction Hs as [|y ys _ IH Hy]; [constructor|]. constructor; [exact IH|]. by apply Forall_fmap. }
  assert (Hlast : exists z, last (x :: xs) = Some z) by (destruct (last (x :: xs)) eqn:E; [by eexists|by apply last_None in E]).
  destruct Hlast as [z Hz]. assert (Hlz : last (map fst (x :: xs)) = Some z.1).
  { change (map fst (x :: xs)) with (fst <$> (x :: xs)). by rewrite fmap_last, Hz. }
  cbn [map] in Hsz, Hlz |- *. rewrite (contiguous_dense _ z.1 _ Hsz Hlz).
  assert (Hxr : x ∈ rows /\ sel x = true) by (apply Hsel; by left).
  assert (Hzr : z ∈ rows /\ sel z = true) by (apply Hsel; apply last_Some in Hz as [l' ->]; set_solver).
  assert (Hin : forall k, k ∈ x.1 :: map fst xs <-> exists y, y ∈ rows /\ sel y = true /\ y.1 = k).
  { intros k. change (x.1 :: map fst xs) with (fst <$> (x :: xs)). rewrite list_elem_of_fmap. setoid_rewrite Hsel. naive_solver. }
  assert (Hends : forall y, y ∈ rows -> sel y = true -> (x.1 <= y.1 <= z.1)%Z).
  { intros y Hy Hys. assert (Hyx : y ∈ x :: xs) by (by apply Hsel). split.
    - apply StronglySorted_inv in Hs as [_ Hs]. rewrite Forall_forall in Hs. apply elem_of_cons in Hyx as [->|Hyx]; [lia|]. specialize (Hs y Hyx). unfold seq_lt in Hs. lia.
    - apply last_Some in Hz as [l' Hz]. rewrite Hz in Hyx, Hs. apply StronglySorted_app in Hs as (Hs & _).
      apply elem_of_app in Hyx as [Hyx|Hyx%list_elem_of_singleton]; [|subst; lia]. specialize (Hs y z Hyx ltac:(by left)). unfold seq_lt in Hs. lia. }
  split.
  - intros H a b c Ha Hb Hc' Hsa Hsc Hk. pose proof (Hends a Ha Hsa). pose proof (Hends c Hc' Hsc).
    destruct (proj1 (Hin b.1) ltac:(apply H; lia)) as (y & Hy & Hys & E). by rewrite <- (Huniq y b Hy Hb E).
  - intros H k Hk. apply Hin.
    destruct (chain_dense _ _ _ z k Hc (proj1 Hzr)) as [r Hr]; [pose proof (chain_bound _ _ _ _ Hc (proj1 Hxr)); lia|].
    exists (k, r). split; [done|]. split; [|done]. apply (H x (k, r) z); try tauto.
Qed.

(** An intact chain of which nothing is left before the latest checkpoint. *)
Lemma intact_rows db :
  intact db -> (forall x, x ∈ chained_rows (events db) -> ((anchor db).1 < x.1)%Z) ->
  exists rows, chain (anchor db).1 (anchor db).2 rows /\ rows ≡ₚ chained_rows (events db) /\ NoDup (map fst rows).
Proof.
  intros [Hk _ (rows & Hc & Hin & _)] Hab. exists rows. split; [done|].
  assert (Hnr : NoDup (map fst rows)).
  { pose proof (chain_sorted _ _ _ Hc) as Hs. clear -Hs. induction Hs as [|x xs _ IH Hx]; [constructor|]. apply NoDup_cons. split; [|done].
    intros (y & E & Hy)%list_elem_of_fmap. rewrite Forall_forall in Hx. specialize (Hx y Hy). unfold seq_lt in Hx. lia. }
  split; [|done]. apply NoDup_Permutation; [by eapply NoDup_fmap_1|by eapply NoDup_fmap_1|].
  intros x. rewrite Hin. split; [by intros [? _]|]. intros Hx. split; [done|by apply Hab].
Qed.

(** C20: The audit chain of a snapshot, exported and read back from its files in any order,
    is accepted if and only if the snapshot left no event out between two it took, and the
    content of every event it took that is not encrypted is all that the digest covers.
    It takes receipt events only: any other event recorded between two receipts makes the
    verifier refuse an unbroken chain; so does a digest that covers more than the content.
    The chain of the store is intact, nothing of it is left at or before the
    latest checkpoint, and the rows taken are complete, valid UTF-8 and carry canonical
    times. *)
Theorem segment_transfer ReadFile i q env n db sn n' db' arts v :
  intact (as_chain (ed_store db)) ->
  (forall x, x ∈ chained_rows (events (as_chain (ed_store db))) -> ((anchor (as_chain (ed_store db))).1 < x.1)%Z) ->
  (forall x, x ∈ chain_of q db -> row_fit x) ->
  Snapshot q env n db = (Ok sn, n', db') ->
  arts ≡ₚ map entry_artifact (snAuditChain sn) -> inAuditChainSegment v = chain_bounds (snAuditChain sn) ->
  (forall e, e ∈ snAuditChain sn -> ReadFile (sourceArtifactPath i (oaRelativePath (entry_artifact e))) = Ok (entry_body e)) ->
  is_ok (importOperationalAuditChainEntries ReadFile i arts v) = true <->
  (forall x, x ∈ chain_of q db -> content_fit x) /\
  forall a b c, a ∈ chained_rows (events (as_chain (ed_store db))) -> b ∈ chained_rows (events (as_chain (ed_store db))) ->
    c ∈ chained_rows (events (as_chain (ed_store db))) -> chain_selected q a = true -> chain_selected q c = true ->
    (a.1 <= b.1 <= c.1)%Z -> chain_selected q b = true.
Proof.
  intros Hint Hab Hfit Hsn Harts Hv Hread. apply Snapshot_Ok in Hsn as (_ & _ & _ & _ & Hes & _).
  destruct (intact_rows _ Hint Hab) as (rows & Hc & Hrows & Hnd). setoid_rewrite <- Hrows.
  assert (Hsel : forall x, x ∈ chain_of q db <-> x ∈ rows /\ chain_selected q x = true).
  { intros x. unfold chain_of, by_seq. by rewrite in_sorted, in_filter, Hrows. }
  assert (Hsort : StronglySorted seq_lt (chain_of q db)).
  { apply by_seq_sorted. pose proof (in_keys _ Hint) as Hk. revert Hk. generalize (chained_rows (events (as_chain (ed_store db)))).
    induction l as [|x l IH]; cbn; [done|]. intros [Hx Hn]%NoDup_cons. destruct (chain_selected q x); [|by apply IH].
    cbn. apply NoDup_cons. split; [|by apply IH]. intros (y & E & [Hy _]%in_filter)%list_elem_of_fmap. apply Hx. rewrite E. apply list_elem_of_fmap. by exists y. }
  assert (Hmap : map source_entry (snAuditChain sn) = map row_entry (chain_of q db)).
  { assert (Hf : Forall row_fit (chain_of q db)) by (apply Forall_forall; intros x Hx; by apply Hfit). clear -Hes Hf.
    induction Hes as [|x e xs es H _ IH]; [done|]. inversion Hf; subst. cbn. rewrite IH by done. by rewrite (source_entry_row x e). }
  assert (Hall : Forall2 (fun x e => row_fit x /\ erType x.2 = receipt_event_type /\ chain_source x = Ok e /\
            ReadFile (sourceArtifactPath i (oaRelativePath (entry_artifact e))) = Ok (entry_body e)) (chain_of q db) (snAuditChain sn)).
  { assert (Hf : Forall (fun x => row_fit x /\ erType x.2 = receipt_event_type) (chain_of q db)).
    { apply Forall_forall. intros x Hx. split; [by apply Hfit|]. apply Hsel in Hx as [_ Hx]. unfold chain_selected in Hx. by bools. }
    rewrite <- Forall_forall in Hread. clear -Hes Hf Hread. induction Hes as [|x e xs es H _ IH]; constructor; inversion Hf; inversion Hread; naive_solver. }
  apply Permutation_map_inv in Harts as (es' & -> & Hes').
  destruct (Forall2_perm_r _ _ _ _ Hall Hes') as (xs' & Hxs' & Hall').
  destruct (import_exported_entries ReadFile i xs' es' Hall') as [nodes Himp].
  unfold importOperationalAuditChainEntries. rewrite Himp. cbn [rbind].
  assert (Hok : forall r : result unit, is_ok (rbind (wrap_as "%w: %w" "ErrInvalidEvidenceGraph" r) (fun _ => Ok (map row_entry xs', nodes))) = true <-> r = Ok tt).
  { intros [[]|]; cbn; split; done. }
  rewrite Hok, VerifyAuditChainSegment_Ok, (sorted_row_entries (chain_of q db) xs' Hsort Hxs'), Hv, <- Hmap. clear Hok.
  destruct (chain_of q db) as [|x xs] eqn:Hcx.
  { destruct (snAuditChain sn); [|done]. cbn [map]. split; [|done]. intros _. split; [by intros x Hx%not_elem_of_nil|].
    intros a b c Ha _ _ Hsa. exfalso.
    assert (Ha' : a ∈ @nil (Z * event_row)) by (by apply Hsel). by apply not_elem_of_nil in Ha'. }
  destruct (snAuditChain sn) as [|e es]; [done|]. destruct (chain_bounds_ends e es) as [Hb Hh].
  cbn [map] in *. rewrite Hh, Hb. rewrite Hmap in Hh |- *.
  assert (Hents : Forall entry_ok (map row_entry (x :: xs)) <-> forall y, y ∈ x :: xs -> content_fit y).
  { change (map row_entry (x :: xs)) with (row_entry <$> (x :: xs)). rewrite Forall_fmap, Forall_forall.
    assert (Hok' : forall y, y ∈ x :: xs -> entry_ok (row_entry y) <-> content_fit y).
    { intros y Hy. apply row_entry_ok; [by apply Hfit|]. eapply chain_sealed; [exact Hc|]. by apply Hsel. }
    split; intros H y Hy; apply Hok'; auto. by apply H. }
  pose proof (consecutive_rows _ _ _ x xs x.1 (erPrevHash x.2) Hc ltac:(apply Forall_forall; intros y Hy; by apply Hsel) eq_refl eq_refl) as Hcons.
  pose proof (contiguous_between _ _ _ (chain_selected q) x xs Hc Hnd Hsort Hsel) as Hbet. rewrite <- Hbet, <- Hcons.
  assert (He : source_entry e = row_entry x) by (by apply (f_equal (hd (row_entry x))) in Hmap).
  change (saPrevHash e) with (sePrevHash (source_entry e)). rewrite He. cbn [row_entry seSeq sePrevHash].
  rewrite <- Hents. cbn [map]. split; [by intros (_ & _ & ? & ?)|]. intros [H1 H2]. split; [by right|]. split; [by right|]. by split.
Qed.

(** ** A concrete transfer *)

Definition row_fitb (x : Z * event_row) : bool :=
  ((0 <? x.1) && (x.1 <? 2 ^ 63))%Z &&
  forallb (fun t => negb (String.eqb t "")) [erPrevHash x.2; erHash x.2; erDigest x.2; erTimestamp x.2] &&
  forallb (fun t => bool_decide (coerce (String.length t) (str_bytes t) = str_bytes t))
    [erPrevHash x.2; erHash x.2; erType x.2; erSession x.2; erTimestamp x.2; erDigest x.2; erTransactionID x.2; erContent x.2] &&
  (erEncrypted x.2 || String.eqb (erContent x.2) "" ||
   String.eqb (computeEventContentDigest (content_event (erContent x.2))) (erDigest x.2)).

Lemma row_fitb_spec l :
  fixed_times l && forallb row_fitb l = true -> forall x, x ∈ l -> row_fit x /\ content_fit x.
Proof.
  intros [Ht Hb]%andb_true_iff x Hx. pose proof (fixed_times_spec _ Ht x Hx) as Hu. rewrite forallb_forall in Hb.
  specialize (Hb x ltac:(by apply list_elem_of_In)). unfold row_fitb in Hb. apply andb_true_iff in Hb as [[[Hs Hn]%andb_true_iff Hv]%andb_true_iff Hc].
  rewrite forallb_forall in Hn, Hv. assert (Hn' : forall t, In t [erPrevHash x.2; erHash x.2; erDigest x.2; erTimestamp x.2] -> t <> "").
  { intros t Hin ->. by specialize (Hn "" Hin). }
  split; [split; [exact Hu|]|].
  - split; [bools; lia|]. split_and!; try (apply Hn'; cbn; tauto).
    apply Forall_forall. intros t Hin%list_elem_of_In. specialize (Hv t Hin). by apply bool_decide_eq_true in Hv.
  - unfold content_fit. apply orb_true_iff in Hc as [[Hc|Hc]%orb_true_iff|Hc]; bools; tauto.
Qed.

Definition ex_transfer : OperationalEvidenceSnapshot :=
  match Snapshot (ex_query 1700000000 1700000002) no_fault 0 ex_db with
  | (Ok sn, _, _) => sn
  | _ => {| snReceipts := []; snCommitments := []; snAuditChain := [] |}
  end.

Definition ex_importer : OperationalExportImporter := {|
  oiInventoryPath := "inventory.json"; oiSourceRoot := "export"; oiScopeID := "scope-1";
  oiAdmission := {| adAdmissionId := "admission-1"; adSourceKind := "operational"; adSourceVersion := "1"; adSourceScopeId := "scope-1";
    adOwnerRuntimeBoundary := "owner"; adAcquisitionBoundary := "boundary"; adRunId := "run-1"; adSnapshotId := "snapshot-1";
    adVerifierId := "verifier-1"; adVerifierVersion := "1" |}; oiVerifiedAt := 1700000100000000000%Z; oiNow := 1700000100000000000%Z |}.
Definition ex_inventory : OperationalSourceInventory := {|
  inSchemaVersion := operationalExportSchemaVersion; inScopeID := "scope-1"; inAdmissionID := "admission-1";
  inSourceKind := "operational"; inSourceVersion := "1"; inSourceScopeID := "scope-1"; inOwnerRuntimeBoundary := "owner";
  inAcquisitionBoundary := "boundary"; inRunID := "run-1"; inSnapshotID := "snapshot-1"; inVerifierID := "verifier-1";
  inVerifierVersion := "1"; inWindowStartUTC := "2023-11-14T22:13:20Z"; inWindowEndUTC := "2023-11-14T22:13:22Z";
  inReceiptCount := 0; inCommitmentCount := 0; inPersistenceCount := 0; inCommitmentSegment := chain_bounds [];
  inAuditChainCount := 2; inAuditChainSegment := chain_bounds (snAuditChain ex_transfer); inLimitations := [];
  inArtifacts := map entry_artifact (rev (snAuditChain ex_transfer)) |}.

Definition ex_read (path : string) : result string :=
  match List.find (fun e => String.eqb path (sourceArtifactPath ex_importer (oaRelativePath (entry_artifact e)))) (snAuditChain ex_transfer) with
  | Some e => Ok (entry_body e)
  | None => Err (Sentinel "ErrNotExist")
  end.

(** Both events of [ex_db] are receipts: the segment, listed in reverse, is accepted. *)
Example ex_transferred : is_ok (importOperationalAuditChainEntries ex_read ex_importer (inArtifacts ex_inventory) ex_inventory) = true.
Proof. vm_compute. reflexivity. Qed.

Lemma ex_read_entries e : e ∈ snAuditChain ex_transfer ->
  ex_read (sourceArtifactPath ex_importer (oaRelativePath (entry_artifact e))) = Ok (entry_body e).
Proof.
  intros He%list_elem_of_In. assert (H : forallb (fun e => match ex_read (sourceArtifactPath ex_importer (oaRelativePath (entry_artifact e))) with
    | Ok b => String.eqb b (entry_body e) | Err _ => false end) (snAuditChain ex_transfer) = true) by (vm_compute; reflexivity).
  rewrite forallb_forall in H. specialize (H e He). cbv beta in H. revert H.
  generalize (entry_body e). intros body. destruct (ex_read (sourceArtifactPath _ _)) as [b|]; [|discriminate].
  intros H. apply String.eqb_eq in H. rewrite H. exact eq_refl.
Qed.

Lemma segment_transfer_witness :
  is_ok (importOperationalAuditChainEntries ex_read ex_importer (inArtifacts ex_inventory) ex_inventory) = true <->
  (forall x, x ∈ chain_of (ex_query 1700000000 1700000002) ex_db -> content_fit x) /\
  forall a b c, a ∈ chained_rows (events (as_chain (ed_store ex_db))) -> b ∈ chained_rows (events (as_chain (ed_store ex_db))) ->
    c ∈ chained_rows (events (as_chain (ed_store ex_db))) -> chain_selected (ex_query 1700000000 1700000002) a = true ->
    chain_selected (ex_query 1700000000 1700000002) c = true -> (a.1 <= b.1 <= c.1)%Z ->
    chain_selected (ex_query 1700000000 1700000002) b = true.
Proof.
  apply (segment_transfer ex_read ex_importer (ex_query 1700000000 1700000002) no_fault 0 ex_db ex_transfer 5 ex_db).
  - exact ex_executed_intact.
  - apply Forall_forall. vm_compute. repeat constructor.
  - intros x Hx. eapply row_fitb_spec; [|exact Hx]. vm_compute. reflexivity.
  - vm_compute. reflexivity.
  - apply Permutation_map, Permutation_sym, Permutation_rev.
  - reflexivity.
  - apply ex_read_entries.
Defined.
