(* ===== verification/OperationalGraph.v ===== *)
(** Operational evidence in the graph: the references [OperationalExportImporter.Import]
    gives its nodes, and what the graph's validation makes of them. *)
From S2P Require Import Prelude Errors Encoding Sha256 Timestamp TimeParse Json JsonEncode Crypto Receipt Chain Commitment Segment Snapshot Evidence EvidenceGraph EvidenceImport OperationalExport OperationalImport OperationalTransfer.
From Stdlib Require Import String Ascii List ZArith Lia Bool.
From stdpp Require Import base strings list sorting gmap sets relations.
Open Scope string_scope.

(** ** Linking keeps nodes *)

(** [b] is [a] with more references. *)
Definition more_references (a b : EvidenceNode) : Prop :=
  enArtifactID b = enArtifactID a /\ enArtifactType b = enArtifactType a /\ enTransactionID b = enTransactionID a /\
  enCanonicalBytes b = enCanonicalBytes a /\ enReferences a ⊆ enReferences b.

#[export] Instance more_references_preorder : PreOrder more_references.
Proof. split; [by intros a|]. intros a b c (? & ? & ? & ? & ?) (? & ? & ? & ? & ?). split_and!; try congruence. by etrans. Qed.

Definition linked : list EvidenceNode -> list EvidenceNode -> Prop := Forall2 more_references.

#[export] Instance linked_preorder : PreOrder linked.
Proof. unfold linked. split; apply _. Qed.

Lemma add_reference_linked once id ref nodes : linked nodes (add_reference once id ref nodes).
Proof.
  induction nodes as [|n nodes IH]; [constructor|]. cbn [add_reference]. destruct (String.eqb (enArtifactID n) id).
  - constructor; [split_and!; try done; cbn; set_solver|]. destruct once; [reflexivity|done].
  - constructor; [reflexivity|done].
Qed.

Lemma add_reference_has id ref nodes n : n ∈ add_reference false id ref nodes -> enArtifactID n = id -> ref ∈ enReferences n.
Proof.
  induction nodes as [|m nodes IH]; [by intros ?%not_elem_of_nil|]. cbn [add_reference]. destruct (String.eqb_spec (enArtifactID m) id) as [E|E].
  - intros [->|H]%elem_of_cons Hid; [cbn; set_solver|by apply IH].
  - intros [->|H]%elem_of_cons Hid; [done|by apply IH].
Qed.

(** Every node with id [a] refers to [b]. *)
Definition names (a b : string) (nodes : list EvidenceNode) : Prop := forall n, n ∈ nodes -> enArtifactID n = a -> b ∈ enReferences n.

Lemma names_linked a b nodes nodes' : linked nodes nodes' -> names a b nodes -> names a b nodes'.
Proof.
  intros Hl Hn n' Hn' Hid. destruct (Forall2_in_r _ _ _ _ Hl Hn') as (n & Hin & E1 & _ & _ & _ & Hr). apply Hr, Hn; [done|congruence].
Qed.

Lemma link_pair_linked marshal x c nodes : linked nodes (link_pair marshal x c nodes).
Proof. unfold link_pair. destruct (_ && _); [|reflexivity]. etrans; apply add_reference_linked. Qed.

Lemma fold_linked {A} (f : list EvidenceNode -> A -> list EvidenceNode) l nodes :
  (forall n a, linked n (f n a)) -> linked nodes (fold_left f l nodes).
Proof. intros Hf. revert nodes. induction l as [|a l IH]; intros nodes; [reflexivity|]. etrans; [apply Hf|apply IH]. Qed.

Lemma fold_names {A} (f : list EvidenceNode -> A -> list EvidenceNode) l a x y nodes :
  (forall n b, linked n (f n b)) -> (forall n, names x y (f n a)) -> a ∈ l -> names x y (fold_left f l nodes).
Proof.
  intros Hf Ha. revert nodes. induction l as [|b l IH]; intros nodes Hin; [by apply not_elem_of_nil in Hin|].
  cbn [fold_left]. apply elem_of_cons in Hin as [<-|Hin]; [|by apply IH].
  eapply names_linked; [by apply fold_linked|apply Ha].
Qed.

Lemma link_receipts_linked marshal receipts chain nodes : linked nodes (link_receipts marshal receipts chain nodes).
Proof. apply fold_linked. intros n x. apply fold_linked. intros m c. apply link_pair_linked. Qed.

(** A receipt and an entry that match name each other. *)
Lemma link_receipts_names marshal receipts chain nodes x c :
  x ∈ receipts -> c ∈ chain -> enTransactionID c = irTransactionID x ->
  operationalReceiptMatchesChainEntry marshal (irReceipt x) (enCanonicalBytes c) = true ->
  names (enArtifactID (irNode x)) (enArtifactID c) (link_receipts marshal receipts chain nodes) /\
  names (enArtifactID c) (enArtifactID (irNode x)) (link_receipts marshal receipts chain nodes).
Proof.
  intros Hx Hc Ht Hm. assert (H : forall a b, (forall n, names a b (link_pair marshal x c n)) -> names a b (link_receipts marshal receipts chain nodes)).
  { intros a b Hab. eapply fold_names; [intros n y; apply fold_linked; intros; apply link_pair_linked| |exact Hx].
    intros n. eapply fold_names; [intros; apply link_pair_linked|exact Hab|exact Hc]. }
  split; apply H; intros n; unfold link_pair; rewrite Ht, String.eqb_refl, Hm; cbn [andb].
  - eapply names_linked; [apply add_reference_linked|]. intros m Hin Hid. by eapply add_reference_has.
  - intros m Hin Hid. by eapply add_reference_has.
Qed.

Lemma link_commitments_linked receipts records nodes nodes' :
  link_commitments receipts records nodes = Ok nodes' -> linked nodes nodes'.
Proof.
  revert nodes. induction records as [|r records IH]; intros nodes H; cbn [link_commitments] in H; [by injection H as <-|].
  destruct (List.find _ receipts) as [x|]; [|by apply IH].
  destruct (validateOperationalCommitmentReceiptLink _ _ _) as [ref|]; [|done]. cbn [rbind] in H. apply IH in H.
  etrans; [|exact H]. destruct (String.eqb ref ""); [reflexivity|apply add_reference_linked].
Qed.

(** The nodes of the first importer stand. *)
Lemma index_front l l' k n :
  n ∈ l -> enArtifactID n = k -> exists m, EvidenceGraph.index (l ++ l')%list !! k = Some m /\ m ∈ l /\ enArtifactID m = k.
Proof.
  intros Hn Hk. unfold EvidenceGraph.index. rewrite fmap_app, list_to_map_app. fold (EvidenceGraph.index l). destruct (EvidenceGraph.index l !! k) as [m|] eqn:Hm.
  - exists m. rewrite (lookup_union_Some_l _ _ _ _ Hm). split; [done|]. by apply index_Some.
  - by destruct (index_None l k Hm n Hn).
Qed.

(** ** Where the nodes of an import come from *)

Section import.
Context `{E : Ed25519}.
Context (marshal_stage marshal_canonical_stage : StageEvidence -> result string).
Context (UnmarshalReceipt : string -> result ActionReceipt) (UnmarshalPersistence : string -> result ReceiptPersistenceAttestation).
Context (UnmarshalCommitment : string -> result CommitmentAttestation).
Context (MarshalReceipt : ActionReceipt -> result string) (MarshalPersistence : ReceiptPersistenceAttestation -> result string).
Context (ReadFile : string -> result string) (GetTrustedSignerPublicKey : string -> result string).
Context (range_receipts : list imported_receipt -> list imported_receipt).

Lemma check_artifacts_ids i paths ids l :
  check_artifacts ReadFile i paths ids l = Ok tt -> NoDup (map oaArtifactID l) /\ forall x, x ∈ map oaArtifactID l -> x ∉ ids.
Proof.
  revert paths ids. induction l as [|a l IH]; intros paths ids H; cbn [check_artifacts map] in *; [split; [constructor|set_solver]|].
  destruct (entry_valid a paths ids) as [[]|] eqn:Hv; [|done]. cbn [rbind] in H. destruct (ReadFile _); [|done]. cbn [rbind wrap_as] in H.
  apply require_bind_Ok in H as [_ H]. apply IH in H as [Hn Hi].
  assert (Ha : oaArtifactID a ∉ ids).
  { unfold entry_valid in Hv. do 4 apply require_bind_Ok in Hv as [_ Hv]. destruct (mem (oaArtifactID a) ids) eqn:Hm; [done|].
    intros Hin. apply not_true_iff_false in Hm. apply Hm. by apply mem_true. }
  split; [constructor; [intros Hx; apply (Hi _ Hx); by left|done]|]. intros x [->|Hx]%elem_of_cons; [done|]. specialize (Hi x Hx). set_solver.
Qed.

Lemma bind_receipts_from i bindings l bs :
  bind_receipts UnmarshalReceipt ReadFile i bindings l = Ok bs ->
  forall b, b ∈ bs -> b ∈ bindings \/ exists a body r, a ∈ l /\ b.2 = binding_of i a /\
    ReadFile (rbPath b.2) = Ok body /\ UnmarshalReceipt body = Ok r /\ rcTransactionId r = oaTransactionID a.
Proof.
  revert bindings. induction l as [|a l IH]; intros bindings H b Hb; cbn [bind_receipts] in H; [injection H as ->; by left|].
  destruct (ReadFile _) as [body|] eqn:Hf; [|done]. cbn [rbind] in H. unfold receiptTransactionID in H.
  destruct (UnmarshalReceipt body) as [r|] eqn:Hu; [|done]. destruct (str_nonempty _); [|done]. cbn [rbind] in H.
  apply require_bind_Ok in H as [Ht H]. apply require_bind_Ok in H as [_ H]. apply String.eqb_eq in Ht.
  destruct (IH _ H b Hb) as [[->|Hin]%elem_of_cons|(a' & body' & r' & ? & ?)]; [right|by left|right].
  - exists a, body, r. split_and!; try done. by left.
  - exists a', body', r'. set_solver.
Qed.

Lemma ImportReceipt_node now b n :
  ImportReceipt marshal_stage UnmarshalReceipt MarshalPersistence ReadFile GetTrustedSignerPublicKey now b = Ok n ->
  rbReference b <> "" /\ enArtifactID n = rbReference b /\ enArtifactType n = ArtifactTypeActionReceipt /\
  ReadFile (rbPath b) = Ok (enCanonicalBytes n) /\
  exists r, UnmarshalReceipt (enCanonicalBytes n) = Ok r /\ enTransactionID n = rcTransactionId r.
Proof.
  intros H. unfold ImportReceipt in H. apply require_bind_Ok in H as [Hb H].
  destruct (readCanonicalReceipt _ _ b) as [[r [body digest]]|] eqn:Hr; [|done]. cbn [rbind] in H.
  destruct (readCanonicalReceipt_Ok _ _ _ _ _ _ Hb Hr) as ((Hf & -> & Hid) & Hv & Hu).
  destruct (verifyAssessedReceiptSignature _ _ _ r) as [v|] eqn:Hvd; [|done]. cbn [rbind] in H.
  destruct (receipt_references _ r) as [refs|] eqn:Hrefs; [|done]. injection H as <-. cbn.
  split; [rewrite Hid; by destruct ActionReceiptReferencePrefix eqn:?|]. split_and!; try done. by exists r.
Qed.

Lemma ImportPersistence_type now b n :
  ImportPersistence marshal_stage UnmarshalReceipt UnmarshalPersistence ReadFile GetTrustedSignerPublicKey now b = Ok n ->
  enArtifactType n = ArtifactTypeReceiptPersistence.
Proof.
  unfold ImportPersistence. intros [_ H]%require_bind_Ok. destruct (readCanonicalReceipt _ _ _) as [[r p]|]; [|done]. cbn [rbind] in H.
  destruct (readCanonicalPersistence _ _ _) as [[a [body d]]|]; [|done]. cbn [rbind] in H. apply require_bind_Ok in H as [_ H].
  destruct (verifyAssessedPersistence _ _ _ _); [|done]. by injection H as <-.
Qed.

Lemma ImportCommitment_type at_ b n :
  ImportCommitment UnmarshalCommitment ReadFile GetTrustedSignerPublicKey at_ b = Ok n -> enArtifactType n = ArtifactTypeCommitment.
Proof.
  unfold ImportCommitment. intros [_ H]%require_bind_Ok. destruct (read_referenced _ _ _ _) as [[body d]|]; [|done]. cbn [rbind] in H.
  destruct (wrap_as _ _ (UnmarshalCommitment body)) as [a|]; [|done]. cbn [rbind] in H. do 2 apply require_bind_Ok in H as [_ H].
  destruct (verifyAssessedCommitment _ _ _); [|done]. by injection H as <-.
Qed.

Lemma protocol_node_type r n c :
  operationalProtocolChainNode marshal_canonical_stage r n = Ok (Some c) -> enArtifactType c = ArtifactTypeProtocolChain.
Proof.
  unfold operationalProtocolChainNode. intros H. destruct (rcStages r); [done|].
  destruct (wrap_as _ _ _) as [chain|]; [|done]. cbn [rbind] in H. destruct (CanonicalDeterministicStages _ _); [|done]. cbn [rbind] in H.
  destruct (ParseExpectedContentReference _ _); [|done]. destruct (VerifyDigest _ _); [|done]. by injection H as <-.
Qed.

(** A receipt's node and the record of the receipt. *)
Definition receipt_recorded (n : EvidenceNode) (x : imported_receipt) : Prop :=
  irNode x = n /\ UnmarshalReceipt (enCanonicalBytes n) = Ok (irReceipt x) /\ irTransactionID x = enTransactionID n.

Lemma import_receipts_nodes i all bindings l receipts nodes :
  NoDup (map oaArtifactID all) -> bind_receipts UnmarshalReceipt ReadFile i [] all = Ok bindings -> l ⊆ all ->
  import_receipts marshal_stage marshal_canonical_stage UnmarshalReceipt MarshalPersistence ReadFile GetTrustedSignerPublicKey
    i bindings l = Ok (receipts, nodes) ->
  forall n, n ∈ nodes -> enArtifactType n = ArtifactTypeActionReceipt -> exists x, x ∈ receipts /\ receipt_recorded n x.
Proof.
  intros Hnd Hbind. revert receipts nodes. induction l as [|a l IH]; intros receipts nodes Hsub H n Hn Ht; cbn [import_receipts] in H.
  { injection H as <- <-. by apply not_elem_of_nil in Hn. }
  destruct (ImportReceipt _ _ _ _ _ _ _) as [m|] eqn:Hm; [|done]. cbn [rbind] in H.
  destruct (ImportReceipt_node _ _ _ Hm) as (Hne & Hid & Hty & Hf & r & Hu & Htx). rewrite Hf in H. cbn [rbind] in H.
  rewrite Hu in H. cbn [rbind wrap_as] in H. destruct (operationalProtocolChainNode _ r m) as [c|] eqn:Hc; [|done]. cbn [rbind] in H.
  destruct (import_receipts _ _ _ _ _ _ i bindings l) as [[rs ns]|] eqn:Hl; [|done]. cbn [rbind] in H. injection H as <- <-.
  specialize (IH rs ns ltac:(set_solver) eq_refl n).
  apply elem_of_cons in Hn as [->|Hn].
  - exists {| irTransactionID := oaTransactionID a; irReceipt := r; irNode := m |}. split; [by left|]. split_and!; [done|done|]. cbn.
    unfold receiptBindingsForEntry in Hf, Hne.
    destruct (List.find _ bindings) as [b|] eqn:Hfind; [|done]. apply find_some in Hfind as [Hin%list_elem_of_In Href%String.eqb_eq].
    destruct (bind_receipts_from _ _ _ _ Hbind b Hin) as [?%not_elem_of_nil|(a' & body & r' & Ha' & Hb & Hf' & Hu' & Hr')]; [done|].
    rewrite Hf in Hf'. injection Hf' as <-. rewrite Hu in Hu'. injection Hu' as <-.
    assert (a' = a) as ->; [|by rewrite Htx].
    rewrite Hb in Href. cbn in Href. assert (Hin_a : a ∈ all) by set_solver. clear -Hnd Ha' Hin_a Href.
    induction all as [|z all IH]; [by apply not_elem_of_nil in Ha'|]. apply NoDup_cons in Hnd as [Hz Hnd].
    apply elem_of_cons in Ha' as [->|Ha'], Hin_a as [->|Hin_a]; [done| | |by apply IH]; exfalso; apply Hz.
    + rewrite Href. by apply list_elem_of_fmap_2.
    + rewrite <- Href. by apply list_elem_of_fmap_2.
  - apply elem_of_app in Hn as [Hn|Hn].
    + destruct c as [c|]; [|by apply not_elem_of_nil in Hn]. apply list_elem_of_singleton in Hn as ->.
      by rewrite (protocol_node_type _ _ _ Hc) in Ht.
    + destruct (IH Hn Ht) as (x & ? & ?). exists x. split; [by right|done].
Qed.

Lemma import_receipts_types i bindings l receipts nodes :
  import_receipts marshal_stage marshal_canonical_stage UnmarshalReceipt MarshalPersistence ReadFile GetTrustedSignerPublicKey
    i bindings l = Ok (receipts, nodes) ->
  forall n, n ∈ nodes -> enArtifactType n = ArtifactTypeActionReceipt \/ enArtifactType n = ArtifactTypeProtocolChain.
Proof.
  revert receipts nodes. induction l as [|a l IH]; intros receipts nodes H n Hn; cbn [import_receipts] in H.
  { injection H as <- <-. by apply not_elem_of_nil in Hn. }
  destruct (ImportReceipt _ _ _ _ _ _ _) as [m|] eqn:Hm; [|done]. cbn [rbind] in H.
  apply ImportReceipt_node in Hm as (_ & _ & Hty & Hf & r & Hu & _). rewrite Hf in H. cbn [rbind] in H.
  rewrite Hu in H. cbn [rbind wrap_as] in H. destruct (operationalProtocolChainNode _ r m) as [c|] eqn:Hc; [|done]. cbn [rbind] in H.
  destruct (import_receipts _ _ _ _ _ _ i bindings l) as [[rs ns]|] eqn:Hl; [|done]. cbn [rbind] in H. injection H as <- <-.
  apply elem_of_cons in Hn as [->|[Hn|Hn]%elem_of_app]; [by left| |by eapply IH].
  destruct c as [c|]; [|by apply not_elem_of_nil in Hn]. apply list_elem_of_singleton in Hn as ->. right. by eapply protocol_node_type.
Qed.

Lemma import_persistence_types i bindings l nodes :
  import_persistence marshal_stage UnmarshalReceipt UnmarshalPersistence ReadFile GetTrustedSignerPublicKey i bindings l = Ok nodes ->
  Forall (fun n => enArtifactType n = ArtifactTypeReceiptPersistence) nodes.
Proof.
  revert nodes. induction l as [|a l IH]; intros nodes H; cbn [import_persistence] in H; [injection H as <-; constructor|].
  destruct (ReadFile _); [|done]. cbn [rbind] in H. destruct (persistenceTransactionID _ _); [|done]. cbn [rbind] in H.
  apply require_bind_Ok in H as [_ H]. destruct (List.find _ bindings) as [[t b]|]; [|done].
  destruct (ImportPersistence _ _ _ _ _ _ _) eqn:Hp; [|done]. cbn [rbind] in H.
  destruct (import_persistence _ _ _ _ _ i bindings l) eqn:Hl; [|done]. injection H as <-.
  constructor; [by eapply ImportPersistence_type|by apply IH].
Qed.

Lemma import_commitments_types i l records nodes :
  import_commitments UnmarshalCommitment ReadFile GetTrustedSignerPublicKey i l = Ok (records, nodes) ->
  Forall (fun n => enArtifactType n = ArtifactTypeCommitment) nodes.
Proof.
  revert records nodes. induction l as [|a l IH]; intros records nodes H; cbn [import_commitments] in H; [injection H as <- <-; constructor|].
  apply require_bind_Ok in H as [_ H]. destruct (ImportCommitment _ _ _ _ _) eqn:Hc; [|done]. cbn [rbind] in H.
  destruct (wrap_as _ _ (ReadFile _)) as [body|]; [|done]. cbn [rbind] in H. destruct (wrap_as _ _ (UnmarshalCommitment body)); [|done]. cbn [rbind] in H.
  destruct (import_commitments _ _ _ i l) as [[rs ns]|] eqn:Hl; [|done]. injection H as <- <-.
  constructor; [by eapply ImportCommitment_type|by eapply IH].
Qed.

Lemma import_chain_types i l segment nodes :
  import_chain_entries ReadFile i l = Ok (segment, nodes) -> Forall (fun n => enArtifactType n = ArtifactTypeAuditChainEntry) nodes.
Proof.
  revert segment nodes. induction l as [|a l IH]; intros segment nodes H; cbn [import_chain_entries] in H; [injection H as <- <-; constructor|].
  destruct (import_chain_entry ReadFile i a) as [[e n]|] eqn:Hc; [|done]. cbn [rbind] in H.
  destruct (import_chain_entries ReadFile i l) as [[s ns]|] eqn:Hl; [|done]. injection H as <- <-. constructor; [|by eapply IH].
  unfold import_chain_entry in Hc. destruct (ReadFile _); [|done]. cbn [rbind] in Hc. apply require_bind_Ok in Hc as [_ Hc].
  destruct (UnmarshalAuditChainSegmentEntry _); [|done]. cbn [rbind] in Hc. do 2 apply require_bind_Ok in Hc as [_ Hc].
  destruct (wrap_as _ _ _); [|done]. cbn [rbind] in Hc. by injection Hc as <- <-.
Qed.
(** The node of a receipt and the node of an entry that holds the receipt's canonical
    text, of one transaction. *)
Definition recorded_in (rn cn : EvidenceNode) : Prop :=
  enArtifactType rn = ArtifactTypeActionReceipt /\ enArtifactType cn = ArtifactTypeAuditChainEntry /\
  enTransactionID cn = enTransactionID rn /\
  exists r, UnmarshalReceipt (enCanonicalBytes rn) = Ok r /\ operationalReceiptMatchesChainEntry MarshalReceipt r (enCanonicalBytes cn) = true.

#[local] Notation Import := (Import marshal_stage marshal_canonical_stage UnmarshalReceipt UnmarshalPersistence UnmarshalCommitment
  MarshalReceipt MarshalPersistence ReadFile GetTrustedSignerPublicKey range_receipts).

Context (Hrange : forall l, range_receipts l ≡ₚ l).

(** Such nodes of an import refer to each other, whatever else they refer to. *)
Lemma Import_links i nodes rn cn :
  Import i = Ok nodes -> rn ∈ nodes -> cn ∈ nodes -> recorded_in rn cn ->
  names (enArtifactID rn) (enArtifactID cn) nodes /\ names (enArtifactID cn) (enArtifactID rn) nodes.
Proof.
  intros H Hrn Hcn (Hrt & Hct & Htx & r & Hu & Hm). unfold OperationalImport.Import in H. apply require_bind_Ok in H as [_ H].
  destruct (wrap_as _ _ (ReadFile _)) as [ib|]; [|done]. cbn [rbind] in H. destruct (UnmarshalInventory ib) as [v|]; [|done]. cbn [rbind] in H.
  apply require_bind_Ok in H as [_ H]. set (arts := merge_sort path_le (inArtifacts v)) in *.
  destruct (check_artifacts _ _ _ _ arts) as [[]|] eqn:Hck; [|done]. cbn [rbind] in H. apply require_bind_Ok in H as [_ H].
  apply check_artifacts_ids in Hck as [Hnd _].
  destruct (bind_receipts _ _ _ _ _) as [bindings|] eqn:Hb; [|done]. cbn [rbind] in H.
  destruct (import_receipts _ _ _ _ _ _ _ _ _) as [[receipts rnodes]|] eqn:Hr; [|done]. cbn [rbind] in H.
  destruct (import_persistence _ _ _ _ _ _ _ _) as [pnodes|] eqn:Hp; [|done]. cbn [rbind] in H.
  destruct (import_commitments _ _ _ _ _) as [[records cnodes]|] eqn:Hc; [|done]. cbn [rbind] in H.
  destruct (validateOperationalCommitmentSegment _ _); [|done]. cbn [rbind] in H.
  unfold importOperationalAuditChainEntries in H.
  destruct (import_chain_entries _ _ _) as [[segment chain]|] eqn:Hch; [|done]. cbn [rbind] in H.
  destruct (wrap_as _ _ (VerifyAuditChainSegment _ _ _)); [|done]. cbn [rbind] in H.
  destruct (link_commitments _ _ _) as [nodes1|] eqn:Hl1; [|done]. cbn [rbind] in H.
  destruct (validateOperationalAuditChainInventory _ _); [|done]. injection H as <-.
  apply link_commitments_linked in Hl1. pose proof (link_receipts_linked MarshalReceipt (range_receipts receipts) chain nodes1) as Hl2.
  assert (Hl : linked (rnodes ++ pnodes ++ cnodes ++ chain)%list (link_receipts MarshalReceipt (range_receipts receipts) chain nodes1)) by (by etrans).
  apply import_persistence_types in Hp. apply import_commitments_types in Hc. apply import_chain_types in Hch.
  assert (Hnd' : NoDup (map oaArtifactID (of_type ArtifactTypeActionReceipt arts))).
  { clear -Hnd. induction arts as [|a l IH]; [constructor|]. apply NoDup_cons in Hnd as [Ha Hnd]. unfold of_type in *. cbn [List.filter].
    destruct (String.eqb _ _); [|by apply IH]. cbn [map]. apply NoDup_cons. split; [|by apply IH].
    intros (b & E' & [Hb _]%in_filter)%list_elem_of_fmap. apply Ha. rewrite E'. by apply list_elem_of_fmap_2. }
  destruct (Forall2_in_r _ _ _ _ Hl Hrn) as (rn0 & Hrn0 & Er1 & Er2 & Er3 & Er4 & _).
  destruct (Forall2_in_r _ _ _ _ Hl Hcn) as (cn0 & Hcn0 & Ec1 & Ec2 & Ec3 & Ec4 & _).
  rewrite Forall_forall in Hp, Hc, Hch.
  assert (Hrn1 : rn0 ∈ rnodes).
  { rewrite !elem_of_app in Hrn0. destruct Hrn0 as [?|[Hx%Hp|[Hx%Hc|Hx%Hch]]]; [done|exfalso; rewrite <- Er2, Hrt in Hx; discriminate Hx..]. }
  destruct (import_receipts_nodes i _ _ _ _ _ Hnd' Hb ltac:(done) Hr rn0 Hrn1 ltac:(congruence)) as (x & Hx & Hxn & Hxu & Hxt).
  assert (Hcn1 : cn0 ∈ chain).
  { rewrite !elem_of_app in Hcn0. destruct Hcn0 as [Hx'|[Hx'%Hp|[Hx'%Hc|?]]]; [exfalso|exfalso; rewrite <- Ec2, Hct in Hx'; discriminate Hx'..|done].
    apply (import_receipts_types _ _ _ _ _ Hr) in Hx'. rewrite <- Ec2, Hct in Hx'. by destruct Hx'. }
  rewrite Er1, Ec1, <- Hxn. apply (link_receipts_names MarshalReceipt _ chain nodes1 x cn0); [by rewrite Hrange|done|congruence|].
  rewrite <- Ec4. rewrite Er4, Hxu in Hu. by injection Hu as ->.
Qed.

(** C19: If an import contains a receipt and the audit event that recorded it, the graph
    that is built from it is not valid: importing makes the two refer to each other, and
    validation counts that as a cycle.  The importer's own test asks for both references. *)
Theorem recorded_receipt_refused range i nodes rn cn windowStart windowEnd verifiedAt sourceID runID rest :
  (forall k m, range k m ≡ₚ map_to_list m) ->
  Import i = Ok nodes -> rn ∈ nodes -> cn ∈ nodes -> recorded_in rn cn ->
  exists g report,
    BuildAndValidateGraph range (Some {| imImport := Import i; imSourceID := sourceID; imRunID := runID |} :: rest)
      windowStart windowEnd verifiedAt = Some (g, report) /\ rpValid report = false.
Proof.
  intros Ho Hi Hrn Hcn Hrec. destruct (Import_links i nodes rn cn Hi Hrn Hcn Hrec) as [Hn1 Hn2].
  edestruct (BuildAndValidateGraph_spec range Ho) as (g & report & Hg & Hv & _). exists g, report. split; [exact Hg|].
  apply not_true_iff_false. intros Hval. apply Hv in Hval as (_ & _ & _ & Hok). cbn [imported imImport] in Hok. rewrite Hi in Hok.
  assert (Href : forall a b n, n ∈ nodes -> enArtifactID n = a -> names a b nodes -> refers (EvidenceGraph.index (nodes ++ imported rest)%list) a b).
  { intros a b n Hn Hid Hnames. destruct (index_front nodes (imported rest) a n Hn Hid) as (m & Hm & Hin & Hmid).
    exists m. split; [done|]. by apply Hnames. }
  apply (go_acyclic _ Hok (enArtifactID rn)). eapply tc_l; [by eapply (Href _ (enArtifactID cn) rn)|].
  apply tc_once. by eapply (Href _ _ cn).
Qed.
End import.

(** ** A concrete import *)

#[local] Existing Instance toy_ed25519.

(** One receipt, its canonical text "receipt", and the audit event that recorded it. *)
Definition ex_packed : ActionReceipt := ex_unsigned None ex_signature.
Definition ex_marshal_receipt (r : ActionReceipt) : result string := if String.eqb (rcResultSummary r) "done" then Ok "receipt" else Err (Extern "protojson").
Definition ex_unmarshal_receipt (body : string) : result ActionReceipt := if String.eqb body "receipt" then Ok ex_packed else Err (Extern "protojson").
Definition ex_link : AuditChainSegmentEntry := ex_entry 7 "h6" "receipt".
Definition ex_link_body : string := json_object (entry_members ex_link).

Definition ex_artifacts : list OperationalExportArtifact := [
  {| oaArtifactType := ArtifactTypeActionReceipt; oaArtifactID := ContentAddress ArtifactTypeActionReceipt "receipt";
     oaSHA256 := sha256_hex "receipt"; oaTransactionID := "tx-1"; oaSequence := 0; oaProducedAtUTC := "2023-11-14T22:13:21Z";
     oaRelativePath := "receipts/r.json" |};
  {| oaArtifactType := ArtifactTypeAuditChainEntry; oaArtifactID := ContentAddress ArtifactTypeAuditChainEntry ex_link_body;
     oaSHA256 := sha256_hex ex_link_body; oaTransactionID := "tx-1"; oaSequence := 7; oaProducedAtUTC := "2023-11-14T22:13:20Z";
     oaRelativePath := "audit-chain/e.json" |}].

Definition ex_bounds : segment_bounds :=
  {| sbFirst := 7; sbLast := 7; sbBoundaryPriorHash := "h6"; sbHeadHash := seHash ex_link; sbContiguous := true |}.

Definition ex_package : OperationalSourceInventory := {|
  inSchemaVersion := operationalExportSchemaVersion; inScopeID := "scope-1"; inAdmissionID := "admission-1";
  inSourceKind := "operational"; inSourceVersion := "1"; inSourceScopeID := "scope-1"; inOwnerRuntimeBoundary := "owner";
  inAcquisitionBoundary := "boundary"; inRunID := "run-1"; inSnapshotID := "snapshot-1"; inVerifierID := "verifier-1";
  inVerifierVersion := "1"; inWindowStartUTC := "2023-11-14T22:13:20Z"; inWindowEndUTC := "2023-11-14T22:13:22Z";
  inReceiptCount := 1; inCommitmentCount := 0; inPersistenceCount := 0; inCommitmentSegment := chain_bounds [];
  inAuditChainCount := 1; inAuditChainSegment := ex_bounds; inLimitations := []; inArtifacts := ex_artifacts |}.

Definition ex_package_files (path : string) : result string :=
  if String.eqb path "inventory.json" then Ok (MarshalInventory ex_package)
  else if String.eqb path "export/receipts/r.json" then Ok "receipt"
  else if String.eqb path "export/audit-chain/e.json" then Ok ex_link_body
  else Err (Sentinel "ErrNotExist").

Definition ex_imported_nodes : result (list EvidenceNode) :=
  Import toy_marshal toy_marshal ex_unmarshal_receipt ex_attestations ex_commitments ex_marshal_receipt ex_marshal_attestation
    ex_package_files ex_no_trust id ex_importer.
Definition ex_nodes : list EvidenceNode := match ex_imported_nodes with Ok l => l | Err _ => [] end.

(** Both nodes are there, and each refers to the other. *)
Example ex_cross_links :
  map (fun n => (enArtifactType n, enReferences n)) ex_nodes =
    [(ArtifactTypeActionReceipt, [ContentAddress ArtifactTypeAuditChainEntry ex_link_body]);
     (ArtifactTypeAuditChainEntry, [ContentAddress ArtifactTypeActionReceipt "receipt"])].
Proof. vm_compute. reflexivity. Qed.

Definition ex_receipt_end : EvidenceNode := hd ex_node ex_nodes.
Definition ex_chain_end : EvidenceNode := List.last ex_nodes ex_node.

Lemma recorded_receipt_refused_witness :
  exists g report,
    BuildAndValidateGraph (fun _ => map_to_list)
      [Some {| imImport := ex_imported_nodes; imSourceID := "operational"; imRunID := Some "run-1" |}] 0%Z 0%Z 0%Z = Some (g, report) /\
    rpValid report = false.
Proof.
  apply (recorded_receipt_refused toy_marshal toy_marshal ex_unmarshal_receipt ex_attestations ex_commitments ex_marshal_receipt
           ex_marshal_attestation ex_package_files ex_no_trust id) with (nodes := ex_nodes) (rn := ex_receipt_end) (cn := ex_chain_end).
  - intros l. reflexivity.
  - intros k m. reflexivity.
  - vm_compute. reflexivity.
  - apply list_elem_of_In. vm_compute. left. reflexivity.
  - apply list_elem_of_In. vm_compute. right. left. reflexivity.
  - split; [vm_compute; reflexivity|]. split; [vm_compute; reflexivity|]. split; [vm_compute; reflexivity|].
    exists ex_packed. split; vm_compute; reflexivity.
Defined.
