(* ===== verification/Procs.v ===== *)
(** Operations as sequences of atomic statements, and their interleavings.

    A Go operation that works on a shared store is a [proc]: it returns, or it makes
    one statement against its environment (a SQL statement, a read of the clock, a
    call of another service) and continues with the answer.  A system runs any number
    of them over one world; a step starts an operation, runs the next statement of one
    of them, or stops one for good (a crash).  Every thread keeps the statements it
    made with their answers, oldest first. *)
From S2P Require Import Prelude Errors.
From Stdlib Require Import String List Bool.
From stdpp Require Import base list.

(** [E A]: the statements that are answered by an [A]. *)
Inductive proc (E : Type -> Type) (A : Type) : Type :=
| Ret (a : A)
| Do (B : Type) (s : E B) (k : B -> proc E A).
Arguments Ret {E A} a.
Arguments Do {E A B} s k.

Section procs.
Context {E : Type -> Type}.

Fixpoint proc_bind {A B} (p : proc E A) (f : A -> proc E B) : proc E B :=
  match p with
  | Ret a => f a
  | Do s k => Do s (fun b => proc_bind (k b) f)
  end.

(** One statement. *)
Definition ask {B} (s : E B) : proc E B := Do s Ret.

(** Operations that return [(A, error)]. *)
Definition ep (A : Type) : Type := proc E (result A).

Definition ep_bind {A B} (p : ep A) (f : A -> ep B) : ep B :=
  proc_bind p (fun r => match r with Ok a => f a | Err e => Ret (Err e) end).
Definition ep_lift {A} (r : result A) : ep A := Ret r.
Definition ep_err {A} (e : gerr) : ep A := Ret (Err e).
(** [fmt.Errorf(fmt, err)] around what fails. *)
Definition ep_wrap {A} (fmt : string) (p : ep A) : ep A :=
  proc_bind p (fun r => Ret (wrap_err fmt r)).

(** [for _, x := range l]. *)
Fixpoint proc_each {X S} (l : list X) (body : X -> S -> proc E S) (s : S) : proc E S :=
  match l with
  | [] => Ret s
  | x :: l => proc_bind (body x s) (proc_each l body)
  end.

(** ** What an operation may do

    [honest s b]: [b] is an answer that statement [s] can get.  [every honest ok p h]:
    whatever honest answers [p] gets, each statement it makes is one that [ok] allows
    after the statements made before, [h] to start with. *)
Record event := Ev { asked : Type; stm : E asked; ans : asked }.

Context (honest : forall B, E B -> B -> Prop).
Context (ok : list event -> forall B, E B -> Prop).

Fixpoint every {A} (p : proc E A) (post : list event -> A -> Prop) (h : list event) : Prop :=
  match p with
  | Ret a => post h a
  | Do s k => ok h _ s /\ forall b, honest _ s b -> every (k b) post (h ++ [Ev _ s b])
  end.

Lemma every_bind {A B} (p : proc E A) (f : A -> proc E B) post h :
  every p (fun h a => every (f a) post h) h -> every (proc_bind p f) post h.
Proof.
  revert h. induction p as [a|C s k IH]; intros h; simpl; [done|].
  intros [Hs Hk]. split; [done|]. intros b Hb. by apply IH, Hk.
Qed.

Lemma every_mono {A} (p : proc E A) (post post' : list event -> A -> Prop) h :
  every p post h -> (forall h a, post h a -> post' h a) -> every p post' h.
Proof.
  revert h. induction p as [a|C s k IH]; intros h; simpl; [auto|].
  intros [Hs Hk] Hp. split; [done|]. intros b Hb. by apply IH; [apply Hk|].
Qed.

Lemma every_ep_bind {A B} (p : ep A) (f : A -> ep B) post h :
  every p (fun h r => match r with Ok a => every (f a) post h | Err e => post h (Err e) end) h ->
  every (ep_bind p f) post h.
Proof. intros H. apply every_bind. eapply every_mono; [exact H|]. by intros h' []. Qed.

Lemma every_each {X S} (l : list X) (body : X -> S -> proc E S) (inv : list event -> S -> Prop) h s :
  inv h s -> (forall x h s, x ∈ l -> inv h s -> every (body x s) inv h) ->
  every (proc_each l body s) inv h.
Proof.
  revert h s. induction l as [|x l IH]; intros h s Hi Hb; simpl; [done|].
  apply every_bind. eapply every_mono; [apply Hb; [left|done]|].
  intros h' s' Hi'. apply IH; [done|]. intros y h2 s2 Hy. apply Hb. by right.
Qed.

(** The same for a rule that does not look back: [each] statement is one [ok0] allows. *)
Context (ok0 : forall B, E B -> Prop).

Fixpoint each {A} (p : proc E A) (post : A -> Prop) : Prop :=
  match p with
  | Ret a => post a
  | Do s k => ok0 _ s /\ forall b, honest _ s b -> each (k b) post
  end.

Lemma each_mono {A} (p : proc E A) (post post' : A -> Prop) :
  each p post -> (forall a, post a -> post' a) -> each p post'.
Proof.
  induction p as [a|C s k IH]; simpl; [auto|].
  intros [Hs Hk] Hp. split; [done|]. intros b Hb. by apply IH; [apply Hk|].
Qed.

Lemma each_bind {A B} (p : proc E A) (f : A -> proc E B) post :
  each p (fun a => each (f a) post) -> each (proc_bind p f) post.
Proof.
  induction p as [a|C s k IH]; simpl; [done|].
  intros [Hs Hk]. split; [done|]. intros b Hb. by apply IH, Hk.
Qed.

Lemma each_ep_bind {A B} (p : ep A) (f : A -> ep B) post :
  each p (fun r => match r with Ok a => each (f a) post | Err e => post (Err e) end) ->
  each (ep_bind p f) post.
Proof. intros H. apply each_bind. eapply each_mono; [exact H|]. by intros []. Qed.

Lemma each_wrap {A} fmt (p : ep A) (post : result A -> Prop) :
  each p (fun r => post (wrap_err fmt r)) -> each (ep_wrap fmt p) post.
Proof. intros H. by apply each_bind. Qed.

Lemma each_ask {B} (s : E B) (post : B -> Prop) :
  ok0 _ s -> (forall b, honest _ s b -> post b) -> each (ask s) post.
Proof. done. Qed.

Lemma each_each {X S} (l : list X) (body : X -> S -> proc E S) s :
  (forall x s, x ∈ l -> each (body x s) (fun _ => True)) -> each (proc_each l body s) (fun _ => True).
Proof.
  revert s. induction l as [|x l IH]; intros s Hb; simpl; [done|].
  apply each_bind. eapply each_mono; [apply Hb; left|].
  intros s' _. apply IH. intros y s2 Hy. apply Hb. by right.
Qed.

(** A part that keeps the plain rule keeps the rule after [h], whatever it made of [h]
    before; what it adds is plain. *)
Lemma each_every {A} (p : proc E A) post h0 l :
  (forall l B (s : E B), Forall (fun e => ok0 _ (stm e)) l -> ok0 _ s -> ok (h0 ++ l) _ s) ->
  Forall (fun e => ok0 _ (stm e)) l -> each p post ->
  every p (fun h a => post a /\ exists l, h = h0 ++ l /\ Forall (fun e => ok0 _ (stm e)) l) (h0 ++ l).
Proof.
  intros Hok. revert l. induction p as [a|C s k IH]; intros l Hl; simpl; [by eauto|].
  intros [Hs Hk]. split; [by apply Hok|]. intros b Hb. rewrite <- app_assoc.
  apply IH; [|by apply Hk]. apply Forall_app. split; [done|]. by constructor.
Qed.

(** ** Systems *)

Context {W C R : Type}.
(** One statement in a world, with its answer; the operations a call starts; the
    calls the system makes; what the world does on its own. *)
Context (effect : forall B, E B -> W -> B -> W -> Prop).
Context (program : C -> proc E R) (allowed : C -> Prop) (drift : W -> W -> Prop).

Record thread := Thread { call : C; past : list event; rest : option (proc E R) }.
Record system := System { shared : W; threads : list thread }.

Inductive step : system -> system -> Prop :=
| step_spawn w ts c :
    allowed c -> step (System w ts) (System w (ts ++ [Thread c [] (Some (program c))]))
| step_run w w' ts i c h B (s : E B) k b :
    ts !! i = Some (Thread c h (Some (Do s k))) -> honest _ s b -> effect _ s w b w' ->
    step (System w ts) (System w' (<[i := Thread c (h ++ [Ev _ s b]) (Some (k b))]> ts))
| step_crash w ts i c h p :
    ts !! i = Some (Thread c h p) -> step (System w ts) (System w (<[i := Thread c h None]> ts))
| step_drift w w' ts : drift w w' -> step (System w ts) (System w' ts).

Inductive steps : system -> system -> Prop :=
| steps_refl y : steps y y
| steps_next y1 y2 y3 : steps y1 y2 -> step y2 y3 -> steps y1 y3.

Lemma steps_trans y1 y2 y3 : steps y1 y2 -> steps y2 y3 -> steps y1 y3.
Proof. intros H1 H2. induction H2; [done|]. by eapply steps_next; [apply IHsteps|]. Qed.

Lemma steps_one y1 y2 : step y1 y2 -> steps y1 y2.
Proof. intros H. by eapply steps_next; [apply steps_refl|]. Qed.

Lemma steps_ind_inv (I : system -> Prop) y y' :
  I y -> (forall y1 y2, step y1 y2 -> I y1 -> I y2) -> steps y y' -> I y'.
Proof. intros Hi Hs H. induction H; eauto. Qed.

(** What holds of every thread: what is left of it keeps the rule. *)
Definition keeps (t : thread) : Prop :=
  match rest t with Some p => every p (fun _ _ => True) (past t) | None => True end.

Hypothesis programs_keep : forall c, allowed c -> every (program c) (fun _ _ => True) [].

Lemma step_keeps y y' : step y y' -> Forall keeps (threads y) -> Forall keeps (threads y').
Proof.
  intros Hs Hk. destruct Hs as [w ts c Hc|w w' ts i c h B s k b Hi Hb _|w ts i c h p Hi|w w' ts _]; simpl in *; [..|done].
  - apply Forall_app. split; [done|]. constructor; [|done]. unfold keeps. simpl. auto.
  - apply Forall_insert; [done|]. rewrite Forall_lookup in Hk.
    destruct (Hk _ _ Hi) as [_ Hr]. by apply Hr.
  - by apply Forall_insert.
Qed.

Lemma steps_keeps y y' : steps y y' -> Forall keeps (threads y) -> Forall keeps (threads y').
Proof. intros H. induction H; eauto using step_keeps. Qed.

(** A step of a thread makes a statement that the rule allows. *)
Lemma run_ok ts i c h B (s : E B) k :
  Forall keeps ts -> ts !! i = Some (Thread c h (Some (Do s k))) -> ok h _ s.
Proof. rewrite Forall_lookup. intros Hk Hi. by destruct (Hk _ _ Hi). Qed.

(** A step, seen from the histories. *)
Lemma step_pasts y y' :
  step y y' -> Forall keeps (threads y) ->
  (map past (threads y') = map past (threads y) /\ (shared y' = shared y \/ drift (shared y) (shared y'))) \/
  (map past (threads y') = map past (threads y) ++ [[]] /\ shared y' = shared y) \/
  (exists i h B (s : E B) b,
     map past (threads y) !! i = Some h /\ map past (threads y') = <[i := h ++ [Ev _ s b]]> (map past (threads y)) /\
     honest _ s b /\ effect _ s (shared y) b (shared y') /\ ok h _ s).
Proof.
  intros Hs Hk. destruct Hs as [w ts c Hc|w w' ts i c h B s k b Hi Hb He|w ts i c h p Hi|w w' ts Hd]; simpl in *.
  - right. left. by rewrite map_app.
  - right. right. exists i, h, B, s, b. rewrite list_lookup_fmap, Hi, list_fmap_insert.
    split_and!; try done. by eapply run_ok.
  - left. split; [|by left]. rewrite list_fmap_insert, list_insert_id; [done|]. by rewrite list_lookup_fmap, Hi.
  - left. split; [done|by right].
Qed.

(** ** One operation alone

    [interp answer w p]: [answer] gives the answers and the effects. *)
Context (answer : forall B, E B -> W -> B * W).

Fixpoint interp {A} (p : proc E A) (w : W) : A * W :=
  match p with
  | Ret a => (a, w)
  | Do s k => let '(b, w) := answer _ s w in interp (k b) w
  end.

Lemma interp_bind {A B} (p : proc E A) (f : A -> proc E B) w :
  interp (proc_bind p f) w = let '(a, w) := interp p w in interp (f a) w.
Proof.
  revert w. induction p as [a|D s k IH]; intros w; simpl; [done|].
  destruct (answer D s w) as [b w']. apply IH.
Qed.

End procs.

Arguments Ev {E asked} stm ans.

Declare Scope proc_scope.
Delimit Scope proc_scope with proc.
Notation "'let$' x := e 'in' k" := (ep_bind e (fun x => k))
  (at level 10, x pattern, e at level 100, k at level 200) : proc_scope.
Notation "'let!' x := e 'in' k" := (proc_bind e (fun x => k))
  (at level 10, x pattern, e at level 100, k at level 200) : proc_scope.
