(* ===== verification/EnrollmentModel.v ===== *)
(** Platform enrollment: the data of a request, its validation and its proofs of
    possession ([src/internal/models/platform_enrollment.go],
    [src/internal/constants/platform_enrollment.go],
    [services/gateway/platform_enrollment_validation.go] and [_state.go]).

    A Go string type with named constants is an inductive type with one constructor
    per constant and one for any other text.  [crypto/x509], [encoding/pem],
    [crypto/ecdsa] and the protobuf encoding of the completion transcript are
    arguments of the functions that use them. *)
From S2P Require Import Prelude Errors Encoding Sha256 Timestamp Regex Json.
From Stdlib Require Import String Ascii List ZArith Lia Bool.
From stdpp Require Import base strings list.
Open Scope string_scope.

(** ** Kinds, states, decisions *)

Inductive PlatformComponentKind :=
| PlatformComponentDashboard | PlatformComponentEnsemble
| PlatformComponentOperator | PlatformComponentApplication
| PlatformComponentOther (text : string).

Inductive PlatformEnrollmentState :=
| PlatformEnrollmentStatePending | PlatformEnrollmentStateApproved
| PlatformEnrollmentStateIssuing | PlatformEnrollmentStateCompleted
| PlatformEnrollmentStateDenied | PlatformEnrollmentStateExpired
| PlatformEnrollmentStateRevoked
| PlatformEnrollmentStateOther (text : string).

Inductive PlatformEnrollmentDecision :=
| PlatformEnrollmentDecisionApprove | PlatformEnrollmentDecisionDeny
| PlatformEnrollmentDecisionOther (text : string).

#[export] Instance PlatformComponentKind_eq_dec : EqDecision PlatformComponentKind.
Proof. solve_decision. Defined.
#[export] Instance PlatformEnrollmentState_eq_dec : EqDecision PlatformEnrollmentState.
Proof. solve_decision. Defined.
#[export] Instance PlatformEnrollmentDecision_eq_dec : EqDecision PlatformEnrollmentDecision.
Proof. solve_decision. Defined.

Definition kind_eqb (a b : PlatformComponentKind) : bool := bool_decide (a = b).
Definition state_eqb (a b : PlatformEnrollmentState) : bool := bool_decide (a = b).
Definition decision_eqb (a b : PlatformEnrollmentDecision) : bool := bool_decide (a = b).

Definition kind_text (k : PlatformComponentKind) : string :=
  match k with
  | PlatformComponentDashboard => "dashboard"
  | PlatformComponentEnsemble => "ensemble"
  | PlatformComponentOperator => "operator"
  | PlatformComponentApplication => "application"
  | PlatformComponentOther t => t
  end.

Definition decision_text (d : PlatformEnrollmentDecision) : string :=
  match d with
  | PlatformEnrollmentDecisionApprove => "approve"
  | PlatformEnrollmentDecisionDeny => "deny"
  | PlatformEnrollmentDecisionOther t => t
  end.

Definition PlatformDashboardName : string := "g8ed".
Definition PlatformEnsembleName : string := "g8ee".
Definition PlatformOperatorName : string := "g8eo".

Definition IsTerminal (s : PlatformEnrollmentState) : bool :=
  state_eqb s PlatformEnrollmentStateCompleted || state_eqb s PlatformEnrollmentStateDenied ||
  state_eqb s PlatformEnrollmentStateExpired || state_eqb s PlatformEnrollmentStateRevoked.

Definition CanonicalName (k : PlatformComponentKind) (appName : string) : result string :=
  match k with
  | PlatformComponentDashboard => Ok PlatformDashboardName
  | PlatformComponentEnsemble => Ok PlatformEnsembleName
  | PlatformComponentOperator => Ok PlatformOperatorName
  | PlatformComponentApplication =>
      if str_nonempty appName then Ok appName else Err (Sentinel "ErrPlatformEnrollmentAppNameRequired")
  | PlatformComponentOther _ => Err (Sentinel "ErrPlatformEnrollmentInvalidComponent")
  end.

(** [validatePlatformEnrollmentTransition]. *)
Definition validatePlatformEnrollmentTransition (from to : PlatformEnrollmentState) : result unit :=
  require
    match from with
    | PlatformEnrollmentStatePending =>
        state_eqb to PlatformEnrollmentStateApproved || state_eqb to PlatformEnrollmentStateDenied ||
        state_eqb to PlatformEnrollmentStateExpired
    | PlatformEnrollmentStateApproved =>
        state_eqb to PlatformEnrollmentStateIssuing || state_eqb to PlatformEnrollmentStateExpired
    | PlatformEnrollmentStateIssuing =>
        state_eqb to PlatformEnrollmentStateCompleted || state_eqb to PlatformEnrollmentStateApproved ||
        state_eqb to PlatformEnrollmentStateExpired
    | _ => false
    end (Sentinel "ErrPlatformEnrollmentInvalidState").

(** ** Bounds; times are nanoseconds *)

Definition PlatformEnrollmentRequestTTL : Z := 30 * 60 * 1000000000.
Definition PlatformEnrollmentTokenBytes : nat := 32.
Definition PlatformEnrollmentProtocolVersion : string := "1".
Definition PlatformEnrollmentMaxHostnameBytes : nat := 253.
Definition PlatformEnrollmentMaxInstanceIDBytes : nat := 128.
Definition PlatformEnrollmentMaxAppNameBytes : nat := 64.
Definition PlatformEnrollmentMaxReasonBytes : nat := 512.
Definition PlatformEnrollmentIssuanceLeaseTTL : Z := 30 * 1000000000.
Definition PlatformEnrollmentMaxLiveRequestsPerComponent : nat := 3.
Definition PlatformEnrollmentMaxLiveOperatorRequests : nat := 4.
Definition PlatformEnrollmentCleanupRetention : Z := 24 * 3600 * 1000000000.
Definition PlatformEnrollmentRetryAfterSeconds : Z := 5.

(** ** Requests *)

(** [PlatformAppCSRPayload] has one field, [csr_pem]. *)
Record PlatformOperatorCSRPayload := { OperatorCSRPEM : string; CLICSRPEM : string }.
Record PlatformEnrollmentCSRFingerprints := { fpApp : string; fpOperator : string; fpCLI : string }.

Record PlatformEnrollmentCreateRequest := {
  crComponentKind : PlatformComponentKind; crAppName : string; crInstanceID : string;
  crHostname : string; crSystemFingerprint : string; crApp : option string;
  crOperator : option PlatformOperatorCSRPayload }.

Definition longer (n : nat) (s : string) : bool := (n <? String.length s)%nat.

Definition no_operator_csrs (o : option PlatformOperatorCSRPayload) : bool :=
  match o with
  | None => true
  | Some p => negb (str_nonempty (OperatorCSRPEM p)) || negb (str_nonempty (CLICSRPEM p))
  end.

Definition no_app_csr (a : option string) : bool :=
  match a with None => true | Some pem => negb (str_nonempty pem) end.

(** [PlatformEnrollmentCreateRequest.ValidateShape]. *)
Definition ValidateShape (r : PlatformEnrollmentCreateRequest) : result unit :=
  let? _ := CanonicalName (crComponentKind r) (crAppName r) in
  let? _ := require (str_nonempty (crInstanceID r)) (Sentinel "ErrPlatformEnrollmentInstanceIDRequired") in
  let? _ := require (str_nonempty (crHostname r)) (Sentinel "ErrPlatformEnrollmentHostnameRequired") in
  let? _ := require (negb (longer PlatformEnrollmentMaxInstanceIDBytes (crInstanceID r)))
                    (Sentinel "ErrPlatformEnrollmentInvalidInstanceID") in
  let? _ := require (negb (longer PlatformEnrollmentMaxHostnameBytes (crHostname r)))
                    (Sentinel "ErrPlatformEnrollmentInvalidHostname") in
  let? _ := (if kind_eqb (crComponentKind r) PlatformComponentApplication
             then let? _ := require (str_nonempty (crAppName r)) (Sentinel "ErrPlatformEnrollmentAppNameRequired") in
                  require (negb (longer PlatformEnrollmentMaxAppNameBytes (crAppName r)))
                          (Sentinel "ErrPlatformEnrollmentInvalidAppName")
             else Ok tt) in
  if kind_eqb (crComponentKind r) PlatformComponentOperator
  then let? _ := require (negb (bool_decide (is_Some (crApp r)) || no_operator_csrs (crOperator r)))
                         (Sentinel "ErrPlatformEnrollmentInvalidPayload") in
       require (str_nonempty (crSystemFingerprint r)) (Sentinel "ErrPlatformEnrollmentFingerprintRequired")
  else require (negb (no_app_csr (crApp r) || bool_decide (is_Some (crOperator r))))
               (Sentinel "ErrPlatformEnrollmentInvalidPayload").

Record PlatformEnrollmentDecisionRequest := {
  drRequestID : string; drDecision : PlatformEnrollmentDecision; drReason : string }.

(** [PlatformEnrollmentDecisionRequest.Validate]. *)
Definition ValidateDecision (r : PlatformEnrollmentDecisionRequest) : result unit :=
  let? _ := require (str_nonempty (drRequestID r)) (Sentinel "ErrPlatformEnrollmentRequestIDRequired") in
  let? _ := require (negb (negb (decision_eqb (drDecision r) PlatformEnrollmentDecisionApprove) &&
                           negb (decision_eqb (drDecision r) PlatformEnrollmentDecisionDeny)))
                    (Sentinel "ErrPlatformEnrollmentInvalidDecision") in
  require (negb (longer PlatformEnrollmentMaxReasonBytes (drReason r))) (Sentinel "ErrPlatformEnrollmentReasonTooLong").

Record PlatformEnrollmentRevokeRequest := { vrRequestID : string; vrReason : string }.

(** [PlatformEnrollmentRevokeRequest.Validate]. *)
Definition ValidateRevoke (r : PlatformEnrollmentRevokeRequest) : result unit :=
  let? _ := require (str_nonempty (vrRequestID r)) (Sentinel "ErrPlatformEnrollmentRequestIDRequired") in
  require (negb (longer PlatformEnrollmentMaxReasonBytes (vrReason r))) (Sentinel "ErrPlatformEnrollmentReasonTooLong").

Record PlatformEnrollmentProofs := { prApp : string; prOperator : string; prCLI : string }.

(** ** Credentials and the stored request *)

Record PlatformEnrollmentAppCredentials := {
  acAppID : string; acAppCert : string; acCertChain : string; acTrustBundle : string;
  acExpiresAt : Z; acPolicyID : string }.

Record PlatformEnrollmentOperatorCredentials := {
  ocOperatorCert : string; ocOperatorCertChain : string; ocHubTrustBundle : string;
  ocOperatorSessionID : string; ocOperatorID : string; ocCLISessionID : string;
  ocCLICert : string; ocCLICertChain : string; ocPosture : string;
  ocActuatorKeyID : string; ocActuatorPubKey : string }.

Record PlatformEnrollmentCompleteResponse := {
  cpRequestID : string; cpComponentKind : PlatformComponentKind;
  cpApp : option PlatformEnrollmentAppCredentials; cpOperator : option PlatformEnrollmentOperatorCredentials }.

Record PlatformEnrollmentRequest := {
  rID : string; rTokenHash : string; rComponentKind : PlatformComponentKind; rComponentName : string;
  rAppName : string; rInstanceID : string; rHostname : string; rSystemFingerprint : string;
  rApp : option string; rOperator : option PlatformOperatorCSRPayload;
  rFingerprints : PlatformEnrollmentCSRFingerprints; rState : PlatformEnrollmentState;
  rAttemptCount : Z; rCreatedAt : Z; rExpiresAt : Z; rLastTransitionAt : Z;
  rApprovedByUserID : string; rDecidedAt : option Z; rDecisionReason : string;
  rDecisionEnvelopeID : string; rDecisionReceiptID : string;
  rIssuanceEnvelopeID : string; rIssuanceReceiptID : string;
  rIssuanceLeaseOwner : string; rIssuanceLeaseExpiresAt : option Z;
  rOperatorID : string; rOperatorSessionID : string; rCLISessionID : string; rPolicyID : string;
  rCertificateSerial : string; rCertificateFingerprint : string;
  rIssued : option PlatformEnrollmentCompleteResponse; rCompletedAt : option Z;
  rRevokedAt : option Z; rRevokedByUserID : string; rRevocationReason : string;
  rRevocationEnvelopeID : string; rRevocationReceiptID : string; rFailureReason : string }.

Record PlatformEnrollmentPendingRequest := {
  pmRequestID : string; pmComponentKind : PlatformComponentKind; pmComponentName : string;
  pmInstanceID : string; pmHostname : string; pmSystemFingerprint : string;
  pmFingerprints : PlatformEnrollmentCSRFingerprints; pmState : PlatformEnrollmentState;
  pmCreatedAt : Z; pmExpiresAt : Z }.

Definition PendingMetadata (r : PlatformEnrollmentRequest) : PlatformEnrollmentPendingRequest :=
  {| pmRequestID := rID r; pmComponentKind := rComponentKind r; pmComponentName := rComponentName r;
     pmInstanceID := rInstanceID r; pmHostname := rHostname r; pmSystemFingerprint := rSystemFingerprint r;
     pmFingerprints := rFingerprints r; pmState := rState r; pmCreatedAt := rCreatedAt r;
     pmExpiresAt := rExpiresAt r |}.

Record PlatformEnrollmentEnrolledRequest := {
  emRequestID : string; emComponentKind : PlatformComponentKind; emComponentName : string;
  emInstanceID : string; emHostname : string; emState : PlatformEnrollmentState;
  emOperatorID : string; emOperatorSessionID : string; emCLISessionID : string; emPolicyID : string;
  emCompletedAt : option Z; emRevokedAt : option Z }.

Definition EnrolledMetadata (r : PlatformEnrollmentRequest) : PlatformEnrollmentEnrolledRequest :=
  {| emRequestID := rID r; emComponentKind := rComponentKind r; emComponentName := rComponentName r;
     emInstanceID := rInstanceID r; emHostname := rHostname r; emState := rState r;
     emOperatorID := rOperatorID r; emOperatorSessionID := rOperatorSessionID r;
     emCLISessionID := rCLISessionID r; emPolicyID := rPolicyID r;
     emCompletedAt := rCompletedAt r; emRevokedAt := rRevokedAt r |}.

Definition ValidateStoredIdentity (r : PlatformEnrollmentRequest) : result unit :=
  let? name := CanonicalName (rComponentKind r) (rComponentName r) in
  require (String.eqb (rComponentName r) name)
          (Errorf "%w: component name" [Sentinel "ErrPlatformEnrollmentStoredRequestInvalid"]).

(** ** The text checks of a create request *)

Definition matched (pattern value : string) : bool :=
  match match_pattern pattern value with Some b => b | None => false end.

Definition validPlatformInstanceID (value : string) : bool :=
  matched "^[A-Za-z0-9][A-Za-z0-9._-]*$" value.

Definition validPlatformHostname (value : string) : bool :=
  matched "^[A-Za-z0-9](?:[A-Za-z0-9.-]*[A-Za-z0-9])?$" value.

Definition isReservedPlatformName (name : string) : bool :=
  String.eqb name PlatformDashboardName || String.eqb name PlatformEnsembleName ||
  String.eqb name PlatformOperatorName.

(** [range name]: the runes of a string; [len] bounds the number of turns. *)
Fixpoint runes (len : nat) (l : list Z) : list Z :=
  match len, l with
  | O, _ | _, [] => []
  | S len, _ => let '(c, w) := decode_rune l in c :: runes len (skipn w l)
  end.

Definition rune_list (s : string) : list Z := runes (String.length s) (str_bytes s).

(** [constantTimeEqual]: the bytes are compared to the end. *)
Definition constantTimeEqual (a b : string) : bool :=
  if negb (Nat.eqb (String.length a) (String.length b)) then false
  else (foldl (fun result xy => Z.lor result (Z.lxor xy.1 xy.2)) 0 (zip (str_bytes a) (str_bytes b)) =? 0)%Z.

Definition fingerprintsMatch (a b : PlatformEnrollmentCSRFingerprints) : bool :=
  constantTimeEqual (fpApp a) (fpApp b) && constantTimeEqual (fpOperator a) (fpOperator b) &&
  constantTimeEqual (fpCLI a) (fpCLI b).

(** ** Base64 of tokens and signatures ([base64.RawURLEncoding]) *)

Definition url_char (c : ascii) : ascii :=
  if Ascii.eqb c "+" then "-"%char else if Ascii.eqb c "/" then "_"%char else c.

Definition rawurl_encode (s : string) : string :=
  string_of_list_ascii (map url_char (List.filter (fun c => negb (Ascii.eqb c "=")) (list_ascii_of_string (b64_encode s)))).

Definition url_index (c : ascii) : option Z :=
  if Ascii.eqb c "-" then Some 62%Z else if Ascii.eqb c "_" then Some 63%Z
  else if Ascii.eqb c "+" || Ascii.eqb c "/" then None else b64_index c.

Fixpoint url_values (l : list ascii) : option (list Z) :=
  match l with
  | [] => Some []
  | c :: l =>
      if Ascii.eqb c (ascii_of_nat 10) || Ascii.eqb c (ascii_of_nat 13) then url_values l
      else match url_index c, url_values l with
           | Some v, Some l => Some (v :: l)
           | _, _ => None
           end
  end.

Fixpoint sextets (l : list Z) : option (list Z) :=
  match l with
  | [] => Some []
  | [_] => None
  | [a; b] => Some [(a * 4 + b / 16)%Z]
  | [a; b; c] => Some [(a * 4 + b / 16)%Z; (b mod 16 * 16 + c / 4)%Z]
  | a :: b :: c :: d :: l =>
      match sextets l with
      | Some l => Some ((a * 4 + b / 16)%Z :: (b mod 16 * 16 + c / 4)%Z :: (c mod 4 * 64 + d)%Z :: l)
      | None => None
      end
  end.

(** [base64.RawURLEncoding.DecodeString]: line breaks are skipped, and the unused bits
    of the last character are not looked at. *)
Definition rawurl_decode (s : string) : option string :=
  match url_values (list_ascii_of_string s) with
  | Some l => match sextets l with
              | Some l => Some (string_of_list_ascii (map byte_of l))
              | None => None
              end
  | None => None
  end.

Definition platformEnrollmentTokenHash (token : string) : string := sha256_hex token.

Definition buildApprovalURL (base requestID : string) : string :=
  if str_nonempty base then base +:+ "#platform-enrollment=" +:+ requestID else "".

(** ** CSRs and proofs of possession *)

(** [commonv1.PlatformComponentKind]. *)
Inductive ProtoComponentKind :=
| KIND_UNSPECIFIED | KIND_DASHBOARD | KIND_ENSEMBLE | KIND_OPERATOR | KIND_APPLICATION
| KIND_UNKNOWN (n : Z).

Definition platformComponentProto (k : PlatformComponentKind) : result ProtoComponentKind :=
  match k with
  | PlatformComponentDashboard => Ok KIND_DASHBOARD
  | PlatformComponentEnsemble => Ok KIND_ENSEMBLE
  | PlatformComponentOperator => Ok KIND_OPERATOR
  | PlatformComponentApplication => Ok KIND_APPLICATION
  | PlatformComponentOther _ => Err (Sentinel "ErrPlatformEnrollmentInvalidComponent")
  end.

Record CompletionTranscript := {
  ctProtocolVersion : string; ctRequestId : string; ctTokenHash : string;
  ctComponentKind : ProtoComponentKind; ctInstanceId : string;
  ctFingerprints : PlatformEnrollmentCSRFingerprints }.

(** What [crypto/x509] and friends do; [csr_key] is the P-256 key of a CSR, if it
    has one. *)
Record x509 (Csr Key Cert : Type) := {
  pem_decode : string -> option (string * string * string);
  parse_certificate_request : string -> result Csr;
  check_signature : Csr -> result unit;
  csr_key : Csr -> option Key;
  marshal_key : Key -> result string;
  verify_asn1 : Key -> string -> string -> bool;
  marshal_transcript : CompletionTranscript -> result string;
  parse_certificate : string -> result Cert;
  cert_raw : Cert -> string;
  cert_serial : Cert -> string;
  cert_uris : Cert -> list string;
  cert_not_after : Cert -> Z;
  is_letter : Z -> bool;
  is_digit : Z -> bool }.
Arguments pem_decode {Csr Key Cert} x _.
Arguments parse_certificate_request {Csr Key Cert} x _.
Arguments check_signature {Csr Key Cert} x _.
Arguments csr_key {Csr Key Cert} x _.
Arguments marshal_key {Csr Key Cert} x _.
Arguments verify_asn1 {Csr Key Cert} x _ _ _.
Arguments marshal_transcript {Csr Key Cert} x _.
Arguments parse_certificate {Csr Key Cert} x _.
Arguments cert_raw {Csr Key Cert} x _.
Arguments cert_serial {Csr Key Cert} x _.
Arguments cert_uris {Csr Key Cert} x _.
Arguments cert_not_after {Csr Key Cert} x _.
Arguments is_letter {Csr Key Cert} x _.
Arguments is_digit {Csr Key Cert} x _.

Section validation.
Context {Csr Key Cert : Type} (lib : x509 Csr Key Cert).

Definition isValidAppName (name : string) : bool :=
  str_nonempty name &&
  forallb (fun r => is_letter lib r || is_digit lib r || (r =? 45)%Z || (r =? 95)%Z) (rune_list name).

Definition parsePlatformEnrollmentCSR (csrPEM : string) : result (string * Key) :=
  let invalid := Sentinel "ErrPlatformEnrollmentInvalidCSR" in
  let? bytes := match pem_decode lib csrPEM with
                | Some (type, bytes, rest) =>
                    if String.eqb type "CERTIFICATE REQUEST" && negb (str_nonempty rest) then Ok bytes else Err invalid
                | None => Err invalid
                end in
  let? csr := match parse_certificate_request lib bytes with
              | Ok csr => Ok csr
              | Err _ => Err (Errorf "platform enrollment: parse CSR: %w" [invalid])
              end in
  let? _ := match check_signature lib csr with
            | Ok u => Ok u
            | Err _ => Err (Errorf "platform enrollment: verify CSR signature: %w" [invalid])
            end in
  let? key := match csr_key lib csr with
              | Some key => Ok key
              | None => Err (Sentinel "ErrPlatformEnrollmentUnsupportedKey")
              end in
  match marshal_key lib key with
  | Ok der => Ok (sha256_hex der, key)
  | Err _ => Err (Errorf "platform enrollment: marshal CSR public key: %w" [invalid])
  end.

Definition validatePlatformEnrollmentRequest (r : PlatformEnrollmentCreateRequest) : result PlatformEnrollmentCSRFingerprints :=
  let? _ := ValidateShape r in
  let? _ := require (validPlatformInstanceID (crInstanceID r)) (Sentinel "ErrPlatformEnrollmentInvalidInstanceID") in
  let? _ := require (validPlatformHostname (crHostname r)) (Sentinel "ErrPlatformEnrollmentInvalidHostname") in
  let? _ := (if kind_eqb (crComponentKind r) PlatformComponentApplication
             then let? _ := require (str_nonempty (crAppName r)) (Sentinel "ErrPlatformEnrollmentAppNameRequired") in
                  let? _ := require (negb (longer PlatformEnrollmentMaxAppNameBytes (crAppName r) ||
                                           negb (isValidAppName (crAppName r))))
                                    (Sentinel "ErrPlatformEnrollmentInvalidAppName") in
                  require (negb (isReservedPlatformName (crAppName r)))
                          (Sentinel "ErrPlatformEnrollmentReservedIdentity")
             else Ok tt) in
  match crApp r, crOperator r with
  | Some pem, _ =>
      let? (fingerprint, _) := parsePlatformEnrollmentCSR pem in
      Ok {| fpApp := fingerprint; fpOperator := ""; fpCLI := "" |}
  | None, Some o =>
      let? (operatorFingerprint, _) := parsePlatformEnrollmentCSR (OperatorCSRPEM o) in
      let? (cliFingerprint, _) := parsePlatformEnrollmentCSR (CLICSRPEM o) in
      let? _ := require (negb (String.eqb operatorFingerprint cliFingerprint))
                        (Sentinel "ErrPlatformEnrollmentDuplicateKey") in
      Ok {| fpApp := ""; fpOperator := operatorFingerprint; fpCLI := cliFingerprint |}
  | None, None => Err (Extern "nil pointer dereference")
  end.

(** [auth.CertificateFingerprint], [auth.CertificateSerialNumber], [expiryFromPEM]
    and [spiffeIDFromCertificate]. *)
Definition certificate_of (certPEM : string) : option Cert :=
  match pem_decode lib certPEM with
  | Some (_, bytes, _) => match parse_certificate lib bytes with Ok c => Some c | Err _ => None end
  | None => None
  end.

Definition CertificateFingerprint (certPEM : string) : string :=
  match certificate_of certPEM with Some c => sha256_hex (cert_raw lib c) | None => "" end.

Definition CertificateSerialNumber (certPEM : string) : string :=
  match certificate_of certPEM with Some c => cert_serial lib c | None => "" end.


Definition expiryFromPEM (certPEM : string) : Z :=
  match certificate_of certPEM with Some c => cert_not_after lib c | None => zero_time end.

Definition spiffeIDFromCertificate (certPEM : string) : result string :=
  match certificate_of certPEM with
  | Some c => match cert_uris lib c with
              | uri :: _ => Ok uri
              | [] => Err (Sentinel "ErrPlatformEnrollmentInvalidPayload")
              end
  | None => Err (Sentinel "ErrPlatformEnrollmentInvalidPayload")
  end.

Definition platformEnrollmentCompletionTranscript (r : PlatformEnrollmentRequest) : result string :=
  let? componentKind := platformComponentProto (rComponentKind r) in
  wrap_err "platform enrollment: marshal completion transcript: %w"
    (marshal_transcript lib
       {| ctProtocolVersion := PlatformEnrollmentProtocolVersion; ctRequestId := rID r;
          ctTokenHash := rTokenHash r; ctComponentKind := componentKind; ctInstanceId := rInstanceID r;
          ctFingerprints := rFingerprints r |}).

Definition verifyPlatformEnrollmentProof (csrPEM encodedSignature digest : string) : result unit :=
  let? _ := require (str_nonempty encodedSignature) (Sentinel "ErrPlatformEnrollmentProofRequired") in
  let? (_, publicKey) := parsePlatformEnrollmentCSR csrPEM in
  match rawurl_decode encodedSignature with
  | Some signature =>
      require (verify_asn1 lib publicKey digest signature) (Sentinel "ErrPlatformEnrollmentProofInvalid")
  | None => Err (Sentinel "ErrPlatformEnrollmentProofInvalid")
  end.

Definition verifyPlatformEnrollmentProofs (r : PlatformEnrollmentRequest) (proofs : PlatformEnrollmentProofs) : result unit :=
  let? transcript := platformEnrollmentCompletionTranscript r in
  let digest := sha256 transcript in
  match rApp r, rOperator r with
  | Some csr, _ => verifyPlatformEnrollmentProof csr (prApp proofs) digest
  | None, o =>
      let? _ := require (negb (negb (str_nonempty (prOperator proofs)) || negb (str_nonempty (prCLI proofs))))
                        (Sentinel "ErrPlatformEnrollmentProofRequired") in
      match o with
      | Some o =>
          let? _ := verifyPlatformEnrollmentProof (OperatorCSRPEM o) (prOperator proofs) digest in
          verifyPlatformEnrollmentProof (CLICSRPEM o) (prCLI proofs) digest
      | None => Err (Extern "nil pointer dereference")
      end
  end.

End validation.

(** ** The comparison that always reads to the end is equality *)

Lemma lor_fold_zero (l : list (Z * Z)) acc :
  foldl (fun result xy => Z.lor result (Z.lxor xy.1 xy.2)) acc l = 0%Z <-> acc = 0%Z /\ Forall (fun xy => xy.1 = xy.2) l.
Proof.
  revert acc. induction l as [|[x y] l IH]; intros acc; cbn [foldl]; [by rewrite Forall_nil; tauto|].
  rewrite IH, Z.lor_eq_0_iff, Z.lxor_eq_0_iff, Forall_cons. simpl. tauto.
Qed.

Lemma zip_equal (l k : list Z) : List.length l = List.length k -> Forall (fun xy => xy.1 = xy.2) (zip l k) <-> l = k.
Proof.
  revert k. induction l as [|x l IH]; intros [|y k] Hl; simpl in *; try lia; [by rewrite Forall_nil|].
  rewrite Forall_cons, IH by lia. simpl. split; [by intros [-> ->]|by intros [= -> ->]].
Qed.

Lemma constantTimeEqual_eq a b : constantTimeEqual a b = true <-> a = b.
Proof.
  unfold constantTimeEqual. destruct (Nat.eqb_spec (String.length a) (String.length b)) as [Hl|Hl]; simpl negb; cbn iota.
  - rewrite Z.eqb_eq, lor_fold_zero, zip_equal by (by rewrite !length_str_bytes).
    split; [intros [_ H]; by apply str_bytes_inj|by intros ->].
  - split; [done|intros ->; by destruct Hl].
Qed.

Lemma fingerprintsMatch_eq a b : fingerprintsMatch a b = true <-> a = b.
Proof.
  unfold fingerprintsMatch. rewrite !andb_true_iff, !constantTimeEqual_eq. destruct a, b; simpl.
  split; [by intros [[-> ->] ->]|by intros [= -> -> ->]].
Qed.
