(* ===== verification/Enrollment.v ===== *)
(** Platform enrollment: the operations of the service and the governance handlers
    ([services/gateway/platform_enrollment_service.go],
    [services/pubsub/platform_enrollment_handlers.go] and [_deps.go]).

    An operation is a [proc] over the statements below: one statement per SQL
    statement of the document store, per call of another service, per read of the clock
    or of the random source.  The collection of enrollment requests and the one of
    application policies are modelled with their contents; of the users, the
    organizations, the operator documents, the sessions, the certificate authority and
    the governance pipeline only the answers are.  A governance envelope is its action
    and payload: [Submit] stands for building it and for every check up to the handler,
    [Finalize] for what the pipeline does with the handler's outcome.  The documents of
    all collections are in one table: a policy that an envelope persists in the requests'
    collection is a document of it.  The theorems are about systems whose envelopes do not
    ([policy_apart]), and in which no governed update or deletion of a document, whose
    handlers take any collection too, names this one: those handlers are not part of the
    model. *)
From S2P Require Import Prelude Errors Encoding Sha256 Timestamp TimeParse Json Procs EnrollmentModel.
From Stdlib Require Import String Ascii List ZArith Lia Bool.
From stdpp Require Import base strings list gmap sorting.
Open Scope string_scope.

(** ** Data of the neighbouring collections: the fields the handlers read or write *)

Record User := { usID : string; usStatus : string; usOrganizationID : string }.
Definition IsActive (u : User) : bool := String.eqb (usStatus u) "active".
Record Organization := { ogID : string; ogOwnerUserID : string; ogMemberUserIDs : list string }.

Record AppPolicy := {
  apAppID : string; apOwnerUserID : string; apApprovedByUserID : string; apEnrollmentRequestID : string;
  apCertificateSerial : string; apCertificateFingerprint : string; apAllowedCollections : list string;
  apAllowedEventTypes : list string; apAllowedIntents : list string; apRateLimitRPS : Z;
  apMaxPayloadBytes : Z; apRequireL3Approval : bool; apCreatedAt : Z; apUpdatedAt : Z }.

Record OperatorDocument := {
  opID : string; opUserID : string; opOrganizationID : string; opComponent : string; opName : string;
  opStatus : string; opOperatorSessionID : string; opOperatorType : string; opSystemFingerprint : string;
  opClaimed : bool; opClaimedAt : option Z; opCreatedAt : Z; opUpdatedAt : Z }.

(** An operator document as [supersedeOperatorLeases] reads it: the session field may
    be absent, or hold something that is not a string. *)
Record OperatorRow := { owID : string; owSession : option (option string) }.

(** ** Governance payloads *)

Inductive EnrollmentAction :=
| ActionCreate | ActionDecide | ActionIssue | ActionPersistPolicy | ActionCreateSession | ActionRevoke.

Definition intent_revoke : string := "platform_enrollment.revoke".

(** [commonv1.PlatformEnrollmentDecision]. *)
Inductive ProtoDecision := DECISION_UNSPECIFIED | DECISION_APPROVE | DECISION_DENY | DECISION_UNKNOWN (n : Z).

Record EnrollmentPayload := {
  pAction : EnrollmentAction; pIntent : string; pRequestId : string; pComponentKind : ProtoComponentKind;
  pInstanceId : string; pFingerprints : option PlatformEnrollmentCSRFingerprints; pActorUserId : string;
  pDecision : ProtoDecision; pTargetCollection : string; pTargetDocumentId : string; pPolicyId : string;
  pCertificateSerial : string; pCertificateFingerprint : string; pOwnerUserId : string;
  pOperatorId : string; pOperatorSessionId : string; pCliSessionId : string; pReason : string }.

(** A payload with the fields every action sets. *)
Definition payload (action : EnrollmentAction) (intent requestID : string) (kind : ProtoComponentKind)
    (actor : string) : EnrollmentPayload :=
  {| pAction := action; pIntent := intent; pRequestId := requestID; pComponentKind := kind;
     pInstanceId := ""; pFingerprints := None; pActorUserId := actor; pDecision := DECISION_UNSPECIFIED;
     pTargetCollection := ""; pTargetDocumentId := ""; pPolicyId := ""; pCertificateSerial := "";
     pCertificateFingerprint := ""; pOwnerUserId := ""; pOperatorId := ""; pOperatorSessionId := "";
     pCliSessionId := ""; pReason := "" |}.

Definition payloadComponentKind (k : PlatformComponentKind) : ProtoComponentKind :=
  match k with
  | PlatformComponentDashboard => KIND_DASHBOARD
  | PlatformComponentEnsemble => KIND_ENSEMBLE
  | PlatformComponentOperator => KIND_OPERATOR
  | PlatformComponentApplication => KIND_APPLICATION
  | PlatformComponentOther _ => KIND_UNSPECIFIED
  end.

Definition payloadDecision (d : PlatformEnrollmentDecision) : ProtoDecision :=
  match d with
  | PlatformEnrollmentDecisionApprove => DECISION_APPROVE
  | PlatformEnrollmentDecisionDeny => DECISION_DENY
  | PlatformEnrollmentDecisionOther _ => DECISION_UNSPECIFIED
  end.

Definition protoComponentKind (k : ProtoComponentKind) : result PlatformComponentKind :=
  match k with
  | KIND_DASHBOARD => Ok PlatformComponentDashboard
  | KIND_ENSEMBLE => Ok PlatformComponentEnsemble
  | KIND_OPERATOR => Ok PlatformComponentOperator
  | KIND_APPLICATION => Ok PlatformComponentApplication
  | _ => Err (Sentinel "ErrPlatformEnrollmentInvalidComponent")
  end.

Definition protoDecision (d : ProtoDecision) : result PlatformEnrollmentDecision :=
  match d with
  | DECISION_APPROVE => Ok PlatformEnrollmentDecisionApprove
  | DECISION_DENY => Ok PlatformEnrollmentDecisionDeny
  | _ => Err (Sentinel "ErrPlatformEnrollmentInvalidDecision")
  end.

Definition fingerprintsFromPayload (fp : option PlatformEnrollmentCSRFingerprints) : PlatformEnrollmentCSRFingerprints :=
  match fp with Some f => f | None => {| fpApp := ""; fpOperator := ""; fpCLI := "" |} end.

Definition fingerprintsSummary (f : PlatformEnrollmentCSRFingerprints) : string :=
  let part (name value : string) := if str_nonempty value then [name +:+ "=" +:+ value] else [] in
  "[" +:+ str_join "," (part "app" (fpApp f) ++ part "operator" (fpOperator f) ++ part "cli" (fpCLI f)) +:+ "]".

(** [protocol.WorkloadIdentity.AppSPIFFEID]. *)
Definition AppSPIFFEID (operatorID : string) : string := "spiffe://g8e.local/app/" +:+ operatorID.

(** ** Updates of a stored request: the JSON objects of the conditional updates *)

Inductive update :=
| UpdateApproved (now : Z)
| UpdateExpired (now : Z)
| UpdateLease (owner : string) (expires now : Z)
| UpdateDecision (state : PlatformEnrollmentState) (actor msgID : string) (now : Z)
| UpdateRollback (now : Z)
| UpdateCompletion (issued : PlatformEnrollmentCompleteResponse) (msgID serial fingerprint : string)
    (operatorID operatorSessionID cliSessionID : string) (now : Z)
| UpdateRevocation (actor reason msgID : string) (now : Z).

Definition update_state (u : update) : PlatformEnrollmentState :=
  match u with
  | UpdateApproved _ | UpdateRollback _ => PlatformEnrollmentStateApproved
  | UpdateExpired _ => PlatformEnrollmentStateExpired
  | UpdateLease _ _ _ => PlatformEnrollmentStateIssuing
  | UpdateDecision state _ _ _ => state
  | UpdateCompletion _ _ _ _ _ _ _ _ => PlatformEnrollmentStateCompleted
  | UpdateRevocation _ _ _ _ => PlatformEnrollmentStateRevoked
  end.

Definition update_time (u : update) : Z :=
  match u with
  | UpdateApproved now | UpdateExpired now | UpdateLease _ _ now | UpdateDecision _ _ _ now
  | UpdateRollback now | UpdateCompletion _ _ _ _ _ _ _ now | UpdateRevocation _ _ _ now => now
  end.

(** [omitempty]: an empty text is not in the update. *)
Definition unless_empty (new old : string) : string := if str_nonempty new then new else old.

(** The fields that [json_set] writes, the others kept. *)
Definition apply_update (u : update) (r : PlatformEnrollmentRequest) : PlatformEnrollmentRequest :=
  {| rID := rID r; rTokenHash := rTokenHash r; rComponentKind := rComponentKind r;
     rComponentName := rComponentName r; rAppName := rAppName r; rInstanceID := rInstanceID r;
     rHostname := rHostname r; rSystemFingerprint := rSystemFingerprint r; rApp := rApp r;
     rOperator := rOperator r; rFingerprints := rFingerprints r; rState := update_state u;
     rAttemptCount := rAttemptCount r; rCreatedAt := rCreatedAt r; rExpiresAt := rExpiresAt r;
     rLastTransitionAt := update_time u;
     rApprovedByUserID := match u with UpdateDecision _ actor _ _ => actor | _ => rApprovedByUserID r end;
     rDecidedAt := match u with UpdateDecision _ _ _ now => Some now | _ => rDecidedAt r end;
     rDecisionReason := match u with UpdateDecision _ _ _ _ => "" | _ => rDecisionReason r end;
     rDecisionEnvelopeID := match u with UpdateDecision _ _ msgID _ => msgID | _ => rDecisionEnvelopeID r end;
     rDecisionReceiptID := match u with UpdateDecision _ _ msgID _ => msgID | _ => rDecisionReceiptID r end;
     rIssuanceEnvelopeID := match u with UpdateCompletion _ msgID _ _ _ _ _ _ => msgID | _ => rIssuanceEnvelopeID r end;
     rIssuanceReceiptID := match u with UpdateCompletion _ msgID _ _ _ _ _ _ => msgID | _ => rIssuanceReceiptID r end;
     rIssuanceLeaseOwner :=
       match u with UpdateApproved _ => "" | UpdateLease owner _ _ => owner | _ => rIssuanceLeaseOwner r end;
     rIssuanceLeaseExpiresAt :=
       match u with UpdateApproved _ => None | UpdateLease _ expires _ => Some expires | _ => rIssuanceLeaseExpiresAt r end;
     rOperatorID := match u with UpdateCompletion _ _ _ _ id _ _ _ => unless_empty id (rOperatorID r) | _ => rOperatorID r end;
     rOperatorSessionID :=
       match u with UpdateCompletion _ _ _ _ _ id _ _ => unless_empty id (rOperatorSessionID r) | _ => rOperatorSessionID r end;
     rCLISessionID := match u with UpdateCompletion _ _ _ _ _ _ id _ => unless_empty id (rCLISessionID r) | _ => rCLISessionID r end;
     rPolicyID := rPolicyID r;
     rCertificateSerial := match u with UpdateCompletion _ _ serial _ _ _ _ _ => serial | _ => rCertificateSerial r end;
     rCertificateFingerprint := match u with UpdateCompletion _ _ _ fp _ _ _ _ => fp | _ => rCertificateFingerprint r end;
     rIssued := match u with UpdateCompletion issued _ _ _ _ _ _ _ => Some issued | _ => rIssued r end;
     rCompletedAt := match u with UpdateCompletion _ _ _ _ _ _ _ now => Some now | _ => rCompletedAt r end;
     rRevokedAt := match u with UpdateRevocation _ _ _ now => Some now | _ => rRevokedAt r end;
     rRevokedByUserID := match u with UpdateRevocation actor _ _ _ => actor | _ => rRevokedByUserID r end;
     rRevocationReason := match u with UpdateRevocation _ reason _ _ => reason | _ => rRevocationReason r end;
     rRevocationEnvelopeID := match u with UpdateRevocation _ _ msgID _ => msgID | _ => rRevocationEnvelopeID r end;
     rRevocationReceiptID := match u with UpdateRevocation _ _ msgID _ => msgID | _ => rRevocationReceiptID r end;
     rFailureReason := rFailureReason r |}.

(** ** Statements *)

(** [models.DocFilter] on the fields the service filters by; times are compared as the
    texts they are stored as. *)
Inductive filter :=
| FilterComponentKind (k : PlatformComponentKind)
| FilterInstanceID (id : string)
| FilterTokenHash (hash : string)
| FilterState (s : PlatformEnrollmentState)
| FilterLastTransitionBefore (cutoff : string).

Definition holds (f : filter) (r : PlatformEnrollmentRequest) : bool :=
  match f with
  | FilterComponentKind k => kind_eqb (rComponentKind r) k
  | FilterInstanceID id => String.eqb (rInstanceID r) id
  | FilterTokenHash hash => String.eqb (rTokenHash r) hash
  | FilterState s => state_eqb (rState r) s
  | FilterLastTransitionBefore cutoff => String.ltb (FormatRFC3339Nano (rLastTransitionAt r)) cutoff
  end.

Inductive verdict := Refused (e : gerr) | Passed (msgID : string).

Inductive stmt : Type -> Type :=
| TimeNow : stmt Z
| NewUUID : stmt (result string)
| RandRead (n : nat) : stmt (result string)
| CtxErr : stmt (result unit)
(* the platform_enrollments collection; a row is the document's id and the request *)
| DocSet (id : string) (r : PlatformEnrollmentRequest) : stmt (result unit)
| DocGet (id : string) : stmt (result (option PlatformEnrollmentRequest))
| DocQuery (filters : list filter) (ordered : bool) (limit : nat) : stmt (result (list (string * PlatformEnrollmentRequest)))
| DocConditionalUpdate (id : string) (u : update) (state : PlatformEnrollmentState) : stmt (result bool)
| DocDelete (id : string) : stmt (result unit)
(* documents of the collection a payload names; of one that is there, nothing else is looked at *)
| PolicyGet (collection id : string) : stmt (result bool)
| PolicySet (collection id : string) (p : AppPolicy) : stmt (result unit)
| PolicyDelete (collection id : string) : stmt (result unit)
(* users, organizations, operators, sessions *)
| HasAnyUsers : stmt (result bool)
| GetByID (userID : string) : stmt (result (option User))
| IsFirstUser (userID : string) : stmt (result bool)
| UserGet (id : string) : stmt (result (option User))
| OrganizationGet (id : string) : stmt (result (option Organization))
| OperatorSet (id : string) (doc : OperatorDocument) : stmt (result unit)
| OperatorQuery (ownerID systemFingerprint : string) : stmt (result (list OperatorRow))
| OperatorTerminate (id : string) (updatedAt : Z) (reason : string) : stmt (result unit)
| NotifyOperatorEnrolled (operatorID userID name : string) : stmt unit
| PersistCLISession (cliSessionID operatorSessionID userID fingerprint serial loginMethod : string) : stmt (result unit)
| DeactivateCLISession (id : string) : stmt (result unit)
| PersistOperatorSession (operatorSessionID userID orgID operatorID loginMethod : string) : stmt (result unit)
| DeactivateOperatorSession (id : string) : stmt (result unit)
| DisconnectIdentity (spiffeID : string) : stmt Z
| EnrollmentsChanged : stmt unit
(* the certificate authority *)
| GatewayTrustBundle : stmt (result string)
| SignPlatformAppCSR (csr appName userID : string) : stmt (result (string * string))
| SignCSR (csr leaf organizationID operatorID userID sessionID : string) : stmt (result (string * string))
| RevokeCertificate (serial reason : string) : stmt (result unit)
(* the governance pipeline *)
| GetCurrentStateRoot : stmt (result string)
| Submit (p : EnrollmentPayload) (stateRoot nonce : string) : stmt verdict
| Finalize (outcome : result string) : stmt (result bool).

Notation eproc := (@ep stmt).
Open Scope proc_scope.

(** [req, err := ...; if err != nil { return fmt.Errorf(...) }] *)
Definition asking {A} (fmt : string) (s : stmt (result A)) : eproc A := ep_wrap fmt (ask s).
Definition asks {A} (s : stmt (result A)) : eproc A := ask s.
Definition tell {A} (s : stmt A) : eproc A := Do s (fun a => Ret (Ok a)).
Definition ensure (cond : bool) (err : string) : eproc unit := ep_lift (require cond (Sentinel err)).

(** ** The governance handlers *)

Section enrollment.
Context {Csr Key Cert : Type} (lib : x509 Csr Key Cert).
(** [PlatformEnrollmentDeps]: the posture, and whether [Connections] is set. *)
Context (posture : string) (connections : bool).

(** [set_created]: the document's own [created_at] is not part of its data. *)
Definition set_created (t : Z) (r : PlatformEnrollmentRequest) : PlatformEnrollmentRequest :=
  {| rID := rID r; rTokenHash := rTokenHash r; rComponentKind := rComponentKind r;
     rComponentName := rComponentName r; rAppName := rAppName r; rInstanceID := rInstanceID r;
     rHostname := rHostname r; rSystemFingerprint := rSystemFingerprint r; rApp := rApp r;
     rOperator := rOperator r; rFingerprints := rFingerprints r; rState := rState r;
     rAttemptCount := rAttemptCount r; rCreatedAt := t; rExpiresAt := rExpiresAt r;
     rLastTransitionAt := rLastTransitionAt r; rApprovedByUserID := rApprovedByUserID r;
     rDecidedAt := rDecidedAt r; rDecisionReason := rDecisionReason r;
     rDecisionEnvelopeID := rDecisionEnvelopeID r; rDecisionReceiptID := rDecisionReceiptID r;
     rIssuanceEnvelopeID := rIssuanceEnvelopeID r; rIssuanceReceiptID := rIssuanceReceiptID r;
     rIssuanceLeaseOwner := rIssuanceLeaseOwner r; rIssuanceLeaseExpiresAt := rIssuanceLeaseExpiresAt r;
     rOperatorID := rOperatorID r; rOperatorSessionID := rOperatorSessionID r;
     rCLISessionID := rCLISessionID r; rPolicyID := rPolicyID r;
     rCertificateSerial := rCertificateSerial r; rCertificateFingerprint := rCertificateFingerprint r;
     rIssued := rIssued r; rCompletedAt := rCompletedAt r; rRevokedAt := rRevokedAt r;
     rRevokedByUserID := rRevokedByUserID r; rRevocationReason := rRevocationReason r;
     rRevocationEnvelopeID := rRevocationEnvelopeID r; rRevocationReceiptID := rRevocationReceiptID r;
     rFailureReason := rFailureReason r |}.

Definition loadPlatformEnrollmentRequest (requestID : string) : eproc (option PlatformEnrollmentRequest) :=
  let$ _ := asking "platform enrollment: check request context: %w" CtxErr in
  if str_nonempty requestID
  then let$ doc := asking "platform enrollment: load request %s: %w" (DocGet requestID) in
       ep_lift (Ok (set_created zero_time <$> doc))
  else ep_lift (Ok None).

(** The request a handler works on, which has to exist. *)
Definition existing_request (requestID : string) : eproc PlatformEnrollmentRequest :=
  let$ req := loadPlatformEnrollmentRequest requestID in
  match req with
  | Some r => ep_lift (Ok r)
  | None => ep_err (Sentinel "ErrPlatformEnrollmentRequestNotFound")
  end.

Definition loadPlatformEnrollmentOrganization (userID : string) : eproc (User * Organization) :=
  let$ userDoc := asking "platform enrollment: load user %s: %w" (UserGet userID) in
  match userDoc with
  | None => ep_err (Sentinel "ErrUserNotFound")
  | Some user =>
      let$ _ := ensure (str_nonempty (usOrganizationID user)) "ErrOrganizationIDRequired" in
      let$ organizationDoc := asking "platform enrollment: load organization %s: %w" (OrganizationGet (usOrganizationID user)) in
      match organizationDoc with
      | None => ep_err (Sentinel "ErrOrganizationNotFound")
      | Some organization =>
          let member := foldl (fun member memberUserID => member || String.eqb memberUserID (usID user))
                              (String.eqb (ogOwnerUserID organization) (usID user)) (ogMemberUserIDs organization) in
          let$ _ := ensure (negb (negb (String.eqb (ogID organization) (usOrganizationID user)) || negb member))
                          "ErrOrganizationMembershipInvalid" in
          ep_lift (Ok (user, organization))
      end
  end.

Definition HandleCreate (msgID : string) (p : EnrollmentPayload) : eproc string :=
  let$ _ := asking "platform enrollment: create context: %w" CtxErr in
  let$ kind := ep_lift (protoComponentKind (pComponentKind p)) in
  ep_lift (Ok ("platform enrollment create request_id=" +:+ pRequestId p +:+ " component=" +:+ kind_text kind +:+
               " instance=" +:+ pInstanceId p +:+ " fingerprints=" +:+
               fingerprintsSummary (fingerprintsFromPayload (pFingerprints p)))).

Definition HandleDecide (msgID : string) (p : EnrollmentPayload) : eproc string :=
  let$ decision := ep_lift (protoDecision (pDecision p)) in
  let$ _ := ensure (str_nonempty (pRequestId p)) "ErrPlatformEnrollmentRequestIDRequired" in
  let$ _ := ensure (str_nonempty (pActorUserId p)) "ErrPlatformEnrollmentInvalidDecision" in
  let$ req := existing_request (pRequestId p) in
  let$ _ := ensure (state_eqb (rState req) PlatformEnrollmentStatePending) "ErrPlatformEnrollmentAlreadyDecided" in
  let$ targetState := ep_lift match decision with
                              | PlatformEnrollmentDecisionApprove => Ok PlatformEnrollmentStateApproved
                              | PlatformEnrollmentDecisionDeny => Ok PlatformEnrollmentStateDenied
                              | _ => Err (Sentinel "ErrPlatformEnrollmentInvalidDecision")
                              end in
  let! now := ask TimeNow in
  let$ applied := asking "platform enrollment: decide %s: %w"
                    (DocConditionalUpdate (pRequestId p) (UpdateDecision targetState (pActorUserId p) msgID now)
                       PlatformEnrollmentStatePending) in
  let$ _ := ensure applied "ErrPlatformEnrollmentAlreadyDecided" in
  ep_lift (Ok ("platform enrollment decide request_id=" +:+ pRequestId p +:+ " decision=" +:+ decision_text decision +:+
               " actor=" +:+ pActorUserId p)).

(** What signing returns: the response, the operator, its session, the CLI session,
    the serial and the fingerprint. *)
Definition signed_component : Type :=
  PlatformEnrollmentCompleteResponse * string * string * string * string * string.

Definition signAppComponent (req : PlatformEnrollmentRequest) (actor trustBundle : string) : eproc signed_component :=
  match rApp req with
  | None => ep_err (Sentinel "ErrPlatformEnrollmentInvalidPayload")
  | Some csr =>
      let$ (certPEM, chainPEM) := asking "sign app csr: %w" (SignPlatformAppCSR csr (rComponentName req) actor) in
      let creds := {| acAppID := rComponentName req; acAppCert := certPEM; acCertChain := chainPEM;
                      acTrustBundle := trustBundle; acExpiresAt := expiryFromPEM lib certPEM; acPolicyID := "" |} in
      ep_lift (Ok ({| cpRequestID := rID req; cpComponentKind := rComponentKind req; cpApp := Some creds; cpOperator := None |},
                   "", "", "", CertificateSerialNumber lib certPEM, CertificateFingerprint lib certPEM))
  end.

(** [for _, doc := range docs]: the first failure ends the loop. *)
Fixpoint terminate_leases (replacementID : string) (docs : list OperatorRow) : eproc unit :=
  match docs with
  | [] => ep_lift (Ok tt)
  | doc :: docs =>
      if String.eqb (owID doc) replacementID then terminate_leases replacementID docs
      else
        let$ sessionID := ep_lift match owSession doc with
                                  | None => Ok ""
                                  | Some (Some s) => Ok s
                                  | Some None => Err (Errorf "decode operator session of %s: %w" [Extern "json.Unmarshal"])
                                  end in
        let$ _ := (if str_nonempty sessionID
                   then let! r := ask (DeactivateOperatorSession sessionID) in
                        match r with
                        | Err e => if err_is "ErrGatewayOperatorSessionInvalid" e then ep_lift (Ok tt)
                                   else ep_err (Errorf "deactivate operator session of %s: %w" [e])
                        | Ok _ => ep_lift (Ok tt)
                        end
                   else ep_lift (Ok tt)) in
        let! now := ask TimeNow in
        let$ _ := asking "terminate superseded operator %s: %w"
                    (OperatorTerminate (owID doc) now ("superseded by re-enrollment as operator " +:+ replacementID)) in
        terminate_leases replacementID docs
  end.

Definition supersedeOperatorLeases (ownerID systemFingerprint replacementID : string) : eproc unit :=
  if str_nonempty systemFingerprint
  then let$ docs := asking "query operators for fingerprint: %w" (OperatorQuery ownerID systemFingerprint) in
       terminate_leases replacementID docs
  else ep_lift (Ok tt).

Definition signOperatorComponent (req : PlatformEnrollmentRequest) (actor trustBundle : string) : eproc signed_component :=
  match rOperator req with
  | None => ep_err (Sentinel "ErrPlatformEnrollmentInvalidPayload")
  | Some csrs =>
      let$ (user, organization) := loadPlatformEnrollmentOrganization actor in
      let$ operatorID := asks NewUUID in
      let$ operatorSessionID := asks NewUUID in
      let$ cliSessionID := asks NewUUID in
      let! now := ask TimeNow in
      let$ (operatorCertPEM, operatorChainPEM) :=
        asking "sign operator csr: %w"
          (SignCSR (OperatorCSRPEM csrs) "operator" (ogID organization) operatorID "" operatorSessionID) in
      let$ (cliCertPEM, cliCertChainPEM) :=
        asking "sign cli csr: %w" (SignCSR (CLICSRPEM csrs) "cli" "" "" (usID user) cliSessionID) in
      let$ _ := asking "persist operator doc: %w"
                  (OperatorSet operatorID
                     {| opID := operatorID; opUserID := usID user; opOrganizationID := ogID organization;
                        opComponent := "g8eo"; opName := rHostname req; opStatus := "active";
                        opOperatorSessionID := operatorSessionID; opOperatorType := "remote";
                        opSystemFingerprint := rSystemFingerprint req; opClaimed := true;
                        opClaimedAt := Some now; opCreatedAt := now; opUpdatedAt := now |}) in
      let$ _ := ep_wrap "supersede prior operator leases: %w"
                  (supersedeOperatorLeases (usID user) (rSystemFingerprint req) operatorID) in
      let$ _ := tell (NotifyOperatorEnrolled operatorID (usID user) (rHostname req)) in
      let creds := {| ocOperatorCert := operatorCertPEM; ocOperatorCertChain := operatorChainPEM;
                      ocHubTrustBundle := trustBundle; ocOperatorSessionID := operatorSessionID;
                      ocOperatorID := operatorID; ocCLISessionID := cliSessionID; ocCLICert := cliCertPEM;
                      ocCLICertChain := cliCertChainPEM; ocPosture := posture; ocActuatorKeyID := "";
                      ocActuatorPubKey := "" |} in
      ep_lift (Ok ({| cpRequestID := rID req; cpComponentKind := rComponentKind req; cpApp := None; cpOperator := Some creds |},
                   operatorID, operatorSessionID, cliSessionID,
                   CertificateSerialNumber lib cliCertPEM, CertificateFingerprint lib cliCertPEM))
  end.

Definition signComponent (req : PlatformEnrollmentRequest) (actor : string) : eproc signed_component :=
  let$ trustBundle := asking "trust bundle: %w" GatewayTrustBundle in
  match rComponentKind req with
  | PlatformComponentDashboard | PlatformComponentEnsemble | PlatformComponentApplication =>
      signAppComponent req actor trustBundle
  | PlatformComponentOperator => signOperatorComponent req actor trustBundle
  | PlatformComponentOther _ => ep_err (Sentinel "ErrPlatformEnrollmentInvalidComponent")
  end.

Definition HandleIssue (msgID : string) (p : EnrollmentPayload) : eproc string :=
  let$ kind := ep_lift (protoComponentKind (pComponentKind p)) in
  let$ _ := ensure (str_nonempty (pRequestId p)) "ErrPlatformEnrollmentRequestIDRequired" in
  let$ _ := ensure (str_nonempty (pActorUserId p)) "ErrPlatformEnrollmentInvalidDecision" in
  let$ req := existing_request (pRequestId p) in
  let$ _ := ensure (state_eqb (rState req) PlatformEnrollmentStateIssuing) "ErrPlatformEnrollmentIssuanceInProgress" in
  let! signed := signComponent req (pActorUserId p) in
  match signed with
  | Err e =>
      let! now := ask TimeNow in
      let! _ := ask (DocConditionalUpdate (pRequestId p) (UpdateRollback now) PlatformEnrollmentStateIssuing) in
      ep_err (Errorf "platform enrollment: issue %s: %w" [e])
  | Ok (issued, operatorID, operatorSessionID, cliSessionID, certSerial, certFingerprint) =>
      let! completedAt := ask TimeNow in
      let$ applied := asking "platform enrollment: complete issuance %s: %w"
                        (DocConditionalUpdate (pRequestId p)
                           (UpdateCompletion issued msgID certSerial certFingerprint
                              operatorID operatorSessionID cliSessionID completedAt)
                           PlatformEnrollmentStateIssuing) in
      let$ _ := ensure applied "ErrPlatformEnrollmentIssuanceInProgress" in
      ep_lift (Ok ("platform enrollment issue request_id=" +:+ pRequestId p +:+ " component=" +:+ kind_text kind +:+
                   " cert_fingerprint=" +:+ certFingerprint +:+
                   (if str_nonempty operatorID then " operator_id=" +:+ operatorID else "")))
  end.

Definition HandlePersistPolicy (msgID : string) (p : EnrollmentPayload) : eproc string :=
  let$ _ := asking "platform enrollment: persist policy context: %w" CtxErr in
  let$ _ := ensure (str_nonempty (pRequestId p)) "ErrPlatformEnrollmentRequestIDRequired" in
  let$ _ := ensure (negb (negb (str_nonempty (pTargetCollection p)) || negb (str_nonempty (pTargetDocumentId p))))
                  "ErrPlatformEnrollmentInvalidPayload" in
  let$ _ := ensure (str_nonempty (pOwnerUserId p)) "ErrPlatformEnrollmentInvalidPayload" in
  let$ existingDoc := asking "platform enrollment: check existing policy: %w"
                        (PolicyGet (pTargetCollection p) (pTargetDocumentId p)) in
  let suffix := "request_id=" +:+ pRequestId p +:+ " policy_id=" +:+ pPolicyId p +:+ " document=" +:+ pTargetDocumentId p in
  match existingDoc with
  | true => ep_lift (Ok ("platform enrollment persist_policy retained " +:+ suffix))
  | false =>
      let! now := ask TimeNow in
      let$ _ := asking "platform enrollment: persist policy: %w"
                  (PolicySet (pTargetCollection p) (pTargetDocumentId p)
                     {| apAppID := pTargetDocumentId p; apOwnerUserID := pOwnerUserId p;
                        apApprovedByUserID := pActorUserId p; apEnrollmentRequestID := pRequestId p;
                        apCertificateSerial := pCertificateSerial p;
                        apCertificateFingerprint := pCertificateFingerprint p;
                        apAllowedCollections := []; apAllowedEventTypes := []; apAllowedIntents := [];
                        apRateLimitRPS := 0; apMaxPayloadBytes := 0; apRequireL3Approval := false;
                        apCreatedAt := now; apUpdatedAt := now |}) in
      ep_lift (Ok ("platform enrollment persist_policy " +:+ suffix))
  end.

(** [err != nil && !errors.Is(err, ...)]. *)
Definition tolerating {A} (tolerated : list string) (fmt : string) (s : stmt (result A)) : eproc unit :=
  let! r := ask s in
  match r with
  | Ok _ => ep_lift (Ok tt)
  | Err e => if existsb (fun n => err_is n e) tolerated then ep_lift (Ok tt) else ep_err (Errorf fmt [e])
  end.

Definition revoke_app (p : EnrollmentPayload) : eproc unit :=
  let$ _ := ensure (str_nonempty (pTargetDocumentId p)) "ErrPlatformEnrollmentInvalidPayload" in
  let$ _ := asking "platform enrollment: revoke app policy: %w" (PolicyDelete "app_policies" (pTargetDocumentId p)) in
  let$ _ := tell (DisconnectIdentity (pTargetDocumentId p)) in
  ep_lift (Ok tt).

Definition revoke_operator (req : PlatformEnrollmentRequest) (reason : string) : eproc unit :=
  match match rIssued req with Some issued => cpOperator issued | None => None end with
  | None => ep_err (Sentinel "ErrPlatformEnrollmentInvalidPayload")
  | Some creds =>
      let operatorSerial := CertificateSerialNumber lib (ocOperatorCert creds) in
      let$ _ := ensure (str_nonempty operatorSerial) "ErrPlatformEnrollmentInvalidPayload" in
      let$ _ := asking "platform enrollment: revoke operator certificate: %w" (RevokeCertificate operatorSerial reason) in
      let$ operatorSPIFFEID := ep_lift (spiffeIDFromCertificate lib (ocOperatorCert creds)) in
      let$ cliSPIFFEID := ep_lift (spiffeIDFromCertificate lib (ocCLICert creds)) in
      let$ _ := tolerating ["ErrCLISessionAlreadyDeactivated"; "ErrCLISessionNotFound"]
                  "platform enrollment: deactivate CLI session: %w" (DeactivateCLISession (rCLISessionID req)) in
      let$ _ := tolerating ["ErrGatewayOperatorSessionInvalid"]
                  "platform enrollment: deactivate operator session: %w" (DeactivateOperatorSession (rOperatorSessionID req)) in
      let! now := ask TimeNow in
      let$ _ := asking "platform enrollment: terminate operator: %w" (OperatorTerminate (rOperatorID req) now reason) in
      let$ _ := tell (DisconnectIdentity operatorSPIFFEID) in
      let$ _ := tell (DisconnectIdentity cliSPIFFEID) in
      ep_lift (Ok tt)
  end.

Definition HandleRevoke (msgID : string) (p : EnrollmentPayload) : eproc string :=
  let$ _ := asking "platform enrollment: revoke context: %w" CtxErr in
  let$ _ := ensure (str_nonempty (pRequestId p)) "ErrPlatformEnrollmentRequestIDRequired" in
  let$ req := existing_request (pRequestId p) in
  let$ _ := ensure (state_eqb (rState req) PlatformEnrollmentStateCompleted) "ErrPlatformEnrollmentInvalidState" in
  let$ _ := ensure connections "ErrPlatformEnrollmentDepsRequired" in
  let reason := let trimmed := trim_space (pReason p) in
                if str_nonempty trimmed then trimmed else intent_revoke in
  let$ _ := (if str_nonempty (rCertificateSerial req)
             then asking "platform enrollment: revoke certificate: %w" (RevokeCertificate (rCertificateSerial req) reason)
             else ep_lift (Ok tt)) in
  let$ _ := match rComponentKind req with
            | PlatformComponentDashboard | PlatformComponentEnsemble | PlatformComponentApplication => revoke_app p
            | PlatformComponentOperator => revoke_operator req reason
            | PlatformComponentOther _ => ep_err (Sentinel "ErrPlatformEnrollmentInvalidComponent")
            end in
  let! now := ask TimeNow in
  let$ applied := asking "platform enrollment: mark revoked: %w"
                    (DocConditionalUpdate (pRequestId p) (UpdateRevocation (pActorUserId p) reason msgID now)
                       PlatformEnrollmentStateCompleted) in
  let$ _ := ensure applied "ErrPlatformEnrollmentInvalidState" in
  ep_lift (Ok ("platform enrollment revoke request_id=" +:+ pRequestId p +:+ " component=" +:+ kind_text (rComponentKind req))).

Definition HandleCreateSession (msgID : string) (p : EnrollmentPayload) : eproc string :=
  let$ _ := asking "platform enrollment: create session context: %w" CtxErr in
  let$ _ := ensure (str_nonempty (pRequestId p)) "ErrPlatformEnrollmentRequestIDRequired" in
  let$ _ := ensure (str_nonempty (pOperatorId p) && str_nonempty (pOperatorSessionId p) && str_nonempty (pCliSessionId p))
                  "ErrPlatformEnrollmentInvalidPayload" in
  let$ _ := ensure (str_nonempty (pActorUserId p)) "ErrPlatformEnrollmentInvalidDecision" in
  let$ (user, organization) := loadPlatformEnrollmentOrganization (pActorUserId p) in
  let$ _ := asking "platform enrollment: persist cli session: %w"
              (PersistCLISession (pCliSessionId p) (pOperatorSessionId p) (usID user)
                 (pCertificateFingerprint p) (pCertificateSerial p) "bootstrap") in
  let$ _ := asking "platform enrollment: persist operator session: %w"
              (PersistOperatorSession (pOperatorSessionId p) (usID user) (ogID organization) (pOperatorId p) "bootstrap") in
  ep_lift (Ok ("platform enrollment create_session request_id=" +:+ pRequestId p +:+ " operator_id=" +:+ pOperatorId p +:+
               " operator_session=" +:+ pOperatorSessionId p +:+ " cli_session=" +:+ pCliSessionId p +:+
               " actor=" +:+ pActorUserId p)).

(** The handler the pipeline runs for an action. *)
Definition handle (msgID : string) (p : EnrollmentPayload) : eproc string :=
  match pAction p with
  | ActionCreate => HandleCreate msgID p
  | ActionDecide => HandleDecide msgID p
  | ActionIssue => HandleIssue msgID p
  | ActionPersistPolicy => HandlePersistPolicy msgID p
  | ActionCreateSession => HandleCreateSession msgID p
  | ActionRevoke => HandleRevoke msgID p
  end.

(** ** The service *)

(** [envProc.ProcessEnvelope] of one envelope: whether there is a receipt. *)
Definition ProcessEnvelope (p : EnrollmentPayload) (stateRoot nonce : string) : eproc bool :=
  let! v := ask (Submit p stateRoot nonce) in
  match v with
  | Refused e => ep_err e
  | Passed msgID => let! outcome := handle msgID p in ask (Finalize outcome)
  end.

Definition platformEnrollmentStateRootMaxRetries : nat := 3.

Definition generateNonce : eproc string :=
  let$ b := asks (RandRead 16) in ep_lift (Ok (hex_encode b)).

(** The attempts of [submitEnvelope]; [retries] are left. *)
Fixpoint submit_attempts (retries : nat) (p : EnrollmentPayload) : eproc unit :=
  let$ stateRoot := asking "get state root: %w" GetCurrentStateRoot in
  let$ nonce := ep_wrap "generate nonce: %w" generateNonce in
  let! receipt := ProcessEnvelope p stateRoot nonce in
  match receipt with
  | Ok true => ep_lift (Ok tt)
  | Ok false => ep_err (Sentinel "ErrPlatformEnrollmentGovernanceRejected")
  | Err e =>
      let rejected := Errorf "%w: %w" [Sentinel "ErrPlatformEnrollmentGovernanceRejected"; e] in
      match retries with
      | O => ep_err rejected
      | S retries => if err_is "ErrTxStateRootMismatch" e then submit_attempts retries p else ep_err rejected
      end
  end.

Definition submitEnvelope (p : EnrollmentPayload) : eproc unit :=
  submit_attempts platformEnrollmentStateRootMaxRetries p.

Definition loadByToken (token : string) : eproc PlatformEnrollmentRequest :=
  let$ docs := asking "platform enrollment: load by token: %w"
                 (DocQuery [FilterTokenHash (platformEnrollmentTokenHash token)] false 1) in
  match docs with
  | [] => ep_err (Sentinel "ErrPlatformEnrollmentRequestNotFound")
  | (_, req) :: _ => ep_lift (Ok req)
  end.

Definition loadByID (requestID : string) : eproc (option PlatformEnrollmentRequest) :=
  asking "platform enrollment: load by id: %w" (DocGet requestID).

(** Failures are logged. *)
Definition rollbackLease (requestID : string) : proc stmt unit :=
  let! now := ask TimeNow in
  let! _ := ask (DocConditionalUpdate requestID (UpdateApproved now) PlatformEnrollmentStateIssuing) in
  Ret tt.

Definition expireRequest (req : PlatformEnrollmentRequest) : proc stmt unit :=
  let! now := ask TimeNow in
  let! applied := ask (DocConditionalUpdate (rID req) (UpdateExpired now) (rState req)) in
  match applied with Ok true => ask EnrollmentsChanged | _ => Ret tt end.

(** [time.Now().UTC().After(req.ExpiresAt)]. *)
Definition after (now : Z) (t : Z) : bool := (t <? now)%Z.

(** The rows in order: the first live one that matches. *)
Fixpoint first_live (now : Z) (fingerprints : PlatformEnrollmentCSRFingerprints)
    (docs : list (string * PlatformEnrollmentRequest)) : proc stmt (option PlatformEnrollmentRequest) :=
  match docs with
  | [] => Ret None
  | (_, req) :: docs =>
      if IsTerminal (rState req) then first_live now fingerprints docs
      else if after now (rExpiresAt req)
      then let! _ := expireRequest req in first_live now fingerprints docs
      else if fingerprintsMatch (rFingerprints req) fingerprints then Ret (Some req)
      else first_live now fingerprints docs
  end.

Definition findLiveRequest (kind : PlatformComponentKind) (instanceID : string)
    (fingerprints : PlatformEnrollmentCSRFingerprints) : eproc (option PlatformEnrollmentRequest) :=
  let$ docs := asking "query live requests: %w"
                 (DocQuery [FilterComponentKind kind; FilterInstanceID instanceID] true 0) in
  let! now := ask TimeNow in
  let! found := first_live now fingerprints docs in
  ep_lift (Ok found).

Definition count_live (now : Z) (row : string * PlatformEnrollmentRequest) (live : nat) : proc stmt nat :=
  if IsTerminal (rState row.2) then Ret live
  else if after now (rExpiresAt row.2) then let! _ := expireRequest row.2 in Ret live
  else Ret (S live).

Definition live_limit (kind : PlatformComponentKind) : nat :=
  if kind_eqb kind PlatformComponentOperator then PlatformEnrollmentMaxLiveOperatorRequests
  else PlatformEnrollmentMaxLiveRequestsPerComponent.

Definition checkQuota (kind : PlatformComponentKind) : eproc unit :=
  let$ docs := asking "platform enrollment: quota query: %w" (DocQuery [FilterComponentKind kind] false 0) in
  let! now := ask TimeNow in
  let! live := proc_each docs (count_live now) O in
  ensure (negb (live_limit kind <=? live)%nat) "ErrPlatformEnrollmentQuotaExceeded".

(** [PlatformEnrollmentCreateResponse]. *)
Record CreateResponse := {
  csRequestID : string; csToken : string; csComponentKind : PlatformComponentKind; csComponentName : string;
  csFingerprints : PlatformEnrollmentCSRFingerprints; csApprovalURL : string; csExpiresAt : Z }.

Definition newPlatformEnrollmentToken : eproc string :=
  let$ value := asking "platform enrollment: generate token: %w" (RandRead PlatformEnrollmentTokenBytes) in
  ep_lift (Ok (rawurl_encode value)).

Definition pending_request (requestID tokenHash componentName : string) (req : PlatformEnrollmentCreateRequest)
    (fingerprints : PlatformEnrollmentCSRFingerprints) (now : Z) : PlatformEnrollmentRequest :=
  {| rID := requestID; rTokenHash := tokenHash; rComponentKind := crComponentKind req;
     rComponentName := componentName; rAppName := crAppName req; rInstanceID := crInstanceID req;
     rHostname := crHostname req; rSystemFingerprint := crSystemFingerprint req; rApp := crApp req;
     rOperator := crOperator req; rFingerprints := fingerprints; rState := PlatformEnrollmentStatePending;
     rAttemptCount := 0; rCreatedAt := now; rExpiresAt := now + PlatformEnrollmentRequestTTL;
     rLastTransitionAt := now; rApprovedByUserID := ""; rDecidedAt := None; rDecisionReason := "";
     rDecisionEnvelopeID := ""; rDecisionReceiptID := ""; rIssuanceEnvelopeID := ""; rIssuanceReceiptID := "";
     rIssuanceLeaseOwner := ""; rIssuanceLeaseExpiresAt := None; rOperatorID := ""; rOperatorSessionID := "";
     rCLISessionID := ""; rPolicyID := ""; rCertificateSerial := ""; rCertificateFingerprint := "";
     rIssued := None; rCompletedAt := None; rRevokedAt := None; rRevokedByUserID := ""; rRevocationReason := "";
     rRevocationEnvelopeID := ""; rRevocationReceiptID := ""; rFailureReason := "" |}.

Definition create_payload (requestID : string) (req : PlatformEnrollmentCreateRequest)
    (fingerprints : PlatformEnrollmentCSRFingerprints) : EnrollmentPayload :=
  {| pAction := ActionCreate; pIntent := "platform_enrollment.request"; pRequestId := requestID;
     pComponentKind := payloadComponentKind (crComponentKind req); pInstanceId := crInstanceID req;
     pFingerprints := Some fingerprints; pActorUserId := ""; pDecision := DECISION_UNSPECIFIED;
     pTargetCollection := ""; pTargetDocumentId := ""; pPolicyId := ""; pCertificateSerial := "";
     pCertificateFingerprint := ""; pOwnerUserId := ""; pOperatorId := ""; pOperatorSessionId := "";
     pCliSessionId := ""; pReason := "" |}.

Definition CreateRequest (req : PlatformEnrollmentCreateRequest) (approvalURLBase : string) : eproc CreateResponse :=
  let$ hasUsers := asking "platform enrollment: check bootstrap: %w" HasAnyUsers in
  let$ _ := ensure hasUsers "ErrPlatformEnrollmentRequiresBootstrap" in
  let$ fingerprints := ep_lift (validatePlatformEnrollmentRequest lib req) in
  let$ componentName := ep_lift (CanonicalName (crComponentKind req) (crAppName req)) in
  let$ existing := ep_wrap "platform enrollment: dedup query: %w"
                     (findLiveRequest (crComponentKind req) (crInstanceID req) fingerprints) in
  match existing with
  | Some existing =>
      ep_lift (Ok {| csRequestID := rID existing; csToken := ""; csComponentKind := rComponentKind existing;
                     csComponentName := rComponentName existing; csFingerprints := rFingerprints existing;
                     csApprovalURL := buildApprovalURL approvalURLBase (rID existing);
                     csExpiresAt := rExpiresAt existing |})
  | None =>
      let$ _ := checkQuota (crComponentKind req) in
      let$ token := newPlatformEnrollmentToken in
      let$ requestID := asks NewUUID in
      let! now := ask TimeNow in
      let$ _ := asking "platform enrollment: persist request: %w"
                  (DocSet requestID (pending_request requestID (platformEnrollmentTokenHash token) componentName
                                       req fingerprints now)) in
      let$ _ := ep_wrap "platform enrollment: create envelope: %w"
                  (submitEnvelope (create_payload requestID req fingerprints)) in
      let$ _ := tell EnrollmentsChanged in
      ep_lift (Ok {| csRequestID := requestID; csToken := token; csComponentKind := crComponentKind req;
                     csComponentName := componentName; csFingerprints := fingerprints;
                     csApprovalURL := buildApprovalURL approvalURLBase requestID;
                     csExpiresAt := now + PlatformEnrollmentRequestTTL |})
  end.

(** [PlatformEnrollmentStatusResponse]. *)
Record StatusResponse := {
  stRequestID : string; stComponentKind : PlatformComponentKind; stState : PlatformEnrollmentState;
  stExpiresAt : Z; stRetryAfter : Z; stFailureReason : string }.

Definition statusResponse (req : PlatformEnrollmentRequest) : StatusResponse :=
  {| stRequestID := rID req; stComponentKind := rComponentKind req; stState := rState req;
     stExpiresAt := rExpiresAt req;
     stRetryAfter := if state_eqb (rState req) PlatformEnrollmentStateIssuing
                     then PlatformEnrollmentRetryAfterSeconds else 0;
     stFailureReason := rFailureReason req |}.

Definition GetStatus (token : string) : eproc StatusResponse :=
  let$ _ := ensure (str_nonempty token) "ErrPlatformEnrollmentTokenRequired" in
  let$ req := loadByToken token in
  if IsTerminal (rState req) then ep_lift (Ok (statusResponse req))
  else let! now := ask TimeNow in
       if after now (rExpiresAt req)
       then let! _ := expireRequest req in ep_err (Sentinel "ErrPlatformEnrollmentRequestExpired")
       else ep_lift (Ok (statusResponse req)).

Definition terminalError (s : PlatformEnrollmentState) : gerr :=
  Sentinel match s with
           | PlatformEnrollmentStateCompleted => "ErrPlatformEnrollmentAlreadyDecided"
           | PlatformEnrollmentStateDenied => "ErrPlatformEnrollmentRequestDenied"
           | PlatformEnrollmentStateExpired => "ErrPlatformEnrollmentRequestExpired"
           | PlatformEnrollmentStateRevoked => "ErrPlatformEnrollmentRevoked"
           | _ => "ErrPlatformEnrollmentInvalidState"
           end.

(** Only the active first user may decide and revoke. *)
Definition authorize_owner (what actorUserID : string) : eproc unit :=
  let fmt := "platform enrollment: authorize " +:+ what +:+ ": %w" in
  let$ user := asking fmt (GetByID actorUserID) in
  let$ _ := ensure (match user with Some u => IsActive u | None => false end) "ErrPlatformEnrollmentInvalidDecision" in
  let$ isFirst := asking fmt (IsFirstUser actorUserID) in
  ensure isFirst "ErrPlatformEnrollmentInvalidDecision".

(** The request an owner's operation works on. *)
Definition known_request (requestID : string) : eproc PlatformEnrollmentRequest :=
  let$ existing := loadByID requestID in
  match existing with
  | Some r => ep_lift (Ok r)
  | None => ep_err (Sentinel "ErrPlatformEnrollmentRequestNotFound")
  end.

Definition decide_payload (actorUserID : string) (req : PlatformEnrollmentDecisionRequest)
    (existing : PlatformEnrollmentRequest) : EnrollmentPayload :=
  {| pAction := ActionDecide;
     pIntent := if decision_eqb (drDecision req) PlatformEnrollmentDecisionDeny
                then "platform_enrollment.deny" else "platform_enrollment.approve";
     pRequestId := drRequestID req; pComponentKind := payloadComponentKind (rComponentKind existing);
     pInstanceId := ""; pFingerprints := None; pActorUserId := actorUserID;
     pDecision := payloadDecision (drDecision req); pTargetCollection := ""; pTargetDocumentId := "";
     pPolicyId := ""; pCertificateSerial := ""; pCertificateFingerprint := ""; pOwnerUserId := "";
     pOperatorId := ""; pOperatorSessionId := ""; pCliSessionId := ""; pReason := "" |}.

Definition Decide (actorUserID : string) (req : PlatformEnrollmentDecisionRequest) :
    eproc (string * PlatformEnrollmentState) :=
  let$ _ := ep_lift (ValidateDecision req) in
  let$ _ := ensure (str_nonempty actorUserID) "ErrPlatformEnrollmentInvalidDecision" in
  let$ _ := authorize_owner "decision" actorUserID in
  let$ existing := known_request (drRequestID req) in
  if IsTerminal (rState existing) then ep_err (terminalError (rState existing))
  else
    let$ _ := ensure (state_eqb (rState existing) PlatformEnrollmentStatePending) "ErrPlatformEnrollmentAlreadyDecided" in
    let! now := ask TimeNow in
    if after now (rExpiresAt existing)
    then let! _ := expireRequest existing in ep_err (Sentinel "ErrPlatformEnrollmentRequestExpired")
    else
      let$ _ := ep_wrap "platform enrollment: decide envelope: %w"
                  (submitEnvelope (decide_payload actorUserID req existing)) in
      let$ updated := known_request (drRequestID req) in
      let$ _ := tell EnrollmentsChanged in
      ep_lift (Ok (drRequestID req, rState updated)).

Definition revoke_payload (actorUserID reason : string) (existing : PlatformEnrollmentRequest) : EnrollmentPayload :=
  {| pAction := ActionRevoke; pIntent := intent_revoke; pRequestId := rID existing;
     pComponentKind := payloadComponentKind (rComponentKind existing); pInstanceId := "";
     pFingerprints := None; pActorUserId := actorUserID; pDecision := DECISION_UNSPECIFIED;
     pTargetCollection := "";
     pTargetDocumentId := match rComponentKind existing with
                          | PlatformComponentDashboard | PlatformComponentEnsemble | PlatformComponentApplication =>
                              AppSPIFFEID (rComponentName existing)
                          | _ => ""
                          end;
     pPolicyId := ""; pCertificateSerial := ""; pCertificateFingerprint := ""; pOwnerUserId := "";
     pOperatorId := ""; pOperatorSessionId := ""; pCliSessionId := ""; pReason := trim_space reason |}.

(** What a request that is not completed answers to a revocation. *)
Definition revocable (s : PlatformEnrollmentState) : result unit :=
  match s with
  | PlatformEnrollmentStateCompleted => Ok tt
  | PlatformEnrollmentStatePending | PlatformEnrollmentStateApproved | PlatformEnrollmentStateIssuing =>
      Err (Sentinel "ErrPlatformEnrollmentNotApproved")
  | PlatformEnrollmentStateDenied => Err (Sentinel "ErrPlatformEnrollmentRequestDenied")
  | PlatformEnrollmentStateExpired => Err (Sentinel "ErrPlatformEnrollmentRequestExpired")
  | _ => Err (Sentinel "ErrPlatformEnrollmentInvalidState")
  end.

Definition Revoke (actorUserID : string) (req : PlatformEnrollmentRevokeRequest) :
    eproc (string * PlatformComponentKind * PlatformEnrollmentState) :=
  let$ _ := ep_lift (ValidateRevoke req) in
  let$ _ := authorize_owner "revocation" actorUserID in
  let$ existing := known_request (vrRequestID req) in
  if state_eqb (rState existing) PlatformEnrollmentStateRevoked
  then ep_lift (Ok (rID existing, rComponentKind existing, rState existing))
  else
    let$ _ := ep_lift (revocable (rState existing)) in
    let$ _ := ep_wrap "platform enrollment: revoke envelope: %w"
                (submitEnvelope (revoke_payload actorUserID (vrReason req) existing)) in
    let$ updated := loadByID (rID existing) in
    match updated with
    | Some updated =>
        if state_eqb (rState updated) PlatformEnrollmentStateRevoked
        then ep_lift (Ok (rID updated, rComponentKind updated, rState updated))
        else ep_err (Sentinel "ErrPlatformEnrollmentInvalidState")
    | None => ep_err (Sentinel "ErrPlatformEnrollmentInvalidState")
    end.

Definition ListEnrolled : eproc (list PlatformEnrollmentEnrolledRequest) :=
  let$ docs := asking "platform enrollment: list enrolled: %w" (DocQuery [] true 0) in
  ep_lift (Ok (foldl (fun acc row =>
                 if state_eqb (rState row.2) PlatformEnrollmentStateCompleted ||
                    state_eqb (rState row.2) PlatformEnrollmentStateRevoked
                 then (acc ++ [EnrolledMetadata row.2])%list else acc) [] docs)).

Definition list_pending_row (now : Z) (row : string * PlatformEnrollmentRequest)
    (acc : list PlatformEnrollmentPendingRequest) : proc stmt (list PlatformEnrollmentPendingRequest) :=
  if negb (state_eqb (rState row.2) PlatformEnrollmentStatePending) then Ret acc
  else if after now (rExpiresAt row.2) then let! _ := expireRequest row.2 in Ret acc
  else Ret (acc ++ [PendingMetadata row.2])%list.

Definition ListPending : eproc (list PlatformEnrollmentPendingRequest) :=
  let$ docs := asking "platform enrollment: list pending: %w" (DocQuery [] true 0) in
  let! now := ask TimeNow in
  let! acc := proc_each docs (list_pending_row now) [] in
  ep_lift (Ok acc).

Definition policy_payload (req : PlatformEnrollmentRequest) (policyID : string) : EnrollmentPayload :=
  {| pAction := ActionPersistPolicy; pIntent := "platform_enrollment.issue"; pRequestId := rID req;
     pComponentKind := payloadComponentKind (rComponentKind req); pInstanceId := ""; pFingerprints := None;
     pActorUserId := rApprovedByUserID req; pDecision := DECISION_UNSPECIFIED;
     pTargetCollection := "app_policies"; pTargetDocumentId := AppSPIFFEID (rComponentName req);
     pPolicyId := policyID; pCertificateSerial := rCertificateSerial req;
     pCertificateFingerprint := rCertificateFingerprint req; pOwnerUserId := rApprovedByUserID req;
     pOperatorId := ""; pOperatorSessionId := ""; pCliSessionId := ""; pReason := "" |}.

Definition session_payload (req : PlatformEnrollmentRequest) : EnrollmentPayload :=
  {| pAction := ActionCreateSession; pIntent := "platform_enrollment.issue"; pRequestId := rID req;
     pComponentKind := payloadComponentKind (rComponentKind req); pInstanceId := ""; pFingerprints := None;
     pActorUserId := rApprovedByUserID req; pDecision := DECISION_UNSPECIFIED; pTargetCollection := "";
     pTargetDocumentId := ""; pPolicyId := ""; pCertificateSerial := rCertificateSerial req;
     pCertificateFingerprint := rCertificateFingerprint req; pOwnerUserId := "";
     pOperatorId := rOperatorID req; pOperatorSessionId := rOperatorSessionID req;
     pCliSessionId := rCLISessionID req; pReason := "" |}.

Definition submitDownstreamEnvelopes (req : PlatformEnrollmentRequest) : eproc unit :=
  match rComponentKind req with
  | PlatformComponentDashboard | PlatformComponentEnsemble | PlatformComponentApplication =>
      let$ policyID := (if str_nonempty (rPolicyID req) then ep_lift (Ok (rPolicyID req)) else asks NewUUID) in
      ep_wrap "platform enrollment: persist policy envelope: %w" (submitEnvelope (policy_payload req policyID))
  | PlatformComponentOperator =>
      let$ _ := ensure (str_nonempty (rOperatorID req) && str_nonempty (rOperatorSessionID req) &&
                       str_nonempty (rCLISessionID req)) "ErrPlatformEnrollmentInvalidPayload" in
      ep_wrap "platform enrollment: create session envelope: %w" (submitEnvelope (session_payload req))
  | PlatformComponentOther _ => ep_lift (Ok tt)
  end.

Definition issue_payload (req : PlatformEnrollmentRequest) : EnrollmentPayload :=
  payload ActionIssue "platform_enrollment.issue" (rID req) (payloadComponentKind (rComponentKind req))
          (rApprovedByUserID req).

Definition issueComponent (req : PlatformEnrollmentRequest) : eproc (option PlatformEnrollmentCompleteResponse) :=
  let$ leaseOwner := asks NewUUID in
  let! started := ask TimeNow in
  let! now := ask TimeNow in
  let$ applied := asking "platform enrollment: acquire lease: %w"
                    (DocConditionalUpdate (rID req)
                       (UpdateLease leaseOwner (started + PlatformEnrollmentIssuanceLeaseTTL) now)
                       PlatformEnrollmentStateApproved) in
  let$ _ := ensure applied "ErrPlatformEnrollmentIssuanceInProgress" in
  let! submitted := submitEnvelope (issue_payload req) in
  match submitted with
  | Err e =>
      let! _ := rollbackLease (rID req) in
      ep_err (Errorf "platform enrollment: issue envelope: %w" [e])
  | Ok _ =>
      let$ completed := known_request (rID req) in
      let$ _ := ensure (state_eqb (rState completed) PlatformEnrollmentStateCompleted)
                      "ErrPlatformEnrollmentIssuanceFailed" in
      let$ _ := submitDownstreamEnvelopes completed in
      ep_lift (Ok (rIssued completed))
  end.

Definition Complete (token : string) (proofs : PlatformEnrollmentProofs) : eproc (option PlatformEnrollmentCompleteResponse) :=
  let$ _ := ensure (str_nonempty token) "ErrPlatformEnrollmentTokenRequired" in
  let$ req := loadByToken token in
  let! now := ask TimeNow in
  if after now (rExpiresAt req) && negb (IsTerminal (rState req))
  then let! _ := expireRequest req in ep_err (Sentinel "ErrPlatformEnrollmentRequestExpired")
  else
    match rState req with
    | PlatformEnrollmentStateCompleted =>
        let$ _ := ep_lift (verifyPlatformEnrollmentProofs lib req proofs) in
        let$ _ := submitDownstreamEnvelopes req in
        ep_lift (Ok (rIssued req))
    | PlatformEnrollmentStateApproved =>
        let$ _ := ep_lift (verifyPlatformEnrollmentProofs lib req proofs) in
        issueComponent req
    | PlatformEnrollmentStateIssuing => ep_err (Sentinel "ErrPlatformEnrollmentIssuanceInProgress")
    | PlatformEnrollmentStatePending => ep_err (Sentinel "ErrPlatformEnrollmentNotApproved")
    | PlatformEnrollmentStateDenied => ep_err (Sentinel "ErrPlatformEnrollmentRequestDenied")
    | PlatformEnrollmentStateExpired => ep_err (Sentinel "ErrPlatformEnrollmentRequestExpired")
    | PlatformEnrollmentStateRevoked => ep_err (Sentinel "ErrPlatformEnrollmentRevoked")
    | PlatformEnrollmentStateOther _ => ep_err (Sentinel "ErrPlatformEnrollmentInvalidState")
    end.

(** A row of the reconciliation: a lease that has not run out is left alone. *)
Definition reconcile_row (now : Z) (row : string * PlatformEnrollmentRequest) (_ : unit) : proc stmt unit :=
  let req := row.2 in
  match rIssuanceLeaseExpiresAt req with
  | None => Ret tt
  | Some expires =>
      if (now <? expires)%Z then Ret tt
      else if after now (rExpiresAt req) then expireRequest req
      else let! _ := ask (DocConditionalUpdate (rID req) (UpdateApproved now) PlatformEnrollmentStateIssuing) in
           Ret tt
  end.

Definition ReconcileExpiredLeases : eproc unit :=
  let$ docs := asking "platform enrollment: reconcile: query: %w"
                 (DocQuery [FilterState PlatformEnrollmentStateIssuing] false 0) in
  let! now := ask TimeNow in
  let! _ := proc_each docs (reconcile_row now) tt in
  ep_lift (Ok tt).

Definition cleanupFiltered (filters : list filter) : eproc unit :=
  let$ docs := asking "platform enrollment: cleanup: query: %w" (DocQuery filters false 0) in
  let! _ := proc_each docs (fun row _ => let! _ := ask (DocDelete row.1) in Ret tt) tt in
  ep_lift (Ok tt).

Definition CleanupTerminalRequests : eproc unit :=
  let! now := ask TimeNow in
  let cutoff := FormatTimestamp (now - PlatformEnrollmentCleanupRetention)%Z in
  let$ _ := cleanupFiltered [FilterState PlatformEnrollmentStateDenied; FilterLastTransitionBefore cutoff] in
  cleanupFiltered [FilterState PlatformEnrollmentStateExpired; FilterLastTransitionBefore cutoff].

(** ** Calls *)

(** What starts an operation: a request of a client, a tick of the cleanup goroutine,
    or an envelope that another producer submits to the pipeline. *)
Inductive call :=
| CallCreateRequest (req : PlatformEnrollmentCreateRequest) (approvalURLBase : string)
| CallGetStatus (token : string)
| CallDecide (actorUserID : string) (req : PlatformEnrollmentDecisionRequest)
| CallRevoke (actorUserID : string) (req : PlatformEnrollmentRevokeRequest)
| CallListEnrolled
| CallListPending
| CallComplete (token : string) (proofs : PlatformEnrollmentProofs)
| CallCleanup
| CallEnvelope (p : EnrollmentPayload) (stateRoot nonce : string).

Inductive response :=
| RespondCreate (r : result CreateResponse)
| RespondStatus (r : result StatusResponse)
| RespondDecide (r : result (string * PlatformEnrollmentState))
| RespondRevoke (r : result (string * PlatformComponentKind * PlatformEnrollmentState))
| RespondEnrolled (r : result (list PlatformEnrollmentEnrolledRequest))
| RespondPending (r : result (list PlatformEnrollmentPendingRequest))
| RespondComplete (r : result (option PlatformEnrollmentCompleteResponse))
| RespondTick
| RespondEnvelope (r : result bool).

Definition respond {A} (f : result A -> response) (p : eproc A) : proc stmt response :=
  let! r := p in Ret (f r).

(** One turn of [runCleanup]: failures are logged. *)
Definition cleanup_tick : proc stmt response :=
  let! _ := ReconcileExpiredLeases in
  let! _ := CleanupTerminalRequests in
  Ret RespondTick.

Definition program (c : call) : proc stmt response :=
  match c with
  | CallCreateRequest req base => respond RespondCreate (CreateRequest req base)
  | CallGetStatus token => respond RespondStatus (GetStatus token)
  | CallDecide actor req => respond RespondDecide (Decide actor req)
  | CallRevoke actor req => respond RespondRevoke (Revoke actor req)
  | CallListEnrolled => respond RespondEnrolled ListEnrolled
  | CallListPending => respond RespondPending ListPending
  | CallComplete token proofs => respond RespondComplete (Complete token proofs)
  | CallCleanup => cleanup_tick
  | CallEnvelope p stateRoot nonce => respond RespondEnvelope (ProcessEnvelope p stateRoot nonce)
  end.

End enrollment.

(** ** The world *)

Record world := {
  requests : gmap string PlatformEnrollmentRequest;
  policies : gmap (string * string) AppPolicy;
  clock : Z;
  used_ids : gset string;
  certificates : list (string * string) }.

Definition with_requests (m : gmap string PlatformEnrollmentRequest) (w : world) : world :=
  {| requests := m; policies := policies w; clock := clock w; used_ids := used_ids w; certificates := certificates w |}.

Definition with_policies (m : gmap (string * string) AppPolicy) (w : world) : world :=
  {| requests := requests w; policies := m; clock := clock w; used_ids := used_ids w; certificates := certificates w |}.

(** [ORDER BY created_at]; without it the rows come in some order. *)
Definition row_le (a b : string * PlatformEnrollmentRequest) : Prop := (rCreatedAt a.2 <= rCreatedAt b.2)%Z.
#[export] Instance row_le_dec a b : Decision (row_le a b).
Proof. unfold row_le. apply _. Defined.

Definition select (filters : list filter) (ordered : bool) (limit : nat)
    (m : gmap string PlatformEnrollmentRequest) : list (string * PlatformEnrollmentRequest) :=
  let rows := List.filter (fun row => forallb (fun f => holds f row.2) filters) (map_to_list m) in
  let rows := if ordered then merge_sort row_le rows else rows in
  match limit with O => rows | _ => take limit rows end.

(** [DocSet] keeps the creation time of a document that exists; the column holds
    microseconds. *)
Definition stored (now : Z) (old : option PlatformEnrollmentRequest) (r : PlatformEnrollmentRequest) : PlatformEnrollmentRequest :=
  set_created (match old with Some o => rCreatedAt o | None => now / 1000 * 1000 end) r.

(** [constants.CollectionPlatformEnrollments]. *)
Definition CollectionPlatformEnrollments : string := "platform_enrollments".

(** A policy document that is read as a request: the keys the two types share, the other
    fields zero.  No filter of the service selects such a row. *)
Definition policy_as_request (p : AppPolicy) : PlatformEnrollmentRequest :=
  {| rID := ""; rTokenHash := ""; rComponentKind := PlatformComponentOther ""; rComponentName := "";
     rAppName := ""; rInstanceID := ""; rHostname := ""; rSystemFingerprint := ""; rApp := None;
     rOperator := None; rFingerprints := fingerprintsFromPayload None; rState := PlatformEnrollmentStateOther "";
     rAttemptCount := 0; rCreatedAt := apCreatedAt p; rExpiresAt := zero_time; rLastTransitionAt := zero_time;
     rApprovedByUserID := apApprovedByUserID p; rDecidedAt := None; rDecisionReason := "";
     rDecisionEnvelopeID := ""; rDecisionReceiptID := ""; rIssuanceEnvelopeID := ""; rIssuanceReceiptID := "";
     rIssuanceLeaseOwner := ""; rIssuanceLeaseExpiresAt := None; rOperatorID := ""; rOperatorSessionID := "";
     rCLISessionID := ""; rPolicyID := ""; rCertificateSerial := apCertificateSerial p;
     rCertificateFingerprint := apCertificateFingerprint p; rIssued := None; rCompletedAt := None;
     rRevokedAt := None; rRevokedByUserID := ""; rRevocationReason := ""; rRevocationEnvelopeID := "";
     rRevocationReceiptID := ""; rFailureReason := "" |}.

(** The statements on the collections and the clock that succeed: their answer and
    their effect.  The documents of every collection are in one table; those of
    [CollectionPlatformEnrollments] are the requests, whichever statement names it. *)
Definition run_stmt {B} (s : stmt B) (w : world) : option (B * world) :=
  match s in stmt B return option (B * world) with
  | TimeNow => Some (clock w, w)
  | DocSet id r => Some (Ok tt, with_requests (<[id := stored (clock w) (requests w !! id) r]> (requests w)) w)
  | DocGet id => Some (Ok (requests w !! id), w)
  | DocQuery filters ordered limit => Some (Ok (select filters ordered limit (requests w)), w)
  | DocConditionalUpdate id u state =>
      match requests w !! id with
      | Some r => if state_eqb (rState r) state
                  then Some (Ok true, with_requests (<[id := apply_update u r]> (requests w)) w)
                  else Some (Ok false, w)
      | None => Some (Ok false, w)
      end
  | DocDelete id => Some (Ok tt, with_requests (delete id (requests w)) w)
  | PolicyGet collection id =>
      Some (Ok (if String.eqb collection CollectionPlatformEnrollments then bool_decide (is_Some (requests w !! id))
                else bool_decide (is_Some (policies w !! (collection, id)))), w)
  | PolicySet collection id p =>
      Some (Ok tt, if String.eqb collection CollectionPlatformEnrollments
                   then with_requests (<[id := stored (clock w) (requests w !! id) (policy_as_request p)]> (requests w)) w
                   else with_policies (<[(collection, id) := p]> (policies w)) w)
  | PolicyDelete collection id =>
      Some (Ok tt, if String.eqb collection CollectionPlatformEnrollments
                   then with_requests (delete id (requests w)) w
                   else with_policies (delete (collection, id) (policies w)) w)
  | _ => None
  end.

(** The answer of a statement that fails without an effect. *)
Definition failed {B} (s : stmt B) (b : B) : Prop :=
  match s in stmt B return B -> Prop with
  | DocSet _ _ => fun b => exists e, b = Err e
  | DocGet _ => fun b => exists e, b = Err e
  | DocQuery _ _ _ => fun b => exists e, b = Err e
  | DocConditionalUpdate _ _ _ => fun b => exists e, b = Err e
  | DocDelete _ => fun b => exists e, b = Err e
  | PolicyGet _ _ => fun b => exists e, b = Err e
  | PolicySet _ _ _ => fun b => exists e, b = Err e
  | PolicyDelete _ _ => fun b => exists e, b = Err e
  | _ => fun _ => False
  end b.

(** The identifiers handed out; a random identifier is a new one. *)
Definition issued_id {B} (s : stmt B) (b : B) : option string :=
  match s in stmt B return B -> option string with
  | NewUUID => fun b => match b with Ok id => Some id | Err _ => None end
  | _ => fun _ => None
  end b.

(** The certificates signed: the CSR with the certificate. *)
Definition signed_certificate {B} (s : stmt B) (b : B) : list (string * string) :=
  match s in stmt B return B -> list (string * string) with
  | SignPlatformAppCSR csr _ _ => fun b => match b with Ok (cert, _) => [(csr, cert)] | Err _ => [] end
  | SignCSR csr _ _ _ _ _ => fun b => match b with Ok (cert, _) => [(csr, cert)] | Err _ => [] end
  | _ => fun _ => []
  end b.

Definition external_effect {B} (s : stmt B) (b : B) (w : world) : world :=
  {| requests := requests w; policies := policies w; clock := clock w;
     used_ids := match issued_id s b with Some id => {[ id ]} ∪ used_ids w | None => used_ids w end;
     certificates := certificates w ++ signed_certificate s b |}.

(** A statement runs, or fails without an effect; any other service may answer
    anything, an identifier excepted. *)
Definition effect (B : Type) (s : stmt B) (w : world) (b : B) (w' : world) : Prop :=
  match run_stmt s w with
  | Some (b', w1) => (b = b' /\ w' = w1) \/ (failed s b /\ w' = w)
  | None => (forall id, issued_id s b = Some id -> id ∉ used_ids w) /\ w' = external_effect s b w
  end.

(** What every answer satisfies: the rows of a query pass its filters, and the pipeline
    reports the failure of a handler. *)
Definition honest (B : Type) (s : stmt B) (b : B) : Prop :=
  match s in stmt B return B -> Prop with
  | DocQuery filters _ _ => fun b =>
      match b with Ok rows => Forall (fun row => forallb (fun f => holds f row.2) filters = true) rows | Err _ => True end
  | Finalize (Err _) => fun b => exists e, b = Err e
  | _ => fun _ => True
  end b.

(** Time passes, policies are edited elsewhere. *)
Definition drift (w w' : world) : Prop :=
  requests w' = requests w /\ used_ids w' = used_ids w /\ certificates w' = certificates w /\ (clock w <= clock w')%Z.

(** The policy a payload persists is not a document of the requests' collection.  The
    handler does not look at the collection ([EnrollmentSafety.policy_over_request]). *)
Definition policy_apart (p : EnrollmentPayload) : Prop :=
  pAction p = ActionPersistPolicy -> pTargetCollection p <> CollectionPlatformEnrollments.

(** The calls of the system: an envelope of another producer persists no policy among
    the requests, and decides nothing when decisions have to be the owner's. *)
Definition allowed (strict : bool) (c : call) : Prop :=
  match c with
  | CallEnvelope p _ _ => policy_apart p /\ (strict = true -> pAction p <> ActionDecide)
  | _ => True
  end.
