(* ===== verification/EnrollmentRun.v ===== *)
(** Platform enrollment, executed: schedules of operations as programs of the model, and
    the example environment that the witnesses run in. *)
From S2P Require Import Prelude Errors Encoding Procs EnrollmentModel Enrollment.
From Stdlib Require Import String Ascii List ZArith Lia Bool.
From stdpp Require Import base strings list gmap sorting.
Open Scope string_scope.
Open Scope list_scope.

(** The other services: the answer to the n-th step's statement. *)
Definition services : Type := nat -> forall B, stmt B -> B.

Definition answer (env : forall B, stmt B -> B) (B : Type) (s : stmt B) (w : world) : B * world :=
  match run_stmt s w with
  | Some bw => bw
  | None => let b := env B s in (b, external_effect s b w)
  end.

Notation esystem := (@system stmt world call response).

Section schedules.
Context {Csr Key Cert : Type} (lib : x509 Csr Key Cert) (posture : string) (connections : bool).
Context (env : services).

(** What a schedule does next. *)
Inductive action :=
| Spawn (c : call)
| Run (i : nat)
| Crash (i : nat)
| Wait (d : N).

Definition fresh {B} (s : stmt B) (b : B) (w : world) : bool :=
  match issued_id s b with Some id => bool_decide (id ∉ used_ids w) | None => true end.

Definition later (d : N) (w : world) : world :=
  {| requests := requests w; policies := policies w; clock := (clock w + Z.of_N d)%Z;
     used_ids := used_ids w; certificates := certificates w |}.

(** A step; running an operation that has returned changes nothing. *)
Definition act (n : nat) (a : action) (y : esystem) : option esystem :=
  match a with
  | Spawn c => Some (System (shared y) (threads y ++ [Thread c [] (Some (program lib posture connections c))]))
  | Run i =>
      match threads y !! i with
      | Some (Thread c h (Some (Do s k))) =>
          let '(b, w) := answer (env n) _ s (shared y) in
          if fresh s b (shared y)
          then Some (System w (<[i := Thread c (h ++ [Ev s b]) (Some (k b))]> (threads y)))
          else None
      | _ => Some y
      end
  | Crash i =>
      match threads y !! i with
      | Some (Thread c h p) => Some (System (shared y) (<[i := Thread c h None]> (threads y)))
      | None => Some y
      end
  | Wait d => Some (System (later d (shared y)) (threads y))
  end.

Fixpoint acts (n : nat) (l : list action) (y : esystem) : option esystem :=
  match l with
  | [] => Some y
  | a :: l => match act n a y with Some y => acts (S n) l y | None => None end
  end.

(** The requests a schedule leads to. *)
Definition outcome {A} (f : esystem -> A) (l : list action) (y : esystem) : option A := f <$> acts 0 l y.

Context (strict : bool).
Notation estep := (step honest effect (program lib posture connections) (allowed strict) drift).
Notation esteps := (steps honest effect (program lib posture connections) (allowed strict) drift).

(** The services answer what they can answer, and the calls are the system's. *)
Hypothesis env_honest : forall n B (s : stmt B), honest B s (env n B s).

Lemma answer_honest n B (s : stmt B) w : honest B s (answer (env n) B s w).1.
Proof.
  unfold answer. destruct s; simpl; try apply (env_honest n); try done.
  - apply Forall_forall. intros row Hrow. unfold select in Hrow.
    set (rows := List.filter _ _) in *.
    assert (Hr : row ∈ rows).
    { assert (H' : row ∈ if ordered then merge_sort row_le rows else rows).
      { destruct limit; [done|]. eapply subseteq_take; exact Hrow. }
      destruct ordered; [|done]. by rewrite merge_sort_Permutation in H'. }
    apply list_elem_of_In, filter_In in Hr. tauto.
  - destruct outcome0 as [|e]; [done|]. apply (env_honest n _ (Finalize (Err e))).
Qed.

Lemma answer_effect n B (s : stmt B) w :
  fresh s (answer (env n) B s w).1 w = true -> effect B s w (answer (env n) B s w).1 (answer (env n) B s w).2.
Proof.
  unfold answer, effect. destruct (run_stmt s w) as [[b w']|]; simpl; [by left|].
  unfold fresh. intros Hf. split; [|done]. intros id Hid. rewrite Hid in Hf. by apply bool_decide_eq_true_1 in Hf.
Qed.

Lemma act_sound n a y y' :
  act n a y = Some y' -> (forall c, a = Spawn c -> allowed strict c) -> y' = y \/ estep y y'.
Proof.
  destruct y as [w ts], a as [c|i|i|d]; simpl; intros Ha Hc.
  - simplify_eq. right. apply step_spawn. auto.
  - destruct (ts !! i) as [[c h [[r|B s k]|]]|] eqn:Hi; simplify_eq; [by left| |by left..].
    pose proof (answer_honest n B s w) as Hh. pose proof (answer_effect n B s w) as He.
    destruct (answer (env n) B s w) as [b w']. simpl in *. destruct (fresh s b w); simplify_eq.
    right. eapply step_run; [exact Hi|done|]. by apply He.
  - destruct (ts !! i) as [[c h p]|] eqn:Hi; simplify_eq; [|by left]. right. by eapply step_crash.
  - simplify_eq. right. apply step_drift. unfold drift. simpl. split_and!; try done. lia.
Qed.

Lemma acts_sound n l y y' :
  acts n l y = Some y' -> (forall c, Spawn c ∈ l -> allowed strict c) -> esteps y y'.
Proof.
  revert n y. induction l as [|a l IH]; intros n y; simpl; intros Ha Hc; [simplify_eq; apply steps_refl|].
  destruct (act n a y) as [y1|] eqn:Hact; [|done].
  assert (H1 : esteps y1 y') by (eapply IH; [exact Ha|intros c Hin; apply Hc; by right]).
  destruct (act_sound _ _ _ _ Hact) as [->|Hs]; [intros c ->; apply Hc; by left|done|].
  eapply steps_trans; [by apply steps_one|done].
Qed.

(** A check of the system a schedule leads to gives an execution. *)
Lemma outcome_sound {A} (f : esystem -> A) l y a :
  outcome f l y = Some a -> (forall c, Spawn c ∈ l -> allowed strict c) ->
  exists y', esteps y y' /\ f y' = a /\ acts 0 l y = Some y'.
Proof.
  unfold outcome. intros (y' & Ha & ->)%fmap_Some Hc. exists y'. split; [by eapply acts_sound|done].
Qed.

Lemma acts_app n l1 l2 y y' :
  acts n (l1 ++ l2) y = Some y' -> exists y1, acts n l1 y = Some y1 /\ acts (n + List.length l1) l2 y1 = Some y'.
Proof.
  revert n y. induction l1 as [|a l1 IH]; intros n y; simpl.
  - intros H. exists y. by rewrite Nat.add_0_r.
  - destruct (act n a y) as [y1|]; [|done]. intros (y2 & H1 & H2)%IH. exists y2. split; [done|].
    by rewrite <- Nat.add_succ_comm.
Qed.

Lemma acts_snoc n l a y y' :
  acts n (l ++ [a]) y = Some y' -> exists y1, acts n l y = Some y1 /\ act (n + List.length l) a y1 = Some y'.
Proof.
  intros (y1 & H1 & H2)%acts_app. exists y1. split; [done|]. simpl in H2. by destruct (act _ a y1).
Qed.

End schedules.

(** ** An example *)

(** Certificates and CSRs that are their own text. *)
Definition ex_lib : x509 string string string :=
  {| pem_decode := fun s => if str_nonempty s then Some ("CERTIFICATE REQUEST", s, "") else None;
     parse_certificate_request := fun s => Ok s; check_signature := fun _ => Ok tt;
     csr_key := fun s => Some s; marshal_key := fun s => Ok s; verify_asn1 := fun _ _ _ => true;
     marshal_transcript := fun t => Ok (ctRequestId t +:+ ctTokenHash t +:+ ctInstanceId t);
     parse_certificate := fun s => Ok s; cert_raw := fun s => s; cert_serial := fun s => s;
     cert_uris := fun s => ["spiffe://g8e.local/" +:+ s]; cert_not_after := fun _ => 0%Z;
     is_letter := fun r => (97 <=? r)%Z && (r <=? 122)%Z; is_digit := fun r => (48 <=? r)%Z && (r <=? 57)%Z |}.

(** A text for the n-th step. *)
Definition ex_text (kind : string) (n : nat) : string :=
  kind +:+ hex_encode (String (ascii_of_nat (n / 256)) (String (ascii_of_nat (n mod 256)) "")).

Definition ex_owner : User := {| usID := "owner"; usStatus := "active"; usOrganizationID := "org" |}.
Definition ex_org : Organization := {| ogID := "org"; ogOwnerUserID := "owner"; ogMemberUserIDs := [] |}.

(** Services at their best; certificates and identifiers differ from step to step. *)
Definition ex_env : services := fun n B s =>
  match s in stmt B return B with
  | TimeNow => 0%Z
  | NewUUID => Ok (ex_text "id-" n)
  | RandRead k => Ok (string_of_list_ascii (repeat "k"%char k))
  | CtxErr => Ok tt
  | DocSet _ _ => Ok tt
  | DocGet _ => Ok None
  | DocQuery _ _ _ => Ok []
  | DocConditionalUpdate _ _ _ => Ok false
  | DocDelete _ => Ok tt
  | PolicyGet _ _ => Ok false
  | PolicySet _ _ _ => Ok tt
  | PolicyDelete _ _ => Ok tt
  | HasAnyUsers => Ok true
  | GetByID _ => Ok (Some ex_owner)
  | IsFirstUser u => Ok (String.eqb u "owner")
  | UserGet _ => Ok (Some ex_owner)
  | OrganizationGet _ => Ok (Some ex_org)
  | OperatorSet _ _ => Ok tt
  | OperatorQuery _ _ => Ok []
  | OperatorTerminate _ _ _ => Ok tt
  | NotifyOperatorEnrolled _ _ _ => tt
  | PersistCLISession _ _ _ _ _ _ => Ok tt
  | DeactivateCLISession _ => Ok tt
  | PersistOperatorSession _ _ _ _ _ => Ok tt
  | DeactivateOperatorSession _ => Ok tt
  | DisconnectIdentity _ => 0%Z
  | EnrollmentsChanged => tt
  | GatewayTrustBundle => Ok "bundle"
  | SignPlatformAppCSR _ _ _ => Ok (ex_text "cert-" n, "chain")
  | SignCSR _ _ _ _ _ _ => Ok (ex_text "cert-" n, "chain")
  | RevokeCertificate _ _ => Ok tt
  | GetCurrentStateRoot => Ok "root"
  | Submit _ _ _ => Passed (ex_text "msg-" n)
  | Finalize r => match r with Ok _ => Ok true | Err e => Err e end
  end.

Lemma ex_env_honest n B (s : stmt B) : honest B s (ex_env n B s).
Proof. destruct s; simpl; try done. destruct outcome0; [done|by eexists]. Qed.

Definition ex_request : PlatformEnrollmentCreateRequest :=
  {| crComponentKind := PlatformComponentDashboard; crAppName := ""; crInstanceID := "dash-1";
     crHostname := "host"; crSystemFingerprint := ""; crApp := Some "CSR"; crOperator := None |}.

Definition ex_world : world :=
  {| requests := ∅; policies := ∅; clock := 1767322799000000000; used_ids := ∅; certificates := [] |}.

Definition ex_start : esystem := System ex_world [].

Definition ex_token : string := rawurl_encode (string_of_list_ascii (repeat "k"%char 32)).
Definition ex_proofs : PlatformEnrollmentProofs := {| prApp := "c2ln"; prOperator := ""; prCLI := "" |}.

(** The operations of a request's life, each to its end. *)
Definition to_end (i : nat) : list action := repeat (Run i) 40.
Definition ex_create : list action := Spawn (CallCreateRequest ex_request "") :: to_end 0.
Definition ex_id : string := "id-0007".
Definition ex_decide : list action :=
  Spawn (CallDecide "owner" {| drRequestID := ex_id; drDecision := PlatformEnrollmentDecisionApprove; drReason := "" |}) :: to_end 1.
Definition ex_complete (i : nat) : list action := Spawn (CallComplete ex_token ex_proofs) :: to_end i.

Definition states_of (y : esystem) : list (string * PlatformEnrollmentState) :=
  map (fun row => (row.1, rState row.2)) (map_to_list (requests (shared y))).
