(* ===== verification/EnrollmentSafety.v ===== *)
(** Platform enrollment under interleaving: what every operation may do to the stored
    requests, whatever the other services answer, and what follows for any number of
    operations that run at once, fail at any statement, or stop half-way. *)
From S2P Require Import Prelude Errors Procs EnrollmentModel Enrollment EnrollmentRun.
From Stdlib Require Import String List ZArith Lia Bool.
From stdpp Require Import base strings list gmap sorting.
Open Scope string_scope.
Open Scope list_scope.
Open Scope proc_scope.

(** ** The life of a request *)

(** [validatePlatformEnrollmentTransition], and the revocation of a completed request. *)
Definition legal (from to : PlatformEnrollmentState) : bool :=
  is_ok (validatePlatformEnrollmentTransition from to) ||
  (state_eqb from PlatformEnrollmentStateCompleted && state_eqb to PlatformEnrollmentStateRevoked).

(** A state of the program. *)
Definition named (s : PlatformEnrollmentState) : bool :=
  match s with PlatformEnrollmentStateOther _ => false | _ => true end.

(** The states from which an update is made. *)
Definition lawful_update (u : update) (from : PlatformEnrollmentState) : bool :=
  match u with
  | UpdateApproved _ | UpdateRollback _ | UpdateCompletion _ _ _ _ _ _ _ _ => state_eqb from PlatformEnrollmentStateIssuing
  | UpdateExpired _ => negb (IsTerminal from)
  | UpdateLease _ _ _ => state_eqb from PlatformEnrollmentStateApproved
  | UpdateDecision to _ _ _ =>
      state_eqb from PlatformEnrollmentStatePending &&
      (state_eqb to PlatformEnrollmentStateApproved || state_eqb to PlatformEnrollmentStateDenied)
  | UpdateRevocation _ _ _ _ => state_eqb from PlatformEnrollmentStateCompleted
  end.

(** A request that may be cleaned up. *)
Definition disposable (s : PlatformEnrollmentState) : bool :=
  state_eqb s PlatformEnrollmentStateDenied || state_eqb s PlatformEnrollmentStateExpired.

(** Decides the equalities between states and kinds. *)
Ltac states :=
  unfold state_eqb, kind_eqb, decision_eqb in *;
  repeat match goal with
  | H : bool_decide _ = true |- _ => apply bool_decide_eq_true_1 in H
  | H : bool_decide _ = false |- _ => apply bool_decide_eq_false_1 in H
  | H : _ || _ = true |- _ => apply orb_true_iff in H as [H|H]
  | H : _ && _ = true |- _ => apply andb_true_iff in H as [? ?]
  end; simplify_eq.

Lemma lawful_legal u from : named from = true -> lawful_update u from = true -> legal from (update_state u) = true.
Proof. destruct u, from; simpl; intros Hn H; try done; states; done. Qed.

Lemma lawful_named u from : lawful_update u from = true -> named (update_state u) = true.
Proof. destruct u; simpl; intros H; try done; states; done. Qed.

(** ** The rule *)

Section rule.
(** Who may be recorded as having decided, and which documents may be deleted. *)
Context (may_decide : string -> Prop) (may_delete : string -> Prop).

(** What a statement other than the creation of a request may do. *)
Definition plain (B : Type) (s : stmt B) : Prop :=
  match s with
  | DocConditionalUpdate id u from =>
      lawful_update u from = true /\ (forall to actor m now, u = UpdateDecision to actor m now -> may_decide actor)
  | DocSet _ _ => False
  | DocDelete id => may_delete id
  | PolicySet collection _ _ | PolicyDelete collection _ => collection <> CollectionPlatformEnrollments
  | _ => True
  end.

Definition safe {A} (p : proc stmt A) : Prop := each honest plain p (fun _ => True).

Lemma safe_ret {A} (a : A) : safe (Ret a).
Proof. done. Qed.

Lemma safe_bind {A B} (p : proc stmt A) (f : A -> proc stmt B) : safe p -> (forall a, safe (f a)) -> safe (proc_bind p f).
Proof. intros Hp Hf. apply each_bind. eapply each_mono; [exact Hp|]. intros a _. apply Hf. Qed.

Lemma safe_ep_bind {A B} (p : eproc A) (f : A -> eproc B) : safe p -> (forall a, safe (f a)) -> safe (ep_bind p f).
Proof. intros Hp Hf. apply safe_bind; [done|]. intros []; [apply Hf|done]. Qed.

Lemma safe_wrap {A} fmt (p : eproc A) : safe p -> safe (ep_wrap fmt p).
Proof. intros Hp. by apply safe_bind. Qed.

Lemma safe_each {X S} (l : list X) (body : X -> S -> proc stmt S) s :
  (forall x s, safe (body x s)) -> safe (proc_each l body s).
Proof. intros H. apply each_each. intros x s' _. apply H. Qed.

Lemma safe_ask {B} (s : stmt B) : plain B s -> safe (ask s).
Proof. done. Qed.

Lemma safe_asking {A} fmt (s : stmt (result A)) : plain _ s -> safe (asking fmt s).
Proof. done. Qed.

Lemma safe_asks {A} (s : stmt (result A)) : plain _ s -> safe (asks s).
Proof. done. Qed.

Lemma safe_tell {A} (s : stmt A) : plain _ s -> safe (tell s).
Proof. done. Qed.

(** What is known of the answer of a query that succeeded. *)
Lemma safe_query {A} fmt filters ordered limit (f : list (string * PlatformEnrollmentRequest) -> eproc A) :
  (forall rows, Forall (fun row => forallb (fun f => holds f row.2) filters = true) rows -> safe (f rows)) ->
  safe (ep_bind (asking fmt (DocQuery filters ordered limit)) f).
Proof.
  intros H. apply each_ep_bind, each_wrap. split; [done|]. intros [rows|e]; simpl; [|done]. apply H.
Qed.

(** The guards of the code. *)
Lemma safe_ensure {A} (cond : bool) err (f : unit -> eproc A) :
  (cond = true -> safe (f tt)) -> safe (ep_bind (ensure cond err) f).
Proof. intros H. destruct cond; simpl; [by apply H|done]. Qed.

Lemma safe_lift {A B} (r : result A) (f : A -> eproc B) :
  (forall a, r = Ok a -> safe (f a)) -> safe (ep_bind (ep_lift r) f).
Proof. intros H. destruct r; simpl; [by apply H|done]. Qed.

End rule.

#[export] Hint Resolve safe_ret : enrollment.

(** Walks an operation: binds, loops, branches; the statements that only read are
    closed, what is left are the updates. *)
Ltac walk1 :=
  match goal with
  | |- safe _ _ (ep_bind (ensure _ _) _) => apply safe_ensure; intros ?
  | |- safe _ _ (ep_bind (ep_lift _) _) => apply safe_lift; intros ? ?
  | |- safe _ _ (ep_bind _ _) => apply safe_ep_bind; [|intros ?]
  | |- safe _ _ (proc_bind _ _) => apply safe_bind; [|intros ?]
  | |- safe _ _ (ep_wrap _ _) => apply safe_wrap
  | |- safe _ _ (proc_each _ _ _) => apply safe_each; intros ? ?
  | |- safe _ _ (Ret _) => exact I
  | |- safe _ _ (ep_lift _) => exact I
  | |- safe _ _ (ep_err _) => exact I
  | |- safe _ _ (ensure ?c _) => destruct c; exact I
  | |- safe _ _ (ask _) => apply safe_ask; cbn [plain]; try first [exact I | discriminate]
  | |- safe _ _ (asking _ _) => apply safe_asking; cbn [plain]; try first [exact I | discriminate]
  | |- safe _ _ (asks _) => apply safe_asks; cbn [plain]; try first [exact I | discriminate]
  | |- safe _ _ (tell _) => apply safe_tell; cbn [plain]; try first [exact I | discriminate]
  | |- safe _ _ (match ?x with _ => _ end) => destruct x eqn:?
  | |- safe _ _ (let '(_, _) := ?x in _) => destruct x
  end.
Ltac walk := repeat (walk1 || solve [auto with enrollment nocore]).

(** ** Every operation keeps the rule *)

Section operations.
Context {Csr Key Cert : Type} (lib : x509 Csr Key Cert) (posture : string) (connections : bool).
Context (may_decide : string -> Prop) (may_delete : string -> Prop).
Notation safe := (safe may_decide may_delete).

Lemma existing_request_safe id : safe (existing_request id).
Proof. unfold existing_request, loadPlatformEnrollmentRequest. walk. Qed.

Lemma known_request_safe id : safe (known_request id).
Proof. unfold known_request, loadByID. walk. Qed.

Lemma loadByToken_safe token : safe (loadByToken token).
Proof. unfold loadByToken. walk. Qed.

Lemma organization_safe userID : safe (loadPlatformEnrollmentOrganization userID).
Proof. unfold loadPlatformEnrollmentOrganization. walk. Qed.
#[local] Hint Resolve existing_request_safe known_request_safe loadByToken_safe organization_safe : enrollment.

(** An update that is no decision. *)
Lemma plain_update u from :
  lawful_update u from = true -> (forall to actor m now, u <> UpdateDecision to actor m now) ->
  lawful_update u from = true /\ (forall to actor m now, u = UpdateDecision to actor m now -> may_decide actor).
Proof. intros Hl Hu. split; [done|]. intros to actor m now ->. by destruct (Hu to actor m now). Qed.

Lemma expireRequest_safe r : IsTerminal (rState r) = false -> safe (expireRequest r).
Proof. intros H. unfold expireRequest. walk. apply plain_update; [cbn [lawful_update]; by rewrite H|done]. Qed.

Lemma rollbackLease_safe id : safe (rollbackLease id).
Proof. unfold rollbackLease. walk. by apply plain_update. Qed.
#[local] Hint Resolve expireRequest_safe rollbackLease_safe : enrollment.

Lemma first_live_safe now fps docs : safe (first_live now fps docs).
Proof. induction docs as [|[id r] docs IH]; cbn [first_live]; walk. Qed.

Lemma terminate_leases_safe id docs : safe (terminate_leases id docs).
Proof. induction docs as [|d docs IH]; cbn [terminate_leases]; walk. Qed.
#[local] Hint Resolve first_live_safe terminate_leases_safe : enrollment.

Lemma findLiveRequest_safe kind id fps : safe (findLiveRequest kind id fps).
Proof. unfold findLiveRequest. walk. Qed.

Lemma checkQuota_safe kind : safe (checkQuota kind).
Proof. unfold checkQuota, count_live. walk. Qed.

Lemma signComponent_safe r actor : safe (signComponent lib posture r actor).
Proof. unfold signComponent, signAppComponent, signOperatorComponent, supersedeOperatorLeases. walk. Qed.
#[local] Hint Resolve signComponent_safe : enrollment.

(** The handlers; a decision records the actor of its payload. *)
Lemma handle_safe msgID p :
  policy_apart p -> (pAction p = ActionDecide -> may_decide (pActorUserId p)) ->
  safe (handle lib posture connections msgID p).
Proof.
  intros Hp Hd. unfold handle. destruct (pAction p) eqn:Ha.
  - unfold HandleCreate. walk.
  - unfold HandleDecide. walk. split; [|by intros ? ? ? ? [= <- <- <- <-]; apply Hd].
    simpl. match goal with H : match _ with _ => _ end = Ok _ |- _ => revert H end. by destruct a; intros [= <-].
  - unfold HandleIssue. walk; by apply plain_update.
  - unfold HandlePersistPolicy. walk.
  - unfold HandleCreateSession. walk.
  - unfold HandleRevoke, revoke_app, revoke_operator, tolerating. walk; by apply plain_update.
Qed.

Lemma ProcessEnvelope_safe p root nonce :
  policy_apart p -> (pAction p = ActionDecide -> may_decide (pActorUserId p)) ->
  safe (ProcessEnvelope lib posture connections p root nonce).
Proof. intros Hp Hd. unfold ProcessEnvelope. walk. by apply handle_safe. Qed.

Lemma submitEnvelope_safe p :
  policy_apart p -> (pAction p = ActionDecide -> may_decide (pActorUserId p)) -> safe (submitEnvelope lib posture connections p).
Proof.
  intros Hp Hd. unfold submitEnvelope. generalize platformEnrollmentStateRootMaxRetries as n.
  induction n as [|n IH]; cbn [submit_attempts]; unfold generateNonce; walk; by apply ProcessEnvelope_safe.
Qed.

Lemma submit_other_safe p :
  policy_apart p -> pAction p <> ActionDecide -> safe (submitEnvelope lib posture connections p).
Proof. intros Hp H. apply submitEnvelope_safe; [done|]. by intros ?. Qed.
#[local] Hint Resolve submit_other_safe findLiveRequest_safe checkQuota_safe : enrollment.

Lemma downstream_safe r : safe (submitDownstreamEnvelopes lib posture connections r).
Proof. unfold submitDownstreamEnvelopes. walk; by apply submit_other_safe. Qed.
#[local] Hint Resolve downstream_safe : enrollment.

Lemma issueComponent_safe r : safe (issueComponent lib posture connections r).
Proof.
  unfold issueComponent. walk; [by apply plain_update|by apply submit_other_safe].
Qed.
#[local] Hint Resolve issueComponent_safe : enrollment.

Lemma Complete_safe token proofs : safe (Complete lib posture connections token proofs).
Proof.
  unfold Complete. walk.
  match goal with H : _ && _ = true |- _ => apply andb_true_iff in H as [_ H]; apply negb_true_iff in H end.
  by apply expireRequest_safe.
Qed.

Lemma GetStatus_safe token : safe (GetStatus token).
Proof. unfold GetStatus. walk. Qed.

Lemma ListEnrolled_safe : safe ListEnrolled.
Proof. unfold ListEnrolled. walk. Qed.

Lemma pending_live r : negb (state_eqb (rState r) PlatformEnrollmentStatePending) = false -> IsTerminal (rState r) = false.
Proof. intros H%negb_false_iff. states. by rewrite H. Qed.

Lemma ListPending_safe : safe ListPending.
Proof. unfold ListPending, list_pending_row. walk. by apply expireRequest_safe, pending_live. Qed.

Lemma authorize_owner_safe what actor : safe (authorize_owner what actor).
Proof. unfold authorize_owner. walk. Qed.
#[local] Hint Resolve authorize_owner_safe : enrollment.

Lemma Revoke_safe actor req : safe (Revoke lib posture connections actor req).
Proof. unfold Revoke, loadByID. walk. by apply submit_other_safe. Qed.

(** Reconciliation reads requests that are being issued. *)
Lemma Reconcile_safe : safe ReconcileExpiredLeases.
Proof.
  unfold ReconcileExpiredLeases. apply safe_query. intros rows Hrows. walk1; [walk|]. walk1; [|walk].
  apply each_each. intros row s Hrow. rewrite Forall_forall in Hrows. pose proof (Hrows _ Hrow) as Hs. simpl in Hs.
  rewrite andb_true_r in Hs. change (safe (reconcile_row a row s)). unfold reconcile_row. walk.
  - apply expireRequest_safe. states. by rewrite Hs.
  - by apply plain_update.
Qed.

End operations.

(** ** The rule with the history of the operation *)

(** The account was seen to be active and the first one. *)
Definition owner_seen (h : list (@event stmt)) (userID : string) : Prop :=
  (exists u, Ev (GetByID userID) (Ok (Some u)) ∈ h /\ IsActive u = true) /\
  Ev (IsFirstUser userID) (Ok true) ∈ h.

Definition event_id (e : @event stmt) : option string := issued_id (stm e) (ans e).
Definition id_drawn (h : list (@event stmt)) (id : string) : Prop := exists e, e ∈ h /\ event_id e = Some id.

Definition creates {B} (s : stmt B) : bool := match s with DocSet _ _ => true | _ => false end.

(** The rows a query was answered. *)
Definition rows_read {B} (s : stmt B) (b : B) : list (string * PlatformEnrollmentRequest) :=
  match s in stmt B return B -> list (string * PlatformEnrollmentRequest) with
  | DocQuery _ _ _ => fun b => match b with Ok rows => rows | Err _ => [] end
  | _ => fun _ => []
  end b.
Definition event_rows (e : @event stmt) : list (string * PlatformEnrollmentRequest) := rows_read (stm e) (ans e).

(** The document was listed as denied or expired. *)
Definition listed (h : list (@event stmt)) (id : string) : Prop :=
  exists e row, e ∈ h /\ row ∈ event_rows e /\ row.1 = id /\ disposable (rState row.2) = true.

(** [strict]: a decision is recorded only after its actor was seen to be the owner. *)
Definition rule (strict : bool) (h : list (@event stmt)) (B : Type) (s : stmt B) : Prop :=
  match s with
  | DocConditionalUpdate id u from =>
      lawful_update u from = true /\
      (forall to actor m now, u = UpdateDecision to actor m now -> strict = true -> owner_seen h actor)
  | DocSet id r =>
      rState r = PlatformEnrollmentStatePending /\ rID r = id /\ id_drawn h id /\
      Forall (fun e => creates (stm e) = false) h
  | DocDelete id => listed h id
  | PolicySet collection _ _ | PolicyDelete collection _ => collection <> CollectionPlatformEnrollments
  | _ => True
  end.

Lemma owner_seen_app h l u : owner_seen h u -> owner_seen (h ++ l) u.
Proof. intros [(usr & H1 & H2) H3]. split; [exists usr; split; [|done]|]; apply elem_of_app; by left. Qed.

Lemma listed_app h l id : listed h id -> listed (h ++ l) id.
Proof. intros (e & row & H & Hr). exists e, row. split; [apply elem_of_app; by left|done]. Qed.

Section programs.
Context {Csr Key Cert : Type} (lib : x509 Csr Key Cert) (posture : string) (connections : bool).
Context (strict : bool).
Notation every p := (every honest (rule strict) p (fun _ _ => True)).

Lemma plain_rule h (may_decide may_delete : string -> Prop) l B (s : stmt B) :
  (forall u, strict = true -> may_decide u -> owner_seen h u) -> (forall id, may_delete id -> listed h id) ->
  plain may_decide may_delete B s -> rule strict (h ++ l) B s.
Proof.
  intros Hd Hdel. destruct s; simpl; try done.
  - intros [Hl Hu]. split; [done|]. intros to actor m now He Hs. eapply owner_seen_app, Hd; eauto.
  - intros H. by apply listed_app, Hdel.
Qed.

(** The rest of an operation that creates nothing any more. *)
Lemma every_safe {A} (p : proc stmt A) h (may_decide may_delete : string -> Prop) :
  (forall u, strict = true -> may_decide u -> owner_seen h u) -> (forall id, may_delete id -> listed h id) ->
  safe may_decide may_delete p -> every p h.
Proof.
  intros Hd Hdel Hs. rewrite <- (app_nil_r h). eapply every_mono; [eapply each_every with (ok0 := plain may_decide may_delete); [|constructor|exact Hs]|done].
  intros l B s _. by apply plain_rule.
Qed.

Definition quiet (e : @event stmt) : Prop := plain (fun _ => False) (fun _ => False) _ (stm e).

Lemma quiet_creates h : Forall quiet h -> Forall (fun e => creates (stm e) = false) h.
Proof. intros H. eapply Forall_impl; [exact H|]. intros [B s b]. unfold quiet. by destruct s. Qed.

(** A part that decides, deletes and creates nothing, before anything was. *)
Lemma every_quiet_bind {A B} (p : eproc A) (f : A -> eproc B) h :
  safe (fun _ => False) (fun _ => False) p -> Forall quiet h ->
  (forall a l, Forall quiet (h ++ l) -> every (f a) (h ++ l)) -> every (ep_bind p f) h.
Proof.
  intros Hs Hh Hf. apply every_ep_bind. rewrite <- (app_nil_r h).
  eapply every_mono; [eapply each_every with (ok0 := plain (fun _ => False) (fun _ => False)) (h0 := h) (l := [])|]; [| |exact Hs|].
  - intros l C s _. by apply plain_rule.
  - done.
  - intros h' r (_ & l & -> & Hl). destruct r as [a|e]; [|done]. apply Hf. by apply Forall_app.
Qed.

Lemma every_ensure {A} (cond : bool) err (f : unit -> eproc A) h :
  (cond = true -> every (f tt) h) -> every (ep_bind (ensure cond err) f) h.
Proof. intros H. destruct cond; simpl; [by apply H|done]. Qed.

Lemma every_lift {A B} (r : result A) (f : A -> eproc B) h :
  (forall a, r = Ok a -> every (f a) h) -> every (ep_bind (ep_lift r) f) h.
Proof. intros H. destruct r; simpl; [by apply H|done]. Qed.

Lemma CreateRequest_every req base : every (CreateRequest lib posture connections req base) [].
Proof.
  unfold CreateRequest. apply every_quiet_bind; [walk|done|]. intros hasUsers l0 H0. simpl in *.
  apply every_ensure. intros _. apply every_lift. intros fps _. apply every_lift. intros name _.
  apply every_quiet_bind; [apply safe_wrap, findLiveRequest_safe|done|]. intros [r|] l1 H1; [done|].
  apply every_quiet_bind; [apply checkQuota_safe|done|]. intros _ l2 H2.
  apply every_quiet_bind; [unfold newPlatformEnrollmentToken; walk|done|]. intros token l3 H3.
  set (h := _ ++ l3) in *. apply every_ep_bind. split; [done|]. intros [id|e] _; [|done].
  split; [done|]. intros now _. apply every_ep_bind. cbn [asking ep_wrap proc_bind ask Procs.every].
  split.
  - split; [done|]. split; [done|]. split.
    + eexists. split; [rewrite !elem_of_app; left; right; by left|done].
    + rewrite <- app_assoc. apply Forall_app. split; [by apply quiet_creates|]. by repeat constructor.
  - intros r _. destruct r as [[]|e]; [|done]. cbn [wrap_err]. eapply (every_safe _ _ (fun _ => False) (fun _ => False)); [done..|].
    walk. by apply submit_other_safe.
Qed.

Lemma authorize_owner_every what actor :
  Procs.every honest (rule strict) (authorize_owner what actor) (fun h r => forall u, r = Ok u -> owner_seen h actor) [].
Proof.
  split; [done|]. intros [[u|]|e] _; [|done..]. cbn. destruct (IsActive u) eqn:Hu; [|done].
  split; [done|]. intros [[]|e] _; [|done..]. intros _ _.
  split; [exists u; split; [by left|done]|]. right. by left.
Qed.

Lemma Decide_every actor req : every (Decide lib posture connections actor req) [].
Proof.
  unfold Decide. apply every_lift. intros _ _. apply every_ensure. intros _.
  apply every_ep_bind. eapply every_mono; [apply authorize_owner_every|].
  intros h [u|e] Hu; [|done]. specialize (Hu u eq_refl).
  eapply (every_safe _ _ (fun u => u = actor) (fun _ => False)); [by intros v _ ->|done|].
  walk.
  - apply known_request_safe.
  - by apply expireRequest_safe.
  - by apply submitEnvelope_safe.
  - apply known_request_safe.
Qed.

(** The rows a cleanup deletes were listed as denied or expired. *)
Lemma cleanupFiltered_every state filters h :
  disposable state = true -> every (cleanupFiltered (FilterState state :: filters)) h.
Proof.
  intros Hs. unfold cleanupFiltered. apply every_ep_bind. split; [done|].
  intros [rows|e] Hrows; cbn [proc_bind Procs.every wrap_err]; [|done]. set (h' := h ++ _).
  apply (every_safe _ h' (fun _ => False) (listed h')); [done..|].
  apply safe_bind; [|done]. apply each_each. intros row [] Hrow.
  simpl. split; [|done]. eexists _, row. split_and!; [apply elem_of_app; right; by left|done|done|].
  pose proof (proj1 (Forall_forall _ _) Hrows _ Hrow) as H. simpl in H.
  apply andb_true_iff in H as [H _]. apply bool_decide_eq_true_1 in H. by rewrite H.
Qed.

Lemma cleanup_tick_every : every cleanup_tick [].
Proof.
  unfold cleanup_tick. apply every_bind.
  eapply every_mono; [eapply (every_safe _ [] (fun _ => False) (fun _ => False)); [done..|apply Reconcile_safe]|].
  intros h _ _. apply every_bind. unfold CleanupTerminalRequests. split; [done|]. intros now _.
  cbn [proc_bind]. apply every_ep_bind.
  eapply every_mono; [by apply cleanupFiltered_every|]. intros h' [[]|e] _; [|done].
  eapply every_mono; [by apply cleanupFiltered_every|done].
Qed.

Lemma every_respond {A} (f : result A -> response) (p : eproc A) h : every p h -> every (respond f p) h.
Proof. intros H. apply every_bind. eapply every_mono; [exact H|done]. Qed.

(** Whatever it is answered, every operation keeps the rule. *)
Lemma programs_keep c : allowed strict c -> every (program lib posture connections c) [].
Proof.
  intros Hc.
  assert (Hsafe : forall A (p : proc stmt A), safe (fun _ => False) (fun _ => False) p -> every p []).
  { intros A p. by apply every_safe. }
  destruct c as [req base|token|actor req|actor req| | |token proofs| |p root nonce]; cbn [program];
    try apply every_respond.
  - apply CreateRequest_every.
  - apply Hsafe, GetStatus_safe.
  - apply Decide_every.
  - apply Hsafe, Revoke_safe.
  - apply Hsafe, ListEnrolled_safe.
  - apply Hsafe, ListPending_safe.
  - apply Hsafe, Complete_safe.
  - apply cleanup_tick_every.
  - apply (every_safe _ [] (fun _ => strict = false) (fun _ => False)); [by intros u -> |done|].
    destruct Hc as [Hp Hc]. apply ProcessEnvelope_safe; [done|]. intros Ha. destruct strict; [|done]. by destruct (Hc eq_refl).
Qed.
End programs.

(** ** What a statement does to the stored requests *)

Inductive write :=
| WriteNew (id : string) (r : PlatformEnrollmentRequest)
| WriteUpdate (id : string) (u : update) (from : PlatformEnrollmentState)
| WriteDelete (id : string).

Definition written {B} (s : stmt B) : option write :=
  match s with
  | DocSet id r => Some (WriteNew id r)
  | DocConditionalUpdate id u from => Some (WriteUpdate id u from)
  | DocDelete id => Some (WriteDelete id)
  | _ => None
  end.

(** The requests after a write that took effect. *)
Definition wrote (w : write) (now : Z) (m m' : gmap string PlatformEnrollmentRequest) : Prop :=
  match w with
  | WriteNew id r => m' = <[id := stored now (m !! id) r]> m
  | WriteUpdate id u from => exists r, m !! id = Some r /\ rState r = from /\ m' = <[id := apply_update u r]> m
  | WriteDelete id => m' = delete id m
  end.

(** A statement on another collection names that one. *)
Definition apart {B} (s : stmt B) : Prop :=
  match s with
  | PolicySet collection _ _ | PolicyDelete collection _ => collection <> CollectionPlatformEnrollments
  | _ => True
  end.

Lemma rule_apart strict h B (s : stmt B) : rule strict h B s -> apart s.
Proof. by destruct s. Qed.

Lemma effect_requests B (s : stmt B) w b w' :
  apart s -> effect B s w b w' ->
  requests w' = requests w \/ exists d, written s = Some d /\ wrote d (clock w) (requests w) (requests w').
Proof.
  intros Ha He. unfold effect in He. destruct s; simpl in *;
    try (apply String.eqb_neq in Ha; rewrite Ha in He);
    try (destruct He as [_ ->]; by left); try (destruct He as [[-> ->]|[_ ->]]; by left);
    try (destruct He as [[-> ->]|[_ ->]]; [right; eexists; split; [done|]; done|by left]).
  destruct (requests w !! id) as [r|] eqn:Hr; [|destruct He as [[-> ->]|[_ ->]]; by left].
  destruct (state_eqb (rState r) state) eqn:Hs; (destruct He as [[-> ->]|[_ ->]]; [|by left]); [|by left].
  right. eexists. split; [done|]. states. by exists r.
Qed.

Lemma effect_ids B (s : stmt B) w b w' :
  effect B s w b w' ->
  used_ids w ⊆ used_ids w' /\
  (forall id, issued_id s b = Some id -> id ∉ used_ids w /\ id ∈ used_ids w').
Proof.
  intros He. unfold effect in He. destruct s; simpl in He |- *;
    try destruct (String.eqb collection CollectionPlatformEnrollments);
    try (destruct He as [_ ->]; simpl; split; [set_solver|done]);
    try (destruct He as [[-> ->]|[_ ->]]; simpl; (split; [set_solver|done])).
  - destruct He as [Hf ->]. destruct b as [id|e]; simpl in *; (split; [set_solver|]); [|done].
    intros id' [= <-]. split; [by apply Hf|set_solver].
  - destruct (requests w !! id) as [r|]; [destruct (state_eqb _ _)|]; destruct He as [[-> ->]|[_ ->]]; simpl; (split; [set_solver|done]).
Qed.

(** The rows of a query are documents of the collection. *)
Lemma elem_of_filter_list {A} (f : A -> bool) l x : x ∈ List.filter f l <-> x ∈ l /\ f x = true.
Proof. rewrite !list_elem_of_In. apply filter_In. Qed.

Lemma elem_of_select filters ordered limit m row :
  row ∈ select filters ordered limit m -> m !! row.1 = Some row.2.
Proof.
  unfold select. set (rows := List.filter _ _). intros H.
  assert (Hr : row ∈ rows).
  { assert (H' : row ∈ if ordered then merge_sort row_le rows else rows).
    { destruct limit; [done|]. eapply subseteq_take; exact H. }
    destruct ordered; [|done]. by rewrite merge_sort_Permutation in H'. }
  apply elem_of_filter_list in Hr as [Hr _]. destruct row. by apply elem_of_map_to_list in Hr.
Qed.

Lemma effect_rows B (s : stmt B) w b w' row :
  effect B s w b w' -> row ∈ rows_read s b -> requests w !! row.1 = Some row.2 /\ requests w' = requests w.
Proof.
  intros He Hr. destruct s; simpl in *; try set_solver.
  destruct He as [[-> ->]|[[e ->] ->]]; [|set_solver]. split; [by eapply elem_of_select|done].
Qed.

(** ** The invariant of a system of operations *)

Definition event_creates (e : @event stmt) (id : string) : Prop := exists r, written (stm e) = Some (WriteNew id r).
Definition created (h : list (@event stmt)) (id : string) : Prop := exists e, e ∈ h /\ event_creates e id.

Lemma creates_created h id : Forall (fun e => creates (stm e) = false) h -> ~ created h id.
Proof.
  intros Hf (e & He & r & Hw). rewrite Forall_forall in Hf. specialize (Hf _ He).
  destruct e as [B s b]; simpl in *. by destruct s.
Qed.

Definition history := list (@event stmt).

Definition someone_created (hs : list history) (id : string) : Prop :=
  exists i h, hs !! i = Some h /\ created h id.

(** [base]: the identifiers in use when the system started. *)
Record inv (base : gset string) (hs : list history) (w : world) : Prop := {
  inv_present : forall id r, requests w !! id = Some r -> id ∈ base \/ someone_created hs id;
  inv_named : forall id r, requests w !! id = Some r -> named (rState r) = true;
  inv_base : base ⊆ used_ids w;
  inv_drawn : forall i h id, hs !! i = Some h -> id_drawn h id -> id ∈ used_ids w /\ id ∉ base;
  inv_unique : forall i j h h' id, hs !! i = Some h -> hs !! j = Some h' -> id_drawn h id -> id_drawn h' id -> i = j;
  inv_creator : forall i h id, hs !! i = Some h -> created h id -> id_drawn h id;
  inv_listed : forall i h id, hs !! i = Some h -> listed h id ->
    (id ∈ base \/ someone_created hs id) /\ forall r, requests w !! id = Some r -> disposable (rState r) = true }.

Lemma drawn_snoc h e id : id_drawn (h ++ [e]) id <-> id_drawn h id \/ event_id e = Some id.
Proof. unfold id_drawn. setoid_rewrite elem_of_app. setoid_rewrite list_elem_of_singleton. naive_solver. Qed.

Lemma created_snoc h e id : created (h ++ [e]) id <-> created h id \/ event_creates e id.
Proof. unfold created. setoid_rewrite elem_of_app. setoid_rewrite list_elem_of_singleton. naive_solver. Qed.

Lemma listed_snoc h e id :
  listed (h ++ [e]) id <->
  listed h id \/ exists row, row ∈ event_rows e /\ row.1 = id /\ disposable (rState row.2) = true.
Proof.
  unfold listed. split.
  - intros (e' & row & [He| ->%list_elem_of_singleton]%elem_of_app & Hrow); [left|right]; eauto.
  - intros [(e' & row & He & Hrow)|(row & Hrow)].
    + exists e', row. split; [apply elem_of_app; by left|done].
    + exists e, row. split; [apply elem_of_app; right; by left|done].
Qed.

(** An identifier that an operation has drawn and not used yet is new to the store. *)
Lemma drawn_new base hs w i h id :
  inv base hs w -> hs !! i = Some h -> id_drawn h id -> ~ created h id ->
  ~ (id ∈ base \/ someone_created hs id).
Proof.
  intros Hi Hh Hd Hc [Hb|(j & h' & Hj & Hc')].
  - by destruct (inv_drawn _ _ _ Hi _ _ _ Hh Hd).
  - assert (j = i) as -> by (eapply inv_unique; eauto using inv_creator). congruence.
Qed.

Lemma someone_grows hs i h e id :
  hs !! i = Some h -> someone_created hs id -> someone_created (<[i := h ++ [e]]> hs) id.
Proof.
  intros Hh (j & h' & Hj & Hc). destruct (decide (i = j)) as [->|Hn].
  - exists j, (h ++ [e]). rewrite list_lookup_insert_eq by (by apply lookup_lt_Some in Hh).
    split; [done|]. apply created_snoc. left. congruence.
  - exists j, h'. by rewrite list_lookup_insert_ne.
Qed.

(** What a step does to one request. *)
Definition moved (old new : option PlatformEnrollmentRequest) : Prop :=
  match old, new with
  | None, None => True
  | None, Some r => rState r = PlatformEnrollmentStatePending
  | Some r, None => disposable (rState r) = true
  | Some r, Some r' =>
      r' = r \/ exists u, r' = apply_update u r /\ lawful_update u (rState r) = true /\ legal (rState r) (rState r') = true
  end.

Lemma moved_refl o : moved o o.
Proof. destruct o; simpl; auto. Qed.

Lemma moved_disposable r r' : moved (Some r) (Some r') -> disposable (rState r) = true -> disposable (rState r') = true.
Proof.
  intros [->|(u & -> & Hl & _)] Hd; [done|]. exfalso.
  unfold disposable in Hd. states; rewrite Hd in Hl; destruct u; discriminate Hl.
Qed.

Section steps.
Context (strict : bool) (base : gset string).

(** A statement that the rule allows. *)
Lemma run_moved hs w i h B (s : stmt B) b w' :
  inv base hs w -> hs !! i = Some h -> rule strict h B s -> effect B s w b w' ->
  forall id, moved (requests w !! id) (requests w' !! id).
Proof.
  intros Hi Hh Hr He id. destruct (effect_requests _ _ _ _ _ (rule_apart _ _ _ _ Hr) He) as [->|(d & Hd & Hw)]; [apply moved_refl|].
  destruct s; simplify_eq/=.
  - destruct Hr as (Hs & Hid & Hdr & Hc). rewrite Hw. destruct (decide (id = id0)) as [->|Hn]; [|rewrite lookup_insert_ne by done; apply moved_refl].
    rewrite lookup_insert_eq. destruct (requests w !! id0) as [r0|] eqn:Hr0; [|done].
    exfalso. eapply (drawn_new base hs w i h id0); eauto using creates_created, inv_present.
  - destruct Hr as [Hl _]. destruct Hw as (r & Hr & <- & ->).
    destruct (decide (id = id0)) as [->|Hn]; [|rewrite lookup_insert_ne by done; apply moved_refl].
    rewrite lookup_insert_eq, Hr. simpl. right. exists u. split_and!; [done|done|].
    apply lawful_legal; [by eapply inv_named|done].
  - rewrite Hw. destruct (decide (id = id0)) as [->|Hn]; [|rewrite lookup_delete_ne by done; apply moved_refl].
    rewrite lookup_delete_eq. destruct (requests w !! id0) as [r|] eqn:Hr0; [|done].
    simpl. by eapply inv_listed.
Qed.

(** A request appears only where the statement creates it. *)
Lemma run_appears w B (s : stmt B) b w' id :
  apart s -> effect B s w b w' -> requests w !! id = None -> is_Some (requests w' !! id) ->
  event_creates (Ev s b) id.
Proof.
  intros Ha He Hn [r Hr]. destruct (effect_requests _ _ _ _ _ Ha He) as [Hq|(d & Hd & Hw)]; [rewrite Hq in Hr; congruence|].
  destruct s; simplify_eq/=.
  - rewrite Hw in Hr. apply lookup_insert_Some in Hr as [[-> _]|[_ Hr]]; [by eexists|congruence].
  - destruct Hw as (r0 & Hr0 & _ & Hq). rewrite Hq in Hr. apply lookup_insert_Some in Hr as [[-> _]|[_ Hr]]; congruence.
  - rewrite Hw in Hr. apply lookup_delete_Some in Hr as [_ Hr]. congruence.
Qed.

Lemma rule_creates h B (s : stmt B) b id :
  rule strict h B s -> event_creates (Ev s b) id -> id_drawn h id /\ ~ created h id.
Proof.
  intros Hr [r Hw]. simpl in Hw. destruct s; simplify_eq/=. destruct Hr as (_ & _ & Hd & Hc).
  split; [done|by apply creates_created].
Qed.

Lemma run_inv hs w i h B (s : stmt B) b w' :
  inv base hs w -> hs !! i = Some h -> rule strict h B s -> effect B s w b w' ->
  inv base (<[i := h ++ [Ev s b]]> hs) w'.
Proof.
  intros Hi Hh Hr He.
  pose proof (run_moved _ _ _ _ _ _ _ _ Hi Hh Hr He) as Hm.
  destruct (effect_ids _ _ _ _ _ He) as [Hu Hn].
  assert (Hdrawn : forall j k id, hs !! j = Some k -> id_drawn k id -> id ∈ used_ids w)
    by (intros j k id Hj Hk; by destruct (inv_drawn _ _ _ Hi _ _ _ Hj Hk)).
  assert (Hold : forall id, id ∈ base \/ someone_created hs id ->
                   id ∈ base \/ someone_created (<[i := h ++ [Ev s b]]> hs) id)
    by (intros id [?|?]; [by left|right; by apply someone_grows]).
  split.
  - intros id r Hid. destruct (requests w !! id) as [r0|] eqn:H0; [eapply Hold, inv_present; eauto|].
    right. exists i, (h ++ [Ev s b]). rewrite list_lookup_insert_eq by (by apply lookup_lt_Some in Hh).
    split; [done|]. apply created_snoc. right. eapply run_appears; eauto using rule_apart.
  - intros id r Hid. specialize (Hm id). rewrite Hid in Hm. destruct (requests w !! id) as [r0|] eqn:H0; simpl in Hm.
    + destruct Hm as [->|(u & -> & Hl & _)]; [by eapply inv_named|by eapply lawful_named].
    + by rewrite Hm.
  - etransitivity; [apply (inv_base _ _ _ Hi)|done].
  - intros j k id [(<- & <- & _)|[_ Hj]]%list_lookup_insert_Some Hd.
    + apply drawn_snoc in Hd as [Hd|Hd].
      * destruct (inv_drawn _ _ _ Hi _ _ _ Hh Hd). split; [by apply Hu|done].
      * destruct (Hn _ Hd). split; [done|]. intros Hb. by apply (inv_base _ _ _ Hi) in Hb.
    + destruct (inv_drawn _ _ _ Hi _ _ _ Hj Hd). split; [by apply Hu|done].
  - intros j j' k k' id [(<- & <- & _)|[Hji Hj]]%list_lookup_insert_Some [(<- & <- & _)|[Hji' Hj']]%list_lookup_insert_Some Hd Hd'; [done|..].
    + apply drawn_snoc in Hd as [Hd|Hd]; [by eapply inv_unique|]. destruct (Hn _ Hd) as [Hf _]. by destruct Hf; eapply Hdrawn.
    + apply drawn_snoc in Hd' as [Hd'|Hd']; [by eapply inv_unique|]. destruct (Hn _ Hd') as [Hf _]. by destruct Hf; eapply Hdrawn.
    + by eapply inv_unique.
  - intros j k id [(<- & <- & _)|[_ Hj]]%list_lookup_insert_Some Hc; [|by eapply inv_creator].
    apply drawn_snoc. left. apply created_snoc in Hc as [Hc|Hc]; [by eapply inv_creator|].
    by destruct (rule_creates _ _ _ _ _ Hr Hc).
  - assert (Hlisted : forall j k id, hs !! j = Some k -> listed k id ->
      (id ∈ base \/ someone_created (<[i := h ++ [Ev s b]]> hs) id) /\
      forall r, requests w' !! id = Some r -> disposable (rState r) = true).
    { intros j k id Hj Hl. destruct (inv_listed _ _ _ Hi _ _ _ Hj Hl) as [Hb Hdisp]. split; [by apply Hold|].
      intros r Hid. specialize (Hm id). rewrite Hid in Hm. destruct (requests w !! id) as [r0|] eqn:H0.
      - eapply moved_disposable; [exact Hm|by apply Hdisp].
      - exfalso. destruct (rule_creates h B s b id Hr) as [Hd Hc]; [eapply run_appears; eauto using rule_apart|].
        eapply (drawn_new base hs w i h id); eauto. }
    intros j k id [(<- & <- & _)|[_ Hj]]%list_lookup_insert_Some Hl; [|by eapply Hlisted].
    apply listed_snoc in Hl as [Hl|(row & Hrow & <- & Hd)]; [by eapply Hlisted|].
    destruct (effect_rows _ _ _ _ _ _ He Hrow) as [Hreq Hsame]. split; [eapply Hold, inv_present; eauto|].
    intros r Hid. rewrite Hsame, Hreq in Hid. by simplify_eq.
Qed.

Lemma spawn_inv hs w : inv base hs w -> inv base (hs ++ [[]]) w.
Proof.
  intros Hi.
  assert (Hl : forall j k (P : Prop), (hs ++ [[]]) !! j = Some k -> (hs !! j = Some k -> P) -> (k = [] -> P) -> P).
  { intros j k P [Hj|[_ Hj]]%lookup_app_Some H1 H2; [by apply H1|]. apply list_lookup_singleton_Some in Hj as [_ <-]. by apply H2. }
  assert (Hn : forall id, ~ id_drawn [] id) by (intros id (e & He & _); by apply not_elem_of_nil in He).
  assert (Hc : forall id, ~ created [] id) by (intros id (e & He & _); by apply not_elem_of_nil in He).
  assert (Hs : forall id, id ∈ base \/ someone_created hs id -> id ∈ base \/ someone_created (hs ++ [[]]) id).
  { intros id [?|(j & k & Hj & Hk)]; [by left|]. right. exists j, k. split; [by apply lookup_app_l_Some|done]. }
  split.
  - intros id r Hid. eapply Hs, inv_present; eauto.
  - apply (inv_named _ _ _ Hi).
  - apply (inv_base _ _ _ Hi).
  - intros j k id Hj Hd. apply (Hl _ _ _ Hj); [intros; by eapply inv_drawn|]. intros ->. by destruct (Hn _ Hd).
  - intros j j' k k' id Hj Hj' Hd Hd'. apply (Hl _ _ _ Hj); [|intros ->; by destruct (Hn _ Hd)]. intros Hj1.
    apply (Hl _ _ _ Hj'); [|intros ->; by destruct (Hn _ Hd')]. intros Hj2. by eapply inv_unique.
  - intros j k id Hj Hk. apply (Hl _ _ _ Hj); [intros; by eapply inv_creator|]. intros ->. by destruct (Hc _ Hk).
  - intros j k id Hj Hk. apply (Hl _ _ _ Hj).
    + intros Hj1. destruct (inv_listed _ _ _ Hi _ _ _ Hj1 Hk). split; [by apply Hs|done].
    + intros ->. destruct Hk as (e & row & He & _). by apply not_elem_of_nil in He.
Qed.

Lemma drift_inv hs w w' : inv base hs w -> drift w w' -> inv base hs w'.
Proof. intros [] (Hr & Hu & _). split; rewrite ?Hr, ?Hu; done. Qed.
End steps.

(** ** The theorems *)

(** Where the system starts: no operation is running, and the requests that are stored
    are in states of the program under identifiers that were handed out. *)
Definition start (w : world) : Prop :=
  forall id r, requests w !! id = Some r -> named (rState r) = true /\ id ∈ used_ids w.

Section system.
Context {Csr Key Cert : Type} (lib : x509 Csr Key Cert) (posture : string) (connections : bool).

(** Steps of the operations; [strict]: only the service submits decisions. *)
Definition estep (strict : bool) := step honest effect (program lib posture connections) (allowed strict) drift.
Definition esteps (strict : bool) := steps honest effect (program lib posture connections) (allowed strict) drift.

Definition fine (strict : bool) (base : gset string) (y : esystem) : Prop :=
  inv base (map past (threads y)) (shared y) /\ Forall (keeps honest (rule strict)) (threads y).

Lemma start_fine strict w : start w -> fine strict (used_ids w) (System w []).
Proof.
  intros Hs. split; [|constructor]. split; simpl; try (intros ?; intros; by rewrite lookup_nil in *).
  - intros id r Hid. left. by destruct (Hs _ _ Hid).
  - intros id r Hid. by destruct (Hs _ _ Hid).
  - done.
Qed.

Lemma step_fine strict base y y' :
  estep strict y y' -> fine strict base y ->
  fine strict base y' /\ forall id, moved (requests (shared y) !! id) (requests (shared y') !! id).
Proof.
  intros Hs [Hi Hk]. pose proof (step_keeps _ _ _ _ _ _ (programs_keep lib posture connections strict) _ _ Hs Hk) as Hk'.
  destruct (step_pasts _ _ _ _ _ _ _ _ Hs Hk) as [[Hp Hw]|[[Hp Hw]|(i & h & B & s & b & Hh & Hp & _ & He & Hr)]];
    unfold fine; rewrite Hp.
  - destruct Hw as [->|Hw]; [split; [done|intros id; apply moved_refl]|].
    split; [split; [by eapply drift_inv|done]|]. intros id. destruct Hw as [-> _]. apply moved_refl.
  - rewrite Hw. split; [split; [by apply spawn_inv|done]|intros id; apply moved_refl].
  - split; [split; [by eapply run_inv|done]|]. by eapply run_moved.
Qed.

Lemma steps_fine strict base y y' : esteps strict y y' -> fine strict base y -> fine strict base y'.
Proof. intros H. induction H as [|y1 y2 y3 _ IH Hs]; intros Hf; [done|]. by destruct (step_fine _ _ _ _ Hs (IH Hf)). Qed.

(** Induction over the steps of a system that started well. *)
Lemma steps_start strict w y (P : esystem -> Prop) :
  start w -> P (System w []) ->
  (forall base y1 y2, fine strict base y1 -> P y1 -> estep strict y1 y2 -> P y2) ->
  esteps strict (System w []) y -> P y.
Proof.
  intros Hs H0 Hstep Hy. pose proof (start_fine strict w Hs) as Hf. revert H0 Hf.
  generalize (used_ids w) as base. remember (System w [] : esystem) as y0 eqn:He. clear He. intros base H0 Hf.
  induction Hy as [y|y1 y2 y3 Hst1 IH Hst2]; [done|].
  eapply Hstep; [by eapply steps_fine|by apply IH|exact Hst2].
Qed.

(** C9: Whatever operations of the platform enrollment service and whatever enrollment
    envelopes run at once, whatever the other services answer, and whichever statements
    fail or operations stop half-way, one step changes a stored request only along
    [validatePlatformEnrollmentTransition] or by the revocation of a completed one; a
    request enters the store as pending, and only a denied or an expired one leaves it.
    This is about histories in which no accepted envelope of another producer writes to
    the requests' own collection: none persists a policy there, and none updates or
    deletes a document of it. *)
Theorem request_lifecycle strict w y y' id :
  start w -> esteps strict (System w []) y -> estep strict y y' ->
  match requests (shared y) !! id, requests (shared y') !! id with
  | None, None => True
  | None, Some r => rState r = PlatformEnrollmentStatePending
  | Some r, None => rState r = PlatformEnrollmentStateDenied \/ rState r = PlatformEnrollmentStateExpired
  | Some r, Some r' => r' = r \/ legal (rState r) (rState r') = true
  end.
Proof.
  intros Hs Hy Hstep. pose proof (steps_fine _ _ _ _ Hy (start_fine strict w Hs)) as Hf.
  destruct (step_fine _ _ _ _ Hstep Hf) as [_ Hm]. specialize (Hm id). unfold moved in Hm.
  destruct (requests (shared y) !! id) as [r|], (requests (shared y') !! id) as [r'|]; try done.
  - destruct Hm as [?|(u & _ & _ & Hl)]; auto.
  - unfold disposable in Hm. states; auto.
Qed.

(** What a completed request keeps. *)
Definition same_issue (r r' : PlatformEnrollmentRequest) : Prop :=
  rIssued r' = rIssued r /\ rCertificateSerial r' = rCertificateSerial r /\
  rCertificateFingerprint r' = rCertificateFingerprint r /\ rOperatorID r' = rOperatorID r /\
  rOperatorSessionID r' = rOperatorSessionID r /\ rCLISessionID r' = rCLISessionID r /\
  rApprovedByUserID r' = rApprovedByUserID r /\
  (rState r' = rState r \/ rState r' = PlatformEnrollmentStateRevoked).

Lemma same_issue_trans r1 r2 r3 : same_issue r1 r2 -> same_issue r2 r3 -> same_issue r1 r3.
Proof.
  unfold same_issue. intros. destruct_and!. split_and!; try congruence.
  repeat match goal with H : _ \/ _ |- _ => destruct H end; (by left; congruence) || (by right; congruence).
Qed.

Definition issued_state (s : PlatformEnrollmentState) : Prop :=
  s = PlatformEnrollmentStateCompleted \/ s = PlatformEnrollmentStateRevoked.

Lemma moved_issued r o : moved (Some r) o -> issued_state (rState r) -> exists r', o = Some r' /\ same_issue r r' /\ issued_state (rState r').
Proof.
  intros Hm Hs. destruct o as [r'|]; simpl in Hm.
  - exists r'. split; [done|]. destruct Hm as [->|(u & -> & Hl & _)]; [unfold same_issue; split_and!; auto|].
    destruct Hs as [Hs|Hs]; rewrite Hs in Hl; destruct u; try discriminate Hl; try (destruct state; discriminate Hl).
    unfold same_issue, issued_state. simpl. split_and!; auto.
  - destruct Hs as [Hs|Hs]; rewrite Hs in Hm; discriminate Hm.
Qed.

(** C10: Once a request is completed, the issued response, the certificate metadata, the
    session identifiers and the approver that are recorded with it never change and the
    request is never removed, whatever runs at the same time; it can only be revoked.
    (No envelope of another producer writes to the requests' own collection.) *)
Theorem issued_is_final strict w y y' id r :
  start w -> esteps strict (System w []) y -> esteps strict y y' ->
  requests (shared y) !! id = Some r ->
  rState r = PlatformEnrollmentStateCompleted \/ rState r = PlatformEnrollmentStateRevoked ->
  exists r', requests (shared y') !! id = Some r' /\ same_issue r r'.
Proof.
  intros Hs Hy Hy' Hid Hst. pose proof (steps_fine _ _ _ _ Hy (start_fine strict w Hs)) as Hf.
  enough (H : exists r', requests (shared y') !! id = Some r' /\ same_issue r r' /\ issued_state (rState r'))
    by (destruct H as (r' & ? & ? & _); eauto).
  clear Hy. induction Hy' as [y|y1 y2 y3 Hst1 IH Hstep]; [exists r; unfold same_issue; split_and!; auto|].
  destruct (IH Hid Hf) as (r2 & Hr2 & Hk & Hi2).
  destruct (step_fine _ _ _ _ Hstep (steps_fine _ _ _ _ Hst1 Hf)) as [_ Hm]. specialize (Hm id). rewrite Hr2 in Hm.
  destruct (moved_issued _ _ Hm Hi2) as (r3 & -> & Hk' & Hi3). exists r3. split_and!; [done| |done].
  by eapply same_issue_trans.
Qed.

(** ** Approvals *)

Definition approved_state (s : PlatformEnrollmentState) : bool :=
  match s with
  | PlatformEnrollmentStateApproved | PlatformEnrollmentStateIssuing
  | PlatformEnrollmentStateCompleted | PlatformEnrollmentStateRevoked => true
  | _ => false
  end.

(** An operation recorded the approval by [actor], having seen before that this account
    is active and the first one. *)
Definition approved_by_owner (hs : list history) (id actor : string) : Prop :=
  exists i h1 h2 msgID now,
    hs !! i = Some (h1 ++ Ev (DocConditionalUpdate id (UpdateDecision PlatformEnrollmentStateApproved actor msgID now)
                                PlatformEnrollmentStatePending) (Ok true) :: h2) /\ owner_seen h1 actor.

Lemma approved_by_owner_grows hs i h e id actor :
  hs !! i = Some h -> approved_by_owner hs id actor -> approved_by_owner (<[i := h ++ [e]]> hs) id actor.
Proof.
  intros Hh (j & h1 & h2 & m & now & Hj & Ho). destruct (decide (i = j)) as [->|Hn].
  - exists j, h1, (h2 ++ [e]), m, now. split; [|done].
    rewrite list_lookup_insert_eq by (by apply lookup_lt_Some in Hh). f_equal. rewrite Hj in Hh. simplify_eq. by rewrite <- app_assoc.
  - exists j, h1, h2, m, now. by rewrite list_lookup_insert_ne.
Qed.

Definition all_approved (y : esystem) : Prop :=
  forall id r, requests (shared y) !! id = Some r -> approved_state (rState r) = true ->
    approved_by_owner (map past (threads y)) id (rApprovedByUserID r).

(** An update that is no decision keeps the approver, and approves nothing new. *)
Lemma lawful_approver u r :
  lawful_update u (rState r) = true -> approved_state (update_state u) = true ->
  (exists actor msgID now, u = UpdateDecision PlatformEnrollmentStateApproved actor msgID now /\
     rState r = PlatformEnrollmentStatePending) \/
  (approved_state (rState r) = true /\ rApprovedByUserID (apply_update u r) = rApprovedByUserID r).
Proof.
  destruct u; simpl; intros Hl Ha; try done; try (states; rewrite ?Hl; by right).
  states; try done. left. by exists actor, msgID, now.
Qed.

Lemma effect_update id u from w b w' r :
  effect _ (DocConditionalUpdate id u from) w b w' -> requests w !! id = Some r ->
  requests w' = requests w \/ (b = Ok true /\ rState r = from /\ requests w' = <[id := apply_update u r]> (requests w)).
Proof.
  unfold effect. simpl. intros He Hr. rewrite Hr in He.
  destruct (state_eqb (rState r) from) eqn:Hs; (destruct He as [[-> ->]|[_ ->]]; [|by left]); [|by left].
  right. split_and!; [done|by states|done].
Qed.

Lemma step_approved base y y' :
  estep true y y' -> fine true base y -> all_approved y -> all_approved y'.
Proof.
  intros Hs [Hi Hk] Ha id r.
  destruct (step_pasts _ _ _ _ _ _ _ _ Hs Hk) as [[Hp Hw]|[[Hp Hw]|(i & h & B & s & b & Hh & Hp & _ & He & Hr)]]; rewrite Hp.
  - destruct Hw as [->|[-> _]]; apply Ha.
  - rewrite Hw. intros Hid Hst. destruct (Ha _ _ Hid Hst) as (j & h1 & h2 & m & now & Hj & Ho).
    exists j, h1, h2, m, now. split; [by apply lookup_app_l_Some|done].
  - intros Hid Hst.
    assert (Hkeep : requests (shared y) !! id = Some r -> approved_by_owner (<[i:=h ++ [Ev s b]]> (map past (threads y))) id (rApprovedByUserID r)).
    { intros Hold. apply approved_by_owner_grows; auto. }
    pose proof (run_moved _ _ _ _ _ _ _ _ _ _ Hi Hh Hr He id) as Hm. rewrite Hid in Hm.
    destruct (effect_requests _ _ _ _ _ (rule_apart _ _ _ _ Hr) He) as [Hsame|(d & Hd & Hw)]; [apply Hkeep; by rewrite <- Hsame|].
    destruct s; simplify_eq/=.
    + rewrite Hw in Hid. apply lookup_insert_Some in Hid as [[-> <-]|[_ Hid]]; [|by apply Hkeep].
      destruct Hr as (Hs' & _). simpl in Hst. by rewrite Hs' in Hst.
    + destruct Hw as (r0 & Hr0 & <- & Hq). destruct (decide (id = id0)) as [->|Hn]; [|apply Hkeep; by rewrite Hq, lookup_insert_ne in Hid].
      rewrite Hq, lookup_insert_eq in Hid. simplify_eq. destruct Hr as [Hl Hdec].
      destruct (effect_update _ _ _ _ _ _ _ He Hr0) as [Hsame|(-> & _ & _)].
      { apply Hkeep. by rewrite <- Hsame, Hq, lookup_insert_eq. }
      destruct (lawful_approver _ _ Hl Hst) as [(actor & m & now & -> & Hpend)|[Hst0 ->]].
      * exists i, h, [], m, now. rewrite Hpend. rewrite list_lookup_insert_eq by (by apply lookup_lt_Some in Hh).
        split; [done|]. by eapply Hdec.
      * apply approved_by_owner_grows; [done|]. by apply Ha.
    + rewrite Hw in Hid. apply lookup_delete_Some in Hid as [_ Hid]. by apply Hkeep.
Qed.

(** C11: If only the service submits decisions, then a request that is approved, is being
    issued, is completed or revoked was approved by the account recorded as its approver,
    in an operation that had seen this account to be active and the first user, however
    the operations interleave and fail.  (No envelope of another producer writes to the
    requests' own collection.) *)
Theorem approval_is_the_owners w y id r :
  start w -> (forall id r, requests w !! id = Some r -> approved_state (rState r) = false) ->
  esteps true (System w []) y ->
  requests (shared y) !! id = Some r -> approved_state (rState r) = true ->
  approved_by_owner (map past (threads y)) id (rApprovedByUserID r).
Proof.
  intros Hs Hnone Hy. revert id r. apply (steps_start true w y all_approved); try done.
  - intros id r Hid Hst. by rewrite (Hnone _ _ Hid) in Hst.
  - intros. by eapply step_approved.
Qed.

(** ** Well-formed requests *)

(** A stored request carries its identifier, is in a state of the program, has a lease
    to run out while it is being issued, and has a response once it is completed. *)
Definition well_formed (id : string) (r : PlatformEnrollmentRequest) : Prop :=
  rID r = id /\ named (rState r) = true /\
  (rState r = PlatformEnrollmentStateIssuing -> is_Some (rIssuanceLeaseExpiresAt r)) /\
  (issued_state (rState r) -> is_Some (rIssued r)).

Lemma lawful_well_formed id u r :
  lawful_update u (rState r) = true -> well_formed id r -> well_formed id (apply_update u r).
Proof.
  intros Hl (Hid & Hn & Hlease & Hiss). pose proof (lawful_named _ _ Hl) as Hn'.
  split_and!; [done|done| |]; unfold issued_state; destruct u; simpl in *; try (by intros [? | ?]); try (intros; discriminate); try (intros _; eexists; reflexivity).
  - intros Heq. states; congruence.
  - intros [Heq|Heq]; states; congruence.
  - intros _. apply Hiss. left. by states.
Qed.

Lemma step_well_formed strict base y y' :
  estep strict y y' -> fine strict base y ->
  (forall id r, requests (shared y) !! id = Some r -> well_formed id r) ->
  forall id r, requests (shared y') !! id = Some r -> well_formed id r.
Proof.
  intros Hs [Hi Hk] Hw id r.
  destruct (step_pasts _ _ _ _ _ _ _ _ Hs Hk) as [[_ Hd]|[[_ ->]|(i & h & B & s & b & Hh & _ & _ & He & Hr)]]; [destruct Hd as [->|[-> _]]; auto|auto|].
  destruct (effect_requests _ _ _ _ _ (rule_apart _ _ _ _ Hr) He) as [->|(d & Hd & Hq)]; [auto|]. destruct s; simplify_eq/=.
  - rewrite Hq. intros [[-> <-]|[_ H]]%lookup_insert_Some; [|auto]. destruct Hr as (Hst & Hid & _).
    unfold well_formed, issued_state. simpl. rewrite Hst. split_and!; [done|done|done|by intros []].
  - destruct Hq as (r0 & Hr0 & <- & ->). intros [[-> <-]|[_ H]]%lookup_insert_Some; [|auto].
    apply lawful_well_formed; [apply Hr|auto].
  - rewrite Hq. intros [_ H]%lookup_delete_Some. auto.
Qed.

(** C13: Whatever runs at once and fails, every stored request carries the identifier it
    is stored under and is in a state of the program, has a lease to run out while it is
    being issued, so that the cleanup can give it back, and has its issued response once
    it is completed, so that a retry has an answer - in histories in which no accepted
    envelope of another producer writes to the requests' own collection; one that
    persists a policy there leaves a document that is no request
    ([policy_over_request]). *)
Theorem stored_requests_well_formed strict w y id r :
  start w -> (forall id r, requests w !! id = Some r -> well_formed id r) ->
  esteps strict (System w []) y ->
  requests (shared y) !! id = Some r ->
  rID r = id /\ named (rState r) = true /\
  (rState r = PlatformEnrollmentStateIssuing -> is_Some (rIssuanceLeaseExpiresAt r)) /\
  (rState r = PlatformEnrollmentStateCompleted \/ rState r = PlatformEnrollmentStateRevoked -> is_Some (rIssued r)).
Proof.
  intros Hs Hw Hy. revert id r.
  apply (steps_start strict w y (fun y => forall id r, requests (shared y) !! id = Some r -> well_formed id r)); try done.
  intros. by eapply step_well_formed.
Qed.
End system.

(** ** The theorems at work *)

Lemma ex_start_ok : start ex_world.
Proof. intros id r H. discriminate H. Qed.

Lemma spawns_allowed strict l :
  forallb (fun a => match a with Spawn (CallEnvelope _ _ _) => false | _ => true end) l = true ->
  forall c, Spawn c ∈ l -> allowed strict c.
Proof.
  intros H c Hc. rewrite forallb_forall in H. apply list_elem_of_In, H in Hc. by destruct c.
Qed.

(** The state of the example request. *)
Definition ex_state (y : esystem) : option PlatformEnrollmentState := rState <$> requests (shared y) !! ex_id.

Notation ex_outcome f l := (outcome ex_lib "" true ex_env f l ex_start).

Lemma ex_reached strict l o :
  ex_outcome ex_state l = Some o ->
  forallb (fun a => match a with Spawn (CallEnvelope _ _ _) => false | _ => true end) l = true ->
  exists y, esteps ex_lib "" true strict ex_start y /\ ex_state y = o /\ acts ex_lib "" true ex_env 0 l ex_start = Some y.
Proof. intros H Hl. eapply outcome_sound; [apply ex_env_honest|exact H|by apply spawns_allowed]. Qed.

(** A schedule and the step after it. *)
Lemma ex_step strict l a o o' :
  ex_outcome ex_state l = Some o -> ex_outcome ex_state (l ++ [a]) = Some o' -> o <> o' ->
  forallb (fun a => match a with Spawn (CallEnvelope _ _ _) => false | _ => true end) (l ++ [a]) = true ->
  exists y y', esteps ex_lib "" true strict ex_start y /\ estep ex_lib "" true strict y y' /\
    ex_state y = o /\ ex_state y' = o'.
Proof.
  intros H H' Hne Hall. assert (Hl := Hall). rewrite forallb_app in Hl. apply andb_true_iff in Hl as [Hl Ha].
  destruct (ex_reached strict _ _ H Hl) as (y & Hy & Hs & Hacts).
  destruct (ex_reached strict _ _ H' Hall) as (y' & _ & Hs' & Hacts').
  apply acts_snoc in Hacts' as (y1 & Hy1 & Hact). rewrite Hacts in Hy1. injection Hy1 as <-.
  destruct (act_sound _ _ _ _ strict ex_env_honest _ _ _ _ Hact) as [->|Hstep]; [|congruence|].
  - intros c ->. apply (spawns_allowed strict [Spawn c]); [done|by left].
  - by exists y, y'.
Qed.

Lemma ex_state_some y s : ex_state y = Some s -> exists r, requests (shared y) !! ex_id = Some r /\ rState r = s.
Proof. intros (r & Hr & ->)%fmap_Some. by exists r. Qed.

(** ** A policy among the requests

    The governance handler of a policy looks whether the target document exists, and then
    sets it, in whatever collection the payload names. *)
Definition ex_policy (id : string) : EnrollmentPayload :=
  {| pAction := ActionPersistPolicy; pIntent := "platform_enrollment.issue"; pRequestId := "other";
     pComponentKind := KIND_DASHBOARD; pInstanceId := ""; pFingerprints := None; pActorUserId := "actor";
     pDecision := DECISION_UNSPECIFIED; pTargetCollection := CollectionPlatformEnrollments; pTargetDocumentId := id;
     pPolicyId := "policy"; pCertificateSerial := ""; pCertificateFingerprint := ""; pOwnerUserId := "actor";
     pOperatorId := ""; pOperatorSessionId := ""; pCliSessionId := ""; pReason := "" |}.

Definition ex_policy_call (id : string) : action := Spawn (CallEnvelope (ex_policy id) "root" "nonce").

(** The identifier that the creation below draws. *)
Definition ex_guessed : string := "id-000b".
Definition ex_overtaken : list action :=
  (ex_policy_call ex_guessed :: repeat (Run 0) 3) ++ Spawn (CallCreateRequest ex_request "") :: to_end 1 ++
  Spawn (CallDecide "owner" {| drRequestID := ex_guessed; drDecision := PlatformEnrollmentDecisionApprove; drReason := "" |}) :: to_end 2.

Definition ex_row (id : string) (y : esystem) : option (string * PlatformEnrollmentState) :=
  (fun r => (rID r, rState r)) <$> requests (shared y) !! id.

(** A policy persisted alone leaves a document that is no request; one that had looked
    for its target before the request was created replaces the approved request. *)
Example policy_over_request :
  ex_outcome (ex_row "any") (ex_policy_call "any" :: to_end 0) = Some (Some ("", PlatformEnrollmentStateOther "")) /\
  ex_outcome (ex_row ex_guessed) ex_overtaken = Some (Some (ex_guessed, PlatformEnrollmentStateApproved)) /\
  ex_outcome (ex_row ex_guessed) (ex_overtaken ++ to_end 0) = Some (Some ("", PlatformEnrollmentStateOther "")).
Proof. split_and!; vm_compute; reflexivity. Qed.

(** A completion that takes the lease: the sixth statement of [Complete]. *)
Definition ex_until_lease : list action :=
  ex_create ++ ex_decide ++ Spawn (CallComplete ex_token ex_proofs) :: repeat (Run 2) 5.

Lemma request_lifecycle_witness :
  exists (y y' : esystem) r r',
    requests (shared y) !! ex_id = Some r /\ requests (shared y') !! ex_id = Some r' /\
    rState r = PlatformEnrollmentStateApproved /\ rState r' = PlatformEnrollmentStateIssuing /\
    (r' = r \/ legal (rState r) (rState r') = true).
Proof.
  destruct (ex_step true ex_until_lease (Run 2) (Some PlatformEnrollmentStateApproved) (Some PlatformEnrollmentStateIssuing))
    as (y & y' & Hy & Hs & H1 & H2); [vm_compute; reflexivity..|done|vm_compute; reflexivity|].
  destruct (ex_state_some _ _ H1) as (r & Hr & Hs1). destruct (ex_state_some _ _ H2) as (r' & Hr' & Hs2).
  exists y, y', r, r'. split_and!; [done..|].
  pose proof (request_lifecycle ex_lib "" true true ex_world y y' ex_id ex_start_ok Hy Hs) as H.
  by rewrite Hr, Hr' in H.
Defined.

Definition ex_completed : list action := ex_create ++ ex_decide ++ ex_complete 2.
Definition ex_revoked : list action :=
  ex_completed ++ Spawn (CallRevoke "owner" {| vrRequestID := ex_id; vrReason := "" |}) :: to_end 3.

Lemma issued_is_final_witness :
  exists y y' r, esteps ex_lib "" true true ex_start y /\ esteps ex_lib "" true true y y' /\
    requests (shared y) !! ex_id = Some r /\ rState r = PlatformEnrollmentStateCompleted /\
    ex_state y' = Some PlatformEnrollmentStateRevoked /\
    exists r', requests (shared y') !! ex_id = Some r' /\ same_issue r r'.
Proof.
  destruct (ex_reached true ex_completed (Some PlatformEnrollmentStateCompleted)) as (y & Hy & H1 & Ha); [vm_compute; reflexivity..|].
  assert (Hy' : exists y', esteps ex_lib "" true true y y' /\ ex_state y' = Some PlatformEnrollmentStateRevoked).
  { assert (Ho : ex_outcome ex_state ex_revoked = Some (Some PlatformEnrollmentStateRevoked)) by (vm_compute; reflexivity).
    apply fmap_Some in Ho as (y' & Ho & Hst). exists y'. split; [|done]. unfold ex_revoked in Ho.
    apply acts_app in Ho as (y1 & Hy1 & Ho). rewrite Ha in Hy1. injection Hy1 as <-.
    eapply acts_sound; [apply ex_env_honest|exact Ho|]. by apply spawns_allowed. }
  destruct Hy' as (y' & Hy' & H2). destruct (ex_state_some _ _ H1) as (r & Hr & Hs).
  exists y, y', r. split_and!; [done..|].
  apply (issued_is_final ex_lib "" true true ex_world y y' ex_id r ex_start_ok Hy Hy' Hr). by left.
Defined.

Lemma approval_is_the_owners_witness :
  exists (y : esystem) r, requests (shared y) !! ex_id = Some r /\ rState r = PlatformEnrollmentStateCompleted /\
    approved_by_owner (map past (threads y)) ex_id (rApprovedByUserID r).
Proof.
  destruct (ex_reached true ex_completed (Some PlatformEnrollmentStateCompleted)) as (y & Hy & H1 & _); [vm_compute; reflexivity..|].
  destruct (ex_state_some _ _ H1) as (r & Hr & Hs). exists y, r. split_and!; [done..|].
  apply (approval_is_the_owners ex_lib "" true ex_world y ex_id r ex_start_ok); [|done|done|by rewrite Hs].
  intros id r0 H. discriminate H.
Defined.

Lemma stored_requests_well_formed_witness :
  exists (y : esystem) r, requests (shared y) !! ex_id = Some r /\ rState r = PlatformEnrollmentStateIssuing /\
    is_Some (rIssuanceLeaseExpiresAt r).
Proof.
  destruct (ex_reached true (ex_until_lease ++ [Run 2]) (Some PlatformEnrollmentStateIssuing)) as (y & Hy & H1 & _); [vm_compute; reflexivity..|].
  destruct (ex_state_some _ _ H1) as (r & Hr & Hs). exists y, r. split_and!; [done..|].
  apply (stored_requests_well_formed ex_lib "" true true ex_world y ex_id r ex_start_ok); [|done..].
  intros id r0 H. discriminate H.
Defined.
