(* ===== verification/EnrollmentLive.v ===== *)
(** Platform enrollment: what an approved requester gets.

    One operation at a time and a store that does not fail: the cleanup gives an
    issuance that stopped half-way back to its requester, who then completes.  And the
    execution that the issuance lease does not exclude. *)
From S2P Require Import Prelude Errors Procs EnrollmentModel Enrollment EnrollmentRun EnrollmentSafety.
From Stdlib Require Import String List ZArith Lia Bool.
From stdpp Require Import base strings list gmap sorting.
Open Scope string_scope.
Open Scope list_scope.
Open Scope proc_scope.

Section alone.
Context (env : forall B, stmt B -> B).

(** [p] alone in [w] returns [a] and leaves [w']. *)
Definition runs {A} (p : proc stmt A) (w : world) (a : A) (w' : world) : Prop := interp (answer env) p w = (a, w').

Lemma runs_ret {A} (a : A) w : runs (Ret a) w a w.
Proof. done. Qed.

Lemma runs_bind {A B} (p : proc stmt A) (f : A -> proc stmt B) w a w1 b w2 :
  runs p w a w1 -> runs (f a) w1 b w2 -> runs (proc_bind p f) w b w2.
Proof. unfold runs. intros H1 H2. by rewrite interp_bind, H1. Qed.

Lemma runs_ep_bind {A B} (p : eproc A) (f : A -> eproc B) w a w1 b w2 :
  runs p w (Ok a) w1 -> runs (f a) w1 b w2 -> runs (ep_bind p f) w b w2.
Proof. intros H1 H2. eapply runs_bind; [exact H1|done]. Qed.

Lemma runs_wrap {A} fmt (p : eproc A) w a w1 : runs p w (Ok a) w1 -> runs (ep_wrap fmt p) w (Ok a) w1.
Proof. intros H. by eapply runs_bind. Qed.

Lemma runs_ensure (cond : bool) err w : cond = true -> runs (ensure cond err) w (Ok tt) w.
Proof. by intros ->. Qed.

Lemma runs_lift {A} (r : result A) a w : r = Ok a -> runs (ep_lift r) w (Ok a) w.
Proof. by intros ->. Qed.

(** Statements of the store, and those of the other services, which change nothing that
    the operations read again. *)
Definition same (w w' : world) : Prop := requests w' = requests w /\ policies w' = policies w /\ clock w' = clock w.

#[local] Instance same_preorder : PreOrder same.
Proof. split; [done|]. unfold same. intros ? ? ? (?&?&?) (?&?&?). split_and!; congruence. Qed.

Lemma runs_store {B} (s : stmt B) w b w' : run_stmt s w = Some (b, w') -> runs (ask s) w b w'.
Proof. unfold runs, answer. simpl. unfold answer. by intros ->. Qed.

Lemma runs_service {B} (s : stmt B) w : run_stmt s w = None -> exists w', runs (ask s) w (env B s) w' /\ same w w'.
Proof. unfold runs. simpl. unfold answer. intros ->. eexists. split; [done|]. done. Qed.

Lemma runs_now w : runs (ask TimeNow) w (clock w) w.
Proof. by apply runs_store. Qed.

Lemma runs_asking {A} fmt (s : stmt (result A)) w a w' : runs (ask s) w (Ok a) w' -> runs (asking fmt s) w (Ok a) w'.
Proof. apply runs_wrap. Qed.

(** ** The cleanup *)

(** Rows carry the identifier of their document. *)
Definition well_keyed (m : gmap string PlatformEnrollmentRequest) : Prop := forall id r, m !! id = Some r -> rID r = id.

Lemma expire_row r w :
  exists w', runs (expireRequest r) w tt w' /\ clock w' = clock w /\
    forall id, id <> rID r -> requests w' !! id = requests w !! id.
Proof.
  unfold expireRequest.
  assert (Hs : exists b w1, run_stmt (DocConditionalUpdate (rID r) (UpdateExpired (clock w)) (rState r)) w = Some (Ok b, w1) /\
                 clock w1 = clock w /\ forall id, id <> rID r -> requests w1 !! id = requests w !! id).
  { simpl. destruct (requests w !! rID r) as [r0|]; [destruct (state_eqb _ _)|]; eexists _, _; (split; [done|]); simpl; [|done..].
    split; [done|]. intros id Hn. by rewrite lookup_insert_ne. }
  destruct Hs as (b & w1 & Hrun & Hc & Hk).
  destruct (runs_service EnrollmentsChanged w1 eq_refl) as (w2 & Hr2 & Hs2).
  exists (if b then w2 else w1). split.
  - eapply runs_bind; [apply runs_now|]. eapply runs_bind; [by apply runs_store|].
    destruct b; [|done]. by destruct (env _ EnrollmentsChanged).
  - destruct b; [|done]. destruct Hs2 as (Hq & _ & Hc2). split; [congruence|]. intros id Hn. rewrite Hq. auto.
Qed.

(** A row of the reconciliation leaves the other documents alone. *)
Lemma reconcile_other now row w :
  exists w', runs (reconcile_row now row tt) w tt w' /\ clock w' = clock w /\
    forall id, id <> rID row.2 -> requests w' !! id = requests w !! id.
Proof.
  unfold reconcile_row. destruct (rIssuanceLeaseExpiresAt row.2) as [e|]; [|by exists w].
  destruct (now <? e)%Z; [by exists w|]. destruct (after now (rExpiresAt row.2)); [apply expire_row|].
  destruct (run_stmt (DocConditionalUpdate (rID row.2) (UpdateApproved now) PlatformEnrollmentStateIssuing) w) as [[b w1]|] eqn:Hr.
  - exists w1. split; [eapply runs_bind; [by apply runs_store|done]|]. simpl in Hr.
    destruct (requests w !! rID row.2) as [r0|]; [destruct (state_eqb _ _)|]; simplify_eq; try done.
    simpl. split; [done|]. intros id Hn. by rewrite lookup_insert_ne.
  - simpl in Hr. by destruct (requests w !! rID row.2) as [r0|]; [destruct (state_eqb _ _)|].
Qed.

(** A request whose lease ran out. *)
Definition stalled (now : Z) (r : PlatformEnrollmentRequest) : Prop :=
  rState r = PlatformEnrollmentStateIssuing /\
  (exists e, rIssuanceLeaseExpiresAt r = Some e /\ (e <= now)%Z) /\ (now <= rExpiresAt r)%Z.

Lemma reconcile_stalled now row w :
  stalled now row.2 -> requests w !! rID row.2 = Some row.2 ->
  runs (reconcile_row now row tt) w tt (with_requests (<[rID row.2 := apply_update (UpdateApproved now) row.2]> (requests w)) w).
Proof.
  intros (Hs & (e & He & Hle) & Hx) Hr. unfold reconcile_row. rewrite He.
  rewrite (proj2 (Z.ltb_ge now e)) by lia. unfold after. rewrite (proj2 (Z.ltb_ge (rExpiresAt row.2) now)) by lia.
  eapply runs_bind; [|done]. apply runs_store. simpl. rewrite Hr. unfold state_eqb. by rewrite Hs, bool_decide_true.
Qed.

Lemma reconcile_others now rows w id :
  (forall row, row ∈ rows -> rID row.2 <> id) ->
  exists w', runs (proc_each rows (reconcile_row now) tt) w tt w' /\ clock w' = clock w /\ requests w' !! id = requests w !! id.
Proof.
  revert w. induction rows as [|row rows IH]; intros w Hk; [by exists w|].
  destruct (reconcile_other now row w) as (w1 & H1 & Hc1 & Hk1).
  destruct (IH w1) as (w2 & H2 & Hc2 & Hk2); [intros; apply Hk; by right|].
  exists w2. split_and!; [by eapply runs_bind|congruence|]. rewrite Hk2, Hk1; [done|].
  apply not_eq_sym, Hk. by left.
Qed.

Lemma runs_each_app {X S} (l1 l2 : list X) (body : X -> S -> proc stmt S) s w s1 w1 s2 w2 :
  runs (proc_each l1 body s) w s1 w1 -> runs (proc_each l2 body s1) w1 s2 w2 ->
  runs (proc_each (l1 ++ l2) body s) w s2 w2.
Proof.
  unfold runs. revert s w. induction l1 as [|x l1 IH]; intros s w; simpl.
  - intros H. injection H as -> ->. done.
  - rewrite !interp_bind. destruct (interp _ (body x s) w) as [s' w']. apply IH.
Qed.

Lemma reconcile_loop now rows w r :
  (forall row, row ∈ rows -> rID row.2 = row.1) -> NoDup (map fst rows) -> stalled now r ->
  (rID r, r) ∈ rows -> requests w !! rID r = Some r ->
  exists w', runs (proc_each rows (reconcile_row now) tt) w tt w' /\ clock w' = clock w /\
    requests w' !! rID r = Some (apply_update (UpdateApproved now) r).
Proof.
  intros Hk Hnd Hst (l1 & l2 & ->)%list_elem_of_split Hr.
  rewrite map_app in Hnd. apply NoDup_app in Hnd as (_ & Hd & Hnd2). simpl in Hnd2. apply NoDup_cons in Hnd2 as [Hn2 _].
  destruct (reconcile_others now l1 w (rID r)) as (w1 & H1 & Hc1 & Hq1).
  { intros row Hrow Heq. rewrite Hk in Heq by (apply elem_of_app; by left).
    apply (Hd row.1); [by apply list_elem_of_fmap_2|]. simpl. rewrite Heq. by left. }
  rewrite Hr in Hq1. pose proof (reconcile_stalled now (rID r, r) w1 Hst Hq1) as H2. simpl in H2.
  set (w2 := with_requests _ w1) in *.
  destruct (reconcile_others now l2 w2 (rID r)) as (w3 & H3 & Hc3 & Hq3).
  { intros row Hrow Heq. rewrite Hk in Heq by (apply elem_of_app; right; by right).
    apply Hn2. rewrite <- Heq. by apply list_elem_of_fmap_2. }
  exists w3. split_and!; [|by rewrite Hc3|].
  - eapply runs_each_app; [exact H1|]. by eapply runs_bind.
  - rewrite Hq3. subst w2. simpl. by rewrite lookup_insert_eq.
Qed.

(** The rows a query returns are the documents that pass its filters. *)
Lemma elem_of_select_iff filters ordered m row :
  row ∈ select filters ordered 0 m <-> m !! row.1 = Some row.2 /\ forallb (fun f => holds f row.2) filters = true.
Proof.
  unfold select. set (rows := List.filter _ _).
  assert (H : row ∈ rows <-> m !! row.1 = Some row.2 /\ forallb (fun f => holds f row.2) filters = true)
    by (subst rows; rewrite elem_of_filter_list; destruct row; by rewrite elem_of_map_to_list).
  rewrite <- H. destruct ordered; [|done]. by rewrite merge_sort_Permutation.
Qed.

Lemma select_NoDup filters m : NoDup (map fst (select filters false 0 m)).
Proof.
  unfold select. pose proof (NoDup_fst_map_to_list m) as H. revert H.
  generalize (map_to_list m) as l. induction l as [|row l IH]; [done|]. simpl. intros [Hn Hl]%NoDup_cons.
  destruct (forallb _ filters); [|by apply IH]. simpl. apply NoDup_cons. split; [|by apply IH].
  intros (row' & Heq & Hin)%list_elem_of_fmap. apply elem_of_filter_list in Hin as [Hin _].
  apply Hn. rewrite Heq. by apply list_elem_of_fmap_2.
Qed.

Lemma reconcile_spec w r :
  well_keyed (requests w) -> requests w !! rID r = Some r -> stalled (clock w) r ->
  exists w', runs ReconcileExpiredLeases w (Ok tt) w' /\ clock w' = clock w /\
    requests w' !! rID r = Some (apply_update (UpdateApproved (clock w)) r).
Proof.
  intros Hk Hr Hst.
  destruct (reconcile_loop (clock w) (select [FilterState PlatformEnrollmentStateIssuing] false 0 (requests w)) w r)
    as (w' & H & Hc & Hq).
  - intros row Hrow%elem_of_select. by apply Hk.
  - apply select_NoDup.
  - done.
  - apply elem_of_select_iff. split; [done|]. simpl. destruct Hst as [-> _]. done.
  - done.
  - exists w'. split_and!; [|done..]. unfold ReconcileExpiredLeases.
    eapply runs_ep_bind; [by apply runs_asking, runs_store|]. eapply runs_bind; [apply runs_now|].
    eapply runs_bind; [exact H|done].
Qed.

(** The cleanup of denied and expired requests keeps the others. *)
Lemma delete_rows (rows : list (string * PlatformEnrollmentRequest)) w id :
  id ∉ map fst rows ->
  exists w', runs (proc_each rows (fun row _ => let! _ := ask (DocDelete row.1) in Ret tt) tt) w tt w' /\
    clock w' = clock w /\ requests w' !! id = requests w !! id.
Proof.
  revert w. induction rows as [|row rows IH]; intros w Hn; [by exists w|].
  apply not_elem_of_cons in Hn as [Hne Hn].
  destruct (IH (with_requests (delete row.1 (requests w)) w) Hn) as (w' & H & Hc & Hq).
  exists w'. split_and!; [|done|].
  - eapply runs_bind; [|exact H]. eapply runs_bind; [by apply runs_store|done].
  - rewrite Hq. simpl. by rewrite lookup_delete_ne.
Qed.

Lemma cleanupFiltered_keeps state filters w id r :
  requests w !! id = Some r -> rState r <> state ->
  exists w', runs (cleanupFiltered (FilterState state :: filters)) w (Ok tt) w' /\
    clock w' = clock w /\ requests w' !! id = Some r.
Proof.
  intros Hr Hs.
  destruct (delete_rows (select (FilterState state :: filters) false 0 (requests w)) w id) as (w' & H & Hc & Hq).
  - intros (row & -> & Hrow)%list_elem_of_fmap. apply elem_of_select_iff in Hrow as [Hrow Hf].
    rewrite Hrow in Hr. simplify_eq. simpl in Hf. apply andb_true_iff in Hf as [Hf _]. by apply bool_decide_eq_true_1 in Hf.
  - exists w'. split_and!; [|done|congruence].
    eapply runs_ep_bind; [by apply runs_asking, runs_store|]. eapply runs_bind; [exact H|done].
Qed.

(** One tick gives a stalled issuance back. *)
Lemma tick_spec w r :
  well_keyed (requests w) -> requests w !! rID r = Some r -> stalled (clock w) r ->
  exists w', runs cleanup_tick w RespondTick w' /\ clock w' = clock w /\
    requests w' !! rID r = Some (apply_update (UpdateApproved (clock w)) r).
Proof.
  intros Hk Hr Hst. destruct (reconcile_spec w r Hk Hr Hst) as (w1 & H1 & Hc1 & Hq1).
  set (cutoff := Timestamp.FormatTimestamp (clock w1 - PlatformEnrollmentCleanupRetention)%Z).
  destruct (cleanupFiltered_keeps PlatformEnrollmentStateDenied [FilterLastTransitionBefore cutoff] _ _ _ Hq1) as (w2 & H2 & Hc2 & Hq2); [done|].
  destruct (cleanupFiltered_keeps PlatformEnrollmentStateExpired [FilterLastTransitionBefore cutoff] _ _ _ Hq2) as (w3 & H3 & Hc3 & Hq3); [done|].
  exists w3. split_and!; [|congruence|done].
  eapply runs_bind; [exact H1|]. eapply runs_bind; [|done].
  eapply runs_bind; [apply runs_now|]. eapply runs_ep_bind; [exact H2|exact H3].
Qed.

(** ** The completion *)

(** Services that answer, and a pipeline that admits. *)
Record cooperative : Prop := {
  coop_uuid : exists id, env _ NewUUID = Ok id;
  coop_rand : forall n, exists s, env _ (RandRead n) = Ok s;
  coop_ctx : env _ CtxErr = Ok tt;
  coop_root : exists s, env _ GetCurrentStateRoot = Ok s;
  coop_submit : forall p root nonce, exists m, env _ (Submit p root nonce) = Passed m;
  coop_finalize : forall s, env _ (Finalize (Ok s)) = Ok true;
  coop_bundle : exists s, env _ GatewayTrustBundle = Ok s;
  coop_sign : forall csr app user, exists cert chain, env _ (SignPlatformAppCSR csr app user) = Ok (cert, chain) }.

Context {Csr Key Cert : Type} (lib : x509 Csr Key Cert) (posture : string) (connections : bool).
Hypothesis Hcoop : cooperative.

(** A service's answer that is known. *)
Lemma runs_asks {A} (s : stmt (result A)) a w :
  run_stmt s w = None -> env _ s = Ok a -> exists w', runs (ask s) w (Ok a) w' /\ same w w'.
Proof. intros Hs He. destruct (runs_service s w Hs) as (w' & Hw & Hsame). rewrite He in Hw. eauto. Qed.

(** An envelope whose handler succeeds is accepted. *)
Lemma submit_runs p w (Q : world -> Prop) :
  (forall w1 w2, Q w1 -> same w1 w2 -> Q w2) ->
  (forall m w1, same w w1 -> exists s w2, runs (handle lib posture connections m p) w1 (Ok s) w2 /\ Q w2) ->
  exists w', runs (submitEnvelope lib posture connections p) w (Ok tt) w' /\ Q w'.
Proof.
  intros HQ Hh. destruct (coop_root Hcoop) as [root Hroot]. destruct (coop_rand Hcoop 16) as [rand Hrand].
  destruct (runs_asks GetCurrentStateRoot root w eq_refl Hroot) as (w1 & H1 & S1).
  destruct (runs_asks (RandRead 16) rand w1 eq_refl Hrand) as (w2 & H2 & S2).
  destruct (coop_submit Hcoop p root (Encoding.hex_encode rand)) as [m Hm].
  destruct (runs_service (Submit p root (Encoding.hex_encode rand)) w2 eq_refl) as (w3 & H3 & S3). rewrite Hm in H3.
  destruct (Hh m w3) as (s & w4 & H4 & Q4); [by do 2 (etransitivity; [eassumption|])|].
  destruct (runs_asks (Finalize (Ok s)) true w4 eq_refl (coop_finalize Hcoop s)) as (w5 & H5 & S5).
  exists w5. split; [|by eapply HQ].
  unfold submitEnvelope, platformEnrollmentStateRootMaxRetries. cbn [submit_attempts].
  eapply runs_ep_bind; [by apply runs_asking|].
  eapply runs_ep_bind; [apply runs_wrap; unfold generateNonce; eapply runs_ep_bind; [exact H2|apply runs_ret]|].
  eapply runs_bind with (a := Ok true); [|apply runs_ret].
  unfold ProcessEnvelope. eapply runs_bind; [exact H3|]. by eapply runs_bind.
Qed.

Lemma ctx_runs fmt w : exists w', runs (asking fmt CtxErr) w (Ok tt) w' /\ same w w'.
Proof.
  destruct (runs_asks CtxErr tt w eq_refl (coop_ctx Hcoop)) as (w' & H & S). exists w'. split; [by apply runs_asking|done].
Qed.

Definition app_kind (k : PlatformComponentKind) : Prop :=
  k = PlatformComponentDashboard \/ k = PlatformComponentEnsemble \/ k = PlatformComponentApplication.

Lemma existing_runs id r w :
  str_nonempty id = true -> requests w !! id = Some r ->
  exists w', runs (existing_request id) w (Ok (set_created Timestamp.zero_time r)) w' /\ same w w'.
Proof.
  intros Hid Hr. destruct (ctx_runs "platform enrollment: check request context: %w" w) as (w1 & H1 & S1).
  exists w1. split; [|done]. unfold existing_request, loadPlatformEnrollmentRequest. destruct S1 as (Hq & _ & _).
  eapply runs_ep_bind; [eapply runs_ep_bind; [exact H1|]|].
  - rewrite Hid. eapply runs_ep_bind; [apply runs_asking, runs_store; simpl; by rewrite Hq, Hr|apply runs_ret].
  - apply runs_ret.
Qed.

(** The ISSUE handler on a request that is being issued to an application component. *)
Lemma issue_runs m r csr w :
  str_nonempty (rID r) = true -> str_nonempty (rApprovedByUserID r) = true ->
  requests w !! rID r = Some r -> rState r = PlatformEnrollmentStateIssuing ->
  app_kind (rComponentKind r) -> rApp r = Some csr ->
  exists s w' issued serial fp now,
    runs (handle lib posture connections m (issue_payload r)) w (Ok s) w' /\
    requests w' = <[rID r := apply_update (UpdateCompletion issued m serial fp "" "" "" now) r]> (requests w) /\
    clock w' = clock w.
Proof.
  intros Hid Hact Hr Hst Hkind Hcsr.
  destruct (existing_runs _ r w Hid Hr) as (w1 & H1 & S1).
  destruct (coop_bundle Hcoop) as [bundle Hb].
  destruct (runs_asks GatewayTrustBundle bundle w1 eq_refl Hb) as (w2 & H2 & S2).
  destruct (coop_sign Hcoop csr (rComponentName r) (rApprovedByUserID r)) as (cert & chain & Hs).
  destruct (runs_asks (SignPlatformAppCSR csr (rComponentName r) (rApprovedByUserID r)) (cert, chain) w2 eq_refl Hs) as (w3 & H3 & S3).
  assert (S : same w w3) by (by do 2 (etransitivity; [eassumption|])). destruct S as (Hq & Hp & Hc).
  set (signed := signAppComponent lib (set_created Timestamp.zero_time r) (rApprovedByUserID r) bundle).
  assert (Hsigned : exists issued serial fp, runs signed w2 (Ok (issued, "", "", "", serial, fp)) w3).
  { eexists _, _, _. subst signed. unfold signAppComponent. simpl. rewrite Hcsr.
    eapply runs_ep_bind; [by apply runs_asking|]. apply runs_ret. }
  destruct Hsigned as (issued & serial & fp & H4).
  assert (Hk : exists kind, protoComponentKind (payloadComponentKind (rComponentKind r)) = Ok kind)
    by (destruct Hkind as [->|[->| ->]]; by eexists).
  destruct Hk as [kind Hk].
  eexists _, (with_requests (<[rID r := apply_update (UpdateCompletion issued m serial fp "" "" "" (clock w3)) r]> (requests w)) w3), issued, serial, fp, (clock w3).
  split_and!; [|done|done].
  unfold handle, issue_payload, payload. cbn [pAction]. unfold HandleIssue. cbn [pComponentKind pRequestId pActorUserId].
  eapply runs_ep_bind; [by apply runs_lift|]. eapply runs_ep_bind; [by apply runs_ensure|].
  eapply runs_ep_bind; [by apply runs_ensure|]. eapply runs_ep_bind; [exact H1|].
  eapply runs_ep_bind; [apply runs_ensure; simpl; unfold state_eqb; by rewrite Hst, bool_decide_true|].
  eapply runs_bind.
  { unfold signComponent. eapply runs_ep_bind; [by apply runs_asking|]. simpl. destruct Hkind as [->|[->| ->]]; exact H4. }
  cbn iota beta. eapply runs_bind; [apply runs_now|].
  eapply runs_ep_bind; [apply runs_asking, runs_store; simpl; rewrite Hq, Hr; unfold state_eqb; by rewrite Hst, bool_decide_true|].
  eapply runs_ep_bind; [by apply runs_ensure|]. apply runs_ret.
Qed.

(** The policy of an application component. *)
Lemma downstream_runs r w :
  str_nonempty (rID r) = true -> str_nonempty (rApprovedByUserID r) = true -> app_kind (rComponentKind r) ->
  exists w', runs (submitDownstreamEnvelopes lib posture connections r) w (Ok tt) w' /\ requests w' = requests w.
Proof.
  intros Hid Hact Hkind.
  assert (Hpol : exists policyID w1, runs (if str_nonempty (rPolicyID r) then ep_lift (Ok (rPolicyID r)) else asks NewUUID) w (Ok policyID) w1 /\ same w w1).
  { destruct (str_nonempty (rPolicyID r)); [by eexists _, w|]. destruct (coop_uuid Hcoop) as [id Hu].
    destruct (runs_asks NewUUID id w eq_refl Hu) as (w1 & H1 & S1). by exists id, w1. }
  destruct Hpol as (policyID & w1 & H1 & S1).
  destruct (submit_runs (policy_payload r policyID) w1 (fun w' => requests w' = requests w)) as (w2 & H2 & Hq2).
  - intros w2 w3 Hq (Hq3 & _). congruence.
  - intros m w2 (Hq2 & Hp2 & Hc2). destruct S1 as (Hq1 & _ & _).
    destruct (ctx_runs "platform enrollment: persist policy context: %w" w2) as (w3 & H3 & (Hq3 & Hp3 & Hc3)).
    destruct (bool_decide (is_Some (policies w3 !! ("app_policies", AppSPIFFEID (rComponentName r))))) eqn:Hpol.
    + eexists _, w3. split; [|congruence]. unfold handle, policy_payload. cbn [pAction]. unfold HandlePersistPolicy.
      eapply runs_ep_bind; [exact H3|]. do 3 (eapply runs_ep_bind; [by apply runs_ensure|]).
      eapply runs_ep_bind; [apply runs_asking, runs_store; simpl; by rewrite Hpol|]. apply runs_ret.
    + eexists _, _. split.
      * unfold handle, policy_payload. cbn [pAction]. unfold HandlePersistPolicy.
        eapply runs_ep_bind; [exact H3|]. do 3 (eapply runs_ep_bind; [by apply runs_ensure|]).
        eapply runs_ep_bind; [apply runs_asking, runs_store; simpl; by rewrite Hpol|]. cbn iota beta.
        eapply runs_bind; [apply runs_now|]. eapply runs_ep_bind; [by apply runs_asking, runs_store|]. apply runs_ret.
      * simpl. congruence.
  - exists w2. split; [|done]. unfold submitDownstreamEnvelopes.
    destruct Hkind as [->|[->| ->]]; (eapply runs_ep_bind; [exact H1|]; by apply runs_wrap).
Qed.

Lemma known_runs id r w : requests w !! id = Some r -> runs (known_request id) w (Ok r) w.
Proof.
  intros Hr. unfold known_request, loadByID. eapply runs_ep_bind; [apply runs_asking, runs_store; simpl; by rewrite Hr|apply runs_ret].
Qed.

(** An approved request of an application component is issued. *)
Lemma issueComponent_runs r csr w :
  str_nonempty (rID r) = true -> str_nonempty (rApprovedByUserID r) = true ->
  requests w !! rID r = Some r -> rState r = PlatformEnrollmentStateApproved ->
  app_kind (rComponentKind r) -> rApp r = Some csr ->
  exists w' r' issued, runs (issueComponent lib posture connections r) w (Ok (Some issued)) w' /\
    requests w' !! rID r = Some r' /\ rState r' = PlatformEnrollmentStateCompleted /\ rIssued r' = Some issued /\
    rApprovedByUserID r' = rApprovedByUserID r.
Proof.
  intros Hid Hact Hr Hst Hkind Hcsr. destruct (coop_uuid Hcoop) as [owner Hu].
  destruct (runs_asks NewUUID owner w eq_refl Hu) as (w1 & H1 & (Hq1 & _ & Hc1)).
  set (u := UpdateLease owner (clock w1 + PlatformEnrollmentIssuanceLeaseTTL)%Z (clock w1)).
  set (rl := apply_update u r). set (w2 := with_requests (<[rID r := rl]> (requests w)) w1).
  destruct (submit_runs (issue_payload r) w2
              (fun w' => exists issued m serial fp now, requests w' !! rID r =
                 Some (apply_update (UpdateCompletion issued m serial fp "" "" "" now) rl))) as (w3 & H3 & issued & m & serial & fp & now & Hq3).
  - intros w3 w4 (i & m & s & f & n & Hq) (Hs & _). exists i, m, s, f, n. by rewrite Hs.
  - intros m w3 (Hq3 & _ & _).
    destruct (issue_runs m rl csr w3) as (s & w4 & issued & serial & fp & now & H4 & Hq4 & _); try done.
    { rewrite Hq3. subst w2. simpl. by rewrite lookup_insert_eq. }
    exists s, w4. split; [exact H4|]. exists issued, m, serial, fp, now. rewrite Hq4.
    change (rID rl) with (rID r). by rewrite lookup_insert_eq.
  - set (rc := apply_update _ rl) in *.
    destruct (downstream_runs rc w3) as (w4 & H4 & Hq4); [done..|].
    exists w4, rc, issued. split_and!; [|by rewrite Hq4|done|done|done].
    unfold issueComponent. eapply runs_ep_bind; [exact H1|].
    eapply runs_bind; [apply runs_now|]. eapply runs_bind; [apply runs_now|].
    eapply runs_ep_bind with (a := true) (w1 := w2).
    { apply runs_asking, runs_store. simpl. rewrite Hq1, Hr. unfold state_eqb. by rewrite Hst, bool_decide_true. }
    eapply runs_ep_bind; [by apply runs_ensure|]. eapply runs_bind; [exact H3|].
    eapply runs_ep_bind; [by apply known_runs|]. eapply runs_ep_bind; [by apply runs_ensure|].
    eapply runs_ep_bind; [exact H4|]. apply runs_ret.
Qed.

(** A token that is the one of a single request finds it. *)
Lemma loadByToken_runs token r w :
  requests w !! rID r = Some r -> rTokenHash r = platformEnrollmentTokenHash token ->
  (forall id r', requests w !! id = Some r' -> rTokenHash r' = rTokenHash r -> id = rID r) ->
  runs (loadByToken token) w (Ok r) w.
Proof.
  intros Hr Ht Huniq. unfold loadByToken.
  assert (Hsel : select [FilterTokenHash (platformEnrollmentTokenHash token)] false 1 (requests w) = [(rID r, r)]).
  { unfold select. set (rows := List.filter _ _).
    assert (Hall : forall row, row ∈ rows -> row = (rID r, r)).
    { intros [id r'] Hrow. apply elem_of_filter_list in Hrow as [Hrow Hf]. apply elem_of_map_to_list in Hrow.
      simpl in Hf. rewrite andb_true_r in Hf. apply String.eqb_eq in Hf.
      assert (id = rID r) as -> by (eapply Huniq; [exact Hrow|congruence]). congruence. }
    assert (Hin : (rID r, r) ∈ rows).
    { apply elem_of_filter_list. split; [by apply elem_of_map_to_list|]. simpl. by rewrite Ht, String.eqb_refl. }
    destruct rows as [|row rows]; [by apply not_elem_of_nil in Hin|]. simpl. by rewrite (Hall row) by left. }
  eapply runs_ep_bind; [apply runs_asking, runs_store; cbn [run_stmt]; by rewrite Hsel|]. apply runs_ret.
Qed.

Lemma Complete_runs token proofs r csr w :
  str_nonempty token = true -> str_nonempty (rID r) = true -> str_nonempty (rApprovedByUserID r) = true ->
  requests w !! rID r = Some r -> rTokenHash r = platformEnrollmentTokenHash token ->
  (forall id r', requests w !! id = Some r' -> rTokenHash r' = rTokenHash r -> id = rID r) ->
  (clock w <= rExpiresAt r)%Z -> verifyPlatformEnrollmentProofs lib r proofs = Ok tt ->
  rState r = PlatformEnrollmentStateApproved -> app_kind (rComponentKind r) -> rApp r = Some csr ->
  exists w' r' issued, runs (Complete lib posture connections token proofs) w (Ok (Some issued)) w' /\
    requests w' !! rID r = Some r' /\ rState r' = PlatformEnrollmentStateCompleted /\ rIssued r' = Some issued /\
    rApprovedByUserID r' = rApprovedByUserID r.
Proof.
  intros Htok Hid Hact Hr Ht Huniq Hx Hp Hst Hkind Hcsr.
  destruct (issueComponent_runs r csr w Hid Hact Hr Hst Hkind Hcsr) as (w' & r' & issued & H & Hrest).
  exists w', r', issued. split; [|exact Hrest]. unfold Complete.
  eapply runs_ep_bind; [by apply runs_ensure|]. eapply runs_ep_bind; [by apply loadByToken_runs|].
  eapply runs_bind; [apply runs_now|]. unfold after. rewrite (proj2 (Z.ltb_ge (rExpiresAt r) (clock w))) by lia. simpl andb.
  cbn iota. rewrite Hst. eapply runs_ep_bind; [by apply runs_lift|]. exact H.
Qed.

(** ** What an operation alone leaves of the other requests *)

(** Every stored request was there before, under the same token. *)
Definition descends (m m' : gmap string PlatformEnrollmentRequest) : Prop :=
  forall id r', m' !! id = Some r' -> exists r, m !! id = Some r /\ rTokenHash r' = rTokenHash r.

Lemma descends_refl m : descends m m.
Proof. intros id r' H. by exists r'. Qed.

Lemma descends_trans m1 m2 m3 : descends m1 m2 -> descends m2 m3 -> descends m1 m3.
Proof. intros H1 H2 id r3 H3. destruct (H2 _ _ H3) as (r2 & Hr2 & E2). destruct (H1 _ _ Hr2) as (r1 & Hr1 & E1). exists r1. split; congruence. Qed.

Hypothesis env_honest : forall B (s : stmt B), honest B s (env B s).

Lemma plain_descends B (s : stmt B) w :
  plain (fun _ => True) (fun _ => True) B s -> descends (requests w) (requests (answer env B s w).2).
Proof.
  intros Hs. unfold answer. destruct (run_stmt s w) as [[b w']|] eqn:Hr; [|apply descends_refl]. simpl.
  destruct s; simpl in Hr, Hs; try (apply String.eqb_neq in Hs; rewrite Hs in Hr); simplify_eq; try apply descends_refl; [done| |].
  - destruct (requests w !! id) as [r0|] eqn:H0; [destruct (state_eqb _ _)|]; simplify_eq; try apply descends_refl.
    intros id' r'. simpl. intros [[<- <-]|[_ H]]%lookup_insert_Some; [by exists r0|by exists r'].
  - intros id' r'. simpl. intros [_ H]%lookup_delete_Some. by exists r'.
Qed.

Lemma safe_descends {A} (p : proc stmt A) w a w' :
  safe (fun _ => True) (fun _ => True) p -> runs p w a w' -> descends (requests w) (requests w').
Proof.
  unfold runs. revert w. induction p as [x|B s k IH]; intros w; simpl.
  - intros _ H. injection H as _ ->. apply descends_refl.
  - intros [Hs Hk] H. pose proof (answer_honest (fun _ => env) (fun _ => env_honest) 0 B s w) as Hb.
    pose proof (plain_descends B s w Hs) as Hd.
    destruct (answer env B s w) as [b w1] eqn:Ha. eapply descends_trans; [exact Hd|]. by eapply IH; [apply Hk|].
Qed.

Lemma tick_safe : safe (fun _ => True) (fun _ => True) cleanup_tick.
Proof.
  unfold cleanup_tick. apply safe_bind; [apply Reconcile_safe|]. intros _. unfold CleanupTerminalRequests, cleanupFiltered. walk.
Qed.

Lemma recovery r csr token proofs w :
  well_keyed (requests w) -> requests w !! rID r = Some r -> stalled (clock w) r ->
  str_nonempty (rID r) = true -> str_nonempty (rApprovedByUserID r) = true ->
  str_nonempty token = true -> rTokenHash r = platformEnrollmentTokenHash token ->
  (forall id r', requests w !! id = Some r' -> rTokenHash r' = rTokenHash r -> id = rID r) ->
  app_kind (rComponentKind r) -> rApp r = Some csr -> verifyPlatformEnrollmentProofs lib r proofs = Ok tt ->
  exists w1 w2 r2 issued,
    runs cleanup_tick w RespondTick w1 /\ runs (Complete lib posture connections token proofs) w1 (Ok (Some issued)) w2 /\
    requests w2 !! rID r = Some r2 /\ rState r2 = PlatformEnrollmentStateCompleted /\
    rIssued r2 = Some issued /\ rApprovedByUserID r2 = rApprovedByUserID r.
Proof.
  intros Hk Hr Hst Hid Hact Htok Ht Huniq Hkind Hcsr Hp.
  destruct (tick_spec w r Hk Hr Hst) as (w1 & H1 & Hc1 & Hq1).
  set (r1 := apply_update (UpdateApproved (clock w)) r) in *.
  destruct (Complete_runs token proofs r1 csr w1) as (w2 & r2 & issued & H2 & Hrest); try done.
  - intros id r' Hid' Heq. destruct (safe_descends _ _ _ _ tick_safe H1 _ _ Hid') as (r0 & Hr0 & E0).
    eapply Huniq; [exact Hr0|]. simpl in Heq. congruence.
  - rewrite Hc1. by destruct Hst as (_ & _ & Hx).
  - exists w1, w2, r2, issued. split_and!; try done; apply Hrest.
Qed.
End alone.

(** C12: An approval survives an issuance that stopped half-way: if a request of an
    application component - operators are not covered - is being issued, its lease has
    run out, it has not expired and its approver is recorded, then one turn of the
    cleanup followed by the requester's completion, with valid proofs and the token whose
    hash no other stored request has, returns an issued response, which is the one
    recorded with the completed request, for the same approver; the services answer and
    the store does not fail. *)
Theorem approval_is_not_lost {Csr Key Cert} (lib : x509 Csr Key Cert) posture connections
    (env : forall B, stmt B -> B) r csr token proofs w :
  cooperative env -> (forall B (s : stmt B), honest B s (env B s)) ->
  well_keyed (requests w) -> requests w !! rID r = Some r -> stalled (clock w) r ->
  str_nonempty (rID r) = true -> str_nonempty (rApprovedByUserID r) = true ->
  str_nonempty token = true -> rTokenHash r = platformEnrollmentTokenHash token ->
  (forall id r', requests w !! id = Some r' -> rTokenHash r' = rTokenHash r -> id = rID r) ->
  app_kind (rComponentKind r) -> rApp r = Some csr -> verifyPlatformEnrollmentProofs lib r proofs = Ok tt ->
  exists w1 w2 r2 issued,
    interp (answer env) cleanup_tick w = (RespondTick, w1) /\
    interp (answer env) (Complete lib posture connections token proofs) w1 = (Ok (Some issued), w2) /\
    requests w2 !! rID r = Some r2 /\ rState r2 = PlatformEnrollmentStateCompleted /\
    rIssued r2 = Some issued /\ rApprovedByUserID r2 = rApprovedByUserID r.
Proof. intros. by eapply recovery. Qed.

(** A request whose completion stopped after the lease was taken. *)
Definition ex_stalled : PlatformEnrollmentRequest :=
  apply_update (UpdateLease "gone" 100 70)
    (apply_update (UpdateDecision PlatformEnrollmentStateApproved "owner" "msg" 60)
       (pending_request "req" (platformEnrollmentTokenHash ex_token) "g8ed" ex_request
          {| fpApp := "fp"; fpOperator := ""; fpCLI := "" |} 50)).

Definition ex_stalled_world : world :=
  {| requests := {[ "req" := ex_stalled ]}; policies := ∅; clock := 200; used_ids := {[ "req" ]}; certificates := [] |}.

Lemma ex_only id r : requests ex_stalled_world !! id = Some r -> "req" = id /\ ex_stalled = r.
Proof. intros H. unfold ex_stalled_world, requests in H. by apply lookup_singleton_Some in H. Qed.

Lemma ex_cooperative : cooperative (ex_env 0).
Proof. split; intros; repeat eexists. Qed.

Lemma approval_is_not_lost_witness :
  exists w1 w2 r2 issued,
    interp (answer (ex_env 0)) cleanup_tick ex_stalled_world = (RespondTick, w1) /\
    interp (answer (ex_env 0)) (Complete ex_lib "" true ex_token ex_proofs) w1 = (Ok (Some issued), w2) /\
    requests w2 !! "req" = Some r2 /\ rState r2 = PlatformEnrollmentStateCompleted /\
    rIssued r2 = Some issued /\ rApprovedByUserID r2 = "owner".
Proof.
  apply (approval_is_not_lost ex_lib "" true (ex_env 0) ex_stalled "CSR" ex_token ex_proofs ex_stalled_world).
  - apply ex_cooperative.
  - apply ex_env_honest.
  - intros id r H. apply ex_only in H as [<- <-]. reflexivity.
  - reflexivity.
  - split; [reflexivity|]. split; [exists 100%Z; split; [reflexivity|simpl; lia]|vm_compute; discriminate].
  - reflexivity.
  - reflexivity.
  - reflexivity.
  - reflexivity.
  - intros id r H _. apply ex_only in H as [<- _]. reflexivity.
  - left. reflexivity.
  - reflexivity.
  - vm_compute. reflexivity.
Defined.

(** ** The lease does not exclude a second issuance

    [issuance_lease_owner] is written and never compared.  A completion that is slower
    than its lease signs a certificate, the cleanup gives the request back, and a second
    completion signs another one, which is the one that is recorded and that a
    revocation revokes. *)
Definition ex_two_issuances : list action :=
  ex_create ++ ex_decide ++ (Spawn (CallComplete ex_token ex_proofs) :: repeat (Run 2) 13) ++
  [Wait 31000000000] ++ (Spawn CallCleanup :: to_end 3) ++ ex_complete 4 ++ to_end 2.

(** The first certificate signed is valid, for the CSR of the request, and not the one
    on record. *)
Definition ex_unrecorded (y : esystem) : bool :=
  match requests (shared y) !! ex_id, certificates (shared y) with
  | Some r, [(csr1, cert1); (csr2, cert2)] =>
      state_eqb (rState r) PlatformEnrollmentStateCompleted &&
      bool_decide (rApp r = Some csr1) && bool_decide (rApp r = Some csr2) &&
      String.eqb (rCertificateSerial r) (CertificateSerialNumber ex_lib cert2) &&
      negb (String.eqb (rCertificateSerial r) (CertificateSerialNumber ex_lib cert1))
  | _, _ => false
  end.

(** One request, completed once, with two certificates signed for its CSR: the second is
    on record, the first is on no record. *)
Theorem lease_does_not_fence :
  exists (y : esystem) r csr cert1 cert2,
    esteps ex_lib "" true true ex_start y /\ requests (shared y) !! ex_id = Some r /\
    rState r = PlatformEnrollmentStateCompleted /\ rApp r = Some csr /\
    certificates (shared y) = [(csr, cert1); (csr, cert2)] /\
    rCertificateSerial r = CertificateSerialNumber ex_lib cert2 /\
    rCertificateSerial r <> CertificateSerialNumber ex_lib cert1.
Proof.
  assert (H : outcome ex_lib "" true ex_env ex_unrecorded ex_two_issuances ex_start = Some true) by (vm_compute; reflexivity).
  eapply (outcome_sound ex_lib "" true ex_env true) in H as (y & Hy & Hu & _); [|apply ex_env_honest|by apply spawns_allowed].
  unfold ex_unrecorded in Hu. destruct (requests (shared y) !! ex_id) as [r|] eqn:Hr; [|done].
  destruct (certificates (shared y)) as [|[csr1 cert1] [|[csr2 cert2] [|]]] eqn:Hc; try done.
  apply andb_true_iff in Hu as [Hu Hne]. apply andb_true_iff in Hu as [Hu Heq]. states.
  apply String.eqb_eq in Heq. apply negb_true_iff, String.eqb_neq in Hne.
  by exists y, r, csr1, cert1, cert2.
Qed.

(** ** The quota does not hold under concurrency

    [checkQuota] counts before [CreateRequest] stores: two creations that count at the
    same time store one request more than the limit. *)
Definition ex_instance (id : string) : PlatformEnrollmentCreateRequest :=
  {| crComponentKind := PlatformComponentDashboard; crAppName := ""; crInstanceID := id;
     crHostname := "host"; crSystemFingerprint := ""; crApp := Some "CSR"; crOperator := None |}.

Definition ex_creation (id : string) : action := Spawn (CallCreateRequest (ex_instance id) "").

Definition ex_crowd : list action :=
  (ex_creation "a" :: to_end 0) ++ (ex_creation "b" :: to_end 1) ++
  [ex_creation "c"; ex_creation "d"] ++ repeat (Run 2) 5 ++ repeat (Run 3) 5 ++ to_end 2 ++ to_end 3.

(** The live requests of a kind, as the quota counts them. *)
Definition live_of (kind : PlatformComponentKind) (w : world) : nat :=
  List.length (List.filter (fun row => kind_eqb (rComponentKind row.2) kind && negb (IsTerminal (rState row.2)) &&
                                       negb (after (clock w) (rExpiresAt row.2))) (map_to_list (requests w))).

(** More live requests than the limit, from calls of [CreateRequest] alone. *)
Theorem quota_not_atomic :
  exists y : esystem,
    esteps ex_lib "" true true ex_start y /\
    (live_limit PlatformComponentDashboard < live_of PlatformComponentDashboard (shared y))%nat.
Proof.
  assert (H : outcome ex_lib "" true ex_env (fun y => (live_limit PlatformComponentDashboard <? live_of PlatformComponentDashboard (shared y))%nat)
                ex_crowd ex_start = Some true) by (vm_compute; reflexivity).
  eapply (outcome_sound ex_lib "" true ex_env true) in H as (y & Hy & Hu & _); [|apply ex_env_honest|by apply spawns_allowed].
  apply Nat.ltb_lt in Hu. by exists y.
Qed.
