(* ===== verification/SchemaModel.v ===== *)
(** The JSON Schema engine ([src/internal/jsonschema]): failures and their order
    ([errors.go]), strict decoding of documents, JSON Pointers ([jsonpointer.go]), the
    keywords ([capabilities.go]) and compiled schemas ([schema.go]).

    A compiled schema is a node of a store: Go's pointers to schemas are its addresses, so
    that recursive definitions are cycles of the store.  What the engine asks of [regexp],
    [net/url], [net/mail], [math/big] and the float conversions of [strconv] is the record
    [golib]; the text that a message renders to is not computed. *)
From S2P Require Import Prelude Encoding Json JsonEncode JsonDecode TimeParse.
From Stdlib Require Import String Ascii List ZArith Lia Bool.
From stdpp Require Import base strings list gmap pretty sorting.
Open Scope string_scope.
Open Scope list_scope.

(** ** Failures *)

Inductive ReasonCode :=
| ReasonCompileUnrecognizedKeyword | ReasonCompileUnresolvedRef | ReasonCompileDuplicateID
| ReasonCompileInvalidRegex | ReasonCompileInvalidKeywordValue | ReasonCompileUnsupportedFormat
| ReasonCompileRefCycle | ReasonCompileInvalidJSON | ReasonCompileDuplicateKey
| ReasonCompileTrailingData | ReasonCompileResourceLimit | ReasonCompileInvalidType
| ReasonValueTypeMismatch | ReasonValueEnumMismatch | ReasonValueConstMismatch
| ReasonValueRequiredMissing | ReasonValueAdditionalProp | ReasonValueMinItems | ReasonValueMaxItems
| ReasonValueMinProperties | ReasonValueMaxProperties | ReasonValueMinLength | ReasonValueMaxLength
| ReasonValuePatternMismatch | ReasonValueFormatMismatch | ReasonValueMinimum | ReasonValueMaximum
| ReasonValueExclusiveMinimum | ReasonValueExclusiveMaximum | ReasonValueMultipleOf
| ReasonValueUniqueItems | ReasonValueAllOfFailed | ReasonValueAnyOfFailed | ReasonValueOneOfFailed
| ReasonValueNotFailed | ReasonValueIfThenFailed | ReasonValueIfElseFailed
| ReasonValueDependenciesFailed | ReasonValueContainsMissing | ReasonValuePropertyNames.

#[export] Instance ReasonCode_eq_dec : EqDecision ReasonCode.
Proof. solve_decision. Defined.

(** The stable text of a code. *)
Definition reason_text (r : ReasonCode) : string :=
  match r with
  | ReasonCompileUnrecognizedKeyword => "compile.unrecognized_keyword"
  | ReasonCompileUnresolvedRef => "compile.unresolved_ref"
  | ReasonCompileDuplicateID => "compile.duplicate_id"
  | ReasonCompileInvalidRegex => "compile.invalid_regex"
  | ReasonCompileInvalidKeywordValue => "compile.invalid_keyword_value"
  | ReasonCompileUnsupportedFormat => "compile.unsupported_format"
  | ReasonCompileRefCycle => "compile.ref_cycle"
  | ReasonCompileInvalidJSON => "compile.invalid_json"
  | ReasonCompileDuplicateKey => "compile.duplicate_key"
  | ReasonCompileTrailingData => "compile.trailing_data"
  | ReasonCompileResourceLimit => "compile.resource_limit"
  | ReasonCompileInvalidType => "compile.invalid_type"
  | ReasonValueTypeMismatch => "validate.type_mismatch"
  | ReasonValueEnumMismatch => "validate.enum_mismatch"
  | ReasonValueConstMismatch => "validate.const_mismatch"
  | ReasonValueRequiredMissing => "validate.required_missing"
  | ReasonValueAdditionalProp => "validate.additional_property"
  | ReasonValueMinItems => "validate.min_items"
  | ReasonValueMaxItems => "validate.max_items"
  | ReasonValueMinProperties => "validate.min_properties"
  | ReasonValueMaxProperties => "validate.max_properties"
  | ReasonValueMinLength => "validate.min_length"
  | ReasonValueMaxLength => "validate.max_length"
  | ReasonValuePatternMismatch => "validate.pattern_mismatch"
  | ReasonValueFormatMismatch => "validate.format_mismatch"
  | ReasonValueMinimum => "validate.minimum"
  | ReasonValueMaximum => "validate.maximum"
  | ReasonValueExclusiveMinimum => "validate.exclusive_minimum"
  | ReasonValueExclusiveMaximum => "validate.exclusive_maximum"
  | ReasonValueMultipleOf => "validate.multiple_of"
  | ReasonValueUniqueItems => "validate.unique_items"
  | ReasonValueAllOfFailed => "validate.all_of_failed"
  | ReasonValueAnyOfFailed => "validate.any_of_failed"
  | ReasonValueOneOfFailed => "validate.one_of_failed"
  | ReasonValueNotFailed => "validate.not_failed"
  | ReasonValueIfThenFailed => "validate.if_then_failed"
  | ReasonValueIfElseFailed => "validate.if_else_failed"
  | ReasonValueDependenciesFailed => "validate.dependencies_failed"
  | ReasonValueContainsMissing => "validate.contains_missing"
  | ReasonValuePropertyNames => "validate.property_names"
  end.

(** The operands of a message's format. *)
Inductive operand := OText (s : string) | OInt (z : Z).

Record Failure := {
  Reason : ReasonCode; Message : string; Operands : list operand;
  InstancePtr : string; SchemaPtr : string; Keyword : string }.

(** Go's comparison of strings. *)
Definition text_order (a b : string) : comparison :=
  if String.eqb a b then Eq else if String.ltb a b then Lt else Gt.

(** [compareFailure]; the messages are not looked at. *)
Definition compareFailure (a b : Failure) : comparison :=
  match text_order (InstancePtr a) (InstancePtr b) with
  | Eq => match text_order (SchemaPtr a) (SchemaPtr b) with
          | Eq => match text_order (reason_text (Reason a)) (reason_text (Reason b)) with
                  | Eq => text_order (Keyword a) (Keyword b)
                  | c => c
                  end
          | c => c
          end
  | c => c
  end.

Definition less (a b : Failure) : bool := match compareFailure a b with Lt => true | _ => false end.

(** The inner loop of [Sorted]: [x] stands after the sorted part, which is given from
    its end. *)
Fixpoint sink (x : Failure) (before : list Failure) : list Failure :=
  match before with
  | [] => [x]
  | y :: before => if less x y then y :: sink x before else x :: sink y before
  end.

(** [Failures.Sorted]. *)
Definition Sorted (fs : list Failure) : list Failure :=
  rev (foldl (fun before x => sink x before) [] fs).

(** [Failures.Has]. *)
Definition Has (fs : list Failure) (r : ReasonCode) : bool :=
  existsb (fun f => bool_decide (Reason f = r)) fs.

(** ** Limits *)

Definition OSCALValidatorMaxDocumentBytes : Z := Z.shiftl 16 20.
Definition OSCALValidatorMaxDepth : nat := 256.
Definition OSCALValidatorMaxProperties : nat := 4096.
Definition OSCALValidatorMaxItems : nat := 4096.
Definition OSCALValidatorMaxFailures : nat := 256.

(** ** Decoding *)

Definition member (key : string) (ms : list (string * json)) : option json :=
  match List.find (fun kv => String.eqb key kv.1) ms with Some kv => Some kv.2 | None => None end.

Definition decode_error : Type := ReasonCode * string * list operand.
Inductive decoded (A : Type) := Decoded (a : A) | Undecodable (e : decode_error).
Arguments Decoded {A} a.
Arguments Undecodable {A} e.

Definition bad_json {A} : decoded A := Undecodable (ReasonCompileInvalidJSON, "%s", []).

(** The answer where the fuel of the functions below runs out: an error the code does not
    have. *)
Definition out_of_fuel {A} : decoded A := Undecodable (ReasonCompileInvalidJSON, "out of fuel", []).

(** One token that is a value, at its first byte: [None] is an error of the decoder. *)
Definition scalar_token (l : list Z) : option (json * list Z) :=
  match l with
  | [] => None
  | z :: r =>
      if (z =? 34)%Z then
        match parse_chars (S (List.length r)) r [] with
        | Some (s, r) => Some (JString (bytes_str s), r)
        | None => None
        end
      else if (z =? 116)%Z then option_map (pair (JBool true)) (take_word word_true l)
      else if (z =? 102)%Z then option_map (pair (JBool false)) (take_word word_false l)
      else if (z =? 110)%Z then option_map (pair JNull) (take_word word_null l)
      else match parse_number l with
           | Some (n, r) => Some (JNumber (bytes_str n), r)
           | None => None
           end
  end.

(** Whether the text goes on with the byte [b]. *)
Definition starts (b : Z) (l : list Z) : bool := match l with z :: _ => (z =? b)%Z | [] => false end.

(** What stands before the next member or element: nothing at the first, a comma at the
    others, which no closing bracket follows. *)
Definition next_item (first : bool) (l : list Z) : option (list Z) :=
  if first then Some l
  else if starts 44 l then
    let r := skip_ws (tail l) in if starts 93 r || starts 125 r then None else Some r
  else None.

Definition too_deep {A} : decoded A :=
  Undecodable (ReasonCompileResourceLimit, "JSON nesting depth exceeds limit %d", [OInt (Z.of_nat OSCALValidatorMaxDepth)]).

(** A key: a string, with the text after it. *)
Definition key_token (l : list Z) : option (string * list Z) :=
  if starts 34 l then
    match parse_chars (S (List.length (tail l))) (tail l) [] with
    | Some (k, r) => Some (bytes_str k, r)
    | None => None
    end
  else None.

(** [decodeJSONValue]; [ms] and [vs] are the members and the elements read so far, last
    first.  An element takes a call of its own, so that twice the bytes are enough fuel.
    A colon is read with the value after it, once its depth has been checked. *)
Fixpoint decodeJSONValue (fuel depth : nat) (l : list Z) : decoded (json * list Z) :=
  match fuel with
  | O => out_of_fuel
  | S fuel =>
      if (OSCALValidatorMaxDepth <? depth)%nat then too_deep
      else let l := skip_ws l in
           if starts 123 l then decode_members fuel depth [] (tail l)
           else if starts 91 l then decode_elements fuel depth [] (tail l)
           else match scalar_token l with Some x => Decoded x | None => bad_json end
  end
with decode_members (fuel depth : nat) (ms : list (string * json)) (l : list Z) : decoded (json * list Z) :=
  match fuel with
  | O => out_of_fuel
  | S fuel =>
      let l := skip_ws l in
      if starts 125 l then Decoded (JObject (rev ms), tail l)
      else if bool_decide (l = []) || starts 93 l then bad_json
      else if (OSCALValidatorMaxProperties <=? List.length ms)%nat
      then Undecodable (ReasonCompileResourceLimit, "object property count exceeds limit %d", [OInt (Z.of_nat OSCALValidatorMaxProperties)])
      else match next_item (bool_decide (ms = [])) l ≫= key_token with
           | None => bad_json
           | Some (key, r) =>
               match member key ms with
               | Some _ => Undecodable (ReasonCompileDuplicateKey, "duplicate object key %q", [OText key])
               | None =>
                   if (OSCALValidatorMaxDepth <? S depth)%nat then too_deep
                   else let r := skip_ws r in
                        if starts 58 r
                        then match decodeJSONValue fuel (S depth) (tail r) with
                             | Decoded (v, r) => decode_members fuel depth ((key, v) :: ms) r
                             | Undecodable e => Undecodable e
                             end
                        else bad_json
               end
           end
  end
with decode_elements (fuel depth : nat) (vs : list json) (l : list Z) : decoded (json * list Z) :=
  match fuel with
  | O => out_of_fuel
  | S fuel =>
      let l := skip_ws l in
      if starts 93 l then Decoded (JArray (rev vs), tail l)
      else if bool_decide (l = []) || starts 125 l then bad_json
      else if (OSCALValidatorMaxItems <=? List.length vs)%nat
      then Undecodable (ReasonCompileResourceLimit, "array item count exceeds limit %d", [OInt (Z.of_nat OSCALValidatorMaxItems)])
      else if (OSCALValidatorMaxDepth <? S depth)%nat then too_deep
      else match next_item (bool_decide (vs = [])) l with
           | Some l =>
               match decodeJSONValue fuel (S depth) l with
               | Decoded (v, r) => decode_elements fuel depth (v :: vs) r
               | Undecodable e => Undecodable e
               end
           | None => bad_json
           end
  end.

(** The token after the document: none, a token, or an error. *)
Definition after_document (l : list Z) : option bool :=
  let l := skip_ws l in
  if bool_decide (l = []) then Some false
  else if starts 123 l || starts 91 l then Some true
  else match scalar_token l with Some _ => Some true | None => None end.

Definition decodeJSONStrict (data : string) : decoded json :=
  let l := str_bytes data in
  match decodeJSONValue (2 * List.length l + 2) 0 l with
  | Undecodable e => Undecodable e
  | Decoded (v, r) =>
      match after_document r with
      | Some false => Decoded v
      | Some true => Undecodable (ReasonCompileTrailingData, "trailing data after JSON document", [])
      | None => bad_json
      end
  end.

(** ** JSON Pointers *)

(** [strings.ReplaceAll] of one byte. *)
Fixpoint replace_byte (c : ascii) (by_ s : string) : string :=
  match s with
  | EmptyString => EmptyString
  | String d s => if Ascii.eqb d c then by_ +:+ replace_byte c by_ s else String d (replace_byte c by_ s)
  end.

(** [strings.ReplaceAll] of the two bytes "~" and [c]. *)
Fixpoint replace_escape (c : ascii) (by_ s : string) : string :=
  match s with
  | EmptyString => EmptyString
  | String d r =>
      if Ascii.eqb d "~" then
        match r with
        | String e r' => if Ascii.eqb e c then by_ +:+ replace_escape c by_ r' else String d (replace_escape c by_ r)
        | EmptyString => String d EmptyString
        end
      else String d (replace_escape c by_ r)
  end.

Definition escapeJSONPointerToken (token : string) : string :=
  replace_byte "/" "~1" (replace_byte "~" "~0" token).

Definition unescapeJSONPointerToken (token : string) : string :=
  replace_escape "0" "~" (replace_escape "1" "/" token).

(** The value one token leads to; [None] stands for the errors. *)
Definition resolve_token (current : json) (token : string) : option json :=
  let token := unescapeJSONPointerToken token in
  match current with
  | JObject ms => member token ms
  | JArray vs =>
      idx ← ParseInt64 token;
      if (idx <? 0)%Z || (Z.of_nat (List.length vs) <=? idx)%Z then None else vs !! Z.to_nat idx
  | _ => None
  end.

Fixpoint resolve_tokens (current : json) (tokens : list string) : option json :=
  match tokens with
  | [] => Some current
  | t :: tokens => v ← resolve_token current t; resolve_tokens v tokens
  end.

Definition resolveJSONPointer (root : json) (ptr : string) : option json :=
  match ptr with
  | EmptyString => Some root
  | String c rest => if Ascii.eqb c "/" then resolve_tokens root (split_on "/" rest) else None
  end.

(** ** Equality of values *)

(** What [json.Marshal] writes: the members in the order of their keys. *)
Definition key_le (a b : string * string) : Prop := Is_true (String.leb a.1 b.1).
#[export] Instance key_le_dec a b : Decision (key_le a b).
Proof. unfold key_le. apply _. Defined.

Fixpoint Marshal (v : json) : string :=
  match v with
  | JNull => "null"
  | JBool b => if b then "true" else "false"
  | JNumber t => t
  | JString s => json_string s
  | JArray vs => "[" +:+ str_join "," (map Marshal vs) +:+ "]"
  | JObject ms =>
      "{" +:+ str_join "," (map (fun kt => json_string kt.1 +:+ ":" +:+ kt.2)
                              (merge_sort key_le (map (fun kv => (kv.1, Marshal kv.2)) ms))) +:+ "}"
  end.

Definition normalizeJSON (v : json) : string :=
  match v with
  | JNumber t => "num:" +:+ t
  | JNull => "null"
  | JBool b => if b then "bool:true" else "bool:false"
  | JString s => "str:" +:+ s
  | JObject _ => "obj:" +:+ Marshal v
  | JArray _ => "arr:" +:+ Marshal v
  end.

Definition jsonEqual (a b : json) : bool := String.eqb (normalizeJSON a) (normalizeJSON b).

Definition enumContains (enum : list json) (instance : json) : bool :=
  existsb (fun e => jsonEqual e instance) enum.

Fixpoint all_unseen (seen : list string) (arr : list json) : bool :=
  match arr with
  | [] => true
  | item :: arr => let key := normalizeJSON item in
                   if mem key seen then false else all_unseen (key :: seen) arr
  end.

Definition allUnique (arr : list json) : bool := all_unseen [] arr.

(** ** Keywords *)

Definition MetaKeywords : list string := ["$schema"; "$id"; "$ref"; "definitions"].

Definition ValidationKeywords : list string :=
  ["type"; "enum"; "const"; "properties"; "patternProperties"; "additionalProperties"; "propertyNames";
   "required"; "dependencies"; "minProperties"; "maxProperties"; "items"; "additionalItems"; "contains";
   "minItems"; "maxItems"; "uniqueItems"; "minLength"; "maxLength"; "pattern"; "format"; "minimum";
   "maximum"; "exclusiveMinimum"; "exclusiveMaximum"; "multipleOf"; "allOf"; "anyOf"; "oneOf"; "not";
   "if"; "then"; "else"].

Definition AnnotationKeywords : list string :=
  ["title"; "description"; "default"; "examples"; "readOnly"; "writeOnly"; "$comment"; "contentEncoding";
   "contentMediaType"].

Definition SupportedKeyword (k : string) : bool :=
  mem k MetaKeywords || mem k ValidationKeywords || mem k AnnotationKeywords.

Inductive Format := FormatDateTime | FormatURI | FormatURIReference | FormatEmail.

(** [SupportedFormats]. *)
Definition supported_format (s : string) : option Format :=
  if String.eqb s "date-time" then Some FormatDateTime
  else if String.eqb s "uri" then Some FormatURI
  else if String.eqb s "uri-reference" then Some FormatURIReference
  else if String.eqb s "email" then Some FormatEmail
  else None.

Definition format_text (f : Format) : string :=
  match f with
  | FormatDateTime => "date-time" | FormatURI => "uri" | FormatURIReference => "uri-reference"
  | FormatEmail => "email"
  end.

(** ** The libraries *)

(** [F] and [B] are float64 and [big.Float]; a regular expression is its text.
    [float_integral] is [f == float64(int64(f))], [big_parse] is [big.ParseFloat] with 256
    bits, [big_int] and [big_set_int] are [Int], which returns nil for an infinity, and
    [SetInt], [url_scheme] the scheme of a parsed URL. *)
Record golib (F B : Type) := {
  regexp_compiles : string -> bool;
  regexp_match : string -> string -> bool;
  float64_of : string -> option F;
  float_integral : F -> bool;
  float_is_zero : F -> bool;
  float_text : F -> string;
  big_of_float : F -> B;
  big_zero : B;
  big_parse : string -> option B;
  big_cmp : B -> B -> comparison;
  big_quo : B -> B -> B;
  big_int : B -> option Z;
  big_set_int : Z -> B;
  url_scheme : string -> option string;
  mail_address : string -> bool }.
Arguments regexp_compiles {F B} g _.
Arguments regexp_match {F B} g _ _.
Arguments float64_of {F B} g _.
Arguments float_integral {F B} g _.
Arguments float_is_zero {F B} g _.
Arguments float_text {F B} g _.
Arguments big_of_float {F B} g _.
Arguments big_zero {F B} g.
Arguments big_parse {F B} g _.
Arguments big_cmp {F B} g _ _.
Arguments big_quo {F B} g _ _.
Arguments big_int {F B} g _.
Arguments big_set_int {F B} g _.
Arguments url_scheme {F B} g _.
Arguments mail_address {F B} g _.

(** ** Compiled schemas *)

(** What a dependency asks for: properties, or a schema. *)
Inductive dependency (C : Type) := DepNames (names : list string) | DepSchema (s : C).
Arguments DepNames {C} names.
Arguments DepSchema {C} s.

(** [Schema]: [C] is a pointer to a schema.  [Const] joins the fields Const and
    HasConst; the properties, pattern properties and dependencies are lists without
    repeated keys, iterated in an order of the run. *)
Record Schema (F C : Type) := {
  Boolean : option bool; ID : string; Type_ : string; Enum : list json; Const : option json;
  Properties : list (string * C); PatternProperties : list (string * C);
  AdditionalProperties : option C; AdditionalPropertiesBool : option bool;
  PropertyNames : option C; Required : list string; Dependencies : list (string * dependency C);
  MinProperties : option Z; MaxProperties : option Z;
  Items : option C; AdditionalItems : option C; AdditionalItemsBool : option bool; Contains : option C;
  MinItems : option Z; MaxItems : option Z; UniqueItems : bool;
  MinLength : option Z; MaxLength : option Z; Pattern : option string; Format_ : option Format;
  Minimum : option F; Maximum : option F; ExclusiveMinimum : option F; ExclusiveMaximum : option F;
  MultipleOf : option F;
  AllOf : list C; AnyOf : list C; OneOf : list C; Not : option C;
  If_ : option C; Then_ : option C; Else_ : option C;
  Ref : option C; RefPath : string; SchemaLocation : string }.
Arguments Boolean {F C} s.
Arguments ID {F C} s.
Arguments Type_ {F C} s.
Arguments Enum {F C} s.
Arguments Const {F C} s.
Arguments Properties {F C} s.
Arguments PatternProperties {F C} s.
Arguments AdditionalProperties {F C} s.
Arguments AdditionalPropertiesBool {F C} s.
Arguments PropertyNames {F C} s.
Arguments Required {F C} s.
Arguments Dependencies {F C} s.
Arguments MinProperties {F C} s.
Arguments MaxProperties {F C} s.
Arguments Items {F C} s.
Arguments AdditionalItems {F C} s.
Arguments AdditionalItemsBool {F C} s.
Arguments Contains {F C} s.
Arguments MinItems {F C} s.
Arguments MaxItems {F C} s.
Arguments UniqueItems {F C} s.
Arguments MinLength {F C} s.
Arguments MaxLength {F C} s.
Arguments Pattern {F C} s.
Arguments Format_ {F C} s.
Arguments Minimum {F C} s.
Arguments Maximum {F C} s.
Arguments ExclusiveMinimum {F C} s.
Arguments ExclusiveMaximum {F C} s.
Arguments MultipleOf {F C} s.
Arguments AllOf {F C} s.
Arguments AnyOf {F C} s.
Arguments OneOf {F C} s.
Arguments Not {F C} s.
Arguments If_ {F C} s.
Arguments Then_ {F C} s.
Arguments Else_ {F C} s.
Arguments Ref {F C} s.
Arguments RefPath {F C} s.
Arguments SchemaLocation {F C} s.
