(* ===== verification/SchemaCompile.v ===== *)
(** The compiler of JSON Schemas ([src/internal/jsonschema/compiler.go]).

    A [Compiler] is a state: the index of the $id values, the nodes already compiled by
    their path, the failures so far, and the store of the compiled nodes.  A node is
    entered in the table before its keywords are compiled, so that a reference back to it
    finds its address; nothing reads the node before it is complete.  The order in which
    Go iterates over a map is an argument, asked once per loop. *)
From S2P Require Import Prelude Encoding Json JsonDecode SchemaModel.
From Stdlib Require Import String Ascii List ZArith Lia Bool.
From stdpp Require Import base strings list gmap pretty.
Open Scope string_scope.
Open Scope list_scope.

(** Go's iteration order over a map, loop by loop. *)
Definition orders : Type := nat -> forall A : Type, list (string * A) -> list (string * A).

Section compiler.
Context {F B : Type} (lib : golib F B) (range : orders).

Notation Node := (Schema F nat).

Record Compiler := {
  root : json; idIndex : gmap string json; idPaths : gmap string string; compiled : gmap string nat;
  cfailures : list Failure; store : gmap nat Node; turns : nat }.

Definition NewCompiler : Compiler :=
  {| root := JNull; idIndex := ∅; idPaths := ∅; compiled := ∅; cfailures := []; store := ∅; turns := 0 |}.

(** ** The state *)

Definition comp (A : Type) : Type := Compiler -> A * Compiler.
#[export] Instance comp_ret : MRet comp := fun A a c => (a, c).
#[export] Instance comp_bind : MBind comp := fun A B f m c => let '(a, c) := m c in f a c.

Definition get_state : comp Compiler := fun c => (c, c).

Definition addFailure (f : Failure) : comp unit := fun c =>
  (tt, if (List.length (cfailures c) <? OSCALValidatorMaxFailures)%nat
       then {| root := root c; idIndex := idIndex c; idPaths := idPaths c; compiled := compiled c;
               cfailures := cfailures c ++ [f]; store := store c; turns := turns c |}
       else c).

Definition fail (r : ReasonCode) (message : string) (ops : list operand) (path key : string) : comp unit :=
  addFailure {| Reason := r; Message := message; Operands := ops; InstancePtr := ""; SchemaPtr := path; Keyword := key |}.

(** [range] over a map. *)
Definition next_order {A} (l : list (string * A)) : comp (list (string * A)) := fun c =>
  (range (turns c) A l,
   {| root := root c; idIndex := idIndex c; idPaths := idPaths c; compiled := compiled c;
      cfailures := cfailures c; store := store c; turns := S (turns c) |}).

Definition set_node (a : nat) (s : Node) : comp unit := fun c =>
  (tt, {| root := root c; idIndex := idIndex c; idPaths := idPaths c; compiled := compiled c;
          cfailures := cfailures c; store := <[a := s]> (store c); turns := turns c |}).

(** [&Schema{...}]: a fresh address. *)
Definition alloc (s : Node) : comp nat := c ← get_state; let a := size (store c) in set_node a s;; mret a.

Definition set_compiled (path : string) (a : nat) : comp unit := fun c =>
  (tt, {| root := root c; idIndex := idIndex c; idPaths := idPaths c; compiled := <[path := a]> (compiled c);
          cfailures := cfailures c; store := store c; turns := turns c |}).

Definition set_id (id : string) (node : json) (path : string) : comp unit := fun c =>
  (tt, {| root := root c; idIndex := <[id := node]> (idIndex c); idPaths := <[id := path]> (idPaths c);
          compiled := compiled c; cfailures := cfailures c; store := store c; turns := turns c |}).

(** [c.failures = nil] and [c.root = v]. *)
Definition start_compile (v : json) : comp unit := fun c =>
  (tt, {| root := v; idIndex := idIndex c; idPaths := idPaths c; compiled := compiled c;
          cfailures := []; store := store c; turns := turns c |}).

Fixpoint each {A} (l : list A) (f : A -> comp unit) : comp unit :=
  match l with [] => mret tt | x :: l => f x;; each l f end.

Fixpoint collect {A R} (l : list A) (f : A -> comp R) : comp (list R) :=
  match l with [] => mret [] | x :: l => r ← f x; rs ← collect l f; mret (r :: rs) end.

(** ** Phase 1: the $id values *)

Definition child_path (path key : string) : string := path +:+ "/" +:+ escapeJSONPointerToken key.
Definition item_path (path : string) (i : nat) : string := path +:+ "/" +:+ pretty (Z.of_nat i).

Definition text_of (v : option json) : option string := match v with Some (JString s) => Some s | _ => None end.

Definition index_id (obj : list (string * json)) (path : string) : comp unit :=
  match text_of (member "$id" obj) with
  | Some id =>
      if str_nonempty id then
        c ← get_state;
        match idIndex c !! id, idPaths c !! id with
        | Some _, existing =>
            let existingPath := default "" existing in
            if String.eqb existingPath path then mret tt
            else fail ReasonCompileDuplicateID "duplicate $id %q at %s and %s" [OText id; OText existingPath; OText path] path "$id"
        | None, _ => set_id id (JObject obj) path
        end
      else mret tt
  | None => mret tt
  end.

(** The elements of a list with their positions. *)
Fixpoint numbered {A} (i : nat) (l : list A) : list (nat * A) :=
  match l with [] => [] | x :: l => (i, x) :: numbered (S i) l end.

(** What the members of an object do when they are visited in the order of the run. *)
Definition in_order (actions : list (string * comp unit)) : comp unit :=
  actions ← next_order actions; each actions snd.

Inductive keyword_class := OneSchema | SchemaList | SchemaMap | SchemaDependencies | NoSchema.

(** The switch of [indexIDsKeyword]. *)
Definition keyword_class_of (key : string) : keyword_class :=
  if mem key ["additionalProperties"; "additionalItems"; "propertyNames"; "items"; "contains"; "not"; "if"; "then"; "else"]
  then OneSchema
  else if mem key ["allOf"; "anyOf"; "oneOf"] then SchemaList
  else if mem key ["properties"; "patternProperties"; "definitions"] then SchemaMap
  else if String.eqb key "dependencies" then SchemaDependencies
  else NoSchema.

Fixpoint indexIDs (node : json) (path : string) {struct node} : comp unit :=
  match node with
  | JObject ms =>
      index_id ms path;;
      in_order
        (map (fun kv =>
           (kv.1,
            let childPath := child_path path kv.1 in
            match keyword_class_of kv.1, kv.2 with
            | OneSchema, JBool _ => mret tt
            | OneSchema, _ => indexIDs kv.2 childPath
            | SchemaList, JArray arr =>
                each (numbered 0 (map indexIDs arr)) (fun item => item.2 (item_path childPath item.1))
            | SchemaMap, JObject m =>
                in_order (map (fun kv' => (kv'.1, indexIDs kv'.2 (child_path childPath kv'.1))) m)
            | SchemaDependencies, JObject m =>
                in_order (map (fun kv' => (kv'.1, match kv'.2 with
                                                  | JObject _ => indexIDs kv'.2 (child_path childPath kv'.1)
                                                  | _ => mret tt
                                                  end)) m)
            | _, _ => mret tt
            end)) ms)
  | _ => mret tt
  end.

(** ** References *)

Definition resolveRef (ref : string) : comp (option (json * string)) :=
  c ← get_state;
  if String.eqb ref "#" then mret (Some (root c, ""))
  else if String.prefix "#/definitions/" ref then
    let ptr := substring 1 (String.length ref - 1) ref in
    mret match resolveJSONPointer (root c) ptr with Some v => Some (v, ptr) | None => None end
  else if String.prefix "#" ref then
    mret match idIndex c !! ref with Some node => Some (node, default "" (idPaths c !! ref)) | None => None end
  else mret None.

(** ** Phase 2: the keywords *)

Definition parseIntPtr (v : option json) : option Z :=
  match v with Some (JNumber n) => ParseInt64 n | _ => None end.

Definition parseFloatPtr (v : option json) : option F :=
  match v with Some (JNumber n) => float64_of lib n | _ => None end.

Definition texts (l : list json) : list string :=
  omap (fun v => match v with JString s => Some s | _ => None end) l.

(** The names of a type array: the first one is kept. *)
Fixpoint type_names (typ : string) (l : list json) : option string * string :=
  match l with
  | [] => (None, typ)
  | JString name :: l => type_names (if str_nonempty typ then typ else name) l
  | _ :: _ => (Some "type array must contain only strings", typ)
  end.

Definition compileTypeKeyword (obj : list (string * json)) (path : string) : comp string :=
  match member "type" obj with
  | None => mret ""
  | Some (JString typ) => mret typ
  | Some (JArray []) =>
      fail ReasonCompileInvalidKeywordValue "type array must contain at least one string" [] path "type";; mret ""
  | Some (JArray l) =>
      match type_names "" l with
      | (Some message, typ) => fail ReasonCompileInvalidKeywordValue message [] path "type";; mret typ
      | (None, typ) => mret typ
      end
  | Some _ => fail ReasonCompileInvalidKeywordValue "type must be a string or array of strings, got %T" [] path "type";; mret ""
  end.

Definition compile_enum (obj : list (string * json)) (path : string) : comp (list json) :=
  match member "enum" obj with
  | None => mret []
  | Some (JArray values) => mret values
  | Some _ => fail ReasonCompileInvalidKeywordValue "enum must be an array" [] path "enum";; mret []
  end.

Definition compile_pattern (obj : list (string * json)) (path : string) : comp (option string) :=
  match text_of (member "pattern" obj) with
  | Some pattern =>
      if regexp_compiles lib pattern then mret (Some pattern)
      else fail ReasonCompileInvalidRegex "pattern %q is not a valid regex: %v" [OText pattern] path "pattern";; mret None
  | None => mret None
  end.

Definition compile_format (obj : list (string * json)) (path : string) : comp (option Format) :=
  match text_of (member "format" obj) with
  | Some format =>
      match supported_format format with
      | Some f => mret (Some f)
      | None => fail ReasonCompileUnsupportedFormat "unsupported format %q" [OText format] path "format";; mret None
      end
  | None => mret None
  end.

(** [&Schema{Boolean: &b, SchemaLocation: path}]. *)
Definition bool_schema (b : option bool) (path : string) : Node :=
  {| Boolean := b; ID := ""; Type_ := ""; Enum := []; Const := None; Properties := []; PatternProperties := [];
     AdditionalProperties := None; AdditionalPropertiesBool := None; PropertyNames := None; Required := [];
     Dependencies := []; MinProperties := None; MaxProperties := None; Items := None; AdditionalItems := None;
     AdditionalItemsBool := None; Contains := None; MinItems := None; MaxItems := None; UniqueItems := false;
     MinLength := None; MaxLength := None; Pattern := None; Format_ := None; Minimum := None; Maximum := None;
     ExclusiveMinimum := None; ExclusiveMaximum := None; MultipleOf := None; AllOf := []; AnyOf := []; OneOf := [];
     Not := None; If_ := None; Then_ := None; Else_ := None; Ref := None; RefPath := ""; SchemaLocation := path |}.

(** A schema that is a reference, or an unresolved one. *)
Definition ref_schema (b : option bool) (id ref : string) (target : option nat) (path : string) : Node :=
  {| Boolean := b; ID := id; Type_ := ""; Enum := []; Const := None; Properties := []; PatternProperties := [];
     AdditionalProperties := None; AdditionalPropertiesBool := None; PropertyNames := None; Required := [];
     Dependencies := []; MinProperties := None; MaxProperties := None; Items := None; AdditionalItems := None;
     AdditionalItemsBool := None; Contains := None; MinItems := None; MaxItems := None; UniqueItems := false;
     MinLength := None; MaxLength := None; Pattern := None; Format_ := None; Minimum := None; Maximum := None;
     ExclusiveMinimum := None; ExclusiveMaximum := None; MultipleOf := None; AllOf := []; AnyOf := []; OneOf := [];
     Not := None; If_ := None; Then_ := None; Else_ := None; Ref := target; RefPath := ref; SchemaLocation := path |}.

Section keywords.
(** [c.compileNode(.., depth+1)]. *)
Context (compile : json -> string -> comp nat).

(** A loop over a map of schemas. *)
Definition compile_map (path : string) (m : list (string * json)) : comp (list (string * nat)) :=
  m ← next_order m;
  collect m (fun kv => a ← compile kv.2 (child_path path kv.1); mret (kv.1, a)).

Definition compile_properties (obj : list (string * json)) (path : string) : comp (list (string * nat)) :=
  match member "properties" obj with
  | Some (JObject m) => compile_map (path +:+ "/properties") m
  | _ => mret []
  end.

(** A key that is not a regular expression is reported and room out. *)
Definition compile_patternProperties (obj : list (string * json)) (path : string) : comp (list (string * nat)) :=
  match member "patternProperties" obj with
  | Some (JObject m) =>
      m ← next_order m;
      rs ← collect m (fun kv =>
             if regexp_compiles lib kv.1
             then a ← compile kv.2 (child_path (path +:+ "/patternProperties") kv.1); mret [(kv.1, a)]
             else fail ReasonCompileInvalidRegex "patternProperties key %q is not a valid regex: %v" [OText kv.1] path
                       "patternProperties";; mret []);
      mret (concat rs)
  | _ => mret []
  end.

(** additionalProperties and additionalItems: a boolean is kept apart. *)
Definition compile_additional (key : string) (obj : list (string * json)) (path : string) : comp (option nat * option bool) :=
  match member key obj with
  | Some (JBool v) => mret (None, Some v)
  | Some (JObject v) => a ← compile (JObject v) (path +:+ "/" +:+ key); mret (Some a, None)
  | _ => mret (None, None)
  end.

Definition compile_propertyNames (obj : list (string * json)) (path : string) : comp (option nat) :=
  match member "propertyNames" obj with
  | None => mret None
  | Some (JBool b) => if b then mret None else a ← alloc (bool_schema (Some false) ""); mret (Some a)
  | Some pn => a ← compile pn (path +:+ "/propertyNames"); mret (Some a)
  end.

Definition compile_required (obj : list (string * json)) : list string :=
  match member "required" obj with Some (JArray arr) => texts arr | _ => [] end.

Definition compile_dependencies (obj : list (string * json)) (path : string) : comp (list (string * dependency nat)) :=
  match member "dependencies" obj with
  | Some (JObject m) =>
      m ← next_order m;
      rs ← collect m (fun kv =>
             match kv.2 with
             | JArray v => mret [(kv.1, DepNames (texts v))]
             | JObject v => a ← compile (JObject v) (child_path (path +:+ "/dependencies") kv.1); mret [(kv.1, DepSchema a)]
             | JBool v => a ← alloc (bool_schema (Some v) ""); mret [(kv.1, DepSchema a)]
             | _ => mret []
             end);
      mret (concat rs)
  | _ => mret []
  end.

(** Of a tuple the first schema is taken for every item. *)
Definition compile_items (obj : list (string * json)) (path : string) : comp (option nat) :=
  match member "items" obj with
  | Some (JBool v) => a ← alloc (bool_schema (Some v) ""); mret (Some a)
  | Some (JObject v) => a ← compile (JObject v) (path +:+ "/items"); mret (Some a)
  | Some (JArray (v :: _)) => a ← compile v (path +:+ "/items/0"); mret (Some a)
  | _ => mret None
  end.

(** contains, not, if, then and else: a boolean is skipped. *)
Definition compile_unless_bool (key : string) (obj : list (string * json)) (path : string) : comp (option nat) :=
  match member key obj with
  | None | Some (JBool _) => mret None
  | Some v => a ← compile v (path +:+ "/" +:+ key); mret (Some a)
  end.

Definition compile_list (key : string) (obj : list (string * json)) (path : string) : comp (list nat) :=
  match member key obj with
  | Some (JArray arr) => collect (numbered 0 arr) (fun item => compile item.2 (item_path (path +:+ "/" +:+ key) item.1))
  | _ => mret []
  end.

Definition check_keywords (obj : list (string * json)) (path : string) : comp unit :=
  obj ← next_order obj;
  each obj (fun kv => if SupportedKeyword kv.1 then mret tt
                      else fail ReasonCompileUnrecognizedKeyword "unrecognized keyword %q" [OText kv.1] path kv.1).

(** The body of [compileNode] for an object that is met for the first time. *)
Definition compile_object (obj : list (string * json)) (path : string) : comp Node :=
  check_keywords obj path;;
  let id := default "" (text_of (member "$id" obj)) in
  match text_of (member "$ref" obj) with
  | Some ref =>
      target ← resolveRef ref;
      match target with
      | None =>
          fail ReasonCompileUnresolvedRef "unresolved $ref %q: %v" [OText ref] path "$ref";;
          mret (ref_schema (Some false) id ref None path)
      | Some (target, targetPath) => a ← compile target targetPath; mret (ref_schema None id ref (Some a) path)
      end
  | None =>
      typ ← compileTypeKeyword obj path;
      enum ← compile_enum obj path;
      pattern ← compile_pattern obj path;
      format ← compile_format obj path;
      properties ← compile_properties obj path;
      patternProperties ← compile_patternProperties obj path;
      additionalProperties ← compile_additional "additionalProperties" obj path;
      propertyNames ← compile_propertyNames obj path;
      dependencies ← compile_dependencies obj path;
      items ← compile_items obj path;
      additionalItems ← compile_additional "additionalItems" obj path;
      contains ← compile_unless_bool "contains" obj path;
      allOf ← compile_list "allOf" obj path;
      anyOf ← compile_list "anyOf" obj path;
      oneOf ← compile_list "oneOf" obj path;
      not ← compile_unless_bool "not" obj path;
      if_ ← compile_unless_bool "if" obj path;
      then_ ← compile_unless_bool "then" obj path;
      else_ ← compile_unless_bool "else" obj path;
      mret {| Boolean := None; ID := id; Type_ := typ; Enum := enum; Const := member "const" obj;
              Properties := properties; PatternProperties := patternProperties;
              AdditionalProperties := additionalProperties.1; AdditionalPropertiesBool := additionalProperties.2;
              PropertyNames := propertyNames; Required := compile_required obj; Dependencies := dependencies;
              MinProperties := parseIntPtr (member "minProperties" obj);
              MaxProperties := parseIntPtr (member "maxProperties" obj);
              Items := items; AdditionalItems := additionalItems.1; AdditionalItemsBool := additionalItems.2;
              Contains := contains; MinItems := parseIntPtr (member "minItems" obj);
              MaxItems := parseIntPtr (member "maxItems" obj);
              UniqueItems := match member "uniqueItems" obj with Some (JBool b) => b | _ => false end;
              MinLength := parseIntPtr (member "minLength" obj); MaxLength := parseIntPtr (member "maxLength" obj);
              Pattern := pattern; Format_ := format;
              Minimum := parseFloatPtr (member "minimum" obj); Maximum := parseFloatPtr (member "maximum" obj);
              ExclusiveMinimum := parseFloatPtr (member "exclusiveMinimum" obj);
              ExclusiveMaximum := parseFloatPtr (member "exclusiveMaximum" obj);
              MultipleOf := parseFloatPtr (member "multipleOf" obj);
              AllOf := allOf; AnyOf := anyOf; OneOf := oneOf; Not := not;
              If_ := if_; Then_ := then_; Else_ := else_; Ref := None; RefPath := ""; SchemaLocation := path |}
  end.
End keywords.

(** [compileNode]: [room] is how much deeper it may go, the maximum depth and one more at
    the root. *)
Fixpoint compileNode (room : nat) (node : json) (path : string) : comp nat :=
  match room with
  | O =>
      fail ReasonCompileResourceLimit "schema nesting depth exceeds limit %d" [OInt (Z.of_nat OSCALValidatorMaxDepth)] path "";;
      alloc (bool_schema (Some false) "")
  | S room =>
      match node with
      | JBool b => alloc (bool_schema (Some b) path)
      | JObject obj =>
          c ← get_state;
          match compiled c !! path with
          | Some existing => mret existing
          | None =>
              a ← alloc (bool_schema None path);
              set_compiled path a;;
              s ← compile_object (compileNode room) obj path;
              set_node a s;;
              mret a
          end
      | _ =>
          fail ReasonCompileInvalidType "schema must be a boolean or object, got %T" [] path "";;
          alloc (bool_schema (Some false) "")
      end
  end.

(** [Compile]: the root's address, to be read in the compiler's store, or the failures. *)
Definition Compile (data : string) : comp (nat + list Failure) :=
  match decodeJSONStrict data with
  | Undecodable (reason, message, ops) =>
      fun c => (inr [{| Reason := reason; Message := "%s: " +:+ message; Operands := OText (reason_text reason) :: ops;
                        InstancePtr := ""; SchemaPtr := ""; Keyword := "" |}],
                {| root := root c; idIndex := idIndex c; idPaths := idPaths c; compiled := compiled c;
                   cfailures := []; store := store c; turns := turns c |})
  | Decoded v =>
      start_compile v;;
      indexIDs v "";;
      s ← compileNode (S OSCALValidatorMaxDepth) v "";
      c ← get_state;
      mret match cfailures c with [] => inl s | fs => inr (Sorted fs) end
  end.
End compiler.
