(* ===== verification/SchemaValidate.v ===== *)
(** The validator of JSON Schemas ([src/internal/jsonschema/validator.go]).

    [validate] walks a compiled schema, a node of the compiler's store, along a decoded
    value and adds to a collector of failures.  A collector keeps at most [cap] failures
    and counts the loops over maps, whose order is an argument as in the compiler; it also
    remembers that the walk panicked, after which nothing it holds is returned.  [room]
    is how much deeper the walk may go: the maximum depth and one more at the root. *)
From S2P Require Import Prelude Encoding Json JsonDecode TimeParse SchemaModel SchemaCompile.
From Stdlib Require Import String Ascii List ZArith Lia Bool.
From stdpp Require Import base strings list gmap pretty.
Open Scope string_scope.
Open Scope list_scope.

Record failureCollector := { failures : list Failure; cap : nat; loops : nat; panicked : bool }.

Definition add (f : Failure) (fc : failureCollector) : failureCollector :=
  if (List.length (failures fc) <? cap fc)%nat
  then {| failures := failures fc ++ [f]; cap := cap fc; loops := loops fc; panicked := panicked fc |} else fc.

(** A run-time panic. *)
Definition panic (fc : failureCollector) : failureCollector :=
  {| failures := failures fc; cap := cap fc; loops := loops fc; panicked := true |}.

Definition hasFailures (fc : failureCollector) : bool := match failures fc with [] => false | _ => true end.

(** A collector of its own for a subschema; the count of loops goes on. *)
Definition sub_collector (cap : nat) (fc : failureCollector) : failureCollector :=
  {| failures := []; cap := cap; loops := loops fc; panicked := panicked fc |}.

Definition resume (sub fc : failureCollector) : failureCollector :=
  {| failures := failures fc; cap := cap fc; loops := loops sub; panicked := panicked sub |}.

Section validator.
Context {F B : Type} (lib : golib F B) (range : orders).
Notation Node := (Schema F nat).
Context (store : gmap nat Node).

(** ** Helper functions *)

Definition typeMatches (typ : string) (instance : json) : bool :=
  if String.eqb typ "object" then match instance with JObject _ => true | _ => false end
  else if String.eqb typ "array" then match instance with JArray _ => true | _ => false end
  else if String.eqb typ "string" then match instance with JString _ => true | _ => false end
  else if String.eqb typ "integer" then
    match instance with
    | JNumber n => match ParseInt64 n with
                   | Some _ => true
                   | None => match float64_of lib n with Some f => float_integral lib f | None => false end
                   end
    | _ => false
    end
  else if String.eqb typ "number" then match instance with JNumber _ => true | _ => false end
  else if String.eqb typ "boolean" then match instance with JBool _ => true | _ => false end
  else if String.eqb typ "null" then match instance with JNull => true | _ => false end
  else false.

Definition jsonTypeName (instance : json) : string :=
  match instance with
  | JObject _ => "object" | JArray _ => "array" | JString _ => "string" | JNumber _ => "number"
  | JBool _ => "boolean" | JNull => "null"
  end.

Definition toBigFloat (n : string) : B := match big_parse lib n with Some b => b | None => big_zero lib end.

(** [None] is a panic: [Int] of an infinite quotient is nil, and [SetInt] dereferences it. *)
Definition isMultipleOf (val : B) (divisor : F) : option bool :=
  if float_is_zero lib divisor then Some false
  else let quotient := big_quo lib val (big_of_float lib divisor) in
       match big_int lib quotient with
       | Some intPart => Some match big_cmp lib quotient (big_set_int lib intPart) with Eq => true | _ => false end
       | None => None
       end.

Definition validateFormat (format : Format) (str : string) : bool :=
  match format with
  | FormatDateTime => match parse_rfc3339 str with Some _ => true | None => false end
  | FormatURI => match url_scheme lib str with Some scheme => str_nonempty scheme | None => false end
  | FormatURIReference => match url_scheme lib str with Some _ => true | None => false end
  | FormatEmail => mail_address lib str
  end.

(** The length of a string in runes. *)
Fixpoint count_runes (fuel : nat) (l : list Z) : nat :=
  match fuel, l with
  | O, _ | _, [] => O
  | S fuel, _ => S (count_runes fuel (skipn (decode_rune l).2 l))
  end.

Definition rune_len (s : string) : Z := Z.of_nat (count_runes (String.length s) (str_bytes s)).

(** [Resolved]: the chain of references, up to 64 of them. *)
Fixpoint follow (n : nat) (a : nat) : option Node :=
  s ← store !! a;
  match Ref s, n with
  | Some b, S n => follow n b
  | _, _ => Some s
  end.

Definition Resolved (a : nat) : option Node := follow 64 a.

(** ** Failures of the keywords *)

Definition failure (r : ReasonCode) (message : string) (ops : list operand) (ptr : string) (schema : Node)
    (keyword : string) : Failure :=
  {| Reason := r; Message := message; Operands := ops; InstancePtr := ptr; SchemaPtr := SchemaLocation schema;
     Keyword := keyword |}.

(** [if cond { fc.add(...) }] *)
Definition report (cond : bool) (f : Failure) (fc : failureCollector) : failureCollector :=
  if cond then add f fc else fc.

(** A bound that may be absent. *)
Definition bound {A} (limit : option A) (exceeded : A -> bool) (f : A -> Failure) (fc : failureCollector) : failureCollector :=
  match limit with Some l => report (exceeded l) (f l) fc | None => fc end.

(** [if o != nil { ... }], [if len(l) > 0 { ... }], and a step after an answer. *)
Definition optionally {A} (o : option A) (step : A -> failureCollector -> failureCollector) (fc : failureCollector) : failureCollector :=
  match o with Some a => step a fc | None => fc end.

Definition if_any {A} (l : list A) (step : failureCollector -> failureCollector) (fc : failureCollector) : failureCollector :=
  match l with [] => fc | _ => step fc end.

Definition given {A R} (ask : failureCollector -> A * failureCollector) (step : A -> failureCollector -> R) (fc : failureCollector) : R :=
  let '(x, fc) := ask fc in step x fc.

(** [for key, val := range m]. *)
Definition over_map {A} (m : list (string * A)) (body : string -> A -> failureCollector -> failureCollector)
    (fc : failureCollector) : failureCollector :=
  let order := range (loops fc) A m in
  foldl (fun fc kv => body kv.1 kv.2 fc)
    {| failures := failures fc; cap := cap fc; loops := S (loops fc); panicked := panicked fc |} order.

Definition has_key {A} (key : string) (m : list (string * A)) : bool := existsb (fun kv => String.eqb key kv.1) m.

Definition lookup_key {A} (key : string) (m : list (string * A)) : option A :=
  match List.find (fun kv => String.eqb key kv.1) m with Some kv => Some kv.2 | None => None end.

Section keywords.
(** [v.validate] one level deeper. *)
Context (validate : nat -> json -> string -> failureCollector -> failureCollector).

(** A subschema with a collector of its own: whether it failed. *)
Definition fails_within (n : nat) (s : nat) (instance : json) (ptr : string) (fc : failureCollector) : bool * failureCollector :=
  let sub := validate s instance ptr (sub_collector n fc) in
  (hasFailures sub, resume sub fc).

(** One property of an object against properties, patternProperties and
    additionalProperties. *)
Definition validate_property (schema : Node) (ptr : string) (key : string) (val : json) (fc : failureCollector) : failureCollector :=
  let childPtr := child_path ptr key in
  let matched := has_key key (Properties schema) || existsb (fun p => regexp_match lib p.1 key) (PatternProperties schema) in
  let fc := optionally (lookup_key key (Properties schema)) (fun sub => validate sub val childPtr) fc in
  let fc := over_map (PatternProperties schema)
              (fun re sub fc => if regexp_match lib re key then validate sub val childPtr fc else fc) fc in
  if matched then fc
  else match AdditionalPropertiesBool schema with
       | Some false =>
           add (failure ReasonValueAdditionalProp "additional property %q is not allowed" [OText key] childPtr schema
                  "additionalProperties") fc
       | _ => optionally (AdditionalProperties schema) (fun sub => validate sub val childPtr) fc
       end.

Definition validate_dependency (schema : Node) (obj : list (string * json)) (ptr depKey : string) (dep : dependency nat)
    (fc : failureCollector) : failureCollector :=
  if has_key depKey obj then
    match dep with
    | DepNames names =>
        foldl (fun fc name => report (negb (has_key name obj))
                 (failure ReasonValueDependenciesFailed "property %q requires %q" [OText depKey; OText name] ptr schema
                    "dependencies") fc) fc names
    | DepSchema d => validate d (JObject obj) ptr fc
    end
  else fc.

Definition validateObject (schema : Node) (obj : list (string * json)) (ptr : string) (fc : failureCollector) : failureCollector :=
  let count := Z.of_nat (List.length obj) in
  let fc := foldl (fun fc req => report (negb (has_key req obj))
              (failure ReasonValueRequiredMissing "required property %q is missing" [OText req] ptr schema "required") fc)
              fc (Required schema) in
  let fc := bound (MinProperties schema) (fun m => (count <? m)%Z)
              (fun m => failure ReasonValueMinProperties "has %d properties, minimum is %d" [OInt count; OInt m] ptr schema
                          "minProperties") fc in
  let fc := bound (MaxProperties schema) (fun m => (m <? count)%Z)
              (fun m => failure ReasonValueMaxProperties "has %d properties, maximum is %d" [OInt count; OInt m] ptr schema
                          "maxProperties") fc in
  let fc := over_map obj (validate_property schema ptr) fc in
  let fc := optionally (PropertyNames schema)
              (fun names => over_map obj (fun key _ => validate names (JString key) (child_path ptr key))) fc in
  over_map (Dependencies schema) (validate_dependency schema obj ptr) fc.

(** The search of contains: whether an item passes. *)
Fixpoint any_item (contains : nat) (arr : list json) (fc : failureCollector) : bool * failureCollector :=
  match arr with
  | [] => (false, fc)
  | item :: arr => given (fails_within 1 contains item "")
                     (fun failed fc => if failed then any_item contains arr fc else (true, fc)) fc
  end.

Definition validateArray (schema : Node) (arr : list json) (ptr : string) (fc : failureCollector) : failureCollector :=
  let count := Z.of_nat (List.length arr) in
  let fc := bound (MinItems schema) (fun m => (count <? m)%Z)
              (fun m => failure ReasonValueMinItems "has %d items, minimum is %d" [OInt count; OInt m] ptr schema "minItems") fc in
  let fc := bound (MaxItems schema) (fun m => (m <? count)%Z)
              (fun m => failure ReasonValueMaxItems "has %d items, maximum is %d" [OInt count; OInt m] ptr schema "maxItems") fc in
  let fc := report (UniqueItems schema && negb (allUnique arr))
              (failure ReasonValueUniqueItems "array items are not unique" [] ptr schema "uniqueItems") fc in
  let fc := optionally (Items schema)
              (fun items fc => foldl (fun fc item => validate items item.2 (item_path ptr item.1) fc) fc (numbered 0 arr)) fc in
  optionally (Contains schema)
    (fun contains => given (any_item contains arr)
       (fun found => report (negb found)
          (failure ReasonValueContainsMissing "no array item matches the contains schema" [] ptr schema "contains"))) fc.

Definition validateString (schema : Node) (str ptr : string) (fc : failureCollector) : failureCollector :=
  let runeLen := rune_len str in
  let fc := bound (MinLength schema) (fun m => (runeLen <? m)%Z)
              (fun m => failure ReasonValueMinLength "string length %d, minimum is %d" [OInt runeLen; OInt m] ptr schema "minLength") fc in
  let fc := bound (MaxLength schema) (fun m => (m <? runeLen)%Z)
              (fun m => failure ReasonValueMaxLength "string length %d, maximum is %d" [OInt runeLen; OInt m] ptr schema "maxLength") fc in
  let fc := bound (Pattern schema) (fun p => negb (regexp_match lib p str))
              (fun p => failure ReasonValuePatternMismatch "string does not match pattern %s" [OText p] ptr schema "pattern") fc in
  bound (Format_ schema) (fun f => negb (validateFormat f str))
    (fun f => failure ReasonValueFormatMismatch "string does not match format %s" [OText (format_text f)] ptr schema "format") fc.

Definition below (a b : B) : bool := match big_cmp lib a b with Lt => true | _ => false end.

Definition validateNumber (schema : Node) (n ptr : string) (fc : failureCollector) : failureCollector :=
  let val := toBigFloat n in
  let big := big_of_float lib in
  let why (r : ReasonCode) (message keyword : string) (f : F) := failure r message [OText (float_text lib f)] ptr schema keyword in
  let fc := bound (Minimum schema) (fun m => below val (big m))
              (why ReasonValueMinimum "value is less than minimum %v" "minimum") fc in
  let fc := bound (Maximum schema) (fun m => match big_cmp lib val (big m) with Gt => true | _ => false end)
              (why ReasonValueMaximum "value is greater than maximum %v" "maximum") fc in
  let fc := bound (ExclusiveMinimum schema) (fun m => match big_cmp lib val (big m) with Gt => false | _ => true end)
              (why ReasonValueExclusiveMinimum "value is not greater than exclusiveMinimum %v" "exclusiveMinimum") fc in
  let fc := bound (ExclusiveMaximum schema) (fun m => negb (below val (big m)))
              (why ReasonValueExclusiveMaximum "value is not less than exclusiveMaximum %v" "exclusiveMaximum") fc in
  optionally (MultipleOf schema)
    (fun m => match isMultipleOf val m with
              | Some multiple => report (negb multiple) (why ReasonValueMultipleOf "value is not a multiple of %v" "multipleOf" m)
              | None => panic
              end) fc.

(** allOf: the first schema that fails is reported. *)
Fixpoint all_of (subs : list nat) (instance : json) (ptr : string) (f : Failure) (fc : failureCollector) : failureCollector :=
  match subs with
  | [] => fc
  | sub :: subs => given (fails_within OSCALValidatorMaxFailures sub instance ptr)
                     (fun failed => if failed then add f else all_of subs instance ptr f) fc
  end.

Fixpoint any_of (subs : list nat) (instance : json) (ptr : string) (fc : failureCollector) : bool * failureCollector :=
  match subs with
  | [] => (false, fc)
  | sub :: subs => given (fails_within 1 sub instance ptr)
                     (fun failed fc => if failed then any_of subs instance ptr fc else (true, fc)) fc
  end.

(** How many schemas of oneOf pass. *)
Fixpoint one_of (subs : list nat) (instance : json) (ptr : string) (fc : failureCollector) : nat * failureCollector :=
  match subs with
  | [] => (O, fc)
  | sub :: subs => given (fails_within 1 sub instance ptr)
                     (fun failed => given (one_of subs instance ptr) (fun n fc => (if failed then n else S n, fc))) fc
  end.

(** then or else. *)
Definition branch (sub : option nat) (instance : json) (ptr : string) (f : Failure) (fc : failureCollector) : failureCollector :=
  optionally sub (fun s => given (fails_within OSCALValidatorMaxFailures s instance ptr) (fun failed => report failed f)) fc.

Definition validateConditionals (schema : Node) (instance : json) (ptr : string) (fc : failureCollector) : failureCollector :=
  let why (r : ReasonCode) (message keyword : string) := failure r message [] ptr schema keyword in
  let fc := all_of (AllOf schema) instance ptr
              (why ReasonValueAllOfFailed "instance does not validate against all allOf schemas" "allOf") fc in
  let fc := if_any (AnyOf schema)
              (given (any_of (AnyOf schema) instance ptr)
                 (fun anyValid => report (negb anyValid)
                    (why ReasonValueAnyOfFailed "instance does not validate against any anyOf schema" "anyOf"))) fc in
  let fc := if_any (OneOf schema)
              (given (one_of (OneOf schema) instance ptr)
                 (fun validCount => report (negb (validCount =? 1)%nat)
                    (failure ReasonValueOneOfFailed "instance validates against %d oneOf schemas (must be exactly 1)"
                       [OInt (Z.of_nat validCount)] ptr schema "oneOf"))) fc in
  let fc := optionally (Not schema)
              (fun sub => given (fails_within 1 sub instance ptr)
                 (fun failed => report (negb failed)
                    (why ReasonValueNotFailed "instance validates against the not schema (must not)" "not"))) fc in
  optionally (If_ schema)
    (fun cond => given (fails_within 1 cond instance ptr)
       (fun failed =>
          if failed
          then branch (Else_ schema) instance ptr (why ReasonValueIfElseFailed "instance does not validate if or else" "else")
          else branch (Then_ schema) instance ptr (why ReasonValueIfThenFailed "instance validates if but not then" "then"))) fc.

(** The keywords of a schema that is not boolean. *)
Definition validate_keywords (schema : Node) (instance : json) (ptr : string) (fc : failureCollector) : failureCollector :=
  if str_nonempty (Type_ schema) && negb (typeMatches (Type_ schema) instance)
  then add (failure ReasonValueTypeMismatch "expected type %s, got %s" [OText (Type_ schema); OText (jsonTypeName instance)]
              ptr schema "type") fc
  else
    let fc := report (match Enum schema with [] => false | enum => negb (enumContains enum instance) end)
                (failure ReasonValueEnumMismatch "value is not one of the allowed enum values" [] ptr schema "enum") fc in
    let fc := bound (Const schema) (fun c => negb (jsonEqual c instance))
                (fun _ => failure ReasonValueConstMismatch "value does not match const" [] ptr schema "const") fc in
    validateConditionals schema instance ptr
      match instance with
      | JObject obj => validateObject schema obj ptr fc
      | JArray arr => validateArray schema arr ptr fc
      | JString str => validateString schema str ptr fc
      | JNumber n => validateNumber schema n ptr fc
      | _ => fc
      end.
End keywords.

(** ** The walk *)

Fixpoint validate (room : nat) (a : nat) (instance : json) (ptr : string) (fc : failureCollector) : failureCollector :=
  match room with
  | O => add {| Reason := ReasonCompileResourceLimit; Message := "validation depth exceeds limit %d";
                Operands := [OInt (Z.of_nat OSCALValidatorMaxDepth)]; InstancePtr := ptr; SchemaPtr := ""; Keyword := "" |} fc
  | S room =>
      match Resolved a with
      | None => fc
      | Some schema =>
          match Boolean schema with
          | Some true => fc
          | Some false =>
              add (failure ReasonValueTypeMismatch "schema rejects all values (boolean false)" [] ptr schema "") fc
          | None => validate_keywords (validate room) schema instance ptr fc
          end
      end
  end.

(** [ValidateValue]; [None] is a panic. *)
Definition ValidateValue (a : nat) (instance : json) : option (list Failure) :=
  let fc := validate (S OSCALValidatorMaxDepth) a instance ""
              {| failures := []; cap := OSCALValidatorMaxFailures; loops := 0; panicked := false |} in
  if panicked fc then None else Some (Sorted (failures fc)).

(** [Validate]. *)
Definition Validate (a : nat) (data : string) : option (list Failure) :=
  let why (r : ReasonCode) (message : string) (ops : list operand) :=
    Some [{| Reason := r; Message := message; Operands := ops; InstancePtr := ""; SchemaPtr := ""; Keyword := "" |}] in
  let size := Z.of_nat (String.length data) in
  if (OSCALValidatorMaxDocumentBytes <? size)%Z
  then why ReasonCompileResourceLimit "document size %d exceeds limit %d" [OInt size; OInt OSCALValidatorMaxDocumentBytes]
  else match decodeJSONStrict data with
       | Undecodable (reason, message, ops) => why reason ("%s: " +:+ message) (OText (reason_text reason) :: ops)
       | Decoded instance => ValidateValue a instance
       end.
End validator.
