(* ===== verification/SchemaSpec.v ===== *)
(** What a schema means, and that the validator decides it.

    [meets] is the meaning of one schema as a boolean function, given the meaning of its
    subschemas: no collectors, no pointers, no order of iteration.  [accepts] is that
    meaning along a store of compiled schemas.  The validator reports a failure exactly
    when [accepts] is false, whatever the order in which maps are iterated. *)
From S2P Require Import Prelude Encoding Json JsonDecode TimeParse SchemaModel SchemaCompile SchemaValidate.
From Stdlib Require Import String Ascii List ZArith Lia Bool.
From stdpp Require Import base strings list gmap pretty.
Open Scope string_scope.
Open Scope list_scope.

(** ** The meaning of a schema *)

Section meaning.
Context {F B : Type} (lib : golib F B) {C : Type}.
Context (sub : C -> json -> bool).

Definition within {A} (limit : option A) (exceeded : A -> bool) : bool :=
  match limit with Some l => negb (exceeded l) | None => true end.

Definition optional (s : option C) (v : json) : bool := match s with Some s => sub s v | None => true end.

Definition property_meets (s : Schema F C) (key : string) (val : json) : bool :=
  optional (lookup_key key (Properties s)) val &&
  forallb (fun p => implb (regexp_match lib p.1 key) (sub p.2 val)) (PatternProperties s) &&
  ((match lookup_key key (Properties s) with Some _ => true | None => false end ||
    existsb (fun p => regexp_match lib p.1 key) (PatternProperties s)) ||
   match AdditionalPropertiesBool s with Some false => false | _ => optional (AdditionalProperties s) val end).

Definition dependency_meets (obj : list (string * json)) (d : string * dependency C) : bool :=
  implb (has_key d.1 obj)
    match d.2 with DepNames names => forallb (fun n => has_key n obj) names | DepSchema s => sub s (JObject obj) end.

Definition object_meets (s : Schema F C) (obj : list (string * json)) : bool :=
  let count := Z.of_nat (List.length obj) in
  forallb (fun req => has_key req obj) (Required s) &&
  within (MinProperties s) (fun m => (count <? m)%Z) && within (MaxProperties s) (fun m => (m <? count)%Z) &&
  forallb (fun kv => property_meets s kv.1 kv.2) obj &&
  forallb (fun kv => optional (PropertyNames s) (JString kv.1)) obj &&
  forallb (dependency_meets obj) (Dependencies s).

Definition array_meets (s : Schema F C) (arr : list json) : bool :=
  let count := Z.of_nat (List.length arr) in
  within (MinItems s) (fun m => (count <? m)%Z) && within (MaxItems s) (fun m => (m <? count)%Z) &&
  implb (UniqueItems s) (allUnique arr) && forallb (optional (Items s)) arr &&
  match Contains s with Some c => existsb (sub c) arr | None => true end.

Definition string_meets (s : Schema F C) (str : string) : bool :=
  within (MinLength s) (fun m => (rune_len str <? m)%Z) && within (MaxLength s) (fun m => (m <? rune_len str)%Z) &&
  within (Pattern s) (fun p => negb (regexp_match lib p str)) &&
  within (Format_ s) (fun f => negb (validateFormat lib f str)).

Definition number_meets (s : Schema F C) (n : string) : bool :=
  let val := toBigFloat lib n in
  within (Minimum s) (fun m => below lib val (big_of_float lib m)) &&
  within (Maximum s) (fun m => match big_cmp lib val (big_of_float lib m) with Gt => true | _ => false end) &&
  within (ExclusiveMinimum s) (fun m => match big_cmp lib val (big_of_float lib m) with Gt => false | _ => true end) &&
  within (ExclusiveMaximum s) (fun m => negb (below lib val (big_of_float lib m))) &&
  within (MultipleOf s) (fun m => match isMultipleOf lib val m with Some multiple => negb multiple | None => false end).

Definition count_true (l : list bool) : nat := List.length (List.filter id l).

Definition conditionals_meet (s : Schema F C) (v : json) : bool :=
  forallb (fun c => sub c v) (AllOf s) &&
  match AnyOf s with [] => true | _ => existsb (fun c => sub c v) (AnyOf s) end &&
  match OneOf s with [] => true | _ => (count_true (map (fun c => sub c v) (OneOf s)) =? 1)%nat end &&
  match Not s with Some c => negb (sub c v) | None => true end &&
  match If_ s with
  | Some c => if sub c v then optional (Then_ s) v else optional (Else_ s) v
  | None => true
  end.

Definition meets (s : Schema F C) (v : json) : bool :=
  implb (str_nonempty (Type_ s)) (typeMatches lib (Type_ s) v) &&
  match Enum s with [] => true | enum => enumContains enum v end &&
  within (Const s) (fun c => negb (jsonEqual c v)) &&
  match v with
  | JObject obj => object_meets s obj
  | JArray arr => array_meets s arr
  | JString str => string_meets s str
  | JNumber n => number_meets s n
  | _ => true
  end &&
  conditionals_meet s v.
End meaning.

(** ** Steps of the validator that decide a condition *)

(** [step] adds a failure exactly when [c] is false, as far as one can see from whether
    there is any. *)
Definition tests (step : failureCollector -> failureCollector) (c : bool) : Prop :=
  forall fc, (0 < cap fc)%nat ->
    hasFailures (step fc) = hasFailures fc || negb c /\ cap (step fc) = cap fc.

(** A step that also answers: the answer is known, and the failures are those before. *)
Definition answers {A} (step : failureCollector -> A * failureCollector) (a : A) : Prop :=
  forall fc, (0 < cap fc)%nat ->
    (step fc).1 = a /\ hasFailures (step fc).2 = hasFailures fc /\ cap (step fc).2 = cap fc.

Lemma tests_id : tests (fun fc => fc) true.
Proof. intros fc _. by rewrite orb_false_r. Qed.

Lemma tests_eq step step' c c' : tests step c -> (forall fc, step' fc = step fc) -> c' = c -> tests step' c'.
Proof. intros H He -> fc Hfc. rewrite He. by apply H. Qed.

Lemma tests_seq s1 s2 c1 c2 : tests s1 c1 -> tests s2 c2 -> tests (fun fc => s2 (s1 fc)) (c1 && c2).
Proof.
  intros H1 H2 fc Hc. destruct (H1 fc Hc) as [Hf1 Hc1]. destruct (H2 (s1 fc) ltac:(lia)) as [Hf2 Hc2].
  rewrite Hf2, Hf1, Hc2, Hc1, negb_andb, orb_assoc. done.
Qed.

Lemma tests_add f : tests (add f) false.
Proof.
  intros fc Hc. unfold add, hasFailures. rewrite orb_true_r.
  destruct (failures fc) as [|g l] eqn:Hl; simpl.
  - destruct (Nat.ltb_spec 0 (cap fc)); [done|lia].
  - destruct (_ <? _)%nat; simpl; by rewrite ?Hl.
Qed.

Lemma tests_report cond f : tests (report cond f) (negb cond).
Proof. unfold report. destruct cond; [apply tests_add|apply tests_id]. Qed.

Lemma tests_bound {A} (l : option A) exceeded f : tests (bound l exceeded f) (within l exceeded).
Proof. unfold bound, within. destruct l; [apply tests_report|apply tests_id]. Qed.

Lemma tests_fold {A} (body : failureCollector -> A -> failureCollector) c l :
  (forall x, x ∈ l -> tests (fun fc => body fc x) (c x)) -> tests (fun fc => foldl body fc l) (forallb c l).
Proof.
  induction l as [|x l IH]; intros H; [apply tests_id|].
  apply (tests_seq (fun fc => body fc x) (fun fc => foldl body fc l)); [apply H; by left|].
  apply IH. intros y Hy. apply H. by right.
Qed.

Lemma tests_optionally {A} (o : option A) s c : (forall a, tests (s a) (c a)) ->
  tests (optionally o s) (match o with Some a => c a | None => true end).
Proof. intros H. destruct o; [apply H|apply tests_id]. Qed.

Lemma tests_if_any {A} (l : list A) s c : tests s c -> tests (if_any l s) (match l with [] => true | _ => c end).
Proof. intros H. destruct l; [apply tests_id|apply H]. Qed.

(** An answer decides what follows. *)
Lemma tests_given {A} (ask : failureCollector -> A * failureCollector) a s c :
  answers ask a -> tests (s a) c -> tests (given ask s) c.
Proof.
  intros Ha Hs fc Hc. unfold given. destruct (Ha fc Hc) as (H1 & H2 & H3). destruct (ask fc) as [x fc']. simpl in *. subst x.
  destruct (Hs fc' ltac:(lia)) as [-> ->]. by rewrite H2, H3.
Qed.

Lemma answers_given {A R} (ask : failureCollector -> A * failureCollector) a (s : A -> failureCollector -> R * failureCollector) r :
  answers ask a -> answers (s a) r -> answers (given ask s) r.
Proof.
  intros Ha Hs fc Hc. unfold given. destruct (Ha fc Hc) as (H1 & H2 & H3). destruct (ask fc) as [x fc']. simpl in *. subst x.
  destruct (Hs fc' ltac:(lia)) as (-> & -> & ->). done.
Qed.

Lemma tests_report_negb b f : tests (report (negb b) f) b.
Proof. eapply tests_eq; [apply tests_report|done|by rewrite negb_involutive]. Qed.

(** A collector after some steps that decided [c]. *)
Definition moved_by (fc : failureCollector) (c : bool) (fc' : failureCollector) : Prop :=
  hasFailures fc' = hasFailures fc || negb c /\ cap fc' = cap fc.

Lemma tests_moved (step : failureCollector -> failureCollector) c :
  (forall fc, (0 < cap fc)%nat -> moved_by fc c (step fc)) -> tests step c.
Proof. done. Qed.

Lemma moved_first fc c (step : failureCollector -> failureCollector) :
  (0 < cap fc)%nat -> tests step c -> moved_by fc c (step fc).
Proof. intros Hc H. by apply H. Qed.

Lemma moved_step fc c fc' c' (step : failureCollector -> failureCollector) :
  (0 < cap fc)%nat -> moved_by fc c fc' -> tests step c' -> moved_by fc (c && c') (step fc').
Proof.
  intros Hc [H1 H2] H. destruct (H fc' ltac:(lia)) as [H3 H4]. split; [|congruence].
  by rewrite H3, H1, negb_andb, orb_assoc.
Qed.

Lemma numbered_forallb {A} (c : A -> bool) arr i : forallb (fun x => c x.2) (numbered i arr) = forallb c arr.
Proof. revert i. induction arr as [|v arr IH]; intros i; simpl; [done|by rewrite IH]. Qed.

Lemma forallb_all_true {A} (l : list A) : true = forallb (fun _ => true) l.
Proof. by induction l. Qed.

Lemma tests_optionally_each {A X} (o : option A) step (f : A -> X -> bool) l :
  (forall a, tests (step a) (forallb (f a) l)) ->
  tests (optionally o step) (forallb (fun x => match o with Some a => f a x | None => true end) l).
Proof.
  intros H. destruct o; [apply H|]. eapply tests_eq; [apply tests_id|done|symmetry; apply forallb_all_true].
Qed.

(** An order of iteration is a permutation. *)
Definition permutes (range : orders) : Prop := forall n A (l : list (string * A)), range n A l ≡ₚ l.

Lemma forallb_perm {A} (f : A -> bool) l l' : l ≡ₚ l' -> forallb f l = forallb f l'.
Proof. induction 1; simpl; [done|by f_equal|by rewrite !andb_assoc, (andb_comm (f x))|congruence]. Qed.

Lemma existsb_perm {A} (f : A -> bool) l l' : l ≡ₚ l' -> existsb f l = existsb f l'.
Proof. induction 1; simpl; [done|by f_equal|by rewrite !orb_assoc, (orb_comm (f x))|congruence]. Qed.

(** ** The validator decides the meaning *)

Section verdict.
Context {F B : Type} (lib : golib F B) (range : orders).
Context (range_permutes : permutes range).

Lemma tests_over_map {A} (m : list (string * A)) body c :
  (forall k a, (k, a) ∈ m -> tests (body k a) (c (k, a))) -> tests (over_map range m body) (forallb c m).
Proof.
  intros H fc Hc. unfold over_map.
  rewrite <- (forallb_perm c _ _ (range_permutes (loops fc) A m)).
  destruct (tests_fold (fun fc kv => body kv.1 kv.2 fc) c (range (loops fc) A m)) with
    (fc := {| failures := failures fc; cap := cap fc; loops := S (loops fc); panicked := panicked fc |}) as [Hf Hcap]; [|done|done].
  intros [k a] Hin. apply H. by rewrite (range_permutes (loops fc) A m) in Hin.
Qed.

Section keywords.
Context (validate : nat -> json -> string -> failureCollector -> failureCollector) (sub : nat -> json -> bool).
Context (sub_tests : forall a v ptr, tests (validate a v ptr) (sub a v)).
Notation Node := (Schema F nat).

Lemma fails_within_answers n s v ptr : (0 < n)%nat -> answers (fails_within validate n s v ptr) (negb (sub s v)).
Proof.
  intros Hn fc Hc. unfold fails_within. destruct (sub_tests s v ptr (sub_collector n fc)) as [Hf _]; [done|].
  simpl in *. by rewrite Hf.
Qed.

Lemma optionally_tests (o : option nat) v ptr : tests (optionally o (fun c => validate c v ptr)) (optional sub o v).
Proof. apply (tests_optionally o _ (fun c => sub c v)). intros c. apply sub_tests. Qed.

Lemma has_lookup {A} key (m : list (string * A)) :
  has_key key m = match lookup_key key m with Some _ => true | None => false end.
Proof. unfold has_key, lookup_key. induction m as [|[k a] m IH]; simpl; [done|]. by destruct (String.eqb key k). Qed.

Lemma property_tests (s : Node) ptr key val :
  tests (validate_property lib range validate s ptr key val) (property_meets lib sub s key val).
Proof.
  apply tests_moved. intros fc Hc. unfold validate_property, property_meets. cbv zeta. rewrite <- has_lookup.
  set (matched := has_key key _ || _).
  assert (H : moved_by fc (optional sub (lookup_key key (Properties s)) val &&
                           forallb (fun p => implb (regexp_match lib p.1 key) (sub p.2 val)) (PatternProperties s))
                (over_map range (PatternProperties s)
                   (fun re p fc => if regexp_match lib re key then validate p val (child_path ptr key) fc else fc)
                   (optionally (lookup_key key (Properties s)) (fun p => validate p val (child_path ptr key)) fc))).
  { apply moved_step; [done|apply moved_first; [done|apply optionally_tests]|].
    apply tests_over_map. intros k a _. simpl. destruct (regexp_match lib k key); [apply sub_tests|apply tests_id]. }
  destruct matched; simpl; [by rewrite andb_true_r|].
  destruct (AdditionalPropertiesBool s) as [[]|]; apply moved_step; auto using tests_add, optionally_tests.
Qed.

Lemma dependency_tests (s : Node) obj ptr k d :
  tests (validate_dependency validate s obj ptr k d) (dependency_meets sub obj (k, d)).
Proof.
  unfold validate_dependency, dependency_meets. simpl. destruct (has_key k obj); [|apply tests_id]. simpl.
  destruct d as [names|d]; [|apply sub_tests]. apply tests_fold. intros n _. apply tests_report_negb.
Qed.

(** The steps of a function, one after the other. *)
Ltac moves := first [apply moved_first; [done|] | apply moved_step; [done|moves|]].

Lemma object_tests (s : Node) obj ptr : tests (validateObject lib range validate s obj ptr) (object_meets lib sub s obj).
Proof.
  apply tests_moved. intros fc Hc. unfold validateObject, object_meets. cbv zeta.
  apply moved_step; [done| |apply tests_over_map; intros; apply dependency_tests].
  apply moved_step; [done| |].
  2: { apply (tests_optionally_each (PropertyNames s) _ (fun n kv => sub n (JString kv.1))). intros n.
       apply (tests_over_map obj (fun key _ => validate n (JString key) (child_path ptr key))
                (fun kv => sub n (JString kv.1))). intros. apply sub_tests. }
  apply moved_step; [done| |apply tests_over_map; intros; apply property_tests].
  apply moved_step; [done| |apply tests_bound]. apply moved_step; [done| |apply tests_bound].
  apply (moved_first fc _ (fun fc => foldl _ fc _)); [done|]. apply tests_fold. intros req _. apply tests_report_negb.
Qed.

Lemma any_item_answers c arr : answers (any_item validate c arr) (existsb (sub c) arr).
Proof.
  induction arr as [|v arr IH]; [done|].
  apply (answers_given (fails_within validate 1 c v "") (negb (sub c v))); [apply fails_within_answers; lia|].
  simpl. destruct (sub c v); simpl; [by intros fc _|apply IH].
Qed.

Lemma array_tests (s : Node) arr ptr : tests (validateArray validate s arr ptr) (array_meets sub s arr).
Proof.
  apply tests_moved. intros fc Hc. unfold validateArray, array_meets. cbv zeta.
  apply moved_step; [done| |].
  2: { apply (tests_optionally (Contains s) _ (fun c => existsb (sub c) arr)). intros c.
       eapply tests_given; [apply any_item_answers|apply tests_report_negb]. }
  apply moved_step; [done| |].
  2: { apply (tests_optionally_each (Items s) _ sub). intros c. rewrite <- (numbered_forallb (sub c) arr 0).
       apply (tests_fold (fun fc item => validate c item.2 (item_path ptr item.1) fc) (fun x => sub c x.2)).
       intros x _. apply sub_tests. }
  apply moved_step; [done| |].
  2: { eapply tests_eq; [apply tests_report|done|]. by destruct (UniqueItems s), (allUnique arr). }
  apply moved_step; [done| |apply tests_bound]. apply moved_first; [done|apply tests_bound].
Qed.

Lemma string_tests (s : Node) str ptr : tests (validateString lib s str ptr) (string_meets lib s str).
Proof.
  apply tests_moved. intros fc Hc. unfold validateString, string_meets. cbv zeta.
  do 3 (apply moved_step; [done| |apply tests_bound]). apply moved_first; [done|apply tests_bound].
Qed.

Lemma number_tests (s : Node) n ptr : tests (validateNumber lib s n ptr) (number_meets lib s n).
Proof.
  apply tests_moved. intros fc Hc. unfold validateNumber, number_meets. cbv zeta.
  apply moved_step; [done| |].
  2: { apply (tests_optionally (MultipleOf s) _
         (fun m => negb match isMultipleOf lib (toBigFloat lib n) m with Some b => negb b | None => false end)).
       intros m. destruct (isMultipleOf _ _ _); [|apply tests_id].
       eapply tests_eq; [apply tests_report_negb|done|by rewrite negb_involutive]. }
  do 3 (apply moved_step; [done| |apply tests_bound]). apply moved_first; [done|apply tests_bound].
Qed.

Lemma all_of_tests subs v ptr f : tests (all_of validate subs v ptr f) (forallb (fun c => sub c v) subs).
Proof.
  induction subs as [|c subs IH]; [apply tests_id|].
  apply (tests_given (fails_within validate OSCALValidatorMaxFailures c v ptr) (negb (sub c v))).
  - apply fails_within_answers. unfold OSCALValidatorMaxFailures. lia.
  - simpl. destruct (sub c v); simpl; [apply IH|apply tests_add].
Qed.

Lemma any_of_answers subs v ptr : answers (any_of validate subs v ptr) (existsb (fun c => sub c v) subs).
Proof.
  induction subs as [|c subs IH]; [done|].
  apply (answers_given (fails_within validate 1 c v ptr) (negb (sub c v))); [apply fails_within_answers; lia|].
  simpl. destruct (sub c v); simpl; [by intros fc _|apply IH].
Qed.

Lemma one_of_answers subs v ptr : answers (one_of validate subs v ptr) (count_true (map (fun c => sub c v) subs)).
Proof.
  induction subs as [|c subs IH]; [done|].
  apply (answers_given (fails_within validate 1 c v ptr) (negb (sub c v))); [apply fails_within_answers; lia|].
  eapply answers_given; [apply IH|]. unfold count_true. simpl. intros fc _. by destruct (sub c v).
Qed.

Lemma branch_tests c v ptr f : tests (branch validate c v ptr f) (optional sub c v).
Proof.
  apply (tests_optionally c _ (fun c => sub c v)). intros s.
  eapply tests_given; [apply fails_within_answers; unfold OSCALValidatorMaxFailures; lia|].
  eapply tests_eq; [apply tests_report|done|by rewrite negb_involutive].
Qed.

Lemma conditionals_tests (s : Node) v ptr : tests (validateConditionals validate s v ptr) (conditionals_meet sub s v).
Proof.
  apply tests_moved. intros fc Hc. unfold validateConditionals, conditionals_meet. cbv zeta.
  apply moved_step; [done| |].
  2: { apply (tests_optionally (If_ s) _ (fun c => if sub c v then optional sub (Then_ s) v else optional sub (Else_ s) v)).
       intros c. eapply tests_given; [apply fails_within_answers; lia|]. destruct (sub c v); simpl; apply branch_tests. }
  apply moved_step; [done| |].
  2: { apply (tests_optionally (Not s) _ (fun c => negb (sub c v))). intros c.
       eapply tests_given; [apply fails_within_answers; lia|]. apply tests_report_negb. }
  apply moved_step; [done| |].
  2: { apply (tests_if_any (OneOf s)). eapply tests_given; [apply one_of_answers|apply tests_report_negb]. }
  apply moved_step; [done| |].
  2: { apply (tests_if_any (AnyOf s)). eapply tests_given; [apply any_of_answers|apply tests_report_negb]. }
  apply moved_first; [done|apply all_of_tests].
Qed.

Lemma keywords_tests (s : Node) v ptr : tests (validate_keywords lib range validate s v ptr) (meets lib sub s v).
Proof.
  apply tests_moved. intros fc Hc. unfold validate_keywords, meets. cbv zeta.
  assert (H : moved_by fc (match Enum s with [] => true | enum => enumContains enum v end &&
                           within (Const s) (fun c => negb (jsonEqual c v)))
                (bound (Const s) (fun c => negb (jsonEqual c v))
                   (fun _ => failure ReasonValueConstMismatch "value does not match const" [] ptr s "const")
                   (report (match Enum s with [] => false | enum => negb (enumContains enum v) end)
                      (failure ReasonValueEnumMismatch "value is not one of the allowed enum values" [] ptr s "enum") fc))).
  { apply moved_step; [done| |apply tests_bound]. apply moved_first; [done|].
    destruct (Enum s); [apply tests_id|apply tests_report_negb]. }
  revert H. set (fc1 := bound _ _ _ (report _ _ fc)). set (c1 := _ && within _ _). intros H.
  assert (Hbody : moved_by fc (c1 && match v with
                                     | JObject obj => object_meets lib sub s obj | JArray arr => array_meets sub s arr
                                     | JString str => string_meets lib s str | JNumber n => number_meets lib s n
                                     | _ => true
                                     end && conditionals_meet sub s v)
    (validateConditionals validate s v ptr
       match v with
       | JObject obj => validateObject lib range validate s obj ptr fc1
       | JArray arr => validateArray validate s arr ptr fc1
       | JString str => validateString lib s str ptr fc1
       | JNumber n => validateNumber lib s n ptr fc1
       | _ => fc1
       end)).
  { apply moved_step; [done| |apply conditionals_tests].
    destruct v; rewrite ?andb_true_r; try exact H; (apply moved_step; [done|exact H|]);
      auto using number_tests, string_tests, array_tests, object_tests. }
  subst fc1 c1. destruct (str_nonempty (Type_ s)); cbn [implb andb]; [|exact Hbody].
  destruct (typeMatches lib (Type_ s) v); cbn [negb andb]; [exact Hbody|].
  apply (moved_first fc false); [done|apply tests_add].
Qed.
End keywords.

(** ** The walk *)

Context (store : gmap nat (Schema F nat)).

(** The meaning of a compiled schema: a walk that is too deep is a failure. *)
Fixpoint accepts (room : nat) (a : nat) (v : json) : bool :=
  match room with
  | O => false
  | S room =>
      match Resolved store a with
      | None => true
      | Some s => match Boolean s with Some b => b | None => meets lib (accepts room) s v end
      end
  end.

Lemma validate_tests room a v ptr : tests (validate lib range store room a v ptr) (accepts room a v).
Proof.
  revert a v ptr. induction room as [|room IH]; intros a v ptr; simpl; [apply tests_add|].
  destruct (Resolved store a) as [s|]; [|apply tests_id].
  destruct (Boolean s) as [[]|]; [apply tests_id|apply tests_add|]. by apply keywords_tests.
Qed.

Lemma sink_length x l : List.length (sink x l) = S (List.length l).
Proof. revert x. induction l as [|y l IH]; intros x; simpl; [done|]. destruct (less x y); simpl; by rewrite IH. Qed.

Lemma Sorted_empty fs : Sorted fs = [] <-> fs = [].
Proof.
  unfold Sorted. split; [|by intros ->]. destruct fs as [|f fs]; [done|]. intros H.
  apply (f_equal (@List.length Failure)) in H. rewrite length_rev in H. simpl in H. exfalso. revert H.
  enough (Hl : forall l, (0 < List.length l)%nat -> (0 < List.length (foldl (fun b x => sink x b) l fs))%nat)
    by (specialize (Hl [f] ltac:(simpl; lia)); lia).
  induction fs as [|g fs IH]; intros l Hl; simpl; [done|]. apply IH. rewrite sink_length. lia.
Qed.

(** No failure is reported exactly when the schema accepts the value. *)
Lemma ValidateValue_accepts a v fs :
  ValidateValue lib range store a v = Some fs -> fs = [] <-> accepts (S OSCALValidatorMaxDepth) a v = true.
Proof.
  unfold ValidateValue. generalize (S OSCALValidatorMaxDepth). intros room.
  destruct (validate_tests room a v "" {| failures := []; cap := OSCALValidatorMaxFailures; loops := 0; panicked := false |})
    as [Hf _]; [simpl; apply Nat.lt_0_succ|].
  destruct (panicked _); [done|]. intros [= <-]. rewrite Sorted_empty.
  unfold hasFailures in Hf at 1. destruct (failures _), (accepts room a v); done.
Qed.
End verdict.
