(* ===== verification/SchemaPanic.v ===== *)
(** Where the validator panics.

    The walk over a value adds failures, asks subschemas on the side, and in one place may
    panic: when a number is divided by a multipleOf and the quotient overflows. *)
From S2P Require Import Prelude Encoding Json JsonDecode SchemaModel SchemaCompile SchemaValidate.
From Stdlib Require Import String List ZArith Lia Bool.
From stdpp Require Import base strings list gmap.
Open Scope string_scope.
Open Scope list_scope.

(** The quotient of a number by a multipleOf is infinite. *)
Definition overflows {F B} (lib : golib F B) (n : string) (m : F) : Prop := isMultipleOf lib (toBigFloat lib n) m = None.

Section panics.
Context {F B : Type} (lib : golib F B) (range : orders).
Notation Node := (Schema F nat).

(** A step that panics only on an overflow, and a question that does. *)
Definition calm (step : failureCollector -> failureCollector) : Prop := forall fc,
  panicked (step fc) = true -> panicked fc = true \/ exists n m, overflows lib n m.
Definition calm_ask {A} (ask : failureCollector -> A * failureCollector) : Prop := calm (fun fc => (ask fc).2).

Lemma calm_id : calm (fun fc => fc).
Proof. by left. Qed.

Lemma calm_comp (s t : failureCollector -> failureCollector) : calm s -> calm t -> calm (fun fc => t (s fc)).
Proof. intros Hs Ht fc [H|H]%Ht; [by apply Hs|by right]. Qed.

Lemma calm_add f : calm (add f).
Proof. intros fc. unfold add. destruct (_ <? _)%nat; by left. Qed.

Lemma calm_report b f : calm (report b f).
Proof. unfold report. destruct b; [apply calm_add|apply calm_id]. Qed.

Lemma calm_bound {A} (o : option A) ex f : calm (bound o ex f).
Proof. unfold bound. destruct o; [apply calm_report|apply calm_id]. Qed.

Lemma calm_optionally {A} (o : option A) step : (forall a, calm (step a)) -> calm (optionally o step).
Proof. intros H. unfold optionally. destruct o; [apply H|apply calm_id]. Qed.

Lemma calm_if_any {A} (l : list A) step : calm step -> calm (if_any l step).
Proof. intros H. unfold if_any. destruct l; [apply calm_id|done]. Qed.

Lemma calm_given {A} (ask : failureCollector -> A * failureCollector) step :
  calm_ask ask -> (forall a, calm (step a)) -> calm (given ask step).
Proof.
  intros Ha Hs fc. unfold given. specialize (Ha fc). cbv beta in Ha. destruct (ask fc) as [a fc']. intros [H|H]%Hs; [by apply Ha|by right].
Qed.

Lemma calm_ask_given {A R} (ask : failureCollector -> A * failureCollector) (step : A -> failureCollector -> R * failureCollector) :
  calm_ask ask -> (forall a, calm_ask (step a)) -> calm_ask (given ask step).
Proof.
  intros Ha Hs fc. unfold given. specialize (Ha fc). cbv beta in Ha. destruct (ask fc) as [a fc']. intros [H|H]%Hs; [by apply Ha|by right].
Qed.

Lemma calm_ask_ret {A} (a : A) : calm_ask (fun fc => (a, fc)).
Proof. by left. Qed.

Lemma calm_fold {A} (body : failureCollector -> A -> failureCollector) (l : list A) :
  (forall x, calm (fun fc => body fc x)) -> calm (fun fc => foldl body fc l).
Proof.
  intros H. induction l as [|x l IH]; [apply calm_id|]. apply (calm_comp (fun fc => body fc x) (fun fc => foldl body fc l)); [apply H|exact IH].
Qed.

Lemma calm_over_map {A} (m : list (string * A)) body : (forall k a, calm (body k a)) -> calm (over_map range m body).
Proof.
  intros H fc. unfold over_map. intros Hp.
  apply (calm_fold (fun fc kv => body kv.1 kv.2 fc) (range (loops fc) A m)) in Hp; [done|]. intros [k a]. apply H.
Qed.

Section keywords.
Context (validate : nat -> json -> string -> failureCollector -> failureCollector).
Context (validate_calm : forall s v ptr, calm (validate s v ptr)).

Lemma calm_within n s v ptr : calm_ask (fails_within validate n s v ptr).
Proof. intros fc. apply (validate_calm s v ptr (sub_collector n fc)). Qed.

#[local] Hint Resolve calm_id calm_add calm_report calm_bound calm_within calm_ask_ret validate_calm : calm.

Lemma calm_any_item s arr : calm_ask (any_item validate s arr).
Proof. induction arr as [|v arr IH]; [apply calm_ask_ret|]. apply calm_ask_given; [auto with calm|]. intros []; auto with calm. Qed.

Lemma calm_any_of subs v ptr : calm_ask (any_of validate subs v ptr).
Proof. induction subs as [|s subs IH]; [apply calm_ask_ret|]. apply calm_ask_given; [auto with calm|]. intros []; auto with calm. Qed.

Lemma calm_one_of subs v ptr : calm_ask (one_of validate subs v ptr).
Proof.
  induction subs as [|s subs IH]; [apply calm_ask_ret|]. apply calm_ask_given; [auto with calm|]. intros failed.
  apply calm_ask_given; auto with calm.
Qed.

Lemma calm_all_of subs v ptr f : calm (all_of validate subs v ptr f).
Proof. induction subs as [|s subs IH]; [apply calm_id|]. apply calm_given; [auto with calm|]. intros []; auto with calm. Qed.

Lemma calm_branch o v ptr f : calm (branch validate o v ptr f).
Proof. apply calm_optionally. intros s. apply calm_given; auto with calm. Qed.
#[local] Hint Resolve calm_any_item calm_any_of calm_one_of calm_all_of calm_branch : calm.

(** A sequence of steps, the last one first. *)
Ltac steps := repeat first
  [ solve [auto with calm]
  | match goal with |- calm (fun fc => ?t (@?s fc)) => apply (calm_comp s t) end
  | apply calm_optionally; intros | apply calm_if_any | apply calm_over_map; intros
  | apply calm_given; intros | apply calm_fold; intros
  | match goal with |- calm (fun fc => if ?b then _ else _) => destruct b end
  | match goal with |- calm (if ?b then _ else _) => destruct b end ].

Lemma calm_property (schema : Node) ptr key v : calm (validate_property lib range validate schema ptr key v).
Proof.
  unfold validate_property. cbv zeta. destruct (_ || _); [steps|].
  destruct (AdditionalPropertiesBool schema) as [[]|]; steps.
Qed.

Lemma calm_dependency (schema : Node) obj ptr k d : calm (validate_dependency validate schema obj ptr k d).
Proof. unfold validate_dependency. destruct (has_key k obj), d; steps. Qed.
#[local] Hint Resolve calm_property calm_dependency : calm.

Lemma calm_object (schema : Node) obj ptr : calm (validateObject lib range validate schema obj ptr).
Proof. unfold validateObject. steps. Qed.

Lemma calm_array (schema : Node) arr ptr : calm (validateArray validate schema arr ptr).
Proof. unfold validateArray. steps. Qed.

Lemma calm_string (schema : Node) s ptr : calm (validateString lib schema s ptr).
Proof. unfold validateString. steps. Qed.

(** The one step that may panic. *)
Lemma calm_number (schema : Node) n ptr : calm (validateNumber lib schema n ptr).
Proof.
  unfold validateNumber. cbv zeta.
  match goal with |- calm (fun fc => optionally ?o ?t (@?s fc)) => apply (calm_comp s (optionally o t)) end; [steps|].
  apply calm_optionally. intros m. destruct (isMultipleOf _ _ _) eqn:H; [steps|]. intros fc _. right. by exists n, m.
Qed.

Lemma calm_conditionals (schema : Node) v ptr : calm (validateConditionals validate schema v ptr).
Proof.
  unfold validateConditionals. cbv zeta. steps.
Qed.
#[local] Hint Resolve calm_object calm_array calm_string calm_number calm_conditionals : calm.

Lemma calm_keywords (schema : Node) v ptr : calm (validate_keywords lib range validate schema v ptr).
Proof. unfold validate_keywords. destruct (_ && _); [steps|]. destruct v; steps. Qed.
End keywords.

Context (store : gmap nat Node).

Lemma calm_validate room : forall a v ptr, calm (validate lib range store room a v ptr).
Proof.
  induction room as [|room IH]; intros a v ptr; simpl; [apply calm_add|].
  destruct (Resolved store a) as [s|]; [|apply calm_id].
  destruct (Boolean s) as [[]|]; [apply calm_id|apply calm_add|]. by apply calm_keywords.
Qed.

(** A validation that panics met an infinite quotient. *)
Lemma ValidateValue_panics a v : ValidateValue lib range store a v = None -> exists n m, overflows lib n m.
Proof.
  unfold ValidateValue. destruct (panicked _) eqn:H; [|done]. intros _.
  by apply calm_validate in H as [?|?].
Qed.
End panics.
