(* ===== verification/SchemaDoc.v ===== *)
(** What a schema document means, and when a compiled schema stands for a document.

    [interp] reads the document itself: a reference is looked up in the document where it
    is met.  [represents] relates the keywords of a compiled node to those of an object of
    the document, up to the order of maps, and gives both the same meaning. *)
From S2P Require Import Prelude Encoding Json JsonDecode SchemaModel SchemaCompile SchemaValidate SchemaSpec.
From Stdlib Require Import String Ascii List ZArith Lia Bool.
From stdpp Require Import base strings list gmap pretty.
Open Scope string_scope.
Open Scope list_scope.

(** ** The keywords of an object of the document *)

Section document.
Context {F B : Type} (lib : golib F B).

Definition doc_additional (key : string) (obj : list (string * json)) : option json :=
  match member key obj with Some (JObject v) => Some (JObject v) | _ => None end.
Definition doc_additional_bool (key : string) (obj : list (string * json)) : option bool :=
  match member key obj with Some (JBool v) => Some v | _ => None end.
Definition doc_unless_bool (key : string) (obj : list (string * json)) : option json :=
  match member key obj with None | Some (JBool _) => None | Some v => Some v end.
Definition doc_list (key : string) (obj : list (string * json)) : list json :=
  match member key obj with Some (JArray arr) => arr | _ => [] end.
Definition doc_map (key : string) (obj : list (string * json)) : list (string * json) :=
  match member key obj with Some (JObject m) => m | _ => [] end.
Definition doc_names (obj : list (string * json)) : option json :=
  match member "propertyNames" obj with None | Some (JBool true) => None | Some v => Some v end.
Definition doc_items (obj : list (string * json)) : option json :=
  match member "items" obj with
  | Some (JBool v) => Some (JBool v) | Some (JObject v) => Some (JObject v) | Some (JArray (v :: _)) => Some v | _ => None
  end.
Definition doc_dependency (kv : string * json) : option (string * dependency json) :=
  match kv.2 with
  | JArray v => Some (kv.1, DepNames (texts v))
  | JObject v => Some (kv.1, DepSchema (JObject v))
  | JBool v => Some (kv.1, DepSchema (JBool v))
  | _ => None
  end.
Definition doc_type (obj : list (string * json)) : string :=
  match member "type" obj with Some (JString t) => t | Some (JArray l) => (type_names "" l).2 | _ => "" end.
Definition doc_format (obj : list (string * json)) : option Format :=
  match text_of (member "format" obj) with Some f => supported_format f | None => None end.

Definition doc_schema (obj : list (string * json)) : Schema F json :=
  {| Boolean := None; ID := default "" (text_of (member "$id" obj)); Type_ := doc_type obj; Enum := doc_list "enum" obj;
     Const := member "const" obj; Properties := doc_map "properties" obj; PatternProperties := doc_map "patternProperties" obj;
     AdditionalProperties := doc_additional "additionalProperties" obj;
     AdditionalPropertiesBool := doc_additional_bool "additionalProperties" obj;
     PropertyNames := doc_names obj; Required := compile_required obj;
     Dependencies := omap doc_dependency (doc_map "dependencies" obj);
     MinProperties := parseIntPtr (member "minProperties" obj); MaxProperties := parseIntPtr (member "maxProperties" obj);
     Items := doc_items obj; AdditionalItems := doc_additional "additionalItems" obj;
     AdditionalItemsBool := doc_additional_bool "additionalItems" obj; Contains := doc_unless_bool "contains" obj;
     MinItems := parseIntPtr (member "minItems" obj); MaxItems := parseIntPtr (member "maxItems" obj);
     UniqueItems := match member "uniqueItems" obj with Some (JBool b) => b | _ => false end;
     MinLength := parseIntPtr (member "minLength" obj); MaxLength := parseIntPtr (member "maxLength" obj);
     Pattern := text_of (member "pattern" obj); Format_ := doc_format obj;
     Minimum := parseFloatPtr lib (member "minimum" obj); Maximum := parseFloatPtr lib (member "maximum" obj);
     ExclusiveMinimum := parseFloatPtr lib (member "exclusiveMinimum" obj);
     ExclusiveMaximum := parseFloatPtr lib (member "exclusiveMaximum" obj);
     MultipleOf := parseFloatPtr lib (member "multipleOf" obj);
     AllOf := doc_list "allOf" obj; AnyOf := doc_list "anyOf" obj; OneOf := doc_list "oneOf" obj;
     Not := doc_unless_bool "not" obj; If_ := doc_unless_bool "if" obj; Then_ := doc_unless_bool "then" obj;
     Else_ := doc_unless_bool "else" obj; Ref := None; RefPath := ""; SchemaLocation := "" |}.

(** ** References *)

(** The $id values of a document at the places where schemas stand, with their objects
    and paths. *)
Fixpoint doc_ids (node : json) (path : string) {struct node} : list (string * (json * string)) :=
  match node with
  | JObject ms =>
      match text_of (member "$id" ms) with Some id => if str_nonempty id then [(id, (node, path))] else [] | None => [] end ++
      concat (map (fun kv =>
        let childPath := child_path path kv.1 in
        match keyword_class_of kv.1, kv.2 with
        | OneSchema, _ => doc_ids kv.2 childPath
        | SchemaList, JArray arr => concat (map (fun item => item.2 (item_path childPath item.1)) (numbered 0 (map doc_ids arr)))
        | SchemaMap, JObject m => concat (map (fun kv' => doc_ids kv'.2 (child_path childPath kv'.1)) m)
        | SchemaDependencies, JObject m =>
            concat (map (fun kv' => match kv'.2 with JObject _ => doc_ids kv'.2 (child_path childPath kv'.1) | _ => [] end) m)
        | _, _ => []
        end) ms)
  | _ => []
  end.

Context (doc : json).

(** The schema a reference names. *)
Definition doc_ref (ref : string) : option json :=
  if String.eqb ref "#" then Some doc
  else if String.prefix "#/definitions/" ref then resolveJSONPointer doc (substring 1 (String.length ref - 1) ref)
  else if String.prefix "#" ref then
    match List.find (fun e => String.eqb ref e.1) (doc_ids doc "") with Some e => Some e.2.1 | None => None end
  else None.

Definition ref_of (node : json) : option string :=
  match node with JObject obj => text_of (member "$ref" obj) | _ => None end.

(** Up to [n] references are followed; [None] is a reference to nothing. *)
Fixpoint doc_follow (n : nat) (node : json) : option json :=
  match ref_of node, n with
  | Some ref, S n => match doc_ref ref with Some t => doc_follow n t | None => None end
  | _, _ => Some node
  end.

(** ** The meaning of a document *)

(** A chain of more than 64 references accepts everything. *)
Fixpoint interp (room : nat) (node v : json) : bool :=
  match room with
  | O => false
  | S room =>
      match doc_follow 64 node with
      | Some (JBool b) => b
      | Some (JObject obj) =>
          match ref_of (JObject obj) with
          | Some _ => true
          | None => meets lib (interp room) (doc_schema obj) v
          end
      | _ => true
      end
  end.
End document.

(** ** Compiled nodes and objects *)

(** Lists of keys with related values, up to order. *)
Definition keyed {X Y} (R : X -> Y -> Prop) (l : list (string * X)) (k : list (string * Y)) : Prop :=
  exists k', k' ≡ₚ k /\ Forall2 (fun x y => x.1 = y.1 /\ R x.2 y.2) l k'.

Inductive dep_rel {X Y} (R : X -> Y -> Prop) : dependency X -> dependency Y -> Prop :=
| dep_names names : dep_rel R (DepNames names) (DepNames names)
| dep_schema a b : R a b -> dep_rel R (DepSchema a) (DepSchema b).

Record represents {F X Y} (R : X -> Y -> Prop) (s : Schema F X) (d : Schema F Y) : Prop := {
  r_type : Type_ s = Type_ d; r_enum : Enum s = Enum d; r_const : Const s = Const d;
  r_properties : keyed R (Properties s) (Properties d);
  r_patterns : keyed R (PatternProperties s) (PatternProperties d);
  r_additional : option_Forall2 R (AdditionalProperties s) (AdditionalProperties d);
  r_additional_bool : AdditionalPropertiesBool s = AdditionalPropertiesBool d;
  r_names : option_Forall2 R (PropertyNames s) (PropertyNames d); r_required : Required s = Required d;
  r_dependencies : keyed (dep_rel R) (Dependencies s) (Dependencies d);
  r_min_properties : MinProperties s = MinProperties d; r_max_properties : MaxProperties s = MaxProperties d;
  r_items : option_Forall2 R (Items s) (Items d); r_contains : option_Forall2 R (Contains s) (Contains d);
  r_min_items : MinItems s = MinItems d; r_max_items : MaxItems s = MaxItems d; r_unique : UniqueItems s = UniqueItems d;
  r_min_length : MinLength s = MinLength d; r_max_length : MaxLength s = MaxLength d;
  r_pattern : Pattern s = Pattern d; r_format : Format_ s = Format_ d;
  r_minimum : Minimum s = Minimum d; r_maximum : Maximum s = Maximum d;
  r_ex_minimum : ExclusiveMinimum s = ExclusiveMinimum d; r_ex_maximum : ExclusiveMaximum s = ExclusiveMaximum d;
  r_multiple : MultipleOf s = MultipleOf d;
  r_all : Forall2 R (AllOf s) (AllOf d); r_any : Forall2 R (AnyOf s) (AnyOf d); r_one : Forall2 R (OneOf s) (OneOf d);
  r_not : option_Forall2 R (Not s) (Not d); r_if : option_Forall2 R (If_ s) (If_ d);
  r_then : option_Forall2 R (Then_ s) (Then_ d); r_else : option_Forall2 R (Else_ s) (Else_ d) }.

Lemma forallb_same {A} (f g : A -> bool) l : (forall x, f x = g x) -> forallb f l = forallb g l.
Proof. intros H. induction l as [|x l IH]; simpl; [done|by rewrite H, IH]. Qed.

Lemma keyed_mono {X Y} (R S : X -> Y -> Prop) l k : (forall x y, R x y -> S x y) -> keyed R l k -> keyed S l k.
Proof.
  intros H (k' & Hk & Hl). exists k'. split; [done|]. eapply Forall2_impl; [exact Hl|]. simpl. intros x y [? ?]. auto.
Qed.

Section same_meaning.
Context {F B : Type} (lib : golib F B) {X Y : Type} (R : X -> Y -> Prop).
Context (sub : X -> json -> bool) (sub' : Y -> json -> bool).
Context (R_sub : forall x y, R x y -> forall v, sub x v = sub' y v).

Lemma optional_rel o o' v : option_Forall2 R o o' -> optional sub o v = optional sub' o' v.
Proof. intros [x y H|]; simpl; [by apply R_sub|done]. Qed.

Lemma forallb_rel {X1 Y1} (S : X1 -> Y1 -> Prop) f g l k :
  (forall x y, S x y -> f x = g y) -> Forall2 S l k -> forallb f l = forallb g k.
Proof. intros H Hl. induction Hl; simpl; [done|]. by rewrite (H _ _ H0), IHHl. Qed.

Lemma existsb_rel {X1 Y1} (S : X1 -> Y1 -> Prop) f g l k :
  (forall x y, S x y -> f x = g y) -> Forall2 S l k -> existsb f l = existsb g k.
Proof. intros H Hl. induction Hl; simpl; [done|]. by rewrite (H _ _ H0), IHHl. Qed.

Lemma map_rel {A} (f : X -> A) (g : Y -> A) l k : (forall x y, R x y -> f x = g y) -> Forall2 R l k -> map f l = map g k.
Proof. intros H Hl. induction Hl; simpl; [done|]. by rewrite (H _ _ H0), IHHl. Qed.

Lemma match_rel {A} (l : list X) (k : list Y) (a b b' : A) :
  Forall2 R l k -> b = b' -> match l with [] => a | _ => b end = match k with [] => a | _ => b' end.
Proof. by intros [] ->. Qed.

Lemma keyed_forallb {X1 Y1} (S : X1 -> Y1 -> Prop) f g l k :
  (forall key x y, S x y -> f (key, x) = g (key, y)) -> keyed S l k -> forallb f l = forallb g k.
Proof.
  intros H (k' & Hk & Hl). rewrite <- (forallb_perm g _ _ Hk). eapply forallb_rel; [|exact Hl].
  intros [? x] [? y] [[= ->] ?]. simpl in *. auto.
Qed.

Lemma keyed_existsb {X1 Y1} (S : X1 -> Y1 -> Prop) f g l k :
  (forall key x y, S x y -> f (key, x) = g (key, y)) -> keyed S l k -> existsb f l = existsb g k.
Proof.
  intros H (k' & Hk & Hl). rewrite <- (existsb_perm g _ _ Hk). eapply existsb_rel; [|exact Hl].
  intros [? x] [? y] [[= ->] ?]. simpl in *. auto.
Qed.

Lemma lookup_key_member {A} key (m : list (string * A)) a :
  NoDup m.*1 -> lookup_key key m = Some a <-> (key, a) ∈ m.
Proof.
  unfold lookup_key. induction m as [|[k b] m IH]; simpl; [split; [done|by intros ?%not_elem_of_nil]|].
  intros [Hn Hm]%NoDup_cons. rewrite elem_of_cons. destruct (String.eqb_spec key k) as [->|Hne].
  - simpl. split; [intros [= ->]; by left|]. intros [[= ->]|Hin]; [done|].
    exfalso. apply Hn. apply list_elem_of_fmap. by exists (k, a).
  - rewrite IH by done. split; [by right|]. intros [[= -> _]|]; done.
Qed.

Lemma lookup_key_perm {A} key (m m' : list (string * A)) : NoDup m.*1 -> m ≡ₚ m' -> lookup_key key m = lookup_key key m'.
Proof.
  intros Hm Hp. assert (Hm' : NoDup m'.*1) by (by rewrite <- Hp).
  destruct (lookup_key key m) as [a|] eqn:H.
  - apply lookup_key_member in H; [|done]. rewrite Hp in H. symmetry. by apply lookup_key_member.
  - destruct (lookup_key key m') as [a|] eqn:H'; [|done]. apply lookup_key_member in H'; [|done].
    rewrite <- Hp in H'. apply lookup_key_member in H'; [congruence|done].
Qed.

Lemma keyed_lookup {X1 Y1} (S : X1 -> Y1 -> Prop) l k key :
  NoDup k.*1 -> keyed S l k -> option_Forall2 S (lookup_key key l) (lookup_key key k).
Proof.
  intros Hk (k' & Hp & Hl). rewrite (lookup_key_perm key k k') by (done || by symmetry). clear Hp Hk.
  induction Hl as [|[? x] [? y] l' k' [[= ->] Hxy] Hl IH]; [constructor|]. unfold lookup_key in *. simpl in *.
  destruct (String.eqb key _); [by constructor|exact IH].
Qed.

Context (s : Schema F X) (d : Schema F Y).
Context (Hrel : represents R s d) (distinct : NoDup (Properties d).*1).

Lemma property_rel key val : property_meets lib sub s key val = property_meets lib sub' d key val.
Proof.
  unfold property_meets. pose proof (keyed_lookup R _ _ key distinct (r_properties R s d Hrel)) as Hl.
  f_equal; [f_equal|f_equal; [f_equal|]].
  - by apply optional_rel.
  - eapply keyed_forallb; [|apply (r_patterns R s d Hrel)]. simpl. intros k x y H. by rewrite (R_sub _ _ H).
  - by destruct Hl.
  - eapply keyed_existsb; [|apply (r_patterns R s d Hrel)]. done.
  - rewrite (r_additional_bool R s d Hrel). destruct (AdditionalPropertiesBool d) as [[]|];
      try done; apply optional_rel, (r_additional R s d Hrel).
Qed.

Lemma object_rel obj : object_meets lib sub s obj = object_meets lib sub' d obj.
Proof.
  unfold object_meets. rewrite (r_required R s d Hrel), (r_min_properties R s d Hrel), (r_max_properties R s d Hrel).
  f_equal; [f_equal; [f_equal|]|].
  - apply forallb_same. intros kv. apply property_rel.
  - apply forallb_same. intros kv. apply optional_rel, (r_names R s d Hrel).
  - eapply keyed_forallb; [|apply (r_dependencies R s d Hrel)]. intros k x y H. unfold dependency_meets. simpl.
    destruct H; [done|]. by rewrite (R_sub _ _ H).
Qed.

Lemma array_rel arr : array_meets sub s arr = array_meets sub' d arr.
Proof.
  unfold array_meets. rewrite (r_min_items R s d Hrel), (r_max_items R s d Hrel), (r_unique R s d Hrel).
  f_equal; [f_equal|].
  - apply forallb_same. intros v. apply optional_rel, (r_items R s d Hrel).
  - destruct (r_contains R s d Hrel) as [x y H|]; [|done]. induction arr as [|v arr IH]; simpl; [done|].
    by rewrite (R_sub _ _ H), IH.
Qed.

Lemma conditionals_rel v : conditionals_meet sub s v = conditionals_meet sub' d v.
Proof.
  unfold conditionals_meet. f_equal; [f_equal; [f_equal; [f_equal|]|]|].
  - eapply forallb_rel; [|apply (r_all R s d Hrel)]. auto.
  - apply match_rel; [apply (r_any R s d Hrel)|]. eapply existsb_rel; [|apply (r_any R s d Hrel)]. auto.
  - apply match_rel; [apply (r_one R s d Hrel)|]. f_equal. f_equal. apply map_rel; [|apply (r_one R s d Hrel)]. auto.
  - destruct (r_not R s d Hrel) as [x y H|]; [|done]. by rewrite (R_sub _ _ H).
  - destruct (r_if R s d Hrel) as [x y H|]; [|done]. rewrite (R_sub _ _ H).
    by rewrite (optional_rel _ _ v (r_then R s d Hrel)), (optional_rel _ _ v (r_else R s d Hrel)).
Qed.

Lemma meets_rel v : meets lib sub s v = meets lib sub' d v.
Proof.
  unfold meets. rewrite (r_type R s d Hrel), (r_enum R s d Hrel), (r_const R s d Hrel), conditionals_rel.
  f_equal. f_equal. destruct v; [done|done| | |apply array_rel|apply object_rel].
  - unfold number_meets. by rewrite (r_minimum R s d Hrel), (r_maximum R s d Hrel), (r_ex_minimum R s d Hrel),
      (r_ex_maximum R s d Hrel), (r_multiple R s d Hrel).
  - unfold string_meets. by rewrite (r_min_length R s d Hrel), (r_max_length R s d Hrel), (r_pattern R s d Hrel), (r_format R s d Hrel).
Qed.
End same_meaning.
