(* ===== verification/SchemaPointer.v ===== *)
(** JSON Pointers and the documents that the decoder lets through.

    Escaping a token is undone by unescaping it, so the pointer built on the way down to a
    value leads back to the value.  A decoded document is [regular]: no object repeats a
    key, and its objects, its arrays and its depth keep within the limits. *)
From S2P Require Import Prelude Encoding Json JsonEncode JsonDecode SchemaModel SchemaCompile.
From Stdlib Require Import String Ascii List ZArith Lia Bool.
From stdpp Require Import base strings list gmap pretty.
Open Scope string_scope.
Open Scope list_scope.

(** ** Escaping *)

Lemma unescape_slash t :
  replace_escape "1" "/" (replace_byte "/" "~1" (replace_byte "~" "~0" t)) = replace_byte "~" "~0" t.
Proof.
  induction t as [|c t IH]; [done|]. cbn [replace_byte]. destruct (Ascii.eqb_spec c "~") as [->|Ht].
  - simpl. by rewrite IH.
  - cbn [replace_byte]. destruct (Ascii.eqb_spec c "/") as [->|Hs]; simpl; [by rewrite IH|].
    destruct (Ascii.eqb_spec c "~"); [done|]. by rewrite IH.
Qed.

Lemma unescape_tilde t : replace_escape "0" "~" (replace_byte "~" "~0" t) = t.
Proof.
  induction t as [|c t IH]; [done|]. cbn [replace_byte]. destruct (Ascii.eqb_spec c "~") as [->|Ht].
  - simpl. by rewrite IH.
  - simpl. destruct (Ascii.eqb_spec c "~"); [done|]. by rewrite IH.
Qed.

Lemma unescape_escape t : unescapeJSONPointerToken (escapeJSONPointerToken t) = t.
Proof. unfold unescapeJSONPointerToken, escapeJSONPointerToken. by rewrite unescape_slash, unescape_tilde. Qed.

Lemma escape_no_slash t : has_char "/" (escapeJSONPointerToken t) = false.
Proof.
  unfold escapeJSONPointerToken. induction (replace_byte "~" "~0" t) as [|c u IH]; [done|]. cbn [replace_byte].
  destruct (Ascii.eqb_spec c "/") as [->|Hc]; [exact IH|]. cbn [has_char]. rewrite IH, orb_false_r.
  apply Ascii.eqb_neq. congruence.
Qed.

Lemma unescape_plain c by_ t : has_char "~" t = false -> replace_escape c by_ t = t.
Proof.
  induction t as [|d t IH]; [done|]. cbn [has_char replace_escape]. intros [Hd Ht]%orb_false_iff.
  rewrite Ascii.eqb_sym in Hd. by rewrite Hd, IH.
Qed.

(** ** The pointer of a child *)

Definition tokens (ptr : string) : list string :=
  match ptr with EmptyString => [] | String _ rest => split_on "/" rest end.

Lemma split_on_nil c t : has_char c t = false -> split_on c t = [t].
Proof.
  induction t as [|d t IH]; [done|]. cbn [has_char split_on]. intros [Hd Ht]%orb_false_iff. rewrite (IH Ht).
  destruct (Ascii.eqb_spec d c) as [->|_]; [by rewrite Ascii.eqb_refl in Hd|done].
Qed.

Lemma split_on_snoc c s t : has_char c t = false -> split_on c (s +:+ String c t) = split_on c s ++ [t].
Proof.
  intros Ht. induction s as [|d s IH].
  - simpl. rewrite Ascii.eqb_refl, split_on_nil by done. done.
  - cbn [String.append split_on]. rewrite IH. destruct (Ascii.eqb d c); [done|].
    assert (Hn : split_on c s <> []) by (clear; destruct s as [|e s]; simpl; [done|]; destruct (Ascii.eqb e c); [done|by destruct (split_on c s)]).
    by destruct (split_on c s).
Qed.

Lemma resolve_tokens_snoc v ts t : resolve_tokens v (ts ++ [t]) = w ← resolve_tokens v ts; resolve_token w t.
Proof.
  revert v. induction ts as [|u ts IH]; intros v; simpl.
  - by destruct (resolve_token v t).
  - destruct (resolve_token v u); simpl; [apply IH|done].
Qed.

Lemma resolve_step r p t w :
  has_char "/" t = false -> resolveJSONPointer r p = Some w ->
  resolveJSONPointer r (p +:+ "/" +:+ t) = resolve_token w t.
Proof.
  intros Ht. destruct p as [|c p].
  - simpl. intros [= ->]. rewrite split_on_nil by done. simpl. by destruct (resolve_token w t).
  - change (String c p +:+ "/" +:+ t) with (String c (p +:+ String "/" t)). cbn [resolveJSONPointer].
    destruct (Ascii.eqb c "/"); [|done]. intros H. by rewrite split_on_snoc, resolve_tokens_snoc, H by done.
Qed.

Lemma resolve_child r p ms k v :
  resolveJSONPointer r p = Some (JObject ms) -> member k ms = Some v ->
  resolveJSONPointer r (child_path p k) = Some v.
Proof.
  intros H Hm. unfold child_path. rewrite (resolve_step r p _ (JObject ms)) by (done || apply escape_no_slash).
  unfold resolve_token. by rewrite unescape_escape.
Qed.

Lemma resolve_item r p vs i v :
  (Z.of_nat (List.length vs) < 2 ^ 63)%Z ->
  resolveJSONPointer r p = Some (JArray vs) -> vs !! i = Some v ->
  resolveJSONPointer r (item_path p i) = Some v.
Proof.
  intros Hl H Hi. assert (Hlt : (i < List.length vs)%nat) by (by apply lookup_lt_Some in Hi).
  assert (Hc : forall c, is_digit (byte_val c) = false -> c <> "-"%char -> has_char c (pretty (Z.of_nat i)) = false).
  { intros c Hd Hm. apply pretty_Z_has_char; [|done]. intros n. by apply pretty_N_char_other. }
  unfold item_path. rewrite (resolve_step r p _ (JArray vs)); [|by apply Hc|done].
  unfold resolve_token, unescapeJSONPointerToken.
  rewrite !(unescape_plain _ _ (pretty (Z.of_nat i))) by (by apply Hc).
  rewrite ParseInt64_pretty by lia. simpl.
  destruct (Z.ltb_spec (Z.of_nat i) 0); [lia|]. destruct (Z.leb_spec (Z.of_nat (List.length vs)) (Z.of_nat i)); [lia|].
  simpl. by rewrite Nat2Z.id.
Qed.

Lemma numbered_lookup {A} (l : list A) i x n : (n, x) ∈ numbered i l -> exists k, n = (i + k)%nat /\ l !! k = Some x.
Proof.
  revert i. induction l as [|y l IH]; intros i; simpl; [by intros ?%not_elem_of_nil|].
  rewrite elem_of_cons. intros [[= -> ->]|H].
  - exists 0%nat. by rewrite Nat.add_0_r.
  - apply IH in H as (k & -> & H). exists (S k). by rewrite <- Nat.add_succ_comm.
Qed.

Lemma member_elem k v (ms : list (string * json)) : member k ms = Some v -> (k, v) ∈ ms.
Proof.
  unfold member. destruct (List.find _ ms) as [[k' v']|] eqn:H; [|done]. intros [= <-].
  apply List.find_some in H as [Hin He]. simpl in *. apply String.eqb_eq in He as <-. by apply list_elem_of_In.
Qed.

Lemma member_unique k v (ms : list (string * json)) : NoDup ms.*1 -> (k, v) ∈ ms -> member k ms = Some v.
Proof.
  unfold member. induction ms as [|[k' v'] ms IH]; simpl; [by intros _ ?%not_elem_of_nil|].
  intros [Hn Hms]%NoDup_cons. rewrite elem_of_cons. destruct (String.eqb_spec k k') as [->|Hne].
  - intros [[= ->]|Hin]; [done|]. exfalso. apply Hn. apply list_elem_of_fmap. by exists (k', v).
  - intros [[= -> _]|Hin]; [done|]. by apply IH.
Qed.

(** ** Regular documents *)

Fixpoint json_ind' (P : json -> Prop)
    (Hn : P JNull) (Hb : forall b, P (JBool b)) (Hnum : forall t, P (JNumber t)) (Hs : forall s, P (JString s))
    (Ha : forall vs, Forall P vs -> P (JArray vs)) (Ho : forall ms, Forall (fun kv => P kv.2) ms -> P (JObject ms))
    (v : json) {struct v} : P v :=
  match v with
  | JNull => Hn | JBool b => Hb b | JNumber t => Hnum t | JString s => Hs s
  | JArray vs => Ha vs ((fix go vs := match vs return Forall P vs with
                         | [] => Forall_nil_2 P
                         | v :: vs => Forall_cons_2 P _ _ (json_ind' P Hn Hb Hnum Hs Ha Ho v) (go vs)
                         end) vs)
  | JObject ms => Ho ms ((fix go ms := match ms return Forall (fun kv => P kv.2) ms with
                          | [] => Forall_nil_2 _
                          | kv :: ms => Forall_cons_2 _ _ _ (json_ind' P Hn Hb Hnum Hs Ha Ho kv.2) (go ms)
                          end) ms)
  end.

(** What the decoder lets through; [room] is how much deeper it may go. *)
Inductive regular : nat -> json -> Prop :=
| regular_null n : regular n JNull
| regular_bool n b : regular n (JBool b)
| regular_number n t : regular n (JNumber t)
| regular_string n s : regular n (JString s)
| regular_array n vs : (List.length vs <= OSCALValidatorMaxItems)%nat -> Forall (regular n) vs -> regular (S n) (JArray vs)
| regular_object n ms :
    NoDup ms.*1 -> (List.length ms <= OSCALValidatorMaxProperties)%nat -> Forall (fun kv => regular n kv.2) ms ->
    regular (S n) (JObject ms)
| regular_empty_array : regular 0 (JArray [])
| regular_empty_object : regular 0 (JObject []).

(** ** What is decoded is regular *)

Lemma regular_array_at d vs :
  (d <= OSCALValidatorMaxDepth)%nat -> (List.length vs <= OSCALValidatorMaxItems)%nat ->
  (vs <> [] -> (S d <= OSCALValidatorMaxDepth)%nat) -> Forall (regular (OSCALValidatorMaxDepth - S d)) vs ->
  regular (OSCALValidatorMaxDepth - d) (JArray vs).
Proof.
  intros Hd Hl Hn Hvs. destruct (decide (d = OSCALValidatorMaxDepth)) as [->|Hne].
  - destruct vs as [|v vs]; [rewrite Nat.sub_diag; constructor|]. specialize (Hn ltac:(done)). lia.
  - replace (OSCALValidatorMaxDepth - d)%nat with (S (OSCALValidatorMaxDepth - S d)) by lia. by constructor.
Qed.

Lemma regular_object_at d ms :
  (d <= OSCALValidatorMaxDepth)%nat -> NoDup ms.*1 -> (List.length ms <= OSCALValidatorMaxProperties)%nat ->
  (ms <> [] -> (S d <= OSCALValidatorMaxDepth)%nat) -> Forall (fun kv => regular (OSCALValidatorMaxDepth - S d) kv.2) ms ->
  regular (OSCALValidatorMaxDepth - d) (JObject ms).
Proof.
  intros Hd Hk Hl Hn Hms. destruct (decide (d = OSCALValidatorMaxDepth)) as [->|Hne].
  - destruct ms as [|v ms]; [rewrite Nat.sub_diag; constructor|]. specialize (Hn ltac:(done)). lia.
  - replace (OSCALValidatorMaxDepth - d)%nat with (S (OSCALValidatorMaxDepth - S d)) by lia. by constructor.
Qed.

Lemma scalar_token_regular l v r n : scalar_token l = Some (v, r) -> regular n v.
Proof.
  unfold scalar_token. destruct l as [|z l]; [done|].
  repeat match goal with |- (if ?b then _ else _) = _ -> _ => destruct b end.
  - destruct (parse_chars _ _ _) as [[s t]|]; [|done]. intros [= <- _]. constructor.
  - destruct (take_word _ _); [|done]. intros [= <- _]. constructor.
  - destruct (take_word _ _); [|done]. intros [= <- _]. constructor.
  - destruct (take_word _ _); [|done]. intros [= <- _]. constructor.
  - destruct (parse_number _) as [[s t]|]; [|done]. intros [= <- _]. constructor.
Qed.

Lemma member_fresh k (ms : list (string * json)) : member k ms = None -> k ∉ ms.*1.
Proof.
  unfold member. destruct (List.find _ ms) eqn:H; [done|]. intros _ (kv & -> & Hin)%list_elem_of_fmap.
  pose proof (List.find_none _ _ H kv (proj1 (list_elem_of_In _ _) Hin)) as Hn. simpl in Hn.
  by rewrite String.eqb_refl in Hn.
Qed.

Lemma decode_regular_all fuel :
  (forall d l v r, decodeJSONValue fuel d l = Decoded (v, r) ->
     (d <= OSCALValidatorMaxDepth)%nat /\ regular (OSCALValidatorMaxDepth - d) v) /\
  (forall d ms l v r, decode_members fuel d ms l = Decoded (v, r) -> (d <= OSCALValidatorMaxDepth)%nat ->
     NoDup ms.*1 -> (List.length ms <= OSCALValidatorMaxProperties)%nat -> (ms <> [] -> (S d <= OSCALValidatorMaxDepth)%nat) ->
     Forall (fun kv => regular (OSCALValidatorMaxDepth - S d) kv.2) ms -> regular (OSCALValidatorMaxDepth - d) v) /\
  (forall d vs l v r, decode_elements fuel d vs l = Decoded (v, r) -> (d <= OSCALValidatorMaxDepth)%nat ->
     (List.length vs <= OSCALValidatorMaxItems)%nat -> (vs <> [] -> (S d <= OSCALValidatorMaxDepth)%nat) ->
     Forall (regular (OSCALValidatorMaxDepth - S d)) vs -> regular (OSCALValidatorMaxDepth - d) v).
Proof.
  Opaque OSCALValidatorMaxDepth OSCALValidatorMaxItems OSCALValidatorMaxProperties.
  induction fuel as [|fuel (IHv & IHm & IHe)]; [split_and!; done|]. split_and!; simpl.
  - intros d l v r. destruct (Nat.ltb_spec OSCALValidatorMaxDepth d) as [|Hd]; [done|]. intros H. split; [done|].
    revert H. destruct (starts 123 _); [|destruct (starts 91 _)].
    + intros H. eapply IHm; [exact H|done|by constructor|simpl; lia|done|by constructor].
    + intros H. eapply IHe; [exact H|done|simpl; lia|done|by constructor].
    + destruct (scalar_token _) as [[v' r']|] eqn:Ht; [|done]. intros [= <- _]. by eapply scalar_token_regular.
  - intros d ms l v r H Hd Hk Hl Hn Hms. revert H. destruct (starts 125 _).
    { intros [= <- _]. apply regular_object_at; [done| | | |].
      - assert (Hp : rev ms ≡ₚ ms) by (symmetry; apply Permutation_rev). by rewrite Hp.
      - by rewrite length_rev.
      - intros Hr. apply Hn. by intros ->.
      - by apply Forall_rev. }
    destruct (_ || _); [done|]. destruct (Nat.leb_spec OSCALValidatorMaxProperties (List.length ms)) as [|Hlt]; [done|].
    destruct (_ ≫= key_token) as [[key t]|]; [|done]. destruct (member key ms) eqn:Hm; [done|].
    destruct (Nat.ltb_spec OSCALValidatorMaxDepth (S d)) as [|Hd']; [done|]. destruct (starts 58 _); [|done].
    destruct (decodeJSONValue fuel (S d) _) as [[w t']|] eqn:Hw; [|done]. apply IHv in Hw as [_ Hw]. intros H.
    eapply IHm; [exact H|done| |simpl; lia|done|by constructor].
    simpl. apply NoDup_cons. split; [by apply member_fresh|done].
  - intros d vs l v r H Hd Hl Hn Hvs. revert H. destruct (starts 93 _).
    { intros [= <- _]. apply regular_array_at; [done| | |].
      - by rewrite length_rev.
      - intros Hr. apply Hn. by intros ->.
      - by apply Forall_rev. }
    destruct (_ || _); [done|]. destruct (Nat.leb_spec OSCALValidatorMaxItems (List.length vs)) as [|Hlt]; [done|].
    destruct (Nat.ltb_spec OSCALValidatorMaxDepth (S d)) as [|Hd']; [done|]. destruct (next_item _ _) as [t|]; [|done].
    destruct (decodeJSONValue fuel (S d) t) as [[w t']|] eqn:Hw; [|done]. apply IHv in Hw as [_ Hw]. intros H.
    eapply IHe; [exact H|done|simpl; lia|done|by constructor].
Qed.
Transparent OSCALValidatorMaxDepth OSCALValidatorMaxItems OSCALValidatorMaxProperties.

Lemma decoded_regular data v : decodeJSONStrict data = Decoded v -> regular OSCALValidatorMaxDepth v.
Proof.
  unfold decodeJSONStrict. destruct (decodeJSONValue _ 0 _) as [[w r]|] eqn:H; [|done].
  destruct (after_document r) as [[]|]; [done| |done]. intros [= ->].
  apply (proj1 (decode_regular_all _)) in H as [_ H]. by rewrite Nat.sub_0_r in H.
Qed.

(** ** Parts of a regular document *)

Lemma regular_keys n ms : regular n (JObject ms) -> NoDup ms.*1.
Proof. inversion 1; subst; [done|constructor]. Qed.

Lemma regular_length n vs : regular n (JArray vs) -> (Z.of_nat (List.length vs) < 2 ^ 63)%Z.
Proof. inversion 1; subst; [|done]. unfold OSCALValidatorMaxItems in *. lia. Qed.

Lemma regular_member n ms k v : regular n (JObject ms) -> (k, v) ∈ ms -> exists m, regular m v.
Proof.
  inversion 1; subst; [|by intros ?%not_elem_of_nil]. intros Hin.
  rewrite Forall_forall in H4. exists n0. apply (H4 (k, v) Hin).
Qed.

Lemma regular_element n vs v : regular n (JArray vs) -> v ∈ vs -> exists m, regular m v.
Proof.
  inversion 1; subst; [|by intros ?%not_elem_of_nil]. intros Hin. rewrite Forall_forall in H3. eauto.
Qed.

Lemma regular_token n v t w : regular n v -> resolve_token v t = Some w -> exists m, regular m w.
Proof.
  intros Hr. unfold resolve_token. destruct v as [| | | |vs|ms]; try done.
  - destruct (ParseInt64 _) as [i|]; [|done]. simpl. destruct (_ || _); [done|]. intros Hw.
    eapply regular_element; [exact Hr|]. by eapply list_elem_of_lookup_2.
  - intros Hw%member_elem. by eapply regular_member.
Qed.

Lemma regular_resolve n r p v : regular n r -> resolveJSONPointer r p = Some v -> exists m, regular m v.
Proof.
  intros Hr. destruct p as [|c p]; simpl; [intros [= ->]; eauto|]. destruct (Ascii.eqb c "/"); [|done].
  generalize (split_on "/" p). intros ts. revert n r Hr. induction ts as [|t ts IH]; intros n r Hr; simpl; [intros [= ->]; eauto|].
  destruct (resolve_token r t) as [w|] eqn:Ht; simpl; [|done]. destruct (regular_token _ _ _ _ Hr Ht) as [m Hm].
  by apply (IH m).
Qed.
