(* ===== verification/SchemaSample.v ===== *)
(** Concrete inputs for the theorems on the schema engine.

    Strings of Go's source are written with single quotes for the double ones.  The
    library of the examples computes with integers; one of 10^18 and more stands for an
    infinity. *)
From S2P Require Import Prelude Encoding Json JsonDecode SchemaModel SchemaCompile SchemaValidate SchemaSpec.
From Stdlib Require Import String Ascii List ZArith Lia Bool.
From stdpp Require Import base strings list gmap pretty.
Open Scope string_scope.
Open Scope list_scope.

(** JSON text with its quotes. *)
Definition text (s : string) : string := replace_byte "'" (String (ascii_of_nat 34) "") s.

Definition zlib : golib Z Z :=
  {| regexp_compiles _ := true; regexp_match p s := String.prefix p s; float64_of := ParseInt64; float_integral _ := true;
     float_is_zero z := (z =? 0)%Z; float_text z := pretty z; big_of_float z := z; big_zero := 0%Z; big_parse := ParseInt64;
     big_cmp := Z.compare; big_quo := Z.div; big_int z := if (Z.abs z <? 10 ^ 18)%Z then Some z else None; big_set_int z := z; url_scheme _ := None; mail_address _ := true |}.

Definition in_turn : orders := fun _ _ l => l.
Definition reversed : orders := fun _ _ l => rev l.

Lemma in_turn_permutes : permutes in_turn.
Proof. by intros n A l. Qed.
Lemma reversed_permutes : permutes reversed.
Proof. intros n A l. unfold reversed. symmetry. apply Permutation_rev. Qed.

(** Compiles a schema and validates a text against it. *)
Definition check_text (range : orders) (schema instance : string) : option (list Failure) :=
  match Compile zlib range (text schema) NewCompiler with
  | (inl a, c) => Validate zlib range (store c) a (text instance)
  | (inr _, _) => None
  end.

Definition reasons (r : option (list Failure)) : option (list (ReasonCode * string)) :=
  option_map (map (fun f => (Reason f, InstancePtr f))) r.

Definition person : string :=
  "{'type':'object','required':['name'],'properties':{'name':{'$ref':'#/definitions/text'},'tags':{'type':'array','items':{'$ref':'#tag'},'uniqueItems':true}},'additionalProperties':false,'definitions':{'text':{'type':'string','minLength':1},'tag':{'$id':'#tag','enum':['a','b']}}}".
