(* ===== verification/SchemaCompiled.v ===== *)
(** What the compiler builds.

    [good] says of a compiler state that every path in its table is the path of an object
    of the document, held at an address of its own, and that the node there represents the
    object unless its compilation has not ended yet.  Every operation that reports no
    failure keeps this and only [extends] the state. *)
From S2P Require Import Prelude Encoding Json JsonDecode SchemaModel SchemaCompile SchemaValidate SchemaSpec SchemaDoc SchemaPointer.
From Stdlib Require Import String Ascii List ZArith Lia Bool.
From stdpp Require Import base strings list gmap pretty.
Open Scope string_scope.
Open Scope list_scope.


Section compiled.
Context {F B : Type} (lib : golib F B) (range : orders).
Context (range_permutes : permutes range).
Notation Node := (Schema F nat).
Notation compiler := (@Compiler F).

(** ** Failures stay *)

Definition clean (c : compiler) : Prop := cfailures c = [].

(** If there is no failure after it, there was none before. *)
Definition grows {A} (m : comp A) : Prop := forall c : compiler, clean (m c).2 -> clean c.

Lemma grows_ret {A} (a : A) : grows (mret a).
Proof. by intros c. Qed.
Lemma grows_get : grows get_state.
Proof. by intros c. Qed.
Lemma grows_bind {A R} (m : comp A) (f : A -> comp R) : grows m -> (forall a, grows (f a)) -> grows (m ≫= f).
Proof. intros Hm Hf c H. unfold mbind, comp_bind in H. apply Hm. destruct (m c) as [a c1]. simpl in *. by apply (Hf a). Qed.
Lemma fail_dirty r s ops p k (c : compiler) : ~ clean (fail r s ops p k c).2.
Proof.
  unfold clean, fail, addFailure. simpl. destruct (Nat.ltb_spec (List.length (cfailures c)) OSCALValidatorMaxFailures) as [|H]; simpl.
  - by destruct (cfailures c).
  - intros He. rewrite He in H. unfold OSCALValidatorMaxFailures in H. simpl in H. lia.
Qed.
Lemma grows_fail r s ops p k : grows (fail (F := F) r s ops p k).
Proof. intros c H. by apply fail_dirty in H. Qed.
Lemma grows_next_order {A} (l : list (string * A)) : grows (next_order (F := F) range l).
Proof. by intros c. Qed.
Lemma grows_set_node a (s : Node) : grows (set_node a s).
Proof. by intros c. Qed.
Lemma grows_alloc (s : Node) : grows (alloc s).
Proof. by intros c. Qed.
Lemma grows_set_compiled p a : grows (set_compiled (F := F) p a).
Proof. by intros c. Qed.
Lemma grows_set_id i n p : grows (set_id (F := F) i n p).
Proof. by intros c. Qed.
Lemma grows_each {A} (l : list A) (f : A -> comp unit) : (forall x, x ∈ l -> grows (f x)) -> grows (each (F := F) l f).
Proof.
  induction l as [|x l IH]; intros H; [apply grows_ret|]. apply grows_bind; [apply H; by left|].
  intros _. apply IH. intros y Hy. apply H. by right.
Qed.
Lemma grows_collect {A R} (l : list A) (f : A -> comp R) : (forall x, grows (f x)) -> grows (collect (F := F) l f).
Proof.
  intros H. induction l as [|x l IH]; [apply grows_ret|]. apply grows_bind; [apply H|]. intros r.
  apply grows_bind; [done|]. intros rs. apply grows_ret.
Qed.

Create HintDb grows.
#[local] Hint Resolve grows_ret grows_get grows_fail grows_next_order grows_set_node grows_alloc grows_set_compiled
  grows_set_id grows_collect : grows.

(** Goes through an operation to its statements. *)
Ltac growing :=
  repeat (intros; match goal with
          | |- grows (_ ≫= _) => apply grows_bind
          | |- grows (each _ _) => apply grows_each
          | |- grows (collect _ _) => apply grows_collect
          | |- grows (match ?x with _ => _ end) => destruct x
          | |- grows _ => solve [eauto with grows]
          end).

Section grows_keywords.
Context (compile : json -> string -> comp (F := F) nat) (compile_grows : forall n p, grows (compile n p)).

Lemma grows_resolveRef ref : grows (resolveRef (F := F) ref).
Proof. intros c. unfold resolveRef, mbind, comp_bind, get_state. by repeat case_match. Qed.
#[local] Hint Resolve compile_grows grows_resolveRef : grows.

Lemma grows_check_keywords obj p : grows (check_keywords (F := F) range obj p).
Proof. unfold check_keywords. growing. Qed.
Lemma grows_type obj p : grows (compileTypeKeyword (F := F)  obj p).
Proof. unfold compileTypeKeyword. growing. Qed.
Lemma grows_enum obj p : grows (compile_enum (F := F)  obj p).
Proof. unfold compile_enum. growing. Qed.
Lemma grows_pattern obj p : grows (compile_pattern (F := F) lib obj p).
Proof. unfold compile_pattern. growing. Qed.
Lemma grows_format obj p : grows (compile_format (F := F)  obj p).
Proof. unfold compile_format. growing. Qed.
Lemma grows_properties obj p : grows (compile_properties range compile obj p).
Proof. unfold compile_properties, compile_map. growing. Qed.
Lemma grows_patternProperties obj p : grows (compile_patternProperties lib range compile obj p).
Proof. unfold compile_patternProperties. growing. Qed.
Lemma grows_additional k obj p : grows (compile_additional compile k obj p).
Proof. unfold compile_additional. growing. Qed.
Lemma grows_propertyNames obj p : grows (compile_propertyNames compile obj p).
Proof. unfold compile_propertyNames. growing. Qed.
Lemma grows_dependencies obj p : grows (compile_dependencies range compile obj p).
Proof. unfold compile_dependencies. growing. Qed.
Lemma grows_items obj p : grows (compile_items compile obj p).
Proof. unfold compile_items. growing. Qed.
Lemma grows_unless_bool k obj p : grows (compile_unless_bool compile k obj p).
Proof. unfold compile_unless_bool. growing. Qed.
Lemma grows_list k obj p : grows (compile_list compile k obj p).
Proof. unfold compile_list. growing. Qed.
#[local] Hint Resolve grows_check_keywords grows_type grows_enum grows_pattern grows_format grows_properties grows_patternProperties grows_additional grows_propertyNames grows_dependencies grows_items grows_unless_bool grows_list : grows.

Lemma grows_object obj p : grows (compile_object lib range compile obj p).
Proof. unfold compile_object. growing. Qed.
End grows_keywords.
#[local] Hint Resolve grows_resolveRef grows_check_keywords grows_type grows_enum grows_pattern grows_format grows_properties grows_patternProperties grows_additional grows_propertyNames grows_dependencies grows_items grows_unless_bool grows_list : grows.

Lemma grows_compileNode room n p : grows (compileNode lib range room n p).
Proof.
  revert n p. induction room as [|room IH]; intros n p; simpl; [growing|].
  assert (Ho : forall obj q, grows (compile_object lib range (compileNode lib range room) obj q)) by (intros; by apply grows_object).
  destruct n; growing.
Qed.

(** ** What a state holds *)

Context (doc : json) (depth : nat) (doc_regular : regular depth doc).

(** The node at [a] stands for the schema [n] of the document. *)
Definition linked (c : compiler) (a : nat) (n : json) : Prop :=
  match n with
  | JBool b => (exists s, store c !! a = Some s /\ Boolean s = Some b /\ Ref s = None) /\ forall p, compiled c !! p <> Some a
  | JObject _ => exists p, compiled c !! p = Some a /\ resolveJSONPointer doc p = Some n
  | _ => False
  end.

(** The node [s] says what the object at [p] says. *)
Definition describes (c : compiler) (obj : list (string * json)) (p : string) (s : Node) : Prop :=
  SchemaLocation s = p /\ Boolean s = None /\
  match text_of (member "$ref" obj) with
  | Some ref => exists t tp a, (resolveRef ref c).1 = Some (t, tp) /\ s = ref_schema None (default "" (text_of (member "$id" obj))) ref (Some a) p /\ linked c a t
  | None => Ref s = None /\ represents (linked c) s (doc_schema lib obj)
  end.

Record good (P : gset string) (c : compiler) : Prop := {
  g_root : root c = doc;
  g_fresh : forall a, is_Some (store c !! a) <-> (a < size (store c))%nat;
  g_node : forall p a, compiled c !! p = Some a -> exists obj,
    resolveJSONPointer doc p = Some (JObject obj) /\ is_Some (store c !! a) /\
    (p ∈ P \/ exists s, store c !! a = Some s /\ describes c obj p s);
  g_inj : forall p q a, compiled c !! p = Some a -> compiled c !! q = Some a -> p = q;
  g_ids : forall id x, idIndex c !! id = Some x -> resolveJSONPointer doc (default "" (idPaths c !! id)) = Some x }.

Record extends (P : gset string) (c c' : compiler) : Prop := {
  e_root : root c' = root c; e_index : idIndex c' = idIndex c; e_paths : idPaths c' = idPaths c;
  e_compiled : compiled c ⊆ compiled c';
  e_store : forall a, is_Some (store c !! a) -> (forall p, p ∈ P -> compiled c !! p <> Some a) -> store c' !! a = store c !! a;
  e_some : forall a, is_Some (store c !! a) -> is_Some (store c' !! a);
  e_new : forall p a, compiled c !! p = None -> compiled c' !! p = Some a -> store c !! a = None }.

Lemma extends_refl P c : extends P c c.
Proof. split; try done. by intros p a ->. Qed.

Lemma extends_trans P c1 c2 c3 : extends P c1 c2 -> extends P c2 c3 -> extends P c1 c3.
Proof.
  intros H1 H2. split.
  - by rewrite (e_root _ _ _ H2), (e_root _ _ _ H1).
  - by rewrite (e_index _ _ _ H2), (e_index _ _ _ H1).
  - by rewrite (e_paths _ _ _ H2), (e_paths _ _ _ H1).
  - etrans; [apply (e_compiled _ _ _ H1)|apply (e_compiled _ _ _ H2)].
  - intros a Ha Hp. rewrite (e_store _ _ _ H2), (e_store _ _ _ H1); [done..|by apply (e_some _ _ _ H1)|].
    intros p Hin Hc. destruct (compiled c1 !! p) as [a'|] eqn:Hc1.
    + assert (Hc' := lookup_weaken _ _ _ _ Hc1 (e_compiled _ _ _ H1)). rewrite Hc in Hc'. injection Hc' as <-. by eapply Hp.
    + rewrite (e_new _ _ _ H1 _ _ Hc1 Hc) in Ha. by destruct Ha.
  - intros a Ha. by apply (e_some _ _ _ H2), (e_some _ _ _ H1).
  - intros p a Hp Hc. destruct (compiled c2 !! p) as [a'|] eqn:Hc2.
    + assert (Hc' := lookup_weaken _ _ _ _ Hc2 (e_compiled _ _ _ H2)). rewrite Hc in Hc'. injection Hc' as <-.
      by apply (e_new _ _ _ H1 p).
    + pose proof (e_new _ _ _ H2 _ _ Hc2 Hc) as Hn. destruct (store c1 !! a) eqn:Ha; [|done].
      destruct (e_some _ _ _ H1 a) as [? Hs]; [by eexists|]. congruence.
Qed.

Lemma linked_mono P c c' a n : extends P c c' -> linked c a n -> linked c' a n.
Proof.
  intros He. destruct n; simpl; try done.
  - intros [(s & Hs & Hb) Hp]. split.
    + exists s. split; [|done]. rewrite (e_store _ _ _ He); [done|by eexists|]. intros p _. apply Hp.
    + intros p Hc. destruct (compiled c !! p) as [a'|] eqn:Hc1.
      * assert (Hc' := lookup_weaken _ _ _ _ Hc1 (e_compiled _ _ _ He)). rewrite Hc in Hc'. injection Hc' as <-. by eapply Hp.
      * by rewrite (e_new _ _ _ He _ _ Hc1 Hc) in Hs.
  - intros (p & Hp & Hr). exists p. split; [|done]. eapply lookup_weaken; [exact Hp|apply He].
Qed.

Lemma resolveRef_same P c c' ref : extends P c c' -> (resolveRef ref c').1 = (resolveRef ref c).1.
Proof.
  intros He. unfold resolveRef, mbind, comp_bind, get_state. cbn [fst snd].
  rewrite (e_root _ _ _ He), (e_index _ _ _ He), (e_paths _ _ _ He). by repeat case_match.
Qed.

Lemma option_Forall2_mono {X Y} (R S : X -> Y -> Prop) o o' : (forall x y, R x y -> S x y) -> option_Forall2 R o o' -> option_Forall2 S o o'.
Proof. intros H []; constructor; auto. Qed.

Lemma dep_rel_mono {X Y} (R S : X -> Y -> Prop) d d' : (forall x y, R x y -> S x y) -> dep_rel R d d' -> dep_rel S d d'.
Proof. intros H []; constructor; auto. Qed.

Lemma represents_mono {X Y} (R S : X -> Y -> Prop) (s : Schema F X) (d : Schema F Y) :
  (forall x y, R x y -> S x y) -> represents R s d -> represents S s d.
Proof.
  intros H []. split; try done; try (by eapply option_Forall2_mono); try (by eapply Forall2_impl); try (by eapply keyed_mono).
  eapply keyed_mono; [|done]. intros x y. by apply dep_rel_mono.
Qed.

Lemma describes_mono P c c' obj p s : extends P c c' -> describes c obj p s -> describes c' obj p s.
Proof.
  intros He (H1 & H2 & H3). split; [done|]. split; [done|]. destruct (text_of _) as [ref|].
  - destruct H3 as (t & tp & a & Hr & Hs & Hl). exists t, tp, a. rewrite (resolveRef_same P c c' ref He).
    split_and!; [done..|]. by eapply linked_mono.
  - destruct H3 as [Hr Hs]. split; [done|]. eapply represents_mono; [|done]. intros. by eapply linked_mono.
Qed.

(** ** Operations that keep it *)

Definition holds {A} (P : gset string) (c : compiler) (m : comp A) (Q : A -> compiler -> Prop) : Prop :=
  good P c -> clean (m c).2 -> good P (m c).2 /\ extends P c (m c).2 /\ Q (m c).1 (m c).2.

Lemma holds_ret {A} P c (a : A) (Q : A -> compiler -> Prop) : Q a c -> holds P c (mret a) Q.
Proof. intros HQ Hg _. split; [done|]. split; [apply extends_refl|done]. Qed.

Lemma holds_bind {A R} P c (m : comp A) (f : A -> comp R) Q1 (Q2 : R -> compiler -> Prop) :
  (forall a, grows (f a)) -> holds P c m Q1 ->
  (forall a c1, extends P c c1 -> Q1 a c1 -> holds P c1 (f a) Q2) ->
  holds P c (m ≫= f) Q2.
Proof.
  intros Hgr Hm Hf Hg Hcl. unfold mbind, comp_bind in *. specialize (Hm Hg). destruct (m c) as [a c1]. simpl in *.
  destruct Hm as (Hg1 & He1 & HQ1); [by apply (Hgr a)|].
  destruct (Hf a c1 He1 HQ1 Hg1 Hcl) as (Hg2 & He2 & HQ2). split; [done|]. split; [|done]. by eapply extends_trans.
Qed.

Lemma holds_get {R} P c (f : compiler -> comp R) Q : holds P c (f c) Q -> holds P c (get_state ≫= f) Q.
Proof. done. Qed.

Lemma holds_conseq {A} P c (m : comp A) (Q Q' : A -> compiler -> Prop) :
  (forall a c1, extends P c c1 -> Q a c1 -> Q' a c1) -> holds P c m Q -> holds P c m Q'.
Proof. intros H Hm Hg Hcl. destruct (Hm Hg Hcl) as (? & ? & ?). auto. Qed.

Lemma holds_fail {A} P c r s ops p k (f : unit -> comp A) Q :
  (forall a, grows (f a)) -> holds P c (fail r s ops p k ≫= f) Q.
Proof.
  intros Hgr _ Hcl. exfalso. unfold mbind, comp_bind in Hcl. destruct (fail r s ops p k c) as [u c1] eqn:Hf.
  apply (fail_dirty r s ops p k c). rewrite Hf. simpl. by apply (Hgr u).
Qed.

Lemma holds_fail_last P c r s ops p k Q : holds P c (fail r s ops p k) Q.
Proof. intros _ Hcl. by apply fail_dirty in Hcl. Qed.

(** A state that differs in nothing that [good] looks at. *)
Lemma good_same P c c' :
  root c' = root c -> idIndex c' = idIndex c -> idPaths c' = idPaths c -> compiled c' = compiled c -> store c' = store c ->
  good P c -> good P c' /\ extends P c c'.
Proof.
  intros H1 H2 H3 H4 H5 Hg.
  assert (He : extends P c c').
  { split; try done; rewrite ?H4, ?H5; try done. by intros p a ->. }
  split; [|done]. split; rewrite ?H1, ?H2, ?H3, ?H4, ?H5; try apply Hg.
  intros p a Hp. destruct (g_node P c Hg p a Hp) as (obj & Ho & Hs & Hd). exists obj. split_and!; [done..|].
  destruct Hd as [|(s & ? & ?)]; [by left|]. right. exists s. split; [done|]. by eapply describes_mono.
Qed.

Lemma holds_order {A} P c (l : list (string * A)) : holds P c (next_order range l) (fun l' _ => l' ≡ₚ l).
Proof.
  intros Hg _. unfold next_order. cbn [fst snd].
  match goal with |- good P ?c' /\ _ => destruct (good_same P c c') as [? ?]; [done..|] end.
  split_and!; [done..|]. apply range_permutes.
Qed.

Lemma holds_alloc_bool P c b path : holds P c (alloc (bool_schema (Some b) path)) (fun a c' => linked c' a (JBool b)).
Proof.
  intros Hg _. unfold alloc, set_node, mbind, comp_bind, get_state, mret, comp_ret. cbn [fst snd].
  set (s := bool_schema (Some b) path). set (a := size (store c)).
  assert (Ha : store c !! a = None).
  { destruct (store c !! a) eqn:H; [|done]. assert (a < size (store c))%nat by (apply (g_fresh P c Hg); by eexists). subst a. lia. }
  match goal with |- good P ?x /\ _ => set (c' := x) end.
  assert (He : extends P c c').
  { split; try done; simpl.
    - intros x Hx _. rewrite lookup_insert_ne; [done|]. intros <-. rewrite Ha in Hx. by destruct Hx.
    - intros x Hx. destruct (decide (a = x)) as [<-|]; [by rewrite lookup_insert_eq; eexists|by rewrite lookup_insert_ne].
    - by intros p x ->. }
  split; [|split; [done|]].
  - split; simpl; try apply Hg.
    + intros x. rewrite map_size_insert_None by done. destruct (decide (a = x)) as [<-|Hne].
      * rewrite lookup_insert_eq. split; [intros _; subst a; lia|by eexists].
      * rewrite lookup_insert_ne by done. rewrite (g_fresh P c Hg). subst a. lia.
    + intros p x Hp. destruct (g_node P c Hg p x Hp) as (obj & Ho & Hs & Hd). exists obj.
      assert (Hne : a <> x) by (intros <-; rewrite Ha in Hs; by destruct Hs).
      rewrite lookup_insert_ne by done. split_and!; [done..|].
      destruct Hd as [|(s' & ? & ?)]; [by left|]. right. exists s'. split; [done|]. by eapply describes_mono.
  - simpl. split; [exists s; by rewrite lookup_insert_eq|]. intros p Hp.
    destruct (g_node P c Hg p a Hp) as (_ & _ & Hs & _). rewrite Ha in Hs. by destruct Hs.
Qed.

Lemma holds_collect {A R} P (l : list A) (f : A -> comp R) (Rel : compiler -> R -> A -> Prop) c :
  (forall x r c c', extends P c c' -> Rel c r x -> Rel c' r x) -> (forall x, grows (f x)) ->
  (forall x c1, x ∈ l -> holds P c1 (f x) (fun r c' => Rel c' r x)) ->
  holds P c (collect l f) (fun rs c' => Forall2 (Rel c') rs l).
Proof.
  intros Hmono Hgr. revert c. induction l as [|x l IH]; intros c H; [apply holds_ret; constructor|]. simpl.
  eapply holds_bind; [|apply H; by left|].
  { intros r. apply grows_bind; [by apply grows_collect|]. intros rs. apply grows_ret. }
  intros r c1 He Hr. eapply holds_bind; [intros; apply grows_ret|apply IH; intros; apply H; by right|].
  intros rs c2 He2 Hrs. apply holds_ret. constructor; [by eapply Hmono|done].
Qed.

Section keywords.
Context (compile : json -> string -> comp (F := F) nat) (compile_grows : forall n p, grows (compile n p)).
Context (P : gset string).
Context (compile_links : forall n p c, resolveJSONPointer doc p = Some n ->
           holds P c (compile n p) (fun a c' => linked c' a n)).
#[local] Hint Resolve compile_grows : grows.

Notation opt_linked c := (option_Forall2 (linked c)).

(** A child that is compiled and kept. *)
Lemma holds_some c n p : resolveJSONPointer doc p = Some n ->
  holds P c (compile n p ≫= fun a => mret (Some a)) (fun o c' => opt_linked c' o (Some n)).
Proof.
  intros Hp. eapply holds_bind; [intros; apply grows_ret|by apply compile_links|].
  intros a c1 He Ha. apply holds_ret. by constructor.
Qed.

Lemma holds_some_bool c b : holds P c (alloc (bool_schema (Some b) "") ≫= fun a => mret (Some a))
  (fun o c' => opt_linked c' o (Some (JBool b))).
Proof.
  eapply holds_bind; [intros; apply grows_ret|apply holds_alloc_bool|].
  intros a c1 He Ha. apply holds_ret. by constructor.
Qed.

Context (obj : list (string * json)) (path : string).
Context (at_path : resolveJSONPointer doc path = Some (JObject obj)).

Lemma child_at k v : member k obj = Some v -> resolveJSONPointer doc (child_path path k) = Some v.
Proof. intros H. by eapply resolve_child. Qed.

Lemma properties_hold c : holds P c (compile_properties range compile obj path)
  (fun l c' => keyed (linked c') l (doc_map "properties" obj)).
Proof.
  unfold compile_properties, doc_map. destruct (member "properties" obj) as [[| | | | |m]|] eqn:Hm;
    try (apply holds_ret; exists []; by split).
  apply child_at in Hm. unfold compile_map.
  destruct (regular_resolve _ _ _ _ doc_regular Hm) as [d Hd%regular_keys].
  eapply holds_bind; [intros; growing|apply holds_order|]. intros m' c1 He Hp.
  eapply holds_conseq; [|apply (holds_collect P m' _ (fun c' r kv => r.1 = kv.1 /\ linked c' r.2 kv.2))].
  - intros rs c2 He2 Hrs. exists m'. by split.
  - intros x r c2 c3 He2 [? ?]. split; [done|]. by eapply linked_mono.
  - intros x. growing.
  - intros [k v] c2 Hin. rewrite Hp in Hin. eapply holds_bind; [intros; apply grows_ret|apply compile_links|].
    + eapply resolve_child; [exact Hm|]. by apply member_unique.
    + intros a c3 He3 Ha. by apply holds_ret.
Qed.

Lemma patterns_hold c : holds P c (compile_patternProperties lib range compile obj path)
  (fun l c' => keyed (linked c') l (doc_map "patternProperties" obj)).
Proof.
  unfold compile_patternProperties, doc_map. destruct (member "patternProperties" obj) as [[| | | | |m]|] eqn:Hm;
    try (apply holds_ret; exists []; by split).
  apply child_at in Hm. destruct (regular_resolve _ _ _ _ doc_regular Hm) as [d Hd%regular_keys].
  eapply holds_bind; [intros; growing|apply holds_order|]. intros m' c1 He Hp.
  eapply holds_bind; [intros; growing| |].
  { apply (holds_collect P m' _ (fun c' r kv => exists a, r = [(kv.1, a)] /\ linked c' a kv.2)).
    - intros x r c2 c3 He2 (a & ? & ?). exists a. split; [done|]. by eapply linked_mono.
    - intros x. growing.
    - intros [k v] c2 Hin. rewrite Hp in Hin. cbn [fst snd]. destruct (regexp_compiles lib k); [|apply holds_fail; intros; apply grows_ret].
      eapply holds_bind; [intros; apply grows_ret|apply compile_links|].
      + eapply resolve_child; [exact Hm|]. by apply member_unique.
      + intros a c3 He3 Ha. apply holds_ret. by exists a. }
  intros rs c2 He2 Hrs. apply holds_ret. exists m'. split; [done|].
  clear Hp He He2. induction Hrs as [|r [k v] rs m' (a & -> & Ha) Hrs IH]; simpl; [constructor|]. by constructor.
Qed.

Lemma additional_holds c key : resolveJSONPointer doc (path +:+ "/" +:+ key) = member key obj ->
  holds P c (compile_additional compile key obj path)
  (fun r c' => opt_linked c' r.1 (doc_additional key obj) /\ r.2 = doc_additional_bool key obj).
Proof.
  intros Hc. unfold compile_additional, doc_additional, doc_additional_bool.
  destruct (member key obj) as [[|b| | | |v]|]; try (apply holds_ret; split; [constructor|done]).
  eapply holds_bind; [intros; apply grows_ret|by apply compile_links|].
  intros a c1 He Ha. apply holds_ret. split; [by constructor|done].
Qed.

Lemma names_hold c : holds P c (compile_propertyNames compile obj path) (fun o c' => opt_linked c' o (doc_names obj)).
Proof.
  unfold compile_propertyNames, doc_names. destruct (member "propertyNames" obj) as [v|] eqn:Hm; [|apply holds_ret; constructor].
  apply child_at in Hm. destruct v as [|[]| | | |]; try (by apply holds_some); [apply holds_ret; constructor|apply holds_some_bool].
Qed.

Lemma dependencies_hold c : holds P c (compile_dependencies range compile obj path)
  (fun l c' => keyed (dep_rel (linked c')) l (omap doc_dependency (doc_map "dependencies" obj))).
Proof.
  unfold compile_dependencies, doc_map. destruct (member "dependencies" obj) as [[| | | | |m]|] eqn:Hm;
    try (apply holds_ret; exists []; by split).
  apply child_at in Hm. destruct (regular_resolve _ _ _ _ doc_regular Hm) as [d Hd%regular_keys].
  eapply holds_bind; [intros; growing|apply holds_order|]. intros m' c1 He Hp.
  set (Rel := fun (c' : compiler) (r : list (string * dependency nat)) kv =>
                Forall2 (fun x y => x.1 = y.1 /\ dep_rel (linked c') x.2 y.2) r (option_list (doc_dependency kv))).
  eapply holds_bind; [intros; growing| |].
  { apply (holds_collect P m' _ Rel).
    - intros x r c2 c3 He2 H. eapply Forall2_impl; [exact H|]. intros y z [? ?]. split; [done|].
      eapply dep_rel_mono; [|done]. intros. by eapply linked_mono.
    - intros x. growing.
    - intros [k v] c2 Hin. rewrite Hp in Hin. cbn [fst snd]. subst Rel. unfold doc_dependency. cbn [fst snd].
      destruct v as [|b| | |vs|o]; try (apply holds_ret; repeat constructor).
      + eapply holds_bind; [intros; apply grows_ret|apply holds_alloc_bool|].
        intros a c3 He3 Ha. apply holds_ret. repeat constructor; apply Ha.
      + eapply holds_bind; [intros; apply grows_ret|apply compile_links|].
        * eapply resolve_child; [exact Hm|]. by apply member_unique.
        * intros a c3 He3 Ha. apply holds_ret. repeat constructor; apply Ha. }
  intros rs c2 He2 Hrs. apply holds_ret. exists (omap doc_dependency m'). split; [by rewrite Hp|].
  subst Rel. simpl in Hrs. clear Hp He He2. induction Hrs as [|r kv rs m' Hr Hrs IH]; [constructor|]. cbn [concat omap list_omap].
  destruct (doc_dependency kv) as [y|]; simpl in Hr; inversion Hr as [|? ? ? ? ? Hnil]; subst; [|done].
  inversion Hnil; subst. by constructor.
Qed.

Lemma items_hold c : holds P c (compile_items compile obj path) (fun o c' => opt_linked c' o (doc_items obj)).
Proof.
  unfold compile_items, doc_items. destruct (member "items" obj) as [v|] eqn:Hm; [|apply holds_ret; constructor].
  apply child_at in Hm. destruct v as [|b| | |[|v vs]|o]; try (apply holds_ret; constructor); [apply holds_some_bool| |by apply holds_some].
  apply holds_some. replace (path +:+ "/items/0") with (item_path (child_path path "items") 0)
    by (unfold item_path, child_path; by rewrite !string_app_assoc).
  apply (resolve_item doc (child_path path "items") (v :: vs) 0 v); [|done..].
  destruct (regular_resolve _ _ _ _ doc_regular Hm) as [d Hd]. by eapply regular_length.
Qed.

Lemma unless_bool_holds c key : resolveJSONPointer doc (path +:+ "/" +:+ key) = member key obj ->
  holds P c (compile_unless_bool compile key obj path) (fun o c' => opt_linked c' o (doc_unless_bool key obj)).
Proof.
  intros Hc. unfold compile_unless_bool, doc_unless_bool.
  destruct (member key obj) as [[]|]; try (by apply holds_some); apply holds_ret; constructor.
Qed.

Lemma list_holds c key : resolveJSONPointer doc (path +:+ "/" +:+ key) = member key obj ->
  holds P c (compile_list compile key obj path) (fun l c' => Forall2 (linked c') l (doc_list key obj)).
Proof.
  intros Hc. unfold compile_list, doc_list. destruct (member key obj) as [[| | | |vs|]|] eqn:Hm; try (apply holds_ret; constructor).
  assert (Hlen : (Z.of_nat (List.length vs) < 2 ^ 63)%Z).
  { destruct (regular_resolve _ _ _ _ doc_regular Hc) as [d Hd]. by eapply regular_length. }
  eapply holds_conseq; [|apply (holds_collect P (numbered 0 vs) _ (fun c' r x => linked c' r x.2))].
  - intros rs c1 He. generalize 0%nat. clear. intros i H. revert i H. revert rs.
    induction vs as [|v vs IH]; intros rs i H; simpl in H; inversion H; subst; constructor; eauto.
  - intros x r c1 c2 He Hl. by eapply linked_mono.
  - intros x. growing.
  - intros [n v] c1 Hin. cbn [fst snd]. apply compile_links. apply numbered_lookup in Hin as (k & -> & Hk).
    by eapply (resolve_item doc (path +:+ "/" +:+ key) vs k v).
Qed.

(** ** The keywords of an object together *)

Lemma each_holds {A} c (l : list A) (f : A -> comp unit) :
  (forall x, grows (f x)) -> (forall x c1, holds P c1 (f x) (fun _ _ => True)) -> holds P c (each l f) (fun _ _ => True).
Proof.
  intros Hgr H. revert c. induction l as [|x l IH]; intros c; [by apply holds_ret|].
  cbn [each]. eapply holds_bind; [intros; growing|apply H|]. intros u c1 _ _. apply IH.
Qed.

Lemma check_keywords_holds c : holds P c (check_keywords range obj path) (fun _ _ => True).
Proof.
  unfold check_keywords. eapply holds_bind; [intros; growing|apply holds_order|]. intros m' c1 _ _.
  apply each_holds; [intros; growing|]. intros [k v] c2. simpl.
  destruct (SupportedKeyword k); [by apply holds_ret|apply holds_fail_last].
Qed.

Lemma type_holds c : holds P c (compileTypeKeyword obj path) (fun t _ => t = doc_type obj).
Proof.
  unfold compileTypeKeyword, doc_type. destruct (member "type" obj) as [[| | | |[|v l]|]|]; try (by apply holds_ret);
    try (apply holds_fail; intros; growing).
  destruct (type_names "" (v :: l)) as [[m|] t]; [apply holds_fail; intros; growing|by apply holds_ret].
Qed.

Lemma enum_holds c : holds P c (compile_enum obj path) (fun l _ => l = doc_list "enum" obj).
Proof.
  unfold compile_enum, doc_list. destruct (member "enum" obj) as [[]|]; try (by apply holds_ret);
    apply holds_fail; intros; growing.
Qed.

Lemma pattern_holds c : holds P c (compile_pattern lib obj path) (fun o _ => o = text_of (member "pattern" obj)).
Proof.
  unfold compile_pattern. destruct (text_of _) as [t|]; [|by apply holds_ret].
  destruct (regexp_compiles lib t); [by apply holds_ret|apply holds_fail; intros; growing].
Qed.

Lemma format_holds c : holds P c (compile_format obj path) (fun o _ => o = doc_format obj).
Proof.
  unfold compile_format, doc_format. destruct (text_of _) as [t|]; [|by apply holds_ret].
  destruct (supported_format t); [by apply holds_ret|apply holds_fail; intros; growing].
Qed.

Lemma holds_good {A} c (m : comp A) Q : (good P c -> holds P c m Q) -> holds P c m Q.
Proof. intros H Hg. by apply H. Qed.

Lemma resolveRef_target c ref t tp : good P c -> (resolveRef ref c).1 = Some (t, tp) -> resolveJSONPointer doc tp = Some t.
Proof.
  intros Hg. unfold resolveRef, mbind, comp_bind, get_state, mret, comp_ret. cbn [fst snd]. rewrite (g_root P c Hg).
  destruct (String.eqb ref "#"); [by intros [= <- <-]|].
  destruct (String.prefix "#/definitions/" ref).
  { cbn [fst]. destruct (resolveJSONPointer doc (substring 1 (String.length ref - 1) ref)) eqn:H; [|done].
    intros Ht. by simplify_eq. }
  destruct (String.prefix "#" ref); [|done]. cbn [fst]. destruct (idIndex c !! ref) as [x|] eqn:H; [|done].
  intros Ht. simplify_eq. by apply (g_ids P c Hg).
Qed.

Lemma resolveRef_holds c ref :
  holds P c (resolveRef ref) (fun r c' => r = (resolveRef ref c').1 /\
    match r with Some (t, tp) => resolveJSONPointer doc tp = Some t | None => True end).
Proof.
  intros Hg _. assert (Hs : (resolveRef ref c).2 = c).
  { unfold resolveRef, mbind, comp_bind, get_state. by repeat case_match. }
  rewrite Hs. split; [done|]. split; [apply extends_refl|]. split; [done|].
  destruct (resolveRef ref c).1 as [[t tp]|] eqn:H; [|done]. by eapply resolveRef_target.
Qed.

(** What is known of a compiled child stays known. *)
Lemma option_linked_mono c c' o n : extends P c c' -> opt_linked c o n -> opt_linked c' o n.
Proof. intros He. apply option_Forall2_mono. intros x y. by apply (linked_mono P). Qed.
Lemma list_linked_mono c c' l n : extends P c c' -> Forall2 (linked c) l n -> Forall2 (linked c') l n.
Proof. intros He H. eapply Forall2_impl; [exact H|]. intros x y. by apply (linked_mono P). Qed.
Lemma keyed_linked_mono c c' l n : extends P c c' -> keyed (linked c) l n -> keyed (linked c') l n.
Proof. intros He. apply keyed_mono. intros x y. by apply (linked_mono P). Qed.
Lemma deps_linked_mono c c' l n : extends P c c' -> keyed (dep_rel (linked c)) l n -> keyed (dep_rel (linked c')) l n.
Proof. intros He. apply keyed_mono. intros x y. apply dep_rel_mono. intros ? ?. by apply (linked_mono P). Qed.

Lemma plain_child key : has_char "/" key = false -> unescapeJSONPointerToken key = key ->
  resolveJSONPointer doc (path +:+ "/" +:+ key) = member key obj.
Proof. intros Hs Hu. rewrite (resolve_step doc path key (JObject obj)) by done. unfold resolve_token. by rewrite Hu. Qed.

(** One keyword: its facts join the earlier ones, moved to the state after it. *)
Ltac keyword H :=
  let r := fresh "r" in let c' := fresh "c" in let He := fresh "He" in let Hq := fresh "Hq" in
  eapply holds_bind; [intros; growing|eapply H; first [done|by apply plain_child]|];
  intros r c' He Hq; cbn beta in Hq;
  match type of He with
  | extends _ ?c _ =>
      repeat match goal with
             | H : option_Forall2 (linked c) _ _ |- _ => apply (option_linked_mono _ _ _ _ He) in H
             | H : Forall2 (linked c) _ _ |- _ => apply (list_linked_mono _ _ _ _ He) in H
             | H : keyed (linked c) _ _ |- _ => apply (keyed_linked_mono _ _ _ _ He) in H
             | H : keyed (dep_rel (linked c)) _ _ |- _ => apply (deps_linked_mono _ _ _ _ He) in H
             end
  end;
  try match type of Hq with _ /\ _ => destruct Hq as [? ?] end; clear He.

Lemma object_holds c : holds P c (compile_object lib range compile obj path) (fun s c' => describes c' obj path s).
Proof.
  unfold compile_object. keyword check_keywords_holds. destruct (text_of (member "$ref" obj)) as [ref|] eqn:Href.
  - keyword resolveRef_holds. destruct r0 as [[t tp]|]; [|apply holds_fail; intros; growing].
    eapply holds_bind; [intros; growing|by apply compile_links|]. intros a c2 He Ha. apply holds_ret.
    split; [done|]. split; [done|]. rewrite Href. exists t, tp, a. by rewrite (resolveRef_same P c1 c2 ref He).
  - keyword type_holds. keyword enum_holds. keyword pattern_holds. keyword format_holds. keyword properties_hold.
    keyword patterns_hold. keyword additional_holds. keyword names_hold. keyword dependencies_hold. keyword items_hold.
    keyword additional_holds.
    keyword unless_bool_holds.
    do 3 (keyword list_holds).
    do 4 (keyword unless_bool_holds).
    apply holds_ret. split; [done|]. split; [done|]. rewrite Href. split; [done|]. split; cbn; done.
Qed.
End keywords.

(** ** A node *)

#[local] Hint Resolve grows_compileNode grows_object : grows.

(** The state in which the keywords of a new node are compiled. *)
Lemma good_enter P c a obj p s :
  good P c -> a = size (store c) -> compiled c !! p = None -> resolveJSONPointer doc p = Some (JObject obj) ->
  forall c', root c' = root c -> idIndex c' = idIndex c -> idPaths c' = idPaths c ->
  compiled c' = <[p := a]> (compiled c) -> store c' = <[a := s]> (store c) ->
  good (P ∪ {[p]}) c' /\ extends P c c'.
Proof.
  intros Hg -> Hp Hr c' E1 E2 E3 E4 E5. set (a := size (store c)) in *.
  assert (Ha : store c !! a = None).
  { destruct (store c !! a) eqn:H; [|done]. assert (a < size (store c))%nat by (apply (g_fresh P c Hg); by eexists). subst a. lia. }
  assert (Hne : forall q x, compiled c !! q = Some x -> a <> x).
  { intros q x Hq <-. destruct (g_node P c Hg q a Hq) as (_ & _ & Hs & _). rewrite Ha in Hs. by destruct Hs. }
  assert (He : extends P c c').
  { split; rewrite ?E4, ?E5; try done.
    - by apply insert_subseteq.
    - intros x Hx _. rewrite lookup_insert_ne; [done|]. intros <-. rewrite Ha in Hx. by destruct Hx.
    - intros x Hx. destruct (decide (a = x)) as [<-|]; [by rewrite lookup_insert_eq; eexists|by rewrite lookup_insert_ne].
    - intros q x Hq. destruct (decide (p = q)) as [<-|]; [rewrite lookup_insert_eq; by intros [= <-]|].
      rewrite lookup_insert_ne by done. by rewrite Hq. }
  split; [|done]. split; rewrite ?E1, ?E2, ?E3, ?E4, ?E5; try apply Hg.
  - intros x. rewrite map_size_insert_None by done. destruct (decide (a = x)) as [<-|Hx].
    + rewrite lookup_insert_eq. split; [intros _; subst a; lia|by eexists].
    + rewrite lookup_insert_ne by done. rewrite (g_fresh P c Hg). subst a. lia.
  - intros q x Hq. destruct (decide (p = q)) as [<-|Hpq].
    + rewrite lookup_insert_eq in Hq. injection Hq as <-. exists obj. rewrite lookup_insert_eq.
      split_and!; [done|by eexists|]. left. set_solver.
    + rewrite lookup_insert_ne in Hq by done. destruct (g_node P c Hg q x Hq) as (o & Ho & Hs & Hd). exists o.
      rewrite lookup_insert_ne by (by eapply Hne). split_and!; [done..|].
      destruct Hd as [|(s' & ? & ?)]; [left; set_solver|]. right. exists s'. split; [done|]. by eapply describes_mono.
  - intros q r x Hq Hq'. destruct (decide (p = q)) as [<-|Hpq], (decide (p = r)) as [<-|Hpr]; try done.
    + rewrite lookup_insert_eq in Hq. injection Hq as <-. rewrite lookup_insert_ne in Hq' by done. by apply Hne in Hq'.
    + rewrite lookup_insert_eq in Hq'. injection Hq' as <-. rewrite lookup_insert_ne in Hq by done. by apply Hne in Hq.
    + rewrite lookup_insert_ne in Hq, Hq' by done. by eapply (g_inj P c Hg).
Qed.

(** The node of [p] is complete. *)
Lemma good_complete P c a obj p s :
  good (P ∪ {[p]}) c -> compiled c !! p = Some a -> resolveJSONPointer doc p = Some (JObject obj) -> describes c obj p s ->
  good P (set_node a s c).2 /\ extends (P ∪ {[p]}) c (set_node a s c).2.
Proof.
  intros Hg Hp Hr Hd. unfold set_node. cbn [snd]. match goal with |- good P ?x /\ _ => set (c' := x) end.
  destruct (g_node _ c Hg p a Hp) as (_ & _ & Hs & _).
  assert (He : extends (P ∪ {[p]}) c c').
  { split; simpl; try done.
    - intros x Hx Hq. rewrite lookup_insert_ne; [done|]. intros <-. apply (Hq p); [set_solver|done].
    - intros x Hx. destruct (decide (a = x)) as [<-|]; [by rewrite lookup_insert_eq; eexists|by rewrite lookup_insert_ne].
    - by intros q x ->. }
  split; [|done]. split; simpl; try apply Hg.
  - intros x. rewrite map_size_insert_Some by apply Hs. rewrite <- (g_fresh _ c Hg x). destruct (decide (a = x)) as [<-|].
    + rewrite lookup_insert_eq. split; [done|by eexists].
    + by rewrite lookup_insert_ne.
  - intros q x Hq. destruct (g_node _ c Hg q x Hq) as (o & Ho & Hx & Hd'). exists o. split; [done|].
    destruct (decide (a = x)) as [<-|Hne].
    + rewrite lookup_insert_eq. split; [by eexists|]. right. exists s. split; [done|].
      assert (q = p) as -> by (by eapply (g_inj _ c Hg)). rewrite Hr in Ho. injection Ho as <-. by eapply describes_mono.
    + rewrite lookup_insert_ne by done. split; [done|]. destruct Hd' as [Hin|(s' & ? & ?)].
      * left. assert (q <> p) by (intros ->; rewrite Hp in Hq; congruence). set_solver.
      * right. exists s'. split; [done|]. by eapply describes_mono.
Qed.

(** Of the nodes that were there before [p], the ones at rest are the same afterwards. *)
Lemma extends_leave P c c1 c2 p a :
  extends P c c1 -> extends (P ∪ {[p]}) c1 c2 -> store c !! a = None -> compiled c !! p = None -> compiled c1 !! p = Some a -> extends P c c2.
Proof.
  intros H1 H2 Ha Hp0 Hp. split.
  - by rewrite (e_root _ _ _ H2), (e_root _ _ _ H1).
  - by rewrite (e_index _ _ _ H2), (e_index _ _ _ H1).
  - by rewrite (e_paths _ _ _ H2), (e_paths _ _ _ H1).
  - etrans; [apply (e_compiled _ _ _ H1)|apply (e_compiled _ _ _ H2)].
  - intros x Hx Hq. rewrite (e_store _ _ _ H2), (e_store _ _ _ H1); [done..|by apply (e_some _ _ _ H1)|].
    intros q Hin Hc. destruct (decide (q = p)) as [->|Hne].
    { rewrite Hp in Hc. injection Hc as ->. rewrite Ha in Hx. by destruct Hx. }
    destruct (compiled c !! q) as [y|] eqn:Hy.
    + assert (Hc' := lookup_weaken _ _ _ _ Hy (e_compiled _ _ _ H1)). rewrite Hc in Hc'. injection Hc' as <-.
      apply (Hq q); [set_solver|done].
    + rewrite (e_new _ _ _ H1 _ _ Hy Hc) in Hx. by destruct Hx.
  - intros x Hx. by apply (e_some _ _ _ H2), (e_some _ _ _ H1).
  - intros q x Hq Hc. destruct (compiled c1 !! q) as [y|] eqn:Hy.
    + assert (Hc' := lookup_weaken _ _ _ _ Hy (e_compiled _ _ _ H2)). rewrite Hc in Hc'. injection Hc' as <-.
      by apply (e_new _ _ _ H1 q).
    + pose proof (e_new _ _ _ H2 _ _ Hy Hc) as Hn. destruct (store c !! x) eqn:Hx; [|done].
      destruct (e_some _ _ _ H1 x) as [? Hs]; [by eexists|]. congruence.
Qed.

Lemma compileNode_links room : forall n p c P, resolveJSONPointer doc p = Some n ->
  holds P c (compileNode lib range room n p) (fun a c' => linked c' a n).
Proof.
  induction room as [|room IH]; intros n p c P Hp; simpl; [apply holds_fail; intros; growing|].
  destruct n as [|b| | | |obj]; try (apply holds_fail; intros; growing); [apply holds_alloc_bool|].
  apply holds_get. destruct (compiled c !! p) as [a|] eqn:Hc; [apply holds_ret; by exists p|]. intros Hg.
  unfold alloc, set_compiled, set_node, mret, comp_ret, mbind, comp_bind, get_state. cbn [fst snd].
  match goal with |- context [compile_object _ _ _ _ _ ?x] => set (c1 := x) end.
  set (a := size (store c)).
  destruct (good_enter P c a obj p (bool_schema None p) Hg) with (c' := c1) as [Hg1 He1]; [done..|].
  pose proof (object_holds (compileNode lib range room) ltac:(intros; growing) (P ∪ {[p]})
    (fun n q c' => IH n q c' (P ∪ {[p]})) obj p Hp c1 Hg1) as Ho.
  destruct (compile_object lib range (compileNode lib range room) obj p c1) as [s c2] eqn:Hco. cbn [fst snd] in *.
  intros Hcl. destruct Ho as (Hg2 & He2 & Hd); [exact Hcl|].
  assert (Hpc : compiled c2 !! p = Some a).
  { eapply lookup_weaken; [|apply (e_compiled _ _ _ He2)]. simpl. by rewrite lookup_insert_eq. }
  destruct (good_complete P c2 a obj p s Hg2 Hpc Hp Hd) as [Hg3 He3]. split; [exact Hg3|]. split.
  - eapply (extends_leave P c c1 _ p a); [done| |  |done|].
    + eapply extends_trans; [exact He2|exact He3].
    + destruct (store c !! a) eqn:H; [|done]. assert (a < size (store c))%nat by (apply (g_fresh P c Hg); by eexists). subst a. lia.
    + simpl. by rewrite lookup_insert_eq.
  - exists p. by split.
Qed.
End compiled.
