(* ===== verification/SchemaIndex.v ===== *)
(** The index of the $id values.

    [indexes] says of an operation of the compiler that, when it reports no failure, it
    enters the given entries, changes no other one and touches nothing else.  [indexIDs]
    enters the entries [doc_ids] finds in the document. *)
From S2P Require Import Prelude Encoding Json JsonDecode SchemaModel SchemaCompile SchemaValidate SchemaSpec SchemaDoc SchemaPointer SchemaCompiled.
From Stdlib Require Import String Ascii List ZArith Lia Bool.
From stdpp Require Import base strings list gmap pretty.
Open Scope string_scope.
Open Scope list_scope.

Section index.
Context {F : Type} (range : orders) (range_permutes : permutes range).
Notation compiler := (@Compiler F).

(** What the index says of an $id: its object and the path of it. *)
Definition entry (c : compiler) (id : string) : option (json * string) :=
  match idIndex c !! id with Some x => Some (x, default "" (idPaths c !! id)) | None => None end.

Definition entries : Type := list (string * (json * string)).

Record indexed (E : entries) (c c' : compiler) : Prop := {
  x_root : root c' = root c; x_compiled : compiled c' = compiled c; x_store : store c' = store c;
  x_keeps : forall id e, entry c id = Some e -> entry c' id = Some e;
  x_only : forall id e, entry c' id = Some e -> entry c id = Some e \/ (id, e) ∈ E;
  x_covers : forall id e, (id, e) ∈ E -> exists e', entry c' id = Some e' /\ e'.2 = e.2 }.

Definition indexes {A} (E : entries) (m : comp A) : Prop :=
  forall c, clean (m c).2 -> clean c /\ indexed E c (m c).2.

Lemma indexed_refl c : indexed [] c c.
Proof. split; try done; [by left|by intros id e ?%not_elem_of_nil]. Qed.

Lemma indexes_ret {A} (a : A) : indexes [] (mret a).
Proof. intros c Hc. split; [exact Hc|apply indexed_refl]. Qed.

Lemma indexes_bind {A R} E1 E2 (m : comp A) (f : A -> comp R) :
  indexes E1 m -> (forall a, indexes E2 (f a)) -> indexes (E1 ++ E2) (m ≫= f).
Proof.
  intros Hm Hf c Hc. unfold mbind, comp_bind in *. specialize (Hm c). destruct (m c) as [a c1]. simpl in *.
  destruct (Hf a c1 Hc) as [Hc1 H2]. destruct (Hm Hc1) as [Hc0 H1]. split; [done|]. split.
  - by rewrite (x_root _ _ _ H2), (x_root _ _ _ H1).
  - by rewrite (x_compiled _ _ _ H2), (x_compiled _ _ _ H1).
  - by rewrite (x_store _ _ _ H2), (x_store _ _ _ H1).
  - intros id e He. by apply (x_keeps _ _ _ H2), (x_keeps _ _ _ H1).
  - intros id e He. rewrite elem_of_app. apply (x_only _ _ _ H2) in He as [He|He]; [|by right; right].
    apply (x_only _ _ _ H1) in He as [He|He]; [by left|by right; left].
  - intros id e. rewrite elem_of_app. intros [He|He].
    + apply (x_covers _ _ _ H1) in He as (e' & He & Hp). exists e'. split; [|done]. by apply (x_keeps _ _ _ H2).
    + by apply (x_covers _ _ _ H2).
Qed.

Lemma indexes_same {A} E E' (m : comp A) : (forall x, x ∈ E <-> x ∈ E') -> indexes E m -> indexes E' m.
Proof.
  intros Hx Hm c Hc. destruct (Hm c Hc) as [H0 H]. split; [done|]. split; try apply H.
  - intros id e He. rewrite <- Hx. by apply H.
  - intros id e He. rewrite <- Hx in He. by apply H.
Qed.

Lemma indexes_fail E r s ops p k : indexes E (fail (F := F) r s ops p k).
Proof. intros c Hc. by apply fail_dirty in Hc. Qed.

Lemma indexes_each {A} (l : list A) (f : A -> comp unit) (E : A -> entries) :
  (forall x, x ∈ l -> indexes (E x) (f x)) -> indexes (concat (map E l)) (each l f).
Proof.
  induction l as [|x l IH]; intros H; [apply indexes_ret|]. simpl. apply indexes_bind; [apply H; by left|].
  intros _. apply IH. intros y Hy. apply H. by right.
Qed.

Lemma indexes_next_order {A} (l : list (string * A)) (f : list (string * A) -> comp unit) E :
  (forall l', l' ≡ₚ l -> indexes E (f l')) -> indexes E (next_order range l ≫= f).
Proof.
  intros H c Hc. unfold mbind, comp_bind, next_order in *.
  destruct (H _ (range_permutes (turns c) A l) _ Hc) as [H0 H1]. split; [exact H0|]. by destruct H1.
Qed.

Lemma indexes_in_order {A} (l : list (string * A)) (act : string * A -> comp unit) (E : string * A -> entries) :
  (forall kv, kv ∈ l -> indexes (E kv) (act kv)) ->
  indexes (concat (map E l)) (in_order range (map (fun kv => (kv.1, act kv)) l)).
Proof.
  intros H. unfold in_order. apply indexes_next_order. intros acts Hp.
  apply Permutation_map_inv in Hp as (l' & -> & Hp).
  apply (indexes_same (concat (map E l'))); [intros x; by rewrite Hp|].
  assert (Hl : forall kv, kv ∈ l' -> indexes (E kv) (act kv)) by (intros kv; rewrite <- Hp; apply H).
  clear Hp H. induction l' as [|kv l' IH]; [apply indexes_ret|]. simpl. apply indexes_bind; [apply Hl; by left|].
  intros _. apply IH. intros x Hx. apply Hl. by right.
Qed.

Definition own_entry (ms : list (string * json)) (path : string) : entries :=
  match text_of (member "$id" ms) with Some id => if str_nonempty id then [(id, (JObject ms, path))] else [] | None => [] end.

Lemma index_id_indexes ms path : indexes (own_entry ms path) (index_id (F := F) ms path).
Proof.
  unfold index_id, own_entry. destruct (text_of _) as [id|]; [|apply indexes_ret].
  destruct (str_nonempty id); [|apply indexes_ret]. intros c. unfold mbind, comp_bind, get_state, mret, comp_ret.
  destruct (idIndex c !! id) as [x|] eqn:Hid; cbn [fst snd].
  - destruct (String.eqb_spec (default "" (idPaths c !! id)) path) as [Hp|].
    + intros Hc. split; [exact Hc|]. split; try done; [by left|].
      intros i e He%list_elem_of_singleton. injection He as -> ->. unfold entry. cbn [snd]. rewrite Hid. by eexists.
    + intros Hc. by apply fail_dirty in Hc.
  - intros Hc. split; [exact Hc|]. split; try done.
    + intros i e. unfold entry. simpl. destruct (decide (id = i)) as [<-|]; [by rewrite Hid|by rewrite !lookup_insert_ne].
    + intros i e. unfold entry. simpl. destruct (decide (id = i)) as [<-|].
      * rewrite !lookup_insert_eq. intros [= <-]. right. by left.
      * rewrite !lookup_insert_ne by done. by left.
    + intros i e He%list_elem_of_singleton. injection He as -> ->. unfold entry. simpl. rewrite !lookup_insert_eq. by eexists.
Qed.

(** The items of a list of schemas. *)
Lemma indexes_items (arr : list json) i q :
  Forall (fun v => forall p, indexes (doc_ids v p) (indexIDs (F := F) range v p)) arr ->
  indexes (concat (map (fun item => item.2 (item_path q item.1)) (numbered i (map doc_ids arr))))
    (each (numbered i (map (indexIDs range) arr)) (fun item => item.2 (item_path q item.1))).
Proof.
  intros H. revert i. induction H as [|v arr Hv H IH]; intros i; [apply indexes_ret|]. simpl. apply indexes_bind; [apply Hv|].
  intros _. apply IH.
Qed.

(** A fact of a value and of its immediate parts. *)
Definition with_parts (P : json -> Prop) (v : json) : Prop :=
  P v /\ match v with JArray vs => Forall P vs | JObject ms => Forall (fun kv => P kv.2) ms | _ => True end.

Lemma indexIDs_indexes_parts v : with_parts (fun v => forall p, indexes (doc_ids v p) (indexIDs (F := F) range v p)) v.
Proof.
  induction v as [| | | |vs IH|ms IH] using json_ind'; (split; [|try done]);
    try (eapply Forall_impl; [exact IH|]; intros x [Hx _]; exact Hx); intros p; try apply indexes_ret.
  cbn [doc_ids indexIDs]. apply indexes_bind; [apply index_id_indexes|]. intros _.
  apply indexes_in_order. intros [k v] Hin. rewrite Forall_forall in IH. destruct (IH _ Hin) as [Hv Hp]. cbn [fst snd] in *. clear IH Hin.
  destruct (keyword_class_of k); destruct v as [| | | |arr|m]; try (first [apply Hv|apply indexes_ret]).
  - by apply indexes_items.
  - apply indexes_in_order. intros [k' v'] Hin. rewrite Forall_forall in Hp. apply (Hp _ Hin).
  - apply indexes_in_order. intros [k' v'] Hin. rewrite Forall_forall in Hp. specialize (Hp _ Hin). simpl in *.
    destruct v'; first [apply Hp|apply indexes_ret].
Qed.

Lemma indexIDs_indexes v p : indexes (doc_ids v p) (indexIDs (F := F) range v p).
Proof. apply indexIDs_indexes_parts. Qed.
End index.

(** Every entry names the object at its path. *)
Section entries.
Context (doc : json) (depth : nat) (doc_regular : regular depth doc).

Definition placed (v : json) : Prop := forall p, resolveJSONPointer doc p = Some v ->
  forall id x q, (id, (x, q)) ∈ doc_ids v p -> resolveJSONPointer doc q = Some x.

Lemma own_placed ms p : resolveJSONPointer doc p = Some (JObject ms) ->
  forall id x q, (id, (x, q)) ∈ own_entry ms p -> resolveJSONPointer doc q = Some x.
Proof.
  intros Hp id x q. unfold own_entry. destruct (text_of _) as [i|]; [|by intros ?%not_elem_of_nil].
  destruct (str_nonempty i); [|by intros ?%not_elem_of_nil]. intros Hin%list_elem_of_singleton. by simplify_eq.
Qed.

Lemma in_concat_map {A} (f : A -> entries) l e : e ∈ concat (map f l) -> exists x, x ∈ l /\ e ∈ f x.
Proof.
  induction l as [|y l IH]; simpl; [by intros ?%not_elem_of_nil|]. rewrite elem_of_app. intros [He|He].
  - exists y. split; [by left|done].
  - destruct (IH He) as (x & Hx & ?). exists x. split; [by right|done].
Qed.

Lemma members_placed p m : resolveJSONPointer doc p = Some (JObject m) -> Forall (fun kv => placed kv.2) m ->
  forall id x q kv, kv ∈ m -> (id, (x, q)) ∈ doc_ids kv.2 (child_path p kv.1) -> resolveJSONPointer doc q = Some x.
Proof.
  intros Hp Hm id x q [k v] Hin. rewrite Forall_forall in Hm. apply (Hm _ Hin). eapply resolve_child; [exact Hp|].
  destruct (regular_resolve _ _ _ _ doc_regular Hp) as [d Hd%regular_keys]. by apply member_unique.
Qed.

Lemma items_placed p arr : resolveJSONPointer doc p = Some (JArray arr) -> Forall placed arr ->
  forall id x q, (id, (x, q)) ∈ concat (map (fun item => item.2 (item_path p item.1)) (numbered 0 (map doc_ids arr))) ->
  resolveJSONPointer doc q = Some x.
Proof.
  intros Hp Ha id x q ([n g] & Hin & He)%in_concat_map. apply numbered_lookup in Hin as (k & -> & Hk). simpl in He.
  apply list_lookup_fmap_Some in Hk as (v & -> & Hk). rewrite Forall_forall in Ha.
  eapply (Ha v); [by eapply list_elem_of_lookup_2| |exact He]. eapply resolve_item; [|exact Hp|exact Hk].
  destruct (regular_resolve _ _ _ _ doc_regular Hp) as [d Hd]. by eapply regular_length.
Qed.

Lemma all_placed v : with_parts placed v.
Proof.
  induction v as [| | | |vs IH|ms IH] using json_ind'; (split; [|try done]);
    try (eapply Forall_impl; [exact IH|]; intros x [Hx _]; exact Hx); intros p Hp id x q; try (by intros ?%not_elem_of_nil).
  cbn [doc_ids]. rewrite elem_of_app. intros [Hin|([k v] & Hin & He)%in_concat_map]; [by eapply own_placed|].
  assert (Hc : resolveJSONPointer doc (child_path p k) = Some v).
  { eapply resolve_child; [exact Hp|]. destruct (regular_resolve _ _ _ _ doc_regular Hp) as [d Hd%regular_keys]. by apply member_unique. }
  rewrite Forall_forall in IH. destruct (IH _ Hin) as [Hv Hparts]. cbn [fst snd] in *.
  destruct (keyword_class_of k); [by eapply Hv| | | |by apply not_elem_of_nil in He];
    destruct v as [| | | |arr|m]; try (by apply not_elem_of_nil in He).
  - by eapply items_placed.
  - apply in_concat_map in He as (kv & Hkv & He). by eapply members_placed.
  - apply in_concat_map in He as (kv & Hkv & He). destruct kv.2 eqn:Hk; try (by apply not_elem_of_nil in He).
    rewrite <- Hk in He. by eapply members_placed.
Qed.

Lemma doc_ids_placed id x q : (id, (x, q)) ∈ doc_ids doc "" -> resolveJSONPointer doc q = Some x.
Proof. apply all_placed. done. Qed.
End entries.
