(* ===== verification/SchemaExact.v ===== *)
(** A compiled schema means what its document means.

    When the compiler reports nothing, the node at the root stands for the document, every
    reference leads to the node of the schema it names, and the validator accepts a value
    exactly when the document's own meaning does.  The result is independent of the order
    in which the maps are visited, by the compiler and by the validator. *)
From S2P Require Import Prelude Encoding Json JsonDecode SchemaModel SchemaCompile SchemaValidate SchemaSpec SchemaPanic SchemaDoc SchemaPointer SchemaCompiled SchemaIndex SchemaSample.
From Stdlib Require Import String Ascii List ZArith Lia Bool.
From stdpp Require Import base strings list gmap pretty.
Open Scope string_scope.
Open Scope list_scope.

Section exact.
Context {F B : Type} (lib : golib F B).
Context (doc : json) (depth : nat) (doc_regular : regular depth doc).
Notation compiler := (@Compiler F).

(** The index holds what the document says. *)
Record indexed_by (c : compiler) : Prop := {
  i_only : forall id e, entry c id = Some e -> (id, e) ∈ doc_ids doc "";
  i_covers : forall id e, (id, e) ∈ doc_ids doc "" -> exists e', entry c id = Some e' /\ e'.2 = e.2 }.

Lemma index_lookup c id : indexed_by c ->
  idIndex c !! id = match List.find (fun e => String.eqb id e.1) (doc_ids doc "") with Some e => Some e.2.1 | None => None end.
Proof.
  intros [Ho Hc]. assert (He : idIndex c !! id = fst <$> entry c id) by (unfold entry; by destruct (idIndex c !! id)).
  rewrite He. clear He. destruct (List.find _ _) as [[i [x q]]|] eqn:Hf.
  - apply List.find_some in Hf as [Hin Hi]. simpl in Hi. apply String.eqb_eq in Hi as <-. apply list_elem_of_In in Hin.
    destruct (Hc _ _ Hin) as ([x' q'] & He & Hq). simpl in Hq. subst q'. rewrite He. simpl. f_equal.
    apply Ho in He. apply (doc_ids_placed doc depth doc_regular) in He, Hin. congruence.
  - destruct (entry c id) as [e|] eqn:He; [|done]. apply Ho, list_elem_of_In in He.
    pose proof (List.find_none _ _ Hf _ He) as Hn. simpl in Hn. by rewrite String.eqb_refl in Hn.
Qed.

Context (c : compiler) (c_good : good lib doc ∅ c) (c_index : indexed_by c).

Lemma resolveRef_doc ref : fst <$> (resolveRef ref c).1 = doc_ref doc ref.
Proof.
  unfold resolveRef, doc_ref, mbind, comp_bind, get_state, mret, comp_ret. cbn [fst snd]. rewrite (g_root _ _ _ _ c_good).
  destruct (String.eqb ref "#"); [done|]. destruct (String.prefix "#/definitions/" ref).
  - cbn [fst]. by destruct (resolveJSONPointer doc _).
  - destruct (String.prefix "#" ref); [|done]. cbn [fst]. rewrite (index_lookup c ref c_index). by destruct (List.find _ _).
Qed.

(** A node that no reference leads away from, or the last one of a long chain. *)
Definition stands (s : Schema F nat) (n : json) : Prop :=
  match n with
  | JBool b => Boolean s = Some b
  | JObject obj =>
      Boolean s = None /\
      match text_of (member "$ref" obj) with
      | Some ref => exists id a p, s = ref_schema None id ref (Some a) p
      | None => represents (linked doc c) s (doc_schema lib obj) /\ NoDup (doc_map "properties" obj).*1
      end
  | _ => False
  end.

Lemma linked_node a obj : linked doc c a (JObject obj) -> exists p s, store c !! a = Some s /\ describes lib doc c obj p s /\
  NoDup (doc_map "properties" obj).*1.
Proof.
  intros (p & Hp & Hr). destruct (g_node _ _ _ _ c_good p a Hp) as (o & Ho & _ & [Hin|(s & Hs & Hd)]); [by apply not_elem_of_empty in Hin|].
  rewrite Hr in Ho. injection Ho as <-. exists p, s. split; [done|]. split; [done|].
  unfold doc_map. destruct (member "properties" obj) as [[| | | | |m]|] eqn:Hm; try constructor.
  destruct (regular_resolve _ _ _ (JObject m) doc_regular (resolve_child _ _ _ _ _ Hr Hm)) as [d Hd'].
  by eapply regular_keys.
Qed.

Lemma follow_stands k : forall a n, linked doc c a n ->
  exists s m, follow (store c) k a = Some s /\ doc_follow doc k n = Some m /\ stands s m.
Proof.
  induction k as [|k IH]; intros a n Hl; (destruct n as [|b| | | |obj]; try done);
    try (destruct Hl as [(s & Hs & Hb & Hr) _]; exists s, (JBool b); simpl; rewrite Hs; simpl; by rewrite Hr);
    destruct (linked_node a obj Hl) as (p & s & Hs & (Hloc & Hb & Hd) & Hnd).
  - exists s, (JObject obj). simpl. rewrite Hs. simpl. split; [by destruct (Ref s)|]. split; [by destruct (text_of _)|].
    split; [done|]. destruct (text_of (member "$ref" obj)) as [ref|]; [|by destruct Hd].
    destruct Hd as (t & tp & x & _ & -> & _). by eexists _, _, _.
  - cbn [follow doc_follow ref_of]. rewrite Hs. cbn [mbind option_bind].
    destruct (text_of (member "$ref" obj)) as [ref|] eqn:Href.
    + destruct Hd as (t & tp & x & Hx & -> & Hlx). cbn [Ref ref_schema].
      rewrite <- (resolveRef_doc ref), Hx. cbn. by apply IH.
    + destruct Hd as [Hr Hrep]. rewrite Hr. exists s, (JObject obj). split; [done|]. split; [done|]. cbn. by rewrite Href.
Qed.

Lemma ref_schema_meets sub b id ref t p v : meets lib sub (ref_schema b id ref t p) v = true.
Proof.
  destruct v as [| | | |arr|obj]; try done; unfold meets, array_meets, object_meets; simpl.
  - by rewrite <- forallb_all_true.
  - unfold property_meets. simpl. by rewrite <- !forallb_all_true.
Qed.

Lemma accepts_interp room : forall a n v, linked doc c a n -> accepts lib (store c) room a v = interp lib doc room n v.
Proof.
  induction room as [|room IH]; intros a n v Hl; [done|]. cbn [accepts interp]. unfold Resolved.
  destruct (follow_stands 64 a n Hl) as (s & m & -> & -> & Hst). destruct m as [|b| | | |obj]; try done.
  - simpl in Hst. by rewrite Hst.
  - destruct Hst as [Hb Hst]. rewrite Hb. cbn [ref_of]. destruct (text_of _) as [ref|].
    + destruct Hst as (id & x & p & ->). apply ref_schema_meets.
    + destruct Hst as [Hr Hnd]. eapply (meets_rel lib (linked doc c)); [intros; by apply IH|done|done].
Qed.
End exact.

(** ** The whole compiler *)

Lemma good_start {F B} (lib : golib F B) doc (c : @Compiler F) :
  root c = doc -> compiled c = ∅ -> store c = ∅ ->
  (forall id x, idIndex c !! id = Some x -> resolveJSONPointer doc (default "" (idPaths c !! id)) = Some x) -> good lib doc ∅ c.
Proof.
  intros Hr Hc Hs Hi. split; rewrite ?Hc, ?Hs; try done.
  intros a. rewrite lookup_empty, map_size_empty. split; [by intros []|lia].
Qed.

Lemma Compile_links {F B} (lib : golib F B) range data doc a (c : @Compiler F) :
  permutes range -> decodeJSONStrict data = Decoded doc -> Compile lib range data NewCompiler = (inl a, c) ->
  good lib doc ∅ c /\ indexed_by doc c /\ linked doc c a doc.
Proof.
  intros Hrange Hdoc HC. pose proof (decoded_regular _ _ Hdoc) as Hreg. unfold Compile in HC. rewrite Hdoc in HC.
  unfold mbind, comp_bind, get_state, mret, comp_ret in HC. cbn [start_compile] in HC.
  match type of HC with context [indexIDs range doc "" ?x] => set (c0 := x) in HC end.
  pose proof (indexIDs_indexes range Hrange doc "" c0) as Hx.
  destruct (indexIDs range doc "" c0) as [u c1]. cbn [snd] in Hx.
  pose proof (compileNode_links lib range Hrange doc _ Hreg (S OSCALValidatorMaxDepth) doc "" c1 ∅ eq_refl) as Hn.
  unfold holds in Hn.
  pose proof (grows_compileNode lib range (S OSCALValidatorMaxDepth) doc "" c1) as Hgr.
  destruct (compileNode lib range (S OSCALValidatorMaxDepth) doc "" c1) as [a2 c2]. cbn [fst snd] in Hn, Hgr.
  assert (Hcl : clean c2) by (unfold clean; destruct (cfailures c2); [done|by simplify_eq]).
  assert (a2 = a /\ c2 = c) as [-> ->] by (rewrite Hcl in HC; by simplify_eq).
  destruct (Hx (Hgr Hcl)) as [_ Hi].
  assert (Honly : forall id e, entry c1 id = Some e -> (id, e) ∈ doc_ids doc "") by
    (intros id e He; by apply (x_only _ _ _ Hi) in He as [He|He]).
  assert (Hg : good lib doc ∅ c1).
  { apply good_start; [by rewrite (x_root _ _ _ Hi)|by rewrite (x_compiled _ _ _ Hi)|by rewrite (x_store _ _ _ Hi)|].
    intros id x Hid. apply (doc_ids_placed doc _ Hreg id). apply Honly. unfold entry. by rewrite Hid. }
  destruct (Hn Hg Hcl) as (Hg2 & He & Hl). split; [done|]. split; [|done].
  assert (Hsame : forall id, entry c id = entry c1 id) by
    (intros id; unfold entry; by rewrite (e_index _ _ _ He), (e_paths _ _ _ He)).
  split; intros id e; rewrite Hsame; [apply Honly|apply (x_covers _ _ _ Hi)].
Qed.

(** C14: when [Compile] reports no failure, the validator finds no failure in a value exactly
    when the schema document, read directly, accepts the value: with its references looked
    up in the document, at the depth the validator allows, and whatever the order in which
    the maps were visited by either.  The validator returns, unless a number it divides by
    a multipleOf overflows: there it panics. *)
Theorem compiled_schema_means_document {F B} (lib : golib F B) range range' data doc a (c : @Compiler F) v :
  permutes range -> permutes range' -> decodeJSONStrict data = Decoded doc ->
  Compile lib range data NewCompiler = (inl a, c) ->
  match ValidateValue lib range' (store c) a v with
  | Some fs => fs = [] <-> interp lib doc (S OSCALValidatorMaxDepth) doc v = true
  | None => exists n m, overflows lib n m
  end.
Proof.
  intros Hr Hr' Hd HC. pose proof (decoded_regular _ _ Hd) as Hreg.
  destruct (Compile_links _ _ _ _ _ _ Hr Hd HC) as (Hg & Hi & Hl).
  destruct (ValidateValue lib range' (store c) a v) as [fs|] eqn:HV; [|by eapply ValidateValue_panics].
  rewrite (ValidateValue_accepts lib range' Hr' (store c) a v fs HV).
  by rewrite (accepts_interp lib doc _ Hreg c Hg Hi _ a doc v Hl).
Qed.

(** The schema of a person, compiled with the maps in one order and used with them in the
    other, accepts what its document accepts. *)
Definition person_doc : json := match decodeJSONStrict (text person) with Decoded v => v | _ => JNull end.
Definition a_person : json := JObject [("name", JString "x"); ("tags", JArray [JString "a"; JString "b"])].

Lemma compiled_schema_means_document_witness :
  let c := (Compile zlib in_turn (text person) NewCompiler).2 in
  ValidateValue zlib reversed (store c) 0 a_person = Some [] /\
  interp zlib person_doc (S OSCALValidatorMaxDepth) person_doc a_person = true.
Proof.
  intros c. assert (H : ValidateValue zlib reversed (store c) 0 a_person = Some []) by (vm_compute; reflexivity).
  split; [exact H|]. pose proof (compiled_schema_means_document zlib in_turn reversed (text person) person_doc 0 c a_person
    in_turn_permutes reversed_permutes) as Hmeans. rewrite H in Hmeans.
  apply Hmeans; [vm_compute; reflexivity| |reflexivity].
  rewrite (surjective_pairing (Compile zlib in_turn (text person) NewCompiler)).
  apply (f_equal (fun x => (x, c)) (y := inl 0%nat)). vm_compute. reflexivity.
Defined.
