(* ===== verification/SchemaFailures.v ===== *)
(** What the validator reports.

    The failures are at most the limit, they come in the order of [compareFailure], none
    is lost by sorting, and every instance pointer resolves in the value that was
    validated. *)
From S2P Require Import Prelude Encoding Json JsonDecode SchemaModel SchemaCompile SchemaValidate SchemaSpec SchemaPanic SchemaDoc SchemaPointer SchemaSample.
From Stdlib Require Import String Ascii List ZArith Lia Bool.
From stdpp Require Import base strings list gmap pretty sorting.
Open Scope string_scope.
Open Scope list_scope.

(** ** Sorting *)

Lemma text_order_spec a b : (text_order a b = Lt <-> String.ltb a b = true) /\ (text_order a b = Eq <-> a = b).
Proof.
  unfold text_order. destruct (String.eqb_spec a b) as [->|Hne]; [by rewrite ltb_irrefl|]. by destruct (String.ltb a b).
Qed.

(** [b] may stand after [a]. *)
Definition ordered (a b : Failure) : Prop := less b a = false.

(** The key by which failures are compared. *)
Definition failure_key (f : Failure) : list string := [InstancePtr f; SchemaPtr f; reason_text (Reason f); Keyword f].

Inductive key_before : list string -> list string -> Prop :=
| before_here s t l k : String.ltb s t = true -> List.length l = List.length k -> key_before (s :: l) (t :: k)
| before_later s l k : key_before l k -> key_before (s :: l) (s :: k).

Lemma less_key a b : less a b = true <-> key_before (failure_key a) (failure_key b).
Proof.
  unfold less, compareFailure, failure_key.
  destruct a as [ra ma oa ia sa ka], b as [rb mb ob ib sb kb]; simpl.
  assert (Hstep : forall s t l k (rest : comparison), List.length l = List.length k ->
    ((match rest with Lt => true | _ => false end) = true <-> key_before l k) ->
    ((match (match text_order s t with Eq => rest | c => c end) with Lt => true | _ => false end) = true <-> key_before (s :: l) (t :: k))).
  { intros s t l k rest Hlen Hrest. destruct (text_order_spec s t) as [Hlt Heq]. destruct (text_order s t).
    - assert (s = t) as -> by (by apply Heq). rewrite Hrest. split; [by constructor|].
      inversion 1; subst; [|done]. by rewrite ltb_irrefl in *.
    - split; [intros _; apply before_here; [by apply Hlt|done]|done].
    - split; [done|]. inversion 1; subst; [by match goal with H : String.ltb _ _ = true |- _ => apply Hlt in H end|].
      by destruct Heq as [_ Heq]; specialize (Heq eq_refl). }
  repeat (apply Hstep; [done|]). destruct (text_order_spec ka kb) as [Hlt Heq].
  split.
  - intros H. apply before_here; [|done]. apply Hlt. by destruct (text_order ka kb).
  - inversion 1 as [? ? ? ? Hb|? ? ? Hb]; subst; [|by inversion Hb]. apply Hlt in Hb. by rewrite Hb.
Qed.

Lemma key_before_trans l k m : key_before l k -> key_before k m -> key_before l m.
Proof.
  intros H. revert m. induction H as [s t l k H Hl|s l k H IH]; intros m; inversion 1; subst.
  - apply before_here; [by eapply ltb_trans|congruence].
  - assert (Hlen : List.length k = List.length k0) by (match goal with H : key_before k k0 |- _ => clear -H; induction H; simpl; congruence end).
    apply before_here; [done|congruence].
  - assert (Hlen : List.length l = List.length k) by (clear -H; induction H; simpl; congruence).
    apply before_here; [done|congruence].
  - apply before_later. by apply IH.
Qed.

Lemma key_before_irrefl l : ~ key_before l l.
Proof. induction l as [|s l IH]; inversion 1; subst; [by rewrite ltb_irrefl in *|done]. Qed.

Lemma key_before_total l k : List.length l = List.length k -> key_before l k \/ l = k \/ key_before k l.
Proof.
  revert k. induction l as [|s l IH]; intros [|t k]; try done; [by right; left|]. intros [= Hl].
  destruct (ltb_total s t) as [H|[->|H]]; [left; by constructor| |right; right; by constructor].
  destruct (IH k Hl) as [H|[->|H]]; [left; by constructor|by right; left|right; right; by constructor].
Qed.

Lemma not_less a b : less a b = false <-> failure_key b = failure_key a \/ key_before (failure_key b) (failure_key a).
Proof.
  rewrite <- not_true_iff_false, less_key. split.
  - intros H. destruct (key_before_total (failure_key a) (failure_key b)) as [?|[?|?]]; [done|done|by left|by right].
  - intros [H|H] H'; [rewrite H in H'|apply (key_before_trans _ _ _ H) in H']; by apply key_before_irrefl in H'.
Qed.

#[export] Instance ordered_trans : Transitive ordered.
Proof.
  intros a b c. unfold ordered. rewrite !not_less.
  intros [H1|H1] [H2|H2]; [left; congruence|right; by rewrite H1|right; by rewrite <- H2|right; by eapply key_before_trans].
Qed.

Lemma less_ordered a b : less a b = true -> ordered a b.
Proof. rewrite less_key. unfold ordered. rewrite not_less. by right. Qed.

Lemma ordered_refl a : ordered a a.
Proof. unfold ordered. apply not_less. by left. Qed.

Lemma sink_perm x l : sink x l ≡ₚ x :: l.
Proof.
  revert x. induction l as [|y l IH]; intros x; simpl; [done|]. destruct (less x y); rewrite IH; [apply Permutation_swap|done].
Qed.

(** The part that is sorted, from its end. *)
Definition descending : list Failure -> Prop := StronglySorted (fun a b => ordered b a).

Lemma sink_descending x l : descending l -> descending (sink x l).
Proof.
  revert x. induction l as [|y l IH]; intros x Hl; simpl; [by repeat constructor|].
  apply StronglySorted_inv in Hl as [Hl Hy]. destruct (less x y) eqn:Hxy.
  - constructor; [by apply IH|]. rewrite sink_perm. constructor; [by apply less_ordered|done].
  - constructor; [by apply IH|]. rewrite sink_perm. constructor; [done|].
    eapply Forall_impl; [exact Hy|]. intros z Hz. by etrans; [exact Hz|exact Hxy].
Qed.

Lemma descending_rev l : descending l -> StronglySorted ordered (rev l).
Proof.
  induction 1 as [|x l Hl IH Hx]; simpl; [constructor|]. apply StronglySorted_app_2; [|done|by repeat constructor].
  intros a b Ha Hb. apply list_elem_of_singleton in Hb as ->. rewrite Forall_forall in Hx. apply Hx.
  apply list_elem_of_In. by apply in_rev, list_elem_of_In.
Qed.

Lemma Sorted_perm fs : SchemaModel.Sorted fs ≡ₚ fs.
Proof.
  unfold SchemaModel.Sorted. rewrite <- Permutation_rev.
  enough (H : forall l, foldl (fun before x => sink x before) l fs ≡ₚ l ++ fs) by (by rewrite H).
  induction fs as [|f fs IH]; intros l; simpl; [by rewrite app_nil_r|]. rewrite IH, sink_perm. apply Permutation_middle.
Qed.

Lemma Sorted_sorted fs : StronglySorted ordered (SchemaModel.Sorted fs).
Proof.
  apply descending_rev. enough (H : forall l, descending l -> descending (foldl (fun before x => sink x before) l fs)) by (apply H; constructor).
  induction fs as [|f fs IH]; intros l Hl; simpl; [done|]. by apply IH, sink_descending.
Qed.

(** ** Where failures point *)

Section pointers.
Context {F B : Type} (lib : golib F B) (range : orders) (range_permutes : permutes range).
Notation Node := (Schema F nat).
Context (store : gmap nat Node).
Context (doc : json) (depth : nat) (doc_regular : regular depth doc).

Definition points (f : Failure) : Prop := is_Some (resolveJSONPointer doc (InstancePtr f)).

(** Between two collectors, failures that point into the document are added, up to the
    cap. *)
Definition kept (fc fc' : failureCollector) : Prop :=
  cap fc' = cap fc /\
  ((List.length (failures fc) <= cap fc)%nat -> (List.length (failures fc') <= cap fc)%nat) /\
  (Forall points (failures fc) -> Forall points (failures fc')).

Definition keeps (step : failureCollector -> failureCollector) : Prop := forall fc, kept fc (step fc).

(** A question asked on the side: the failures stay as they are. *)
Definition aside {A} (ask : failureCollector -> A * failureCollector) : Prop := forall fc,
  failures (ask fc).2 = failures fc /\ cap (ask fc).2 = cap fc.

Lemma keeps_id : keeps (fun fc => fc).
Proof. done. Qed.

Lemma kept_step fc fc' (step : failureCollector -> failureCollector) : keeps step -> kept fc fc' -> kept fc (step fc').
Proof. intros H (Hc & Hl & Hp). destruct (H fc') as (Hc' & Hl' & Hp'). rewrite Hc in *. split_and!; auto. Qed.

Lemma keeps_add f : points f -> keeps (add f).
Proof.
  intros Hf fc. unfold kept, add. destruct (Nat.ltb_spec (List.length (failures fc)) (cap fc)); [|done]. simpl.
  split; [done|]. rewrite length_app. simpl. split; [lia|]. intros H'. apply Forall_app. split; [done|by constructor].
Qed.

Lemma keeps_report b f : points f -> keeps (report b f).
Proof. intros Hf. unfold report. destruct b; [by apply keeps_add|apply keeps_id]. Qed.

Lemma keeps_bound {A} (o : option A) ex f : (forall a, points (f a)) -> keeps (bound o ex f).
Proof. intros Hf. unfold bound. destruct o; [by apply keeps_report|apply keeps_id]. Qed.

Lemma keeps_optionally {A} (o : option A) step : (forall a, keeps (step a)) -> keeps (optionally o step).
Proof. intros H. unfold optionally. destruct o; [apply H|apply keeps_id]. Qed.

Lemma keeps_if_any {A} (l : list A) step : keeps step -> keeps (if_any l step).
Proof. intros H. unfold if_any. destruct l; [apply keeps_id|done]. Qed.

Lemma keeps_given {A} (ask : failureCollector -> A * failureCollector) step : aside ask -> (forall a, keeps (step a)) -> keeps (given ask step).
Proof.
  intros Ha Hs fc. unfold given. destruct (Ha fc) as [Hf Hc]. destruct (ask fc) as [a fc']. simpl in *.
  unfold kept. rewrite <- Hf, <- Hc. apply Hs.
Qed.

Lemma keeps_fold {A} (body : failureCollector -> A -> failureCollector) (l : list A) :
  (forall x, x ∈ l -> keeps (fun fc => body fc x)) -> keeps (fun fc => foldl body fc l).
Proof.
  induction l as [|x l IH]; intros H fc; [apply keeps_id|]. simpl. apply (kept_step fc (body fc x) (fun fc => foldl body fc l)).
  - apply IH. intros y Hy. apply H. by right.
  - apply (H x). by left.
Qed.

Lemma keeps_over_map {A} (m : list (string * A)) body :
  (forall k a, (k, a) ∈ m -> keeps (body k a)) -> keeps (over_map range m body).
Proof.
  intros H fc. unfold over_map.
  destruct (keeps_fold (fun fc kv => body kv.1 kv.2 fc) (range (loops fc) A m)
    ltac:(intros [k a] Hin; rewrite (range_permutes _ _ _) in Hin; by apply H)
    {| failures := failures fc; cap := cap fc; loops := S (loops fc); panicked := panicked fc |}) as (Hc & Hl & Hp). done.
Qed.

Lemma aside_within validate n s v ptr : aside (fails_within validate n s v ptr).
Proof. done. Qed.

Lemma aside_given {A R} (ask : failureCollector -> A * failureCollector) (step : A -> failureCollector -> R * failureCollector) :
  aside ask -> (forall a, aside (step a)) -> aside (given ask step).
Proof.
  intros Ha Hs fc. unfold given. destruct (Ha fc) as [Hf Hc]. destruct (ask fc) as [a fc']. simpl in *.
  rewrite <- Hf, <- Hc. apply Hs.
Qed.

Lemma aside_ret {A} (a : A) : aside (fun fc => (a, fc)).
Proof. done. Qed.

Lemma aside_any_item validate s arr : aside (any_item validate s arr).
Proof.
  induction arr as [|v arr IH]; [apply aside_ret|]. apply aside_given; [apply aside_within|]. intros []; [done|apply aside_ret].
Qed.

Lemma aside_any_of validate subs v ptr : aside (any_of validate subs v ptr).
Proof.
  induction subs as [|s subs IH]; [apply aside_ret|]. apply aside_given; [apply aside_within|]. intros []; [done|apply aside_ret].
Qed.

Lemma aside_one_of validate subs v ptr : aside (one_of validate subs v ptr).
Proof.
  induction subs as [|s subs IH]; [apply aside_ret|]. apply aside_given; [apply aside_within|]. intros failed.
  apply aside_given; [done|]. intros n. apply aside_ret.
Qed.

(** Where the walk stands: at [ptr] of the document, or at a key of an object there. *)
Definition stands_at (v : json) (ptr : string) : Prop :=
  is_Some (resolveJSONPointer doc ptr) /\
  match v with JArray _ | JObject _ => resolveJSONPointer doc ptr = Some v | _ => True end.

Lemma stands_resolved v ptr : resolveJSONPointer doc ptr = Some v -> stands_at v ptr.
Proof. intros H. split; [by eexists|by destruct v]. Qed.

Section keywords.
Context (validate : nat -> json -> string -> failureCollector -> failureCollector).
Context (validate_keeps : forall s v ptr, stands_at v ptr -> keeps (validate s v ptr)).
Context (schema : Node).

Lemma member_at obj ptr k v : stands_at (JObject obj) ptr -> (k, v) ∈ obj -> resolveJSONPointer doc (child_path ptr k) = Some v.
Proof.
  intros [_ Hp] Hin. eapply resolve_child; [exact Hp|]. destruct (regular_resolve _ _ _ _ doc_regular Hp) as [d Hd%regular_keys].
  by apply member_unique.
Qed.

Lemma property_keeps ptr k v : resolveJSONPointer doc (child_path ptr k) = Some v -> keeps (validate_property lib range validate schema ptr k v).
Proof.
  intros Hk. pose proof (stands_resolved _ _ Hk) as Hs. intros fc. unfold validate_property. cbv zeta.
  set (fc1 := over_map _ _ _ _).
  assert (H : kept fc fc1).
  { apply kept_step; [|apply kept_step; [|apply keeps_id]].
    - apply keeps_over_map. intros re sub _. destruct (regexp_match lib re k); [by apply validate_keeps|apply keeps_id].
    - apply keeps_optionally. intros a. by apply validate_keeps. }
  destruct (_ || _); [done|]. destruct (AdditionalPropertiesBool schema) as [[]|];
    (apply kept_step; [|done]); try (apply keeps_optionally; intros; by apply validate_keeps).
  apply keeps_add. by eexists.
Qed.

Lemma dependency_keeps obj ptr k d : stands_at (JObject obj) ptr -> keeps (validate_dependency validate schema obj ptr k d).
Proof.
  intros Hs. unfold validate_dependency. destruct (has_key k obj); [|apply keeps_id].
  destruct d as [names|a]; [|by apply validate_keeps]. apply keeps_fold. intros n _. apply keeps_report. apply Hs.
Qed.

Lemma object_keeps obj ptr : stands_at (JObject obj) ptr -> keeps (validateObject lib range validate schema obj ptr).
Proof.
  intros Hs fc. unfold validateObject. cbv zeta.
  apply kept_step; [apply keeps_over_map; intros; by apply dependency_keeps|].
  apply kept_step.
  { apply keeps_optionally. intros names. apply keeps_over_map. intros k v Hin. apply validate_keeps.
    split; [|done]. eexists. by eapply member_at. }
  apply kept_step; [apply keeps_over_map; intros k v Hin; apply property_keeps; by eapply member_at|].
  do 2 (apply kept_step; [apply keeps_bound; intros; apply Hs|]).
  apply (kept_step fc fc (fun fc => foldl _ fc _)); [|apply keeps_id]. apply keeps_fold. intros n _. apply keeps_report, Hs.
Qed.

Lemma array_keeps arr ptr : stands_at (JArray arr) ptr -> keeps (validateArray validate schema arr ptr).
Proof.
  intros Hs fc. unfold validateArray. cbv zeta. apply kept_step.
  { apply keeps_optionally. intros a. apply keeps_given; [apply aside_any_item|]. intros b. apply keeps_report, Hs. }
  apply kept_step.
  { apply keeps_optionally. intros a.
    apply (keeps_fold (fun fc item => validate a item.2 (item_path ptr item.1) fc)). intros [n v] Hin. simpl. apply validate_keeps, stands_resolved.
    apply numbered_lookup in Hin as (i & -> & Hi). destruct Hs as [_ Hp]. apply (resolve_item _ _ arr); [|done|done].
    destruct (regular_resolve _ _ _ _ doc_regular Hp) as [d Hd]. by eapply regular_length. }
  apply kept_step; [apply keeps_report, Hs|]. do 2 (apply kept_step; [apply keeps_bound; intros; apply Hs|]). apply keeps_id.
Qed.

Lemma string_keeps str ptr : stands_at (JString str) ptr -> keeps (validateString lib schema str ptr).
Proof. intros Hs fc. unfold validateString. cbv zeta. do 4 (apply kept_step; [apply keeps_bound; intros; apply Hs|]). apply keeps_id. Qed.

Lemma number_keeps n ptr : stands_at (JNumber n) ptr -> keeps (validateNumber lib schema n ptr).
Proof.
  intros Hs fc. unfold validateNumber. cbv zeta.
  apply kept_step; [apply keeps_optionally; intros m; destruct (isMultipleOf _ _ _); [apply keeps_report, Hs|by intros ?]|].
  do 4 (apply kept_step; [apply keeps_bound; intros; apply Hs|]). apply keeps_id.
Qed.

Lemma all_of_keeps subs v ptr f : points f -> keeps (all_of validate subs v ptr f).
Proof.
  intros Hf. induction subs as [|s subs IH]; [apply keeps_id|]. apply keeps_given; [apply aside_within|].
  intros []; [by apply keeps_add|done].
Qed.

Lemma branch_keeps o v ptr f : points f -> keeps (branch validate o v ptr f).
Proof. intros Hf. apply keeps_optionally. intros a. apply keeps_given; [apply aside_within|]. intros b. by apply keeps_report. Qed.

Lemma conditionals_keep v ptr : stands_at v ptr -> keeps (validateConditionals validate schema v ptr).
Proof.
  intros [Hs _] fc. unfold validateConditionals. cbv zeta. apply kept_step.
  { apply keeps_optionally. intros a. apply keeps_given; [apply aside_within|]. intros []; by apply branch_keeps. }
  apply kept_step.
  { apply keeps_optionally. intros a. apply keeps_given; [apply aside_within|]. intros b. by apply keeps_report. }
  apply kept_step; [apply keeps_if_any, keeps_given; [apply aside_one_of|]; intros; by apply keeps_report|].
  apply kept_step; [apply keeps_if_any, keeps_given; [apply aside_any_of|]; intros; by apply keeps_report|].
  apply kept_step; [by apply all_of_keeps|apply keeps_id].
Qed.

Lemma keywords_keep v ptr : stands_at v ptr -> keeps (validate_keywords lib range validate schema v ptr).
Proof.
  intros Hs fc. unfold validate_keywords. cbv zeta. destruct (_ && _); [apply keeps_add, Hs|].
  apply kept_step; [by apply conditionals_keep|].
  set (fc1 := bound _ _ _ _). assert (H : kept fc fc1).
  { apply kept_step; [apply keeps_bound; intros; apply Hs|]. apply keeps_report, Hs. }
  destruct v; try exact H; (apply kept_step; [|exact H]);
    auto using object_keeps, array_keeps, string_keeps, number_keeps.
Qed.
End keywords.

Lemma validate_keeps room : forall a v ptr, stands_at v ptr -> keeps (validate lib range store room a v ptr).
Proof.
  induction room as [|room IH]; intros a v ptr Hs; simpl; [apply keeps_add, Hs|].
  destruct (Resolved store a) as [s|]; [|apply keeps_id].
  destruct (Boolean s) as [[]|]; [apply keeps_id|apply keeps_add, Hs|]. by apply keywords_keep.
Qed.
End pointers.

(** C15: the failures of a value that was decoded are at most 256, stand in the order of
    [compareFailure], and each of them points at something that is in the value.  The
    validation panics only where a number divided by a multipleOf overflows. *)
Theorem failures_are_located {F B} (lib : golib F B) range store a data v :
  permutes range -> decodeJSONStrict data = Decoded v ->
  match ValidateValue lib range store a v with
  | Some fs =>
      (List.length fs <= OSCALValidatorMaxFailures)%nat /\ StronglySorted ordered fs /\
      Forall (fun f => is_Some (resolveJSONPointer v (InstancePtr f))) fs
  | None => exists n m, overflows lib n m
  end.
Proof.
  intros Hr Hd. destruct (ValidateValue lib range store a v) as [fs|] eqn:HV; [|by eapply ValidateValue_panics].
  unfold ValidateValue in HV. revert HV.
  destruct (validate_keeps lib range Hr store v _ (decoded_regular _ _ Hd) (S OSCALValidatorMaxDepth) a v ""
    (stands_resolved v v "" eq_refl) {| failures := []; cap := OSCALValidatorMaxFailures; loops := 0; panicked := false |}) as (_ & Hl & Hp).
  destruct (panicked _); [done|]. intros [= <-].
  split_and!; [rewrite (Permutation_length (Sorted_perm _)); apply Hl, Nat.le_0_l|apply Sorted_sorted|].
  rewrite Sorted_perm. by apply Hp.
Qed.

Lemma failures_are_located_witness :
  let c := (Compile zlib in_turn (text person) NewCompiler).2 in
  let v := JObject [("name", JString ""); ("tags", JArray [JString "a"; JString "c"]); ("age", JNumber "1")] in
  exists fs, ValidateValue zlib in_turn (store c) 0 v = Some fs /\
    map InstancePtr fs = ["/age"; "/name"; "/tags/1"] /\ StronglySorted ordered fs.
Proof.
  intros c v. pose proof (failures_are_located zlib in_turn (store c) 0
    (text "{'name':'','tags':['a','c'],'age':1}") v in_turn_permutes ltac:(vm_compute; reflexivity)) as H.
  destruct (ValidateValue zlib in_turn (store c) 0 v) as [fs|] eqn:HV.
  - exists fs. destruct H as (_ & H & _). split; [reflexivity|]. split; [|exact H]. vm_compute in HV. by injection HV as <-.
  - vm_compute in HV. discriminate HV.
Defined.
