(* ===== verification/SchemaDecode.v ===== *)
(** The decoder of the schema engine ends, and what it lets through is bounded.

    Every token takes bytes, so that the fuel of [decodeJSONStrict] is enough: it does not
    run out, and more of it changes nothing. *)
From S2P Require Import Prelude Encoding Json JsonDecode SchemaModel SchemaCompile SchemaValidate SchemaSpec SchemaDoc SchemaPointer SchemaSample.
From Stdlib Require Import String Ascii List ZArith Lia Bool.
From stdpp Require Import base strings list gmap pretty.
Open Scope string_scope.
Open Scope list_scope.

(** ** Tokens take bytes *)

Lemma decode_rune_takes z l : (1 <= (decode_rune (z :: l)).2)%nat.
Proof. unfold decode_rune. repeat case_match; simpl; lia. Qed.

Lemma hex4_shorter l u r : hex4 l = Some (u, r) -> (List.length r < List.length l)%nat.
Proof.
  destruct l as [|a [|b [|c [|d l]]]]; try done. simpl.
  destruct (hex_val (byte_of a)), (hex_val (byte_of b)), (hex_val (byte_of c)), (hex_val (byte_of d)); try done.
  intros [= _ <-]. lia.
Qed.

Lemma parse_chars_shorter fuel : forall l acc s r, parse_chars fuel l acc = Some (s, r) -> (List.length r < List.length l)%nat.
Proof.
  induction fuel as [|fuel IH]; intros l acc s r; [done|]. destruct l as [|z l]; [done|]. cbn [parse_chars].
  destruct (z =? 34)%Z; [intros [= _ <-]; simpl; lia|]. destruct (z <? 32)%Z; [done|].
  destruct (z =? 92)%Z.
  - destruct l as [|e l]; [done|].
    assert (Hesc : match simple_escape e with Some b => parse_chars fuel l (acc ++ [b]) | None => None end = Some (s, r) ->
                   (List.length r < List.length (z :: e :: l))%nat).
    { destruct (simple_escape e); [|done]. intros H%IH. simpl. lia. }
    assert (Hu : match hex4 l with
                 | None => None
                 | Some (u, r) =>
                     if (55296 <=? u)%Z && (u <=? 56319)%Z then
                       match r with
                       | 92%Z :: 117%Z :: r' =>
                           match hex4 r' with
                           | None => None
                           | Some (v, r'') =>
                               if (56320 <=? v)%Z && (v <=? 57343)%Z
                               then parse_chars fuel r'' (acc ++ encode_rune (65536 + (u - 55296) * 1024 + (v - 56320)))
                               else parse_chars fuel r (acc ++ encode_rune 65533)
                           end
                       | _ => parse_chars fuel r (acc ++ encode_rune 65533)
                       end
                     else parse_chars fuel r (acc ++ encode_rune u)
                 end = Some (s, r) -> (List.length r < List.length (z :: e :: l))%nat).
    { destruct (hex4 l) as [[u t]|] eqn:Ht; [|done]. apply hex4_shorter in Ht. destruct (_ && _).
      - assert (Hplain : parse_chars fuel t (acc ++ encode_rune 65533) = Some (s, r) -> (List.length r < List.length (z :: e :: l))%nat)
          by (intros H%IH; simpl; lia).
        destruct t as [|x [|y t]]; try exact Hplain; [by repeat case_match|].
        repeat (match goal with |- context [match ?x with _ => _ end] => is_var x; destruct x; try exact Hplain end).
        destruct (hex4 t) as [[w t']|] eqn:Hw; [|done]. apply hex4_shorter in Hw. destruct (_ && _); [|exact Hplain].
        intros H%IH. simpl in *. lia.
      - intros H%IH. simpl. lia. }
    repeat (match goal with |- context [match ?x with _ => _ end] => is_var x; destruct x; try exact Hesc end). exact Hu.
  - destruct (decode_rune (z :: l)) as [c w] eqn:Hd. intros H%IH.
    pose proof (decode_rune_takes z l) as Hw. rewrite Hd in Hw. destruct w; [simpl in Hw; lia|]. simpl in *. rewrite length_skipn in H. lia.
Qed.

(** A string of [n] bytes takes at most [n] steps. *)
Lemma parse_chars_fuel fuel : forall fuel' l acc, (List.length l < fuel)%nat -> (fuel <= fuel')%nat ->
  parse_chars fuel' l acc = parse_chars fuel l acc.
Proof.
  induction fuel as [|fuel IH]; intros fuel' l acc Hl Hf; [lia|]. destruct fuel' as [|fuel']; [lia|].
  destruct l as [|z l]; [done|]. cbn [parse_chars]. simpl in Hl.
  assert (Hrec : forall l' acc', (List.length l' <= List.length l)%nat -> parse_chars fuel' l' acc' = parse_chars fuel l' acc')
    by (intros; apply IH; lia).
  destruct (z =? 34)%Z; [done|]. destruct (z <? 32)%Z; [done|]. destruct (z =? 92)%Z.
  - destruct l as [|e l]; [done|]. simpl in Hrec.
    assert (Hesc : match simple_escape e with Some b => parse_chars fuel' l (acc ++ [b]) | None => None end =
                   match simple_escape e with Some b => parse_chars fuel l (acc ++ [b]) | None => None end)
      by (destruct (simple_escape e); [apply Hrec; lia|done]).
    repeat (match goal with |- context [match ?x with _ => _ end] => is_var x; destruct x; try exact Hesc end).
    destruct (hex4 l) as [[u t]|] eqn:Ht; [|done]. apply hex4_shorter in Ht. destruct (_ && _); [|apply Hrec; lia].
    assert (Hplain : parse_chars fuel' t (acc ++ encode_rune 65533) = parse_chars fuel t (acc ++ encode_rune 65533))
      by (apply Hrec; lia).
    destruct t as [|x [|y t]]; try exact Hplain; [by repeat case_match|].
    repeat (match goal with |- context [match ?x with _ => _ end] => is_var x; destruct x; try exact Hplain end).
    destruct (hex4 t) as [[w t']|] eqn:Hw; [|done]. apply hex4_shorter in Hw. destruct (_ && _); [|exact Hplain].
    apply Hrec. simpl in *. lia.
  - destruct (decode_rune (z :: l)) as [c w] eqn:Hd. pose proof (decode_rune_takes z l) as Hw. rewrite Hd in Hw.
    destruct w; [simpl in Hw; lia|]. apply Hrec. simpl. rewrite length_skipn. lia.
Qed.

Lemma take_word_shorter w l r : take_word w l = Some r -> List.length l = (List.length w + List.length r)%nat.
Proof.
  revert l. induction w as [|a w IH]; intros l; simpl; [by intros [= ->]|]. destruct l as [|b l]; [done|].
  destruct (a =? b)%Z; [|done]. intros H%IH. simpl. lia.
Qed.

Lemma span_digits_shorter l : (List.length (span_digits l).2 <= List.length l)%nat.
Proof.
  induction l as [|z l IH]; simpl; [lia|]. destruct (is_digit z); [|simpl; lia].
  destruct (span_digits l) as [d r]. simpl in *. lia.
Qed.

Lemma digits1_shorter l d r : digits1 l = Some (d, r) -> (List.length r < List.length l)%nat.
Proof.
  unfold digits1. destruct l as [|z l]; [done|]. simpl. destruct (is_digit z); [|done].
  pose proof (span_digits_shorter l) as H. destruct (span_digits l) as [d' r']. intros [= _ <-]. simpl in *. lia.
Qed.

(** The cases of a match on a list that starts with a given byte. *)
Ltac byte_cases H := repeat (match type of H with context [match ?x with _ => _ end] => is_var x; destruct x end).

Lemma parse_int_shorter l d r : parse_int l = Some (d, r) -> (List.length r < List.length l)%nat.
Proof.
  unfold parse_int. destruct (digits1 l) as [[d' r']|] eqn:Hd; [apply digits1_shorter in Hd|];
    intros H; byte_cases H; try done; simplify_eq; simpl in *; lia.
Qed.

Lemma parse_frac_shorter l d r : parse_frac l = Some (d, r) -> (List.length r <= List.length l)%nat.
Proof.
  unfold parse_frac. intros H. byte_cases H; simplify_eq; try lia.
  destruct (digits1 _) as [[d' r']|] eqn:Hd; [|done]. apply digits1_shorter in Hd. simplify_eq. simpl. lia.
Qed.

Lemma parse_exp_shorter l d r : parse_exp l = Some (d, r) -> (List.length r <= List.length l)%nat.
Proof.
  unfold parse_exp. destruct l as [|e l]; [by intros [= _ <-]|]. destruct (_ || _); [|by intros [= _ <-]].
  destruct l as [|s l]; [done|]. destruct (_ || _); destruct (digits1 _) as [[d' r']|] eqn:Hd; try done;
    apply digits1_shorter in Hd; intros [= _ <-]; simpl in *; lia.
Qed.

Lemma parse_number_shorter l d r : parse_number l = Some (d, r) -> (List.length r < List.length l)%nat.
Proof.
  assert (Hbody : forall sg k, match parse_int k with
            | Some (i, k) => match parse_frac k with
                             | Some (f, k) => match parse_exp k with Some (e, k) => Some (sg ++ i ++ f ++ e, k) | None => None end
                             | None => None
                             end
            | None => None
            end = Some (d, r) -> (List.length r < List.length k)%nat).
  { intros sg k. destruct (parse_int k) as [[i k1]|] eqn:Hi; [|done]. destruct (parse_frac k1) as [[f k2]|] eqn:Hf; [|done].
    destruct (parse_exp k2) as [[e k3]|] eqn:He; [|done]. intros [= _ <-].
    apply parse_int_shorter in Hi. apply parse_frac_shorter in Hf. apply parse_exp_shorter in He. lia. }
  unfold parse_number. intros H. byte_cases H; apply Hbody in H; simpl in *; lia.
Qed.

Lemma skip_ws_shorter l : (List.length (skip_ws l) <= List.length l)%nat.
Proof. induction l as [|z l IH]; simpl; [lia|]. destruct (_ || _); simpl; lia. Qed.

Lemma scalar_token_shorter l v r : scalar_token l = Some (v, r) -> (List.length r < List.length l)%nat.
Proof.
  unfold scalar_token. destruct l as [|z l]; [done|].
  destruct (z =? 34)%Z.
  { destruct (parse_chars _ _ _) as [[s t]|] eqn:H; [|done]. apply parse_chars_shorter in H. intros [= _ <-]. simpl. lia. }
  do 3 (destruct (Z.eqb _ _); [unfold option_map; destruct (take_word _ _) eqn:H; [|done]; apply take_word_shorter in H; intros [= _ <-]; simpl in *; lia|]).
  destruct (parse_number _) as [[n t]|] eqn:H; [|done]. apply parse_number_shorter in H. intros [= _ <-]. lia.
Qed.

Lemma starts_tail b l : starts b l = true -> List.length l = S (List.length (tail l)).
Proof. by destruct l. Qed.

Lemma key_token_shorter l k r : key_token l = Some (k, r) -> (List.length r < List.length l)%nat.
Proof.
  unfold key_token. destruct (starts 34 l) eqn:Hs; [|done]. apply starts_tail in Hs.
  destruct (parse_chars _ _ _) as [[s t]|] eqn:H; [|done]. apply parse_chars_shorter in H. intros [= _ <-]. lia.
Qed.

Lemma next_item_shorter b l r : next_item b l = Some r -> (List.length r <= List.length l)%nat.
Proof.
  unfold next_item. destruct b; [by intros [= <-]|]. destruct (starts 44 l) eqn:Hs; [|done]. apply starts_tail in Hs.
  destruct (_ || _); [done|]. intros [= <-]. pose proof (skip_ws_shorter (tail l)). lia.
Qed.

(** ** Enough fuel *)

Notation size l := (List.length l).

Lemma decode_shorter fuel :
  (forall d l v r, decodeJSONValue fuel d l = Decoded (v, r) -> (size r < size l)%nat) /\
  (forall d ms l v r, decode_members fuel d ms l = Decoded (v, r) -> (size r < size l)%nat) /\
  (forall d vs l v r, decode_elements fuel d vs l = Decoded (v, r) -> (size r < size l)%nat).
Proof.
  induction fuel as [|fuel (IHv & IHm & IHe)]; [split_and!; done|].
  split_and!; cbn [decodeJSONValue decode_members decode_elements].
  - intros d l v r. pose proof (skip_ws_shorter l) as Hw. destruct (_ <? d)%nat; [done|].
    destruct (starts 123 _) eqn:Ho; [intros H%IHm; apply starts_tail in Ho; lia|].
    destruct (starts 91 _) eqn:Ha; [intros H%IHe; apply starts_tail in Ha; lia|].
    destruct (scalar_token _) as [[w t]|] eqn:Ht; [|done]. apply scalar_token_shorter in Ht. intros [= _ <-]. lia.
  - intros d ms l v r. pose proof (skip_ws_shorter l) as Hw.
    destruct (starts 125 _) eqn:Ho; [intros [= _ <-]; apply starts_tail in Ho; lia|].
    destruct (_ || _); [done|]. destruct (_ <=? _)%nat; [done|].
    destruct (next_item _ _) as [t|] eqn:Hn; [|done]. cbn [mbind option_bind]. apply next_item_shorter in Hn.
    destruct (key_token t) as [[k t1]|] eqn:Hk; [|done]. apply key_token_shorter in Hk.
    destruct (member k ms); [done|]. destruct (_ <? _)%nat; [done|]. pose proof (skip_ws_shorter t1) as Hw1.
    destruct (starts 58 _) eqn:Hc; [|done]. apply starts_tail in Hc.
    destruct (decodeJSONValue fuel _ _) as [[w t2]|] eqn:Hv; [|done]. apply IHv in Hv. intros H%IHm. lia.
  - intros d vs l v r. pose proof (skip_ws_shorter l) as Hw.
    destruct (starts 93 _) eqn:Ho; [intros [= _ <-]; apply starts_tail in Ho; lia|].
    destruct (_ || _); [done|]. destruct (_ <=? _)%nat; [done|]. destruct (_ <? _)%nat; [done|].
    destruct (next_item _ _) as [t|] eqn:Hn; [|done]. apply next_item_shorter in Hn.
    destruct (decodeJSONValue fuel _ _) as [[w t2]|] eqn:Hv; [|done]. apply IHv in Hv. intros H%IHe. lia.
Qed.

(** Two calls with enough fuel answer the same. *)
Lemma decode_fuel fuel :
  (forall fuel' d l, (2 * size l + 2 <= fuel)%nat -> (fuel <= fuel')%nat -> decodeJSONValue fuel' d l = decodeJSONValue fuel d l) /\
  (forall fuel' d ms l, (2 * size l + 1 <= fuel)%nat -> (fuel <= fuel')%nat -> decode_members fuel' d ms l = decode_members fuel d ms l) /\
  (forall fuel' d vs l, (2 * size l + 3 <= fuel)%nat -> (fuel <= fuel')%nat -> decode_elements fuel' d vs l = decode_elements fuel d vs l).
Proof.
  induction fuel as [|fuel (IHv & IHm & IHe)]; [split_and!; intros; lia|].
  split_and!; intros [|fuel'] d; intros; try lia; cbn [decodeJSONValue decode_members decode_elements].
  - pose proof (skip_ws_shorter l) as Hw. destruct (_ <? d)%nat; [done|].
    destruct (starts 123 _) eqn:Ho; [apply starts_tail in Ho; apply IHm; lia|].
    destruct (starts 91 _) eqn:Ha; [apply starts_tail in Ha; apply IHe; lia|done].
  - pose proof (skip_ws_shorter l) as Hw. destruct (starts 125 _); [done|].
    destruct (_ || _); [done|]. destruct (_ <=? _)%nat; [done|].
    destruct (next_item _ _) as [t|] eqn:Hn; [|done]. cbn [mbind option_bind]. apply next_item_shorter in Hn.
    destruct (key_token t) as [[k t1]|] eqn:Hk; [|done]. apply key_token_shorter in Hk.
    destruct (member k ms); [done|]. destruct (_ <? _)%nat; [done|]. pose proof (skip_ws_shorter t1) as Hw1.
    destruct (starts 58 _) eqn:Hc; [|done]. apply starts_tail in Hc. rewrite IHv by lia.
    destruct (decodeJSONValue fuel _ _) as [[w t2]|] eqn:Hv; [|done]. apply decode_shorter in Hv. apply IHm; lia.
  - pose proof (skip_ws_shorter l) as Hw. destruct (starts 93 _); [done|].
    destruct (_ || _); [done|]. destruct (_ <=? _)%nat; [done|]. destruct (_ <? _)%nat; [done|].
    destruct (next_item _ _) as [t|] eqn:Hn; [|done]. apply next_item_shorter in Hn. rewrite IHv by lia.
    destruct (decodeJSONValue fuel _ _) as [[w t2]|] eqn:Hv; [|done]. apply decode_shorter in Hv. apply IHe; lia.
Qed.

(** With enough fuel it does not run out. *)
Lemma decode_ends fuel :
  (forall d l, (2 * size l + 2 <= fuel)%nat -> decodeJSONValue fuel d l <> out_of_fuel) /\
  (forall d ms l, (2 * size l + 1 <= fuel)%nat -> decode_members fuel d ms l <> out_of_fuel) /\
  (forall d vs l, (2 * size l + 3 <= fuel)%nat -> decode_elements fuel d vs l <> out_of_fuel).
Proof.
  induction fuel as [|fuel (IHv & IHm & IHe)]; [split_and!; intros; lia|].
  assert (Hsub : forall A d l (k : json * list Z -> decoded A), (2 * size l + 2 <= fuel)%nat ->
    (forall x, decodeJSONValue fuel d l = Decoded x -> k x <> out_of_fuel) ->
    match decodeJSONValue fuel d l with Decoded x => k x | Undecodable e => Undecodable e end <> out_of_fuel).
  { intros A d l k Hf Hk. specialize (IHv d l Hf). destruct (decodeJSONValue fuel d l); [by apply Hk|].
    intros [= ->]. by apply IHv. }
  split_and!; intros d; intros; cbn [decodeJSONValue decode_members decode_elements].
  - pose proof (skip_ws_shorter l) as Hw. destruct (_ <? d)%nat; [done|].
    destruct (starts 123 _) eqn:Ho; [apply starts_tail in Ho; apply IHm; lia|].
    destruct (starts 91 _) eqn:Ha; [apply starts_tail in Ha; apply IHe; lia|]. by destruct (scalar_token _).
  - pose proof (skip_ws_shorter l) as Hw. destruct (starts 125 _); [done|].
    destruct (_ || _); [done|]. destruct (_ <=? _)%nat; [done|].
    destruct (next_item _ _) as [t|] eqn:Hn; [|done]. cbn [mbind option_bind]. apply next_item_shorter in Hn.
    destruct (key_token t) as [[k t1]|] eqn:Hk; [|done]. apply key_token_shorter in Hk.
    destruct (member k ms); [done|]. destruct (_ <? _)%nat; [done|]. pose proof (skip_ws_shorter t1) as Hw1.
    destruct (starts 58 _) eqn:Hc; [|done]. apply starts_tail in Hc.
    apply (Hsub _ _ _ (fun x => let '(w, r) := x in decode_members fuel d ((k, w) :: ms) r)); [lia|].
    intros [w t2] Hv. apply decode_shorter in Hv. apply IHm. lia.
  - pose proof (skip_ws_shorter l) as Hw. destruct (starts 93 _); [done|].
    destruct (_ || _); [done|]. destruct (_ <=? _)%nat; [done|]. destruct (_ <? _)%nat; [done|].
    destruct (next_item _ _) as [t|] eqn:Hn; [|done]. apply next_item_shorter in Hn.
    apply (Hsub _ _ _ (fun x => let '(w, r) := x in decode_elements fuel d (w :: vs) r)); [lia|].
    intros [w t2] Hv. apply decode_shorter in Hv. apply IHe. lia.
Qed.

(** C16: the decoder ends on every text, good or bad: it takes at most as many nested calls
    as twice the bytes and two, of which it never runs out, and more change nothing;
    nor does a string take more steps than its bytes.  And what it lets through is nested
    at most 256 deep, has at most 4096 members or elements in each object or array, and no
    repeated key. *)
Theorem decoding_bounded data fuel :
  (2 * String.length data + 2 <= fuel)%nat ->
  decodeJSONValue fuel 0 (str_bytes data) = decodeJSONValue (2 * String.length data + 2) 0 (str_bytes data) /\
  decodeJSONValue fuel 0 (str_bytes data) <> out_of_fuel /\ decodeJSONStrict data <> out_of_fuel /\
  (forall l acc, (List.length l < fuel)%nat -> parse_chars fuel l acc = parse_chars (S (List.length l)) l acc) /\
  forall v, decodeJSONStrict data = Decoded v -> regular OSCALValidatorMaxDepth v.
Proof.
  intros Hf. split_and!; [| | | |intros v; apply decoded_regular].
  - rewrite <- length_str_bytes in *. by apply decode_fuel.
  - apply decode_ends. by rewrite length_str_bytes.
  - unfold decodeJSONStrict. pose proof (proj1 (decode_ends (2 * size (str_bytes data) + 2)) 0%nat (str_bytes data) (le_n _)) as H.
    destruct (decodeJSONValue _ _ _) as [[v r]|e]; [destruct (after_document r) as [[]|]; done|]. intros [= ->]. by apply H.
  - intros l acc Hl. apply parse_chars_fuel; lia.
Qed.

(** A good text and a bad one. *)
Lemma decoding_bounded_witness :
  decodeJSONValue 100 0 (str_bytes (text "{'a':[1,{]}")) = bad_json /\
  decodeJSONValue 24 0 (str_bytes (text "{'a':[1,{]}")) = bad_json /\
  decodeJSONStrict (text "{'a':[1,{}]}") = Decoded (JObject [("a", JArray [JNumber "1"; JObject []])]) /\
  regular OSCALValidatorMaxDepth (JObject [("a", JArray [JNumber "1"; JObject []])]).
Proof.
  assert (H : decodeJSONStrict (text "{'a':[1,{}]}") = Decoded (JObject [("a", JArray [JNumber "1"; JObject []])])) by (vm_compute; reflexivity).
  split; [vm_compute; reflexivity|].
  destruct (decoding_bounded (text "{'a':[1,{]}") 100) as (He & _); [vm_compute; lia|].
  split; [etransitivity; [symmetry; exact He|vm_compute; reflexivity]|]. split; [exact H|].
  apply (decoding_bounded (text "{'a':[1,{}]}") 100); [vm_compute; lia|exact H].
Defined.
