(* ===== verification/SchemaCases.v ===== *)
(** The schema engine on concrete schemas: what it accepts and refuses, and where it
    departs from the comments or from Draft-07. *)
From S2P Require Import Prelude Encoding Json JsonDecode SchemaModel SchemaCompile SchemaValidate SchemaSample.
From Stdlib Require Import String Ascii List ZArith Lia Bool.
From stdpp Require Import base strings list gmap pretty.
Open Scope string_scope.
Open Scope list_scope.

Example person_accepted : reasons (check_text in_turn person "{'name':'x','tags':['a','b']}") = Some [].
Proof. vm_compute. reflexivity. Qed.
Example person_rejected : reasons (check_text in_turn person "{'name':'','tags':['a','c'],'age':1}") =
  Some [(ReasonValueAdditionalProp, "/age"); (ReasonValueMinLength, "/name"); (ReasonValueEnumMismatch, "/tags/1")].
Proof. vm_compute. reflexivity. Qed.

(** ** Behaviour that differs from the comments or from Draft-07 *)

(** A cycle of references compiles, and accepts every value. *)
Example reference_cycle_accepted :
  reasons (check_text in_turn "{'$ref':'#/definitions/a','definitions':{'a':{'$ref':'#/definitions/b'},'b':{'$ref':'#/definitions/a'}}}" "7") = Some [].
Proof. vm_compute. reflexivity. Qed.

(** A boolean under not, contains, if, then or else is dropped. *)
Example boolean_not_dropped : reasons (check_text in_turn "{'not':true}" "7") = Some [].
Proof. vm_compute. reflexivity. Qed.
Example boolean_then_dropped : reasons (check_text in_turn "{'if':{'type':'number'},'then':false}" "7") = Some [].
Proof. vm_compute. reflexivity. Qed.

(** Of several types only the first is kept. *)
Example first_type_only : reasons (check_text in_turn "{'type':['string','null']}" "null") = Some [(ReasonValueTypeMismatch, "")].
Proof. vm_compute. reflexivity. Qed.

(** Of a tuple the first schema is applied to every item, and additionalItems to none. *)
Example first_item_schema_only :
  reasons (check_text in_turn "{'items':[{'type':'string'},{'type':'boolean'}],'additionalItems':false}" "['x',true]") =
    Some [(ReasonValueTypeMismatch, "/1")] /\
  reasons (check_text in_turn "{'items':[{'type':'string'}],'additionalItems':false}" "['x','y']") = Some [].
Proof. split; vm_compute; reflexivity. Qed.

(** Equal numbers in different notations differ. *)
Example number_notation_compared : reasons (check_text in_turn "{'const':1}" "1.0") = Some [(ReasonValueConstMismatch, "")] /\
  reasons (check_text in_turn "{'uniqueItems':true}" "[1,1.0]") = Some [].
Proof. split; vm_compute; reflexivity. Qed.

(** A limit with a fraction of zero is dropped. *)
Example limit_with_fraction_dropped : reasons (check_text in_turn "{'maxLength':1.0}" "'abc'") = Some [].
Proof. vm_compute. reflexivity. Qed.

(** Failures that differ only in their messages come in the order of the map. *)
Definition two_dependencies : string := "{'dependencies':{'a':['x'],'b':['y']}}".
Example messages_follow_map_order :
  match Compile zlib in_turn (text two_dependencies) NewCompiler with
  | (inl a, c) => let answer range := option_map (map Operands) (Validate zlib range (store c) a (text "{'a':1,'b':1}")) in
                  answer in_turn = Some [[OText "a"; OText "x"]; [OText "b"; OText "y"]] /\
                  answer reversed = Some [[OText "b"; OText "y"]; [OText "a"; OText "x"]]
  | _ => False
  end.
Proof. vm_compute. by split. Qed.

(** A compiler that is used again answers with the first schema. *)
Example compiler_used_again :
  let '(first, c) := Compile zlib in_turn (text "{'type':'string'}") NewCompiler in
  let '(second, c') := Compile zlib in_turn (text "{'type':'number'}") c in
  first = inl 0%nat /\ second = inl 0%nat /\
  option_map (map Reason) (Validate zlib in_turn (store c') 0 "7") = Some [ReasonValueTypeMismatch].
Proof. vm_compute. by split_and!. Qed.

(** A number whose quotient is infinite panics, whatever else is wrong with the document;
    one that is not divided does not. *)
Example infinite_quotient_panics :
  match Compile zlib in_turn (text "{'items':{'type':'number','multipleOf':1}}") NewCompiler with
  | (inl a, c) => Validate zlib in_turn (store c) a (text "[true,2000000000000000000]") = None /\
                  option_map (map Reason) (Validate zlib in_turn (store c) a (text "[true,2]")) = Some [ReasonValueTypeMismatch]
  | _ => False
  end.
Proof. vm_compute. by split. Qed.
